(* ===== verification/_CoqProject ===== *)
-Q . S2P
Prelude.v
Pmm.v
Frames.v
Paging.v
Heap.v
AddressSpace.v
Vector.v
Bytes.v
Net.v
Strings.v
Lists.v
Sched.v
Fs.v
Files.v
Ports.v
Ide.v
AtaDisk.v
AtaDma.v
Ahci.v
AhciDisk.v
Clock.v
Elf.v
Media.v
Input.v
Screen.v
Acpi.v
Rtl8139.v
Descriptors.v
Interrupts.v
Cpu.v
Syscalls.v
Text.v
Pathinfo.v
Boot.v
Ac97.v
Arith.v
Serial.v
Bootscreen.v
Igfx.v
Hda.v
