(* ===== verification/Prelude.v ===== *)
(** * NocturneOS: a model of the kernel and its correctness

    NocturneOS is a 32-bit x86 kernel in C (src/kernel).  This library translates the
    parts of the kernel that carry its own logic into executable Rocq definitions and
    proves what they do, on every branch, including the errors the code makes.

    ** How the code is read

    - A routine that may stop the machine or leave its objects returns an
      [outcome]: [Done], [Hang] (a loop that never ends) or [Fault] (an access outside
      an object, a null pointer, an index that is out of range).  State is passed
      explicitly; [x ← m; k] sequences outcomes.
    - Machine integers are [Z] with the reduction of their width written out ([u8],
      [u16], [u32], [u64], [s8], [s16], [s32]).
    - Loops are structural where they can be; otherwise they take fuel, the fuel is
      computed from the state by the definition itself, and a theorem says that it is
      enough ([Hang] is then a property of the code, not of the model).  Loops that wait
      for a device take the number of polls as an argument.
    - What is outside of the sources (hardware, the drivers behind a file system, the
      addresses the allocator chooses for blocks whose contents do not matter) is a
      parameter; what is relied on is a named law, and a concrete instance shows that
      the law can hold.
    - Logging ([qemu_log] and its kin) is left out everywhere.

    ** The parts

    - Prelude.v (this file): outcomes, machine words, bits, pages, C arrays.
    - Pmm.v: mem/pmm.c, the bitmap of physical pages.  The first half is the code over
      bytes; the second half reads the bitmap as a set of page numbers: first fit, runs,
      round trips, the reservation of the memory map and of the kernel.
    - Frames.v: the class [FrameAllocator] of what paging.c and vmm.c ask of pmm.c, and
      the proof that pmm.c provides it.
    - Paging.v: arch/x86/mem/paging.c.  Two-level tables in a word-addressed physical
      memory together with the processor's walk, so that the recursive slot works as on
      the machine; mapping, queries, unmapping, the identity map of the boot.
    - Heap.v: mem/vmm.c.  The sorted array of blocks ([alloc_no_map], [free_no_map]), the
      mapping of the pages under a block ([kmalloc_common], [kfree], [krealloc_common])
      against the class [PageOps], and the composition with Paging.v and Pmm.v.
    - Vector.v: lib/libvector, a buffer with size and capacity refines lists.
    - Bytes.v, Net.v: net/*.c, the byte order, queues of packets, Ethernet, ARP, IPv4,
      UDP, ICMP, DHCP and TCP over packets as byte buffers.
    - Strings.v: lib/string.c over a byte memory; Pathinfo.v: lib/php/pathinfo.c on top of it.
    - Lists.v, Sched.v: lib/list.c, sys/sync.c, sys/scheduler/*.c: intrusive rings, then
      threads, processes, the scheduler's step relation and the context switch.
    - AddressSpace.v: the directories of processes ([clone_kernel_page_directory] of mem/vmm.c): a
      new one translates what the kernel's does.
    - Fs.v, Files.v: fs/fsm.c, fs/nvfs.c (and the path decoder of rust/noct-nvfs),
      lib/fileio.c, then lib/stdio.c and sys/file_descriptors.c on top of them.
    - Ports.v: the monad of device code, over interfaces for ports ([PortIO]), registers in
      memory ([Mmio]) and memory that a device reads and writes ([PhysMem]).
    - Ide.v, AtaDisk.v, AtaDma.v: drv/disk/ata.c, atapi.c, ata_dma.c: programmed input and
      output, packets, bus mastering, and the disk that the disk manager sees.
    - Ahci.v, AhciDisk.v: drv/disk/ahci.c: command lists and tables, ports, waiting, and the
      disk that the disk manager sees.
    - Media.v: drv/disk/memdisk.c, initrd.c, media_notifier.c, over the mounts of Fs.v.
    - Clock.v: drv/cmos.c and lib/time_conversion.c: the clock chip, dates and seconds.
    - Elf.v: the loader of programs, sys/elf.c.
    - Input.v: io/keyboard.c, drv/input/ps2_mouse.c (and the C interface of rust/noct-ps2): keyboard,
      mouse and their buffers.
    - Screen.v: io/screen.c, lib/pixel.c: the two frame buffers and what is drawn on them.
      Bootscreen.v: drv/psf.c, sys/bootscreen.c: strings as glyphs, the stages of the boot.
      Igfx.v: drv/video/intel.c: the description of the monitor and its mode.
    - Acpi.v: sys/acpi.c, sys/apic/*.c, arch/x86/pic.c: tables, interrupt controllers, routing.
    - Rtl8139.v: drv/network/rtl8139.c: the ring of the card, over Net.v.
    - Descriptors.v, Interrupts.v: arch/x86/gdt.c, idt.c, tss.c, isr.c, cpu_isr.c, pit.c and the
      assembly that surrounds them: tables as the processor reads them, the way of an
      interrupt through stub, handler and back, exceptions, timer.
    - Cpu.v: arch/x86/cpuinfo.c, cpuvendor.c, mtrr.c, cputemp.c: what cpuid tells and the
      memory type registers.
    - Syscalls.v: sys/syscalls.c, user/env.c: the calls of programs, on the joint state of the
      parts they reach.
    - Boot.v: sys/grub_modules.c, sys/unwind.c: boot modules, the table of symbols, stack
      traces.
    - Ac97.v, Hda.v: drv/audio/ac97.c, hda.c ([kmain] does not start the second).
      Serial.v: arch/x86/serial_port.c, drv/beeper.c.
    - Arith.v: lib/intrin.c, lib/rand.c, lib/math/math.c.  Text.v: lib/utf_conversion.c.

    Frames, Paging and Heap are layers: each is proved against a class of operations
    and laws ([FrameAllocator], [PageOps]) and then instantiated with the layer below.
    Net uses Bytes; Sched uses Lists; Files uses Fs; the drivers use Ports and are proved
    against laws of the device, of which each has an instance; Elf and Syscalls join the
    parts.

    ** The theorems

    The theorems named in PROJECT.json carry their number in their comment.  They are
    of these groups: what the allocators return and change (Pmm, Paging, Heap), their
    round trips (allocate and free, map and unmap, write and read, the last also through
    system calls), refinement of an abstract object (sorted blocks, lists, queues, disks as
    byte sequences, packets as a queue), invariants of the state (kernel memory, mounts,
    descriptors, scheduler, input), equivalence with a reference (address spaces, calendar,
    memory types, division, playing), safety (exceptions end one thread, programs move to
    their own space), termination (drawing, disk commands, mounting), exact error behaviour
    (TCP, short frames, reallocation) and bounds (seeking).  Where the code does not do what
    it means to, the theorem states what it does.

    ** Not modelled

    The glyphs of fonts and the terminal (Rust), the frame buffer that the boot loader sets
    up (drv/video/vbe.c, vmware.c) and the graphics toys (output only); the order of kernel.c;
    drv/disk/floppy.c (not compiled: it calls functions that no longer exist); lib/sprintf.c
    (third party, M. Paland's printf); the mathematical functions (floating point); the armv7
    and x86_64 ports (not wired to the memory managers above); the Rust crates, apart from the
    path decoder and the search for symbols, on which the C code rests. *)
From Stdlib Require Import ZArith Lia.
From stdpp Require Import base list gmap numbers.

#[local] Open Scope Z_scope.

(** ** Results of kernel code *)

(** A kernel routine either returns, or stops making progress (an explicit
    [while(1);], a [cli; hlt], a loop whose exit condition is never met), or
    performs an access outside the object it was given (undefined behaviour of
    C, a page fault on the machine). *)
Inductive outcome (A : Type) : Type :=
  | Done (a : A)
  | Hang
  | Fault.
Arguments Done {A} a.
Arguments Hang {A}.
Arguments Fault {A}.

#[export] Instance outcome_ret : MRet outcome := fun A a => Done a.
#[export] Instance outcome_bind : MBind outcome := fun A B f m =>
  match m with
  | Done a => f a
  | Hang => Hang
  | Fault => Fault
  end.
#[export] Instance outcome_fmap : FMap outcome := fun A B f m =>
  match m with
  | Done a => Done (f a)
  | Hang => Hang
  | Fault => Fault
  end.

(** An object read out of its bounds is a [Fault]. *)
Definition of_option {A} (o : option A) : outcome A :=
  match o with
  | Some a => Done a
  | None => Fault
  end.

(** ** Machine words *)

(** Unsigned words of 8, 16, 32 and 64 bits are integers reduced modulo the
    width; the signed readings are in two's complement. *)
Definition u8 (x : Z) : Z := x mod 2 ^ 8.
Definition u16 (x : Z) : Z := x mod 2 ^ 16.
Definition u32 (x : Z) : Z := x mod 2 ^ 32.
Definition u64 (x : Z) : Z := x mod 2 ^ 64.
Definition s8 (x : Z) : Z := (x + 2 ^ 7) mod 2 ^ 8 - 2 ^ 7.
Definition s16 (x : Z) : Z := (x + 2 ^ 15) mod 2 ^ 16 - 2 ^ 15.
Definition s32 (x : Z) : Z := (x + 2 ^ 31) mod 2 ^ 32 - 2 ^ 31.

Lemma u8_range x : 0 <= u8 x < 2 ^ 8.
Proof. apply Z.mod_pos_bound. lia. Qed.
Lemma u16_range x : 0 <= u16 x < 2 ^ 16.
Proof. apply Z.mod_pos_bound. lia. Qed.
Lemma u32_range x : 0 <= u32 x < 2 ^ 32.
Proof. apply Z.mod_pos_bound. lia. Qed.
Lemma u64_range x : 0 <= u64 x < 2 ^ 64.
Proof. apply Z.mod_pos_bound. lia. Qed.

Lemma u8_small x : 0 <= x < 2 ^ 8 -> u8 x = x.
Proof. apply Z.mod_small. Qed.
Lemma u16_small x : 0 <= x < 2 ^ 16 -> u16 x = x.
Proof. apply Z.mod_small. Qed.
Lemma u32_small x : 0 <= x < 2 ^ 32 -> u32 x = x.
Proof. apply Z.mod_small. Qed.
Lemma u64_small x : 0 <= x < 2 ^ 64 -> u64 x = x.
Proof. apply Z.mod_small. Qed.

Lemma s32_small x : - 2 ^ 31 <= x < 2 ^ 31 -> s32 x = x.
Proof. intros ?. unfold s32. rewrite Z.mod_small; lia. Qed.

Lemma u32_sub_add x y : 0 <= x < 2 ^ 32 -> u32 (u32 (x + y) - y) = x.
Proof.
  intros Hx. unfold u32. rewrite Zminus_mod_idemp_l.
  replace (x + y - y) with x by lia. by apply Z.mod_small.
Qed.

Create HintDb words discriminated.
Create Rewrite HintDb words.
#[export] Hint Resolve u8_range u16_range u32_range u64_range : words.
#[export] Hint Rewrite u8_small u16_small u32_small u64_small s32_small using lia : words.

(** [words] drops the reductions that the context shows to be redundant. *)
Ltac words := autorewrite with words in *.

(** ** Bits *)

Lemma testbit_small b n j : 0 <= b < 2 ^ n -> n <= j -> Z.testbit b j = false.
Proof.
  intros Hb Hj. destruct (decide (n < 0)).
  { rewrite Z.pow_neg_r in Hb by lia. lia. }
  rewrite <- (Z.mod_small b (2 ^ n)) by lia.
  apply Z.mod_pow2_bits_high. lia.
Qed.

(** A non-negative integer is below [2^n] when its bits from [n] on are clear. *)
Lemma bits_bound x n :
  0 <= x -> 0 <= n -> (forall j, n <= j -> Z.testbit x j = false) -> x < 2 ^ n.
Proof.
  intros Hx Hn Hbits. destruct (decide (x = 0)) as [->|Hne]; [lia|].
  apply Z.log2_lt_pow2; [lia|].
  destruct (Z.lt_ge_cases (Z.log2 x) n) as [|Hge]; [done|].
  specialize (Hbits _ Hge). rewrite Z.bit_log2 in Hbits by lia. done.
Qed.

Lemma lor_bound a b n :
  0 <= n -> 0 <= a < 2 ^ n -> 0 <= b < 2 ^ n -> 0 <= Z.lor a b < 2 ^ n.
Proof.
  intros Hn Ha Hb. split; [apply Z.lor_nonneg; lia|].
  apply bits_bound; [apply Z.lor_nonneg; lia|lia|].
  intros j Hj. rewrite Z.lor_spec.
  by rewrite (testbit_small a n j), (testbit_small b n j).
Qed.

Lemma land_le_r word mask : 0 <= word -> 0 <= mask -> 0 <= Z.land word mask <= mask.
Proof.
  intros Hw Hm. rewrite <- (Z2N.id word), <- (Z2N.id mask) by done.
  rewrite <- N2Z.inj_land. pose proof (N.land_le_r (Z.to_N word) (Z.to_N mask)). lia.
Qed.

Lemma land_bound_l a b n :
  0 <= n -> 0 <= a < 2 ^ n -> 0 <= Z.land a b < 2 ^ n.
Proof.
  intros Hn Ha. split; [apply Z.land_nonneg; lia|].
  apply bits_bound; [apply Z.land_nonneg; lia|lia|].
  intros j Hj. rewrite Z.land_spec. by rewrite (testbit_small a n j).
Qed.

(** The C tests and updates of one bit: [(b >> j) & 1], [b | (1 << j)] and
    [b & ~(1 << j)]. *)
Lemma bit_probe b j : 0 <= j -> Z.land (Z.shiftr b j) 1 = Z.b2z (Z.testbit b j).
Proof.
  intros Hj. change 1 with (Z.ones 1). rewrite Z.land_ones by lia.
  rewrite Z.testbit_spec' by lia. by rewrite Z.shiftr_div_pow2.
Qed.

Definition bit_set (b j : Z) : Z := Z.lor b (Z.shiftl 1 j).
Definition bit_clear (b j : Z) : Z := Z.land b (Z.lnot (Z.shiftl 1 j)).

Lemma testbit_shiftl_one j k : 0 <= j -> Z.testbit (Z.shiftl 1 j) k = (j =? k).
Proof.
  intros Hj. rewrite Z.shiftl_1_l. destruct (Z.eqb_spec j k) as [->|].
  - by apply Z.pow2_bits_true.
  - by apply Z.pow2_bits_false.
Qed.

Lemma bit_set_spec b j k :
  0 <= j -> Z.testbit (bit_set b j) k = (j =? k) || Z.testbit b k.
Proof.
  intros Hj. unfold bit_set. rewrite Z.lor_spec, testbit_shiftl_one by lia.
  apply orb_comm.
Qed.

Lemma bit_clear_spec b j k :
  0 <= j -> 0 <= k -> Z.testbit (bit_clear b j) k = negb (j =? k) && Z.testbit b k.
Proof.
  intros Hj Hk. unfold bit_clear.
  rewrite Z.land_spec, Z.lnot_spec, testbit_shiftl_one by lia. apply andb_comm.
Qed.

Lemma bit_set_byte b j : 0 <= b < 2 ^ 8 -> 0 <= j < 8 -> 0 <= bit_set b j < 2 ^ 8.
Proof.
  intros Hb Hj. apply lor_bound; [lia|done|]. rewrite Z.shiftl_1_l.
  split; [lia|]. apply Z.pow_lt_mono_r; lia.
Qed.

Lemma bit_clear_byte b j : 0 <= b < 2 ^ 8 -> 0 <= bit_clear b j < 2 ^ 8.
Proof. intros Hb. apply land_bound_l; [lia|done]. Qed.

(** Two bytes with the same eight bits are equal. *)
Lemma byte_ext a b :
  0 <= a < 2 ^ 8 -> 0 <= b < 2 ^ 8 ->
  (forall j, 0 <= j < 8 -> Z.testbit a j = Z.testbit b j) -> a = b.
Proof.
  intros Ha Hb Heq. apply Z.bits_inj'. intros j Hj.
  destruct (Z.lt_ge_cases j 8) as [|Hge]; [by apply Heq|].
  by rewrite !(testbit_small _ 8).
Qed.

(** [x & ~(2^n - 1)] rounds down to a multiple of [2^n]. *)
Lemma land_lnot_ones x n : 0 <= x < 2 ^ 32 -> 0 <= n -> Z.land x (u32 (Z.lnot (Z.ones n))) = 2 ^ n * (x / 2 ^ n).
Proof.
  intros Hx Hn. rewrite Z.mul_comm, <- Z.shiftr_div_pow2, <- Z.shiftl_mul_pow2 by done.
  apply Z.bits_inj'. intros j Hj. rewrite Z.land_spec. unfold u32. destruct (Z.lt_ge_cases j 32) as [H32|H32].
  - rewrite Z.mod_pow2_bits_low, Z.lnot_spec by lia. destruct (Z.lt_ge_cases j n) as [H|H].
    + by rewrite Z.ones_spec_low, andb_false_r, Z.shiftl_spec_low by lia.
    + rewrite Z.ones_spec_high, andb_true_r, Z.shiftl_spec, Z.shiftr_spec by lia. f_equal. lia.
  - rewrite (testbit_small x 32) by lia. cbn [andb]. symmetry. destruct (Z.lt_ge_cases j n) as [H|H]; [by apply Z.shiftl_spec_low|].
    rewrite Z.shiftl_spec, Z.shiftr_spec by lia. apply (testbit_small x 32); lia.
Qed.

(** ** Pages *)

Definition PAGE_SIZE : Z := 0x1000.

(** common.h: [ALIGN(value, align)] on 32-bit operands. *)
Definition ALIGN (value align : Z) : Z :=
  u32 (value + Z.land (u32 (- value)) (u32 (align - 1))).

(** [x & ~0xfff] on a 32-bit [x]. *)
Definition page_base (x : Z) : Z := Z.land x 0xfffff000.

Lemma land_page_mask_div x : 0 <= x < 2 ^ 32 -> page_base x = 4096 * (x / 4096).
Proof.
  intros Hx. unfold page_base.
  assert (Z.land x 0xfffff000 = Z.shiftl (Z.shiftr x 12) 12) as ->.
  { apply Z.bits_inj'. intros j Hj. rewrite Z.land_spec.
    destruct (Z.lt_ge_cases j 12).
    - rewrite Z.shiftl_spec_low by lia.
      replace (Z.testbit 0xfffff000 j) with false; [by rewrite andb_false_r|].
      change 0xfffff000 with (Z.shiftl 0xfffff 12). by rewrite Z.shiftl_spec_low.
    - rewrite Z.shiftl_spec, Z.shiftr_spec by lia. replace (j - 12 + 12) with j by lia.
      destruct (Z.lt_ge_cases j 32).
      + replace (Z.testbit 0xfffff000 j) with true; [by rewrite andb_true_r|].
        change 0xfffff000 with (Z.shiftl (Z.ones 20) 12).
        rewrite Z.shiftl_spec, Z.ones_spec_low by lia. done.
      + by rewrite (testbit_small x 32). }
  rewrite Z.shiftl_mul_pow2, Z.shiftr_div_pow2 by lia.
  change (2 ^ 12) with 4096. lia.
Qed.

(** [ALIGN] to a power of two rounds up to the next multiple, modulo [2^32]. *)
Lemma ALIGN_spec v k :
  0 <= v < 2 ^ 32 -> 0 <= k < 32 ->
  ALIGN v (2 ^ k) = u32 (2 ^ k * ((v + 2 ^ k - 1) / 2 ^ k)).
Proof.
  intros Hv Hk. unfold ALIGN.
  assert (0 < 2 ^ k < 2 ^ 32) as Hp by (split; [lia|apply Z.pow_lt_mono_r; lia]).
  rewrite (u32_small (2 ^ k - 1)) by lia.
  replace (2 ^ k - 1) with (Z.ones k) by (rewrite Z.ones_equiv; lia).
  rewrite Z.land_ones by lia.
  assert (u32 (- v) mod 2 ^ k = (- v) mod 2 ^ k) as ->.
  { unfold u32. replace (2 ^ 32) with (2 ^ k * 2 ^ (32 - k)).
    - rewrite Z.rem_mul_r by lia. rewrite Z.mul_comm, Z_mod_plus_full. by apply Z.mod_mod; lia.
    - rewrite <- Z.pow_add_r by lia. f_equal. lia. }
  f_equal. rewrite Z.mod_eq by lia.
  assert ((v + 2 ^ k - 1) / 2 ^ k = - ((- v) / 2 ^ k)) as ->; [|lia].
  symmetry. apply Z.div_unique with (r := (v + 2 ^ k - 1) - 2 ^ k * - (- v / 2 ^ k)); [|lia].
  pose proof (Z.div_mod (- v) (2 ^ k) ltac:(lia)).
  pose proof (Z.mod_pos_bound (- v) (2 ^ k) ltac:(lia)). lia.
Qed.

Lemma ALIGN_page v :
  0 <= v <= 2 ^ 32 - 4096 -> ALIGN v PAGE_SIZE = 4096 * ((v + 4095) / 4096).
Proof.
  intros Hv. unfold PAGE_SIZE. change 0x1000 with (2 ^ 12).
  rewrite ALIGN_spec by lia. change (2 ^ 12) with 4096.
  replace (v + 4096 - 1) with (v + 4095) by lia.
  rewrite u32_small; [done|].
  pose proof (Z.div_mod (v + 4095) 4096 ltac:(lia)).
  pose proof (Z.mod_pos_bound (v + 4095) 4096 ltac:(lia)). lia.
Qed.

(** Whatever the alignment, the aligned value is at most [align - 1] above. *)
Lemma ALIGN_bounds v align :
  0 <= v -> 0 < align <= 2 ^ 32 -> v + align <= 2 ^ 32 ->
  v <= ALIGN v align <= v + (align - 1).
Proof.
  intros Hv Ha Hsum. unfold ALIGN. rewrite (u32_small (align - 1)) by lia.
  assert (0 <= Z.land (u32 (- v)) (align - 1) <= align - 1).
  { apply land_le_r; [apply u32_range|lia]. }
  rewrite u32_small; lia.
Qed.

(** ** Arrays indexed by C integers *)

(** Reading [a[i]] and writing [a[i] = x]; both [Fault] outside the array. *)
Definition array_get {A} (l : list A) (i : Z) : outcome A :=
  if i <? 0 then Fault else of_option (l !! Z.to_nat i).

Definition array_set {A} (l : list A) (i : Z) (x : A) : outcome (list A) :=
  if (i <? 0) || (Z.of_nat (length l) <=? i) then Fault
  else Done (<[Z.to_nat i := x]> l).

Lemma array_get_Done {A} (l : list A) i x :
  array_get l i = Done x <-> 0 <= i /\ l !! Z.to_nat i = Some x.
Proof.
  unfold array_get. destruct (Z.ltb_spec i 0); [split; [done|lia]|].
  destruct (l !! Z.to_nat i); simpl; split; intros; destruct_and?; simplify_eq; auto.
Qed.

Lemma array_get_in_range {A} (l : list A) i :
  0 <= i < Z.of_nat (length l) -> exists x, array_get l i = Done x.
Proof.
  intros Hi. destruct (lookup_lt_is_Some_2 l (Z.to_nat i)) as [x Hx]; [lia|].
  exists x. apply array_get_Done. split; [lia|done].
Qed.

Lemma array_set_in_range {A} (l : list A) i x :
  0 <= i < Z.of_nat (length l) -> array_set l i x = Done (<[Z.to_nat i := x]> l).
Proof.
  intros Hi. unfold array_set.
  destruct (Z.ltb_spec i 0), (Z.leb_spec (Z.of_nat (length l)) i); simpl; lia || done.
Qed.

Lemma array_set_length {A} (l l' : list A) i x :
  array_set l i x = Done l' -> length l' = length l.
Proof.
  unfold array_set. case_match; [done|]. intros [= <-]. apply length_insert.
Qed.

(** ** Monadic steps *)

Lemma bind_Done {A B} (m : outcome A) (f : A -> outcome B) b :
  (x ← m; f x) = Done b <-> exists a, m = Done a /\ f a = Done b.
Proof.
  destruct m; simpl; split.
  - intros. eauto.
  - intros (? & [= ->] & ?). done.
  - done.
  - by intros (? & ? & ?).
  - done.
  - by intros (? & ? & ?).
Qed.

Lemma page_base_range x : 0 <= x < 2 ^ 32 -> 0 <= page_base x <= x.
Proof.
  intros Hx. rewrite land_page_mask_div by done.
  pose proof (Z.div_mod x 4096). pose proof (Z.mod_pos_bound x 4096). lia.
Qed.

Lemma page_base_mul p : 0 <= p < 2 ^ 20 -> page_base (4096 * p) = 4096 * p.
Proof.
  intros Hp. rewrite land_page_mask_div by lia. by rewrite (Z.mul_comm 4096 p), Z.div_mul, Z.mul_comm.
Qed.

(** Combining a page address with flag bits leaves the other part alone. *)
Lemma land_page_flags p f : 0 <= p -> 0 <= f < 4096 -> Z.land (4096 * p) f = 0.
Proof.
  intros Hp Hf. apply Z.bits_inj'. intros j Hj. rewrite Z.land_spec, Z.bits_0.
  destruct (Z.lt_ge_cases j 12).
  - replace (4096 * p) with (Z.shiftl p 12) by (rewrite Z.shiftl_mul_pow2 by lia; lia).
    by rewrite Z.shiftl_spec_low.
  - rewrite (testbit_small f 12), andb_false_r by lia. done.
Qed.

Lemma lor_page_flags p f : 0 <= p -> 0 <= f < 4096 -> Z.lor (4096 * p) f = 4096 * p + f.
Proof.
  intros Hp Hf. pose proof (land_page_flags p f Hp Hf) as Hand.
  by rewrite <- Z.lxor_lor, Z.add_nocarry_lxor.
Qed.

Lemma page_base_flags p f :
  0 <= p < 2 ^ 20 -> 0 <= f < 4096 -> page_base (4096 * p + f) = 4096 * p.
Proof.
  intros Hp Hf. rewrite land_page_mask_div by lia.
  assert ((4096 * p + f) / 4096 = p) as ->; [|done].
  symmetry. by apply Z.div_unique with f; [left|].
Qed.

(** Reading and writing at the seam of two lists. *)
Lemma array_get_seam {A} (p q : list A) x i :
  i = Z.of_nat (length p) -> array_get (p ++ x :: q) i = Done x.
Proof.
  intros ->. apply array_get_Done. split; [lia|]. rewrite Nat2Z.id. by apply list_lookup_middle.
Qed.

Lemma array_set_seam {A} (p q : list A) x y i :
  i = Z.of_nat (length p) -> array_set (p ++ x :: q) i y = Done (p ++ y :: q).
Proof.
  intros ->. rewrite array_set_in_range by (rewrite length_app; simpl; lia).
  rewrite Nat2Z.id, insert_app_r_alt by lia. by rewrite Nat.sub_diag.
Qed.
