(* ===== verification/Pmm.v ===== *)
(** * Physical memory manager (kernel/src/mem/pmm.c)

    The bitmap allocator of physical pages.  The first half holds the state
    and every operation, written over the byte array as the code has it; the
    second half reads the same state as a set of used page numbers and proves
    what each operation does to that set. *)
From Stdlib Require Import ZArith Lia.
From stdpp Require Import base list gmap numbers.
From S2P Require Import Prelude.

#[local] Open Scope Z_scope.

(** ** State *)

(** [pages_bitmap] has exactly [bitmap_size] bytes, so the variable
    [bitmap_size] is the length of the list. *)
Record pmm := Pmm {
  pages_bitmap : list Z;
  used_phys_memory_size : Z;
  phys_memory_size : Z
}.

Definition phys_get_bitmap_size (s : pmm) : Z := Z.of_nat (length (pages_bitmap s)).

Definition set_bitmap (bm : list Z) (s : pmm) : pmm :=
  Pmm bm (used_phys_memory_size s) (phys_memory_size s).

Definition set_used (u : Z) (s : pmm) : pmm :=
  Pmm (pages_bitmap s) u (phys_memory_size s).

(** The code logs and spins for ever. *)
Definition phys_not_enough_memory {A} : outcome A := Hang.

(** ** Single pages *)

(** [for (int j = 0; j < 8; j++) if (((pages_bitmap[i] >> j) & 1) == 0) ...]:
    the remaining iterations are the fuel, so it is exactly the loop. *)
Fixpoint find_free_bit (b : Z) (n : nat) (j : Z) : option Z :=
  match n with
  | O => None
  | S n' =>
      if Z.land (Z.shiftr b j) 1 =? 0 then Some j else find_free_bit b n' (j + 1)
  end.

(** The outer loop over the bytes of the bitmap, from index [i]. *)
Fixpoint find_free_page (bm : list Z) (i : Z) : option (Z * Z) :=
  match bm with
  | [] => None
  | b :: bm' =>
      if b =? 0xff then find_free_page bm' (i + 1)
      else match find_free_bit b 8 0 with
           | Some j => Some (i, j)
           | None => find_free_page bm' (i + 1)
           end
  end.

(** [pages_bitmap[i] |= (1 << j)] and [pages_bitmap[i] &= ~(1 << j)]. *)
Definition mark_used (bm : list Z) (i j : Z) : outcome (list Z) :=
  b ← array_get bm i; array_set bm i (u8 (bit_set b j)).

Definition mark_free (bm : list Z) (i j : Z) : outcome (list Z) :=
  b ← array_get bm i; array_set bm i (u8 (bit_clear b j)).

Definition page_address (i j : Z) : Z := u32 (PAGE_SIZE * 8 * i + j * PAGE_SIZE).

Definition phys_alloc_single_page (s : pmm) : outcome (Z * pmm) :=
  if phys_memory_size s <=? used_phys_memory_size s then phys_not_enough_memory
  else
    match find_free_page (pages_bitmap s) 0 with
    | Some (i, j) =>
        bm ← mark_used (pages_bitmap s) i j;
        Done (page_address i j,
              Pmm bm (u32 (used_phys_memory_size s + PAGE_SIZE)) (phys_memory_size s))
    | None => Done (0, s)
    end.

(** The entry and the bit of an address. *)
Definition entry_of (addr : Z) : Z := addr / (PAGE_SIZE * 8).
Definition bit_of (addr : Z) : Z := (addr mod (PAGE_SIZE * 8)) / PAGE_SIZE.

Definition phys_free_single_page (addr : Z) (s : pmm) : outcome pmm :=
  if addr =? 0 then Done s
  else
    bm ← mark_free (pages_bitmap s) (entry_of addr) (bit_of addr);
    Done (Pmm bm (u32 (used_phys_memory_size s - PAGE_SIZE)) (phys_memory_size s)).

Definition phys_is_used_page (addr : Z) (s : pmm) : outcome bool :=
  if addr =? 0 then Done true
  else
    b ← array_get (pages_bitmap s) (entry_of addr);
    Done (negb (Z.land (Z.shiftr b (bit_of addr)) 1 =? 0)).

(** Out of the bitmap the code executes [cli; hlt]. *)
Definition phys_mark_page_entry (addr : Z) (used : bool) (s : pmm) : outcome pmm :=
  if addr =? 0 then Done s
  else if phys_get_bitmap_size s <=? (addr / 4096) / 8 then Hang
  else
    bm ← (if used then mark_used else mark_free) (pages_bitmap s)
           (entry_of addr) (bit_of addr);
    Done (set_bitmap bm s).

(** ** Runs of pages *)

(** The locals of [phys_alloc_multi_pages] that survive an iteration. *)
Record scan := Scan { counter : Z; si : Z; sj : Z; addr : Z }.

(** Result of the inner loop: the function is about to mark the run described
    by the locals, or the next byte is to be looked at. *)
Inductive scanned :=
  | Found (st : scan)
  | More (st : scan).

Fixpoint scan_bits (count b i : Z) (n : nat) (j : Z) (st : scan) : scanned :=
  match n with
  | O => More st
  | S n' =>
      if Z.land (Z.shiftr b j) 1 =? 0 then
        if counter st =? 0 then
          scan_bits count b i n' (j + 1)
            (Scan 1 i j (u32 (PAGE_SIZE * 8 * i + j * PAGE_SIZE)))
        else if counter st =? count then Found st
        else scan_bits count b i n' (j + 1)
               (Scan (u32 (counter st + 1)) (si st) (sj st) (addr st))
      else scan_bits count b i n' (j + 1) (Scan 0 (si st) (sj st) 0)
  end.

Fixpoint scan_bytes (count : Z) (bm : list Z) (i : Z) (st : scan) : option scan :=
  match bm with
  | [] => None
  | b :: bm' =>
      if b =? 0xff then scan_bytes count bm' (i + 1) st
      else match scan_bits count b i 8 0 st with
           | Found st' => Some st'
           | More st' => scan_bytes count bm' (i + 1) st'
           end
  end.

(** [for (; si < size; si++) { for (; sj < 8; sj++) { mark; if (!--counter)
    goto end; } sj = 0; }].  Every iteration of either loop is one unit of
    fuel; at most nine are spent per byte of the bitmap. *)
Fixpoint mark_run (fuel : nat) (bm : list Z) (si sj counter : Z) : outcome (list Z) :=
  match fuel with
  | O => Hang
  | S fuel' =>
      if si <? Z.of_nat (length bm) then
        if sj <? 8 then
          bm' ← mark_used bm si sj;
          if u32 (counter - 1) =? 0 then Done bm'
          else mark_run fuel' bm' si (sj + 1) (u32 (counter - 1))
        else mark_run fuel' bm (si + 1) 0 counter
      else Done bm
  end.

Definition run_fuel (bm : list Z) : nat := 9 * length bm + 10.

Definition phys_alloc_multi_pages (count : Z) (s : pmm) : outcome (Z * pmm) :=
  if phys_memory_size s <=? u32 (used_phys_memory_size s + u32 (count * PAGE_SIZE))
  then phys_not_enough_memory
  else
    match scan_bytes count (pages_bitmap s) 0 (Scan 0 0 0 0) with
    | Some st =>
        bm ← mark_run (run_fuel (pages_bitmap s)) (pages_bitmap s)
               (si st) (sj st) (counter st);
        Done (addr st,
              Pmm bm (u32 (used_phys_memory_size s + u32 (PAGE_SIZE * count)))
                  (phys_memory_size s))
    | None => Done (0, s)
    end.

(** The freeing loops; [inl bm] is the [return] inside the loop, [inr (bm,
    count)] the fall through past the last byte. *)
Fixpoint clear_run (fuel : nat) (bm : list Z) (i j count : Z)
    : outcome (list Z + list Z * Z) :=
  match fuel with
  | O => Hang
  | S fuel' =>
      if i <? Z.of_nat (length bm) then
        if j <? 8 then
          bm' ← mark_free bm i j;
          if u32 (count - 1) =? 0 then Done (inl bm')
          else clear_run fuel' bm' i (j + 1) (u32 (count - 1))
        else clear_run fuel' bm (i + 1) 0 count
      else Done (inr (bm, count))
  end.

Definition phys_free_multi_pages (addr count : Z) (s : pmm) : outcome pmm :=
  if addr =? 0 then Done s
  else
    r ← clear_run (run_fuel (pages_bitmap s)) (pages_bitmap s)
          (entry_of addr) (bit_of addr) count;
    match r with
    | inl bm => Done (set_bitmap bm s)
    | inr (bm, count') =>
        Done (Pmm bm (u32 (used_phys_memory_size s - u32 (PAGE_SIZE * count')))
                  (phys_memory_size s))
    end.

Definition getInstalledRam (s : pmm) : Z := phys_memory_size s.

(** ** The memory map and the initialisation *)

(** The fields of an entry the code reads; the high words are ignored there. *)
Record memory_map_entry := MemoryMapEntry { addr_low : Z; len_low : Z; type : Z }.

(** [for (size_t j = 0; j < length; j += PAGE_SIZE)].  With 32-bit [j] the loop
    ends iff [length <= 0xfffff000]; one more iteration than [length] needs is
    only reached after [j] has wrapped around. *)
Fixpoint mark_region (fuel : nat) (base length j : Z) (s : pmm) : outcome pmm :=
  match fuel with
  | O => Hang
  | S fuel' =>
      if j <? length then
        s' ← phys_mark_page_entry (u32 (base + j)) true s;
        mark_region fuel' base length (u32 (j + PAGE_SIZE)) s'
      else Done s
  end.

Definition mark_reserved_entry (e : memory_map_entry) (s : pmm) : outcome pmm :=
  if u32 (phys_get_bitmap_size s * 4096 * 8) <=? addr_low e then Done s
  else if negb (type e =? 1) then
    mark_region (Z.to_nat (len_low e / 4096 + 2)) (addr_low e) (len_low e) 0 s
  else Done s.

Fixpoint mark_reserved_memory_as_used (mmap : list memory_map_entry) (s : pmm)
    : outcome pmm :=
  match mmap with
  | [] => Done s
  | e :: mmap' => s' ← mark_reserved_entry e s; mark_reserved_memory_as_used mmap' s'
  end.

(** [phys_memory_size] grows by the low word of every length, whatever the
    type of the entry. *)
Definition check_memory_map (mmap : list memory_map_entry) (s : pmm) : pmm :=
  Pmm (pages_bitmap s) (used_phys_memory_size s)
    (fold_left (fun size e => u32 (size + len_low e)) mmap (phys_memory_size s)).

(** [grub_last_module_end] is read from the boot loader's module list; the
    bitmap is placed there and cleared. *)
Definition init_pmm (grub_last_module_end : Z) (s : pmm) : outcome pmm :=
  let pages_available := ALIGN (phys_memory_size s / PAGE_SIZE) 0x100 in
  let bitmap_size := pages_available / 8 in
  let real_end := u32 (grub_last_module_end + bitmap_size) in
  let page_count := ALIGN real_end PAGE_SIZE / PAGE_SIZE in
  let s0 := set_bitmap (replicate (Z.to_nat bitmap_size) 0) s in
  '(reserved, s1) ← phys_alloc_multi_pages page_count s0;
  if reserved =? 0 then Done s1 else Hang.

(** ** The bitmap as a set of used pages *)

(** Page number [p] is marked used; pages beyond the bitmap count as used, so
    they are never handed out. *)
Definition page_used (bm : list Z) (p : Z) : bool :=
  match bm !! Z.to_nat (p / 8) with
  | Some b => Z.testbit b (p mod 8)
  | None => true
  end.

Definition bytes (bm : list Z) : Prop := Forall (fun b => 0 <= b < 2 ^ 8) bm.

(** The bitmap is made of bytes and covers at most the 4 GiB that a 32-bit
    physical address can name. *)
Record pmm_wf (s : pmm) : Prop := PmmWf {
  wf_bytes : bytes (pages_bitmap s);
  wf_length : Z.of_nat (length (pages_bitmap s)) <= 2 ^ 17
}.

(** Number of pages the bitmap covers. *)
Definition page_count (bm : list Z) : Z := 8 * Z.of_nat (length bm).

Lemma div8 i j : 0 <= j < 8 -> (8 * i + j) / 8 = i.
Proof. intros ?. symmetry. apply Z.div_unique with j; lia. Qed.
Lemma mod8 i j : 0 <= j < 8 -> (8 * i + j) mod 8 = j.
Proof. intros ?. symmetry. apply Z.mod_unique with i; lia. Qed.

Lemma page_split p : 0 <= p -> exists i j, p = 8 * i + j /\ 0 <= i /\ 0 <= j < 8.
Proof.
  intros Hp. exists (p / 8), (p mod 8).
  pose proof (Z.div_mod p 8). pose proof (Z.mod_pos_bound p 8). lia.
Qed.

Lemma page_used_at bm i j b :
  0 <= j < 8 -> bm !! Z.to_nat i = Some b ->
  page_used bm (8 * i + j) = Z.testbit b j.
Proof. intros Hj Hb. unfold page_used. by rewrite div8, mod8, Hb by lia. Qed.

Lemma page_used_beyond bm p : page_count bm <= p -> page_used bm p = true.
Proof.
  unfold page_count. intros Hp. unfold page_used.
  rewrite lookup_ge_None_2; [done|].
  assert (Z.of_nat (length bm) <= p / 8); [|lia].
  apply Z.div_le_lower_bound; lia.
Qed.

Lemma free_page_in_range bm p :
  page_used bm p = false -> p < page_count bm.
Proof.
  intros Hf. destruct (Z.lt_ge_cases p (page_count bm)); [done|].
  rewrite page_used_beyond in Hf by lia. done.
Qed.

Lemma bytes_lookup bm i b : bytes bm -> bm !! i = Some b -> 0 <= b < 2 ^ 8.
Proof. intros Hbm Hi. exact (Forall_lookup_1 _ _ _ _ Hbm Hi). Qed.

(** Updating the byte of page [8 * i + j] by [f] changes the pages of that byte
    as [f] changes the bits. *)
Lemma array_update_byte bm i f b :
  bytes bm -> 0 <= i -> bm !! Z.to_nat i = Some b -> 0 <= f b < 2 ^ 8 ->
  exists bm', array_set bm i (u8 (f b)) = Done bm' /\ length bm' = length bm /\
    bytes bm' /\
    forall i' j', 0 <= i' -> 0 <= j' < 8 ->
      page_used bm' (8 * i' + j') =
        if i' =? i then Z.testbit (f b) j' else page_used bm (8 * i' + j').
Proof.
  intros Hbm Hi Hb Hf. pose proof (lookup_lt_Some _ _ _ Hb) as Hlen.
  rewrite array_set_in_range, u8_small by lia.
  exists (<[Z.to_nat i := f b]> bm). repeat split; [apply length_insert| |].
  { apply Forall_insert; [done|lia]. }
  intros i' j' Hi' Hj'. unfold page_used. rewrite div8, mod8 by lia.
  destruct (Z.eqb_spec i' i) as [->|Hne].
  - by rewrite list_lookup_insert_eq.
  - by rewrite list_lookup_insert_ne by lia.
Qed.

Lemma mark_used_spec bm i j :
  bytes bm -> 0 <= i < Z.of_nat (length bm) -> 0 <= j < 8 ->
  exists bm', mark_used bm i j = Done bm' /\ length bm' = length bm /\ bytes bm' /\
    forall p, 0 <= p -> page_used bm' p = (p =? 8 * i + j) || page_used bm p.
Proof.
  intros Hbm Hi Hj. destruct (array_get_in_range bm i Hi) as [b Hb].
  pose proof (proj1 (array_get_Done _ _ _) Hb) as [_ Hb'].
  pose proof (bytes_lookup _ _ _ Hbm Hb') as Hbyte.
  destruct (array_update_byte bm i (fun b => bit_set b j) b) as (bm' & Hset & Hlen & Hbm' & Hp);
    [done|lia|done|by apply bit_set_byte|].
  exists bm'. unfold mark_used. rewrite Hb. simpl. repeat split; try done.
  intros p Hp0. destruct (page_split p Hp0) as (i' & j' & -> & Hi' & Hj').
  rewrite Hp by done. destruct (Z.eqb_spec i' i) as [->|Hne].
  - rewrite bit_set_spec, (page_used_at bm i j' b) by (done || lia).
    f_equal. destruct (Z.eqb_spec j j'), (Z.eqb_spec (8 * i + j') (8 * i + j)); done || lia.
  - destruct (Z.eqb_spec (8 * i' + j') (8 * i + j)); [lia|done].
Qed.

Lemma mark_free_spec bm i j :
  bytes bm -> 0 <= i < Z.of_nat (length bm) -> 0 <= j < 8 ->
  exists bm', mark_free bm i j = Done bm' /\ length bm' = length bm /\ bytes bm' /\
    forall p, 0 <= p -> page_used bm' p = negb (p =? 8 * i + j) && page_used bm p.
Proof.
  intros Hbm Hi Hj. destruct (array_get_in_range bm i Hi) as [b Hb].
  pose proof (proj1 (array_get_Done _ _ _) Hb) as [_ Hb'].
  pose proof (bytes_lookup _ _ _ Hbm Hb') as Hbyte.
  destruct (array_update_byte bm i (fun b => bit_clear b j) b) as (bm' & Hset & Hlen & Hbm' & Hp);
    [done|lia|done|by apply bit_clear_byte|].
  exists bm'. unfold mark_free. rewrite Hb. simpl. repeat split; try done.
  intros p Hp0. destruct (page_split p Hp0) as (i' & j' & -> & Hi' & Hj').
  rewrite Hp by done. destruct (Z.eqb_spec i' i) as [->|Hne].
  - rewrite bit_clear_spec, (page_used_at bm i j' b) by (done || lia).
    f_equal. f_equal. destruct (Z.eqb_spec j j'), (Z.eqb_spec (8 * i + j') (8 * i + j)); done || lia.
  - destruct (Z.eqb_spec (8 * i' + j') (8 * i + j)); [lia|done].
Qed.

Lemma bit_free_iff b j : 0 <= j -> (Z.land (Z.shiftr b j) 1 =? 0) = negb (Z.testbit b j).
Proof. intros Hj. rewrite bit_probe by done. by destruct (Z.testbit b j). Qed.

(** ** First fit of one page *)

Lemma find_free_bit_Some b n j k :
  0 <= j -> find_free_bit b n j = Some k ->
  j <= k < j + Z.of_nat n /\ Z.testbit b k = false /\
  forall q, j <= q < k -> Z.testbit b q = true.
Proof.
  revert j. induction n as [|n IH]; intros j Hj; simpl; [done|].
  rewrite bit_free_iff by lia. destruct (Z.testbit b j) eqn:Hb; simpl.
  - intros Hk. apply IH in Hk as (? & ? & Hq); [|lia]. repeat split; try done || lia.
    intros q Hq'. destruct (decide (q = j)) as [->|]; [done|apply Hq; lia].
  - intros [= <-]. repeat split; try done || lia.
Qed.

Lemma find_free_bit_None b n j :
  0 <= j -> find_free_bit b n j = None ->
  forall q, j <= q < j + Z.of_nat n -> Z.testbit b q = true.
Proof.
  revert j. induction n as [|n IH]; intros j Hj; simpl; [lia|].
  rewrite bit_free_iff by lia. destruct (Z.testbit b j) eqn:Hb; simpl; [|done].
  intros HN q Hq. destruct (decide (q = j)) as [->|]; [done|apply (IH (j + 1)); lia || done].
Qed.

Lemma full_byte j : 0 <= j < 8 -> Z.testbit 0xff j = true.
Proof. intros Hj. change 0xff with (Z.ones 8). by apply Z.ones_spec_low. Qed.

Lemma page_used_head b bm j : 0 <= j < 8 -> page_used (b :: bm) j = Z.testbit b j.
Proof. intros Hj. replace j with (8 * 0 + j) at 1 by lia. by apply page_used_at. Qed.

Lemma page_used_tail b bm q : 8 <= q -> page_used (b :: bm) q = page_used bm (q - 8).
Proof.
  intros Hq. destruct (page_split (q - 8)) as (i & j & Heq & ? & ?); [lia|].
  replace q with (8 * (i + 1) + j) by lia. unfold page_used.
  replace (8 * (i + 1) + j - 8) with (8 * i + j) by lia.
  rewrite !div8, !mod8 by lia.
  by replace (Z.to_nat (i + 1)) with (S (Z.to_nat i)) by lia.
Qed.

(** What the search of one free page from byte [i] on must return. *)
Definition first_fit (bm : list Z) (i : Z) (r : option (Z * Z)) : Prop :=
  match r with
  | Some (i', j) =>
      i <= i' < i + Z.of_nat (length bm) /\ 0 <= j < 8 /\
      page_used bm (8 * (i' - i) + j) = false /\
      forall q, 0 <= q < 8 * (i' - i) + j -> page_used bm q = true
  | None => forall q, 0 <= q -> page_used bm q = true
  end.

Lemma first_fit_skip b bm i r :
  (forall j, 0 <= j < 8 -> Z.testbit b j = true) ->
  first_fit bm (i + 1) r -> first_fit (b :: bm) i r.
Proof.
  intros Hfull. destruct r as [[i' j]|]; simpl.
  - intros (Hi & Hj & Hf & Hbefore). repeat split; try lia.
    + rewrite page_used_tail by lia. rewrite <- Hf. f_equal. lia.
    + intros q Hq. destruct (Z.lt_ge_cases q 8).
      * rewrite page_used_head by lia. apply Hfull. lia.
      * rewrite page_used_tail by lia. apply Hbefore. lia.
  - intros Hall q Hq. destruct (Z.lt_ge_cases q 8).
    + rewrite page_used_head by lia. apply Hfull. lia.
    + rewrite page_used_tail by lia. apply Hall. lia.
Qed.

Lemma find_free_page_spec bm i : first_fit bm i (find_free_page bm i).
Proof.
  revert i. induction bm as [|b bm IH]; intros i; cbn [find_free_page].
  { intros q Hq. done. }
  destruct (Z.eqb_spec b 0xff) as [->|Hb].
  { apply first_fit_skip; [apply full_byte|apply IH]. }
  destruct (find_free_bit b 8 0) as [j|] eqn:Hbit.
  - apply find_free_bit_Some in Hbit as (Hj & Hf & Hbefore); [|lia].
    cbn [first_fit length]. replace (8 * (i - i) + j) with j by lia. repeat split; try lia.
    + rewrite page_used_head by lia. done.
    + intros q Hq. rewrite page_used_head by lia. apply Hbefore. lia.
  - apply first_fit_skip; [|apply IH]. intros j Hj. by apply (find_free_bit_None b 8 0).
Qed.

(** ** Addresses and page numbers *)

Lemma page_address_small i j :
  0 <= i < 2 ^ 17 -> 0 <= j < 8 -> page_address i j = 4096 * (8 * i + j).
Proof. intros Hi Hj. unfold page_address, PAGE_SIZE. rewrite u32_small; lia. Qed.

Lemma entry_of_page p : 0 <= p -> entry_of (4096 * p) = p / 8.
Proof.
  intros Hp. unfold entry_of, PAGE_SIZE. change (4096 * 8) with (4096 * 8)%Z.
  by rewrite Z.div_mul_cancel_l by lia.
Qed.

Lemma bit_of_page p : 0 <= p -> bit_of (4096 * p) = p mod 8.
Proof.
  intros Hp. unfold bit_of, PAGE_SIZE. rewrite Z.mul_mod_distr_l by lia.
  rewrite Z.mul_comm. by apply Z.div_mul.
Qed.

Lemma page_div_mod p : 8 * (p / 8) + p mod 8 = p.
Proof. symmetry. apply Z.div_mod. lia. Qed.

(** The pages of [bm'] are those of [bm] with the numbers satisfying [f] set. *)
Definition pages_set (f : Z -> bool) (bm bm' : list Z) : Prop :=
  length bm' = length bm /\ bytes bm' /\
  forall p, 0 <= p -> page_used bm' p = f p || page_used bm p.

Definition pages_cleared (f : Z -> bool) (bm bm' : list Z) : Prop :=
  length bm' = length bm /\ bytes bm' /\
  forall p, 0 <= p -> page_used bm' p = negb (f p) && page_used bm p.

Definition in_run (start count p : Z) : bool := (start <=? p) && (p <? start + count).

(** Two bitmaps of the same length with the same pages are equal. *)
Lemma pages_ext bm bm' :
  bytes bm -> bytes bm' -> length bm = length bm' ->
  (forall p, 0 <= p -> page_used bm p = page_used bm' p) -> bm = bm'.
Proof.
  intros Hbm Hbm' Hlen Hp. apply list_eq. intros i.
  destruct (bm !! i) as [b|] eqn:Hb, (bm' !! i) as [b'|] eqn:Hb'; try done.
  - f_equal. apply byte_ext;
      [exact (bytes_lookup _ _ _ Hbm Hb)|exact (bytes_lookup _ _ _ Hbm' Hb')|].
    intros j Hj. specialize (Hp (8 * Z.of_nat i + j) ltac:(lia)).
    rewrite (page_used_at bm _ j b), (page_used_at bm' _ j b') in Hp; try done; try lia;
      by rewrite Nat2Z.id.
  - apply lookup_ge_None in Hb'. apply lookup_lt_Some in Hb. lia.
  - apply lookup_ge_None in Hb. apply lookup_lt_Some in Hb'. lia.
Qed.

(** The single-page allocator in terms of pages. *)
Lemma alloc_single_cases s :
  pmm_wf s -> used_phys_memory_size s < phys_memory_size s ->
  (exists p bm', 0 <= p < page_count (pages_bitmap s) /\
     page_used (pages_bitmap s) p = false /\
     (forall q, 0 <= q < p -> page_used (pages_bitmap s) q = true) /\
     pages_set (fun q => q =? p) (pages_bitmap s) bm' /\
     phys_alloc_single_page s =
       Done (4096 * p, Pmm bm' (u32 (used_phys_memory_size s + PAGE_SIZE)) (phys_memory_size s))) \/
  (phys_alloc_single_page s = Done (0, s) /\
   forall q, 0 <= q -> page_used (pages_bitmap s) q = true).
Proof.
  intros [Hbm Hlen] Hfree. unfold phys_alloc_single_page.
  destruct (Z.leb_spec (phys_memory_size s) (used_phys_memory_size s)); [lia|].
  pose proof (find_free_page_spec (pages_bitmap s) 0) as Hff.
  destruct (find_free_page (pages_bitmap s) 0) as [[i j]|]; cbn [first_fit] in Hff.
  - left. destruct Hff as (Hi & Hj & Hf & Hbefore). rewrite Z.sub_0_r in *.
    destruct (mark_used_spec (pages_bitmap s) i j) as (bm' & Hmark & ? & ? & ?);
      [done|lia|done|].
    exists (8 * i + j), bm'. rewrite Hmark. simpl.
    rewrite page_address_small by lia. unfold page_count, pages_set.
    repeat split; try done; lia.
  - by right.
Qed.

(** ** Runs of pages *)

Definition free_run (bm : list Z) (start stop : Z) : Prop :=
  forall q, start <= q < stop -> page_used bm q = false.

(** [scan_bytes] skips a byte [0xff] without resetting the counter.  The scan
    is sound when no run of free pages touches such a byte from below. *)
Definition runs_closed (bm : list Z) : Prop :=
  forall i, 0 < i -> bm !! Z.to_nat i = Some 0xff -> page_used bm (8 * i - 1) = true.

(** After the pages below [p]: the counter is the length of the free run that
    ends at [p], the saved indices are its start, and no run seen so far is
    longer than [count]. *)
Record scan_inv (bm : list Z) (count p : Z) (st : scan) : Prop := ScanInv {
  inv_counter : 0 <= counter st <= count;
  inv_trailing : forall s, 0 <= s <= p -> free_run bm s p -> p - s <= counter st;
  inv_none : forall s e, 0 <= s -> e <= p -> free_run bm s e -> e - s <= count;
  inv_run : counter st <> 0 ->
    0 <= si st /\ 0 <= sj st < 8 /\ 8 * si st + sj st + counter st = p /\
    addr st = page_address (si st) (sj st) /\ free_run bm (8 * si st + sj st) p
}.

Lemma scan_inv_init bm count : 0 <= count -> scan_inv bm count 0 (Scan 0 0 0 0).
Proof. intros Hc. constructor; simpl; intros; try lia; done. Qed.

(** Extending the bounds on runs by one page. *)
Lemma scan_inv_none_step bm count p c :
  0 <= c <= count ->
  (forall s, 0 <= s <= p + 1 -> free_run bm s (p + 1) -> p + 1 - s <= c) ->
  (forall s e, 0 <= s -> e <= p -> free_run bm s e -> e - s <= count) ->
  forall s e, 0 <= s -> e <= p + 1 -> free_run bm s e -> e - s <= count.
Proof.
  intros Hc Htr Hno s e Hs He Hrun.
  destruct (decide (e <= p)); [by apply Hno|].
  replace e with (p + 1) in * by lia.
  destruct (decide (s <= p + 1)); [|lia]. specialize (Htr s ltac:(lia) Hrun). lia.
Qed.

Lemma scan_inv_used bm count p st :
  0 <= p -> page_used bm p = true -> scan_inv bm count p st ->
  scan_inv bm count (p + 1) (Scan 0 (si st) (sj st) 0).
Proof.
  intros Hp Hu [Hc Htr Hno Hrun].
  assert (forall s, 0 <= s <= p + 1 -> free_run bm s (p + 1) -> p + 1 - s <= 0) as Htr'.
  { intros s Hs Hf. destruct (decide (s = p + 1)); [lia|].
    rewrite (Hf p) in Hu by lia. done. }
  constructor; simpl; [lia|done| |done].
  by apply (scan_inv_none_step bm count p 0); [lia| |].
Qed.

Lemma scan_inv_trailing_step bm count p st :
  0 <= p -> scan_inv bm count p st ->
  forall s, 0 <= s <= p + 1 -> free_run bm s (p + 1) -> p + 1 - s <= counter st + 1.
Proof.
  intros Hp [Hc Htr Hno Hrun] s Hs Hf.
  destruct (decide (s = p + 1)); [lia|].
  assert (p - s <= counter st); [|lia]. apply Htr; [lia|].
  intros q Hq. apply Hf. lia.
Qed.

Lemma scan_inv_first bm count i j st :
  0 < count -> 0 <= i -> 0 <= j < 8 -> page_used bm (8 * i + j) = false ->
  scan_inv bm count (8 * i + j) st -> counter st = 0 ->
  scan_inv bm count (8 * i + j + 1) (Scan 1 i j (page_address i j)).
Proof.
  intros Hcount Hi Hj Hf Hinv H0.
  pose proof (scan_inv_trailing_step bm count (8 * i + j) st ltac:(lia) Hinv) as Htr.
  rewrite H0 in Htr. constructor; simpl; [lia|done| |].
  - apply (scan_inv_none_step bm count _ 1); [lia|done|apply Hinv].
  - intros _. repeat split; try lia. intros q Hq. by replace q with (8 * i + j) by lia.
Qed.

Lemma scan_inv_next bm count p st :
  0 <= p -> page_used bm p = false -> scan_inv bm count p st ->
  0 < counter st < count ->
  scan_inv bm count (p + 1) (Scan (counter st + 1) (si st) (sj st) (addr st)).
Proof.
  intros Hp Hf Hinv Hlt.
  pose proof (scan_inv_trailing_step bm count p st ltac:(lia) Hinv) as Htr.
  destruct Hinv as [Hc _ Hno Hrun]. destruct (Hrun ltac:(lia)) as (? & ? & ? & ? & Hfree).
  constructor; simpl; [lia|done| |].
  - apply (scan_inv_none_step bm count _ (counter st + 1)); [lia|done|done].
  - intros _. repeat split; try done || lia. intros q Hq.
    destruct (decide (q = p)) as [->|]; [done|apply Hfree; lia].
Qed.

Lemma scan_bits_spec bm count i b n j st :
  0 < count < 2 ^ 32 -> 0 <= i -> 0 <= j -> j + Z.of_nat n = 8 ->
  bm !! Z.to_nat i = Some b ->
  scan_inv bm count (8 * i + j) st ->
  match scan_bits count b i n j st with
  | Found st' => exists p, p <= 8 * i + 7 /\ counter st' = count /\ scan_inv bm count p st'
  | More st' => scan_inv bm count (8 * i + 8) st'
  end.
Proof.
  intros Hcount Hi. revert j st.
  induction n as [|n IH]; intros j st Hj Hn Hb Hinv; cbn [scan_bits].
  { by replace (8 * i + 8) with (8 * i + j) by lia. }
  rewrite bit_free_iff by lia.
  pose proof (page_used_at bm i j b ltac:(lia) Hb) as Hu.
  pose proof (inv_counter _ _ _ _ Hinv).
  destruct (Z.testbit b j) eqn:Hbit; simpl.
  { apply IH; try done || lia. rewrite Z.add_assoc. apply scan_inv_used; [lia|congruence|done]. }
  destruct (Z.eqb_spec (counter st) 0).
  { apply IH; try done || lia. rewrite Z.add_assoc.
    change (u32 (PAGE_SIZE * 8 * i + j * PAGE_SIZE)) with (page_address i j).
    eapply scan_inv_first; eauto; lia. }
  destruct (Z.eqb_spec (counter st) count).
  { exists (8 * i + j). split; [lia|done]. }
  apply IH; try done || lia. rewrite Z.add_assoc, u32_small by lia.
  apply scan_inv_next; [lia|done|done|lia].
Qed.

Lemma scan_inv_full bm count i st :
  runs_closed bm -> 0 <= i -> bm !! Z.to_nat i = Some 0xff ->
  scan_inv bm count (8 * i) st -> scan_inv bm count (8 * i + 8) st.
Proof.
  intros Hclosed Hi Hb Hinv.
  assert (counter st = 0) as H0.
  { destruct (decide (counter st = 0)) as [|Hne]; [done|].
    destruct (inv_run _ _ _ _ Hinv Hne) as (? & ? & Hend & _ & Hfree).
    pose proof (inv_counter _ _ _ _ Hinv).
    destruct (decide (i = 0)) as [->|]; [lia|].
    specialize (Hclosed i ltac:(lia) Hb).
    rewrite Hfree in Hclosed by lia. done. }
  assert (forall j, 0 <= j < 8 -> page_used bm (8 * i + j) = true) as Hused.
  { intros j Hj. rewrite (page_used_at bm i j 0xff) by done. by apply full_byte. }
  pose proof (inv_counter _ _ _ _ Hinv) as Hc.
  constructor; [done| | |congruence].
  - intros s Hs Hf. destruct (decide (s <= 8 * i + 7)); [|lia].
    specialize (Hused 7 ltac:(lia)). rewrite Hf in Hused by lia. done.
  - intros s e Hs He Hf. destruct (decide (e <= 8 * i)).
    { by apply (inv_none _ _ _ _ Hinv). }
    destruct (decide (s < e)); [|lia].
    specialize (Hused (e - 1 - 8 * i) ltac:(lia)). rewrite Hf in Hused by lia. done.
Qed.

Lemma scan_bytes_spec bm count pre suf st :
  0 < count < 2 ^ 32 -> runs_closed bm -> bm = pre ++ suf ->
  scan_inv bm count (8 * Z.of_nat (length pre)) st ->
  match scan_bytes count suf (Z.of_nat (length pre)) st with
  | Some st' => exists p, p <= page_count bm /\ counter st' = count /\ scan_inv bm count p st'
  | None => forall s e, 0 <= s -> e <= page_count bm -> free_run bm s e -> e - s <= count
  end.
Proof.
  intros Hcount Hclosed. revert pre st.
  induction suf as [|b suf IH]; intros pre st Hbm Hinv; cbn [scan_bytes].
  { intros s e Hs He Hf. eapply inv_none; [exact Hinv|done| |done].
    unfold page_count in He. rewrite Hbm, app_nil_r in He. lia. }
  assert (bm !! Z.to_nat (Z.of_nat (length pre)) = Some b) as Hb.
  { rewrite Nat2Z.id, Hbm. by apply list_lookup_middle. }
  assert (8 * Z.of_nat (length pre) + 8 <= page_count bm) as Hlen.
  { unfold page_count. rewrite Hbm, length_app. simpl. lia. }
  assert (forall st', scan_inv bm count (8 * Z.of_nat (length pre) + 8) st' ->
    match scan_bytes count suf (Z.of_nat (length pre) + 1) st' with
    | Some st' => exists p, p <= page_count bm /\ counter st' = count /\ scan_inv bm count p st'
    | None => forall s e, 0 <= s -> e <= page_count bm -> free_run bm s e -> e - s <= count
    end) as Hrest.
  { intros st' Hst'. specialize (IH (pre ++ [b]) st').
    rewrite length_app in IH. simpl in IH.
    replace (Z.of_nat (length pre + 1)) with (Z.of_nat (length pre) + 1) in IH by lia.
    apply IH; [by rewrite <- app_assoc|].
    by replace (8 * (Z.of_nat (length pre) + 1)) with (8 * Z.of_nat (length pre) + 8) by lia. }
  destruct (Z.eqb_spec b 0xff) as [->|Hne].
  { apply Hrest. apply scan_inv_full; [done|lia|done|done]. }
  pose proof (scan_bits_spec bm count (Z.of_nat (length pre)) b 8 0 st) as Hbits.
  rewrite Z.add_0_r in Hbits. specialize (Hbits Hcount ltac:(lia) ltac:(lia) eq_refl Hb Hinv).
  destruct (scan_bits _ _ _ 8 0 st) as [st'|st']; [|by apply Hrest].
  destruct Hbits as (p & ? & ? & ?). exists p. split; [lia|done].
Qed.

(** Marking and clearing a run page by page. *)
Lemma mark_run_spec fuel bm si sj c :
  bytes bm -> 0 <= si -> 0 <= sj <= 8 -> 0 < c < 2 ^ 32 ->
  8 * si + sj + c <= page_count bm ->
  9 * (Z.of_nat (length bm) - si) + (8 - sj) < Z.of_nat fuel ->
  exists bm', mark_run fuel bm si sj c = Done bm' /\
    pages_set (in_run (8 * si + sj) c) bm bm'.
Proof.
  unfold page_count. revert bm si sj c.
  induction fuel as [|fuel IH]; intros bm si sj c Hbm Hsi Hsj Hc Hend Hfuel; [lia|].
  cbn [mark_run]. destruct (Z.ltb_spec si (Z.of_nat (length bm))); [|lia].
  destruct (Z.ltb_spec sj 8).
  - destruct (mark_used_spec bm si sj) as (bm1 & -> & Hlen1 & Hbm1 & Hp1); [done|lia|lia|].
    cbn [mbind outcome_bind]. rewrite u32_small by lia.
    destruct (Z.eqb_spec (c - 1) 0).
    + exists bm1. repeat split; try done. intros p Hp. rewrite Hp1 by done. f_equal.
      unfold in_run. destruct (Z.eqb_spec p (8 * si + sj)), (Z.leb_spec (8 * si + sj) p),
        (Z.ltb_spec p (8 * si + sj + c)); simpl; done || lia.
    + destruct (IH bm1 si (sj + 1) (c - 1)) as (bm' & -> & Hlen' & Hbm' & Hp'); try done || lia.
      exists bm'. repeat split; [congruence|done|]. intros p Hp. rewrite Hp', Hp1 by done.
      rewrite orb_assoc. f_equal. unfold in_run.
      destruct (Z.eqb_spec p (8 * si + sj)), (Z.leb_spec (8 * si + sj) p),
        (Z.ltb_spec p (8 * si + sj + c)), (Z.leb_spec (8 * si + (sj + 1)) p),
        (Z.ltb_spec p (8 * si + (sj + 1) + (c - 1))); simpl; done || lia.
  - replace (8 * si + sj) with (8 * (si + 1) + 0) by lia. apply IH; try done || lia.
Qed.

Lemma clear_run_spec fuel bm si sj c :
  bytes bm -> 0 <= si -> 0 <= sj <= 8 -> 0 < c < 2 ^ 32 ->
  8 * si + sj + c <= page_count bm ->
  9 * (Z.of_nat (length bm) - si) + (8 - sj) < Z.of_nat fuel ->
  exists bm', clear_run fuel bm si sj c = Done (inl bm') /\
    pages_cleared (in_run (8 * si + sj) c) bm bm'.
Proof.
  unfold page_count. revert bm si sj c.
  induction fuel as [|fuel IH]; intros bm si sj c Hbm Hsi Hsj Hc Hend Hfuel; [lia|].
  cbn [clear_run]. destruct (Z.ltb_spec si (Z.of_nat (length bm))); [|lia].
  destruct (Z.ltb_spec sj 8).
  - destruct (mark_free_spec bm si sj) as (bm1 & -> & Hlen1 & Hbm1 & Hp1); [done|lia|lia|].
    cbn [mbind outcome_bind]. rewrite u32_small by lia.
    destruct (Z.eqb_spec (c - 1) 0).
    + exists bm1. repeat split; try done. intros p Hp. rewrite Hp1 by done. f_equal. f_equal.
      unfold in_run. destruct (Z.eqb_spec p (8 * si + sj)), (Z.leb_spec (8 * si + sj) p),
        (Z.ltb_spec p (8 * si + sj + c)); simpl; done || lia.
    + destruct (IH bm1 si (sj + 1) (c - 1)) as (bm' & -> & Hlen' & Hbm' & Hp'); try done || lia.
      exists bm'. repeat split; [congruence|done|]. intros p Hp. rewrite Hp', Hp1 by done.
      rewrite andb_assoc. f_equal. rewrite <- negb_orb. f_equal. unfold in_run.
      destruct (Z.eqb_spec p (8 * si + sj)), (Z.leb_spec (8 * si + sj) p),
        (Z.ltb_spec p (8 * si + sj + c)), (Z.leb_spec (8 * si + (sj + 1)) p),
        (Z.ltb_spec p (8 * si + (sj + 1) + (c - 1))); simpl; done || lia.
  - replace (8 * si + sj) with (8 * (si + 1) + 0) by lia. apply IH; try done || lia.
Qed.

Lemma bytes_count_max s : pmm_wf s -> page_count (pages_bitmap s) <= 2 ^ 20.
Proof. intros [_ Hlen]. unfold page_count. lia. Qed.

(** The scan, the marking and the accounting put together. *)
Lemma alloc_multi_cases s count :
  pmm_wf s -> runs_closed (pages_bitmap s) -> 0 < count < 2 ^ 20 ->
  u32 (used_phys_memory_size s + 4096 * count) < phys_memory_size s ->
  (exists p bm', 0 <= p /\ p + count <= page_count (pages_bitmap s) /\
     free_run (pages_bitmap s) p (p + count) /\
     (forall b e, 0 <= b -> e <= p + count -> free_run (pages_bitmap s) b e -> e - b <= count) /\
     pages_set (in_run p count) (pages_bitmap s) bm' /\
     phys_alloc_multi_pages count s =
       Done (4096 * p, Pmm bm' (u32 (used_phys_memory_size s + 4096 * count)) (phys_memory_size s))) \/
  (phys_alloc_multi_pages count s = Done (0, s) /\
   forall b e, 0 <= b -> e <= page_count (pages_bitmap s) ->
     free_run (pages_bitmap s) b e -> e - b <= count).
Proof.
  intros [Hbm Hlen] Hclosed Hcount Hroom. unfold phys_alloc_multi_pages, PAGE_SIZE.
  rewrite (u32_small (count * 4096)), (u32_small (4096 * count)), (Z.mul_comm count) by lia.
  destruct (Z.leb_spec (phys_memory_size s) (u32 (used_phys_memory_size s + 4096 * count))); [lia|].
  pose proof (scan_bytes_spec (pages_bitmap s) count [] (pages_bitmap s) (Scan 0 0 0 0)
    ltac:(lia) Hclosed eq_refl) as Hscan.
  specialize (Hscan (scan_inv_init _ count ltac:(lia))).
  change (Z.of_nat (length [])) with 0 in Hscan.
  destruct (scan_bytes count (pages_bitmap s) 0 _) as [st|];
    [|right; split; [done|exact Hscan]].
  destruct Hscan as (p & Hp & Hcnt & Hinv).
  destruct (inv_run _ _ _ _ Hinv ltac:(lia)) as (Hsi & Hsj & Hend & Haddr & Hfree).
  unfold page_count in Hp.
  destruct (mark_run_spec (run_fuel (pages_bitmap s)) (pages_bitmap s) (si st) (sj st) count)
    as (bm' & Hmark & Hset); [done|done|lia|lia|unfold page_count; lia|unfold run_fuel; lia|].
  left. exists (8 * si st + sj st), bm'. rewrite Hcnt, Hmark. cbn [mbind outcome_bind].
  rewrite Haddr, page_address_small by lia. unfold page_count.
  split_and!; [lia|lia| | |done|done].
  - by replace (8 * si st + sj st + count) with p by lia.
  - intros b e Hb He. apply (inv_none _ _ _ _ Hinv); lia.
Qed.

(** The addresses of a page that is not page zero. *)
Lemma page_addr_eqb p : 0 < p -> (4096 * p =? 0) = false.
Proof. intros ?. apply Z.eqb_neq. lia. Qed.

Lemma pages_cleared_set f bm bm1 bm2 :
  bytes bm -> (forall p, 0 <= p -> f p = true -> page_used bm p = false) ->
  pages_set f bm bm1 -> pages_cleared f bm1 bm2 -> bm2 = bm.
Proof.
  intros Hbm Hf (Hl1 & Hb1 & Hp1) (Hl2 & Hb2 & Hp2).
  apply pages_ext; [done|done|congruence|]. intros p Hp. rewrite Hp2, Hp1 by done.
  destruct (f p) eqn:Hfp; simpl; [by rewrite Hf|done].
Qed.

Lemma wf_set f s bm' u m :
  pmm_wf s -> pages_set f (pages_bitmap s) bm' -> pmm_wf (Pmm bm' u m).
Proof. intros [? ?] (Hl & ? & ?). constructor; simpl; [done|by rewrite Hl]. Qed.

(** ** Reserved regions of the memory map *)

Lemma entry_of_addr a : 0 <= a -> entry_of a = (a / 4096) / 8.
Proof. intros Ha. unfold entry_of, PAGE_SIZE. by rewrite Z.div_div. Qed.

Lemma bit_of_addr a : 0 <= a -> bit_of a = (a / 4096) mod 8.
Proof.
  intros Ha. unfold bit_of, PAGE_SIZE.
  rewrite Z.rem_mul_r, (Z.mul_comm 4096 (_ mod 8)), Z.div_add by lia.
  rewrite (Z.div_small (a mod 4096)); [lia|]. apply Z.mod_pos_bound. lia.
Qed.

(** Page zero counts as marked by a non-zero address only. *)
Definition marks (a p : Z) : bool := (p =? a / 4096) && negb (a =? 0).

Lemma pages_set_refl bm : bytes bm -> pages_set (fun _ => false) bm bm.
Proof. by repeat split. Qed.

Lemma pages_set_trans f g h bm1 bm2 bm3 :
  (forall p, 0 <= p -> h p = f p || g p) ->
  pages_set f bm1 bm2 -> pages_set g bm2 bm3 -> pages_set h bm1 bm3.
Proof.
  intros Hh (Hl1 & Hb1 & Hp1) (Hl2 & Hb2 & Hp2). repeat split; [congruence|done|].
  intros p Hp. rewrite Hp2, Hp1, Hh by done.
  destruct (f p), (g p), (page_used bm1 p); done.
Qed.

Lemma pages_set_ext f g bm bm' :
  (forall p, 0 <= p -> f p = g p) -> pages_set f bm bm' -> pages_set g bm bm'.
Proof. intros Hfg (? & ? & Hp). repeat split; try done. intros p ?. by rewrite <- Hfg, Hp. Qed.

Lemma mark_page_used_spec s a :
  pmm_wf s -> 0 <= a -> a / 4096 < page_count (pages_bitmap s) ->
  exists bm', phys_mark_page_entry a true s = Done (set_bitmap bm' s) /\
    pages_set (marks a) (pages_bitmap s) bm'.
Proof.
  intros [Hbm Hlen] Ha Hin. unfold phys_mark_page_entry, phys_get_bitmap_size, page_count in *.
  destruct (Z.eqb_spec a 0) as [->|Hne].
  { exists (pages_bitmap s). split; [by destruct s|].
    apply (pages_set_ext (fun _ => false)); [|by apply pages_set_refl].
    intros p _. unfold marks. simpl. by rewrite andb_false_r. }
  assert (0 <= a / 4096) by (apply Z.div_pos; lia).
  assert (a / 4096 / 8 < Z.of_nat (length (pages_bitmap s))).
  { apply Z.div_lt_upper_bound; lia. }
  destruct (Z.leb_spec (Z.of_nat (length (pages_bitmap s))) (a / 4096 / 8)); [lia|].
  rewrite entry_of_addr, bit_of_addr by lia.
  destruct (mark_used_spec (pages_bitmap s) (a / 4096 / 8) ((a / 4096) mod 8))
    as (bm' & -> & Hl & Hb & Hp).
  { done. } { split; [apply Z.div_pos; lia|done]. } { apply Z.mod_pos_bound. lia. }
  exists bm'. split; [done|]. repeat split; [done|done|]. intros p Hp0.
  rewrite Hp, page_div_mod by done. unfold marks. apply Z.eqb_neq in Hne. rewrite Hne.
  by rewrite andb_true_r.
Qed.

(** The pages [mark_region] reaches from the offset [j] on. *)
Definition region_from (base length j p : Z) : bool :=
  in_run ((base + j) / 4096) ((length - j + 4095) / 4096) p && negb ((base + j =? 0) && (p =? 0)).

Lemma region_from_empty base length j p : length <= j -> region_from base length j p = false.
Proof.
  intros Hj. unfold region_from, in_run.
  assert ((length - j + 4095) / 4096 <= 0).
  { assert ((length - j + 4095) / 4096 < 1); [|lia]. apply Z.div_lt_upper_bound; lia. }
  destruct (Z.leb_spec ((base + j) / 4096) p),
    (Z.ltb_spec p ((base + j) / 4096 + (length - j + 4095) / 4096)); simpl; lia || done.
Qed.

Lemma div_step x : (x + 4096) / 4096 = x / 4096 + 1.
Proof. replace (x + 4096) with (x + 1 * 4096) by lia. by rewrite Z.div_add. Qed.

Lemma region_from_step base length j p :
  0 <= base -> 0 <= j < length ->
  region_from base length j p = marks (base + j) p || region_from base length (j + 4096) p.
Proof.
  intros Hb Hj. unfold region_from, marks, in_run.
  replace (base + (j + 4096)) with (base + j + 4096) by lia. rewrite div_step.
  replace (length - j + 4095) with (length - (j + 4096) + 4095 + 4096) by lia.
  rewrite div_step.
  assert (0 <= (length - (j + 4096) + 4095) / 4096) by (apply Z.div_pos; lia).
  assert (base + j = 0 -> (base + j) / 4096 = 0) as H0 by (by intros ->).
  destruct (Z.eqb_spec (base + j) 0), (Z.eqb_spec (base + j + 4096) 0); try lia;
    destruct (Z.eqb_spec p 0), (Z.leb_spec ((base + j) / 4096) p),
      (Z.ltb_spec p ((base + j) / 4096 + ((length - (j + 4096) + 4095) / 4096 + 1))),
      (Z.eqb_spec p ((base + j) / 4096)), (Z.leb_spec ((base + j) / 4096 + 1) p),
      (Z.ltb_spec p ((base + j) / 4096 + 1 + (length - (j + 4096) + 4095) / 4096));
      simpl; lia || done.
Qed.

Lemma set_bitmap_same s : set_bitmap (pages_bitmap s) s = s.
Proof. by destruct s. Qed.

Lemma mark_region_spec fuel base length j s :
  pmm_wf s -> 0 <= base -> 0 <= j < length + 4096 -> length <= 0xfffff000 ->
  base + length <= 4096 * page_count (pages_bitmap s) ->
  length - j <= 4096 * (Z.of_nat fuel - 1) ->
  exists bm', mark_region fuel base length j s = Done (set_bitmap bm' s) /\
    pages_set (region_from base length j) (pages_bitmap s) bm'.
Proof.
  revert j s. induction fuel as [|fuel IH]; intros j s Hwf Hbase Hj Hmax Hin Hfuel;
    cbn [mark_region]; destruct (Z.ltb_spec j length).
  - lia.
  - lia.
  - pose proof (bytes_count_max _ Hwf).
    rewrite (u32_small (base + j)) by lia.
    destruct (mark_page_used_spec s (base + j)) as (bm1 & -> & Hs1);
      [done|lia|apply Z.div_lt_upper_bound; lia|].
    cbn [mbind outcome_bind]. unfold PAGE_SIZE. rewrite u32_small by lia.
    destruct (IH (j + 4096) (set_bitmap bm1 s)) as (bm' & Hrun & Hs'); try done || lia.
    { exact (wf_set _ s _ _ _ Hwf Hs1). }
    { unfold page_count in *. simpl. by rewrite (proj1 Hs1). }
    exists bm'. split; [done|]. eapply pages_set_trans; [|exact Hs1|exact Hs'].
    intros p _. apply region_from_step; lia.
  - exists (pages_bitmap s). rewrite set_bitmap_same. split; [done|].
    apply (pages_set_ext (fun _ => false)); [|apply pages_set_refl, Hwf].
    intros p _. by rewrite region_from_empty.
Qed.

(** The pages a memory map entry reserves: those of a region of another type
    than 1 that starts below the limit of the bitmap. *)
Definition reserves (limit : Z) (e : memory_map_entry) (p : Z) : bool :=
  (addr_low e <? limit) && negb (type e =? 1) && region_from (addr_low e) (len_low e) 0 p.

(** Entries are 32-bit words, and the reserved ones that start below the end of
    the bitmap also end there. *)
Definition entry_ok (limit : Z) (e : memory_map_entry) : Prop :=
  0 <= addr_low e < 2 ^ 32 /\ 0 <= len_low e < 2 ^ 32 /\
  (type e <> 1 -> addr_low e < limit -> addr_low e + len_low e <= limit).

Lemma mark_reserved_entry_spec s e :
  pmm_wf s -> page_count (pages_bitmap s) < 2 ^ 20 ->
  entry_ok (4096 * page_count (pages_bitmap s)) e ->
  exists bm', mark_reserved_entry e s = Done (set_bitmap bm' s) /\
    pages_set (reserves (4096 * page_count (pages_bitmap s)) e) (pages_bitmap s) bm'.
Proof.
  intros Hwf Hcnt (Ha & Hl & Hend). unfold mark_reserved_entry, phys_get_bitmap_size, reserves.
  replace (Z.of_nat (length (pages_bitmap s)) * 4096 * 8)
    with (4096 * page_count (pages_bitmap s)) by (unfold page_count; lia).
  set (limit := 4096 * page_count (pages_bitmap s)) in *.
  assert (0 <= page_count (pages_bitmap s)) by (unfold page_count; lia).
  assert (limit + 32768 <= 2 ^ 32) as Hlimit by (unfold limit, page_count in *; lia).
  rewrite (u32_small limit) by lia.
  assert (exists bm', Done s = Done (set_bitmap bm' s) /\
    pages_set (fun _ => false) (pages_bitmap s) bm') as Hskip.
  { exists (pages_bitmap s). rewrite set_bitmap_same. split; [done|apply pages_set_refl, Hwf]. }
  destruct (Z.leb_spec limit (addr_low e)), (Z.ltb_spec (addr_low e) limit); try lia; try exact Hskip.
  destruct (Z.eqb_spec (type e) 1); simpl; [exact Hskip|].
  assert (0 <= len_low e / 4096) by (apply Z.div_pos; lia).
  pose proof (Z.div_mod (len_low e) 4096). pose proof (Z.mod_pos_bound (len_low e) 4096).
  specialize (Hend ltac:(lia) ltac:(lia)).
  apply mark_region_spec; try done || lia.
Qed.

Lemma mark_reserved_memory_spec mmap s :
  pmm_wf s -> page_count (pages_bitmap s) < 2 ^ 20 ->
  Forall (entry_ok (4096 * page_count (pages_bitmap s))) mmap ->
  exists bm', mark_reserved_memory_as_used mmap s = Done (set_bitmap bm' s) /\
    pages_set (fun p => existsb (fun e => reserves (4096 * page_count (pages_bitmap s)) e p) mmap)
      (pages_bitmap s) bm'.
Proof.
  revert s. induction mmap as [|e mmap IH]; intros s Hwf Hcnt Hok; cbn [mark_reserved_memory_as_used].
  { exists (pages_bitmap s). rewrite set_bitmap_same. split; [done|apply pages_set_refl, Hwf]. }
  apply Forall_cons_1 in Hok as [He Hok].
  destruct (mark_reserved_entry_spec s e) as (bm1 & -> & Hs1); [done|done|done|].
  cbn [mbind outcome_bind].
  assert (page_count bm1 = page_count (pages_bitmap s)) as Hsame.
  { unfold page_count. by rewrite (proj1 Hs1). }
  destruct (IH (set_bitmap bm1 s)) as (bm' & Hrun & Hs').
  { exact (wf_set _ s _ _ _ Hwf Hs1). } { by simpl; rewrite Hsame. } { by simpl; rewrite Hsame. }
  exists bm'. split; [done|]. simpl in Hs'. rewrite Hsame in Hs'.
  eapply pages_set_trans; [|exact Hs1|exact Hs']. done.
Qed.

(** ** The empty bitmap *)

Lemma page_used_empty n p : 0 <= p < 8 * Z.of_nat n -> page_used (replicate n 0) p = false.
Proof.
  intros Hp. destruct (page_split p) as (i & j & -> & Hi & Hj); [lia|].
  rewrite (page_used_at _ i j 0); [apply Z.bits_0|done|].
  apply lookup_replicate_2. lia.
Qed.

Lemma empty_wf n u m : Z.of_nat n <= 2 ^ 17 -> pmm_wf (Pmm (replicate n 0) u m).
Proof.
  intros Hn. constructor; simpl; [|by rewrite length_replicate].
  apply Forall_replicate. lia.
Qed.

Lemma empty_closed n : runs_closed (replicate n 0).
Proof. intros i Hi Hb. apply lookup_replicate in Hb as [? ?]. done. Qed.

(** ** Queries and releases in terms of pages *)

Lemma page_byte bm p :
  0 <= p < page_count bm -> 0 <= p / 8 < Z.of_nat (length bm) /\ 0 <= p mod 8 < 8.
Proof.
  unfold page_count. intros Hp. split; [|by apply Z.mod_pos_bound].
  split; [apply Z.div_pos; lia|apply Z.div_lt_upper_bound; lia].
Qed.

Lemma is_used_page_spec s p :
  0 < p < page_count (pages_bitmap s) ->
  phys_is_used_page (4096 * p) s = Done (page_used (pages_bitmap s) p).
Proof.
  intros Hp. unfold phys_is_used_page.
  rewrite page_addr_eqb, entry_of_page, bit_of_page by lia.
  destruct (page_byte (pages_bitmap s) p) as [Hi Hj]; [lia|].
  destruct (array_get_in_range _ _ Hi) as [b Hb]. rewrite Hb. cbn [mbind outcome_bind].
  apply array_get_Done in Hb as [_ Hb]. unfold page_used. rewrite Hb.
  rewrite bit_free_iff by lia. by rewrite negb_involutive.
Qed.

Lemma free_single_spec s p :
  pmm_wf s -> 0 < p < page_count (pages_bitmap s) ->
  exists bm', phys_free_single_page (4096 * p) s =
      Done (Pmm bm' (u32 (used_phys_memory_size s - 4096)) (phys_memory_size s)) /\
    pages_cleared (fun q => q =? p) (pages_bitmap s) bm'.
Proof.
  intros Hwf Hp. unfold phys_free_single_page.
  rewrite page_addr_eqb, entry_of_page, bit_of_page by lia.
  destruct (page_byte (pages_bitmap s) p) as [Hi Hj]; [lia|].
  destruct (mark_free_spec (pages_bitmap s) _ _ (wf_bytes _ Hwf) Hi Hj) as (bm' & -> & ? & ? & Hq).
  rewrite page_div_mod in Hq. exists bm'. split; [done|]. by repeat split.
Qed.

Lemma free_multi_spec s p count :
  pmm_wf s -> 0 < p -> 0 < count -> p + count <= page_count (pages_bitmap s) ->
  exists bm', phys_free_multi_pages (4096 * p) count s = Done (set_bitmap bm' s) /\
    pages_cleared (in_run p count) (pages_bitmap s) bm'.
Proof.
  intros Hwf Hp Hc Hend. pose proof (bytes_count_max _ Hwf). unfold phys_free_multi_pages.
  rewrite page_addr_eqb, entry_of_page, bit_of_page by lia.
  destruct (page_byte (pages_bitmap s) p) as [Hi Hj]; [lia|].
  destruct (clear_run_spec (run_fuel (pages_bitmap s)) (pages_bitmap s) (p / 8) (p mod 8) count)
    as (bm' & -> & Hcl); [apply Hwf|lia|lia|lia|by rewrite page_div_mod|unfold run_fuel; lia|].
  rewrite page_div_mod in Hcl. by exists bm'.
Qed.

(** ** Properties *)

(** C1: whatever the state, [phys_alloc_single_page] answers: it spins exactly
    when no memory is left by the accounting; otherwise it returns the lowest
    free page, marks that page and no other and accounts for it, or, when every
    page the bitmap covers is used, returns 0 and changes nothing. *)
Theorem phys_alloc_single_page_first_fit s :
  pmm_wf s ->
  match phys_alloc_single_page s with
  | Done (a, s') =>
      used_phys_memory_size s < phys_memory_size s /\ pmm_wf s' /\
      ((exists p, a = 4096 * p /\ 0 <= p < page_count (pages_bitmap s) /\
          page_used (pages_bitmap s) p = false /\
          (forall q, 0 <= q < p -> page_used (pages_bitmap s) q = true) /\
          (forall q, 0 <= q ->
             page_used (pages_bitmap s') q = (q =? p) || page_used (pages_bitmap s) q) /\
          used_phys_memory_size s' = u32 (used_phys_memory_size s + 4096)) \/
       (a = 0 /\ s' = s /\ forall q, 0 <= q -> page_used (pages_bitmap s) q = true))
  | Hang => phys_memory_size s <= used_phys_memory_size s
  | Fault => False
  end.
Proof.
  intros Hwf. destruct (Z.le_gt_cases (phys_memory_size s) (used_phys_memory_size s)).
  { unfold phys_alloc_single_page.
    destruct (Z.leb_spec (phys_memory_size s) (used_phys_memory_size s)); [done|lia]. }
  destruct (alloc_single_cases s Hwf ltac:(lia)) as
    [(p & bm' & Hp & Hf & Hbefore & Hset & ->) | [-> Hall]].
  - split_and!; [lia|exact (wf_set _ s _ _ _ Hwf Hset)|].
    left. exists p. split_and!; try done || lia. apply Hset.
  - split_and!; [lia|done|by right].
Qed.

(** With no free page directly below a full byte, [phys_alloc_multi_pages]
    is first fit up to its look-ahead: it returns a run of [count] free pages
    that ends no later than any run of [count + 1] free pages does, marks
    exactly that run and accounts for it; it returns 0 and changes nothing only
    when no [count + 1] consecutive pages are free. *)
Theorem phys_alloc_multi_pages_run s count :
  pmm_wf s -> runs_closed (pages_bitmap s) -> 0 < count < 2 ^ 20 ->
  u32 (used_phys_memory_size s + 4096 * count) < phys_memory_size s ->
  exists a s', phys_alloc_multi_pages count s = Done (a, s') /\ pmm_wf s' /\
    ((exists p, a = 4096 * p /\ 0 <= p /\ p + count <= page_count (pages_bitmap s) /\
        free_run (pages_bitmap s) p (p + count) /\
        (forall b e, 0 <= b -> e <= p + count ->
           free_run (pages_bitmap s) b e -> e - b <= count) /\
        (forall q, 0 <= q ->
           page_used (pages_bitmap s') q = in_run p count q || page_used (pages_bitmap s) q) /\
        used_phys_memory_size s' = u32 (used_phys_memory_size s + 4096 * count)) \/
     (a = 0 /\ s' = s /\
      forall b e, 0 <= b -> e <= page_count (pages_bitmap s) ->
        free_run (pages_bitmap s) b e -> e - b <= count)).
Proof.
  intros Hwf Hclosed Hcount Hroom.
  destruct (alloc_multi_cases s count Hwf Hclosed Hcount Hroom) as
    [(p & bm' & Hp & Hend & Hrun & Hfirst & Hset & ->) | [-> Hnone]].
  - do 2 eexists. split; [done|]. split; [exact (wf_set _ s _ _ _ Hwf Hset)|].
    left. exists p. split_and!; try done. apply Hset.
  - do 2 eexists. split; [done|]. split; [done|by right].
Qed.

(** The condition of C2 is needed.  With page 7 free below a full byte and
    pages 16 to 18 free above it, a request for two pages is answered with
    page 7, and page 8, which was in use, is handed out with it, while page 16
    stays free. *)
Theorem phys_alloc_multi_pages_skips_full_byte :
  exists s a s', pmm_wf s /\ phys_alloc_multi_pages 2 s = Done (a, s') /\ a = 4096 * 7 /\
    page_used (pages_bitmap s) 7 = false /\ page_used (pages_bitmap s) 8 = true /\
    page_used (pages_bitmap s') 16 = false.
Proof.
  exists (Pmm [0x7f; 0xff; 0xf8] 0 0x100000), (4096 * 7),
    (Pmm [0xff; 0xff; 0xf8] 8192 0x100000).
  split_and!; try reflexivity. constructor; [|done].
  repeat (apply Forall_cons_2; [done|]). apply Forall_nil_2.
Qed.

(** Freeing the page that [phys_alloc_single_page] returned restores the
    whole allocator state, accounting included. *)
Theorem phys_free_alloc_single_page s a s' :
  pmm_wf s -> 0 <= used_phys_memory_size s < 2 ^ 32 ->
  phys_alloc_single_page s = Done (a, s') -> a <> 0 ->
  phys_is_used_page a s = Done false /\ phys_is_used_page a s' = Done true /\
  phys_free_single_page a s' = Done s.
Proof.
  intros Hwf Hu Halloc Ha.
  assert (used_phys_memory_size s < phys_memory_size s) as Hlt.
  { unfold phys_alloc_single_page in Halloc.
    destruct (Z.leb_spec (phys_memory_size s) (used_phys_memory_size s)); done || lia. }
  destruct (alloc_single_cases s Hwf Hlt) as
    [(p & bm' & Hp & Hf & Hbefore & Hset & Heq) | [Heq _]]; rewrite Heq in Halloc;
    injection Halloc as <- <-; [|done].
  simpl. pose proof (wf_set _ s _ (u32 (used_phys_memory_size s + PAGE_SIZE)) (phys_memory_size s)
    Hwf Hset) as Hwf'.
  assert (page_count bm' = page_count (pages_bitmap s)) as Hpc.
  { unfold page_count. by rewrite (proj1 Hset). }
  destruct (free_single_spec _ p Hwf') as (bm2 & Hfree & Hcl); [simpl; lia|].
  rewrite Hfree, !is_used_page_spec by (simpl; lia). simpl in Hcl |- *.
  split_and!; [by rewrite Hf|rewrite (proj2 (proj2 Hset)) by lia; by rewrite Z.eqb_refl|].
  rewrite (pages_cleared_set (fun q => q =? p) (pages_bitmap s) bm' bm2); try done.
  - rewrite u32_sub_add by done. by destruct s.
  - apply Hwf.
  - intros q _ Hq. by apply Z.eqb_eq in Hq as ->.
Qed.

(** Freeing the run that [phys_alloc_multi_pages] returned restores the
    bitmap, so every page of the run is free again and nothing else changed;
    the accounting however is not restored: [used_phys_memory_size] keeps the
    pages of the run. *)
Theorem phys_free_alloc_multi_pages s count a s' :
  pmm_wf s -> runs_closed (pages_bitmap s) -> 0 < count < 2 ^ 20 ->
  u32 (used_phys_memory_size s + 4096 * count) < phys_memory_size s ->
  phys_alloc_multi_pages count s = Done (a, s') -> a <> 0 ->
  phys_free_multi_pages a count s' =
    Done (Pmm (pages_bitmap s) (u32 (used_phys_memory_size s + 4096 * count)) (phys_memory_size s)).
Proof.
  intros Hwf Hclosed Hcount Hroom Halloc Ha.
  destruct (alloc_multi_cases s count Hwf Hclosed Hcount Hroom) as
    [(p & bm' & Hp & Hend & Hrun & Hfirst & Hset & Heq) | [Heq _]]; rewrite Heq in Halloc;
    injection Halloc as <- <-; [|done].
  pose proof (wf_set _ s _ (u32 (used_phys_memory_size s + 4096 * count)) (phys_memory_size s)
    Hwf Hset) as Hwf'.
  destruct (free_multi_spec _ p count Hwf') as (bm2 & -> & Hcl); [lia|lia| |].
  { unfold page_count in *. simpl. by rewrite (proj1 Hset). }
  rewrite (pages_cleared_set (in_run p count) (pages_bitmap s) bm' bm2); try done; [apply Hwf|].
  intros q _ Hq. apply Hrun. unfold in_run in Hq.
  apply andb_true_iff in Hq as [?%Z.leb_le ?%Z.ltb_lt]. lia.
Qed.

(** When every reserved region that starts below the end of the bitmap also
    ends there, [mark_reserved_memory_as_used] terminates and marks the pages
    of these regions (page zero through a non-zero address only) and no
    others. *)
Theorem mark_reserved_memory_as_used_pages mmap s :
  pmm_wf s -> page_count (pages_bitmap s) < 2 ^ 20 ->
  Forall (entry_ok (4096 * page_count (pages_bitmap s))) mmap ->
  exists s', mark_reserved_memory_as_used mmap s = Done s' /\ pmm_wf s' /\
    used_phys_memory_size s' = used_phys_memory_size s /\
    forall p, 0 <= p ->
      page_used (pages_bitmap s') p =
        existsb (fun e => reserves (4096 * page_count (pages_bitmap s)) e p) mmap
        || page_used (pages_bitmap s) p.
Proof.
  intros Hwf Hcnt Hok.
  destruct (mark_reserved_memory_spec mmap s Hwf Hcnt Hok) as (bm' & -> & Hset).
  exists (set_bitmap bm' s). split_and!; [done|exact (wf_set _ s _ _ _ Hwf Hset)|done|apply Hset].
Qed.

(** When the rounded end of the boot modules plus the bitmap leaves a whole
    page of the installed memory, [init_pmm] passes its own assertion and leaves
    an allocator in which exactly the pages from zero up to that end are
    used. *)
Theorem init_pmm_reserves_kernel grub_last_module_end s :
  0 < grub_last_module_end -> 0 <= phys_memory_size s < 2 ^ 32 ->
  used_phys_memory_size s = 0 ->
  grub_last_module_end + ALIGN (phys_memory_size s / 4096) 0x100 / 8 + 4095
    < 4096 * (phys_memory_size s / 4096) ->
  exists s', init_pmm grub_last_module_end s = Done s' /\ pmm_wf s' /\
    let first_free :=
      (grub_last_module_end + ALIGN (phys_memory_size s / 4096) 0x100 / 8 + 4095) / 4096 in
    used_phys_memory_size s' = 4096 * first_free /\
    forall p, 0 <= p < phys_memory_size s / 4096 ->
      page_used (pages_bitmap s') p = (p <? first_free).
Proof.
  intros Hg Hm Hu Hend. unfold init_pmm.
  set (v := phys_memory_size s / 4096) in *.
  change (phys_memory_size s / PAGE_SIZE) with v.
  assert (0 <= v < 2 ^ 20) as Hv.
  { unfold v. split; [apply Z.div_pos; lia|apply Z.div_lt_upper_bound; lia]. }
  assert (4096 * v <= phys_memory_size s) as Hvm by (unfold v; apply Z.mul_div_le; lia).
  assert (exists n, ALIGN v 0x100 / 8 = Z.of_nat n /\ v <= 8 * Z.of_nat n <= 2 ^ 20) as (n & Hn & Hnv).
  { change 0x100 with (2 ^ 8). rewrite ALIGN_spec by lia. change (2 ^ 8) with 256.
    pose proof (Z.div_mod (v + 256 - 1) 256). pose proof (Z.mod_pos_bound (v + 256 - 1) 256).
    assert ((v + 256 - 1) / 256 <= 4096).
    { assert ((v + 256 - 1) / 256 < 4097); [|lia]. apply Z.div_lt_upper_bound; lia. }
    rewrite u32_small by lia. replace (256 * ((v + 256 - 1) / 256))
      with (32 * ((v + 256 - 1) / 256) * 8) by lia. rewrite Z.div_mul by done.
    exists (Z.to_nat (32 * ((v + 256 - 1) / 256))). lia. }
  rewrite Hn in *. rewrite Nat2Z.id.
  set (e := grub_last_module_end + Z.of_nat n) in *.
  assert (0 < (e + 4095) / 4096 < v) as He.
  { split; [apply Z.div_str_pos; lia|apply Z.div_lt_upper_bound; lia]. }
  rewrite (u32_small e), ALIGN_page by lia. unfold PAGE_SIZE at 1.
  rewrite (Z.mul_comm 4096), Z.div_mul by done.
  set (c := (e + 4095) / 4096) in *.
  pose proof (empty_wf n (used_phys_memory_size s) (phys_memory_size s) ltac:(lia)) as Hwf.
  destruct (alloc_multi_cases _ c Hwf (empty_closed n)) as
    [(p & bm' & Hp & Hpe & Hrun & Hfirst & Hset & Heq) | [_ Hnone]]; simpl in *.
  { lia. } { rewrite Hu, u32_small by lia. lia. }
  - assert (p = 0) as ->.
    { specialize (Hfirst 0 (p + c)). unfold page_count in Hpe. rewrite length_replicate in Hpe.
      assert (p + c - 0 <= c); [|lia]. apply Hfirst; [lia|lia|].
      intros q Hq. apply page_used_empty. lia. }
    unfold set_bitmap. rewrite Heq. eexists. split; [done|].
    split; [exact (wf_set _ _ _ _ _ Hwf Hset)|]. simpl. rewrite Hu, u32_small by lia.
    split; [lia|]. intros q Hq. rewrite (proj2 (proj2 Hset)), page_used_empty by lia.
    rewrite orb_false_r. unfold in_run. destruct (Z.leb_spec 0 q); [done|lia].
  - exfalso. specialize (Hnone 0 (c + 1)). unfold page_count in Hnone.
    rewrite length_replicate in Hnone. assert (c + 1 - 0 <= c); [|lia].
    apply Hnone; [lia|lia|]. intros q Hq. apply page_used_empty. lia.
Qed.

(** ** Instances of the properties *)

Lemma no_full_byte_closed bm : Forall (fun b => b <> 0xff) bm -> runs_closed bm.
Proof. intros Hall i _ Hb. by destruct (Forall_lookup_1 _ _ _ _ Hall Hb). Qed.

Lemma bytes_forallb bm : forallb (fun b => (0 <=? b) && (b <? 2 ^ 8)) bm = true -> bytes bm.
Proof.
  intros Hb. rewrite forallb_forall in Hb. apply Forall_forall. intros b Hin.
  specialize (Hb b Hin). apply andb_true_iff in Hb as [?%Z.leb_le ?%Z.ltb_lt]. lia.
Qed.

(** Thirty-two pages; 0 to 3 and 8 are used. *)
Definition sample : pmm := Pmm [0x0f; 0x01; 0x00; 0x00] 0x5000 0x20000.

Lemma sample_wf : pmm_wf sample.
Proof. constructor; [by apply bytes_forallb|done]. Qed.

Lemma sample_closed : runs_closed (pages_bitmap sample).
Proof. apply no_full_byte_closed. by repeat constructor. Qed.

Lemma phys_alloc_single_page_first_fit_witness :
  phys_alloc_single_page sample = Done (0x4000, Pmm [0x1f; 0x01; 0x00; 0x00] 0x6000 0x20000) /\
  used_phys_memory_size sample < phys_memory_size sample.
Proof.
  pose proof (phys_alloc_single_page_first_fit sample sample_wf) as H.
  split; [reflexivity|exact (proj1 H)].
Defined.

Lemma phys_alloc_multi_pages_run_witness :
  exists a s', phys_alloc_multi_pages 3 sample = Done (a, s') /\ pmm_wf s'.
Proof.
  destruct (phys_alloc_multi_pages_run sample 3 sample_wf sample_closed ltac:(lia) ltac:(reflexivity))
    as (a & s' & Ha & Hwf & _).
  exists a, s'. split; [exact Ha|exact Hwf].
Defined.

Lemma phys_free_alloc_single_page_witness :
  phys_free_single_page 0x4000 (Pmm [0x1f; 0x01; 0x00; 0x00] 0x6000 0x20000) = Done sample.
Proof.
  destruct (phys_free_alloc_single_page sample 0x4000
    (Pmm [0x1f; 0x01; 0x00; 0x00] 0x6000 0x20000) sample_wf) as (_ & _ & H).
  - simpl. lia.
  - reflexivity.
  - discriminate.
  - exact H.
Defined.

Lemma phys_free_alloc_multi_pages_witness :
  phys_free_multi_pages 0x4000 3 (Pmm [0x7f; 0x01; 0x00; 0x00] 0x8000 0x20000) =
    Done (Pmm (pages_bitmap sample) 0x8000 0x20000).
Proof.
  apply (phys_free_alloc_multi_pages sample 3); first [exact sample_wf | exact sample_closed
    | reflexivity | lia | discriminate].
Defined.

Lemma mark_reserved_memory_as_used_pages_witness :
  exists s', mark_reserved_memory_as_used
      [MemoryMapEntry 0 0x9000 1; MemoryMapEntry 0xa000 0x2800 2; MemoryMapEntry 0x40000000 0x1000 2]
      sample = Done s' /\
    page_used (pages_bitmap s') 12 = true /\ page_used (pages_bitmap s') 13 = false.
Proof.
  destruct (mark_reserved_memory_as_used_pages
      [MemoryMapEntry 0 0x9000 1; MemoryMapEntry 0xa000 0x2800 2; MemoryMapEntry 0x40000000 0x1000 2]
      sample sample_wf) as (s' & Hs' & _ & _ & Hp).
  - reflexivity.
  - repeat (apply Forall_cons_2; [unfold entry_ok, page_count; simpl; lia|]). apply Forall_nil_2.
  - exists s'. split; [exact Hs'|]. split; rewrite Hp by lia; reflexivity.
Defined.

Lemma init_pmm_reserves_kernel_witness :
  exists s', init_pmm 0x5432 (Pmm [] 0 0x100000) = Done s' /\
    page_used (pages_bitmap s') 5 = true /\ page_used (pages_bitmap s') 6 = false.
Proof.
  destruct (init_pmm_reserves_kernel 0x5432 (Pmm [] 0 0x100000)) as (s' & Hs' & _ & _ & Hp).
  - lia.
  - simpl. lia.
  - reflexivity.
  - vm_compute. reflexivity.
  - exists s'. split; [exact Hs'|]. split; rewrite Hp by (vm_compute; split; discriminate || reflexivity);
      reflexivity.
Defined.
