(* ===== verification/Frames.v ===== *)
(** * The frame allocator interface and its implementation by the physical
    memory manager

    What paging.c and vmm.c rely on when they call pmm.c, as a class of
    operations and laws, and the proof that the bitmap allocator satisfies it. *)
From Stdlib Require Import ZArith Lia.
From stdpp Require Import base list gmap numbers.
From S2P Require Import Prelude.
From S2P Require Import Pmm.

#[local] Open Scope Z_scope.

(** ** The allocator of frames, as the page tables use it *)

Class FrameAlloc (F : Type) := {
  alloc_frame : F -> outcome (Z * F);
  free_frame : Z -> F -> outcome F;
  alloc_frames : Z -> F -> outcome (Z * F);
  free_frames : Z -> Z -> F -> outcome F;
  frames_inv : F -> Prop;
  frame_free : F -> Z -> Prop;
  frame_managed : F -> Z -> Prop;
  frames_left : F -> nat
}.

(** What the allocator promises while at least one frame is left. *)
Class FrameAllocLaws (F : Type) `{FrameAlloc F} := {
  alloc_frame_ok : forall f, frames_inv f -> (0 < frames_left f)%nat ->
    exists a f', alloc_frame f = Done (a, f') /\ frames_inv f' /\
      (exists p, a = 4096 * p /\ 0 < p < 2 ^ 20) /\ frame_free f a /\
      (forall b, frame_free f' b <-> frame_free f b /\ b <> a) /\
      (forall b, frame_managed f' b <-> frame_managed f b) /\
      frames_left f = S (frames_left f');
  free_frame_ok : forall f a, frames_inv f -> frame_managed f a -> ~ frame_free f a ->
    exists f', free_frame a f = Done f' /\ frames_inv f' /\
      (forall b, frame_free f' b <-> frame_free f b \/ b = a) /\
      (forall b, frame_managed f' b <-> frame_managed f b);
  frame_free_managed : forall f a, frames_inv f -> frame_free f a -> frame_managed f a
}.


(** ** The bitmap allocator as a frame allocator *)

(** The pages that may be handed out; page zero never is. *)
Definition free_pages (bm : list Z) : list Z :=
  filter (fun p => page_used bm p = false) (seqZ 1 (page_count bm - 1)).

Definition pages_left (s : pmm) : nat :=
  Nat.min (length (free_pages (pages_bitmap s)))
    (Z.to_nat ((phys_memory_size s - used_phys_memory_size s + 4095) / 4096)).

Record pmm_inv (s : pmm) : Prop := PmmInv {
  pi_wf : pmm_wf s;
  pi_zero : page_used (pages_bitmap s) 0 = true;
  pi_used : 0 <= used_phys_memory_size s;
  pi_size : phys_memory_size s <= 2 ^ 32 - 4096
}.

#[export] Instance pmm_frames : FrameAlloc pmm := {
  alloc_frame := phys_alloc_single_page;
  free_frame := phys_free_single_page;
  alloc_frames := phys_alloc_multi_pages;
  free_frames := phys_free_multi_pages;
  frames_inv := pmm_inv;
  frame_free s a := exists p, a = 4096 * p /\ 0 < p /\ page_used (pages_bitmap s) p = false;
  frame_managed s a := exists p, a = 4096 * p /\ 0 < p < page_count (pages_bitmap s);
  frames_left := pages_left
}.

Lemma elem_of_free_pages bm p :
  p ∈ free_pages bm <-> 0 < p < page_count bm /\ page_used bm p = false.
Proof. unfold free_pages. rewrite list_elem_of_filter, elem_of_seqZ. intuition lia. Qed.

Lemma filter_same {A} (P Q : A -> Prop) `{!forall x, Decision (P x), !forall x, Decision (Q x)}
    (l : list A) :
  (forall x, x ∈ l -> P x <-> Q x) -> filter P l = filter Q l.
Proof.
  induction l as [|x l IH]; intros Heq; [done|]. rewrite !filter_cons.
  pose proof (Heq x ltac:(left)) as Hx. rewrite IH by (intros y Hy; apply Heq; by right).
  destruct (decide (P x)), (decide (Q x)); tauto || done.
Qed.

Lemma filter_remove_one `{EqDecision A} (P Q : A -> Prop) `{!forall x, Decision (P x), !forall x, Decision (Q x)}
    (l : list A) a :
  NoDup l -> a ∈ l -> P a -> ~ Q a -> (forall x, x ∈ l -> x <> a -> P x <-> Q x) ->
  length (filter P l) = S (length (filter Q l)).
Proof.
  intros Hnd Hin HPa HQa Heq. revert Hnd Hin Heq.
  induction l as [|x l IH]; intros Hnd Hin Heq; [inversion Hin|].
  apply list.NoDup_cons in Hnd as [Hx Hnd]. rewrite !filter_cons.
  destruct (decide (x = a)) as [->|Hne].
  - rewrite decide_True, decide_False by done. simpl. f_equal. f_equal.
    apply filter_same. intros y Hy. apply Heq; [by right|]. by intros ->.
  - apply elem_of_cons in Hin as [->|Hin]; [done|].
    specialize (IH Hnd Hin ltac:(intros; apply Heq; [by right|done])).
    pose proof (Heq x ltac:(left) Hne).
    destruct (decide (P x)), (decide (Q x)); try tauto; simpl; lia.
Qed.

Lemma free_pages_taken bm bm' p :
  0 < p -> page_used bm p = false -> length bm' = length bm ->
  (forall q, 0 <= q -> page_used bm' q = (q =? p) || page_used bm q) ->
  length (free_pages bm) = S (length (free_pages bm')).
Proof.
  intros Hp Hf Hl Hu. unfold free_pages.
  replace (page_count bm') with (page_count bm) by (unfold page_count; lia).
  pose proof (free_page_in_range bm p Hf).
  apply filter_remove_one with p; [apply NoDup_seqZ|apply elem_of_seqZ; lia|done| |].
  - rewrite Hu, Z.eqb_refl by lia. done.
  - intros q Hq Hne. apply elem_of_seqZ in Hq. rewrite Hu by lia.
    apply Z.eqb_neq in Hne. by rewrite Hne.
Qed.

Lemma frames_of_page bm p q : 4096 * p = 4096 * q -> page_used bm p = page_used bm q.
Proof. intros Heq. f_equal. lia. Qed.

Lemma pmm_alloc_frame_ok s :
  pmm_inv s -> (0 < pages_left s)%nat ->
  exists a s', phys_alloc_single_page s = Done (a, s') /\ pmm_inv s' /\
    (exists p, a = 4096 * p /\ 0 < p < 2 ^ 20) /\ frame_free s a /\
    (forall b, frame_free s' b <-> frame_free s b /\ b <> a) /\
    (forall b, frame_managed s' b <-> frame_managed s b) /\
    pages_left s = S (pages_left s').
Proof.
  intros [Hwf Hz Hu Hm] Hleft. unfold pages_left in Hleft.
  assert (used_phys_memory_size s < phys_memory_size s) as Hlt.
  { destruct (Z.lt_ge_cases (used_phys_memory_size s) (phys_memory_size s)); [done|].
    assert ((phys_memory_size s - used_phys_memory_size s + 4095) / 4096 < 1); [|lia].
    apply Z.div_lt_upper_bound; lia. }
  destruct (alloc_single_cases s Hwf Hlt) as
    [(p & bm' & Hp & Hf & Hbefore & Hset & Heq)|[_ Hall]].
  2: { destruct (free_pages (pages_bitmap s)) as [|q l] eqn:Hfp; [simpl in Hleft; lia|].
       assert (q ∈ free_pages (pages_bitmap s)) as Hq by (rewrite Hfp; left).
       apply elem_of_free_pages in Hq as [Hq1 Hq2]. by rewrite Hall in Hq2 by lia. }
  assert (p <> 0) as Hp0 by congruence.
  pose proof (bytes_count_max _ Hwf). destruct Hset as (Hl & Hb & Hpu).
  do 2 eexists. split_and!; [exact Heq| |exists p; lia| | | |].
  - constructor; simpl; [apply (wf_set (fun q => q =? p) s); [done|by repeat split]| |apply u32_range|done].
    rewrite Hpu by lia. rewrite Hz. apply orb_true_r.
  - exists p. split_and!; [done|lia|done].
  - intros b. simpl. split.
    + intros (q & -> & Hq & Hfq). rewrite Hpu in Hfq by lia. apply orb_false_iff in Hfq as [Hne Hfq].
      apply Z.eqb_neq in Hne. split; [by exists q|lia].
    + intros [(q & -> & Hq & Hfq) Hne]. exists q. split_and!; [done|done|].
      rewrite Hpu by lia. destruct (Z.eqb_spec q p); [lia|done].
  - intros b. simpl. unfold page_count. by rewrite Hl.
  - unfold pages_left. cbn [pages_bitmap used_phys_memory_size phys_memory_size].
    rewrite (free_pages_taken _ bm' p) by (done || lia). unfold PAGE_SIZE.
    rewrite u32_small by lia.
    replace (phys_memory_size s - used_phys_memory_size s + 4095)
      with (phys_memory_size s - (used_phys_memory_size s + 4096) + 4095 + 1 * 4096) by lia.
    rewrite Z.div_add by done.
    assert (-1 < (phys_memory_size s - (used_phys_memory_size s + 4096) + 4095) / 4096); [|lia].
    assert (0 <= (phys_memory_size s - (used_phys_memory_size s + 4096) + 4095) / 4096); [|lia].
    apply Z.div_pos; lia.
Qed.

Lemma pmm_free_frame_ok s a :
  pmm_inv s -> frame_managed s a -> ~ frame_free s a ->
  exists s', phys_free_single_page a s = Done s' /\ pmm_inv s' /\
    (forall b, frame_free s' b <-> frame_free s b \/ b = a) /\
    (forall b, frame_managed s' b <-> frame_managed s b).
Proof.
  intros [Hwf Hz Hu Hm] (p & -> & Hp) Hused.
  destruct (free_single_spec s p Hwf Hp) as (bm' & -> & Hl & Hb & Hpu).
  eexists. split_and!; [done| | |].
  - constructor; simpl; [constructor; simpl; [done|rewrite Hl; apply Hwf]| |apply u32_range|done].
    rewrite Hpu, Hz by lia. destruct (Z.eqb_spec 0 p); [lia|done].
  - intros b. simpl. split.
    + intros (q & -> & Hq & Hfq). rewrite Hpu in Hfq by lia.
      destruct (Z.eqb_spec q p) as [->|]; [by right|left; by exists q].
    + intros [(q & -> & Hq & Hfq)| ->].
      * exists q. split_and!; [done|done|]. rewrite Hpu, Hfq by lia. apply andb_false_r.
      * exists p. split_and!; [done|lia|]. rewrite Hpu, Z.eqb_refl by lia. done.
  - intros b. simpl. unfold page_count. by rewrite Hl.
Qed.

(** The physical memory manager keeps the interface's promises. *)
#[export] Instance pmm_frames_laws : FrameAllocLaws pmm.
Proof.
  constructor.
  - exact pmm_alloc_frame_ok.
  - exact pmm_free_frame_ok.
  - intros s a _ (p & -> & Hp & Hf). exists p. pose proof (free_page_in_range _ _ Hf). by repeat split.
Qed.
