(* ===== verification/Paging.v ===== *)
(** * Page tables (kernel/src/arch/x86/mem/paging.c, paging_common.c)

    Two-level 32-bit page tables over a word-addressed physical memory.  The
    processor's translation is part of the model, so that the accesses the code
    makes through the recursive slot of the directory are followed to the
    physical words they reach.  The frame allocator is an interface. *)
From Stdlib Require Import ZArith Lia.
From stdpp Require Import base list gmap numbers.
From S2P Require Import Prelude.
From S2P Require Import Pmm.
From S2P Require Import Frames.

#[local] Open Scope Z_scope.

(** ** The machine *)

(** [paging_initialized] also stands for the paging bit of [cr0]: [init_paging]
    sets the variable right after [enable_paging]. *)
Record machine (F : Type) := Machine {
  words : gmap Z Z;
  cr3 : Z;
  paging_initialized : bool;
  kernel_page_directory : Z;
  frames : F
}.
Arguments Machine {F} _ _ _ _ _.
Arguments words {F} _.
Arguments cr3 {F} _.
Arguments paging_initialized {F} _.
Arguments kernel_page_directory {F} _.
Arguments frames {F} _.

Definition PAGE_PRESENT : Z := 1.
Definition PAGE_WRITEABLE : Z := 2.
Definition PAGE_USER : Z := 4.
Definition PAGE_CACHE_DISABLE : Z := 16.

Definition PD_INDEX (va : Z) : Z := Z.shiftr va 22.
Definition PT_INDEX (va : Z) : Z := Z.land (Z.shiftr va 12) 0x3ff.

(** The last 4 MiB show the page tables, the last page the directory. *)
Definition page_directory_start : Z := 0xffc00000.
Definition page_directory_virt : Z := 0xfffff000.

(** [x & ~0x3ff] on 32 bits. *)
Definition mask_low10 (x : Z) : Z := Z.land x 0xfffffc00.

Definition present (e : Z) : bool := negb (Z.land e 1 =? 0).

Section Paging.
Context {F : Type} `{FrameAlloc F}.

(** Physical words; a word that was never written holds some value, zero
    here. *)
Definition pread (m : machine F) (pa : Z) : Z := default 0 (words m !! (pa / 4)).
Definition pwrite (m : machine F) (pa x : Z) : machine F :=
  Machine (<[pa / 4 := x]> (words m)) (cr3 m) (paging_initialized m)
    (kernel_page_directory m) (frames m).
Definition set_frames (f : F) (m : machine F) : machine F :=
  Machine (words m) (cr3 m) (paging_initialized m) (kernel_page_directory m) f.

(** The processor's walk of the directory in [cr3]. *)
Definition walk (m : machine F) (va : Z) : option Z :=
  let pde := pread m (cr3 m + 4 * PD_INDEX va) in
  if present pde then
    let pte := pread m (page_base pde + 4 * PT_INDEX va) in
    if present pte then Some (page_base pte + va mod 4096) else None
  else None.

(** Where an access by the kernel goes: straight to the physical address while
    paging is off; an address that is not mapped faults. *)
Definition translate (m : machine F) (va : Z) : option Z :=
  if paging_initialized m then walk m va else Some va.

Definition vread (m : machine F) (va : Z) : outcome Z :=
  pa ← of_option (translate m va); Done (pread m pa).
Definition vwrite (m : machine F) (va x : Z) : outcome (machine F) :=
  pa ← of_option (translate m va); Done (pwrite m pa x).

(** [memset(p, 0, 4 * n)] on aligned words. *)
Fixpoint vzero (m : machine F) (va : Z) (n : nat) : outcome (machine F) :=
  match n with
  | O => Done m
  | S n' => m' ← vwrite m va 0; vzero m' (va + 4) n'
  end.

(** Single bytes, for data. *)
Definition vread8 (m : machine F) (va : Z) : outcome Z :=
  w ← vread m va; Done (u8 (Z.shiftr w (8 * (va mod 4)))).
Definition vwrite8 (m : machine F) (va x : Z) : outcome (machine F) :=
  w ← vread m va;
  let s := 8 * (va mod 4) in
  vwrite m va (Z.lor (Z.land w (Z.lnot (Z.shiftl 0xff s))) (Z.shiftl (u8 x) s)).

(** What [memcpy] and [memset] do to the memory, byte by byte. *)
Fixpoint vcopy (m : machine F) (dst src : Z) (n : nat) : outcome (machine F) :=
  match n with
  | O => Done m
  | S n' => b ← vread8 m src; m' ← vwrite8 m dst b; vcopy m' (u32 (dst + 1)) (u32 (src + 1)) n'
  end.
Fixpoint vfill (m : machine F) (dst x : Z) (n : nat) : outcome (machine F) :=
  match n with
  | O => Done m
  | S n' => m' ← vwrite8 m dst x; vfill m' (u32 (dst + 1)) x n'
  end.

Definition get_kernel_page_directory (m : machine F) : Z :=
  if paging_initialized m then page_directory_virt else kernel_page_directory m.

Definition new_page_directory (m : machine F) : outcome (Z * machine F) :=
  '(dir, f) ← alloc_frame (frames m);
  m1 ← vzero (set_frames f m) dir 1024;
  m2 ← vwrite m1 (dir + 4 * 1023) (Z.lor dir 3);
  Done (dir, m2).

Definition get_page_table_by_vaddr (m : machine F) (page_dir vaddr : Z) : outcome Z :=
  if paging_initialized m then
    Done (u32 (page_directory_start + PD_INDEX vaddr * PAGE_SIZE))
  else
    e ← vread m (page_dir + 4 * PD_INDEX vaddr); Done (page_base e).

(** The page table for a directory slot that is not present: allocated, entered
    in the directory, and cleared through the address it can be reached at. *)
Definition install_page_table (m : machine F) (page_dir pdi flags : Z)
    : outcome (Z * machine F) :=
  '(pt, f) ← alloc_frame (frames m);
  let entry := Z.lor (Z.lor pt PAGE_WRITEABLE) PAGE_PRESENT in
  let entry := if Z.land flags PAGE_USER =? 0 then entry else Z.lor entry PAGE_USER in
  m1 ← vwrite (set_frames f m) (page_dir + 4 * pdi) entry;
  if paging_initialized m1 then
    if page_dir =? get_kernel_page_directory m1 then
      let pt_addr := u32 (page_directory_start + pdi * PAGE_SIZE) in
      m2 ← vzero m1 pt_addr 1024;
      Done (pt_addr, m2)
    else Hang
  else
    m2 ← vzero m1 pt 1024;
    Done (pt, m2).

Definition map_single_page (m : machine F) (page_dir physical virtual flags : Z)
    : outcome (machine F) :=
  let virtual := page_base virtual in
  let physical := page_base physical in
  let pdi := PD_INDEX virtual in
  let pti := PT_INDEX virtual in
  e ← vread m (page_dir + 4 * pdi);
  '(pt, m1) ←
    (if Z.land e 1 =? 0 then install_page_table m page_dir pdi flags
     else pt ← get_page_table_by_vaddr m page_dir virtual; Done (pt, m));
  vwrite m1 (pt + 4 * pti) (Z.lor (Z.lor physical flags) PAGE_PRESENT).

Definition unmap_single_page (m : machine F) (page_dir virtual : Z)
    : outcome (machine F) :=
  let virtual := page_base virtual in
  e ← vread m (page_dir + 4 * PD_INDEX virtual);
  if Z.land e 1 =? 0 then Done m
  else
    pt ← get_page_table_by_vaddr m page_dir virtual;
    vwrite m (pt + 4 * PT_INDEX virtual) 0.

Definition phys_get_page_data (m : machine F) (page_dir virtual : Z) : outcome Z :=
  let virtual := mask_low10 virtual in
  e ← vread m (page_dir + 4 * PD_INDEX virtual);
  if Z.land e 1 =? 0 then Done 0
  else
    pt ← get_page_table_by_vaddr m page_dir virtual;
    vread m (pt + 4 * PT_INDEX virtual).

Definition virt2phys (m : machine F) (page_dir virtual : Z) : outcome Z :=
  if page_dir =? 0 then Done 0
  else
    let virtual := page_base virtual in
    e ← vread m (page_dir + 4 * PD_INDEX virtual);
    if Z.land e 1 =? 0 then Done 0
    else
      pt ← get_page_table_by_vaddr m page_dir virtual;
      x ← vread m (pt + 4 * PT_INDEX virtual);
      Done (mask_low10 x).

Definition virt2phys_precise (m : machine F) (page_dir virtual : Z) : outcome Z :=
  if page_dir =? 0 then Done 0
  else
    phys ← virt2phys m page_dir (page_base virtual);
    Done (u32 (phys + Z.land virtual 0xfff)).

(** [virts] is an array with the virtual address of every page table. *)
Definition virt2phys_ext (m : machine F) (page_dir virts virtual : Z) : outcome Z :=
  if page_dir =? 0 then Done 0
  else
    let virtual := page_base virtual in
    e ← vread m (page_dir + 4 * PD_INDEX virtual);
    if Z.land e 1 =? 0 then Done 0
    else
      pt ← vread m (virts + 4 * PD_INDEX virtual);
      x ← vread m (pt + 4 * PT_INDEX virtual);
      Done (mask_low10 x).

Definition phys_set_flags (m : machine F) (page_dir virtual flags : Z)
    : outcome (machine F) :=
  let virtual := page_base virtual in
  e ← vread m (page_dir + 4 * PD_INDEX virtual);
  if Z.land e 1 =? 0 then Done m
  else
    pt ← get_page_table_by_vaddr m page_dir virtual;
    m1 ← (if Z.land flags PAGE_USER =? 0 then Done m
          else
            e' ← vread m (page_dir + 4 * PD_INDEX virtual);
            vwrite m (page_dir + 4 * PD_INDEX virtual) (Z.lor e' PAGE_USER));
    x ← vread m1 (pt + 4 * PT_INDEX virtual);
    vwrite m1 (pt + 4 * PT_INDEX virtual)
      (Z.lor (Z.lor (mask_low10 x) flags) PAGE_PRESENT).

(** [for (vend = ...; virt < vend; phys += PAGE_SIZE, virt += PAGE_SIZE)] *)
Fixpoint map_pages_loop (fuel : nat) (m : machine F) (page_dir phys virt vend flags : Z)
    : outcome (machine F) :=
  match fuel with
  | O => Hang
  | S fuel' =>
      if virt <? vend then
        m' ← map_single_page m page_dir phys virt flags;
        map_pages_loop fuel' m' page_dir (u32 (phys + PAGE_SIZE)) (u32 (virt + PAGE_SIZE))
          vend flags
      else Done m
  end.

(** [virt] only grows until it reaches [vend], so the loop runs at most
    [(vend - virtual) / PAGE_SIZE + 1] times. *)
Definition map_pages (m : machine F) (page_dir physical virtual size flags : Z)
    : outcome (machine F) :=
  let vend := ALIGN (u32 (virtual + size)) PAGE_SIZE in
  map_pages_loop (S (Z.to_nat ((vend - virtual) / PAGE_SIZE + 1))) m page_dir physical virtual vend flags.

Definition map_pages_overlapping (m : machine F) (page_dir physical_start virtual_start size flags : Z)
    : outcome (machine F) :=
  let nth1 := virtual_start / PAGE_SIZE in
  let nth2 := u32 (virtual_start + size) / PAGE_SIZE in
  let pages_to_map := u32 (u32 (nth2 - nth1) + 1) in
  map_pages m page_dir physical_start virtual_start (u32 (pages_to_map * PAGE_SIZE)) flags.

Fixpoint unmap_pages_loop (n : nat) (m : machine F) (page_dir virtual : Z)
    : outcome (machine F) :=
  match n with
  | O => Done m
  | S n' =>
      m' ← unmap_single_page m page_dir virtual;
      unmap_pages_loop n' m' page_dir (u32 (virtual + PAGE_SIZE))
  end.

Definition unmap_pages_overlapping (m : machine F) (page_dir virtual size : Z)
    : outcome (machine F) :=
  let virtual := page_base virtual in
  let nth1 := virtual / PAGE_SIZE in
  let nth2 := u32 (virtual + size) / PAGE_SIZE in
  let pages_to_map := u32 (u32 (nth2 - nth1) + 1) in
  unmap_pages_loop (Z.to_nat pages_to_map) m page_dir virtual.

(** [grub_last_module_end] and [mboot] come from the boot loader. *)
Definition init_paging (m : machine F)
    (kernel_start grub_last_module_end bitmap_size mboot : Z) : outcome (machine F) :=
  let real_end := u32 (grub_last_module_end + bitmap_size) in
  '(dir, m1) ← new_page_directory m;
  let m1 := Machine (words m1) (cr3 m1) (paging_initialized m1) dir (frames m1) in
  m2 ← map_pages m1 dir kernel_start kernel_start (u32 (real_end - kernel_start)) PAGE_WRITEABLE;
  m3 ← map_pages m2 dir mboot mboot PAGE_SIZE PAGE_WRITEABLE;
  Done (Machine (words m3) dir true dir (frames m3)).
End Paging.

(** ** Indices and bits *)

Lemma present_spec e : present e = negb (e mod 2 =? 0).
Proof. unfold present. change 1 with (Z.ones 1). by rewrite Z.land_ones. Qed.

Lemma present_lor1 e : present (Z.lor e 1) = true.
Proof.
  rewrite present_spec, <- Z.bit0_mod, Z.lor_spec. by rewrite orb_true_r.
Qed.

Lemma not_present_iff e : (Z.land e 1 =? 0) = negb (present e).
Proof. unfold present. by rewrite negb_involutive. Qed.

Lemma PD_INDEX_page p o : 0 <= o < 4096 -> PD_INDEX (4096 * p + o) = p / 1024.
Proof.
  intros Ho. unfold PD_INDEX. rewrite Z.shiftr_div_pow2 by done.
  change (2 ^ 22) with (4096 * 1024). rewrite <- Z.div_div by done.
  f_equal. symmetry. by apply Z.div_unique with o; [left|].
Qed.

Lemma PT_INDEX_page p o : 0 <= o < 4096 -> PT_INDEX (4096 * p + o) = p mod 1024.
Proof.
  intros Ho. unfold PT_INDEX. rewrite Z.shiftr_div_pow2 by done.
  change 0x3ff with (Z.ones 10). rewrite Z.land_ones by done.
  change (2 ^ 12) with 4096. change (2 ^ 10) with 1024.
  f_equal. symmetry. by apply Z.div_unique with o; [left|].
Qed.

Lemma PD_INDEX_base p : PD_INDEX (4096 * p) = p / 1024.
Proof. rewrite <- (Z.add_0_r (4096 * p)). by apply PD_INDEX_page. Qed.
Lemma PT_INDEX_base p : PT_INDEX (4096 * p) = p mod 1024.
Proof. rewrite <- (Z.add_0_r (4096 * p)). by apply PT_INDEX_page. Qed.

Lemma mask_low10_spec x : 0 <= x < 2 ^ 32 -> mask_low10 x = 1024 * (x / 1024).
Proof.
  intros Hx. unfold mask_low10.
  assert (Z.land x 0xfffffc00 = Z.shiftl (Z.shiftr x 10) 10) as ->.
  { apply Z.bits_inj'. intros j Hj. rewrite Z.land_spec.
    change 0xfffffc00 with (Z.shiftl (Z.ones 22) 10).
    destruct (Z.lt_ge_cases j 10).
    - by rewrite !Z.shiftl_spec_low, andb_false_r by lia.
    - rewrite !Z.shiftl_spec, Z.shiftr_spec by lia. replace (j - 10 + 10) with j by lia.
      destruct (Z.lt_ge_cases j 32).
      + by rewrite Z.ones_spec_low, andb_true_r by lia.
      + by rewrite (testbit_small x 32). }
  rewrite Z.shiftl_mul_pow2, Z.shiftr_div_pow2 by lia. change (2 ^ 10) with 1024. lia.
Qed.

Lemma page_split_addr a : a = 4096 * (a / 4096) + a mod 4096 /\ 0 <= a mod 4096 < 4096.
Proof. split; [by apply Z.div_mod|by apply Z.mod_pos_bound]. Qed.

Lemma page_base_split p o : 0 <= p < 2 ^ 20 -> 0 <= o < 4096 -> page_base (4096 * p + o) = 4096 * p.
Proof. apply page_base_flags. Qed.

Lemma pd_pt_index p : 0 <= p -> 1024 * (p / 1024) + p mod 1024 = p.
Proof. intros _. symmetry. by apply Z.div_mod. Qed.

(** ** The address space as a map from page numbers to entries *)

Section Space.
Context {F : Type} `{FrameAllocLaws F}.
Implicit Types (m : machine F) (d : Z).

Definition pde m d (i : Z) : Z := pread m (d + 4 * i).
Definition table m d (i : Z) : Z := page_base (pde m d i).
Definition pte_addr m d (p : Z) : Z := table m d (p / 1024) + 4 * (p mod 1024).

(** The entry of page [p]; 0 when its table is not present. *)
Definition entry m d (p : Z) : Z :=
  if present (pde m d (p / 1024)) then pread m (pte_addr m d p) else 0.

(** The frames that make up the structure itself. *)
Definition owned m d (a : Z) : Prop :=
  a = d \/ exists i, 0 <= i < 1023 /\ present (pde m d i) = true /\ table m d i = a.

(** The pages outside the recursive slot. *)
Definition ordinary (p : Z) : Prop := 0 <= p < 1023 * 1024.

Record space_ok m d : Prop := SpaceOk {
  so_dir : exists k, d = 4096 * k /\ 0 < k < 2 ^ 20;
  so_cr3 : paging_initialized m = true -> cr3 m = d;
  so_kdir : paging_initialized m = false -> kernel_page_directory m = d;
  so_rec : pde m d 1023 = Z.lor d 3;
  so_words : forall a, 0 <= pread m a < 2 ^ 32;
  so_not_dir : forall i, 0 <= i < 1023 -> present (pde m d i) = true -> table m d i <> d;
  so_tables : forall i j, 0 <= i < 1023 -> 0 <= j < 1023 ->
    present (pde m d i) = true -> present (pde m d j) = true ->
    table m d i = table m d j -> i = j;
  so_frames : frames_inv (frames m);
  so_owned : forall a, owned m d a ->
    frame_managed (frames m) a /\ ~ frame_free (frames m) a
}.

Lemma page_base_page a : 0 <= a < 2 ^ 32 -> exists k, page_base a = 4096 * k /\ 0 <= k < 2 ^ 20.
Proof.
  intros Ha. exists (a / 4096). rewrite land_page_mask_div by done.
  split; [done|]. split; [apply Z.div_pos; lia|apply Z.div_lt_upper_bound; lia].
Qed.

Lemma table_page m d i : space_ok m d -> exists k, table m d i = 4096 * k /\ 0 <= k < 2 ^ 20.
Proof. intros Hok. apply page_base_page, Hok. Qed.

(** *** Reads after writes *)

Lemma pread_set_frames f m a : pread (set_frames f m) a = pread m a.
Proof. done. Qed.

Lemma pread_pwrite m a x b : pread (pwrite m a x) b = if b / 4 =? a / 4 then x else pread m b.
Proof.
  unfold pread, pwrite. simpl. destruct (Z.eqb_spec (b / 4) (a / 4)) as [->|Hne].
  - by rewrite lookup_insert_eq.
  - by rewrite lookup_insert_ne.
Qed.

Lemma slot_div t i : (4096 * t + 4 * i) / 4 = 1024 * t + i.
Proof. replace (4096 * t + 4 * i) with ((1024 * t + i) * 4) by lia. by apply Z.div_mul. Qed.

Lemma pread_pwrite_slot m t i x t' i' :
  0 <= i < 1024 -> 0 <= i' < 1024 ->
  pread (pwrite m (4096 * t + 4 * i) x) (4096 * t' + 4 * i') =
    if (t' =? t) && (i' =? i) then x else pread m (4096 * t' + 4 * i').
Proof.
  intros Hi Hi'. rewrite pread_pwrite, !slot_div.
  destruct (Z.eqb_spec (1024 * t' + i') (1024 * t + i)), (Z.eqb_spec t' t), (Z.eqb_spec i' i);
    simpl; done || lia.
Qed.

(** [m'] differs from [m] in the words of frame [t] only. *)
Record same_but (t : Z) m m' : Prop := SameBut {
  sb_read : forall t' i, t' <> t -> 0 <= i < 1024 ->
    pread m' (4096 * t' + 4 * i) = pread m (4096 * t' + 4 * i);
  sb_cr3 : cr3 m' = cr3 m;
  sb_paging : paging_initialized m' = paging_initialized m;
  sb_kdir : kernel_page_directory m' = kernel_page_directory m;
  sb_frames : frames m' = frames m
}.

Lemma same_but_refl t m : same_but t m m.
Proof. by constructor. Qed.

Lemma same_but_trans t m1 m2 m3 : same_but t m1 m2 -> same_but t m2 m3 -> same_but t m1 m3.
Proof.
  intros [R1 ? ? ? ?] [R2 ? ? ? ?]. constructor; try congruence.
  intros t' i Hne Hi. by rewrite R2, R1.
Qed.

Lemma same_but_pwrite t m i x : 0 <= i < 1024 -> same_but t m (pwrite m (4096 * t + 4 * i) x).
Proof.
  intros Hi. constructor; try done. intros t' j Hne Hj. rewrite pread_pwrite_slot by done.
  destruct (Z.eqb_spec t' t); [done|done].
Qed.

(** *** Where the kernel's pointers lead *)

Definition pt_ptr m d (i : Z) : Z :=
  if paging_initialized m then page_directory_start + 4096 * i else table m d i.

Lemma rec_present m d : space_ok m d -> present (pde m d 1023) = true /\ table m d 1023 = d.
Proof.
  intros Hok. destruct (so_dir _ _ Hok) as (k & -> & Hk).
  unfold table. rewrite (so_rec _ _ Hok), lor_page_flags by lia.
  split; [|apply page_base_flags; lia].
  rewrite present_spec. replace (4096 * k + 3) with (1 + (2048 * k + 1) * 2) by lia.
  by rewrite Z.mod_add.
Qed.

Lemma walk_page m d p o :
  cr3 m = d -> 0 <= o < 4096 ->
  walk m (4096 * p + o) =
    if present (pde m d (p / 1024)) then
      if present (pread m (pte_addr m d p)) then Some (page_base (pread m (pte_addr m d p)) + o)
      else None
    else None.
Proof.
  intros Hcr Ho. unfold walk. rewrite Hcr, PD_INDEX_page, PT_INDEX_page by done.
  assert ((4096 * p + o) mod 4096 = o) as ->; [|done].
  rewrite Z.add_comm, Z.mul_comm, Z.mod_add by done. by apply Z.mod_small.
Qed.

Lemma reach_table m d i j :
  space_ok m d -> 0 <= i < 1024 -> 0 <= j < 1024 -> present (pde m d i) = true ->
  (i = 1023 -> paging_initialized m = true) ->
  translate m (pt_ptr m d i + 4 * j) = Some (table m d i + 4 * j).
Proof.
  intros Hok Hi Hj Hpres Hon. unfold translate, pt_ptr.
  destruct (paging_initialized m) eqn:Hp; [|done].
  destruct (rec_present m d Hok) as [Hrp Hrt].
  replace (page_directory_start + 4096 * i + 4 * j) with (4096 * (1023 * 1024 + i) + 4 * j)
    by (unfold page_directory_start; lia).
  rewrite (walk_page m d) by (done || lia || by apply so_cr3).
  unfold pte_addr.
  assert ((1023 * 1024 + i) / 1024 = 1023) as ->.
  { symmetry. apply Z.div_unique with i; lia. }
  assert ((1023 * 1024 + i) mod 1024 = i) as ->.
  { symmetry. apply Z.mod_unique with 1023; lia. }
  rewrite Hrp, Hrt. fold (pde m d i). by rewrite Hpres.
Qed.

Lemma reach_dir m d i :
  space_ok m d -> 0 <= i < 1024 ->
  translate m (get_kernel_page_directory m + 4 * i) = Some (d + 4 * i).
Proof.
  intros Hok Hi. unfold get_kernel_page_directory.
  destruct (paging_initialized m) eqn:Hp.
  - destruct (rec_present m d Hok) as [Hrp Hrt].
    pose proof (reach_table m d 1023 i Hok ltac:(lia) Hi Hrp (fun _ => Hp)) as Hr.
    unfold pt_ptr in Hr. rewrite Hp, Hrt in Hr. exact Hr.
  - unfold translate. rewrite Hp. by rewrite (so_kdir _ _ Hok Hp).
Qed.

Lemma read_dir m d i :
  space_ok m d -> 0 <= i < 1024 ->
  vread m (get_kernel_page_directory m + 4 * i) = Done (pde m d i).
Proof. intros Hok Hi. unfold vread. by rewrite (reach_dir m d). Qed.

Lemma get_table m d p o :
  space_ok m d -> ordinary p -> 0 <= o < 4096 -> 
  get_page_table_by_vaddr m (get_kernel_page_directory m) (4096 * p + o)
    = Done (pt_ptr m d (p / 1024)).
Proof.
  intros Hok [Hp0 Hp] Ho. unfold get_page_table_by_vaddr, pt_ptr. rewrite PD_INDEX_page by done.
  assert (0 <= p / 1024 < 1023) as Hi.
  { split; [apply Z.div_pos; lia|apply Z.div_lt_upper_bound; lia]. }
  destruct (paging_initialized m) eqn:Hpg.
  - unfold page_directory_start, PAGE_SIZE. rewrite u32_small by lia. f_equal. lia.
  - by rewrite (read_dir m d) by (done || lia).
Qed.

(** *** Writes *)

Lemma owned_same_dir m m' d a :
  (forall i, 0 <= i < 1024 -> pde m' d i = pde m d i) -> owned m' d a <-> owned m d a.
Proof.
  intros Hpde. unfold owned, table.
  split; (intros [->|(i & Hi & Hp & Ht)]; [by left|right; exists i]);
    (rewrite Hpde in * by lia); done.
Qed.

Lemma space_ok_same_dir m m' d :
  space_ok m d -> cr3 m' = cr3 m -> paging_initialized m' = paging_initialized m ->
  kernel_page_directory m' = kernel_page_directory m -> frames m' = frames m ->
  (forall i, 0 <= i < 1024 -> pde m' d i = pde m d i) ->
  (forall a, 0 <= pread m' a < 2 ^ 32) -> space_ok m' d.
Proof.
  intros Hok Hcr Hpg Hkd Hfr Hpde Hw.
  pose proof (fun a => owned_same_dir m m' d a Hpde) as Hown.
  destruct Hok as [? ? ? ? ? Hnd Ht ? Ho].
  constructor; rewrite ?Hcr, ?Hpg, ?Hkd, ?Hfr; try done.
  - by rewrite Hpde.
  - unfold table in *. intros i Hi. rewrite !Hpde by lia. by apply Hnd.
  - unfold table in *. intros i j Hi Hj. rewrite !Hpde by lia. by apply Ht.
  - intros a Ha. apply Ho. by apply Hown.
Qed.

Lemma words_pwrite m a x :
  (forall b, 0 <= pread m b < 2 ^ 32) -> 0 <= x < 2 ^ 32 ->
  forall b, 0 <= pread (pwrite m a x) b < 2 ^ 32.
Proof. intros Hw Hx b. rewrite pread_pwrite. by case_match. Qed.

Lemma ordinary_index p : ordinary p -> 0 <= p / 1024 < 1023 /\ 0 <= p mod 1024 < 1024.
Proof.
  intros Hp. unfold ordinary in Hp. split; [|by apply Z.mod_pos_bound].
  split; [apply Z.div_pos; lia|apply Z.div_lt_upper_bound; lia].
Qed.

Lemma write_pte m d p v :
  space_ok m d -> ordinary p -> present (pde m d (p / 1024)) = true -> 0 <= v < 2 ^ 32 ->
  let m' := pwrite m (pte_addr m d p) v in
  space_ok m' d /\ (forall i, 0 <= i < 1024 -> pde m' d i = pde m d i) /\
  forall q, ordinary q -> entry m' d q = if q =? p then v else entry m d q.
Proof.
  intros Hok Hp Hpres Hv m'.
  destruct (ordinary_index p Hp) as [Hi Hj].
  destruct (table_page m d (p / 1024) Hok) as (t & Ht & Htr).
  destruct (so_dir _ _ Hok) as (k & Hd & Hk).
  assert (k <> t) as Hkt.
  { intros ->. apply (so_not_dir _ _ Hok _ Hi Hpres). congruence. }
  assert (forall i, 0 <= i < 1024 -> pde m' d i = pde m d i) as Hpde.
  { intros i Hi'. unfold pde, m', pte_addr. rewrite Ht, Hd, pread_pwrite_slot by done.
    destruct (Z.eqb_spec k t); done. }
  split; [|split; [done|]].
  - apply (space_ok_same_dir m); try done. by apply words_pwrite; [apply Hok|].
  - intros q Hq. destruct (ordinary_index q Hq) as [Hqi Hqj].
    unfold entry. rewrite Hpde by lia.
    destruct (present (pde m d (q / 1024))) eqn:Hqp.
    + assert (table m' d (q / 1024) = table m d (q / 1024)) as Htq.
      { unfold table. by rewrite Hpde by lia. }
      destruct (table_page m d (q / 1024) Hok) as (tq & Htq' & _).
      unfold pte_addr in *. rewrite Htq, Htq'. unfold m'. rewrite Ht.
      rewrite pread_pwrite_slot by done.
      destruct (Z.eqb_spec q p) as [->|Hne].
      { rewrite Ht in Htq'. by replace tq with t by lia; rewrite !Z.eqb_refl. }
      destruct (Z.eqb_spec tq t) as [->|], (Z.eqb_spec (q mod 1024) (p mod 1024)); try done.
      exfalso. apply Hne. rewrite <- (pd_pt_index q), <- (pd_pt_index p) by (apply Hq || apply Hp).
      f_equal; [f_equal|done]. apply (so_tables _ _ Hok); try done. congruence.
    + destruct (Z.eqb_spec q p) as [->|]; [congruence|done].
Qed.

Lemma write_table m d p v :
  space_ok m d -> ordinary p -> present (pde m d (p / 1024)) = true ->
  vwrite m (pt_ptr m d (p / 1024) + 4 * (p mod 1024)) v = Done (pwrite m (pte_addr m d p) v).
Proof.
  intros Hok Hp Hpres. destruct (ordinary_index p Hp) as [Hi Hj]. unfold vwrite.
  rewrite (reach_table m d) by (done || lia). done.
Qed.

Lemma read_table m d p :
  space_ok m d -> ordinary p -> present (pde m d (p / 1024)) = true ->
  vread m (pt_ptr m d (p / 1024) + 4 * (p mod 1024)) = Done (entry m d p).
Proof.
  intros Hok Hp Hpres. destruct (ordinary_index p Hp) as [Hi Hj]. unfold vread.
  rewrite (reach_table m d) by (done || lia). cbn. unfold entry. by rewrite Hpres.
Qed.

(** Clearing a frame word by word through a pointer that leads to it. *)
Lemma vzero_spec n t va j m :
  (forall m', same_but t m m' -> (forall a, 0 <= pread m' a < 2 ^ 32) ->
     forall i, 0 <= i < 1024 -> translate m' (va + 4 * i) = Some (4096 * t + 4 * i)) ->
  (forall a, 0 <= pread m a < 2 ^ 32) ->
  0 <= j -> j + Z.of_nat n <= 1024 ->
  exists m', vzero m (va + 4 * j) n = Done m' /\ same_but t m m' /\
    (forall a, 0 <= pread m' a < 2 ^ 32) /\
    (forall i, j <= i < j + Z.of_nat n -> pread m' (4096 * t + 4 * i) = 0) /\
    (forall i, 0 <= i < j -> pread m' (4096 * t + 4 * i) = pread m (4096 * t + 4 * i)).
Proof.
  revert j m. induction n as [|n IH]; intros j m Hreach Hw Hj Hn; cbn [vzero].
  { exists m. split_and!; [done|apply same_but_refl|done|lia|done]. }
  unfold vwrite. rewrite (Hreach m) by (apply same_but_refl || done || lia).
  cbn [of_option mbind outcome_bind].
  set (m1 := pwrite m (4096 * t + 4 * j) 0).
  assert (same_but t m m1) as Hs1 by (apply same_but_pwrite; lia).
  replace (va + 4 * j + 4) with (va + 4 * (j + 1)) by lia.
  destruct (IH (j + 1) m1) as (m' & Hz & Hs' & Hw' & Hzero & Hold); try lia.
  { intros m' Hm'. apply Hreach. by eapply same_but_trans. }
  { by apply words_pwrite. }
  exists m'. split_and!; [done|by eapply same_but_trans|done| |].
  - intros i Hi. destruct (decide (i = j)) as [->|].
    + rewrite Hold by lia. unfold m1. rewrite pread_pwrite_slot by lia.
      by rewrite !Z.eqb_refl.
    + apply Hzero. lia.
  - intros i Hi. rewrite Hold by lia. unfold m1. rewrite pread_pwrite_slot by lia.
    destruct (Z.eqb_spec i j); [lia|]. by rewrite andb_false_r.
Qed.

(** *** A new page table *)

(** One more frame belongs to the structure. *)
Record frame_taken m m' d a : Prop := FrameTaken {
  ft_free : frame_free (frames m) a;
  ft_frames : forall b, frame_free (frames m') b <-> frame_free (frames m) b /\ b <> a;
  ft_managed : forall b, frame_managed (frames m') b <-> frame_managed (frames m) b;
  ft_left : frames_left (frames m) = S (frames_left (frames m'));
  ft_owned : forall b, owned m' d b -> owned m d b \/ b = a
}.

Lemma table_entry_bits k flags :
  0 < k < 2 ^ 20 ->
  let e := Z.lor (Z.lor (4096 * k) PAGE_WRITEABLE) PAGE_PRESENT in
  let e := if Z.land flags PAGE_USER =? 0 then e else Z.lor e PAGE_USER in
  present e = true /\ page_base e = 4096 * k /\ 0 <= e < 2 ^ 32.
Proof.
  intros Hk e. unfold e, PAGE_WRITEABLE, PAGE_PRESENT, PAGE_USER.
  assert (forall f, 0 <= f < 4096 -> f mod 2 = 1 ->
    present (Z.lor (4096 * k) f) = true /\ page_base (Z.lor (4096 * k) f) = 4096 * k /\
    0 <= Z.lor (4096 * k) f < 2 ^ 32) as Hf.
  { intros f Hf Hodd. rewrite lor_page_flags by lia. split_and!; try lia.
    - rewrite present_spec. replace (4096 * k + f) with (f + (2048 * k) * 2) by lia.
      by rewrite Z.mod_add, Hodd.
    - apply page_base_flags; lia. }
  rewrite <- Z.lor_assoc. destruct (Z.land flags 4 =? 0).
  - by apply Hf.
  - rewrite <- Z.lor_assoc. by apply Hf.
Qed.

Lemma enter_table m d i k e :
  space_ok m d -> 0 <= i < 1023 -> present (pde m d i) = false ->
  0 < k < 2 ^ 20 -> ~ owned m d (4096 * k) ->
  frame_managed (frames m) (4096 * k) -> ~ frame_free (frames m) (4096 * k) ->
  present e = true -> page_base e = 4096 * k -> 0 <= e < 2 ^ 32 ->
  let m' := pwrite m (d + 4 * i) e in
  space_ok m' d /\ pde m' d i = e /\
  (forall j, 0 <= j < 1024 -> j <> i -> pde m' d j = pde m d j) /\
  (forall b, owned m' d b -> owned m d b \/ b = 4096 * k).
Proof.
  intros Hok Hi Hnp Hk Hfresh Hman Hused He Hbase Her m'.
  destruct (so_dir _ _ Hok) as (kd & Hd & Hkd).
  assert (forall j, 0 <= j < 1024 -> pde m' d j = if j =? i then e else pde m d j) as Hpde.
  { intros j Hj. unfold pde, m'. rewrite Hd, pread_pwrite_slot by lia.
    rewrite Z.eqb_refl. done. }
  assert (forall j, 0 <= j < 1024 ->
    table m' d j = if j =? i then 4096 * k else table m d j) as Htab.
  { intros j Hj. unfold table. rewrite Hpde by done. by case_match. }
  assert (forall b, owned m' d b -> owned m d b \/ b = 4096 * k) as Hown.
  { intros b [->|(j & Hj & Hp & <-)]; [by left; left|].
    rewrite Hpde in Hp by lia. rewrite Htab by lia. destruct (Z.eqb_spec j i); [by right|].
    left. right. by exists j. }
  assert (forall j, 0 <= j < 1023 -> present (pde m d j) = true -> table m d j <> 4096 * k) as Hne.
  { intros j Hj Hp Heq. apply Hfresh. right. by exists j. }
  split_and!; try done.
  - constructor; simpl; [exact (so_dir _ _ Hok)|exact (so_cr3 _ _ Hok)
      |exact (so_kdir _ _ Hok)| | | | |exact (so_frames _ _ Hok)|].
    + rewrite Hpde by lia. destruct (Z.eqb_spec 1023 i); [lia|exact (so_rec _ _ Hok)].
    + apply words_pwrite; [apply Hok|done].
    + intros j Hj. rewrite Hpde, Htab by lia. destruct (Z.eqb_spec j i) as [->|].
      * intros _ Heq. apply Hfresh. left. congruence.
      * by apply (so_not_dir _ _ Hok).
    + intros j1 j2 Hj1 Hj2. rewrite !Hpde, !Htab by lia.
      destruct (Z.eqb_spec j1 i) as [->|], (Z.eqb_spec j2 i) as [->|]; try done.
      * intros _ Hp Heq. destruct (Hne j2 Hj2 Hp). congruence.
      * intros Hp _ Heq. by destruct (Hne j1 Hj1 Hp).
      * by apply (so_tables _ _ Hok).
    + intros b Hb. destruct (Hown b Hb) as [Hb'| ->]; [by apply (so_owned _ _ Hok)|done].
  - rewrite Hpde by lia. by rewrite Z.eqb_refl.
  - intros j Hj Hne'. rewrite Hpde by lia. destruct (Z.eqb_spec j i); done.
Qed.

Lemma take_frame m d :
  space_ok m d -> (0 < frames_left (frames m))%nat ->
  exists k f, alloc_frame (frames m) = Done (4096 * k, f) /\ 0 < k < 2 ^ 20 /\
    space_ok (set_frames f m) d /\ ~ owned m d (4096 * k) /\
    frame_managed f (4096 * k) /\ ~ frame_free f (4096 * k) /\
    frame_taken m (set_frames f m) d (4096 * k).
Proof.
  intros Hok Hleft.
  destruct (alloc_frame_ok _ (so_frames _ _ Hok) Hleft)
    as (a & f & Halloc & Hinv & (k & -> & Hk) & Hfree & Hfr & Hman & Hl).
  assert (~ owned m d (4096 * k)) as Hno by (intros Ho; by apply (so_owned _ _ Hok) in Ho as []).
  exists k, f. split_and!; try done; try lia.
  - destruct Hok as [? ? ? ? ? ? ? ? Ho]. constructor; simpl; try done.
    intros b Hb. destruct (Ho b Hb) as [? Hnf]. split; [by apply Hman|].
    intros Hb'. apply Hnf. by apply Hfr.
  - apply Hman. apply frame_free_managed; [apply Hok|done].
  - rewrite Hfr. tauto.
  - constructor; simpl; try done. by left.
Qed.

(** Clearing the page table just entered at slot [i]. *)
Lemma clear_table m d i k :
  space_ok m d -> 0 <= i < 1023 -> present (pde m d i) = true -> table m d i = 4096 * k ->
  exists m', vzero m (pt_ptr m d i) 1024 = Done m' /\ same_but k m m' /\ space_ok m' d /\
    (forall j, 0 <= j < 1024 -> pde m' d j = pde m d j) /\
    (forall j, 0 <= j < 1024 -> pread m' (4096 * k + 4 * j) = 0).
Proof.
  intros Hok Hi Hp Ht. destruct (so_dir _ _ Hok) as (kd & Hd & Hkd).
  assert (kd <> k) as Hne by (intros ->; by apply (so_not_dir _ _ Hok i Hi Hp); congruence).
  assert (forall m', same_but k m m' -> forall j, 0 <= j < 1024 -> pde m' d j = pde m d j) as Hpde.
  { intros m' Hs j Hj. unfold pde. rewrite Hd. by apply (sb_read _ _ _ Hs). }
  assert (forall m', same_but k m m' -> (forall a, 0 <= pread m' a < 2 ^ 32) -> space_ok m' d) as Hok'.
  { intros m' Hs Hw. apply (space_ok_same_dir m); try apply Hs; try done. by apply Hpde. }
  destruct (vzero_spec 1024 k (pt_ptr m d i) 0 m) as (m' & Hz & Hs & Hw & Hzero & _); try lia.
  - intros m' Hs Hw j Hj. specialize (Hok' m' Hs Hw).
    assert (table m' d i = 4096 * k) as Ht' by (unfold table; rewrite Hpde by (done || lia); exact Ht).
    replace (pt_ptr m d i) with (pt_ptr m' d i).
    + rewrite (reach_table m' d) by (done || lia || by rewrite Hpde by (done || lia)). by rewrite Ht'.
    + unfold pt_ptr. by rewrite (sb_paging _ _ _ Hs), Ht, Ht'.
  - apply Hok.
  - rewrite Z.mul_0_r, Z.add_0_r in Hz. exists m'. split_and!; [done|done|by apply Hok'|by apply Hpde|].
    intros j Hj. apply Hzero. lia.
Qed.

(** Only the structure itself was written; only the structure, and frames that were
    free. *)
Definition structure_only m m' d : Prop :=
  forall t i, 0 <= i < 1024 -> ~ owned m d (4096 * t) -> pread m' (4096 * t + 4 * i) = pread m (4096 * t + 4 * i).
Definition tables_only m m' d : Prop :=
  forall t i, 0 <= i < 1024 -> ~ owned m d (4096 * t) -> ~ frame_free (frames m) (4096 * t) ->
    pread m' (4096 * t + 4 * i) = pread m (4096 * t + 4 * i).

Lemma structure_only_pwrite m d t i x : owned m d (4096 * t) -> 0 <= i < 1024 -> structure_only m (pwrite m (4096 * t + 4 * i) x) d.
Proof.
  intros Ho Hi t' j Hj Hno. rewrite pread_pwrite_slot by done. destruct (Z.eqb_spec t' t) as [->|]; done.
Qed.

Lemma structure_only_pte m d p x :
  space_ok m d -> ordinary p -> present (pde m d (p / 1024)) = true -> structure_only m (pwrite m (pte_addr m d p) x) d.
Proof.
  intros Hok Hp Hpres. destruct (ordinary_index p Hp) as [Hi Hj]. destruct (table_page m d (p / 1024) Hok) as (t & Ht & _).
  unfold pte_addr. rewrite Ht. apply structure_only_pwrite; [|done]. right. by exists (p / 1024).
Qed.

Lemma install_page_table_spec m d i flags :
  space_ok m d -> 0 <= i < 1023 -> present (pde m d i) = false ->
  (0 < frames_left (frames m))%nat ->
  exists m' a, install_page_table m (get_kernel_page_directory m) i flags
      = Done (pt_ptr m' d i, m') /\
    space_ok m' d /\ present (pde m' d i) = true /\ frame_taken m m' d a /\ tables_only m m' d /\
    paging_initialized m' = paging_initialized m /\
    forall q, ordinary q -> entry m' d q = entry m d q.
Proof.
  intros Hok Hi Hnp Hleft.
  destruct (take_frame m d Hok Hleft) as (k & f & Halloc & Hk & Hok0 & Hfresh & Hman & Hused & Htaken).
  destruct (so_dir _ _ Hok) as (kd & Hd & Hkd).
  pose proof (table_entry_bits k flags Hk) as (He & Hbase & Her). unfold install_page_table.
  rewrite Halloc. cbn [mbind outcome_bind].
  set (e := if Z.land flags PAGE_USER =? 0 then _ else _) in *.
  change (get_kernel_page_directory m) with (get_kernel_page_directory (set_frames f m)).
  unfold vwrite at 1. rewrite (reach_dir (set_frames f m) d) by (done || lia).
  cbn [of_option mbind outcome_bind].
  destruct (enter_table (set_frames f m) d i k e) as (Hok1 & Hpe & Hpo & Hown); try done.
  set (m1 := pwrite (set_frames f m) (d + 4 * i) e) in *.
  change (get_kernel_page_directory (set_frames f m)) with (get_kernel_page_directory m1).
  rewrite Z.eqb_refl.
  assert (table m1 d i = 4096 * k) as Ht1 by (unfold table; by rewrite Hpe).
  destruct (clear_table m1 d i k Hok1 Hi) as (m2 & Hz & Hs & Hok2 & Hpde2 & Hzero);
    [by rewrite Hpe|done|].
  exists m2, (4096 * k).
  assert (pt_ptr m2 d i = pt_ptr m1 d i) as Hptr.
  { unfold pt_ptr. rewrite (sb_paging _ _ _ Hs). unfold table. by rewrite Hpde2 by lia. }
  assert (frame_taken m m2 d (4096 * k)) as Htk.
  { destruct Htaken as [? ? ? ? _].
    constructor; rewrite ?(sb_frames _ _ _ Hs); try done.
    intros b Hb. apply (owned_same_dir m1 m2 d b Hpde2) in Hb. by apply Hown in Hb. }
  split_and!.
  - rewrite Hptr. revert Hz. unfold pt_ptr. destruct (paging_initialized m1).
    + unfold page_directory_start, PAGE_SIZE. rewrite u32_small by lia.
      rewrite (Z.mul_comm i). by intros ->.
    + rewrite Ht1. by intros ->.
  - done.
  - rewrite Hpde2, Hpe by lia. done.
  - done.
  - intros t j Hj Hno Hnf. rewrite (sb_read _ _ _ Hs) by (done || intros ->; by apply Hnf, (ft_free _ _ _ _ Htk)).
    unfold m1. rewrite Hd, pread_pwrite_slot by lia. destruct (Z.eqb_spec t kd) as [->|]; [|done].
    exfalso. apply Hno. left. congruence.
  - apply (sb_paging _ _ _ Hs).
  - intros q Hq. destruct (ordinary_index q Hq) as [Hqi Hqj]. unfold entry, pte_addr, table.
    rewrite Hpde2 by lia. destruct (decide (q / 1024 = i)) as [Heq|Hne].
    + rewrite Heq, Hpe, He, Hbase, Hnp. by apply Hzero.
    + rewrite Hpo by lia. change (pde (set_frames f m) d) with (pde m d).
      destruct (present (pde m d (q / 1024))) eqn:Hqp; [|done].
      destruct (table_page m d (q / 1024) Hok) as (t & Ht & Htr). unfold table in Ht. rewrite Ht.
      rewrite (sb_read _ _ _ Hs) by (done || intros ->; apply Hfresh; right; by exists (q / 1024)).
      unfold m1. rewrite Hd, pread_pwrite_slot by lia.
      destruct (Z.eqb_spec t kd) as [->|]; [|done]. exfalso.
      apply (so_not_dir _ _ Hok (q / 1024) Hqi Hqp). unfold table. congruence.
Qed.

(** *** Single pages *)

(** An operation keeps the frames, or takes one for a page table. *)
Definition frames_step m m' d : Prop :=
  tables_only m m' d /\
  ((frames m' = frames m /\ forall b, owned m' d b -> owned m d b) \/
   exists a, frame_taken m m' d a).

Lemma get_table_base m d p :
  space_ok m d -> ordinary p ->
  get_page_table_by_vaddr m (get_kernel_page_directory m) (4096 * p)
    = Done (pt_ptr m d (p / 1024)).
Proof.
  intros Hok Hp. rewrite <- (Z.add_0_r (4096 * p)). by apply get_table.
Qed.

Lemma ordinary_page p o :
  ordinary p -> 0 <= o < 4096 -> page_base (4096 * p + o) = 4096 * p.
Proof. intros Hp Ho. unfold ordinary in Hp. apply page_base_flags; lia. Qed.

Definition pte_value (physical flags : Z) : Z :=
  Z.lor (Z.lor (page_base physical) flags) PAGE_PRESENT.

Lemma pte_value_spec physical flags :
  0 <= physical < 2 ^ 32 -> 0 <= flags < 4096 ->
  present (pte_value physical flags) = true /\
  page_base (pte_value physical flags) = page_base physical /\
  0 < pte_value physical flags < 2 ^ 32.
Proof.
  intros Hp Hf. unfold pte_value, PAGE_PRESENT.
  destruct (page_base_page physical Hp) as (k & -> & Hk).
  assert (0 <= Z.lor flags 1 < 2 ^ 12) as Hf' by (apply lor_bound; lia).
  split; [apply present_lor1|split].
  - rewrite <- Z.lor_assoc, lor_page_flags by lia. apply page_base_flags; lia.
  - assert (Z.lor (Z.lor (4096 * k) flags) 1 <> 0).
    { intros Heq. pose proof (present_lor1 (Z.lor (4096 * k) flags)) as Hpr. by rewrite Heq in Hpr. }
    rewrite <- Z.lor_assoc in *. rewrite lor_page_flags in * by lia. lia.
Qed.

Lemma map_single_page_spec m d p o physical flags :
  space_ok m d -> ordinary p -> 0 <= o < 4096 -> 0 <= physical < 2 ^ 32 -> 0 <= flags < 4096 ->
  (0 < frames_left (frames m))%nat ->
  exists m', map_single_page m (get_kernel_page_directory m) physical (4096 * p + o) flags
      = Done m' /\
    space_ok m' d /\ frames_step m m' d /\ paging_initialized m' = paging_initialized m /\
    forall q, ordinary q -> entry m' d q = if q =? p then pte_value physical flags else entry m d q.
Proof.
  intros Hok Hp Ho Hphys Hflags Hleft. destruct (ordinary_index p Hp) as [Hi Hj].
  pose proof (pte_value_spec physical flags Hphys Hflags) as (_ & _ & Hv).
  unfold map_single_page. rewrite ordinary_page, PD_INDEX_base, PT_INDEX_base by done.
  rewrite (read_dir m d) by (done || lia). cbn [mbind outcome_bind].
  rewrite not_present_iff. destruct (present (pde m d (p / 1024))) eqn:Hpres; cbn [negb].
  - rewrite (get_table_base m d) by done. cbn [mbind outcome_bind].
    rewrite (write_table m d) by done. fold (pte_value physical flags).
    destruct (write_pte m d p (pte_value physical flags)) as (Hok' & Hpde & Hent); try done; try lia.
    eexists. split_and!; [done|done| |done|done].
    split; [intros t j Hj1 Hno _; by apply structure_only_pte|].
    left. split; [done|]. intros b Hb. by apply (owned_same_dir m) in Hb.
  - destruct (install_page_table_spec m d (p / 1024) flags)
      as (m1 & a & -> & Hok1 & Hp1 & Hft & Hto & Hpg & Hent1); try done.
    cbn [mbind outcome_bind]. rewrite (write_table m1 d) by done.
    fold (pte_value physical flags).
    destruct (write_pte m1 d p (pte_value physical flags)) as (Hok' & Hpde & Hent); try done; try lia.
    eexists. split_and!; [done|done| |done|].
    + split.
      * intros t j Hj1 Hno Hnf. rewrite (structure_only_pte m1 d p) by
          (done || (intros Ho1; apply (ft_owned _ _ _ _ Hft) in Ho1 as [| E]; [done|]; apply Hnf; rewrite E; apply Hft)).
        by apply Hto.
      * right. exists a. destruct Hft as [? ? ? ? Hown]. constructor; try done.
        intros b Hb. apply Hown. by apply (owned_same_dir m1) in Hb.
    + intros q Hq. by rewrite Hent, Hent1.
Qed.

Lemma unmap_single_page_spec m d p o :
  space_ok m d -> ordinary p -> 0 <= o < 4096 ->
  exists m', unmap_single_page m (get_kernel_page_directory m) (4096 * p + o) = Done m' /\
    space_ok m' d /\ frames m' = frames m /\ (forall b, owned m' d b <-> owned m d b) /\
    paging_initialized m' = paging_initialized m /\
    forall q, ordinary q -> entry m' d q = if q =? p then 0 else entry m d q.
Proof.
  intros Hok Hp Ho. destruct (ordinary_index p Hp) as [Hi Hj].
  unfold unmap_single_page. rewrite ordinary_page, PD_INDEX_base, PT_INDEX_base by done.
  rewrite (read_dir m d) by (done || lia). cbn [mbind outcome_bind].
  rewrite not_present_iff. destruct (present (pde m d (p / 1024))) eqn:Hpres; cbn [negb].
  - rewrite (get_table_base m d) by done. cbn [mbind outcome_bind].
    rewrite (write_table m d) by done.
    destruct (write_pte m d p 0) as (Hok' & Hpde & Hent); try done.
    eexists. split_and!; try done. intros b. by apply (owned_same_dir m).
  - eexists. split_and!; try done. intros q Hq. destruct (Z.eqb_spec q p) as [->|]; [|done].
    unfold entry. by rewrite Hpres.
Qed.

Lemma mask_low10_page p o :
  ordinary p -> 0 <= o < 4096 -> exists o', mask_low10 (4096 * p + o) = 4096 * p + o' /\ 0 <= o' < 4096.
Proof.
  intros Hp Ho. unfold ordinary in Hp. rewrite mask_low10_spec by lia.
  exists (1024 * (o / 1024)).
  replace (4096 * p + o) with (o + (4 * p) * 1024) by lia. rewrite Z.div_add by done.
  assert (0 <= o / 1024 < 4) by (split; [apply Z.div_pos; lia|apply Z.div_lt_upper_bound; lia]).
  lia.
Qed.

Lemma phys_get_page_data_spec m d p o :
  space_ok m d -> ordinary p -> 0 <= o < 4096 ->
  phys_get_page_data m (get_kernel_page_directory m) (4096 * p + o) = Done (entry m d p).
Proof.
  intros Hok Hp Ho. destruct (ordinary_index p Hp) as [Hi Hj]. unfold phys_get_page_data.
  destruct (mask_low10_page p o Hp Ho) as (o' & -> & Ho').
  rewrite PD_INDEX_page, PT_INDEX_page by done.
  rewrite (read_dir m d) by (done || lia). cbn [mbind outcome_bind].
  rewrite not_present_iff. destruct (present (pde m d (p / 1024))) eqn:Hpres; cbn [negb].
  - rewrite (get_table m d) by done. cbn [mbind outcome_bind]. by apply read_table.
  - unfold entry. by rewrite Hpres.
Qed.

(** The processor sees the entries. *)
Lemma walk_entry m d p o :
  space_ok m d -> paging_initialized m = true -> ordinary p -> 0 <= o < 4096 ->
  walk m (4096 * p + o) =
    if present (entry m d p) then Some (page_base (entry m d p) + o) else None.
Proof.
  intros Hok Hpg Hp Ho. rewrite (walk_page m d) by (done || by apply so_cr3).
  unfold entry. by destruct (present (pde m d (p / 1024))).
Qed.

(** *** Ranges of pages *)

(** At most [n] frames were taken, none was given back, and the structure grew
    by taken frames only. *)
Record frames_used (n : nat) m m' d : Prop := FramesUsed {
  fu_left : (frames_left (frames m) <= n + frames_left (frames m'))%nat;
  fu_free : forall b, frame_free (frames m') b -> frame_free (frames m) b;
  fu_managed : forall b, frame_managed (frames m') b <-> frame_managed (frames m) b;
  fu_owned : forall b, owned m' d b -> owned m d b \/ frame_free (frames m) b;
  fu_tables : tables_only m m' d
}.

Lemma frames_step_used m m' d : frames_step m m' d -> frames_used 1 m m' d.
Proof.
  intros [Hto [[Hf Ho]|(a & Hft)]].
  - constructor; rewrite ?Hf; try done; [lia|]. intros b Hb. left. by apply Ho.
  - destruct Hft as [Ha Hf Hm Hl Ho]. constructor; try done; [lia| |].
    + intros b Hb. by apply Hf in Hb as [].
    + intros b Hb. destruct (Ho b Hb) as [| ->]; [by left|by right].
Qed.

Lemma frames_used_refl m d : frames_used 0 m m d.
Proof. constructor; try done. by left. Qed.

Lemma frames_used_trans n1 n2 m1 m2 m3 d :
  frames_used n1 m1 m2 d -> frames_used n2 m2 m3 d -> frames_used (n1 + n2) m1 m3 d.
Proof.
  intros [L1 F1 M1 O1 T1] [L2 F2 M2 O2 T2]. constructor; [lia|auto| | |].
  - intros b. by rewrite M2, M1.
  - intros b Hb. destruct (O2 b Hb) as [Hb2|Hb2]; [by apply O1|right; by apply F1].
  - intros t i Hi Hno Hnf. rewrite T2, T1; try done; [|by intros Hf%F1]. intros Ho%O1. tauto.
Qed.

Lemma map_pages_loop_spec n fuel m d f o2 p o flags :
  space_ok m d -> 0 <= p -> p + Z.of_nat n <= 1023 * 1024 -> 0 <= o < 4096 ->
  0 <= f -> f + Z.of_nat n < 2 ^ 20 -> 0 <= o2 < 4096 -> 0 <= flags < 4096 ->
  (n < fuel)%nat -> (n <= frames_left (frames m))%nat ->
  exists m', map_pages_loop fuel m (get_kernel_page_directory m) (4096 * f + o2) (4096 * p + o)
      (4096 * (p + Z.of_nat n)) flags = Done m' /\
    space_ok m' d /\ frames_used n m m' d /\ paging_initialized m' = paging_initialized m /\
    forall q, ordinary q -> entry m' d q =
      if (p <=? q) && (q <? p + Z.of_nat n) then pte_value (4096 * (f + (q - p))) flags
      else entry m d q.
Proof.
  revert fuel m f p. induction n as [|n IH];
    intros fuel m f p Hok Hp0 Hp1 Ho Hf0 Hf1 Ho2 Hfl Hfuel Hleft;
    (destruct fuel as [|fuel]; [lia|]); cbn [map_pages_loop].
  - destruct (Z.ltb_spec (4096 * p + o) (4096 * (p + Z.of_nat 0))); [lia|].
    exists m. split_and!; try done; [apply frames_used_refl|].
    intros q _. destruct (Z.leb_spec p q), (Z.ltb_spec q (p + Z.of_nat 0)); simpl; done || lia.
  - destruct (Z.ltb_spec (4096 * p + o) (4096 * (p + Z.of_nat (S n)))); [|lia].
    destruct (map_single_page_spec m d p o (4096 * f + o2) flags)
      as (m1 & -> & Hok1 & Hst1 & Hpg1 & Hent1); try done; try (unfold ordinary; lia); try lia.
    cbn [mbind outcome_bind]. apply frames_step_used in Hst1.
    unfold PAGE_SIZE. rewrite !u32_small by lia.
    replace (4096 * f + o2 + 4096) with (4096 * (f + 1) + o2) by lia.
    replace (4096 * p + o + 4096) with (4096 * (p + 1) + o) by lia.
    replace (p + Z.of_nat (S n)) with (p + 1 + Z.of_nat n) by lia.
    replace (get_kernel_page_directory m) with (get_kernel_page_directory m1).
    2: { unfold get_kernel_page_directory. rewrite Hpg1. destruct (paging_initialized m) eqn:Hpg; [done|].
         rewrite (so_kdir _ _ Hok1), (so_kdir _ _ Hok); congruence. }
    destruct (IH fuel m1 (f + 1) (p + 1)) as (m' & -> & Hok' & Hst' & Hpg' & Hent'); try done; try lia.
    { pose proof (fu_left _ _ _ _ Hst1). lia. }
    exists m'. split_and!; [done|done|exact (frames_used_trans 1 n _ _ _ _ Hst1 Hst')|congruence|].
    intros q Hq. rewrite Hent', Hent1 by done.
    assert (pte_value (4096 * f + o2) flags = pte_value (4096 * (f + 0)) flags) as ->.
    { unfold pte_value. rewrite page_base_flags, Z.add_0_r, page_base_mul by lia. done. }
    destruct (Z.eqb_spec q p) as [->|].
    { destruct (Z.leb_spec p p), (Z.ltb_spec p (p + 1 + Z.of_nat n)), (Z.leb_spec (p + 1) p);
        simpl; try lia. by rewrite Z.sub_diag. }
    replace (f + 1 + (q - (p + 1))) with (f + (q - p)) by lia.
    destruct (Z.leb_spec p q), (Z.ltb_spec q (p + 1 + Z.of_nat n)), (Z.leb_spec (p + 1) q);
      simpl; done || lia.
Qed.

(** Pages [p, p + n) of [map_pages], where the range [virtual, virtual + size)
    ends in page [p + n - 1]. *)
Lemma map_pages_spec n m d f o2 p o size flags :
  space_ok m d -> 0 <= p -> p + Z.of_nat n <= 1023 * 1024 -> 0 <= o < 4096 ->
  0 <= f -> f + Z.of_nat n < 2 ^ 20 -> 0 <= o2 < 4096 -> 0 <= flags < 4096 ->
  0 <= size -> 4096 * (Z.of_nat n - 1) < o + size <= 4096 * Z.of_nat n ->
  (n <= frames_left (frames m))%nat ->
  exists m', map_pages m (get_kernel_page_directory m) (4096 * f + o2) (4096 * p + o) size flags
      = Done m' /\
    space_ok m' d /\ frames_used n m m' d /\ paging_initialized m' = paging_initialized m /\
    forall q, ordinary q -> entry m' d q =
      if (p <=? q) && (q <? p + Z.of_nat n) then pte_value (4096 * (f + (q - p))) flags
      else entry m d q.
Proof.
  intros Hok Hp0 Hp1 Ho Hf0 Hf1 Ho2 Hfl Hsz Hend Hleft. unfold map_pages.
  rewrite (u32_small (4096 * p + o + size)), ALIGN_page by lia.
  assert ((4096 * p + o + size + 4095) / 4096 = p + Z.of_nat n) as ->.
  { symmetry. apply Z.div_unique with (o + size + 4095 - 4096 * Z.of_nat n); lia. }
  apply map_pages_loop_spec; try done.
  unfold PAGE_SIZE.
  assert (Z.of_nat n - 1 <= (4096 * (p + Z.of_nat n) - (4096 * p + o)) / 4096); [|lia].
  apply Z.div_le_lower_bound; lia.
Qed.

(** *** Flags *)

Lemma user_flag_pde e : 0 <= e < 2 ^ 32 ->
  present (Z.lor e PAGE_USER) = present e /\ page_base (Z.lor e PAGE_USER) = page_base e /\ 0 <= Z.lor e PAGE_USER < 2 ^ 32.
Proof.
  intros He. unfold present, page_base, PAGE_USER. rewrite !Z.land_lor_distr_l. change (Z.land 4 1) with 0.
  change (Z.land 4 0xfffff000) with 0. rewrite !Z.lor_0_r. split; [done|]. split; [done|]. apply lor_bound; lia.
Qed.

(** A directory entry that leads to the same table. *)
Lemma write_pde m d i e :
  space_ok m d -> 0 <= i < 1023 -> present (pde m d i) = true ->
  present e = true -> page_base e = table m d i -> 0 <= e < 2 ^ 32 ->
  let m' := pwrite m (d + 4 * i) e in
  space_ok m' d /\ (forall b, owned m' d b <-> owned m d b) /\ structure_only m m' d /\
  (forall j, 0 <= j < 1024 -> present (pde m' d j) = present (pde m d j) /\ table m' d j = table m d j /\ (pde m' d j = 0 <-> pde m d j = 0)) /\
  forall q, ordinary q -> entry m' d q = entry m d q.
Proof.
  intros Hok Hi Hpi Hp Hb He m'. destruct (so_dir _ _ Hok) as (k & Hd & Hk).
  assert (forall j, 0 <= j < 1024 -> pde m' d j = if j =? i then e else pde m d j) as Hpde.
  { intros j Hj. unfold m', pde. rewrite Hd, pread_pwrite_slot by lia. by rewrite Z.eqb_refl. }
  assert (forall j, 0 <= j < 1024 -> present (pde m' d j) = present (pde m d j) /\ table m' d j = table m d j /\ (pde m' d j = 0 <-> pde m d j = 0)) as Hsame.
  { intros j Hj. unfold table at 1. rewrite Hpde by done. destruct (Z.eqb_spec j i) as [->|]; [|done]. rewrite Hp, Hpi, Hb.
    split; [done|]. split; [done|]. split; intros E; [by rewrite E in Hp|by rewrite E in Hpi]. }
  assert (forall b, owned m' d b <-> owned m d b) as Hown.
  { intros b. unfold owned. split; (intros [|(j & Hj & Hpj & Ht)]; [by left|right; exists j]);
      destruct (Hsame j ltac:(lia)) as (E1 & E2 & _); [rewrite E1 in Hpj; rewrite E2 in Ht|rewrite E1, E2]; done. }
  split; [|split; [done|split; [|split; [done|]]]].
  - constructor; simpl; [exact (so_dir _ _ Hok)|exact (so_cr3 _ _ Hok)|exact (so_kdir _ _ Hok)| | | | |exact (so_frames _ _ Hok)|].
    + rewrite Hpde by lia. destruct (Z.eqb_spec 1023 i); [lia|exact (so_rec _ _ Hok)].
    + apply words_pwrite; [apply Hok|done].
    + intros j Hj. destruct (Hsame j ltac:(lia)) as (-> & -> & _). by apply (so_not_dir _ _ Hok).
    + intros j1 j2 Hj1 Hj2. destruct (Hsame j1 ltac:(lia)) as (-> & -> & _). destruct (Hsame j2 ltac:(lia)) as (-> & -> & _).
      by apply (so_tables _ _ Hok).
    + intros b Hb'. apply (so_owned _ _ Hok). by apply Hown.
  - unfold m'. rewrite Hd. apply structure_only_pwrite; [left; congruence|lia].
  - intros q Hq. destruct (ordinary_index q Hq) as [Hqi Hqj]. unfold entry, pte_addr.
    destruct (Hsame (q / 1024) ltac:(lia)) as (-> & -> & _). destruct (present (pde m d (q / 1024))) eqn:Hqp; [|done].
    destruct (table_page m d (q / 1024) Hok) as (t & Ht & _). rewrite Ht. unfold m'. rewrite Hd, pread_pwrite_slot by lia.
    destruct (Z.eqb_spec t k) as [->|]; [|done]. exfalso. apply (so_not_dir _ _ Hok _ Hqi Hqp). congruence.
Qed.

(** The flags of a page are replaced; it stays where it is mapped. *)
Definition flags_value (e flags : Z) : Z := Z.lor (Z.lor (mask_low10 e) flags) PAGE_PRESENT.

Lemma flags_value_range e flags : 0 <= e < 2 ^ 32 -> 0 <= flags < 4096 -> 0 <= flags_value e flags < 2 ^ 32.
Proof.
  intros He Hf. unfold flags_value, PAGE_PRESENT. rewrite mask_low10_spec by done.
  pose proof (Z.div_mod e 1024 ltac:(lia)). pose proof (Z.mod_pos_bound e 1024 ltac:(lia)).
  apply lor_bound; [lia| |lia]. apply lor_bound; lia.
Qed.

Lemma phys_set_flags_spec m d p o flags :
  space_ok m d -> ordinary p -> 0 <= o < 4096 -> 0 <= flags < 4096 ->
  exists m', phys_set_flags m (get_kernel_page_directory m) (4096 * p + o) flags = Done m' /\
    space_ok m' d /\ frames m' = frames m /\ (forall b, owned m' d b <-> owned m d b) /\
    paging_initialized m' = paging_initialized m /\ structure_only m m' d /\
    (forall i, 0 <= i < 1024 -> present (pde m' d i) = present (pde m d i) /\ (pde m' d i = 0 <-> pde m d i = 0)) /\
    forall q, ordinary q -> entry m' d q =
      if (q =? p) && present (pde m d (p / 1024)) then flags_value (entry m d p) flags else entry m d q.
Proof.
  intros Hok Hp Ho Hfl. destruct (ordinary_index p Hp) as [Hi Hj].
  unfold phys_set_flags. rewrite ordinary_page, PD_INDEX_base, PT_INDEX_base by done.
  rewrite (read_dir m d) by (done || lia). cbn [mbind outcome_bind].
  rewrite not_present_iff. destruct (present (pde m d (p / 1024))) eqn:Hpres; cbn [negb].
  2: { exists m. split_and!; try done. intros q _. by rewrite andb_false_r. }
  rewrite (get_table_base m d) by done. cbn [mbind outcome_bind].
  set (m1 := if Z.land flags PAGE_USER =? 0 then m else pwrite m (d + 4 * (p / 1024)) (Z.lor (pde m d (p / 1024)) PAGE_USER)).
  assert ((if Z.land flags PAGE_USER =? 0 then Done m else
     vwrite m (get_kernel_page_directory m + 4 * (p / 1024)) (Z.lor (pde m d (p / 1024)) PAGE_USER)) = Done m1) as ->.
  { unfold m1. destruct (Z.land flags PAGE_USER =? 0); [done|]. unfold vwrite. by rewrite (reach_dir m d) by (done || lia). }
  assert (space_ok m1 d /\ (forall b, owned m1 d b <-> owned m d b) /\ structure_only m m1 d /\
    (forall j, 0 <= j < 1024 -> present (pde m1 d j) = present (pde m d j) /\ table m1 d j = table m d j /\ (pde m1 d j = 0 <-> pde m d j = 0)) /\
    (forall q, ordinary q -> entry m1 d q = entry m d q) /\ paging_initialized m1 = paging_initialized m /\ frames m1 = frames m)
    as (Hok1 & Hown1 & Hto1 & Hsame & Hent1 & Hpg1 & Hfr1).
  { unfold m1. destruct (Z.land flags PAGE_USER =? 0); [by split_and!|].
    destruct (user_flag_pde (pde m d (p / 1024)) (so_words _ _ Hok _)) as (E1 & E2 & E3).
    destruct (write_pde m d (p / 1024) _ Hok Hi Hpres ltac:(by rewrite E1) E2 E3) as (? & ? & ? & ? & ?). by split_and!. }
  cbn [mbind outcome_bind].
  assert (pt_ptr m1 d (p / 1024) = pt_ptr m d (p / 1024)) as <-.
  { unfold pt_ptr. rewrite Hpg1. by destruct (Hsame (p / 1024) ltac:(lia)) as (_ & -> & _). }
  assert (present (pde m1 d (p / 1024)) = true) as Hpres1 by (by destruct (Hsame (p / 1024) ltac:(lia)) as (-> & _)).
  rewrite (read_table m1 d) by done. cbn [mbind outcome_bind]. rewrite (write_table m1 d) by done.
  rewrite Hent1 by done. fold (flags_value (entry m d p) flags).
  assert (0 <= entry m d p < 2 ^ 32) as Her by (unfold entry; rewrite Hpres; apply Hok).
  destruct (write_pte m1 d p (flags_value (entry m d p) flags)) as (Hok' & Hpde & Hent); try done; [by apply flags_value_range|].
  eexists. split; [done|]. split; [done|]. split; [done|]. split; [|split; [done|split; [|split]]].
  - intros b. rewrite (owned_same_dir m1) by done. apply Hown1.
  - intros t i Hi' Hno. rewrite (structure_only_pte m1 d p) by (done || by rewrite Hown1). by apply Hto1.
  - intros i Hi'. rewrite Hpde by done. destruct (Hsame i Hi') as (E1 & _ & E2). done.
  - intros q Hq. rewrite Hent, andb_true_r by done. destruct (Z.eqb_spec q p); [done|]. by apply Hent1.
Qed.

Lemma unmap_structure_only m m' d p o :
  space_ok m d -> ordinary p -> 0 <= o < 4096 ->
  unmap_single_page m (get_kernel_page_directory m) (4096 * p + o) = Done m' -> structure_only m m' d.
Proof.
  intros Hok Hp Ho. destruct (ordinary_index p Hp) as [Hi Hj].
  unfold unmap_single_page. rewrite ordinary_page, PD_INDEX_base, PT_INDEX_base by done.
  rewrite (read_dir m d) by (done || lia). cbn [mbind outcome_bind].
  rewrite not_present_iff. destruct (present (pde m d (p / 1024))) eqn:Hpres; cbn [negb]; [|by intros [= <-]].
  rewrite (get_table_base m d) by done. cbn [mbind outcome_bind].
  rewrite (write_table m d) by done. intros [= <-]. by apply structure_only_pte.
Qed.

(** *** The first directory *)

Definition with_directory m d : machine F :=
  Machine (words m) (cr3 m) (paging_initialized m) d (frames m).

Definition memory_ok m : Prop :=
  (forall a, 0 <= pread m a < 2 ^ 32) /\ frames_inv (frames m).

Lemma new_page_directory_spec m :
  memory_ok m -> paging_initialized m = false -> (0 < frames_left (frames m))%nat ->
  exists d m1, new_page_directory m = Done (d, m1) /\
    paging_initialized m1 = false /\ space_ok (with_directory m1 d) d /\
    (frames_left (frames m) = S (frames_left (frames m1))) /\
    forall q, ordinary q -> entry (with_directory m1 d) d q = 0.
Proof.
  intros [Hw Hinv] Hoff Hleft.
  destruct (alloc_frame_ok _ Hinv Hleft)
    as (a & f & Halloc & Hinv' & (k & -> & Hk) & Hfree & Hfr & Hman & Hl).
  unfold new_page_directory. rewrite Halloc. cbn [mbind outcome_bind].
  destruct (vzero_spec 1024 k (4096 * k) 0 (set_frames f m)) as (m0 & Hz & Hs & Hw0 & Hzero & _);
    [|done|lia|lia|].
  { intros m' Hm' _ i Hi. unfold translate. rewrite (sb_paging _ _ _ Hm'). cbn. by rewrite Hoff. }
  rewrite Z.mul_0_r, Z.add_0_r in Hz. rewrite Hz. cbn [mbind outcome_bind].
  unfold vwrite, translate. rewrite (sb_paging _ _ _ Hs). cbn [set_frames paging_initialized].
  rewrite Hoff. cbn [of_option mbind outcome_bind].
  set (m1 := pwrite m0 (4096 * k + 4 * 1023) (Z.lor (4096 * k) 3)).
  assert (forall i, 0 <= i < 1024 ->
    pde (with_directory m1 (4096 * k)) (4096 * k) i = if i =? 1023 then Z.lor (4096 * k) 3 else 0) as Hpde.
  { intros i Hi. unfold pde. change (pread (with_directory m1 (4096 * k))) with (pread m1).
    unfold m1. rewrite pread_pwrite_slot by lia. rewrite Z.eqb_refl. cbn [andb].
    destruct (Z.eqb_spec i 1023); [done|]. apply Hzero. lia. }
  assert (forall i, 0 <= i < 1023 -> present (pde (with_directory m1 (4096 * k)) (4096 * k) i) = false)
    as Hnp.
  { intros i Hi. rewrite Hpde by lia. destruct (Z.eqb_spec i 1023); [lia|done]. }
  assert (frames m1 = f) as Hf1 by (unfold m1; simpl; by rewrite (sb_frames _ _ _ Hs)).
  exists (4096 * k), m1. split_and!.
  - done.
  - unfold m1. simpl. by rewrite (sb_paging _ _ _ Hs).
  - constructor; cbn [with_directory frames cr3 paging_initialized kernel_page_directory];
      rewrite ?Hf1; try done.
    + by exists k.
    + unfold m1. cbn [pwrite paging_initialized]. rewrite (sb_paging _ _ _ Hs). cbn. congruence.
    + by rewrite Hpde.
    + change (pread (with_directory m1 (4096 * k))) with (pread m1).
      apply words_pwrite; [done|]. apply (lor_bound _ _ 32); lia.
    + intros i Hi. by rewrite Hnp.
    + intros i j Hi Hj. by rewrite Hnp.
    + intros b [->|(i & Hi & Hp & _)]; [|by rewrite Hnp in Hp].
      rewrite Hman, Hfr. split; [by apply frame_free_managed|tauto].
  - by rewrite Hf1.
  - intros q Hq. destruct (ordinary_index q Hq). unfold entry. by rewrite Hnp.
Qed.

(** *** Queries *)

Lemma kdir_nonzero m d : space_ok m d -> (get_kernel_page_directory m =? 0) = false.
Proof.
  intros Hok. apply Z.eqb_neq. unfold get_kernel_page_directory.
  destruct (paging_initialized m) eqn:Hpg; [done|].
  rewrite (so_kdir _ _ Hok Hpg). destruct (so_dir _ _ Hok) as (k & -> & ?). lia.
Qed.

Lemma same_kdir m m' d :
  space_ok m d -> space_ok m' d -> paging_initialized m' = paging_initialized m ->
  get_kernel_page_directory m' = get_kernel_page_directory m.
Proof.
  intros Hok Hok' Hpg. unfold get_kernel_page_directory. rewrite Hpg.
  destruct (paging_initialized m) eqn:Hon; [done|].
  rewrite (so_kdir _ _ Hok), (so_kdir _ _ Hok'); congruence.
Qed.

Lemma virt2phys_spec m d p o :
  space_ok m d -> ordinary p -> 0 <= o < 4096 ->
  virt2phys m (get_kernel_page_directory m) (4096 * p + o) = Done (mask_low10 (entry m d p)).
Proof.
  intros Hok Hp Ho. destruct (ordinary_index p Hp) as [Hi Hj]. unfold virt2phys.
  rewrite (kdir_nonzero m d Hok), ordinary_page, PD_INDEX_base, PT_INDEX_base by done.
  rewrite (read_dir m d) by (done || lia). cbn [mbind outcome_bind].
  rewrite not_present_iff. destruct (present (pde m d (p / 1024))) eqn:Hpres; cbn [negb].
  - rewrite (get_table_base m d) by done. cbn [mbind outcome_bind].
    rewrite (read_table m d) by done. done.
  - unfold entry. by rewrite Hpres.
Qed.

Lemma virt2phys_precise_spec m d p o :
  space_ok m d -> ordinary p -> 0 <= o < 4096 ->
  virt2phys_precise m (get_kernel_page_directory m) (4096 * p + o)
    = Done (u32 (mask_low10 (entry m d p) + o)).
Proof.
  intros Hok Hp Ho. unfold virt2phys_precise.
  rewrite (kdir_nonzero m d Hok), ordinary_page by done.
  rewrite <- (Z.add_0_r (4096 * p)), (virt2phys_spec m d) by done. cbn [mbind outcome_bind].
  do 3 f_equal. change 0xfff with (Z.ones 12). rewrite Z.land_ones by done.
  rewrite Z.add_0_r, Z.add_comm, Z.mul_comm, Z.mod_add by done. by apply Z.mod_small.
Qed.

Lemma pte_value_low10 physical flags o :
  0 <= physical < 2 ^ 32 -> 0 <= flags < 1024 -> 0 <= o < 4096 ->
  u32 (mask_low10 (pte_value physical flags) + o) = page_base physical + o.
Proof.
  intros Hp Hf Ho. pose proof (pte_value_spec physical flags Hp ltac:(lia)) as (_ & _ & Hr).
  rewrite mask_low10_spec by lia. unfold pte_value, PAGE_PRESENT.
  destruct (page_base_page physical Hp) as (k & -> & Hk).
  assert (0 <= Z.lor flags 1 < 2 ^ 10) as Hf' by (apply lor_bound; lia).
  rewrite <- Z.lor_assoc, lor_page_flags by lia.
  assert ((4096 * k + Z.lor flags 1) / 1024 = 4 * k) as ->.
  { symmetry. apply Z.div_unique with (Z.lor flags 1); lia. }
  rewrite u32_small; lia.
Qed.
End Space.

Definition range_pages (lo hi q : Z) : bool := (lo / 4096 <=? q) && (q <? (hi + 4095) / 4096).

Section InitPaging.
Context {F : Type} `{FrameAllocLaws F}.

Lemma kernel_directory_off (m : machine F) d :
  space_ok m d -> paging_initialized m = false -> get_kernel_page_directory m = d.
Proof. intros Hok Hoff. unfold get_kernel_page_directory. rewrite Hoff. by apply so_kdir. Qed.

(** Identity mapping of a byte range before paging is on. *)
Lemma identity_pages (m : machine F) d lo hi flags :
  space_ok m d -> paging_initialized m = false ->
  0 <= lo <= hi -> hi <= 0xffc00000 -> 0 <= flags < 4096 ->
  (Z.to_nat ((hi + 4095) / 4096 - lo / 4096) <= frames_left (frames m))%nat ->
  exists m', map_pages m d lo lo (hi - lo) flags = Done m' /\ space_ok m' d /\
    frames_used (Z.to_nat ((hi + 4095) / 4096 - lo / 4096)) m m' d /\
    paging_initialized m' = false /\
    forall q, ordinary q -> entry m' d q =
      if range_pages lo hi q then pte_value (4096 * q) flags else entry m d q.
Proof.
  intros Hok Hoff Hlo Hhi Hfl Hleft.
  set (n := Z.to_nat ((hi + 4095) / 4096 - lo / 4096)) in *.
  destruct (page_split_addr lo) as [Hsplit Hmod]. destruct (page_split_addr (hi + 4095)) as [Hsh Hmh].
  assert (0 <= lo / 4096) by (apply Z.div_pos; lia).
  assert (lo / 4096 <= (hi + 4095) / 4096) by (apply Z.div_le_mono; lia).
  assert ((hi + 4095) / 4096 <= 1023 * 1024).
  { assert ((hi + 4095) / 4096 < 1023 * 1024 + 1); [|lia]. apply Z.div_lt_upper_bound; lia. }
  assert (Z.of_nat n = (hi + 4095) / 4096 - lo / 4096) as Hn by lia.
  destruct (map_pages_spec n m d (lo / 4096) (lo mod 4096) (lo / 4096) (lo mod 4096) (hi - lo) flags)
    as (m' & Hmap & Hok' & Hfu & Hpg & Hent); try done; try lia.
  rewrite <- Hsplit, (kernel_directory_off m d) in Hmap by done. exists m'. split_and!; [done|done|done|congruence|].
  intros q Hq. rewrite Hent by done. unfold range_pages.
  replace (lo / 4096 + Z.of_nat n) with ((hi + 4095) / 4096) by lia.
  by replace (lo / 4096 + (q - lo / 4096)) with q by lia.
Qed.

Definition switch_on (m : machine F) d : machine F :=
  Machine (words m) d true d (frames m).

Lemma switch_on_ok m d : space_ok m d -> space_ok (switch_on m d) d.
Proof. intros Hok. destruct Hok. by constructor. Qed.

Definition pages_of (lo hi : Z) : nat := Z.to_nat ((hi + 4095) / 4096 - lo / 4096).

Lemma init_paging_spec (m : machine F) lo g bs mboot :
  memory_ok m -> paging_initialized m = false ->
  0 <= lo <= g + bs -> g + bs <= 0xffc00000 -> 0 <= mboot -> mboot + 4096 <= 0xffc00000 ->
  (S (pages_of lo (g + bs) + pages_of mboot (mboot + 4096)) <= frames_left (frames m))%nat ->
  exists m' d, init_paging m lo g bs mboot = Done (switch_on m' d) /\ space_ok (switch_on m' d) d /\
    forall q, ordinary q -> entry (switch_on m' d) d q =
      if range_pages lo (g + bs) q || range_pages mboot (mboot + 4096) q
      then pte_value (4096 * q) PAGE_WRITEABLE else 0.
Proof.
  intros Hm Hoff Hlo Hhi Hmb Hmb' Hleft. unfold init_paging.
  destruct (new_page_directory_spec m Hm Hoff ltac:(lia)) as (d & m1 & -> & Hoff1 & Hok1 & Hl1 & Hent1).
  cbn [mbind outcome_bind]. rewrite (u32_small (g + bs)), u32_small by lia.
  fold (with_directory m1 d).
  assert (0 <= PAGE_WRITEABLE < 4096) as Hw by done.
  destruct (identity_pages (with_directory m1 d) d lo (g + bs) PAGE_WRITEABLE)
    as (m2 & -> & Hok2 & Hfu2 & Hoff2 & Hent2); try done.
  { unfold pages_of in Hleft. cbn [with_directory frames]. lia. }
  cbn [mbind outcome_bind]. pose proof (fu_left _ _ _ _ Hfu2) as Hl2. cbn [with_directory frames] in Hl2.
  destruct (identity_pages m2 d mboot (mboot + 4096) PAGE_WRITEABLE)
    as (m3 & Hmap3 & Hok3 & Hfu3 & Hoff3 & Hent3); try done; try lia.
  { unfold pages_of in Hleft. lia. }
  replace (mboot + 4096 - mboot) with PAGE_SIZE in Hmap3 by (unfold PAGE_SIZE; lia).
  rewrite Hmap3. cbn [mbind outcome_bind].
  exists m3, d. split_and!; [done|by apply switch_on_ok|].
  intros q Hq. change (entry (switch_on m3 d) d q) with (entry m3 d q).
  rewrite Hent3, Hent2, Hent1 by done.
  by destruct (range_pages lo (g + bs) q), (range_pages mboot (mboot + 4096) q).
Qed.
End InitPaging.

(** ** Properties *)

Section PagingProperties.
Context {F : Type} `{FrameAllocLaws F}.

(** C2: with one frame left for a page table, [map_single_page] on the kernel's
    directory, reached physically before paging is on and through the recursive
    slot afterwards, gives the page the physical frame and the flags asked for,
    leaves the entry of every other page alone and keeps the structure well
    formed; the processor then translates every address of the page into the
    frame and the addresses of other pages as before. *)
Theorem map_single_page_maps (m : machine F) d p o physical flags :
  space_ok m d -> ordinary p -> 0 <= o < 4096 -> 0 <= physical < 2 ^ 32 -> 0 <= flags < 4096 ->
  (0 < frames_left (frames m))%nat ->
  exists m', map_single_page m (get_kernel_page_directory m) physical (4096 * p + o) flags
      = Done m' /\
    space_ok m' d /\ frames_used 1 m m' d /\
    (forall q, ordinary q ->
       entry m' d q = if q =? p then Z.lor (Z.lor (page_base physical) flags) 1 else entry m d q) /\
    (paging_initialized m = true -> forall q off, ordinary q -> 0 <= off < 4096 ->
       walk m' (4096 * q + off) =
         if q =? p then Some (page_base physical + off) else walk m (4096 * q + off)).
Proof.
  intros Hok Hp Ho Hphys Hfl Hleft.
  destruct (map_single_page_spec m d p o physical flags) as (m' & Hm & Hok' & Hst & Hpg & Hent);
    try done.
  pose proof (pte_value_spec physical flags Hphys Hfl) as (Hpr & Hpb & _).
  exists m'. split_and!; [done|done|by apply frames_step_used|done|].
  intros Hon q off Hq Hoff. rewrite (walk_entry m' d), (walk_entry m d), Hent by congruence || done.
  destruct (Z.eqb_spec q p); [by rewrite Hpr, Hpb|done].
Qed.

(** C3: after [map_single_page], [phys_get_page_data] answers the entry and
    [virt2phys_precise] the physical address, for any address of the page (with
    flags in the low ten bits, those [virt2phys] masks out);
    [unmap_single_page] clears it again and returns every entry to what it was
    when the page was not mapped before. *)
Theorem map_query_unmap (m : machine F) d p o physical flags :
  space_ok m d -> ordinary p -> 0 <= o < 4096 -> 0 <= physical < 2 ^ 32 -> 0 <= flags < 1024 ->
  (0 < frames_left (frames m))%nat -> entry m d p = 0 ->
  exists m' m'', let kdir := get_kernel_page_directory m in
    map_single_page m kdir physical (4096 * p + o) flags = Done m' /\
    phys_get_page_data m' kdir (4096 * p + o) = Done (Z.lor (Z.lor (page_base physical) flags) 1) /\
    virt2phys_precise m' kdir (4096 * p + o) = Done (page_base physical + o) /\
    unmap_single_page m' kdir (4096 * p + o) = Done m'' /\ space_ok m'' d /\
    phys_get_page_data m'' kdir (4096 * p + o) = Done 0 /\
    forall q, ordinary q -> entry m'' d q = entry m d q.
Proof.
  intros Hok Hp Ho Hphys Hfl Hleft Hz.
  destruct (map_single_page_spec m d p o physical flags)
    as (m' & Hm & Hok' & Hst & Hpg & Hent); try done; try lia.
  destruct (unmap_single_page_spec m' d p o) as (m'' & Hu & Hok'' & Hfr & _ & Hpg' & Hent''); try done.
  pose proof (same_kdir m m' d Hok Hok' Hpg) as Hk1.
  pose proof (same_kdir m' m'' d Hok' Hok'' Hpg') as Hk2.
  exists m', m''. cbv zeta. split_and!; [done| | | |done| |].
  - rewrite <- Hk1, (phys_get_page_data_spec m' d) by done. by rewrite Hent, Z.eqb_refl.
  - rewrite <- Hk1, (virt2phys_precise_spec m' d) by done.
    rewrite Hent, Z.eqb_refl by done. fold (pte_value physical flags).
    by rewrite pte_value_low10.
  - by rewrite <- Hk1.
  - rewrite <- Hk1, <- Hk2, (phys_get_page_data_spec m'' d) by done.
    by rewrite Hent'', Z.eqb_refl.
  - intros q Hq. rewrite Hent'', Hent by done. destruct (Z.eqb_spec q p) as [->|]; congruence.
Qed.

(** [init_paging] builds, before paging is on, a directory in which the
    kernel, the modules, the frame bitmap and the boot information are mapped
    to themselves, and nothing else below the recursive slot is mapped; once
    paging is on the processor translates exactly these addresses, so the code
    that switched it on keeps running. *)
Theorem init_paging_identity (m : machine F) kernel_start module_end bitmap_size mboot :
  memory_ok m -> paging_initialized m = false ->
  0 <= kernel_start <= module_end + bitmap_size -> module_end + bitmap_size <= 0xffc00000 ->
  0 <= mboot -> mboot + 4096 <= 0xffc00000 ->
  (S (pages_of kernel_start (module_end + bitmap_size) + pages_of mboot (mboot + 4096))
     <= frames_left (frames m))%nat ->
  exists m', init_paging m kernel_start module_end bitmap_size mboot = Done m' /\
    paging_initialized m' = true /\ space_ok m' (cr3 m') /\
    forall q off, ordinary q -> 0 <= off < 4096 ->
      walk m' (4096 * q + off) =
        if range_pages kernel_start (module_end + bitmap_size) q
           || range_pages mboot (mboot + 4096) q
        then Some (4096 * q + off) else None.
Proof.
  intros Hm Hoff Hlo Hhi Hmb Hmb' Hleft.
  destruct (init_paging_spec m kernel_start module_end bitmap_size mboot)
    as (m3 & d & Hinit & Hok & Hent); try done.
  exists (switch_on m3 d). split_and!; [done|done|done|].
  intros q off Hq Hoff'. rewrite (walk_entry _ d), Hent by done.
  assert (0 <= 4096 * q < 2 ^ 32) as Hr by (unfold ordinary in Hq; lia).
  pose proof (pte_value_spec (4096 * q) PAGE_WRITEABLE Hr ltac:(done)) as (Hpr & Hpb & _).
  destruct (range_pages kernel_start (module_end + bitmap_size) q || range_pages mboot (mboot + 4096) q);
    [|done].
  rewrite Hpr, Hpb, page_base_mul by (unfold ordinary in Hq; lia). done.
Qed.
End PagingProperties.

(** ** Instances *)

(** 32 pages of memory, of which the first six are used. *)
Definition boot_frames : pmm := Pmm [0x3f; 0; 0; 0] 0x6000 0x20000.
Definition boot_machine : machine pmm := Machine ∅ 0 false 0 boot_frames.

Lemma boot_frames_inv : pmm_inv boot_frames.
Proof. constructor; [constructor; [by apply bytes_forallb|done]|done|done|simpl; lia]. Qed.

Lemma boot_frames_left : frames_left boot_frames = 26%nat.
Proof. reflexivity. Qed.

Lemma boot_memory_ok : memory_ok boot_machine.
Proof.
  split; [|exact boot_frames_inv]. intros a. unfold pread. simpl. rewrite lookup_empty. simpl. lia.
Qed.

(** A small kernel in pages 1 to 4, with the boot information in page 0. *)
Lemma boot_space :
  exists m d, init_paging boot_machine 0x1000 0x4800 0x200 0x500 = Done m /\ space_ok m d /\
    frames_left (frames m) = 24%nat /\ entry m d 5 = 0 /\ entry m d 8 = 0.
Proof.
  destruct (init_paging_spec boot_machine 0x1000 0x4800 0x200 0x500 boot_memory_ok eq_refl)
    as (m & d & Hinit & Hok & Hent); try (cbn; lia).
  - change (frames boot_machine) with boot_frames. rewrite boot_frames_left. vm_compute. lia.
  - exists (switch_on m d), d. split_and!; [done|done| | |].
    + assert (match init_paging boot_machine 0x1000 0x4800 0x200 0x500 with
              | Done m' => frames_left (frames m') = 24%nat | _ => False end) as Hl by (vm_compute; reflexivity).
      by rewrite Hinit in Hl.
    + by rewrite Hent by (unfold ordinary; lia).
    + by rewrite Hent by (unfold ordinary; lia).
Qed.

Lemma map_single_page_maps_witness :
  exists m d m', space_ok m d /\
    map_single_page m (get_kernel_page_directory m) 0x8000 (4096 * 8 + 0x123) 2 = Done m' /\
    walk m' (4096 * 8 + 4) = Some (0x8000 + 4).
Proof.
  destruct boot_space as (m & d & Hinit & Hok & Hl & H5 & H8).
  destruct (map_single_page_maps m d 8 0x123 0x8000 2 Hok) as (m' & Hm & _ & _ & _ & Hw);
    try lia; try (unfold ordinary; lia).
  exists m, d, m'. split; [exact Hok|]. split; [exact Hm|].
  rewrite Hw; [reflexivity| |unfold ordinary; lia|lia].
  assert (match init_paging boot_machine 0x1000 0x4800 0x200 0x500 with
          | Done m0 => paging_initialized m0 = true | _ => False end) as Hp by (vm_compute; reflexivity).
  rewrite Hinit in Hp. exact Hp.
Defined.

Lemma map_query_unmap_witness :
  exists m d, space_ok m d /\ entry m d 8 = 0 /\
    exists m' m'', let kdir := get_kernel_page_directory m in
      map_single_page m kdir 0x8000 (4096 * 8 + 0x123) 2 = Done m' /\
      virt2phys_precise m' kdir (4096 * 8 + 0x123) = Done (0x8000 + 0x123) /\
      unmap_single_page m' kdir (4096 * 8 + 0x123) = Done m''.
Proof.
  destruct boot_space as (m & d & Hinit & Hok & Hl & H5 & H8).
  destruct (map_query_unmap m d 8 0x123 0x8000 2 Hok) as (m' & m'' & Hm & _ & Hv & Hu & _);
    try lia; try (unfold ordinary; lia).
  exists m, d. split; [exact Hok|]. split; [exact H8|]. exists m', m''.
  split; [exact Hm|]. split; [exact Hv|exact Hu].
Defined.

Lemma init_paging_identity_witness :
  exists m, init_paging boot_machine 0x1000 0x4800 0x200 0x500 = Done m /\
    walk m 0x4ffc = Some 0x4ffc /\ walk m 0x5000 = None.
Proof.
  destruct (init_paging_identity boot_machine 0x1000 0x4800 0x200 0x500 boot_memory_ok eq_refl)
    as (m & Hinit & _ & _ & Hw); try (cbn; lia).
  - change (frames boot_machine) with boot_frames. rewrite boot_frames_left. vm_compute. lia.
  - exists m. split; [exact Hinit|].
    split; [exact (Hw 4 0xffc ltac:(unfold ordinary; lia) ltac:(lia))
           |exact (Hw 5 0 ltac:(unfold ordinary; lia) ltac:(lia))].
Defined.
