(* ===== verification/Heap.v ===== *)
(** * The kernel heap (kernel/src/mem/vmm.c)

    A sorted array of blocks over the virtual pages above the kernel.  The
    bookkeeping ([alloc_no_map], [free_no_map]) is separate from the mapping of
    the pages under a block ([kmalloc_common], [kfree]), as in the code; the page
    tables and the frame allocator are used through the interface [PageOps],
    which the last part implements with Paging.v. *)
From Stdlib Require Import ZArith Lia.
From stdpp Require Import base list gmap numbers.
From S2P Require Import Prelude.
From S2P Require Import Pmm.
From S2P Require Import Frames.
From S2P Require Import Paging.

#[local] Open Scope Z_scope.

(** ** State *)

Record heap_entry := HeapEntry { address : Z; length : Z }.

Definition no_entry : heap_entry := HeapEntry 0 0.

(** [system_heap] and the other variables of vmm.c; [multi_task] is the flag that
    [scheduler_mode] sets. *)
Record heap := Heap {
  allocated_count : Z;
  capacity : Z;
  start : Z;
  used_memory : Z;
  memory : list heap_entry;
  vmm_debug : bool;
  peak_heap_usage : Z;
  total_memory_run : Z;
  multi_task : bool
}.

Definition with_memory (mem : list heap_entry) (h : heap) : heap :=
  Heap (allocated_count h) (capacity h) (start h) (used_memory h) mem (vmm_debug h)
    (peak_heap_usage h) (total_memory_run h) (multi_task h).

Definition scheduler_mode (on : bool) (h : heap) : heap :=
  Heap (allocated_count h) (capacity h) (start h) (used_memory h) (memory h) (vmm_debug h)
    (peak_heap_usage h) (total_memory_run h) on.

Definition vmm_debug_switch (enable : bool) (h : heap) : heap :=
  Heap (allocated_count h) (capacity h) (start h) (used_memory h) (memory h) enable
    (peak_heap_usage h) (total_memory_run h) (multi_task h).

Definition heap_allocated_count (h : heap) : Z := allocated_count h.
Definition heap_used_memory (h : heap) : Z := used_memory h.

(** ** Bookkeeping *)

(** [for (j = allocated_count; j > i; j--) memory[j] = memory[j - 1];] *)
Fixpoint shift_up (n : nat) (mem : list heap_entry) (j : Z) : outcome (list heap_entry) :=
  match n with
  | O => Done mem
  | S n' => e ← array_get mem (j - 1); mem' ← array_set mem j e; shift_up n' mem' (j - 1)
  end.

(** The search for a gap after entry [i]; [n] entries are left.  The result is
    [bestaddress], [bestindex] and the array. *)
Fixpoint alloc_scan (n : nat) (mem : list heap_entry) (count i size align : Z)
    : outcome (Z * Z * list heap_entry) :=
  match n with
  | O => Done (0, 0, mem)
  | S n' =>
      cur ← array_get mem i;
      next ← array_get mem (i + 1);
      let curend := u32 (address cur + length cur) in
      let curend := if align =? 0 then curend else ALIGN curend align in
      if address next =? 0 then Done (curend, i + 1, mem)
      else if u32 (curend + size) <=? address next then
        mem' ← shift_up (Z.to_nat (count - i)) mem count;
        if u32 (curend + size) <? 0xffffffff then Done (curend, i + 1, mem')
        else Done (0, 0, mem')
      else alloc_scan n' mem count (i + 1) size align
  end.

(** The code from the label [ok]. *)
Definition enter_block (bestaddress bestindex size : Z) (mem : list heap_entry) (h : heap)
    : outcome (Z * heap) :=
  mem' ← array_set mem bestindex (HeapEntry bestaddress size);
  let used := u32 (used_memory h + size) in
  Done (bestaddress,
        Heap (u32 (allocated_count h + 1)) (capacity h) (start h) used mem' (vmm_debug h)
          (Z.max (peak_heap_usage h) used) (u32 (total_memory_run h + size)) (multi_task h)).

Definition alloc_no_map (size align : Z) (h : heap) : outcome (Z * heap) :=
  if allocated_count h =? 0 then
    mem ← array_set (memory h) 0 (HeapEntry (start h) size);
    enter_block (start h) 0 size mem h
  else if allocated_count h =? u32 (capacity h - 1) then Hang
  else
    '(bestaddress, bestindex, mem) ←
      alloc_scan (Z.to_nat (allocated_count h)) (memory h) (allocated_count h) 0 size align;
    enter_block bestaddress bestindex size mem h.

(** The loops [for (i = 0; i < allocated_count; i++) if (memory[i].address == a)]. *)
Fixpoint find_block (n : nat) (mem : list heap_entry) (i a : Z) : outcome (option Z) :=
  match n with
  | O => Done None
  | S n' =>
      e ← array_get mem i;
      if address e =? a then Done (Some i) else find_block n' mem (i + 1) a
  end.

(** [for (; i < allocated_count - 1; i++) memory[i] = memory[i + 1];] *)
Fixpoint shift_down (n : nat) (mem : list heap_entry) (i : Z) : outcome (list heap_entry) :=
  match n with
  | O => Done mem
  | S n' => e ← array_get mem (i + 1); mem' ← array_set mem i e; shift_down n' mem' (i + 1)
  end.

Definition free_no_map (ptr : Z) (h : heap) : outcome heap :=
  if ptr =? 0 then Done h
  else
    found ← find_block (Z.to_nat (allocated_count h)) (memory h) 0 ptr;
    match found with
    | None => Done h
    | Some i =>
        e ← array_get (memory h) i;
        mem ← shift_down (Z.to_nat (allocated_count h - 1 - i)) (memory h) i;
        mem' ← array_set mem (allocated_count h - 1) no_entry;
        Done (Heap (u32 (allocated_count h - 1)) (capacity h) (start h)
                (u32 (used_memory h - length e)) mem' (vmm_debug h)
                (peak_heap_usage h) (total_memory_run h) (multi_task h))
    end.

Definition heap_get_block_idx (a : Z) (h : heap) : outcome (option Z) :=
  find_block (Z.to_nat (allocated_count h)) (memory h) 0 a.

(** The block, or an empty one. *)
Definition heap_get_block (a : Z) (h : heap) : outcome heap_entry :=
  found ← heap_get_block_idx a h;
  match found with
  | Some i => array_get (memory h) i
  | None => Done no_entry
  end.

(** A reference into the array is an index of it. *)
Definition heap_get_block_ref (a : Z) (h : heap) : outcome (option Z) := heap_get_block_idx a h.

Fixpoint page_used_by (n : nat) (mem : list heap_entry) (i a : Z) : outcome bool :=
  match n with
  | O => Done false
  | S n' =>
      e ← array_get mem i;
      let first := page_base (address e) in
      let stop := ALIGN (u32 (address e + length e)) PAGE_SIZE in
      if (first <=? a) && (a <? stop) then Done true else page_used_by n' mem (i + 1) a
  end.

Definition vmm_is_page_used_by_entries (a : Z) (h : heap) : outcome bool :=
  page_used_by (Z.to_nat (allocated_count h)) (memory h) 0 a.

(** ** The pages under the heap *)

(** The operations vmm.c calls on the kernel's address space. *)
Class PageOps (M : Type) := {
  page_data : M -> Z -> outcome Z;
  map_page : M -> Z -> Z -> Z -> outcome M;
  unmap_page : M -> Z -> outcome M;
  map_range : M -> Z -> Z -> Z -> Z -> outcome M;
  alloc_page : M -> outcome (Z * M);
  free_page : Z -> M -> outcome M;
  alloc_run : Z -> M -> outcome (Z * M);
  free_run_of : Z -> Z -> M -> outcome M;
  copy_bytes : Z -> Z -> Z -> M -> outcome M;
  fill_bytes : Z -> Z -> Z -> M -> outcome M;
  (* the view the laws are stated in *)
  pages_inv : M -> Prop;
  page_entry : M -> Z -> Z;
  available : M -> Z -> Prop;
  managed : M -> Z -> Prop;
  structural : M -> Z -> Prop;
  spare : M -> nat
}.

(** [n] frames at most went into the page tables. *)
Record tables_grow {M} `{PageOps M} (n : nat) (m m' : M) : Prop := TablesGrow {
  tg_spare : (spare m <= n + spare m')%nat;
  tg_available : forall b, available m' b -> available m b;
  tg_managed : forall b, managed m' b <-> managed m b;
  tg_structural : forall b, structural m' b -> structural m b \/ available m b
}.

Class PageOpsLaws (M : Type) `{PageOps M} := {
  page_data_ok : forall m p o, pages_inv m -> ordinary p -> 0 <= o < 4096 ->
    page_data m (4096 * p + o) = Done (page_entry m p);
  map_page_ok : forall m a p o flags, pages_inv m -> ordinary p -> 0 <= o < 4096 ->
    0 <= a < 2 ^ 32 -> 0 <= flags < 4096 -> (0 < spare m)%nat ->
    exists m', map_page m a (4096 * p + o) flags = Done m' /\ pages_inv m' /\
      tables_grow 1 m m' /\
      forall q, ordinary q -> page_entry m' q = if q =? p then pte_value a flags else page_entry m q;
  unmap_page_ok : forall m p o, pages_inv m -> ordinary p -> 0 <= o < 4096 ->
    exists m', unmap_page m (4096 * p + o) = Done m' /\ pages_inv m' /\ tables_grow 0 m m' /\
      (forall b, available m b -> available m' b) /\
      forall q, ordinary q -> page_entry m' q = if q =? p then 0 else page_entry m q;
  alloc_page_ok : forall m, pages_inv m -> (0 < spare m)%nat ->
    exists a m', alloc_page m = Done (a, m') /\ pages_inv m' /\
      (exists k, a = 4096 * k /\ 0 < k < 2 ^ 20) /\ available m a /\
      (forall b, available m' b <-> available m b /\ b <> a) /\
      (forall b, managed m' b <-> managed m b) /\
      (forall b, structural m' b <-> structural m b) /\
      spare m = S (spare m') /\ (forall q, ordinary q -> page_entry m' q = page_entry m q);
  free_page_ok : forall m a, pages_inv m -> managed m a -> ~ available m a -> ~ structural m a ->
    exists m', free_page a m = Done m' /\ pages_inv m' /\
      (forall b, available m' b <-> available m b \/ b = a) /\
      (forall b, managed m' b <-> managed m b) /\
      (forall b, structural m' b <-> structural m b) /\
      (forall q, ordinary q -> page_entry m' q = page_entry m q);
  available_ok : forall m b, pages_inv m -> available m b -> managed m b /\ ~ structural m b
}.

(** The heap and the address space it maps pages into. *)
Record kernel_memory (M : Type) := KernelMemory { system_heap : heap; space : M }.
Arguments KernelMemory {M} _ _.
Arguments system_heap {M} _.
Arguments space {M} _.

Section Kmalloc.
Context {M : Type} `{PageOps M}.

(** [for (i = 0; i <= limit; i += PAGE_SIZE)]: map a fresh frame at
    [reg_addr + i] unless something is mapped there.  At most
    [limit / PAGE_SIZE + 2] tests are made. *)
Fixpoint map_missing (fuel : nat) (reg_addr limit i : Z) (m : M) : outcome M :=
  match fuel with
  | O => Hang
  | S fuel' =>
      if i <=? limit then
        let curaddr := u32 (reg_addr + i) in
        region ← page_data m curaddr;
        m' ← (if region =? 0 then
                '(page, m1) ← alloc_page m; map_page m1 page curaddr PAGE_WRITEABLE
              else Done m);
        map_missing fuel' reg_addr limit (u32 (i + PAGE_SIZE)) m'
      else Done m
  end.

Definition map_missing_pages (reg_addr size : Z) (m : M) : outcome M :=
  let limit := ALIGN size 4096 in
  map_missing (Z.to_nat (limit / PAGE_SIZE + 2)) reg_addr limit 0 m.

Definition kmalloc_common (size align : Z) (s : kernel_memory M)
    : outcome (Z * kernel_memory M) :=
  '(allocated, h) ← alloc_no_map size align (scheduler_mode false (system_heap s));
  if allocated =? 0 then Done (allocated, KernelMemory (scheduler_mode true h) (space s))
  else
    m ← map_missing_pages (page_base allocated) size (space s);
    Done (allocated, KernelMemory (scheduler_mode true h) m).

Definition kmalloc (size : Z) (s : kernel_memory M) : outcome (Z * kernel_memory M) :=
  kmalloc_common size 1 s.

(** The whole range is cleared, whether or not the allocation succeeded. *)
Definition kcalloc (size amount : Z) (s : kernel_memory M) : outcome (Z * kernel_memory M) :=
  '(x, s') ← kmalloc (u32 (size * amount)) s;
  m ← fill_bytes x 0 (u32 (size * amount)) (space s');
  Done (x, KernelMemory (system_heap s') m).

(** [map_pages] is called with the directory the caller gives; only the
    kernel's is modelled. *)
Definition kmalloc_common_contiguous (page_count : Z) (s : kernel_memory M)
    : outcome (Z * kernel_memory M) :=
  '(phys_pages, m1) ← alloc_run page_count (space s);
  if phys_pages =? 0 then Done (0, KernelMemory (system_heap s) m1)
  else
    let sz := u32 (page_count * PAGE_SIZE) in
    '(allocated, h) ← alloc_no_map sz PAGE_SIZE (system_heap s);
    if allocated =? 0 then
      m2 ← free_run_of phys_pages page_count m1;
      Done (0, KernelMemory h m2)
    else
      m2 ← map_range m1 phys_pages allocated sz (Z.lor PAGE_WRITEABLE PAGE_CACHE_DISABLE);
      Done (allocated, KernelMemory h m2).

(** [for (i = 0; i < length; i += PAGE_SIZE)] over the pages of a block that
    was freed. *)
Fixpoint release_pages (fuel : nat) (a len i : Z) (s : kernel_memory M)
    : outcome (kernel_memory M) :=
  match fuel with
  | O => Hang
  | S fuel' =>
      if i <? len then
        used ← vmm_is_page_used_by_entries (u32 (a + i)) (system_heap s);
        s' ← (if used : bool then Done s
              else
                data ← page_data (space s) (u32 (a + i));
                m1 ← unmap_page (space s) (u32 (a + i));
                m2 ← free_page (page_base data) m1;
                Done (KernelMemory (system_heap s) m2));
        release_pages fuel' a len (u32 (i + PAGE_SIZE)) s'
      else Done s
  end.

Definition kfree (ptr : Z) (s : kernel_memory M) : outcome (kernel_memory M) :=
  let h := scheduler_mode false (system_heap s) in
  if ptr =? 0 then Done (KernelMemory (scheduler_mode true h) (space s))
  else
    block ← heap_get_block ptr h;
    if address block =? 0 then Done (KernelMemory (scheduler_mode true h) (space s))
    else
      h' ← free_no_map ptr h;
      s' ← release_pages (Z.to_nat (length block / PAGE_SIZE + 2)) (address block)
             (length block) 0 (KernelMemory h' (space s));
      Done (KernelMemory (scheduler_mode true (system_heap s')) (space s')).

(** [block] is a pointer into the array, so every access to [*block] reads the
    entry that is at its index by then. *)
Definition set_length (idx len : Z) (h : heap) : outcome heap :=
  b ← array_get (memory h) idx;
  mem ← array_set (memory h) idx (HeapEntry (address b) len);
  Done (with_memory mem h).

Definition add_used (d : Z) (h : heap) : heap :=
  Heap (allocated_count h) (capacity h) (start h) (u32 (used_memory h + d)) (memory h)
    (vmm_debug h) (peak_heap_usage h) (total_memory_run h) (multi_task h).

(** Growing in place: map what is missing, account, set the length. *)
Definition grow_block (idx : Z) (block : heap_entry) (memory_size : Z) (s : kernel_memory M)
    : outcome (kernel_memory M) :=
  m ← map_missing_pages (page_base (address block)) memory_size (space s);
  h ← set_length idx memory_size (add_used (u32 (memory_size - length block)) (system_heap s));
  Done (KernelMemory h m).

Definition krealloc_common (ptr memory_size alignment : Z) (s : kernel_memory M)
    : outcome (Z * kernel_memory M) :=
  if ptr =? 0 then Done (0, s)
  else
    found ← heap_get_block_ref ptr (system_heap s);
    match found with
    | None => Done (0, s)
    | Some idx =>
        block ← array_get (memory (system_heap s)) idx;
        if length block <? memory_size then
          if idx =? allocated_count (system_heap s) - 1 then
            s' ← grow_block idx block memory_size s;
            Done (address block, s')
          else
            next ← array_get (memory (system_heap s)) (idx + 1);
            let willend := u32 (address block + memory_size) in
            if willend <? address next then
              s' ← grow_block idx block memory_size s;
              Done (address block, s')
            else
              '(new_block, s1) ← kmalloc_common memory_size alignment s;
              block' ← array_get (memory (system_heap s1)) idx;
              m ← copy_bytes new_block (address block') (length block') (space s1);
              s2 ← kfree ptr (KernelMemory (system_heap s1) m);
              Done (new_block, s2)
        else if memory_size <? length block then
          h ← set_length idx memory_size
                (add_used (u32 (- (length block - memory_size))) (system_heap s));
          Done (address block, KernelMemory h (space s))
        else Done (address block, s)
    end.

Definition krealloc (ptr memory_size : Z) (s : kernel_memory M)
    : outcome (Z * kernel_memory M) :=
  let auto_alignment := Z.land ptr 12 in
  krealloc_common ptr memory_size (if auto_alignment =? 0 then 1 else auto_alignment) s.

Definition pmm_alloc_and_map_self (bytes : Z) (m : M) : outcome (Z * M) :=
  let count := ALIGN bytes PAGE_SIZE / PAGE_SIZE in
  '(pages, m1) ← alloc_run count m;
  m2 ← map_range m1 pages pages bytes PAGE_WRITEABLE;
  Done (pages, m2).

(** The arena of 1024 entries of 8 bytes is two pages, followed by one page
    that is left out. *)
Definition vmm_init (grub_last_module_end bitmap_size : Z) (s : kernel_memory M)
    : outcome (kernel_memory M) :=
  let cap := PAGE_SIZE * 2 / 8 in
  let real_end := u32 (grub_last_module_end + bitmap_size) in
  let arena_virt := if 0x1000000 <? real_end then ALIGN real_end PAGE_SIZE else 0x1000000 in
  let pages_occupied := cap * 8 / PAGE_SIZE in
  '(arena_phys, m1) ← alloc_run pages_occupied (space s);
  m2 ← map_range m1 arena_phys arena_virt (cap * 8) PAGE_WRITEABLE;
  m3 ← fill_bytes arena_virt 0 (cap * 8) m2;
  let h := system_heap s in
  Done (KernelMemory
          (Heap 0 cap (u32 (arena_virt + PAGE_SIZE * (pages_occupied + 1))) 0
             (replicate (Z.to_nat cap) no_entry) (vmm_debug h) (peak_heap_usage h)
             (total_memory_run h) (multi_task h)) m3).
End Kmalloc.

(** ** The array as a list of blocks *)

Definition block_end (e : heap_entry) : Z := address e + length e.

(** Sorted by address, without overlaps, from [lo] on and below [2^32]. *)
Fixpoint chain (lo : Z) (bl : list heap_entry) : Prop :=
  match bl with
  | [] => True
  | e :: bl' => lo <= address e /\ 0 <= length e /\ block_end e < 2 ^ 32 /\ chain (block_end e) bl'
  end.

Fixpoint heap_top (lo : Z) (bl : list heap_entry) : Z :=
  match bl with
  | [] => lo
  | e :: bl' => heap_top (block_end e) bl'
  end.

Definition total_length (bl : list heap_entry) : Z := fold_right (fun e s => length e + s) 0 bl.

(** The heap [h] holds the blocks [bl]; the entries after them are empty and at
    least one is left. *)
Record heap_rep (h : heap) (bl : list heap_entry) : Prop := HeapRep {
  hr_count : allocated_count h = Z.of_nat (base.length bl);
  hr_memory : exists n, memory h = bl ++ replicate (S n) no_entry;
  hr_capacity : capacity h = Z.of_nat (base.length (memory h));
  hr_small : capacity h < 2 ^ 31;
  hr_start : 0 < start h < 2 ^ 32;
  hr_chain : chain (start h) bl;
  hr_used : used_memory h = u32 (total_length bl)
}.

(** *** What the allocator does to the list *)

(** The first address a block after [e] may have. *)
Definition fit (e : heap_entry) (align : Z) : Z :=
  if align =? 0 then block_end e else ALIGN (block_end e) align.

Fixpoint place (e : heap_entry) (rest : list heap_entry) (size align : Z)
    : Z * list heap_entry :=
  match rest with
  | [] => (fit e align, [e; HeapEntry (fit e align) size])
  | e' :: rest' =>
      if fit e align + size <=? address e' then
        (fit e align, e :: HeapEntry (fit e align) size :: rest)
      else let '(a, bl) := place e' rest' size align in (a, e :: bl)
  end.

Definition insert_block (lo : Z) (bl : list heap_entry) (size align : Z) : Z * list heap_entry :=
  match bl with
  | [] => (lo, [HeapEntry lo size])
  | e :: rest => place e rest size align
  end.

Fixpoint remove_block (a : Z) (bl : list heap_entry) : list heap_entry :=
  match bl with
  | [] => []
  | e :: bl' => if address e =? a then bl' else e :: remove_block a bl'
  end.

Fixpoint get_block (a : Z) (bl : list heap_entry) : option heap_entry :=
  match bl with
  | [] => None
  | e :: bl' => if address e =? a then Some e else get_block a bl'
  end.

(** The request and the alignment fit above the last block. *)
Definition room (lo : Z) (bl : list heap_entry) (size align : Z) : Prop :=
  0 <= size /\ 0 <= align /\ heap_top lo bl + align + size < 2 ^ 32 - 1.

Lemma chain_top lo bl : chain lo bl -> lo <= heap_top lo bl.
Proof.
  revert lo. induction bl as [|e bl IH]; intros lo; simpl; [lia|].
  intros (? & ? & ? & Hc). specialize (IH _ Hc). unfold block_end in *. lia.
Qed.

Lemma fit_bounds e align lo :
  0 < lo <= block_end e -> 0 <= align -> block_end e + align < 2 ^ 32 ->
  block_end e <= fit e align <= block_end e + align.
Proof.
  intros Hb Ha Hs. unfold fit. destruct (Z.eqb_spec align 0); [lia|].
  pose proof (ALIGN_bounds (block_end e) align ltac:(lia) ltac:(lia) ltac:(lia)). lia.
Qed.

(** *** Shifting *)

Lemma shift_up_spec l p z q j :
  j = Z.of_nat (base.length p + base.length l) ->
  shift_up (base.length l) (p ++ l ++ z :: q) j =
    Done (match l with [] => p ++ z :: q | x :: _ => p ++ x :: l ++ q end).
Proof.
  revert z q j. induction l as [|y l IH] using rev_ind; intros z q j Hj; [done|].
  rewrite length_app in *. simpl in Hj. rewrite Nat.add_1_r. cbn [shift_up].
  rewrite <- (app_assoc l [y] (z :: q)). cbn [app]. rewrite (app_assoc p l (y :: z :: q)).
  rewrite (array_get_seam (p ++ l)) by (rewrite length_app; lia). cbn [mbind outcome_bind].
  replace ((p ++ l) ++ y :: z :: q) with (((p ++ l) ++ [y]) ++ z :: q) by by rewrite <- app_assoc.
  rewrite array_set_seam by (rewrite !length_app; simpl; lia). cbn [mbind outcome_bind].
  rewrite <- !app_assoc. cbn [app]. rewrite IH by lia.
  destruct l as [|x l]; [done|]. simpl. by rewrite <- ?app_assoc.
Qed.

Lemma shift_down_spec l p x q i :
  i = Z.of_nat (base.length p) ->
  exists y, shift_down (base.length l) (p ++ x :: l ++ q) i = Done (p ++ l ++ y :: q).
Proof.
  revert p x i. induction l as [|z l IH]; intros p x i Hi; [by exists x|].
  cbn [base.length shift_down app].
  replace (p ++ x :: z :: l ++ q) with ((p ++ [x]) ++ z :: l ++ q) by by rewrite <- app_assoc.
  rewrite array_get_seam by (rewrite length_app; simpl; lia). cbn [mbind outcome_bind].
  rewrite <- app_assoc. cbn [app]. rewrite array_set_seam by done. cbn [mbind outcome_bind].
  replace (p ++ z :: z :: l ++ q) with ((p ++ [z]) ++ z :: l ++ q) by by rewrite <- app_assoc.
  destruct (IH (p ++ [z]) z (i + 1)) as [y ->]; [rewrite length_app; simpl; lia|].
  exists y. by rewrite <- app_assoc.
Qed.

(** *** The scan *)

Lemma alloc_scan_spec rest e p n size align lo i count :
  chain lo (e :: rest) -> 0 < lo -> room lo (e :: rest) size align ->
  i = Z.of_nat (base.length p) -> count = Z.of_nat (base.length p + S (base.length rest)) ->
  exists idx mem', alloc_scan (S (base.length rest)) (p ++ (e :: rest) ++ replicate (S n) no_entry)
        count i size align = Done (fst (place e rest size align), idx, mem') /\
    array_set mem' idx (HeapEntry (fst (place e rest size align)) size)
      = Done (p ++ snd (place e rest size align) ++ replicate n no_entry).
Proof.
  revert e p lo i. induction rest as [|e' rest IH]; intros e p lo i Hchain Hlo Hroom Hi Hcount.
  all: pose proof (chain_top _ _ Hchain) as Htop; destruct Hroom as (Hsz & Hal & Htp).
  all: destruct Hchain as (Ha & Hl & He & Hrest); pose proof (chain_top _ _ Hrest) as Htop'.
  all: assert (block_end e <= fit e align <= block_end e + align) as Hfit
    by (apply (fit_bounds e align lo); simpl in *; unfold block_end in *; lia).
  all: cbn [alloc_scan app]; rewrite (array_get_seam p _ e i) by done; cbn [mbind outcome_bind].
  - replace (p ++ e :: replicate (S n) no_entry) with ((p ++ [e]) ++ no_entry :: replicate n no_entry)
      by by rewrite <- app_assoc.
    rewrite array_get_seam by (rewrite length_app; simpl; lia). cbn [mbind outcome_bind].
    fold (block_end e). rewrite (u32_small (block_end e)) by (unfold block_end in *; lia).
    fold (fit e align). cbn [address no_entry Z.eqb place fst snd].
    eexists _, _. split; [done|]. rewrite array_set_seam by (rewrite length_app; simpl; lia).
    by rewrite <- app_assoc.
  - replace (p ++ e :: e' :: rest ++ replicate (S n) no_entry)
      with ((p ++ [e]) ++ e' :: rest ++ replicate (S n) no_entry) by by rewrite <- app_assoc.
    rewrite array_get_seam by (rewrite length_app; simpl; lia). cbn [mbind outcome_bind].
    fold (block_end e). rewrite (u32_small (block_end e)) by (unfold block_end in *; lia).
    fold (fit e align). pose proof Hrest as (Ha' & Hl' & He' & Hrest').
    pose proof (chain_top _ _ Hrest') as Htop''. simpl in Htp, Htop, Htop'.
    rewrite u32_small by (unfold block_end in *; lia).
    destruct (Z.eqb_spec (address e') 0); [unfold block_end in *; lia|].
    cbn [place]. destruct (Z.leb_spec (fit e align + size) (address e')).
    + replace (Z.to_nat (count - i)) with (base.length (e :: e' :: rest)) by (cbn [base.length] in *; lia).
      rewrite <- app_assoc. cbn [app].
      replace (p ++ e :: e' :: rest ++ replicate (S n) no_entry)
        with (p ++ (e :: e' :: rest) ++ no_entry :: replicate n no_entry) by done.
      rewrite shift_up_spec by (simpl in *; lia). cbn [mbind outcome_bind].
      destruct (Z.ltb_spec (fit e align + size) 0xffffffff);
        [|unfold block_end in *; lia].
      cbn [fst snd]. eexists _, _. split; [done|]. cbn [app].
      replace (p ++ e :: e :: e' :: rest ++ replicate n no_entry)
        with ((p ++ [e]) ++ e :: e' :: rest ++ replicate n no_entry) by by rewrite <- app_assoc.
      rewrite array_set_seam by (rewrite length_app; simpl; lia). by rewrite <- app_assoc.
    + destruct (IH e' (p ++ [e]) (block_end e) (i + 1)) as (idx & mem' & Hscan & Hset);
        [done|unfold block_end in *; lia|by repeat split|rewrite length_app; simpl; lia
        |rewrite length_app; simpl in *; lia|].
      destruct (place e' rest size align) as [a bl]. cbn [fst snd] in *.
      exists idx, mem'. cbn [app] in Hscan. split; [exact Hscan|].
      rewrite Hset. by rewrite <- app_assoc.
Qed.

(** *** The list operations *)

Lemma chain_weaken lo lo' bl : lo' <= lo -> chain lo bl -> chain lo' bl.
Proof. destruct bl as [|e bl]; [done|]. intros Hle (? & ? & ? & ?). repeat split; try done. lia. Qed.

Lemma total_length_app a b : total_length (a ++ b) = total_length a + total_length b.
Proof. unfold total_length. induction a as [|e a IH]; simpl; [done|]. rewrite IH. lia. Qed.

(** [place] puts the new block after [e], in order, at its aligned place. *)
Lemma place_spec rest e lo size align :
  chain lo (e :: rest) -> 0 < lo -> room lo (e :: rest) size align ->
  exists p q, e :: rest = p ++ q /\ p <> [] /\
    snd (place e rest size align) = p ++ HeapEntry (fst (place e rest size align)) size :: q /\
    (exists e', list.last p = Some e' /\ fst (place e rest size align) = fit e' align) /\
    block_end e <= fst (place e rest size align) /\
    fst (place e rest size align) + size <= heap_top lo (e :: rest) + align + size /\
    chain lo (snd (place e rest size align)).
Proof.
  revert e lo. induction rest as [|e' rest IH]; intros e lo Hchain Hlo Hroom.
  all: pose proof (chain_top _ _ Hchain) as Htop; pose proof Hroom as (Hsz & Hal & Htp).
  all: destruct Hchain as (Ha & Hl & He & Hrest); pose proof (chain_top _ _ Hrest) as Htop'.
  all: assert (block_end e <= fit e align <= block_end e + align) as Hfit
    by (apply (fit_bounds e align lo); simpl in *; unfold block_end in *; lia).
  - exists [e], []. cbn [place fst snd heap_top] in *. split_and!; try done; try lia.
    + by exists e.
    + unfold block_end in *. simpl. unfold block_end. simpl. lia.
  - cbn [place]. pose proof Hrest as (Ha' & Hl' & He' & Hrest').
    pose proof (chain_top _ _ Hrest') as Htop''. simpl in Htp, Htop, Htop'.
    destruct (Z.leb_spec (fit e align + size) (address e')).
    + exists [e], (e' :: rest). cbn [fst snd]. split_and!; try done; try lia.
      * by exists e.
      * simpl. lia.
      * simpl. unfold block_end in *. simpl. repeat split; try done; lia.
    + destruct (IH e' (block_end e)) as (p & q & Hpq & Hne & Hbl & (el & Hlast & Hfe) & Hge & Hle & Hch);
        [done|unfold block_end in *; lia|by repeat split|].
      destruct (place e' rest size align) as [a bl]. cbn [fst snd] in *.
      exists (e :: p), q. split_and!; try done.
      * simpl. congruence.
      * simpl. by rewrite Hbl.
      * exists el. split; [|done]. destruct p; [done|]. done.
      * unfold block_end in *. lia.
Qed.

Lemma insert_block_spec lo bl size align :
  chain lo bl -> 0 < lo -> room lo bl size align ->
  exists p q, bl = p ++ q /\
    snd (insert_block lo bl size align) = p ++ HeapEntry (fst (insert_block lo bl size align)) size :: q /\
    (forall e, list.last p = Some e -> fst (insert_block lo bl size align) = fit e align) /\
    (p = [] -> bl = [] /\ fst (insert_block lo bl size align) = lo) /\
    lo <= fst (insert_block lo bl size align) /\
    fst (insert_block lo bl size align) + size <= heap_top lo bl + align + size /\
    chain lo (snd (insert_block lo bl size align)).
Proof.
  intros Hchain Hlo Hroom. destruct bl as [|e rest].
  - destruct Hroom as (? & ? & ?). simpl in *. exists [], []. split_and!; try done; try lia.
    unfold block_end. simpl. lia.
  - pose proof Hroom as (? & ? & Htp). pose proof Hchain as (? & ? & ? & _).
    destruct (place_spec rest e lo size align) as (p & q & Hpq & Hne & Hbl & (el & Hlast & Hfe) & Hge & Hle & Hch);
      try done. cbn [insert_block].
    exists p, q. split_and!; try done; try (unfold block_end in *; lia).
    intros e' He'. congruence.
Qed.

Lemma chain_remove lo a bl : chain lo bl -> chain lo (remove_block a bl).
Proof.
  revert lo. induction bl as [|e bl IH]; intros lo; simpl; [done|].
  intros (Ha & Hl & He & Hc). destruct (address e =? a).
  - apply (chain_weaken (block_end e)); [unfold block_end; lia|done].
  - repeat split; try done. by apply IH.
Qed.

Lemma get_block_split a bl e :
  get_block a bl = Some e -> exists p q, bl = p ++ e :: q /\ remove_block a bl = p ++ q /\ address e = a /\
    Forall (fun e' => address e' <> a) p.
Proof.
  induction bl as [|x bl IH]; simpl; [done|]. destruct (Z.eqb_spec (address x) a) as [Heq|Hne].
  - intros [= <-]. exists [], bl. by repeat split.
  - intros Hg. destruct (IH Hg) as (p & q & -> & -> & Ha & Hp). exists (x :: p), q.
    repeat split; [done|]. by apply Forall_cons_2.
Qed.

Lemma get_block_None a bl : get_block a bl = None -> remove_block a bl = bl.
Proof.
  induction bl as [|x bl IH]; simpl; [done|]. destruct (address x =? a); [done|].
  intros Hg. by rewrite IH.
Qed.

(** *** Refinement of the bookkeeping *)

Fixpoint block_index (a : Z) (bl : list heap_entry) : nat :=
  match bl with
  | [] => 0
  | e :: bl' => if address e =? a then 0 else S (block_index a bl')
  end.

Lemma find_block_spec bl p q i a :
  i = Z.of_nat (base.length p) ->
  find_block (base.length bl) (p ++ bl ++ q) i a =
    Done (match get_block a bl with
          | Some _ => Some (i + Z.of_nat (block_index a bl))
          | None => None
          end).
Proof.
  revert p i. induction bl as [|e bl IH]; intros p i Hi; [done|].
  cbn [base.length find_block app get_block block_index]. rewrite array_get_seam by done.
  cbn [mbind outcome_bind]. destruct (address e =? a).
  { f_equal. f_equal. lia. }
  replace (p ++ e :: bl ++ q) with ((p ++ [e]) ++ bl ++ q) by by rewrite <- app_assoc.
  rewrite IH by (rewrite length_app; simpl; lia).
  destruct (get_block a bl); [|done]. do 2 f_equal. lia.
Qed.

Lemma block_index_split a p e q :
  address e = a -> Forall (fun e' => address e' <> a) p ->
  block_index a (p ++ e :: q) = base.length p.
Proof.
  intros Ha. induction 1 as [|x p Hx Hp IH]; simpl.
  - by rewrite Ha, Z.eqb_refl.
  - apply Z.eqb_neq in Hx. rewrite Hx. by rewrite IH.
Qed.

Lemma used_add_mod x y : u32 (u32 x + y) = u32 (x + y).
Proof. apply Zplus_mod_idemp_l. Qed.
Lemma used_sub_mod x y : u32 (u32 x - y) = u32 (x - y).
Proof. apply Zminus_mod_idemp_l. Qed.

(** The fields the bookkeeping keeps. *)
Record same_frame (h h' : heap) : Prop := SameFrame {
  sf_start : start h' = start h;
  sf_capacity : capacity h' = capacity h;
  sf_task : multi_task h' = multi_task h
}.

Lemma enter_block_rep h bl p q a size idx mem n :
  heap_rep h bl -> bl = p ++ q ->
  array_set mem idx (HeapEntry a size) = Done (p ++ (HeapEntry a size :: q) ++ replicate (S n) no_entry) ->
  capacity h = Z.of_nat (base.length bl + S (S n)) ->
  chain (start h) (p ++ HeapEntry a size :: q) ->
  exists h', enter_block a idx size mem h = Done (a, h') /\
    heap_rep h' (p ++ HeapEntry a size :: q) /\ same_frame h h'.
Proof.
  intros [Hc Hm Hcap Hsm Hst Hch Hu] -> Hset Hcapn Hchain.
  unfold enter_block. rewrite Hset. cbn [mbind outcome_bind].
  eexists. split; [done|]. split; [|done].
  constructor; cbn [allocated_count capacity start used_memory memory]; try done.
  - rewrite Hc, u32_small; rewrite !length_app in *; simpl in *; lia.
  - exists n. by rewrite <- app_assoc.
  - rewrite Hcapn, !length_app, length_replicate. cbn [Datatypes.length]. lia.
  - rewrite Hu, used_add_mod. f_equal. rewrite !total_length_app. simpl. lia.
Qed.

Lemma rep_memory_room h bl :
  heap_rep h bl -> Z.of_nat (base.length bl) + 1 < capacity h ->
  exists n, memory h = bl ++ replicate (S (S n)) no_entry /\
    capacity h = Z.of_nat (base.length bl + S (S n)).
Proof.
  intros Hrep Hroom. destruct (hr_memory _ _ Hrep) as (n & Hm).
  pose proof (hr_capacity _ _ Hrep) as Hcap. rewrite Hm, length_app, length_replicate in Hcap.
  destruct n as [|n]; [lia|]. by exists n.
Qed.

Lemma alloc_no_map_spec h bl size align :
  heap_rep h bl -> Z.of_nat (base.length bl) + 1 < capacity h ->
  room (start h) bl size align ->
  exists h', alloc_no_map size align h = Done (fst (insert_block (start h) bl size align), h') /\
    heap_rep h' (snd (insert_block (start h) bl size align)) /\ same_frame h h'.
Proof.
  intros Hrep Hcap Hroom.
  destruct (rep_memory_room h bl Hrep Hcap) as (n & Hm & Hcapn).
  pose proof (hr_chain _ _ Hrep) as Hch. pose proof (hr_start _ _ Hrep) as Hst.
  pose proof (hr_small _ _ Hrep) as Hsm.
  unfold alloc_no_map. rewrite (hr_count _ _ Hrep), Hm.
  destruct bl as [|e rest].
  - cbn [base.length Z.of_nat Z.eqb app insert_block fst snd].
    rewrite array_set_in_range by (simpl; lia). cbn [mbind outcome_bind].
    apply (enter_block_rep h [] [] [] (start h) size 0 _ n); try done.
    destruct Hroom as (? & ? & ?). simpl in *. unfold block_end. simpl. lia.
  - destruct (Z.eqb_spec (Z.of_nat (base.length (e :: rest))) 0); [done|].
    rewrite u32_small by (simpl in *; lia).
    destruct (Z.eqb_spec (Z.of_nat (base.length (e :: rest))) (capacity h - 1)); [lia|].
    rewrite Nat2Z.id. cbn [base.length insert_block].
    destruct (alloc_scan_spec rest e [] (S n) size align (start h) 0
      (Z.of_nat (S (base.length rest)))) as (idx & mem' & Hscan & Hset); try done; [lia|].
    cbn [app] in Hscan |- *. rewrite Hscan. cbn [mbind outcome_bind].
    destruct (place_spec rest e (start h) size align)
      as (p & q & Hpq & Hne & Hbl & _ & _ & _ & Hchain); try done; [lia|].
    rewrite Hbl in *. cbn [app] in Hset. rewrite <- app_assoc in Hset.
    by apply (enter_block_rep h (e :: rest) p q _ _ idx mem' n).
Qed.

Lemma free_no_map_spec h bl ptr :
  heap_rep h bl -> ptr <> 0 ->
  exists h', free_no_map ptr h = Done h' /\ heap_rep h' (remove_block ptr bl) /\ same_frame h h'.
Proof.
  intros Hrep Hptr. pose proof Hrep as [Hc (n & Hm) Hcap Hsm Hst Hch Hu].
  unfold free_no_map. apply Z.eqb_neq in Hptr. rewrite Hptr, Hc, Nat2Z.id, Hm.
  pose proof (find_block_spec bl [] (replicate (S n) no_entry) 0 ptr eq_refl) as Hf.
  cbn [app] in Hf. rewrite Hf. cbn [mbind outcome_bind]. clear Hf.
  destruct (get_block ptr bl) as [e|] eqn:Hg.
  2: { rewrite get_block_None by done. by exists h. }
  destruct (get_block_split _ _ _ Hg) as (p & q & -> & Hrm & Ha & Hp).
  rewrite Hrm, block_index_split, Z.add_0_l by done.
  rewrite <- app_assoc. cbn [app]. rewrite array_get_seam by done. cbn [mbind outcome_bind].
  replace (Z.to_nat _) with (base.length q) by (rewrite length_app; simpl; lia).
  destruct (shift_down_spec q p e (replicate (S n) no_entry) (Z.of_nat (base.length p)))
    as (y & ->); [done|]. cbn [mbind outcome_bind].
  rewrite (app_assoc p q (y :: _)), array_set_seam by (rewrite !length_app; simpl; lia).
  cbn [mbind outcome_bind]. eexists. split; [done|]. split; [|done].
  rewrite Hm, !length_app, length_replicate in Hcap. cbn [Datatypes.length] in Hcap.
  constructor; cbn [allocated_count capacity start used_memory memory]; try done.
  - rewrite u32_small by (rewrite length_app; simpl; lia). rewrite !length_app. simpl. lia.
  - by exists (S n).
  - rewrite Hcap, !length_app. cbn [Datatypes.length]. rewrite length_replicate. lia.
  - rewrite <- Hrm. by apply chain_remove.
  - rewrite Hu, used_sub_mod. f_equal. rewrite !total_length_app. simpl. lia.
Qed.

(** ** The pages under the blocks *)

Lemma div_page_le a b : a <= b -> a / 4096 <= b / 4096.
Proof. intros. apply Z.div_le_mono; lia. Qed.

(** Page [q] holds part of the block (or its start). *)
Definition covers (e : heap_entry) (q : Z) : bool :=
  (address e / 4096 <=? q) && (q <? (block_end e + 4095) / 4096).

Definition covered (bl : list heap_entry) (q : Z) : bool := existsb (fun e => covers e q) bl.

Lemma chain_end lo bl e : chain lo bl -> e ∈ bl -> lo <= address e /\ 0 <= length e /\ block_end e <= heap_top lo bl.
Proof.
  revert lo. induction bl as [|x bl IH]; intros lo Hch Hin; [by apply not_elem_of_nil in Hin|].
  pose proof (chain_top _ _ Hch) as Htop. destruct Hch as (Ha & Hl & He & Hch).
  pose proof (chain_top _ _ Hch) as Htop'. simpl in *.
  apply elem_of_cons in Hin as [->|Hin]; [done|].
  destruct (IH _ Hch Hin) as (? & ? & ?). unfold block_end in *. lia.
Qed.

Lemma addr_page a : exists p o, a = 4096 * p + o /\ 0 <= o < 4096 /\ p = a / 4096.
Proof.
  exists (a / 4096), (a mod 4096). pose proof (page_split_addr a) as [? ?]. auto.
Qed.

Lemma div_page p o : 0 <= o < 4096 -> (4096 * p + o) / 4096 = p.
Proof. intros Ho. symmetry. by apply Z.div_unique with o; [left|]. Qed.

Lemma page_used_by_spec bl p q i x o :
  (forall e, e ∈ bl -> 0 <= address e /\ 0 <= length e /\ block_end e <= 2 ^ 32 - 4096) ->
  0 <= x < 2 ^ 20 -> 0 <= o < 4096 ->
  i = Z.of_nat (base.length p) ->
  page_used_by (base.length bl) (p ++ bl ++ q) i (4096 * x + o) = Done (covered bl x).
Proof.
  revert p i. induction bl as [|e bl IH]; intros p i Hbl Hx Ho Hi; [done|].
  cbn [Datatypes.length page_used_by app]. rewrite array_get_seam by done. cbn [mbind outcome_bind].
  destruct (Hbl e) as (Ha & Hl & He); [left|]. fold (block_end e).
  rewrite land_page_mask_div, (u32_small (block_end e)), ALIGN_page by (unfold block_end in *; lia).
  assert ((4096 * (address e / 4096) <=? 4096 * x + o) && (4096 * x + o <? 4096 * ((block_end e + 4095) / 4096))
    = covers e x) as ->.
  { unfold covers. destruct (Z.leb_spec (4096 * (address e / 4096)) (4096 * x + o)),
      (Z.leb_spec (address e / 4096) x), (Z.ltb_spec (4096 * x + o) (4096 * ((block_end e + 4095) / 4096))),
      (Z.ltb_spec x ((block_end e + 4095) / 4096)); simpl; done || lia. }
  unfold covered. cbn [existsb]. destruct (covers e x); [done|]. cbn [orb].
  replace (p ++ e :: bl ++ q) with ((p ++ [e]) ++ bl ++ q) by by rewrite <- app_assoc.
  apply IH; try done; [|rewrite length_app; simpl; lia].
  intros e' He'. apply Hbl. by right.
Qed.

Section Pages.
Context {M : Type} `{PageOpsLaws M}.
Implicit Types m : M.

Definition frame_at m (p : Z) : Z := page_base (page_entry m p).
Definition mapped m (p : Z) : Prop := page_entry m p <> 0.

(** Every page from [lo] on is backed by a frame of its own, which is neither
    free nor part of the page tables. *)
Record frames_ok (lo : Z) m : Prop := FramesOk {
  fo_inv : pages_inv m;
  fo_backed : forall p, ordinary p -> lo <= p -> mapped m p ->
    managed m (frame_at m p) /\ ~ available m (frame_at m p) /\ ~ structural m (frame_at m p);
  fo_distinct : forall p q, ordinary p -> ordinary q -> lo <= p -> lo <= q ->
    mapped m p -> mapped m q -> frame_at m p = frame_at m q -> p = q
}.

(** A fresh frame for a page that has none. *)
Lemma map_fresh lo m p o :
  frames_ok lo m -> ordinary p -> lo <= p -> 0 <= o < 4096 -> page_entry m p = 0 ->
  (1 < spare m)%nat ->
  exists a m1 m2, alloc_page m = Done (a, m1) /\ map_page m1 a (4096 * p + o) PAGE_WRITEABLE = Done m2 /\
    frames_ok lo m2 /\ (spare m <= 2 + spare m2)%nat /\ mapped m2 p /\
    forall q, ordinary q -> q <> p -> page_entry m2 q = page_entry m q.
Proof.
  intros [Hinv Hback Hdist] Hp Hlo Ho Hz Hsp.
  destruct (alloc_page_ok m Hinv) as (a & m1 & Halloc & Hinv1 & (k & Hk & Hkr) & Hav & Hav1 & Hman1 & Hst1 & Hl1 & Hent1); [lia|].
  destruct (map_page_ok m1 a p o PAGE_WRITEABLE) as (m2 & Hmap & Hinv2 & [Hl2 Hav2 Hman2 Hst2] & Hent2);
    try done; try lia.
  pose proof (pte_value_spec a PAGE_WRITEABLE ltac:(lia) ltac:(done)) as (_ & Hpb & Hpos).
  destruct (available_ok m a Hinv Hav) as [Hma Hnst].
  assert (page_base a = a) as Hpa by (subst a; apply page_base_mul; lia).
  assert (forall q, ordinary q -> q <> p -> page_entry m2 q = page_entry m q) as Hother.
  { intros q Hq Hne. rewrite Hent2, Hent1 by done. by destruct (Z.eqb_spec q p). }
  assert (page_entry m2 p = pte_value a PAGE_WRITEABLE) as Hself.
  { by rewrite Hent2, Z.eqb_refl. }
  exists a, m1, m2. split_and!; [done|done| |lia|unfold mapped; lia|done].
  constructor; [done| |].
  - intros q Hq Hqlo Hqm. unfold frame_at, mapped in *. destruct (decide (q = p)) as [->|Hne].
    + rewrite Hself, Hpb, Hpa, Hman2, Hman1. split_and!; [done| |].
      * intros Hc. apply Hav2, Hav1 in Hc as []. done.
      * intros Hc. destruct (Hst2 _ Hc) as [Hs|Hs]; [by apply Hnst, Hst1|apply Hav1 in Hs as []; done].
    + rewrite Hother in * by done. destruct (Hback q Hq Hqlo Hqm) as (? & Hna & Hns).
      rewrite Hman2, Hman1. split_and!; [done| |].
      * intros Hc. apply Hna. by apply Hav2, Hav1 in Hc as [].
      * intros Hc. destruct (Hst2 _ Hc) as [Hs|Hs]; [by apply Hns, Hst1|].
        apply Hna. by apply Hav1 in Hs as [].
  - assert (forall q, ordinary q -> lo <= q -> q <> p -> mapped m2 q -> frame_at m2 q <> a) as Hna.
    { intros q Hq Hql Hne Hqm Heq. unfold mapped, frame_at in *. rewrite Hother in * by done.
      destruct (Hback q Hq Hql Hqm) as (_ & Hn & _). apply Hn. unfold frame_at. by rewrite Heq. }
    assert (frame_at m2 p = a) as Hfp by (unfold frame_at; by rewrite Hself, Hpb, Hpa).
    intros q1 q2 Hq1 Hq2 Hl1' Hl2' Hm1 Hm2 Heq.
    destruct (decide (q1 = p)) as [->|N1], (decide (q2 = p)) as [->|N2]; [done| | |].
    + destruct (Hna q2 Hq2 Hl2' N2 Hm2). congruence.
    + destruct (Hna q1 Hq1 Hl1' N1 Hm1). congruence.
    + unfold mapped, frame_at in *. rewrite !Hother in * by done. by apply Hdist.
Qed.

(** [m'] has the pages [p, p + n) mapped and keeps every page that was mapped
    and every page outside. *)
Record filled (lo p : Z) (n : nat) m m' : Prop := Filled {
  fl_ok : frames_ok lo m';
  fl_spare : (spare m <= 2 * n + spare m')%nat;
  fl_mapped : forall q, p <= q < p + Z.of_nat n -> mapped m' q;
  fl_kept : forall q, ordinary q -> mapped m q -> page_entry m' q = page_entry m q;
  fl_outside : forall q, ordinary q -> ~ p <= q < p + Z.of_nat n -> page_entry m' q = page_entry m q
}.

Lemma map_missing_spec n lo p c j fuel m :
  frames_ok lo m -> lo <= p -> 0 <= p -> 0 <= j -> p + c < 1023 * 1024 ->
  j + Z.of_nat n = c + 1 -> (n < fuel)%nat -> (2 * n <= spare m)%nat ->
  exists m', map_missing fuel (4096 * p) (4096 * c) (4096 * j) m = Done m' /\
    filled lo (p + j) n m m'.
Proof.
  revert j fuel m. induction n as [|n IH]; intros j fuel m Hok Hlo Hp Hj Hc Hn Hfuel Hsp;
    (destruct fuel as [|fuel]; [lia|]); cbn [map_missing].
  - destruct (Z.leb_spec (4096 * j) (4096 * c)); [lia|]. exists m. split; [done|].
    constructor; try done. intros q Hq. lia.
  - destruct (Z.leb_spec (4096 * j) (4096 * c)); [|lia].
    rewrite (u32_small (4096 * p + 4096 * j)) by lia.
    assert (ordinary (p + j)) as Hord by (unfold ordinary; lia).
    replace (4096 * p + 4096 * j) with (4096 * (p + j) + 0) by lia.
    rewrite page_data_ok by (done || apply Hok). cbn [mbind outcome_bind].
    assert (exists m1, (if page_entry m (p + j) =? 0
        then '(page, m1) ← alloc_page m; map_page m1 page (4096 * (p + j) + 0) PAGE_WRITEABLE
        else Done m) = Done m1 /\
      frames_ok lo m1 /\ (spare m <= 2 + spare m1)%nat /\ mapped m1 (p + j) /\
      (forall q, ordinary q -> q <> p + j -> page_entry m1 q = page_entry m q) /\
      (mapped m (p + j) -> m1 = m)) as (m1 & -> & Hok1 & Hsp1 & Hm1 & Ho1 & Hs1).
    { destruct (Z.eqb_spec (page_entry m (p + j)) 0) as [Hz|Hz].
      - destruct (map_fresh lo m (p + j) 0 Hok Hord) as (a & m0 & m1 & -> & Hmap & ?); try done; try lia.
        cbn [mbind outcome_bind]. exists m1. split; [exact Hmap|].
        destruct_and?. split_and!; try done.
      - exists m. split_and!; try done. lia. }
    cbn [mbind outcome_bind]. unfold PAGE_SIZE. rewrite u32_small by lia.
    replace (4096 * j + 4096) with (4096 * (j + 1)) by lia.
    destruct (IH (j + 1) fuel m1) as (m' & Hrun & [F1 F2 F3 F4 F5]); try done; try lia.
    exists m'. split; [exact Hrun|].
    assert (forall q, ordinary q -> mapped m q -> page_entry m1 q = page_entry m q) as Hkeep1.
    { intros q Hq Hqm. destruct (decide (q = p + j)) as [->|]; [by rewrite Hs1|by apply Ho1]. }
    constructor; [done|lia| | |].
    + intros q Hq. destruct (decide (q = p + j)) as [->|]; [|apply F3; lia].
      unfold mapped. by rewrite F4.
    + intros q Hq Hqm. rewrite F4; [by apply Hkeep1|done|]. unfold mapped. by rewrite Hkeep1.
    + intros q Hq Hout. rewrite F5 by (done || lia). apply Ho1; [done|lia].
Qed.

Lemma map_missing_pages_spec lo p size m :
  frames_ok lo m -> lo <= p -> 0 <= p -> 0 <= size -> p + (size + 4095) / 4096 < 1023 * 1024 ->
  (2 * S (Z.to_nat ((size + 4095) / 4096)) <= spare m)%nat ->
  exists m', map_missing_pages (4096 * p) size m = Done m' /\
    filled lo p (S (Z.to_nat ((size + 4095) / 4096))) m m'.
Proof.
  intros Hok Hlo Hp Hsz Hend Hsp. unfold map_missing_pages. change (ALIGN size 4096) with (ALIGN size PAGE_SIZE).
  assert (size + 4095 < 2 ^ 32 - 4096).
  { pose proof (Z.div_mod (size + 4095) 4096). pose proof (Z.mod_pos_bound (size + 4095) 4096). lia. }
  rewrite ALIGN_page by lia. set (c := (size + 4095) / 4096) in *.
  assert (0 <= c) by (apply Z.div_pos; lia).
  destruct (map_missing_spec (S (Z.to_nat c)) lo p c 0 (Z.to_nat (c + 2)) m)
    as (m' & Hrun & Hfill); try done; try lia.
  rewrite Z.add_0_r in Hfill. exists m'. split; [|done].
  replace (4096 * c / PAGE_SIZE) with c; [exact Hrun|].
  unfold PAGE_SIZE. by rewrite Z.mul_comm, Z.div_mul by done.
Qed.

Lemma is_page_used_spec h bl x o :
  heap_rep h bl ->
  (forall e, e ∈ bl -> 0 <= address e /\ 0 <= length e /\ block_end e <= 2 ^ 32 - 4096) ->
  0 <= x < 2 ^ 20 -> 0 <= o < 4096 ->
  vmm_is_page_used_by_entries (4096 * x + o) h = Done (covered bl x).
Proof.
  intros Hrep Hbl Hx Ho. destruct (hr_memory _ _ Hrep) as (n & Hm).
  unfold vmm_is_page_used_by_entries. rewrite (hr_count _ _ Hrep), Hm, Nat2Z.id.
  exact (page_used_by_spec bl [] (replicate (S n) no_entry) 0 x o Hbl Hx Ho eq_refl).
Qed.

(** Giving back the frame of one page. *)
Lemma unmap_release lo m p o :
  frames_ok lo m -> ordinary p -> lo <= p -> 0 <= o < 4096 -> mapped m p ->
  exists m1 m2, unmap_page m (4096 * p + o) = Done m1 /\
    free_page (page_base (page_entry m p)) m1 = Done m2 /\ frames_ok lo m2 /\
    available m2 (frame_at m p) /\
    forall q, ordinary q -> page_entry m2 q = if q =? p then 0 else page_entry m q.
Proof.
  intros [Hinv Hback Hdist] Hp Hlo Ho Hmp.
  destruct (Hback p Hp Hlo Hmp) as (Hman & Hnav & Hnst).
  destruct (unmap_page_ok m p o) as (m1 & Hu & Hinv1 & [_ Hav1 Hman1 Hst1] & Hav1' & Hent1); try done.
  destruct (free_page_ok m1 (frame_at m p)) as (m2 & Hf & Hinv2 & Hav2 & Hman2 & Hst2 & Hent2); try done.
  { by apply Hman1. } { by intros Hc%Hav1. }
  { intros Hc. by destruct (Hst1 _ Hc). }
  assert (forall q, ordinary q -> page_entry m2 q = if q =? p then 0 else page_entry m q) as Hent.
  { intros q Hq. by rewrite Hent2, Hent1. }
  exists m1, m2. split_and!; [done|done| |apply Hav2; by right|done].
  assert (forall q, ordinary q -> mapped m2 q -> q <> p /\ mapped m q /\ frame_at m2 q = frame_at m q) as Hmq.
  { intros q Hq. unfold mapped, frame_at. rewrite Hent by done. by destruct (Z.eqb_spec q p). }
  constructor; [done| |].
  - intros q Hq Hql Hqm. destruct (Hmq q Hq Hqm) as (Hne & Hqm' & ->).
    destruct (Hback q Hq Hql Hqm') as (? & Hna & Hns). split_and!.
    + apply Hman2. by apply Hman1.
    + intros Hc%Hav2. destruct Hc as [Hc|Hc]; [by apply Hna, Hav1|].
      apply Hne. by apply Hdist.
    + intros Hc%Hst2. by destruct (Hst1 _ Hc).
  - intros q1 q2 Hq1 Hq2 Hl1 Hl2 Hm1 Hm2 Heq.
    destruct (Hmq q1 Hq1 Hm1) as (_ & ? & E1). destruct (Hmq q2 Hq2 Hm2) as (_ & ? & E2).
    apply Hdist; try done. congruence.
Qed.

Definition released (bl : list heap_entry) (p : Z) (n : nat) (q : Z) : bool :=
  (p <=? q) && (q <? p + Z.of_nat n) && negb (covered bl q).

Lemma release_pages_spec n lo p o len j fuel h bl m :
  heap_rep h bl ->
  (forall e, e ∈ bl -> 0 <= address e /\ 0 <= length e /\ block_end e <= 2 ^ 32 - 4096) ->
  frames_ok lo m -> lo <= p -> 0 <= p -> 0 <= j -> 0 <= o < 4096 ->
  p + j + Z.of_nat n <= 1023 * 1024 ->
  len <= 4096 * (j + Z.of_nat n) -> (n <> 0%nat -> 4096 * (j + Z.of_nat n - 1) < len) ->
  (forall q, p + j <= q < p + j + Z.of_nat n -> mapped m q) -> (n < fuel)%nat ->
  exists m', release_pages fuel (4096 * p + o) len (4096 * j) (KernelMemory h m)
      = Done (KernelMemory h m') /\ frames_ok lo m' /\
    forall q, ordinary q ->
      page_entry m' q = if released bl (p + j) n q then 0 else page_entry m q.
Proof.
  revert j fuel m. induction n as [|n IH];
    intros j fuel m Hrep Hbl Hok Hlo Hp Hj Ho Hend Hlen Hlast Hmap Hfuel;
    (destruct fuel as [|fuel]; [lia|]); cbn [release_pages].
  - destruct (Z.ltb_spec (4096 * j) len); [lia|]. exists m. split_and!; try done.
    intros q _. unfold released.
    destruct (Z.leb_spec (p + j) q), (Z.ltb_spec q (p + j + Z.of_nat 0)); simpl; done || lia.
  - specialize (Hlast ltac:(done)). destruct (Z.ltb_spec (4096 * j) len); [|lia].
    rewrite (u32_small (4096 * p + o + 4096 * j)) by lia.
    replace (4096 * p + o + 4096 * j) with (4096 * (p + j) + o) by lia.
    cbn [system_heap space]. rewrite (is_page_used_spec h bl) by (done || lia).
    cbn [mbind outcome_bind].
    assert (ordinary (p + j)) as Hord by (unfold ordinary; lia).
    assert (exists m1, (if covered bl (p + j) then Done (KernelMemory h m) else
        data ← page_data m (4096 * (p + j) + o);
        m1 ← unmap_page m (4096 * (p + j) + o);
        m2 ← free_page (page_base data) m1;
        Done (KernelMemory h m2)) = Done (KernelMemory h m1) /\ frames_ok lo m1 /\
      forall q, ordinary q -> page_entry m1 q =
        if (q =? p + j) && negb (covered bl (p + j)) then 0 else page_entry m q)
      as (m1 & -> & Hok1 & Hent1).
    { destruct (covered bl (p + j)).
      - exists m. split_and!; try done. intros q _. by rewrite andb_false_r.
      - rewrite page_data_ok by (done || apply Hok). cbn [mbind outcome_bind].
        destruct (unmap_release lo m (p + j) o) as (m0 & m1 & -> & Hf & Hok1 & _ & Hent1);
          try done; [lia|apply Hmap; lia|].
        cbn [mbind outcome_bind]. rewrite Hf. cbn [mbind outcome_bind].
        exists m1. split_and!; try done. intros q Hq. rewrite Hent1 by done.
        by rewrite andb_true_r. }
    cbn [mbind outcome_bind]. unfold PAGE_SIZE. rewrite u32_small by lia.
    replace (4096 * j + 4096) with (4096 * (j + 1)) by lia.
    destruct (IH (j + 1) fuel m1) as (m' & Hrun & Hok' & Hent'); try done; try lia.
    { intros q Hq. unfold mapped. rewrite Hent1 by (unfold ordinary; lia).
      destruct (Z.eqb_spec q (p + j)); [lia|]. apply Hmap. lia. }
    exists m'. split_and!; [done|done|]. intros q Hq. rewrite Hent', Hent1 by done.
    unfold released. destruct (Z.eqb_spec q (p + j)) as [->|Hne].
    + destruct (Z.leb_spec (p + (j + 1)) (p + j)), (Z.leb_spec (p + j) (p + j)),
        (Z.ltb_spec (p + j) (p + j + Z.of_nat (S n))); simpl; done || lia.
    + destruct (Z.leb_spec (p + (j + 1)) q), (Z.leb_spec (p + j) q),
        (Z.ltb_spec q (p + (j + 1) + Z.of_nat n)), (Z.ltb_spec q (p + j + Z.of_nat (S n)));
        simpl; done || lia.
Qed.
End Pages.

(** ** The whole state *)

Lemma chain_split lo p x q :
  chain lo (p ++ x :: q) ->
  (forall e, e ∈ p -> block_end e <= address x) /\ (forall e, e ∈ q -> block_end x <= address e) /\
  lo <= address x /\ 0 <= length x.
Proof.
  revert lo. induction p as [|y p IH]; intros lo; cbn [app chain].
  - intros (Ha & Hl & He & Hc). split_and!; try done.
    + intros e He'. by apply not_elem_of_nil in He'.
    + intros e He'. by destruct (chain_end _ _ _ Hc He').
  - intros (Ha & Hl & He & Hc). destruct (IH _ Hc) as (Hp & Hq & Hx & Hxl). split_and!; try done.
    + intros e [->|He']%elem_of_cons; [done|by apply Hp].
    + unfold block_end in *. lia.
Qed.

Lemma heap_top_app lo p x q : heap_top lo (p ++ x :: q) = heap_top (block_end x) q.
Proof. revert lo. induction p as [|y p IH]; intros lo; [done|]. apply IH. Qed.

Lemma heap_top_remove lo a bl : chain lo bl -> heap_top lo (remove_block a bl) <= heap_top lo bl.
Proof.
  revert lo. induction bl as [|e bl IH]; intros lo; simpl; [lia|].
  intros (Ha & Hl & He & Hc). destruct (address e =? a).
  - destruct bl as [|x bl]; simpl; [unfold block_end; lia|lia].
  - by apply IH.
Qed.

Lemma elem_of_remove a bl e : e ∈ remove_block a bl -> e ∈ bl.
Proof.
  induction bl as [|x bl IH]; simpl; [done|]. destruct (address x =? a).
  - by right.
  - intros [->|Hin]%elem_of_cons; [left|right; by apply IH].
Qed.

Lemma covered_true bl q : covered bl q = true <-> exists e, e ∈ bl /\ covers e q = true.
Proof.
  unfold covered. rewrite existsb_exists. split; intros (e & Hin & Hc); exists e; split; try done;
    by apply list_elem_of_In.
Qed.

(** The upper end of the pages the heap may use. *)
Definition HEAP_LIMIT : Z := 0xffc00000.

Section KernelMemory.
Context {M : Type} `{PageOpsLaws M}.

Record kmem_ok (s : kernel_memory M) (bl : list heap_entry) : Prop := KmemOk {
  ko_heap : heap_rep (system_heap s) bl;
  ko_top : heap_top (start (system_heap s)) bl <= HEAP_LIMIT;
  ko_frames : frames_ok (start (system_heap s) / 4096) (space s);
  ko_mapped : forall q, covered bl q = true -> mapped (space s) q
}.

Lemma scheduler_mode_rep h bl b : heap_rep h bl -> heap_rep (scheduler_mode b h) bl.
Proof. intros [? ? ? ? ? ? ?]. by constructor. Qed.

Lemma block_bounds s bl e :
  kmem_ok s bl -> e ∈ bl ->
  start (system_heap s) <= address e /\ 0 <= length e /\ block_end e <= HEAP_LIMIT.
Proof.
  intros Hok Hin. pose proof (hr_chain _ _ (ko_heap _ _ Hok)) as Hch.
  destruct (chain_end _ _ _ Hch Hin) as (? & ? & ?). pose proof (ko_top _ _ Hok). lia.
Qed.

Lemma covers_ordinary e q :
  0 <= address e -> block_end e <= HEAP_LIMIT -> covers e q = true ->
  ordinary q /\ address e / 4096 <= q.
Proof.
  intros Ha He Hc. unfold covers in Hc. apply andb_true_iff in Hc as [H1%Z.leb_le H2%Z.ltb_lt].
  assert (0 <= address e / 4096) by (apply Z.div_pos; lia).
  assert ((block_end e + 4095) / 4096 < 1023 * 1024 + 1).
  { apply Z.div_lt_upper_bound; [lia|]. unfold HEAP_LIMIT in He. lia. }
  unfold ordinary. lia.
Qed.

(** The pages mapped for a block include the pages it covers. *)
Lemma covers_filled a size q :
  0 <= a -> 0 <= size -> covers (HeapEntry a size) q = true ->
  a / 4096 <= q < a / 4096 + Z.of_nat (S (Z.to_nat ((size + 4095) / 4096))).
Proof.
  intros Ha Hs Hc. unfold covers, block_end in Hc. cbn [address length] in Hc.
  apply andb_true_iff in Hc as [H1%Z.leb_le H2%Z.ltb_lt].
  assert (0 <= (size + 4095) / 4096) by (apply Z.div_pos; lia).
  pose proof (Z.div_mod a 4096). pose proof (Z.mod_pos_bound a 4096).
  pose proof (Z.div_mod (size + 4095) 4096). pose proof (Z.mod_pos_bound (size + 4095) 4096).
  pose proof (Z.div_mod (a + size + 4095) 4096). pose proof (Z.mod_pos_bound (a + size + 4095) 4096).
  lia.
Qed.

(** Enough frames for the data pages and a page table for each. *)
Definition frames_needed (size : Z) : nat := 2 * S (Z.to_nat ((size + 4095) / 4096)).

Definition request_fits (s : kernel_memory M) (bl : list heap_entry) (size align : Z) : Prop :=
  Z.of_nat (base.length bl) + 1 < capacity (system_heap s) /\ 0 <= size /\ 0 <= align /\
  heap_top (start (system_heap s)) bl + align + size <= HEAP_LIMIT - 8192 /\
  (frames_needed size <= spare (space s))%nat.

Lemma map_block_pages s bl a size :
  kmem_ok s bl -> 0 <= size -> start (system_heap s) <= a -> a + size <= HEAP_LIMIT - 8192 ->
  (frames_needed size <= spare (space s))%nat ->
  exists m', map_missing_pages (page_base a) size (space s) = Done m' /\
    filled (start (system_heap s) / 4096) (a / 4096)
      (S (Z.to_nat ((size + 4095) / 4096))) (space s) m'.
Proof.
  intros Hok Hsz Ha Hend Hsp. unfold HEAP_LIMIT in *.
  pose proof (hr_start _ _ (ko_heap _ _ Hok)) as Hst.
  rewrite land_page_mask_div by lia.
  pose proof (Z.div_mod a 4096). pose proof (Z.mod_pos_bound a 4096).
  pose proof (Z.div_mod (size + 4095) 4096). pose proof (Z.mod_pos_bound (size + 4095) 4096).
  apply map_missing_pages_spec; try done; try lia; [apply Hok|by apply div_page_le].
Qed.

Lemma kmalloc_common_spec s bl size align :
  kmem_ok s bl -> request_fits s bl size align ->
  let r := insert_block (start (system_heap s)) bl size align in
  exists s', kmalloc_common size align s = Done (fst r, s') /\ kmem_ok s' (snd r) /\
    multi_task (system_heap s') = true /\
    (spare (space s) <= frames_needed size + spare (space s'))%nat /\
    forall q, ordinary q -> mapped (space s) q ->
      page_entry (space s') q = page_entry (space s) q.
Proof.
  intros Hok Hfits r. pose proof Hfits as (Hcap & Hsz & Hal & Htop & Hsp).
  pose proof (ko_heap _ _ Hok) as Hrep. pose proof (hr_start _ _ Hrep) as Hst.
  pose proof (chain_top _ _ (hr_chain _ _ Hrep)) as Hct.
  assert (room (start (system_heap s)) bl size align) as Hroom.
  { unfold room, HEAP_LIMIT in *. lia. }
  destruct (alloc_no_map_spec (scheduler_mode false (system_heap s)) bl size align)
    as (h' & Halloc & Hrep' & [Hst' Hcap' Htask]); [by apply scheduler_mode_rep|done|done|].
  cbn [scheduler_mode start] in *.
  destruct (insert_block_spec (start (system_heap s)) bl size align)
    as (p & q & Hbl & Hins & _ & _ & Ha & Hend & Hch); [apply Hrep|lia|done|].
  fold r in Halloc, Hrep', Hins, Ha, Hend, Hch.
  unfold kmalloc_common. rewrite Halloc. cbn [mbind outcome_bind].
  destruct (Z.eqb_spec (fst r) 0); [lia|].
  destruct (map_block_pages s bl (fst r) size) as (m' & Hmap & [F1 F2 F3 F4 F5]); try done; [lia|].
  rewrite Hmap. cbn [mbind outcome_bind]. eexists. split; [done|].
  assert (heap_top (start (system_heap s)) (snd r) <= HEAP_LIMIT) as Htop'.
  { rewrite Hins, heap_top_app. unfold block_end. cbn [address length].
    pose proof (ko_top _ _ Hok) as Hkt. rewrite Hbl in *. unfold HEAP_LIMIT in *.
    destruct q as [|y q]; [simpl; lia|]. by rewrite heap_top_app in Hkt. }
  split_and!; [|done|exact F2|by apply F4].
  constructor; cbn [system_heap space scheduler_mode start]; rewrite ?Hst'; try done.
  - by apply scheduler_mode_rep.
  - intros x Hx. apply covered_true in Hx as (e & Hin & Hc). rewrite Hins in Hin.
    apply elem_of_app in Hin as [Hin|[->|Hin]%elem_of_cons].
    2: { apply F3. apply covers_filled; lia || done. }
    all: assert (e ∈ bl) as Hin' by (rewrite Hbl; apply elem_of_app; rewrite ?elem_of_cons; auto).
    all: destruct (block_bounds s bl e Hok Hin') as (? & ? & ?).
    all: destruct (covers_ordinary e x) as [Hox _]; [lia|lia|done|].
    all: assert (mapped (space s) x) as Hmx by (apply Hok, covered_true; by exists e).
    all: unfold mapped; by rewrite F4.
Qed.

Lemma heap_get_block_spec h bl a :
  heap_rep h bl -> heap_get_block a h =
    Done (match get_block a bl with Some e => e | None => no_entry end).
Proof.
  intros Hrep. destruct (hr_memory _ _ Hrep) as (n & Hm).
  unfold heap_get_block, heap_get_block_idx. rewrite (hr_count _ _ Hrep), Hm, Nat2Z.id.
  pose proof (find_block_spec bl [] (replicate (S n) no_entry) 0 a eq_refl) as Hf.
  cbn [app] in Hf. rewrite Hf. cbn [mbind outcome_bind].
  destruct (get_block a bl) as [e|] eqn:Hg; [|done].
  destruct (get_block_split _ _ _ Hg) as (p & q & -> & _ & Ha & Hp).
  rewrite block_index_split, Z.add_0_l, <- app_assoc by done. cbn [app]. by apply array_get_seam.
Qed.

Lemma kfree_spec s bl ptr e :
  kmem_ok s bl -> get_block ptr bl = Some e ->
  exists s', kfree ptr s = Done s' /\ kmem_ok s' (remove_block ptr bl) /\
    multi_task (system_heap s') = true /\
    forall q, ordinary q -> page_entry (space s') q =
      if released (remove_block ptr bl) (ptr / 4096) (Z.to_nat ((length e + 4095) / 4096)) q
      then 0 else page_entry (space s) q.
Proof.
  intros Hok Hg. pose proof (ko_heap _ _ Hok) as Hrep. pose proof (hr_start _ _ Hrep) as Hst.
  destruct (get_block_split _ _ _ Hg) as (p & q & Hbl & Hrm & Ha & Hp).
  assert (e ∈ bl) as Hin by (rewrite Hbl; apply elem_of_app; right; left).
  destruct (block_bounds s bl e Hok Hin) as (Hlo & Hl & Hend).
  assert (ptr <> 0) as Hptr by lia. unfold kfree.
  pose proof (scheduler_mode_rep _ _ false Hrep) as Hrep0.
  destruct (free_no_map_spec _ _ ptr Hrep0 Hptr) as (h' & Hfree & Hrep' & [Hst' Hcap' _]).
  cbn [scheduler_mode start] in Hst'.
  destruct (Z.eqb_spec ptr 0) as [|_]; [done|].
  rewrite (heap_get_block_spec _ bl) by done. cbn [mbind outcome_bind]. rewrite Hg.
  destruct (Z.eqb_spec (address e) 0) as [|_]; [lia|]. rewrite Hfree. cbn [mbind outcome_bind].
  destruct (addr_page ptr) as (pp & o & Hpo & Ho & Hpp).
  set (n := Z.to_nat ((length e + 4095) / 4096)).
  assert (0 <= (length e + 4095) / 4096) by (apply Z.div_pos; lia).
  pose proof (Z.div_mod (length e + 4095) 4096). pose proof (Z.mod_pos_bound (length e + 4095) 4096).
  pose proof (Z.div_mod (length e) 4096). pose proof (Z.mod_pos_bound (length e) 4096).
  unfold block_end, HEAP_LIMIT in *.
  destruct (release_pages_spec n (start (system_heap s) / 4096) pp o (length e) 0
    (Z.to_nat (length e / PAGE_SIZE + 2)) h' (remove_block ptr bl) (space s))
    as (m' & Hrun & Hok' & Hent); try done; try (unfold PAGE_SIZE; lia); try apply Hok.
  { intros x Hx%elem_of_remove. destruct (block_bounds s bl x Hok Hx) as (? & ? & ?).
    unfold HEAP_LIMIT in *. lia. }
  { rewrite Hpp. apply div_page_le. lia. }
  { intros x Hx. apply Hok, covered_true. exists e. split; [done|]. unfold covers, block_end.
    rewrite Ha, <- Hpp. apply andb_true_iff. split; [apply Z.leb_le; lia|apply Z.ltb_lt].
    assert (x + 1 <= (ptr + length e + 4095) / 4096); [|lia]. apply Z.div_le_lower_bound; lia. }
  rewrite Z.mul_0_r, <- Hpo, <- Ha in Hrun. rewrite Hrun. cbn [mbind outcome_bind system_heap space].
  rewrite Z.add_0_r in Hent. rewrite <- Hpp. eexists. split; [done|]. split_and!; [|done|exact Hent].
  constructor; cbn [system_heap space scheduler_mode start]; rewrite ?Hst'.
  - by apply scheduler_mode_rep.
  - pose proof (heap_top_remove _ ptr _ (hr_chain _ _ Hrep)). pose proof (ko_top _ _ Hok). lia.
  - done.
  - intros x Hx. assert (covered bl x = true) as Hx'.
    { apply covered_true in Hx as (e' & Hin' & Hc). apply covered_true. exists e'.
      split; [by apply (elem_of_remove ptr)|done]. }
    assert (ordinary x) as Hox.
    { apply covered_true in Hx' as (e' & Hin' & Hc).
      destruct (block_bounds s bl e' Hok Hin') as (? & ? & ?).
      by destruct (covers_ordinary e' x); [lia|done|done|]. }
    unfold mapped. rewrite Hent by done. unfold released. rewrite Hx, andb_false_r.
    by apply Hok.
Qed.
End KernelMemory.

(** ** The interface implemented by the page tables *)

Section Machine.
Context {F : Type} `{FrameAllocLaws F}.

#[export] Instance machine_pages : PageOps (machine F) := {
  page_data m va := phys_get_page_data m (get_kernel_page_directory m) va;
  map_page m pa va flags := map_single_page m (get_kernel_page_directory m) pa va flags;
  unmap_page m va := unmap_single_page m (get_kernel_page_directory m) va;
  map_range m pa va size flags := map_pages m (get_kernel_page_directory m) pa va size flags;
  alloc_page m := '(a, f) ← alloc_frame (frames m); Done (a, set_frames f m);
  free_page a m := f ← free_frame a (frames m); Done (set_frames f m);
  alloc_run n m := '(a, f) ← alloc_frames n (frames m); Done (a, set_frames f m);
  free_run_of a n m := f ← free_frames a n (frames m); Done (set_frames f m);
  copy_bytes dst src n m := vcopy m dst src (Z.to_nat n);
  fill_bytes dst x n m := vfill m dst x (Z.to_nat n);
  pages_inv m := paging_initialized m = true /\ space_ok m (cr3 m);
  page_entry m p := entry m (cr3 m) p;
  available m a := frame_free (frames m) a;
  managed m a := frame_managed (frames m) a;
  structural m a := owned m (cr3 m) a;
  spare m := frames_left (frames m)
}.

Lemma machine_map_page_ok (m : machine F) a p o flags :
  pages_inv m -> ordinary p -> 0 <= o < 4096 -> 0 <= a < 2 ^ 32 -> 0 <= flags < 4096 ->
  (0 < spare m)%nat ->
  exists m', map_page m a (4096 * p + o) flags = Done m' /\ pages_inv m' /\ tables_grow 1 m m' /\
    forall q, ordinary q -> page_entry m' q = if q =? p then pte_value a flags else page_entry m q.
Proof.
  intros [Hpg Hok] Hp Ho Ha Hf Hsp.
  destruct (map_single_page_spec m (cr3 m) p o a flags) as (m' & Hm & Hok' & Hst & Hpg' & Hent); try done.
  assert (cr3 m' = cr3 m) as Hcr by (apply (so_cr3 _ _ Hok'); congruence).
  apply frames_step_used in Hst as [? ? ? ? _].
  exists m'. split_and!; [done|split; [congruence|by rewrite Hcr]| |].
  - constructor; simpl; rewrite ?Hcr; done.
  - simpl. by rewrite Hcr.
Qed.

Lemma machine_unmap_page_ok (m : machine F) p o :
  pages_inv m -> ordinary p -> 0 <= o < 4096 ->
  exists m', unmap_page m (4096 * p + o) = Done m' /\ pages_inv m' /\ tables_grow 0 m m' /\
    (forall b, available m b -> available m' b) /\
    forall q, ordinary q -> page_entry m' q = if q =? p then 0 else page_entry m q.
Proof.
  intros [Hpg Hok] Hp Ho.
  destruct (unmap_single_page_spec m (cr3 m) p o) as (m' & Hm & Hok' & Hfr & Hown & Hpg' & Hent); try done.
  assert (cr3 m' = cr3 m) as Hcr by (apply (so_cr3 _ _ Hok'); congruence).
  exists m'. split_and!; [done|split; [congruence|by rewrite Hcr]| | |].
  - constructor; simpl; rewrite ?Hcr, ?Hfr; try done. intros b Hb. left. by apply Hown.
  - simpl. by rewrite Hfr.
  - simpl. by rewrite Hcr.
Qed.

Lemma machine_free_page_ok (m : machine F) a :
  pages_inv m -> managed m a -> ~ available m a -> ~ structural m a ->
  exists m', free_page a m = Done m' /\ pages_inv m' /\
    (forall b, available m' b <-> available m b \/ b = a) /\
    (forall b, managed m' b <-> managed m b) /\ (forall b, structural m' b <-> structural m b) /\
    (forall q, ordinary q -> page_entry m' q = page_entry m q).
Proof.
  intros [Hpg Hok] Hman Hav Hst. simpl in *.
  destruct (free_frame_ok _ a (so_frames _ _ Hok) Hman Hav) as (f & Hf & Hinv & Hfr & Hmn).
  rewrite Hf. cbn [mbind outcome_bind]. eexists. split_and!; try done. simpl.
  destruct Hok as [? ? ? ? ? ? ? ? Ho]. constructor; simpl; try done.
  intros b Hb. destruct (Ho b Hb) as [? Hnf]. rewrite Hmn, Hfr. split; [done|].
  intros [|Hba]; [done|]. rewrite Hba in Hb. by apply Hst.
Qed.

#[export] Instance machine_pages_laws : PageOpsLaws (machine F).
Proof.
  constructor.
  - intros m p o [Hpg Hok] Hp Ho. by apply phys_get_page_data_spec.
  - exact machine_map_page_ok.
  - exact machine_unmap_page_ok.
  - intros m [Hpg Hok] Hsp. simpl in *.
    destruct (take_frame m (cr3 m) Hok Hsp) as (k & f & Ha & Hk & Hok' & _ & _ & _ & [Hfr Hfrs Hmn Hl _]).
    rewrite Ha. cbn [mbind outcome_bind]. exists (4096 * k), (set_frames f m).
    split_and!; try done. by exists k.
  - exact machine_free_page_ok.
  - intros m b [Hpg Hok] Hb. simpl in *.
    split; [apply frame_free_managed; [apply Hok|done]|]. intros Ho.
    by destruct (so_owned _ _ Hok b Ho).
Qed.
End Machine.

(** ** Lengths changed in place *)

Lemma set_length_spec h p e q n len :
  memory h = p ++ e :: q ++ replicate (S n) no_entry ->
  set_length (Z.of_nat (base.length p)) len h =
    Done (with_memory (p ++ HeapEntry (address e) len :: q ++ replicate (S n) no_entry) h).
Proof.
  intros Hm. unfold set_length. rewrite Hm, array_get_seam by done. cbn [mbind outcome_bind].
  by rewrite array_set_seam.
Qed.

Lemma chain_resize lo p e q len :
  chain lo (p ++ e :: q) -> 0 <= len ->
  address e + len < 2 ^ 32 -> (forall x, head q = Some x -> address e + len <= address x) ->
  chain lo (p ++ HeapEntry (address e) len :: q).
Proof.
  intros Hch Hlen Hend Hnext. revert lo Hch. induction p as [|y p IH]; intros lo; cbn [app chain].
  - intros (Ha & Hl & He & Hc). repeat split; try done. unfold block_end. cbn [address length].
    destruct q as [|x q]; [done|]. destruct Hc as (? & ? & ? & ?).
    specialize (Hnext x eq_refl). by repeat split.
  - intros (? & ? & ? & Hc). repeat split; try done. by apply IH.
Qed.

Lemma resize_rep h p e q len :
  heap_rep h (p ++ e :: q) -> 0 <= len -> address e + len < 2 ^ 32 ->
  (forall x, head q = Some x -> address e + len <= address x) ->
  forall d, u32 (total_length (p ++ e :: q) + d) = u32 (total_length (p ++ e :: q) + (len - length e)) ->
  exists h', set_length (Z.of_nat (base.length p)) len (add_used d h) = Done h' /\
    heap_rep h' (p ++ HeapEntry (address e) len :: q) /\ start h' = start h /\
    multi_task h' = multi_task h.
Proof.
  intros [Hc (n & Hm) Hcap Hsm Hst Hch Hu] Hlen Hend Hnext d Hd.
  rewrite <- app_assoc in Hm. cbn [app] in Hm.
  rewrite (set_length_spec (add_used d h) p e q n) by done. eexists. split; [done|].
  split; [|done].
  constructor; cbn [with_memory add_used allocated_count capacity start used_memory memory]; try done.
  - rewrite Hc, !length_app. done.
  - exists n. by rewrite <- app_assoc.
  - rewrite Hcap, Hm, !length_app. cbn [Datatypes.length]. by rewrite !length_app.
  - by apply chain_resize.
  - rewrite Hu, used_add_mod, Hd. f_equal. rewrite !total_length_app. cbn [total_length fold_right length].
    fold (total_length q). lia.
Qed.

(** ** Properties of the bookkeeping *)

Lemma ALIGN_pow2 v k : 0 <= v < 2 ^ 32 -> 0 <= k < 32 -> (ALIGN v (2 ^ k)) mod 2 ^ k = 0.
Proof.
  intros Hv Hk. rewrite ALIGN_spec by done. unfold u32.
  replace (2 ^ 32) with (2 ^ k * 2 ^ (32 - k)) by (rewrite <- Z.pow_add_r by lia; f_equal; lia).
  rewrite Z.mul_mod_distr_l by (apply Z.pow_nonzero; lia).
  rewrite Z.mul_comm. apply Z.mod_mul. apply Z.pow_nonzero; lia.
Qed.

(** C4: while the array has room and the request fits below 4 GiB,
    [alloc_no_map], with its in-place shifting of the array, refines the insertion
    of one block in a sorted list: the blocks keep their order and values, the new
    block overlaps none of them, and it starts at the requested power-of-two
    alignment unless it is the first block, which starts at the start of the
    heap. *)
Theorem alloc_no_map_refines h bl size align :
  heap_rep h bl -> Z.of_nat (base.length bl) + 1 < capacity h -> room (start h) bl size align ->
  exists a h' p q, alloc_no_map size align h = Done (a, h') /\
    bl = p ++ q /\ heap_rep h' (p ++ HeapEntry a size :: q) /\
    (forall e, e ∈ bl -> block_end e <= a \/ a + size <= address e) /\
    (bl = [] -> a = start h) /\
    (forall k, bl <> [] -> align = 2 ^ k -> 0 <= k < 32 -> a mod 2 ^ k = 0).
Proof.
  intros Hrep Hcap Hroom. pose proof (hr_start _ _ Hrep) as Hst.
  destruct (alloc_no_map_spec h bl size align Hrep Hcap Hroom) as (h' & Halloc & Hrep' & _).
  destruct (insert_block_spec (start h) bl size align)
    as (p & q & Hbl & Hins & Hfit & Hemp & Ha & Hend & Hch); [apply Hrep|lia|done|].
  rewrite Hins in Hrep', Hch.
  exists (fst (insert_block (start h) bl size align)), h', p, q. split_and!; try done.
  - intros e He. destruct (chain_split _ _ _ _ Hch) as (Hp & Hq & _).
    rewrite Hbl in He. apply elem_of_app in He as [He|He]; [left; by apply Hp|right].
    specialize (Hq e He). unfold block_end in Hq. cbn [address length] in Hq. lia.
  - intros ->. by destruct p.
  - intros k Hne -> Hk. destruct (list.last p) as [e|] eqn:Hl.
    + rewrite (Hfit e) by done. unfold fit.
      destruct (Z.eqb_spec (2 ^ k) 0) as [H0|_]; [pose proof (Z.pow_pos_nonneg 2 k); lia|].
      apply ALIGN_pow2; [|done].
      assert (e ∈ bl) as Hin by (rewrite Hbl; apply elem_of_app; left; by apply last_Some_elem_of).
      destruct (chain_end _ _ _ (hr_chain _ _ Hrep) Hin) as (? & ? & ?).
      destruct Hroom as (? & ? & ?). unfold block_end in *. lia.
    + apply last_None in Hl. by destruct (Hemp Hl).
Qed.

Lemma remove_block_seam a p e q :
  address e = a -> Forall (fun e' => address e' <> a) p -> remove_block a (p ++ e :: q) = p ++ q.
Proof.
  intros Ha. induction 1 as [|x p Hx Hp IH]; simpl.
  - by rewrite Ha, Z.eqb_refl.
  - apply Z.eqb_neq in Hx. by rewrite Hx, IH.
Qed.

(** C5: freeing the block just allocated gives back the very list of blocks the
    heap had, and the accounting with it (blocks of length zero, which share
    their address with the next block, aside). *)
Theorem free_alloc_no_map h bl size align a h' :
  heap_rep h bl -> Z.of_nat (base.length bl) + 1 < capacity h -> room (start h) bl size align ->
  Forall (fun e => 0 < length e) bl -> 0 < size ->
  alloc_no_map size align h = Done (a, h') ->
  exists h'', free_no_map a h' = Done h'' /\ heap_rep h'' bl /\ used_memory h'' = used_memory h.
Proof.
  intros Hrep Hcap Hroom Hpos Hsize Halloc. pose proof (hr_start _ _ Hrep) as Hst.
  destruct (alloc_no_map_spec h bl size align Hrep Hcap Hroom) as (h1 & Halloc1 & Hrep' & _).
  rewrite Halloc in Halloc1. injection Halloc1 as -> ->.
  destruct (insert_block_spec (start h) bl size align)
    as (p & q & Hbl & Hins & _ & _ & Ha & Hend & Hch); [apply Hrep|lia|done|].
  rewrite Hins in Hrep', Hch. set (a := fst (insert_block (start h) bl size align)) in *.
  destruct (free_no_map_spec h1 _ a Hrep' ltac:(lia)) as (h'' & Hfree & Hrep'' & _).
  assert (remove_block a (p ++ HeapEntry a size :: q) = bl) as Hrm.
  { rewrite Hbl. destruct (chain_split _ _ _ _ Hch) as (Hp & _ & _).
    apply remove_block_seam; [done|]. apply list.Forall_forall. intros e He Heq.
    rewrite list.Forall_forall in Hpos.
    assert (e ∈ bl) as Hin by (rewrite Hbl; apply elem_of_app; by left).
    specialize (Hpos e Hin). specialize (Hp e He). unfold block_end in Hp. cbn [address] in Hp. lia. }
  exists h''. rewrite Hrm in Hrep''. split_and!; [done|done|].
  by rewrite (hr_used _ _ Hrep''), (hr_used _ _ Hrep).
Qed.

Section Reallocation.
Context {M : Type} `{PageOpsLaws M}.

Lemma get_ref_spec (h : heap) p e q n :
  allocated_count h = Z.of_nat (base.length (p ++ e :: q)) ->
  memory h = p ++ e :: q ++ replicate (S n) no_entry ->
  Forall (fun e' => address e' <> address e) p ->
  heap_get_block_ref (address e) h = Done (Some (Z.of_nat (base.length p))).
Proof.
  intros Hc Hm Hp. unfold heap_get_block_ref, heap_get_block_idx. rewrite Hc, Hm, Nat2Z.id.
  pose proof (find_block_spec (p ++ e :: q) [] (replicate (S n) no_entry) 0 (address e) eq_refl) as Hf.
  cbn [app] in Hf. rewrite <- app_assoc in Hf. cbn [app] in Hf. rewrite Hf.
  rewrite block_index_split, Z.add_0_l by done.
  assert (exists e', get_block (address e) (p ++ e :: q) = Some e') as [e' ->]; [|done].
  clear - Hp. induction Hp as [|x p Hx Hp IH]; simpl.
  - rewrite Z.eqb_refl. by exists e.
  - apply Z.eqb_neq in Hx. rewrite Hx. exact IH.
Qed.

(** Growing the block at [p]: the pages, the length, the accounting. *)
Lemma grow_block_spec s p e q size :
  kmem_ok s (p ++ e :: q) -> length e <= size -> address e + size <= HEAP_LIMIT - 8192 ->
  (forall x, head q = Some x -> address e + size <= address x) ->
  (frames_needed size <= spare (space s))%nat ->
  exists s', grow_block (Z.of_nat (base.length p)) e size s = Done s' /\
    kmem_ok s' (p ++ HeapEntry (address e) size :: q) /\
    forall x, ordinary x -> mapped (space s) x -> page_entry (space s') x = page_entry (space s) x.
Proof.
  intros Hok Hge Hend Hnext Hsp. pose proof (ko_heap _ _ Hok) as Hrep.
  destruct (chain_split _ _ _ _ (hr_chain _ _ Hrep)) as (_ & _ & Hlo & Hl).
  pose proof (hr_start _ _ Hrep) as Hst. unfold grow_block.
  destruct (map_block_pages s _ (address e) size Hok) as (m' & -> & [F1 F2 F3 F4 F5]); try done; [lia|].
  cbn [mbind outcome_bind].
  destruct (resize_rep (system_heap s) p e q size Hrep ltac:(lia)) with (d := u32 (size - length e))
    as (h' & -> & Hrep' & Hst' & _); [unfold HEAP_LIMIT in *; lia|done| |].
  { unfold u32. by rewrite Zplus_mod_idemp_r. }
  cbn [mbind outcome_bind]. eexists. split; [done|]. split; [|exact F4].
  constructor; cbn [system_heap space]; rewrite ?Hst'; try done.
  - pose proof (ko_top _ _ Hok) as Htop. rewrite heap_top_app in *.
    destruct q as [|y q]; [|done]. simpl in *. unfold block_end, HEAP_LIMIT in *. simpl. lia.
  - intros x Hx. apply covered_true in Hx as (e' & Hin & Hc).
    apply elem_of_app in Hin as [Hin|[->|Hin]%elem_of_cons].
    2: { apply F3. apply covers_filled; lia || done. }
    all: assert (e' ∈ p ++ e :: q) as Hin' by (apply elem_of_app; rewrite ?elem_of_cons; auto).
    all: destruct (block_bounds s _ e' Hok Hin') as (? & ? & ?).
    all: destruct (covers_ordinary e' x) as [Hox _]; [lia|lia|done|].
    all: assert (mapped (space s) x) as Hmx by (apply Hok, covered_true; by exists e').
    all: unfold mapped; by rewrite F4.
Qed.

Lemma covers_shorter a l l' q :
  l' <= l -> covers (HeapEntry a l') q = true -> covers (HeapEntry a l) q = true.
Proof.
  unfold covers, block_end. cbn [address length]. intros Hl [H1 H2%Z.ltb_lt]%andb_true_iff.
  rewrite H1. cbn [andb]. apply Z.ltb_lt.
  pose proof (div_page_le (a + l' + 4095) (a + l + 4095)). lia.
Qed.

Lemma shrink_block_spec s p e q size :
  kmem_ok s (p ++ e :: q) -> 0 <= size <= length e ->
  exists h, set_length (Z.of_nat (base.length p)) size
      (add_used (u32 (- (length e - size))) (system_heap s)) = Done h /\
    kmem_ok (KernelMemory h (space s)) (p ++ HeapEntry (address e) size :: q).
Proof.
  intros Hok Hsz. pose proof (ko_heap _ _ Hok) as Hrep.
  pose proof (hr_chain _ _ Hrep) as Hch.
  destruct (chain_split _ _ _ _ Hch) as (_ & Hq & Hlo & Hl).
  assert (e ∈ p ++ e :: q) as Hin by (apply elem_of_app; right; left).
  destruct (block_bounds s _ e Hok Hin) as (_ & _ & Hend). unfold block_end, HEAP_LIMIT in *.
  destruct (resize_rep (system_heap s) p e q size Hrep) with (d := u32 (- (length e - size)))
    as (h' & -> & Hrep' & Hst' & _); [lia|lia| | |].
  { intros x Hx. destruct q as [|y q]; [done|]. injection Hx as ->.
    specialize (Hq x ltac:(left)). lia. }
  { unfold u32. rewrite Zplus_mod_idemp_r. f_equal. lia. }
  exists h'. split; [done|].
  constructor; cbn [system_heap space]; rewrite ?Hst'; try done; [|apply Hok|].
  - pose proof (ko_top _ _ Hok) as Htop. rewrite heap_top_app in *.
    destruct q as [|y q]; [|done]. simpl in *. unfold block_end, HEAP_LIMIT in *. simpl. lia.
  - intros x Hx. apply Hok. apply covered_true in Hx as (e' & Hin' & Hc). apply covered_true.
    apply elem_of_app in Hin' as [Hin'|[->|Hin']%elem_of_cons].
    + exists e'. split; [apply elem_of_app; by left|done].
    + exists e. split; [done|]. destruct e as [ea el]. apply (covers_shorter _ _ size); [|done].
      simpl in *. lia.
    + exists e'. split; [apply elem_of_app; right; by right|done].
Qed.



(** When the block shrinks, is the last one, or ends before the next block
    after growing, [krealloc_common] keeps its address, gives it the new length,
    keeps every page that was mapped as it was and maps the pages the block
    grows into. *)
Theorem krealloc_common_in_place s p e q memory_size alignment :
  kmem_ok s (p ++ e :: q) -> Forall (fun e' => address e' <> address e) p ->
  0 <= memory_size -> address e + memory_size <= HEAP_LIMIT - 8192 ->
  (length e < memory_size -> forall x, head q = Some x -> address e + memory_size < address x) ->
  (frames_needed memory_size <= spare (space s))%nat ->
  exists s', krealloc_common (address e) memory_size alignment s = Done (address e, s') /\
    kmem_ok s' (p ++ HeapEntry (address e) memory_size :: q) /\
    forall x, ordinary x -> mapped (space s) x -> page_entry (space s') x = page_entry (space s) x.
Proof.
  intros Hok Hp Hsz Hend Hnext Hsp. pose proof (ko_heap _ _ Hok) as Hrep.
  destruct (hr_memory _ _ Hrep) as (n & Hm). pose proof (hr_count _ _ Hrep) as Hc.
  destruct (chain_split _ _ _ _ (hr_chain _ _ Hrep)) as (_ & _ & Hlo & Hl).
  pose proof (hr_start _ _ Hrep) as Hst. rewrite <- app_assoc in Hm. cbn [app] in Hm.
  unfold krealloc_common. destruct (Z.eqb_spec (address e) 0) as [|_]; [lia|].
  rewrite (get_ref_spec _ p e q n) by done. cbn [mbind outcome_bind].
  rewrite Hm, (array_get_seam p _ e (Z.of_nat (base.length p))) by done. cbn [mbind outcome_bind].
  destruct (Z.ltb_spec (length e) memory_size) as [Hlt|Hge].
  - destruct (grow_block_spec s p e q memory_size Hok) as (s' & Hg & Hok' & Hkeep); try done; [lia| |].
    { intros x Hx. specialize (Hnext Hlt x Hx). lia. }
    destruct (Z.eqb_spec (Z.of_nat (base.length p)) (allocated_count (system_heap s) - 1)).
    + rewrite Hg. cbn [mbind outcome_bind]. by exists s'.
    + destruct q as [|x q]; [exfalso; rewrite Hc, length_app in *; simpl in *; lia|].
      replace (p ++ e :: (x :: q) ++ replicate (S n) no_entry)
        with ((p ++ [e]) ++ x :: q ++ replicate (S n) no_entry) by by rewrite <- app_assoc.
      rewrite array_get_seam by (rewrite length_app; simpl; lia). cbn [mbind outcome_bind].
      specialize (Hnext Hlt x eq_refl). rewrite u32_small by (unfold HEAP_LIMIT in *; lia).
      destruct (Z.ltb_spec (address e + memory_size) (address x)); [|lia].
      rewrite Hg. cbn [mbind outcome_bind]. by exists s'.
  - destruct (Z.ltb_spec memory_size (length e)).
    + destruct (shrink_block_spec s p e q memory_size Hok) as (h & -> & Hok'); [lia|].
      cbn [mbind outcome_bind]. by exists (KernelMemory h (space s)).
    + exists s. split_and!; try done. replace memory_size with (length e) by lia.
      by destruct e.
Qed.
End Reallocation.

(** ** Reallocation that moves *)

Definition small_heap : heap := Heap 0 8 0x10000 0 (replicate 8 no_entry) false 0 0 true.

(** Four blocks, of which the second is freed and the third holds a word; the
    result is the address of the third and the state. *)
Definition fragmented : outcome (Z * kernel_memory (machine pmm)) :=
  m ← init_paging boot_machine 0x1000 0x4800 0x200 0x500;
  '(a, s1) ← kmalloc 16 (KernelMemory small_heap m);
  '(b, s2) ← kmalloc 256 s1;
  '(c, s3) ← kmalloc 16 s2;
  '(d, s4) ← kmalloc 16 s3;
  s5 ← kfree b s4;
  m' ← vwrite (space s5) c 0x5a5a5a5a;
  Done (c, KernelMemory (system_heap s5) m').

(** A reallocation that moves the block can lose its contents.
    [krealloc_common] keeps the pointer [block] into the array across
    [kmalloc_common]; when the new block goes into a gap below, the entries shift
    and [block] designates another entry, here the new block itself, which is
    copied onto itself. *)
Theorem krealloc_common_loses_contents :
  exists c s n s', fragmented = Done (c, s) /\ vread (space s) c = Done 0x5a5a5a5a /\
    krealloc c 64 s = Done (n, s') /\ n <> c /\ vread (space s') n = Done 0.
Proof.
  assert (match fragmented with
          | Done (c, s) =>
              match vread (space s) c, krealloc c 64 s with
              | Done w, Done (n, s') =>
                  match vread (space s') n with
                  | Done w' => (w =? 0x5a5a5a5a) && negb (n =? c) && (w' =? 0)
                  | _ => false
                  end
              | _, _ => false
              end
          | _ => false
          end = true) as Hrun by (vm_compute; reflexivity).
  destruct fragmented as [[c s]| |]; [|done|done].
  destruct (vread (space s) c) as [w| |] eqn:Hw; [|done|done].
  destruct (krealloc c 64 s) as [[n s']| |] eqn:Hk; [|done|done].
  destruct (vread (space s') n) as [w'| |] eqn:Hw'; [|done|done].
  apply andb_true_iff in Hrun as [[->%Z.eqb_eq Hne]%andb_true_iff ->%Z.eqb_eq].
  exists c, s, n, s'. split_and!; try done. intros ->. by rewrite Z.eqb_refl in Hne.
Qed.

(** ** Instances *)

Lemma small_heap_rep : heap_rep small_heap [].
Proof. constructor; try done. by exists 7%nat. Qed.

Lemma small_heap_above q :
  16 <= q -> range_pages 0x1000 (0x4800 + 0x200) q || range_pages 0x500 (0x500 + 4096) q = false.
Proof.
  intros Hq. unfold range_pages.
  change ((0x4800 + 0x200 + 4095) / 4096) with 5. change ((0x500 + 4096 + 4095) / 4096) with 2.
  destruct (Z.ltb_spec q 5), (Z.ltb_spec q 2); lia || by rewrite !andb_false_r.
Qed.

Lemma boot_kernel_ok :
  exists m, kmem_ok (KernelMemory small_heap m) [] /\ spare m = 24%nat.
Proof.
  destruct (init_paging_spec boot_machine 0x1000 0x4800 0x200 0x500 boot_memory_ok eq_refl)
    as (m & d & Hinit & Hok & Hent); try (cbn; lia).
  - change (frames boot_machine) with boot_frames. rewrite boot_frames_left. vm_compute. lia.
  - exists (switch_on m d). split.
    + clear Hinit. constructor; cbn [system_heap space].
      * exact small_heap_rep.
      * done.
      * assert (forall p, ordinary p -> 16 <= p -> page_entry (switch_on m d) p = 0) as Hz.
        { intros p Hp Hlo. change (page_entry (switch_on m d) p) with (entry (switch_on m d) d p).
          rewrite Hent by done. by rewrite small_heap_above. }
        change (start small_heap / 4096) with 16.
        constructor; [by split| |]; unfold mapped; intros p; intros; rewrite Hz in *; done.
      * done.
    + assert (match init_paging boot_machine 0x1000 0x4800 0x200 0x500 with
              | Done m' => frames_left (frames m') = 24%nat | _ => False end) as Hl by (vm_compute; reflexivity).
      rewrite Hinit in Hl. exact Hl.
Qed.

Lemma small_request m size align :
  spare m = 24%nat -> 0 <= size <= 8192 -> 0 <= align <= 4096 ->
  request_fits (KernelMemory small_heap m) [] size align.
Proof.
  intros Hsp Hs Ha. unfold request_fits, frames_needed, HEAP_LIMIT. cbn [system_heap space small_heap].
  rewrite Hsp. assert ((size + 4095) / 4096 < 3) by (apply Z.div_lt_upper_bound; lia).
  simpl. repeat split; lia.
Qed.

Lemma boot_kernel_two :
  exists s, kmem_ok s [HeapEntry 0x10000 100] /\ (frames_needed 40 <= spare (space s))%nat.
Proof.
  destruct boot_kernel_ok as (m & Hok & Hsp).
  pose proof (small_request m 100 1 Hsp ltac:(lia) ltac:(lia)) as Hreq.
  destruct (kmalloc_common_spec _ _ 100 1 Hok Hreq) as (s & Hk & Hok' & _ & Hsp' & _).
  exists s. split; [exact Hok'|]. cbn [space] in Hsp'. rewrite Hsp in Hsp'.
  change (frames_needed 100) with 4%nat in Hsp'. change (frames_needed 40) with 4%nat. lia.
Qed.

Lemma alloc_no_map_refines_witness :
  exists a h', alloc_no_map 100 64 (Heap 2 8 0x10000 0x120
      ([HeapEntry 0x10000 0x20; HeapEntry 0x20000 0x100] ++ replicate 6 no_entry) false 0 0 true)
    = Done (a, h') /\ a mod 64 = 0.
Proof.
  destruct (alloc_no_map_refines (Heap 2 8 0x10000 0x120
      ([HeapEntry 0x10000 0x20; HeapEntry 0x20000 0x100] ++ replicate 6 no_entry) false 0 0 true)
      [HeapEntry 0x10000 0x20; HeapEntry 0x20000 0x100] 100 64)
    as (a & h' & p & q & Ha & _ & _ & _ & _ & Hal).
  - constructor; try done. by exists 5%nat.
  - simpl. lia.
  - unfold room. simpl. unfold block_end. simpl. lia.
  - exists a, h'. split; [exact Ha|]. apply (Hal 6); [discriminate|reflexivity|lia].
Defined.

Lemma free_alloc_no_map_witness :
  exists h'', free_no_map 0x10000 (Heap 1 8 0x10000 100 (HeapEntry 0x10000 100 :: replicate 7 no_entry)
      false 100 100 true) = Done h'' /\ used_memory h'' = 0.
Proof.
  destruct (free_alloc_no_map small_heap [] 100 1 0x10000
      (Heap 1 8 0x10000 100 (HeapEntry 0x10000 100 :: replicate 7 no_entry) false 100 100 true)
      small_heap_rep) as (h'' & Hf & _ & Hu).
  - simpl. lia.
  - unfold room. simpl. lia.
  - constructor.
  - lia.
  - reflexivity.
  - exists h''. split; [exact Hf|exact Hu].
Defined.



Lemma krealloc_common_in_place_witness :
  exists s s', kmem_ok s [HeapEntry 0x10000 100] /\
    krealloc_common 0x10000 40 1 s = Done (0x10000, s') /\ kmem_ok s' [HeapEntry 0x10000 40].
Proof.
  destruct boot_kernel_two as (s & Hok & Hsp).
  destruct (krealloc_common_in_place s [] (HeapEntry 0x10000 100) [] 40 1 Hok) as (s' & Hr & Hok' & _).
  - constructor.
  - lia.
  - vm_compute. discriminate.
  - simpl. lia.
  - exact Hsp.
  - exists s, s'. split; [exact Hok|]. split; [exact Hr|exact Hok'].
Defined.
