(* ===== verification/AddressSpace.v ===== *)
(** * Address spaces of processes ([clone_kernel_page_directory] of kernel/src/mem/vmm.c)

    A process gets a copy of the kernel's directory and of every page table in it.  The
    copies are written through the kernel's own address space, whose tables the
    recursive slot shows (Paging.v).  The blocks that the heap hands out, each a page, are
    arguments, and they are mapped already. *)
From Stdlib Require Import ZArith Lia.
From stdpp Require Import base list gmap numbers.
From S2P Require Import Prelude Pmm Frames Paging.

#[local] Open Scope Z_scope.

Definition PAGE_ACCESSED : Z := 32.
Definition PAGE_DIRTY : Z := 64.

Section Clone.
Context {F : Type} `{FrameAlloc F}.

(** [memcpy] of words. *)
Fixpoint copy_words (n : nat) (m : machine F) (dst src : Z) : outcome (machine F) :=
  match n with
  | O => Done m
  | S n' => w ← vread m src; m' ← vwrite m dst w; copy_words n' m' (dst + 4) (src + 4)
  end.

(** Forgets that pages were used, and looks for one that belongs to the user. *)
Fixpoint clean_table (n : nat) (m : machine F) (p : Z) (has_user_page : bool) : outcome (bool * machine F) :=
  match n with
  | O => Done (has_user_page, m)
  | S n' =>
      w ← vread m p;
      m' ← vwrite m p (Z.ldiff w (Z.lor PAGE_DIRTY PAGE_ACCESSED));
      clean_table n' m' (p + 4) (has_user_page || negb (Z.land w PAGE_USER =? 0))
  end.

(** The first loop: a block for every slot in use, from those that the heap gives; the
    other elements of [virts_out] stay as they are. *)
Fixpoint take_tables (n : nat) (m : machine F) (i : Z) (fresh virts_out : list Z) : outcome (list Z) :=
  match n with
  | O => Done virts_out
  | S n' =>
      e ← vread m (get_kernel_page_directory m + 4 * i);
      if e =? 0 then take_tables n' m (i + 1) fresh virts_out
      else
        match fresh with
        | [] => Fault
        | page_table :: fresh' =>
            virts_out ← array_set virts_out i page_table; take_tables n' m (i + 1) fresh' virts_out
        end
  end.

(** The copy of the table in slot [i]. *)
Definition clone_table (m : machine F) (page_dir i page_table : Z) : outcome (machine F) :=
  physaddr_pt ← virt2phys m (get_kernel_page_directory m) page_table;
  m ← copy_words 1024 m page_table (page_directory_start + i * PAGE_SIZE);
  r ← clean_table 1024 m page_table false;
  let '(has_user_page, m) := (r : bool * machine F) in
  let pde := Z.lor (Z.lor physaddr_pt PAGE_PRESENT) PAGE_WRITEABLE in
  vwrite m (page_dir + 4 * i) (if has_user_page then Z.lor pde PAGE_USER else pde).

(** The second loop. *)
Fixpoint clone_tables (n : nat) (m : machine F) (page_dir i : Z) (virts_out : list Z) : outcome (machine F) :=
  match n with
  | O => Done m
  | S n' =>
      e ← vread m (get_kernel_page_directory m + 4 * i);
      m ← (if e =? 0 then Done m
           else page_table ← array_get virts_out i; clone_table m page_dir i page_table);
      clone_tables n' m page_dir (i + 1) virts_out
  end.

(** The elements of [virts_out] afterwards, and the machine. *)
Definition clone_kernel_page_directory (m : machine F) (page_dir : Z) (fresh virts_out : list Z)
    : outcome (list Z * machine F) :=
  m ← vzero m page_dir 1024;
  physaddr ← virt2phys m (get_kernel_page_directory m) page_dir;
  virts_out ← take_tables 1023 m 0 fresh virts_out;
  m ← clone_tables 1023 m page_dir 0 virts_out;
  m ← vwrite m (page_dir + 4 * 1023) (Z.lor physaddr 3);
  Done (virts_out, m).

End Clone.

(** ** Writing data pages *)

Section Data.
Context {F : Type} `{FrameAllocLaws F}.
Implicit Types (m : machine F) (d : Z).

(** Page [p] is mapped to frame [k], which is no part of the tables. *)
Record data_page m d (p k : Z) : Prop := DataPage {
  dp_ordinary : ordinary p;
  dp_frame : 0 <= k < 2 ^ 20;
  dp_entry : exists f, 0 <= f < 1024 /\ entry m d p = Z.lor (4096 * k) (Z.lor f 1);
  dp_free : ~ owned m d (4096 * k)
}.

(** [m'] differs from [m] in the words of the frames [ks] only. *)
Record kept (ks : list Z) m m' : Prop := Kept {
  kept_read : forall t i, t ∉ ks -> 0 <= i < 1024 -> pread m' (4096 * t + 4 * i) = pread m (4096 * t + 4 * i);
  kept_cr3 : cr3 m' = cr3 m;
  kept_paging : paging_initialized m' = paging_initialized m;
  kept_kdir : kernel_page_directory m' = kernel_page_directory m;
  kept_frames : frames m' = frames m;
  kept_words : (forall a, 0 <= pread m a < 2 ^ 32) -> forall a, 0 <= pread m' a < 2 ^ 32
}.

Lemma kept_refl ks m : kept ks m m.
Proof. by constructor. Qed.

Lemma kept_trans ks m1 m2 m3 : kept ks m1 m2 -> kept ks m2 m3 -> kept ks m1 m3.
Proof.
  intros [R1 ? ? ? ? W1] [R2 ? ? ? ? W2]. constructor; try congruence; [|auto].
  intros t i Ht Hi. by rewrite R2, R1.
Qed.

Lemma kept_weaken (ks ks' : list Z) m m' : (forall k, k ∈ ks -> k ∈ ks') -> kept ks m m' -> kept ks' m m'.
Proof. intros Hsub [R ? ? ? ? W]. constructor; try done. intros t i Ht Hi. apply R; [|done]. intros Hin. by apply Ht, Hsub. Qed.

Lemma kept_pwrite k m i x : 0 <= i < 1024 -> 0 <= x < 2 ^ 32 -> kept [k] m (pwrite m (4096 * k + 4 * i) x).
Proof.
  intros Hi Hx. constructor; try done.
  - intros t j Ht Hj. rewrite pread_pwrite_slot by done. destruct (Z.eqb_spec t k) as [->|]; [|done].
    exfalso. apply Ht. apply list_elem_of_here.
  - intros Hw. by apply words_pwrite.
Qed.

Definition no_table (ks : list Z) m d : Prop := forall k, k ∈ ks -> ~ owned m d (4096 * k).

Lemma kept_pde ks m m' d i : space_ok m d -> kept ks m m' -> no_table ks m d -> 0 <= i < 1024 -> pde m' d i = pde m d i.
Proof.
  intros Hok Hk Hn Hi. unfold pde. destruct (so_dir _ _ Hok) as (t & -> & Ht). apply (kept_read _ _ _ Hk); [|done].
  intros Hin. apply (Hn _ Hin). by left.
Qed.

Lemma kept_space ks m m' d :
  space_ok m d -> kept ks m m' -> no_table ks m d ->
  space_ok m' d /\ no_table ks m' d /\ (forall i, 0 <= i < 1024 -> pde m' d i = pde m d i) /\
  (forall i j, 0 <= i < 1023 -> 0 <= j < 1024 -> present (pde m d i) = true ->
     pread m' (table m d i + 4 * j) = pread m (table m d i + 4 * j)) /\
  (forall q, ordinary q -> entry m' d q = entry m d q).
Proof.
  intros Hok Hk Hn. pose proof (fun i Hi => kept_pde ks m m' d i Hok Hk Hn Hi) as Hpde.
  assert (forall i j, 0 <= i < 1023 -> 0 <= j < 1024 -> present (pde m d i) = true ->
     pread m' (table m d i + 4 * j) = pread m (table m d i + 4 * j)) as Htab.
  { intros i j Hi Hj Hp. destruct (table_page m d i Hok) as (t & Ht & _). rewrite Ht.
    apply (kept_read _ _ _ Hk); [|done]. intros Hin. apply (Hn _ Hin). right. by exists i. }
  split; [|split; [|split; [done|split; [done|]]]].
  - apply (space_ok_same_dir m); try apply Hk; try done. apply Hok.
  - intros k Hin Ho. apply (Hn k Hin). by rewrite (owned_same_dir m m') in Ho.
  - intros q Hq. destruct (ordinary_index q Hq) as [Hi Hj]. unfold entry, pte_addr. rewrite Hpde by lia.
    destruct (present (pde m d (q / 1024))) eqn:Hp; [|done].
    assert (table m' d (q / 1024) = table m d (q / 1024)) as -> by (unfold table; by rewrite Hpde by lia).
    by apply Htab.
Qed.

Lemma kept_data ks m m' d p k :
  space_ok m d -> kept ks m m' -> no_table ks m d -> data_page m d p k -> data_page m' d p k.
Proof.
  intros Hok Hk Hn [Ho Hf He Hfree]. destruct (kept_space ks m m' d Hok Hk Hn) as (_ & _ & Hpde & _ & Hent).
  constructor; [done|done|by rewrite Hent|]. intros Hown. apply Hfree. by rewrite (owned_same_dir m m') in Hown.
Qed.

Lemma flags_range f : 0 <= f < 1024 -> 0 <= Z.lor f 1 < 1024.
Proof. intros Hf. change 1024 with (2 ^ 10). apply lor_bound; lia. Qed.

Lemma data_page_value m d p k :
  data_page m d p k -> present (entry m d p) = true /\ page_base (entry m d p) = 4096 * k /\ mask_low10 (entry m d p) = 4096 * k.
Proof.
  intros [Ho Hk (f & Hf & ->) _]. pose proof (flags_range f Hf) as Hf'.
  rewrite Z.lor_assoc at 1. rewrite present_lor1. rewrite lor_page_flags by lia. split; [done|]. split; [apply page_base_flags; lia|].
  rewrite mask_low10_spec by lia. replace (4096 * k + Z.lor f 1) with (Z.lor f 1 + (4 * k) * 1024) by lia.
  rewrite Z.div_add, Z.div_small by lia. lia.
Qed.

(** Where an access to a data page goes. *)
Lemma reach_data m d p k i :
  space_ok m d -> paging_initialized m = true -> data_page m d p k -> 0 <= i < 1024 ->
  translate m (4096 * p + 4 * i) = Some (4096 * k + 4 * i).
Proof.
  intros Hok Hpg Hdp Hi. destruct (data_page_value m d p k Hdp) as (Hp & Hb & _).
  unfold translate. rewrite Hpg, (walk_entry m d) by (done || lia || apply Hdp). by rewrite Hp, Hb.
Qed.

Lemma virt2phys_data m d p k :
  space_ok m d -> data_page m d p k -> virt2phys m (get_kernel_page_directory m) (4096 * p) = Done (4096 * k).
Proof.
  intros Hok Hdp. rewrite <- (Z.add_0_r (4096 * p)), (virt2phys_spec m d) by (done || apply Hdp).
  by destruct (data_page_value m d p k Hdp) as (_ & _ & ->).
Qed.

(** ** Copying one table *)

Lemma one_table m d p k : data_page m d p k -> no_table [k] m d.
Proof. intros Hdp k' ->%list_elem_of_singleton. apply Hdp. Qed.

Lemma vwrite_data m d p k i x :
  space_ok m d -> paging_initialized m = true -> data_page m d p k -> 0 <= i < 1024 ->
  vwrite m (4096 * p + 4 * i) x = Done (pwrite m (4096 * k + 4 * i) x).
Proof. intros Hok Hpg Hdp Hi. unfold vwrite. by rewrite (reach_data m d p k). Qed.

Lemma vread_data m d p k i :
  space_ok m d -> paging_initialized m = true -> data_page m d p k -> 0 <= i < 1024 ->
  vread m (4096 * p + 4 * i) = Done (pread m (4096 * k + 4 * i)).
Proof. intros Hok Hpg Hdp Hi. unfold vread. by rewrite (reach_data m d p k). Qed.

(** The directory's table [i] through the recursive slot. *)
Lemma vread_table m d i j :
  space_ok m d -> paging_initialized m = true -> 0 <= i < 1023 -> 0 <= j < 1024 -> present (pde m d i) = true ->
  vread m (page_directory_start + i * PAGE_SIZE + 4 * j) = Done (pread m (table m d i + 4 * j)).
Proof.
  intros Hok Hpg Hi Hj Hp. unfold vread. pose proof (reach_table m d i j Hok ltac:(lia) Hj Hp ltac:(lia)) as Hr.
  unfold pt_ptr in Hr. rewrite Hpg in Hr. replace (page_directory_start + i * PAGE_SIZE) with (page_directory_start + 4096 * i)
    by (unfold PAGE_SIZE; lia). by rewrite Hr.
Qed.

Lemma write_step m d p k j x :
  space_ok m d -> paging_initialized m = true -> data_page m d p k -> 0 <= j < 1024 -> 0 <= x < 2 ^ 32 ->
  let m1 := pwrite m (4096 * k + 4 * j) x in
  kept [k] m m1 /\ space_ok m1 d /\ paging_initialized m1 = true /\ data_page m1 d p k /\
  forall i, 0 <= i < 1024 -> pread m1 (4096 * k + 4 * i) = if i =? j then x else pread m (4096 * k + 4 * i).
Proof.
  intros Hok Hpg Hdp Hj Hx m1. assert (kept [k] m m1) as Hk by by apply kept_pwrite.
  pose proof (one_table m d p k Hdp) as Hn. destruct (kept_space [k] m m1 d Hok Hk Hn) as (Hok1 & _).
  split; [done|]. split; [done|]. split; [done|]. split; [by apply (kept_data [k] m)|].
  intros i Hi. unfold m1. rewrite pread_pwrite_slot by done. by rewrite Z.eqb_refl.
Qed.

Lemma copy_table_words_spec n j m d p k i :
  space_ok m d -> paging_initialized m = true -> data_page m d p k -> 0 <= i < 1023 -> present (pde m d i) = true ->
  0 <= j -> j + Z.of_nat n <= 1024 ->
  exists m', copy_words n m (4096 * p + 4 * j) (page_directory_start + i * PAGE_SIZE + 4 * j) = Done m' /\ kept [k] m m' /\
    forall a, 0 <= a < 1024 -> pread m' (4096 * k + 4 * a) =
      if (j <=? a) && (a <? j + Z.of_nat n) then pread m (table m d i + 4 * a) else pread m (4096 * k + 4 * a).
Proof.
  revert j m. induction n as [|n IH]; intros j m Hok Hpg Hdp Hi Hp Hj Hn; cbn [copy_words].
  { exists m. split; [done|]. split; [apply kept_refl|]. intros a Ha.
    destruct (Z.leb_spec j a), (Z.ltb_spec a (j + Z.of_nat 0)); done || lia. }
  rewrite (vread_table m d) by (done || lia). cbn [mbind outcome_bind].
  rewrite (vwrite_data m d p k) by (done || lia). cbn [mbind outcome_bind].
  destruct (write_step m d p k j (pread m (table m d i + 4 * j)) Hok Hpg Hdp ltac:(lia) ltac:(apply Hok)) as (Hk1 & Hok1 & Hpg1 & Hdp1 & Hr1).
  set (m1 := pwrite _ _ _) in *.
  destruct (kept_space [k] m m1 d Hok Hk1 (one_table m d p k Hdp)) as (_ & _ & Hpde & Htab & _).
  replace (4096 * p + 4 * j + 4) with (4096 * p + 4 * (j + 1)) by lia.
  replace (page_directory_start + i * PAGE_SIZE + 4 * j + 4) with (page_directory_start + i * PAGE_SIZE + 4 * (j + 1)) by lia.
  destruct (IH (j + 1) m1) as (m' & E & Hk' & Hr'); try done; try lia; [by rewrite Hpde by lia|].
  exists m'. split; [done|]. split; [by eapply kept_trans|]. intros a Ha. rewrite Hr' by done.
  assert (table m1 d i = table m d i) as -> by (unfold table; by rewrite Hpde by lia).
  rewrite Htab, Hr1 by (done || lia).
  destruct (Z.leb_spec (j + 1) a), (Z.leb_spec j a), (Z.ltb_spec a (j + 1 + Z.of_nat n)), (Z.ltb_spec a (j + Z.of_nat (S n))),
    (Z.eqb_spec a j); try lia; cbn [andb]; try done. by subst a.
Qed.

Definition cleaned (w : Z) : Z := Z.ldiff w (Z.lor PAGE_DIRTY PAGE_ACCESSED).
Definition user_word (w : Z) : bool := negb (Z.land w PAGE_USER =? 0).

Lemma cleaned_range w : 0 <= w < 2 ^ 32 -> 0 <= cleaned w < 2 ^ 32.
Proof.
  intros Hw. unfold cleaned. split; [apply Z.ldiff_nonneg; lia|].
  apply bits_bound; [apply Z.ldiff_nonneg; lia|lia|]. intros j Hj. by rewrite Z.ldiff_spec, (testbit_small w 32 j).
Qed.

Lemma clean_table_spec n j u m d p k :
  space_ok m d -> paging_initialized m = true -> data_page m d p k -> 0 <= j -> j + Z.of_nat n <= 1024 ->
  exists m', clean_table n m (4096 * p + 4 * j) u =
      Done (u || existsb (fun a => user_word (pread m (4096 * k + 4 * a))) (seqZ j (Z.of_nat n)), m') /\ kept [k] m m' /\
    forall a, 0 <= a < 1024 -> pread m' (4096 * k + 4 * a) =
      if (j <=? a) && (a <? j + Z.of_nat n) then cleaned (pread m (4096 * k + 4 * a)) else pread m (4096 * k + 4 * a).
Proof.
  revert j u m. induction n as [|n IH]; intros j u m Hok Hpg Hdp Hj Hn; cbn [clean_table].
  { exists m. rewrite orb_false_r. split; [done|]. split; [apply kept_refl|]. intros a Ha.
    destruct (Z.leb_spec j a), (Z.ltb_spec a (j + Z.of_nat 0)); done || lia. }
  rewrite (vread_data m d p k) by (done || lia). cbn [mbind outcome_bind].
  rewrite (vwrite_data m d p k) by (done || lia). cbn [mbind outcome_bind]. fold (cleaned (pread m (4096 * k + 4 * j))).
  destruct (write_step m d p k j (cleaned (pread m (4096 * k + 4 * j))) Hok Hpg Hdp ltac:(lia) ltac:(apply cleaned_range, Hok))
    as (Hk1 & Hok1 & Hpg1 & Hdp1 & Hr1).
  set (m1 := pwrite _ _ _) in *. replace (4096 * p + 4 * j + 4) with (4096 * p + 4 * (j + 1)) by lia.
  destruct (IH (j + 1) (u || user_word (pread m (4096 * k + 4 * j))) m1) as (m' & E & Hk' & Hr'); try done; try lia.
  exists m'. split; [|split; [by eapply kept_trans|]].
  - unfold user_word in E at 1. rewrite E. do 2 f_equal. rewrite (seqZ_cons j (Z.of_nat (S n))) by lia. cbn [existsb].
    rewrite orb_assoc. f_equal. replace (Z.pred (Z.of_nat (S n))) with (Z.of_nat n) by lia. apply eq_true_iff_eq.
    rewrite !existsb_exists. split; intros (a & Ha & Hu); exists a; (split; [done|]); apply list_elem_of_In in Ha;
      apply elem_of_seqZ in Ha; rewrite Hr1 in * by lia; destruct (Z.eqb_spec a j); done || lia.
  - intros a Ha. rewrite Hr' by done. rewrite Hr1 by done.
    destruct (Z.leb_spec (j + 1) a), (Z.leb_spec j a), (Z.ltb_spec a (j + 1 + Z.of_nat n)), (Z.ltb_spec a (j + Z.of_nat (S n))),
      (Z.eqb_spec a j); try lia; cbn [andb]; try done. by subst a.
Qed.

(** Some page of table [i] belongs to the user. *)
Definition user_table m d (i : Z) : bool := existsb (fun a => user_word (pread m (table m d i + 4 * a))) (seqZ 0 1024).

Definition new_pde (k : Z) (user : bool) : Z :=
  let pde := Z.lor (Z.lor (4096 * k) PAGE_PRESENT) PAGE_WRITEABLE in if user then Z.lor pde PAGE_USER else pde.

Lemma new_pde_spec k user : 0 <= k < 2 ^ 20 ->
  exists f, 0 <= f < 8 /\ f mod 2 = 1 /\ new_pde k user = 4096 * k + f /\ user_word (new_pde k user) = user.
Proof.
  intros Hk. unfold new_pde, PAGE_PRESENT, PAGE_WRITEABLE, PAGE_USER.
  assert (forall f, 0 <= f < 8 -> user_word (4096 * k + f) = user_word f) as Hu.
  { intros f Hf. unfold user_word, PAGE_USER. rewrite <- lor_page_flags by lia. rewrite Z.land_lor_distr_l.
    rewrite (Z.land_comm (4096 * k)). replace (Z.land 4 (4096 * k)) with 0; [by rewrite Z.lor_0_l|].
    symmetry. rewrite Z.land_comm. apply land_page_flags; lia. }
  destruct user; rewrite <- !Z.lor_assoc.
  - exists 7. change (Z.lor 1 (Z.lor 2 4)) with 7. rewrite lor_page_flags by lia. by rewrite Hu by lia.
  - exists 3. change (Z.lor 1 2) with 3. rewrite lor_page_flags by lia. by rewrite Hu by lia.
Qed.

Lemma existsb_ext {A} (f g : A -> bool) l : (forall x, x ∈ l -> f x = g x) -> existsb f l = existsb g l.
Proof.
  induction l as [|x l IH]; intros Hfg; [done|]. cbn. rewrite Hfg by apply list_elem_of_here. f_equal. apply IH.
  intros y Hy. apply Hfg. by apply list_elem_of_further.
Qed.

Lemma user_table_same m m' d i :
  table m' d i = table m d i -> (forall j, 0 <= j < 1024 -> pread m' (table m d i + 4 * j) = pread m (table m d i + 4 * j)) ->
  user_table m' d i = user_table m d i.
Proof.
  intros Ht Hr. unfold user_table. apply existsb_ext. intros a Ha. apply elem_of_seqZ in Ha. rewrite Ht, Hr by lia. done.
Qed.

Lemma clone_table_spec m d pd kd i p k :
  space_ok m d -> paging_initialized m = true -> data_page m d pd kd -> data_page m d p k -> k <> kd ->
  0 <= i < 1023 -> present (pde m d i) = true ->
  exists m', clone_table m (4096 * pd) i (4096 * p) = Done m' /\ kept [k; kd] m m' /\
    (forall a, 0 <= a < 1024 -> pread m' (4096 * k + 4 * a) = cleaned (pread m (table m d i + 4 * a))) /\
    (forall j, 0 <= j < 1024 -> pread m' (4096 * kd + 4 * j) =
       if j =? i then new_pde k (user_table m d i) else pread m (4096 * kd + 4 * j)).
Proof.
  intros Hok Hpg Hpd Hdp Hne Hi Hp. unfold clone_table. rewrite (virt2phys_data m d p k) by done. cbn [mbind outcome_bind].
  destruct (copy_table_words_spec 1024 0 m d p k i) as (m1 & E1 & Hk1 & Hr1); try done; try lia.
  rewrite !Z.mul_0_r, !Z.add_0_r in E1. rewrite E1. cbn [mbind outcome_bind].
  pose proof (one_table m d p k Hdp) as Hn. destruct (kept_space [k] m m1 d Hok Hk1 Hn) as (Hok1 & Hn1 & Hpde1 & Htab1 & _).
  assert (paging_initialized m1 = true) as Hpg1 by (by rewrite (kept_paging _ _ _ Hk1)).
  destruct (clean_table_spec 1024 0 false m1 d p k) as (m2 & E2 & Hk2 & Hr2); try done; try lia; [by apply (kept_data [k] m)|].
  rewrite Z.mul_0_r, Z.add_0_r in E2. rewrite E2. cbn [mbind outcome_bind orb].
  assert (existsb (fun a => user_word (pread m1 (4096 * k + 4 * a))) (seqZ 0 (Z.of_nat 1024)) = user_table m d i) as ->.
  { apply existsb_ext. intros a Ha. apply elem_of_seqZ in Ha. rewrite Hr1 by lia.
    destruct (Z.leb_spec 0 a), (Z.ltb_spec a (0 + Z.of_nat 1024)); done || lia. }
  assert (kept [k] m m2) as Hk12 by by eapply kept_trans. clear E1 E2.
  destruct (kept_space [k] m m2 d Hok Hk12 Hn) as (Hok2 & Hn2 & _).
  assert (data_page m2 d pd kd) as Hpd2 by (by apply (kept_data [k] m)).
  assert (paging_initialized m2 = true) as Hpg2 by (by rewrite (kept_paging _ _ _ Hk12)).
  fold (new_pde k (user_table m d i)). rewrite (vwrite_data m2 d pd kd) by (done || lia).
  destruct (new_pde_spec k (user_table m d i) (dp_frame _ _ _ _ Hdp)) as (f & Hf & _ & Hv & _). pose proof (dp_frame _ _ _ _ Hdp) as Hkr.
  destruct (write_step m2 d pd kd i (new_pde k (user_table m d i)) Hok2 Hpg2 Hpd2) as (Hk3 & _ & _ & _ & Hr3); [lia|lia|].
  eexists. split; [done|]. split; [|split].
  - apply (kept_trans _ m m2); (eapply kept_weaken; [|done]); intros x ->%list_elem_of_singleton;
      [apply list_elem_of_here|apply list_elem_of_further, list_elem_of_here].
  - intros a Ha. rewrite (kept_read _ _ _ Hk3) by (done || by intros ->%list_elem_of_singleton). rewrite Hr2, Hr1 by done.
    destruct (Z.leb_spec 0 a), (Z.ltb_spec a (0 + Z.of_nat 1024)); done || lia.
  - intros j Hj. rewrite Hr3 by done. destruct (j =? i); [done|].
    apply (kept_read _ _ _ Hk12); [|done]. intros ->%list_elem_of_singleton. done.
Qed.

(** ** All tables *)

(** The blocks are in place: [P] and [K] give page and frame of the block for a slot. *)
Record tables_ready m d (virts : list Z) (pd kd : Z) (P K : Z -> Z) : Prop := TablesReady {
  tr_dir : data_page m d pd kd;
  tr_page : forall x, 0 <= x < 1023 -> pde m d x <> 0 ->
    present (pde m d x) = true /\ virts !! Z.to_nat x = Some (4096 * P x) /\ data_page m d (P x) (K x) /\ K x <> kd;
  tr_apart : forall x y, 0 <= x < 1023 -> 0 <= y < 1023 -> pde m d x <> 0 -> pde m d y <> 0 -> K x = K y -> x = y
}.

Definition slots m d : list Z := filter (fun x => pde m d x <> 0) (seqZ 0 1023).
Definition new_frames m d kd K : list Z := kd :: map K (slots m d).

Lemma slots_spec m d x : x ∈ slots m d <-> 0 <= x < 1023 /\ pde m d x <> 0.
Proof. unfold slots. rewrite list_elem_of_filter, elem_of_seqZ. split; intros (? & ?); split; done || lia. Qed.

Lemma new_frames_spec m d kd K k :
  k ∈ new_frames m d kd K <-> k = kd \/ exists x, 0 <= x < 1023 /\ pde m d x <> 0 /\ k = K x.
Proof.
  unfold new_frames. rewrite elem_of_cons. split; (intros [->|Hx]; [by left|right]).
  - apply list_elem_of_fmap in Hx as (x & -> & Hx). apply slots_spec in Hx. exists x. tauto.
  - destruct Hx as (x & Hx & Hp & ->). apply list_elem_of_fmap. exists x. split; [done|]. by apply slots_spec.
Qed.

Lemma ready_no_table m d virts pd kd P K : tables_ready m d virts pd kd P K -> no_table (new_frames m d kd K) m d.
Proof.
  intros [Hd Hp _] k Hk. apply new_frames_spec in Hk as [->|(x & Hx & Hx0 & ->)]; [apply Hd|].
  destruct (Hp x Hx Hx0) as (_ & _ & Hdp & _). apply Hdp.
Qed.

Lemma ready_kept m m' d virts pd kd P K :
  space_ok m d -> tables_ready m d virts pd kd P K -> kept (new_frames m d kd K) m m' -> tables_ready m' d virts pd kd P K.
Proof.
  intros Hok Hr Hk. pose proof (ready_no_table _ _ _ _ _ _ _ Hr) as Hn.
  destruct (kept_space _ m m' d Hok Hk Hn) as (_ & _ & Hpde & _). destruct Hr as [Hd Hp Ha]. constructor.
  - by eapply kept_data.
  - intros x Hx. rewrite Hpde by lia. intros Hx0. destruct (Hp x Hx Hx0) as (? & ? & Hdp & ?). split_and!; try done. by eapply kept_data.
  - intros x y Hx Hy. rewrite !Hpde by lia. by apply Ha.
Qed.

Lemma array_get_at {A} (l : list A) i x : 0 <= i -> l !! Z.to_nat i = Some x -> array_get l i = Done x.
Proof. intros Hi Hl. by apply array_get_Done. Qed.

Lemma clone_tables_spec n i m d virts pd kd P K :
  space_ok m d -> paging_initialized m = true -> tables_ready m d virts pd kd P K -> 0 <= i -> i + Z.of_nat n = 1023 ->
  exists m', clone_tables n m (4096 * pd) i virts = Done m' /\ kept (new_frames m d kd K) m m' /\
    (forall x, 0 <= x < 1024 -> pread m' (4096 * kd + 4 * x) =
       if (i <=? x) && (x <? 1023) && negb (pde m d x =? 0) then new_pde (K x) (user_table m d x) else pread m (4096 * kd + 4 * x)) /\
    (forall x a, 0 <= x < 1023 -> pde m d x <> 0 -> 0 <= a < 1024 -> pread m' (4096 * K x + 4 * a) =
       if i <=? x then cleaned (pread m (table m d x + 4 * a)) else pread m (4096 * K x + 4 * a)).
Proof.
  revert i m. induction n as [|n IH]; intros i m Hok Hpg Hr Hi Hn; cbn [clone_tables].
  { exists m. split; [done|]. split; [apply kept_refl|]. split.
    - intros x Hx. destruct (Z.leb_spec i x), (Z.ltb_spec x 1023); done || lia.
    - intros x a Hx _ _. destruct (Z.leb_spec i x); done || lia. }
  rewrite (read_dir m d) by (done || lia). cbn [mbind outcome_bind]. destruct (Z.eqb_spec (pde m d i) 0) as [E0|E0].
  { cbn [mbind outcome_bind]. destruct (IH (i + 1) m) as (m' & E & Hk & Hd & Ht); try done; try lia.
    exists m'. split; [done|]. split; [done|]. split.
    - intros x Hx. rewrite Hd by done. destruct (Z.leb_spec (i + 1) x), (Z.leb_spec i x); try lia; try done.
      assert (x = i) as -> by lia. rewrite E0. cbn [Z.eqb negb andb]. by rewrite andb_false_r.
    - intros x a Hx Hx0 Ha. rewrite Ht by done. destruct (Z.leb_spec (i + 1) x), (Z.leb_spec i x); try lia; try done.
      by assert (x = i) as -> by lia. }
  destruct (tr_page _ _ _ _ _ _ _ Hr i ltac:(lia) E0) as (Hp & Hv & Hdp & Hne).
  rewrite (array_get_at virts i (4096 * P i)) by (done || lia). cbn [mbind outcome_bind].
  destruct (clone_table_spec m d pd kd i (P i) (K i)) as (m1 & E1 & Hk1 & Ht1 & Hd1); try done; try lia; [apply Hr|].
  rewrite E1. cbn [mbind outcome_bind].
  assert (kept (new_frames m d kd K) m m1) as Hk1'.
  { eapply kept_weaken; [|done]. intros k Hk. apply new_frames_spec.
    apply elem_of_cons in Hk as [-> | ->%list_elem_of_singleton]; [right; exists i; split; [lia|done]|by left]. }
  pose proof (ready_no_table _ _ _ _ _ _ _ Hr) as Hnt.
  destruct (kept_space _ m m1 d Hok Hk1' Hnt) as (Hok1 & _ & Hpde1 & Htab1 & _).
  assert (forall k, k ∈ new_frames m1 d kd K -> k ∈ new_frames m d kd K) as Hnf.
  { intros k. rewrite !new_frames_spec. intros [->|(x & Hx & Hx0 & ->)]; [by left|right]. exists x.
    rewrite Hpde1 in Hx0 by lia. done. }
  destruct (IH (i + 1) m1) as (m' & E & Hk & Hd & Ht); try done; try lia;
    [by rewrite (kept_paging _ _ _ Hk1)|by apply (ready_kept m)|].
  apply (kept_weaken _ _ _ _ Hnf) in Hk. exists m'. split; [done|]. split; [by eapply kept_trans|].
  assert (forall x, 0 <= x < 1023 -> table m1 d x = table m d x) as Htb by (intros x Hx; unfold table; by rewrite Hpde1 by lia).
  split.
  - intros x Hx. rewrite Hd, Hd1 by done. destruct (Z.ltb_spec x 1023); [|rewrite !andb_false_r; destruct (Z.eqb_spec x i); [lia|done]].
    rewrite !andb_true_r, Hpde1 by lia. destruct (Z.leb_spec (i + 1) x), (Z.leb_spec i x), (Z.eqb_spec x i); try lia; cbn [andb]; try done.
    + destruct (Z.eqb_spec (pde m d x) 0) as [|Hx0]; [done|]. cbn [negb]. f_equal.
      destruct (tr_page _ _ _ _ _ _ _ Hr x ltac:(lia) Hx0) as (Hpx & _). apply user_table_same; [apply Htb; lia|].
      intros j Hj. apply Htab1; done || lia.
    + subst x. by destruct (Z.eqb_spec (pde m d i) 0).
  - intros x a Hx Hx0 Ha. destruct (tr_page _ _ _ _ _ _ _ Hr x ltac:(lia) Hx0) as (Hpx & _ & _ & Hxne).
    rewrite Ht by (done || by rewrite Hpde1 by lia). rewrite Htb, Htab1 by done.
    destruct (Z.leb_spec (i + 1) x), (Z.leb_spec i x); try lia; try done.
    + assert (x = i) as -> by lia. by apply Ht1.
    + apply (kept_read _ _ _ Hk1); [|done]. intros Hin.
      apply elem_of_cons in Hin as [Hin|Hin%list_elem_of_singleton]; [|done].
      apply (tr_apart _ _ _ _ _ _ _ Hr) in Hin; done || lia.
Qed.

Lemma list_eq_filter {A} (P Q : A -> Prop) `{forall x, Decision (P x), forall x, Decision (Q x)} (l : list A) :
  (forall x, x ∈ l -> P x <-> Q x) -> filter P l = filter Q l.
Proof.
  induction l as [|x l IH]; intros HPQ; [done|]. assert (filter P l = filter Q l) as E.
  { apply IH. intros y Hy. apply HPQ. by apply list_elem_of_further. }
  pose proof (HPQ x (list_elem_of_here _ _)) as Hx. destruct (decide (P x)).
  - rewrite !list.filter_cons_True by tauto. by rewrite E.
  - rewrite !list.filter_cons_False by tauto. done.
Qed.

(** The first loop gives every slot in use a block of its own: [N] numbers the blocks. *)
Lemma take_tables_spec n i m d fresh virts :
  space_ok m d -> 0 <= i -> i + Z.of_nat n = 1023 -> length virts = 1024%nat ->
  (length (filter (fun x => pde m d x <> 0%Z) (seqZ i (Z.of_nat n))) <= length fresh)%nat ->
  exists virts' (N : Z -> nat), take_tables n m i fresh virts = Done virts' /\ length virts' = 1024%nat /\
    (forall x, 0 <= x < i -> virts' !! Z.to_nat x = virts !! Z.to_nat x) /\
    (forall x, i <= x < 1023 -> pde m d x <> 0 -> exists v, fresh !! N x = Some v /\ virts' !! Z.to_nat x = Some v) /\
    (forall x y, i <= x < 1023 -> i <= y < 1023 -> pde m d x <> 0 -> pde m d y <> 0 -> N x = N y -> x = y).
Proof.
  revert i fresh virts. induction n as [|n IH]; intros i fresh virts Hok Hi Hn Hl Hf; cbn [take_tables].
  { exists virts, (fun _ => 0%nat). split_and!; done || lia. }
  rewrite (read_dir m d) by (done || lia). cbn [mbind outcome_bind].
  rewrite (seqZ_cons i (Z.of_nat (S n))) in Hf by lia. replace (Z.pred (Z.of_nat (S n))) with (Z.of_nat n) in Hf by lia.
  change (Z.succ i) with (i + 1) in Hf. destruct (Z.eqb_spec (pde m d i) 0) as [E0|E0].
  - rewrite list.filter_cons_False in Hf by (by intros Hx).
    destruct (IH (i + 1) fresh virts) as (v' & N & E & Hl' & Hlow & Hin & Hinj); try done; try lia.
    exists v', N. split; [done|]. split; [done|]. split; [intros x Hx; apply Hlow; lia|]. split.
    + intros x Hx Hx0. apply Hin; [|done]. destruct (decide (x = i)); [subst; done|lia].
    + intros x y Hx Hy Hx0 Hy0. apply Hinj; try done; [destruct (decide (x = i))|destruct (decide (y = i))]; subst; done || lia.
  - rewrite list.filter_cons_True in Hf by done. destruct fresh as [|v fresh]; [cbn in Hf; lia|]. cbn [length] in Hf.
    rewrite array_set_in_range by lia. cbn [mbind outcome_bind].
    destruct (IH (i + 1) fresh (<[Z.to_nat i := v]> virts)) as (v' & N & E & Hl' & Hlow & Hin & Hinj); try done; try lia;
      [by rewrite length_insert|].
    exists v', (fun x => if x =? i then 0%nat else S (N x)). split; [done|]. split; [done|]. split; [|split].
    + intros x Hx. rewrite Hlow by lia. by rewrite list_lookup_insert_ne by lia.
    + intros x Hx Hx0. destruct (Z.eqb_spec x i) as [->|]; [|apply Hin; done || lia].
      exists v. split; [done|]. rewrite Hlow by lia. by rewrite list_lookup_insert_eq by lia.
    + intros x y Hx Hy Hx0 Hy0. destruct (Z.eqb_spec x i), (Z.eqb_spec y i); try done; try congruence.
      intros [= HN]. apply Hinj; done || lia.
Qed.

Definition in_space (c : Z) (m : machine F) : machine F :=
  Machine (words m) c (paging_initialized m) (kernel_page_directory m) (frames m).

Lemma cleaned_same w : present (cleaned w) = present w /\ page_base (cleaned w) = page_base w.
Proof.
  unfold cleaned, present, page_base. rewrite !Z.ldiff_land, <- !Z.land_assoc.
  split; [do 2 f_equal|f_equal]; reflexivity.
Qed.

Lemma pde_flags k f : 0 <= k < 2 ^ 20 -> 0 <= f < 8 -> f mod 2 = 1 -> present (4096 * k + f) = true /\ page_base (4096 * k + f) = 4096 * k.
Proof.
  intros Hk Hf Hodd. split; [|apply page_base_flags; lia]. rewrite present_spec.
  replace (4096 * k + f) with (f + (2048 * k) * 2) by lia. by rewrite Z.mod_add, Hodd.
Qed.

(** The blocks that the heap gives: page and frame. *)
Record blocks_ok m d (pd kd : Z) (blocks : list (Z * Z)) : Prop := BlocksOk {
  bo_dir : data_page m d pd kd;
  bo_pages : Forall (fun b => data_page m d (fst b) (snd b)) blocks;
  bo_apart : NoDup (kd :: map snd blocks);
  bo_enough : (length (slots m d) <= length blocks)%nat
}.

Definition used_slots_present m d : Prop :=
  forall x, 0 <= x < 1023 -> pde m d x <> 0 -> present (pde m d x) = true.

(** The new directory, cleared. *)
Lemma clear_directory m d pd kd :
  space_ok m d -> paging_initialized m = true -> data_page m d pd kd ->
  exists m0, vzero m (4096 * pd) 1024 = Done m0 /\ kept [kd] m m0 /\
    forall i, 0 <= i < 1024 -> pread m0 (4096 * kd + 4 * i) = 0.
Proof.
  intros Hok Hpg Hdir.
  assert (forall m1, same_but kd m m1 -> (forall a, 0 <= pread m1 a < 2 ^ 32) -> kept [kd] m m1) as Hkept.
  { intros m1 [R ? ? ? ?] Hw. constructor; try done. intros t j Ht Hj. apply R; [|done]. intros ->. apply Ht, list_elem_of_here. }
  destruct (vzero_spec 1024 kd (4096 * pd) 0 m) as (m0 & E0 & Hs0 & Hw0 & Hz0 & _); [|apply Hok|lia|lia|].
  { intros m1 Hs Hw i Hi. pose proof (Hkept m1 Hs Hw) as Hk. pose proof (one_table m d pd kd Hdir) as Hn.
    destruct (kept_space [kd] m m1 d Hok Hk Hn) as (Hok1 & _).
    apply (reach_data m1 d); try done; [by rewrite (kept_paging _ _ _ Hk)|exact (kept_data [kd] m m1 d pd kd Hok Hk Hn Hdir)]. }
  rewrite Z.mul_0_r, Z.add_0_r in E0. exists m0. split; [done|]. split; [by apply Hkept|]. intros i Hi. apply Hz0. lia.
Qed.

(** The first loop puts the blocks in place. *)
Lemma take_blocks m d pd kd blocks virts :
  space_ok m d -> blocks_ok m d pd kd blocks -> length virts = 1024%nat -> used_slots_present m d ->
  exists virts' P K, take_tables 1023 m 0 (map (fun b => 4096 * fst b) blocks) virts = Done virts' /\
    tables_ready m d virts' pd kd P K /\ forall x, 0 <= x < 1023 -> pde m d x <> 0 -> K x ∈ map snd blocks.
Proof.
  intros Hok [Hdir Hpages Hnd Henough] Hl Hpres.
  destruct (take_tables_spec 1023 0 m d (map (fun b => 4096 * fst b) blocks) virts) as (virts' & N & E1 & Hl1 & _ & Hin & Hinj); try done.
  { rewrite length_map. exact Henough. }
  set (blk := fun x => default (0, 0) (blocks !! N x)).
  assert (forall x, 0 <= x < 1023 -> pde m d x <> 0 ->
    blocks !! N x = Some (blk x) /\ virts' !! Z.to_nat x = Some (4096 * fst (blk x)) /\ data_page m d (fst (blk x)) (snd (blk x))) as Hblk.
  { intros x Hx Hx0. destruct (Hin x Hx Hx0) as (v & Hv & Hv').
    rewrite list_lookup_fmap in Hv. unfold blk. destruct (blocks !! N x) as [b|] eqn:Eb; [|done]. injection Hv as <-.
    split; [done|]. split; [done|]. by apply (Forall_lookup_1 _ _ _ _ Hpages) in Eb. }
  exists virts', (fun x => fst (blk x)), (fun x => snd (blk x)). split; [done|].
  apply list.NoDup_cons in Hnd as [Hkd Hnd]. split.
  2: { intros x Hx Hx0. destruct (Hblk x Hx Hx0) as (Eb & _). apply list_elem_of_fmap. exists (blk x). split; [done|]. by eapply list_elem_of_lookup_2. }
  constructor; [done| |].
  - intros x Hx Hx0. destruct (Hblk x Hx Hx0) as (Eb & Hv & Hdp). split_and!; [by apply Hpres|done|done|].
    intros E. apply Hkd. rewrite <- E. apply list_elem_of_fmap. exists (blk x). split; [done|]. by eapply list_elem_of_lookup_2.
  - intros x y Hx Hy Hx0 Hy0 E. apply Hinj; try done.
    destruct (Hblk x Hx Hx0) as (Ex & _). destruct (Hblk y Hy Hy0) as (Ey & _).
    eapply (NoDup_lookup _ _ _ (snd (blk x)) Hnd); rewrite list_lookup_fmap, ?Ex, ?Ey; cbn; by rewrite ?E.
Qed.

Lemma blocks_kept m m0 d pd kd blocks :
  space_ok m d -> kept [kd] m m0 -> blocks_ok m d pd kd blocks -> blocks_ok m0 d pd kd blocks.
Proof.
  intros Hok Hk [Hdir Hpages Hnd Henough]. pose proof (one_table m d pd kd Hdir) as Hn. constructor; [|  |done|].
  - exact (kept_data [kd] m m0 d pd kd Hok Hk Hn Hdir).
  - revert Hpages. apply Forall_impl. intros b Hb. exact (kept_data [kd] m m0 d _ _ Hok Hk Hn Hb).
  - destruct (kept_space [kd] m m0 d Hok Hk Hn) as (_ & _ & Hpde & _).
    etransitivity; [|exact Henough]. apply Nat.eq_le_incl. unfold slots. f_equal.
    apply list_eq_filter. intros x Hx. apply elem_of_seqZ in Hx. by rewrite Hpde by lia.
Qed.

Lemma bind_outcome {A B} (o : outcome A) (f : A -> outcome B) a : o = Done a -> (x ← o; f x) = f a.
Proof. by intros ->. Qed.

Lemma clone_run m d pd kd blocks virts :
  space_ok m d -> paging_initialized m = true -> blocks_ok m d pd kd blocks -> length virts = 1024%nat ->
  used_slots_present m d ->
  exists virts' m' K, clone_kernel_page_directory m (4096 * pd) (map (fun b => 4096 * fst b) blocks) virts = Done (virts', m') /\
    space_ok m' d /\ (forall q, ordinary q -> entry m' d q = entry m d q) /\
    (forall x, 0 <= x < 1023 -> pde m d x <> 0 -> 0 <= K x < 2 ^ 20 /\ ~ owned m d (4096 * K x)) /\
    (forall x, 0 <= x < 1024 -> pread m' (4096 * kd + 4 * x) =
       if x =? 1023 then Z.lor (4096 * kd) 3 else if pde m d x =? 0 then 0 else new_pde (K x) (user_table m d x)) /\
    (forall x a, 0 <= x < 1023 -> pde m d x <> 0 -> 0 <= a < 1024 ->
       pread m' (4096 * K x + 4 * a) = cleaned (pread m (table m d x + 4 * a))) /\
    kept (kd :: map snd blocks) m m'.
Proof.
  intros Hok Hpg Hb Hl Hpres. unfold clone_kernel_page_directory. pose proof (bo_dir _ _ _ _ _ Hb) as Hdir.
  destruct (clear_directory m d pd kd Hok Hpg Hdir) as (m0 & E0 & Hk0 & Hz0). rewrite (bind_outcome _ _ _ E0).
  pose proof (one_table m d pd kd Hdir) as Hn0. destruct (kept_space [kd] m m0 d Hok Hk0 Hn0) as (Hok0 & _ & Hpde0 & Htab0 & Hent0).
  assert (paging_initialized m0 = true) as Hpg0 by (by rewrite (kept_paging _ _ _ Hk0)).
  pose proof (blocks_kept m m0 d pd kd blocks Hok Hk0 Hb) as Hb0. pose proof (bo_dir _ _ _ _ _ Hb0) as Hdir0.
  rewrite (bind_outcome _ _ _ (virt2phys_data m0 d pd kd Hok0 Hdir0)).
  destruct (take_blocks m0 d pd kd blocks virts Hok0 Hb0 Hl) as (virts' & P & K & E1 & Hr & HKb).
  { intros x Hx. rewrite Hpde0 by lia. by apply Hpres. }
  rewrite (bind_outcome _ _ _ E1).
  destruct (clone_tables_spec 1023 0 m0 d virts' pd kd P K Hok0 Hpg0 Hr) as (m1 & E2 & Hk1 & Hd1 & Ht1); [lia|lia|].
  rewrite (bind_outcome _ _ _ E2). pose proof (ready_no_table _ _ _ _ _ _ _ Hr) as Hnt.
  destruct (kept_space _ m0 m1 d Hok0 Hk1 Hnt) as (Hok1 & _ & Hpde1 & _ & Hent1).
  pose proof (kept_data _ m0 m1 d pd kd Hok0 Hk1 Hnt Hdir0) as Hdir1.
  assert (paging_initialized m1 = true) as Hpg1 by (by rewrite (kept_paging _ _ _ Hk1)).
  rewrite (bind_outcome _ _ _ (vwrite_data m1 d pd kd 1023 _ Hok1 Hpg1 Hdir1 ltac:(lia))).
  pose proof (dp_frame _ _ _ _ Hdir) as Hkr.
  destruct (write_step m1 d pd kd 1023 (Z.lor (4096 * kd) 3) Hok1 Hpg1 Hdir1) as (Hk2 & Hok2 & _ & _ & Hr2); [lia|rewrite lor_page_flags; lia|].
  destruct (kept_space _ m1 _ d Hok1 Hk2 (one_table m1 d pd kd Hdir1)) as (_ & _ & _ & _ & Hent2).
  exists virts', (pwrite m1 (4096 * kd + 4 * 1023) (Z.lor (4096 * kd) 3)), K. split; [reflexivity|]. split; [exact Hok2|].
  split; [intros q Hq; by rewrite Hent2, Hent1, Hent0|]. split; [|split].
  - intros x Hx Hx0. destruct (tr_page _ _ _ _ _ _ _ Hr x Hx) as (_ & _ & Hdp & _); [by rewrite Hpde0 by lia|].
    split; [apply Hdp|]. intros Ho. apply (dp_free _ _ _ _ Hdp). by rewrite (owned_same_dir m m0).
  - intros x Hx. rewrite Hr2 by done. destruct (Z.eqb_spec x 1023); [done|]. rewrite Hd1, Hpde0 by lia.
    destruct (Z.leb_spec 0 x), (Z.ltb_spec x 1023); try lia. cbn [andb].
    destruct (Z.eqb_spec (pde m d x) 0) as [|Hx0]; cbn [negb]; [apply Hz0; lia|]. f_equal.
    apply user_table_same; [unfold table; by rewrite Hpde0 by lia|]. intros j Hj. apply Htab0; [lia|lia|]. apply Hpres; [lia|done].
  - split; [|apply (kept_trans _ m m0); [|apply (kept_trans _ m0 m1)]; (eapply kept_weaken; [|eassumption]);
      intros t Ht; [..|]; try (apply list_elem_of_singleton in Ht as ->; apply list_elem_of_here)].
    2: { apply new_frames_spec in Ht as [->|(x & Hx & Hx0 & ->)]; [apply list_elem_of_here|]. by apply list_elem_of_further, HKb. }
    intros x a Hx Hx0 Ha. assert (pde m0 d x <> 0) as Hx0' by (by rewrite Hpde0 by lia).
    destruct (tr_page _ _ _ _ _ _ _ Hr x Hx Hx0') as (_ & _ & _ & Hne).
    rewrite (kept_read _ _ _ Hk2) by (done || by intros E%list_elem_of_singleton). rewrite Ht1 by done.
    destruct (Z.leb_spec 0 x); [|lia].
    assert (table m0 d x = table m d x) as -> by (unfold table; by rewrite Hpde0 by lia).
    rewrite Htab0; [done|lia|lia|by apply Hpres].
Qed.

Lemma clone_spec (m : machine F) (d pd kd : Z) (blocks : list (Z * Z)) (virts : list Z)
    (Hok : space_ok m d) (Hon : paging_initialized m = true) (Hblocks : blocks_ok m d pd kd blocks)
    (Hvirts : length virts = 1024%nat)
    (Hpresent : used_slots_present m d) :
  exists virts' m', clone_kernel_page_directory m (4096 * pd) (map (fun b => 4096 * fst b) blocks) virts = Done (virts', m') /\
    (forall va, 0 <= va < page_directory_start -> walk (in_space (4096 * kd) m') va = walk m va) /\
    pde m' (4096 * kd) 1023 = Z.lor (4096 * kd) 3 /\
    (forall x, 0 <= x < 1023 -> pde m d x <> 0 ->
       ~ owned m d (table m' (4096 * kd) x) /\
       user_word (pde m' (4096 * kd) x) = user_table m d x) /\
    space_ok m' d /\ (forall q, ordinary q -> entry m' d q = entry m d q) /\
    kept (kd :: map snd blocks) m m'.
Proof.
  destruct (clone_run m d pd kd blocks virts Hok Hon Hblocks Hvirts Hpresent)
    as (virts' & m' & K & E & Hok' & Hent & HK & Hd & Ht & Hkept).
  exists virts', m'. split; [done|]. split; [|split; [|split; [|done]]].
  - intros va Hva. destruct (page_split_addr va) as [Ev Ho]. rewrite Ev. set (p := va / 4096) in *. set (o := va mod 4096) in *.
    assert (ordinary p) as Hp.
    { unfold ordinary, page_directory_start in *. split; [apply Z.div_pos; lia|apply Z.div_lt_upper_bound; lia]. }
    destruct (ordinary_index p Hp) as [Hx Hj]. rewrite (walk_page _ (4096 * kd)), (walk_page m d) by (done || by apply so_cr3).
    unfold pte_addr, table. unfold pde at 1 2 3. change (pread (in_space (4096 * kd) m')) with (pread m').
    rewrite Hd by lia. destruct (Z.eqb_spec (p / 1024) 1023); [lia|].
    destruct (Z.eqb_spec (pde m d (p / 1024)) 0) as [Ez|Hx0]; [rewrite Ez; done|].
    rewrite (Hpresent _ Hx Hx0). destruct (HK _ Hx Hx0) as [HKr _].
    destruct (new_pde_spec (K (p / 1024)) (user_table m d (p / 1024)) HKr) as (f & Hf & Hodd & -> & _).
    destruct (pde_flags _ f HKr Hf Hodd) as [-> ->]. rewrite Ht by done.
    destruct (cleaned_same (pread m (table m d (p / 1024) + 4 * (p mod 1024)))) as [-> ->]. done.
  - unfold pde. by rewrite Hd by lia.
  - intros x Hx Hx0. destruct (HK x Hx Hx0) as [HKr HKo]. unfold table, pde. rewrite !Hd by lia.
    destruct (Z.eqb_spec x 1023); [lia|]. destruct (Z.eqb_spec (pde m d x) 0); [done|].
    destruct (new_pde_spec (K x) (user_table m d x) HKr) as (f & Hf & Hodd & Ev & Hu). split; [|done].
    rewrite Ev. by destruct (pde_flags _ f HKr Hf Hodd) as [_ ->].
Qed.


End Data.

(** ** An instance *)

(** The kernel of Paging.v with two more pages: 8 for a directory, 9 for its only table. *)
Definition process_machine : outcome (machine pmm) :=
  m ← init_paging boot_machine 0x1000 0x4800 0x200 0x500;
  m ← map_single_page m (get_kernel_page_directory m) 0x10000 (4096 * 8 + 0) 2;
  map_single_page m (get_kernel_page_directory m) 0x11000 (4096 * 9 + 0) 2.

Definition process_machine_facts (m : machine pmm) : bool :=
  paging_initialized m && (cr3 m =? 0x6000) && bool_decide (pages_bitmap (frames m) = [255; 0; 0; 0])
  && present (pde m 0x6000 0) && forallb (fun x => pde m 0x6000 x =? 0) (seqZ 1 1022).

Lemma process_machine_ok :
  exists m, process_machine = Done m /\ space_ok m 0x6000 /\ process_machine_facts m = true /\
    entry m 0x6000 8 = pte_value 0x10000 2 /\ entry m 0x6000 9 = pte_value 0x11000 2.
Proof.
  destruct boot_space as (m & d & Hinit & Hok & Hl & _).
  destruct (map_single_page_spec m d 8 0 0x10000 2) as (m1 & E1 & Hok1 & Hst & _ & He1);
    [exact Hok|unfold ordinary; lia|lia|lia|lia|lia|].
  assert (0 < frames_left (frames m1))%nat as Hl1.
  { destruct Hst as [_ [[-> _]|(a & Ha)]]; [lia|]. pose proof (ft_left _ _ _ _ Ha). lia. }
  destruct (map_single_page_spec m1 d 9 0 0x11000 2) as (m2 & E2 & Hok2 & _ & _ & He2);
    [exact Hok1|unfold ordinary; lia|lia|lia|lia|exact Hl1|].
  assert (process_machine = Done m2) as E.
  { unfold process_machine. by rewrite (bind_outcome _ _ _ Hinit), (bind_outcome _ _ _ E1), E2. }
  assert (process_machine_facts m2 = true) as Hf.
  { assert (match process_machine with Done m => process_machine_facts m | _ => false end = true) as Hf by (vm_compute; reflexivity).
    by rewrite E in Hf. }
  assert (d = 0x6000) as ->.
  { pose proof Hf as Hf'. unfold process_machine_facts in Hf'.
    apply andb_true_iff in Hf' as [[[[Hp Hc%Z.eqb_eq]%andb_true_iff _]%andb_true_iff _]%andb_true_iff _].
    rewrite <- Hc. symmetry. by apply (so_cr3 _ _ Hok2). }
  exists m2. split; [done|]. split; [done|]. split; [done|]. split.
  - rewrite He2, He1 by (unfold ordinary; lia). done.
  - rewrite He2 by (unfold ordinary; lia). done.
Qed.

