(* ===== verification/Vector.v ===== *)
(** * Dynamic arrays (kernel/src/lib/libvector/src/vector.c)

    A vector is a buffer of words with a size and a capacity.  The allocator that
    provides the buffers is an interface: it may fail, a reallocated buffer keeps
    the words that still fit.  The operations are shown to implement the
    operations on lists. *)
From Stdlib Require Import ZArith Lia.
From stdpp Require Import base list gmap numbers.
From S2P Require Import Prelude.

#[local] Open Scope Z_scope.

(** ** Buffers *)

(** [calloc(n, size)] and [realloc(p, bytes)] on buffers of 4-byte words; [None]
    is the null pointer. *)
Class BufferAlloc := {
  calloc_words : Z -> Z -> option (list Z);
  realloc_words : list Z -> Z -> option (list Z)
}.

Class BufferAllocLaws `{BufferAlloc} := {
  calloc_zero : forall n size l, calloc_words n size = Some l ->
    l = replicate (Z.to_nat (n * size / 4)) 0;
  realloc_prefix : forall l bytes l', realloc_words l bytes = Some l' ->
    length l' = Z.to_nat (bytes / 4) /\
    forall i, (i < length l)%nat -> (i < length l')%nat -> l' !! i = l !! i
}.

(** No request fails. *)
Class BufferAllocTotal `{BufferAlloc} := {
  calloc_some : forall n size, is_Some (calloc_words n size);
  realloc_some : forall l bytes, is_Some (realloc_words l bytes)
}.

(** ** State and operations *)

Record vector_t := Vector { data : list Z; size : Z; capacity : Z }.

(** [vector_result_t]: an error, or an element. *)
Inductive vector_result_t :=
  | VEC_ERR
  | VEC_OK (element : Z).

Section Operations.
Context `{BufferAlloc}.

Definition vector_new : option vector_t :=
  match calloc_words 1 12 with
  | None => None
  | Some _ =>
      match calloc_words 1 4 with
      | None => None
      | Some d => Some (Vector d 0 1)
      end
  end.

Definition vector_resize (vec : vector_t) (n : Z) : vector_t :=
  match realloc_words (data vec) (u32 (4 * n)) with
  | None => vec
  | Some d => Vector d n n
  end.

Definition vector_push_back (vec : vector_t) (element : Z) : outcome vector_t :=
  let grown :=
    if capacity vec <=? size vec then
      let new_cap := u32 (capacity vec + u32 (capacity vec + 1) / 2) in
      match realloc_words (data vec) (u32 (4 * new_cap)) with
      | None => None
      | Some d => Some (Vector d (size vec) new_cap)
      end
    else Some vec in
  match grown with
  | None => Done vec
  | Some v =>
      d ← array_set (data v) (size v) element;
      Done (Vector d (u32 (size v + 1)) (capacity v))
  end.

Definition vector_pop_back (vec : vector_t) : outcome (vector_result_t * vector_t) :=
  if size vec =? 0 then Done (VEC_ERR, vec)
  else
    e ← array_get (data vec) (size vec - 1);
    Done (VEC_OK e, Vector (data vec) (size vec - 1) (capacity vec)).

Definition vector_get (vec : vector_t) (index : Z) : outcome vector_result_t :=
  if size vec <=? index then Done VEC_ERR
  else e ← array_get (data vec) index; Done (VEC_OK e).

Definition vector_erase_all (vec : vector_t) : vector_t :=
  match calloc_words 1 4 with
  | None => Vector [] 0 1
  | Some d => Vector d 0 1
  end.

(** [for (i = n; i < size - 1; i++) data[i] = data[i + 1];] *)
Fixpoint shift_left (k : nat) (d : list Z) (i : Z) : outcome (list Z) :=
  match k with
  | O => Done d
  | S k' => x ← array_get d (i + 1); d' ← array_set d i x; shift_left k' d' (i + 1)
  end.

Definition vector_erase_nth (vec : vector_t) (n : Z) : outcome (vector_result_t * vector_t) :=
  if size vec <=? n then Done (VEC_ERR, vec)
  else
    val ← array_get (data vec) n;
    d ← shift_left (Z.to_nat (size vec - 1 - n)) (data vec) n;
    Done (VEC_OK val, Vector d (size vec - 1) (capacity vec)).

(** [memcpy(new, original, 4 * capacity)]; the pointers are not checked. *)
Definition vector_clone (original : vector_t) : outcome vector_t :=
  match calloc_words 1 12, calloc_words (capacity original) 4 with
  | Some _, Some d =>
      let n := Z.to_nat (capacity original) in
      if (length d <? n)%nat || (length (data original) <? n)%nat then Fault
      else Done (Vector (take n (data original) ++ drop n d) (size original) (capacity original))
  | _, _ => Fault
  end.

(** The new size of the buffer is given in elements where [realloc] takes
    bytes. *)
Definition vector_shrink_fit (original : vector_t) : vector_t :=
  match realloc_words (data original) (size original) with
  | None => original
  | Some d => Vector d (size original) (size original)
  end.

Definition vector_swap (vec : vector_t) (first second : Z) : outcome vector_t :=
  if (size vec <=? first) || (size vec <=? second) then Done vec
  else
    b ← array_get (data vec) second;
    a ← array_get (data vec) first;
    d1 ← array_set (data vec) second a;
    d2 ← array_set d1 first b;
    Done (Vector d2 (size vec) (capacity vec)).

(** [for (i = size - 1; i > index; i--) data[i] = data[i - 1];] *)
Fixpoint shift_right (k : nat) (d : list Z) (i : Z) : outcome (list Z) :=
  match k with
  | O => Done d
  | S k' => x ← array_get d (i - 1); d' ← array_set d i x; shift_right k' d' (i - 1)
  end.

Definition vector_insert (vec : vector_t) (index value : Z) : outcome vector_t :=
  if size vec <=? index then Done vec
  else
    let v := vector_resize vec (u32 (size vec + 1)) in
    d ← shift_right (Z.to_nat (size v - 1 - index)) (data v) (size v - 1);
    d' ← array_set d index value;
    Done (Vector d' (size v) (capacity v)).
End Operations.

(** ** Vectors as lists *)

(** The vector [v] holds the elements [l]. *)
Record vec_rep (v : vector_t) (l : list Z) : Prop := VecRep {
  vr_elements : take (length l) (data v) = l;
  vr_size : size v = Z.of_nat (length l);
  vr_capacity : capacity v = Z.of_nat (length (data v));
  vr_fits : (length l <= length (data v))%nat;
  vr_positive : (0 < length (data v))%nat
}.

(** An element of the list is the word at its index, and vice versa. *)
Lemma rep_lookup v l i : vec_rep v l -> (i < length l)%nat -> data v !! i = l !! i.
Proof.
  intros Hrep Hi. rewrite <- (vr_elements _ _ Hrep). by rewrite lookup_take_lt.
Qed.

Lemma rep_split v l : vec_rep v l -> exists q, data v = l ++ q.
Proof.
  intros Hrep. exists (drop (length l) (data v)).
  rewrite <- (vr_elements _ _ Hrep) at 1. by rewrite take_drop.
Qed.

Lemma rep_intro d l q c :
  d = l ++ q -> (0 < length d)%nat -> c = Z.of_nat (length d) ->
  vec_rep (Vector d (Z.of_nat (length l)) c) l.
Proof.
  intros -> Hd ->. constructor; simpl; try done.
  - by rewrite take_app_length.
  - rewrite length_app. lia.
Qed.

Lemma shift_left_spec q p x r i :
  i = Z.of_nat (length p) ->
  exists y, shift_left (length q) (p ++ x :: q ++ r) i = Done (p ++ q ++ y :: r).
Proof.
  revert p x i. induction q as [|z q IH]; intros p x i Hi; [by exists x|].
  cbn [length shift_left app].
  replace (p ++ x :: z :: q ++ r) with ((p ++ [x]) ++ z :: q ++ r) by by rewrite <- app_assoc.
  rewrite array_get_seam by (rewrite length_app; simpl; lia). cbn [mbind outcome_bind].
  rewrite <- app_assoc. cbn [app]. rewrite array_set_seam by done. cbn [mbind outcome_bind].
  replace (p ++ z :: z :: q ++ r) with ((p ++ [z]) ++ z :: q ++ r) by by rewrite <- app_assoc.
  destruct (IH (p ++ [z]) z (i + 1)) as [y ->]; [rewrite length_app; simpl; lia|].
  exists y. by rewrite <- app_assoc.
Qed.

Lemma shift_right_spec q p y r i :
  i = Z.of_nat (length p + length q) ->
  exists x, shift_right (length q) (p ++ q ++ y :: r) i = Done (p ++ x :: q ++ r).
Proof.
  revert y r i. induction q as [|z q IH] using rev_ind; intros y r i Hi; [by exists y|].
  rewrite length_app in *. simpl in Hi. rewrite Nat.add_1_r. cbn [shift_right].
  rewrite <- (app_assoc q [z] (y :: r)). cbn [app]. rewrite (app_assoc p q (z :: y :: r)).
  rewrite (array_get_seam (p ++ q)) by (rewrite length_app; lia). cbn [mbind outcome_bind].
  replace ((p ++ q) ++ z :: y :: r) with (((p ++ q) ++ [z]) ++ y :: r) by by rewrite <- app_assoc.
  rewrite array_set_seam by (rewrite !length_app; simpl; lia). cbn [mbind outcome_bind].
  rewrite <- !app_assoc. cbn [app].
  destruct (IH z (z :: r) (i - 1)) as [x ->]; [lia|].
  exists x. by rewrite <- ?app_assoc.
Qed.

Section Refinement.
Context `{BufferAllocLaws, !BufferAllocTotal}.

(** A larger buffer keeps the elements. *)
Lemma realloc_grow v l n :
  vec_rep v l -> (length l <= Z.to_nat n)%nat -> 0 <= n -> 4 * n < 2 ^ 32 ->
  exists q, realloc_words (data v) (u32 (4 * n)) = Some (l ++ q) /\
    length (l ++ q) = Z.to_nat n.
Proof.
  intros Hrep Hle Hn Hmax. rewrite u32_small by lia.
  destruct (realloc_some (data v) (4 * n)) as [d Hd]. rewrite Hd.
  apply realloc_prefix in Hd as [Hlen Hpre].
  replace (4 * n / 4) with n in Hlen by (rewrite Z.mul_comm, Z.div_mul; lia).
  exists (drop (length l) d). pose proof (vr_fits _ _ Hrep).
  assert (d = l ++ drop (length l) d) as Hsplit.
  { rewrite <- (take_drop (length l) d) at 1. f_equal. apply list_eq. intros i.
    destruct (decide (i < length l)%nat).
    - rewrite lookup_take_lt by done. rewrite Hpre by lia. by apply rep_lookup.
    - rewrite lookup_take_ge by lia. symmetry. apply lookup_ge_None. lia. }
  by rewrite <- Hsplit.
Qed.

Lemma vector_new_rep : exists v, vector_new = Some v /\ vec_rep v [].
Proof.
  unfold vector_new. destruct (calloc_some 1 12) as [x ->].
  destruct (calloc_some 1 4) as [d Hd]. rewrite Hd. eexists. split; [done|].
  apply calloc_zero in Hd as ->. change (Z.to_nat (1 * 4 / 4)) with 1%nat.
  apply (rep_intro _ [] [0]); [done|simpl; lia|done].
Qed.

Lemma vector_push_back_rep v l x :
  vec_rep v l -> Z.of_nat (length l) < 2 ^ 29 ->
  exists v', vector_push_back v x = Done v' /\ vec_rep v' (l ++ [x]).
Proof.
  intros Hrep Hmax. pose proof Hrep as [He Hs Hc Hf Hp].
  assert (exists v1 y q, (if capacity v <=? size v then
      match realloc_words (data v) (u32 (4 * u32 (capacity v + u32 (capacity v + 1) / 2))) with
      | None => None
      | Some d => Some (Vector d (size v) (u32 (capacity v + u32 (capacity v + 1) / 2)))
      end else Some v) = Some v1 /\ data v1 = l ++ y :: q /\ size v1 = Z.of_nat (length l) /\
      capacity v1 = Z.of_nat (length (data v1)))
    as (v1 & y & q & Hgrow & Hd & Hsz & Hcap).
  { destruct (Z.leb_spec (capacity v) (size v)).
    - assert (1 <= (capacity v + 1) / 2 <= capacity v) as Hhalf.
      { split; [apply Z.div_le_lower_bound; lia|].
        assert ((capacity v + 1) / 2 < capacity v + 1); [|lia]. apply Z.div_lt_upper_bound; lia. }
      rewrite (u32_small (capacity v + 1)), (u32_small (capacity v + _)) by lia.
      destruct (realloc_grow v l (capacity v + (capacity v + 1) / 2) Hrep) as (q & Hq & Hlen); try lia.
      rewrite Hq. rewrite length_app in Hlen. destruct q as [|y q]; [simpl in *; lia|].
      eexists _, y, q. split; [done|]. split; [done|]. split; [done|].
      simpl. rewrite length_app. lia.
    - destruct (rep_split v l Hrep) as [q Hq]. rewrite Hq, length_app in Hc.
      destruct q as [|y q]; [simpl in *; lia|]. exists v, y, q. split_and!; try done. by rewrite Hq, length_app. }
  unfold vector_push_back. rewrite Hgrow, Hd, array_set_seam by done.
  cbn [mbind outcome_bind]. eexists. split; [done|].
  rewrite Hsz, u32_small by lia.
  replace (Z.of_nat (length l) + 1) with (Z.of_nat (length (l ++ [x]))) by (rewrite length_app; simpl; lia).
  apply (rep_intro _ (l ++ [x]) q); [by rewrite <- app_assoc|rewrite length_app; simpl; lia|].
  rewrite Hcap, Hd, !length_app. done.
Qed.

Lemma vector_pop_back_rep v l x :
  vec_rep v (l ++ [x]) ->
  exists v', vector_pop_back v = Done (VEC_OK x, v') /\ vec_rep v' l.
Proof.
  intros Hrep. pose proof Hrep as [He Hs Hc Hf Hp]. destruct (rep_split _ _ Hrep) as [q Hq].
  rewrite length_app in Hs. simpl in Hs. unfold vector_pop_back.
  destruct (Z.eqb_spec (size v) 0); [lia|]. rewrite Hq, <- app_assoc. cbn [app].
  rewrite array_get_seam by lia. cbn [mbind outcome_bind]. eexists. split; [done|].
  rewrite Hs. replace (Z.of_nat (length l + 1) - 1) with (Z.of_nat (length l)) by lia.
  apply (rep_intro _ l (x :: q)); [done|rewrite length_app; simpl; lia|].
  by rewrite Hc, Hq, <- app_assoc.
Qed.

Lemma vector_erase_nth_rep v p x q :
  vec_rep v (p ++ x :: q) ->
  exists v', vector_erase_nth v (Z.of_nat (length p)) = Done (VEC_OK x, v') /\ vec_rep v' (p ++ q).
Proof.
  intros Hrep. pose proof Hrep as [He Hs Hc Hf Hp]. destruct (rep_split _ _ Hrep) as [r Hr].
  rewrite length_app in Hs. simpl in Hs. unfold vector_erase_nth.
  destruct (Z.leb_spec (size v) (Z.of_nat (length p))); [lia|].
  rewrite Hr, <- app_assoc. cbn [app]. rewrite array_get_seam by done. cbn [mbind outcome_bind].
  replace (Z.to_nat (size v - 1 - Z.of_nat (length p))) with (length q) by lia.
  destruct (shift_left_spec q p x r (Z.of_nat (length p)) eq_refl) as [y ->].
  cbn [mbind outcome_bind]. eexists. split; [done|].
  replace (size v - 1) with (Z.of_nat (length (p ++ q))) by (rewrite length_app; lia).
  apply (rep_intro _ (p ++ q) (y :: r)); [by rewrite <- app_assoc|rewrite !length_app; simpl; lia|].
  rewrite Hc, Hr. repeat (rewrite ?length_app; cbn [length]). lia.
Qed.

Lemma vector_insert_rep v p x q y :
  vec_rep v (p ++ x :: q) -> Z.of_nat (length (p ++ x :: q)) + 1 < 2 ^ 29 ->
  exists v', vector_insert v (Z.of_nat (length p)) y = Done v' /\ vec_rep v' (p ++ y :: x :: q).
Proof.
  intros Hrep Hmax. pose proof Hrep as [He Hs Hc Hf Hp]. unfold vector_insert.
  assert (length (p ++ x :: q) = length p + S (length q))%nat as Hlen by by rewrite length_app.
  destruct (Z.leb_spec (size v) (Z.of_nat (length p))); [lia|].
  unfold vector_resize. rewrite (u32_small (size v + 1)) by lia.
  destruct (realloc_grow v _ (size v + 1) Hrep) as (r & -> & Hr); try lia.
  rewrite length_app, Hlen in Hr. destruct r as [|z [|? ?]]; [simpl in *; lia| |simpl in *; lia].
  cbn [data size capacity].
  replace (Z.to_nat (size v + 1 - 1 - Z.of_nat (length p))) with (length (x :: q)) by (simpl; lia).
  rewrite <- app_assoc.
  destruct (shift_right_spec (x :: q) p z [] (size v + 1 - 1)) as [w ->]; [simpl; lia|].
  cbn [mbind outcome_bind]. rewrite array_set_seam by done. cbn [mbind outcome_bind].
  eexists. split; [done|].
  replace (size v + 1) with (Z.of_nat (length (p ++ y :: x :: q))) by (rewrite length_app; simpl; lia).
  apply (rep_intro _ _ []); [by rewrite <- app_assoc|rewrite length_app; simpl; lia|].
  repeat (rewrite ?length_app; cbn [length]). rewrite length_app in Hs. simpl in Hs. lia.
Qed.

Lemma middle (l : list Z) n x : l !! n = Some x -> l = take n l ++ x :: drop (S n) l.
Proof. intros Hn. symmetry. by apply take_drop_middle. Qed.

Lemma take_length_lt (l : list Z) n x : l !! n = Some x -> length (take n l) = n.
Proof. intros Hn%lookup_lt_Some. rewrite length_take. lia. Qed.

Lemma size_bound v l n : vec_rep v l -> l !! n = None -> size v <= Z.of_nat n.
Proof. intros Hrep Hn%lookup_ge_None. rewrite (vr_size _ _ Hrep). lia. Qed.

Lemma size_inside v l n x : vec_rep v l -> l !! n = Some x -> Z.of_nat n < size v.
Proof. intros Hrep Hn%lookup_lt_Some. rewrite (vr_size _ _ Hrep). lia. Qed.

Lemma read_element v l n x :
  vec_rep v l -> l !! n = Some x -> array_get (data v) (Z.of_nat n) = Done x.
Proof.
  intros Hrep Hn. apply array_get_Done. split; [lia|]. rewrite Nat2Z.id.
  rewrite (rep_lookup v l) by (done || by apply lookup_lt_Some in Hn). done.
Qed.

Lemma vector_swap_rep v l i j a b :
  vec_rep v l -> l !! i = Some a -> l !! j = Some b ->
  exists v', vector_swap v (Z.of_nat i) (Z.of_nat j) = Done v' /\ vec_rep v' (<[i:=b]> (<[j:=a]> l)).
Proof.
  intros Hrep Hi Hj. pose proof (size_inside v l i a Hrep Hi). pose proof (size_inside v l j b Hrep Hj).
  pose proof (lookup_lt_Some _ _ _ Hi). pose proof (lookup_lt_Some _ _ _ Hj).
  destruct (rep_split _ _ Hrep) as [q Hq]. unfold vector_swap.
  destruct (Z.leb_spec (size v) (Z.of_nat i)), (Z.leb_spec (size v) (Z.of_nat j)); try lia. cbn [orb].
  rewrite (read_element v l j b), (read_element v l i a) by done. cbn [mbind outcome_bind].
  rewrite Hq, array_set_in_range by (rewrite length_app; lia). cbn [mbind outcome_bind].
  rewrite array_set_in_range by (rewrite length_insert, length_app; lia). cbn [mbind outcome_bind].
  rewrite !Nat2Z.id, !insert_app_l by (rewrite ?length_insert; lia). eexists. split; [done|].
  rewrite (vr_size _ _ Hrep).
  replace (length l) with (length (<[i:=b]> (<[j:=a]> l))) by by rewrite !length_insert.
  pose proof (vr_positive _ _ Hrep) as Hpos. pose proof (vr_capacity _ _ Hrep) as Hc.
  rewrite Hq, length_app in Hpos, Hc.
  apply (rep_intro _ _ q); [done|rewrite length_app, !length_insert; lia|].
  rewrite length_app, !length_insert. lia.
Qed.

Lemma vector_erase_all_rep v : vec_rep (vector_erase_all v) [].
Proof.
  unfold vector_erase_all. destruct (calloc_some 1 4) as [d Hd]. rewrite Hd.
  apply calloc_zero in Hd as ->. change (Z.to_nat (1 * 4 / 4)) with 1%nat.
  apply (rep_intro _ [] [0]); [done|simpl; lia|done].
Qed.

(** *** Sequences of operations *)

Inductive vector_op :=
  | PushBack (x : Z)
  | PopBack
  | Get (n : nat)
  | EraseNth (n : nat)
  | Insert (n : nat) (x : Z)
  | Swap (i j : nat)
  | EraseAll.

Definition run_op (o : vector_op) (v : vector_t) : outcome (vector_result_t * vector_t) :=
  match o with
  | PushBack x => v' ← vector_push_back v x; Done (VEC_ERR, v')
  | PopBack => vector_pop_back v
  | Get n => r ← vector_get v (Z.of_nat n); Done (r, v)
  | EraseNth n => vector_erase_nth v (Z.of_nat n)
  | Insert n x => v' ← vector_insert v (Z.of_nat n) x; Done (VEC_ERR, v')
  | Swap i j => v' ← vector_swap v (Z.of_nat i) (Z.of_nat j); Done (VEC_ERR, v')
  | EraseAll => Done (VEC_ERR, vector_erase_all v)
  end.

(** The same operations on lists. *)
Definition list_op (o : vector_op) (l : list Z) : vector_result_t * list Z :=
  match o with
  | PushBack x => (VEC_ERR, l ++ [x])
  | PopBack => match list.last l with Some x => (VEC_OK x, removelast l) | None => (VEC_ERR, l) end
  | Get n => match l !! n with Some x => (VEC_OK x, l) | None => (VEC_ERR, l) end
  | EraseNth n =>
      match l !! n with Some x => (VEC_OK x, take n l ++ drop (S n) l) | None => (VEC_ERR, l) end
  | Insert n x =>
      match l !! n with Some _ => (VEC_ERR, take n l ++ x :: drop n l) | None => (VEC_ERR, l) end
  | Swap i j =>
      match l !! i, l !! j with
      | Some a, Some b => (VEC_ERR, <[i:=b]> (<[j:=a]> l))
      | _, _ => (VEC_ERR, l)
      end
  | EraseAll => (VEC_ERR, [])
  end.

Fixpoint run_ops (os : list vector_op) (v : vector_t) : outcome (list vector_result_t * vector_t) :=
  match os with
  | [] => Done ([], v)
  | o :: os' => '(r, v1) ← run_op o v; '(rs, v2) ← run_ops os' v1; Done (r :: rs, v2)
  end.

Fixpoint list_ops (os : list vector_op) (l : list Z) : list vector_result_t * list Z :=
  match os with
  | [] => ([], l)
  | o :: os' => let (r, l1) := list_op o l in let (rs, l2) := list_ops os' l1 in (r :: rs, l2)
  end.

Lemma run_op_refines o v l :
  vec_rep v l -> Z.of_nat (length l) + 1 < 2 ^ 29 ->
  exists v', run_op o v = Done (fst (list_op o l), v') /\ vec_rep v' (snd (list_op o l)) /\
    (length (snd (list_op o l)) <= S (length l))%nat.
Proof.
  intros Hrep Hmax. destruct o as [x| |n|n|n x|i j|]; cbn [run_op list_op].
  - destruct (vector_push_back_rep v l x Hrep) as (v' & -> & Hrep'); [lia|].
    exists v'. split_and!; try done. simpl. rewrite length_app. simpl. lia.
  - destruct l as [|x l _] using rev_ind.
    + simpl. exists v. unfold vector_pop_back. rewrite (vr_size _ _ Hrep). split_and!; done || lia.
    + rewrite last_snoc, removelast_last.
      destruct (vector_pop_back_rep v l x Hrep) as (v' & -> & Hrep').
      exists v'. split_and!; try done. simpl. rewrite length_app. lia.
  - exists v. unfold vector_get. destruct (l !! n) as [x|] eqn:Hn; cbn [fst snd].
    + pose proof (size_inside v l n x Hrep Hn). destruct (Z.leb_spec (size v) (Z.of_nat n)); [lia|].
      rewrite (read_element v l n x) by done. split_and!; done || lia.
    + pose proof (size_bound v l n Hrep Hn). destruct (Z.leb_spec (size v) (Z.of_nat n)); [|lia].
      split_and!; done || lia.
  - destruct (l !! n) as [x|] eqn:Hn; cbn [fst snd].
    + rewrite (middle l n x Hn) in Hrep.
      destruct (vector_erase_nth_rep v (take n l) x (drop (S n) l) Hrep) as (v' & Her & Hrep').
      rewrite (take_length_lt l n x Hn) in Her. exists v'. split_and!; try done.
      rewrite length_app, length_take, length_drop. lia.
    + pose proof (size_bound v l n Hrep Hn). exists v. unfold vector_erase_nth.
      destruct (Z.leb_spec (size v) (Z.of_nat n)); [|lia]. split_and!; done || lia.
  - destruct (l !! n) as [y|] eqn:Hn; cbn [fst snd].
    + pose proof (middle l n y Hn) as Hm. rewrite Hm in Hrep, Hmax.
      destruct (vector_insert_rep v (take n l) y (drop (S n) l) x Hrep Hmax) as (v' & Hi & Hrep').
      rewrite (take_length_lt l n y Hn) in Hi. rewrite Hi.
      rewrite <- (drop_S l y n) in Hrep' by done. exists v'. split_and!; try done.
      rewrite length_app, length_take. simpl. rewrite length_drop.
      pose proof (lookup_lt_Some _ _ _ Hn). lia.
    + pose proof (size_bound v l n Hrep Hn). exists v. unfold vector_insert.
      destruct (Z.leb_spec (size v) (Z.of_nat n)); [|lia]. split_and!; done || lia.
  - destruct (l !! i) as [a|] eqn:Hi, (l !! j) as [b|] eqn:Hj; cbn [fst snd].
    + destruct (vector_swap_rep v l i j a b Hrep Hi Hj) as (v' & -> & Hrep').
      exists v'. split_and!; try done. rewrite !length_insert. lia.
    + pose proof (size_bound v l j Hrep Hj). exists v. unfold vector_swap.
      destruct (Z.leb_spec (size v) (Z.of_nat j)); [|lia]. rewrite orb_true_r. split_and!; done || lia.
    + pose proof (size_bound v l i Hrep Hi). exists v. unfold vector_swap.
      destruct (Z.leb_spec (size v) (Z.of_nat i)); [|lia]. split_and!; done || lia.
    + pose proof (size_bound v l i Hrep Hi). exists v. unfold vector_swap.
      destruct (Z.leb_spec (size v) (Z.of_nat i)); [|lia]. split_and!; done || lia.
  - exists (vector_erase_all v). split_and!; [done|apply vector_erase_all_rep|simpl; lia].
Qed.

Lemma run_ops_refines os v l :
  vec_rep v l -> Z.of_nat (length l) + Z.of_nat (length os) < 2 ^ 29 ->
  exists v', run_ops os v = Done (fst (list_ops os l), v') /\ vec_rep v' (snd (list_ops os l)).
Proof.
  revert v l. induction os as [|o os IH]; intros v l Hrep Hmax; [by exists v|].
  cbn [run_ops list_ops length] in *.
  destruct (run_op_refines o v l Hrep) as (v1 & -> & Hrep1 & Hlen); [lia|].
  destruct (list_op o l) as [r l1]. cbn [fst snd mbind outcome_bind] in *.
  destruct (IH v1 l1 Hrep1) as (v2 & -> & Hrep2); [lia|].
  destruct (list_ops os l1) as [rs l2]. by exists v2.
Qed.


(** [vector_shrink_fit] asks for as many bytes as the vector has elements,
    and records the elements as the capacity: with two elements or more, reading
    the last element is then an access outside the buffer. *)
Theorem vector_shrink_fit_overruns v l :
  vec_rep v l -> 2 <= Z.of_nat (length l) ->
  vector_get (vector_shrink_fit v) (Z.of_nat (length l) - 1) = Fault.
Proof.
  intros Hrep Hl. unfold vector_shrink_fit. destruct (realloc_some (data v) (size v)) as [d Hd].
  rewrite Hd. apply realloc_prefix in Hd as [Hlen _]. rewrite (vr_size _ _ Hrep) in *.
  unfold vector_get. cbn [size data].
  destruct (Z.leb_spec (Z.of_nat (length l)) (Z.of_nat (length l) - 1)); [lia|].
  unfold array_get. destruct (Z.ltb_spec (Z.of_nat (length l) - 1) 0); [lia|].
  rewrite lookup_ge_None_2; [done|].
  assert (Z.of_nat (length l) / 4 <= Z.of_nat (length l) - 1); [|lia].
  assert (Z.of_nat (length l) / 4 < Z.of_nat (length l)); [|lia].
  apply Z.div_lt; lia.
Qed.

End Refinement.

(** ** An allocator *)

#[export] Instance list_alloc : BufferAlloc := {
  calloc_words n size := Some (replicate (Z.to_nat (n * size / 4)) 0);
  realloc_words l bytes :=
    let n := Z.to_nat (bytes / 4) in Some (take n l ++ replicate (n - length l) 0)
}.

#[export] Instance list_alloc_laws : BufferAllocLaws.
Proof.
  constructor.
  - by intros n size l [= <-].
  - intros l bytes l' [= <-]. split.
    + rewrite length_app, length_take, length_replicate. lia.
    + intros i Hi. rewrite length_app, length_take, length_replicate. intros Hi'.
      rewrite lookup_app_l by (rewrite length_take; lia). apply lookup_take_lt. lia.
Qed.

#[export] Instance list_alloc_total : BufferAllocTotal.
Proof. constructor; intros; by eexists. Qed.


Lemma vector_shrink_fit_overruns_witness :
  vector_get (vector_shrink_fit (Vector [1; 2; 3; 0] 3 4)) 2 = Fault.
Proof.
  apply (vector_shrink_fit_overruns (Vector [1; 2; 3; 0] 3 4) [1; 2; 3]).
  - constructor; first [reflexivity | simpl; lia].
  - simpl. lia.
Defined.
