(* ===== verification/Bytes.v ===== *)
(** * Byte buffers and byte order (kernel/src/net/endianess.c, memcmp of
    kernel/src/lib/string.c)

    Little-endian fields of packets held as lists of bytes, and the conversions
    between host and network order. *)
From Stdlib Require Import ZArith Lia.
From stdpp Require Import base list gmap numbers.
From S2P Require Import Prelude.

#[local] Open Scope Z_scope.

(** ** Fields of a buffer *)

(** [memcpy] out of and into a buffer; leaving the buffer faults. *)
Definition get_bytes (buf : list Z) (off n : Z) : outcome (list Z) :=
  if (off <? 0) || (n <? 0) || (Z.of_nat (length buf) <? off + n) then Fault
  else Done (take (Z.to_nat n) (drop (Z.to_nat off) buf)).

Definition put_bytes (buf : list Z) (off : Z) (l : list Z) : outcome (list Z) :=
  if (off <? 0) || (Z.of_nat (length buf) <? off + Z.of_nat (length l)) then Fault
  else Done (take (Z.to_nat off) buf ++ l ++ drop (Z.to_nat off + length l) buf).

Definition bytes16 (x : Z) : list Z := [x mod 256; (x / 256) mod 256].
Definition bytes32 (x : Z) : list Z :=
  [x mod 256; (x / 256) mod 256; (x / 65536) mod 256; (x / 16777216) mod 256].

Definition load8 (buf : list Z) (off : Z) : outcome Z := array_get buf off.
Definition load16 (buf : list Z) (off : Z) : outcome Z :=
  a ← array_get buf off; b ← array_get buf (off + 1); Done (a + 256 * b).
Definition load32 (buf : list Z) (off : Z) : outcome Z :=
  a ← array_get buf off; b ← array_get buf (off + 1);
  c ← array_get buf (off + 2); d ← array_get buf (off + 3);
  Done (a + 256 * b + 65536 * c + 16777216 * d).

Definition store8 (buf : list Z) (off x : Z) : outcome (list Z) := put_bytes buf off [u8 x].
Definition store16 (buf : list Z) (off x : Z) : outcome (list Z) := put_bytes buf off (bytes16 (u16 x)).
Definition store32 (buf : list Z) (off x : Z) : outcome (list Z) := put_bytes buf off (bytes32 (u32 x)).

(** [memcmp]: the difference of the first bytes that differ. *)
Fixpoint memcmp (s1 s2 : list Z) (n : nat) : outcome Z :=
  match n with
  | O => Done 0
  | S n' =>
      match s1, s2 with
      | u1 :: t1, u2 :: t2 => if u1 =? u2 then memcmp t1 t2 n' else Done (u1 - u2)
      | _, _ => Fault
      end
  end.

(** ** Byte order *)

Definition bit_flip_byte (byte num_bits : Z) : Z :=
  let x := u8 (Z.shiftl byte (8 - num_bits)) in u8 (Z.lor x (Z.shiftr byte num_bits)).

Definition bit_flip_short (short_int : Z) : Z :=
  u16 (Z.lor (Z.shiftl (Z.land short_int 0x00ff) 8) (Z.shiftr (Z.land short_int 0xff00) 8)).

(** The four bytes are read through a pointer to the argument. *)
Definition bit_flip_int (long_int : Z) : Z :=
  let b := bytes32 long_int in
  let first_byte := nth 0 b 0 in let second_byte := nth 1 b 0 in
  let third_byte := nth 2 b 0 in let fourth_byte := nth 3 b 0 in
  u32 (Z.lor (Z.lor (Z.lor (Z.shiftl first_byte 24) (Z.shiftl second_byte 16))
                (Z.shiftl third_byte 8)) fourth_byte).

Definition htonb (byte num_bits : Z) : Z := bit_flip_byte byte num_bits.
Definition ntohb (byte num_bits : Z) : Z := bit_flip_byte byte (8 - num_bits).
Definition htons (hostshort : Z) : Z := bit_flip_short hostshort.
Definition htonl (hostlong : Z) : Z := bit_flip_int hostlong.
Definition ntohs (netshort : Z) : Z := bit_flip_short netshort.
Definition ntohl (netlong : Z) : Z := bit_flip_int netlong.

(** ** Their meaning *)

Definition is_byte (b : Z) : Prop := 0 <= b < 256.

Lemma lor_disjoint n a b : 0 <= n -> 0 <= b < 2 ^ n -> Z.lor (Z.shiftl a n) b = a * 2 ^ n + b.
Proof.
  intros Hn Hb. rewrite <- Z.shiftl_mul_pow2 by done.
  rewrite <- Z.lxor_lor, Z.add_nocarry_lxor; try done; apply Z.bits_inj'; intros j Hj;
    rewrite Z.land_spec, Z.bits_0;
    (destruct (Z.lt_ge_cases j n); [by rewrite Z.shiftl_spec_low|
     by rewrite (testbit_small b n), andb_false_r]).
Qed.

Lemma bit_flip_short_spec x :
  0 <= x < 2 ^ 16 -> bit_flip_short x = (x mod 256) * 256 + x / 256.
Proof.
  intros Hx. unfold bit_flip_short.
  change 0x00ff with (Z.ones 8). rewrite Z.land_ones by lia. change (2 ^ 8) with 256.
  assert (Z.shiftr (Z.land x 0xff00) 8 = x / 256) as ->.
  { rewrite Z.shiftr_land. change (Z.shiftr 0xff00 8) with (Z.ones 8).
    rewrite Z.land_ones, Z.shiftr_div_pow2 by lia. change (2 ^ 8) with 256.
    apply Z.mod_small. split; [apply Z.div_pos; lia|apply Z.div_lt_upper_bound; lia]. }
  assert (0 <= x / 256 < 256) by (split; [apply Z.div_pos; lia|apply Z.div_lt_upper_bound; lia]).
  pose proof (Z.mod_pos_bound x 256).
  rewrite lor_disjoint by lia. change (2 ^ 8) with 256. rewrite u16_small; lia.
Qed.

Lemma bytes16_value x : 0 <= x < 2 ^ 16 -> x = x mod 256 + 256 * (x / 256) /\ (x / 256) mod 256 = x / 256.
Proof.
  intros Hx. pose proof (Z.div_mod x 256). split; [lia|]. apply Z.mod_small.
  split; [apply Z.div_pos; lia|apply Z.div_lt_upper_bound; lia].
Qed.

Lemma split_bytes a b c d :
  is_byte a -> is_byte b -> is_byte c -> is_byte d ->
  bytes32 (a + 256 * b + 65536 * c + 16777216 * d) = [a; b; c; d].
Proof.
  unfold is_byte. intros Ha Hb Hc Hd. unfold bytes32.
  assert ((a + 256 * b + 65536 * c + 16777216 * d) / 256 = b + 256 * c + 65536 * d) as ->
    by (symmetry; apply Z.div_unique with a; lia).
  assert ((a + 256 * b + 65536 * c + 16777216 * d) / 65536 = c + 256 * d) as ->
    by (symmetry; apply Z.div_unique with (a + 256 * b); lia).
  assert ((a + 256 * b + 65536 * c + 16777216 * d) / 16777216 = d) as ->
    by (symmetry; apply Z.div_unique with (a + 256 * b + 65536 * c); lia).
  assert ((a + 256 * b + 65536 * c + 16777216 * d) mod 256 = a) as ->
    by (symmetry; apply Z.mod_unique with (b + 256 * c + 65536 * d); lia).
  assert ((b + 256 * c + 65536 * d) mod 256 = b) as ->
    by (symmetry; apply Z.mod_unique with (c + 256 * d); lia).
  assert ((c + 256 * d) mod 256 = c) as -> by (symmetry; apply Z.mod_unique with d; lia).
  by rewrite (Z.mod_small d).
Qed.

Lemma join_bytes x :
  0 <= x < 2 ^ 32 -> exists a b c d, is_byte a /\ is_byte b /\ is_byte c /\ is_byte d /\
    x = a + 256 * b + 65536 * c + 16777216 * d.
Proof.
  intros Hx. exists (x mod 256), ((x / 256) mod 256), ((x / 65536) mod 256), (x / 16777216).
  unfold is_byte. assert (0 <= x / 16777216 < 256)
    by (split; [apply Z.div_pos; lia|apply Z.div_lt_upper_bound; lia]).
  pose proof (Z.mod_pos_bound x 256). pose proof (Z.mod_pos_bound (x / 256) 256).
  pose proof (Z.mod_pos_bound (x / 65536) 256).
  pose proof (Z.div_mod x 256). pose proof (Z.div_mod (x / 256) 256).
  pose proof (Z.div_mod (x / 65536) 256).
  assert (x / 256 / 256 = x / 65536) by by rewrite Z.div_div.
  assert (x / 65536 / 256 = x / 16777216) by by rewrite Z.div_div. lia.
Qed.

Lemma bit_flip_int_bytes a b c d :
  is_byte a -> is_byte b -> is_byte c -> is_byte d ->
  bit_flip_int (a + 256 * b + 65536 * c + 16777216 * d) = d + 256 * c + 65536 * b + 16777216 * a.
Proof.
  intros Ha Hb Hc Hd. unfold bit_flip_int. rewrite split_bytes by done. cbn [nth].
  unfold is_byte in *.
  assert (Z.shiftl a 24 = Z.shiftl (Z.shiftl (Z.shiftl a 8) 8) 8) as -> by by rewrite !Z.shiftl_shiftl.
  assert (Z.shiftl b 16 = Z.shiftl (Z.shiftl b 8) 8) as -> by by rewrite !Z.shiftl_shiftl.
  rewrite <- !Z.shiftl_lor, !lor_disjoint by lia. change (2 ^ 8) with 256. rewrite u32_small; lia.
Qed.

Lemma bit_flip_byte_rotate b n :
  0 <= b < 256 -> 0 <= n <= 8 -> bit_flip_byte (bit_flip_byte b n) (8 - n) = b.
Proof.
  intros Hb Hn.
  assert (forallb (fun n => forallb (fun b => bit_flip_byte (bit_flip_byte b n) (8 - n) =? b)
            (map Z.of_nat (seq 0 256))) (map Z.of_nat (seq 0 9)) = true) as Hall by (vm_compute; reflexivity).
  rewrite forallb_forall in Hall. specialize (Hall n). rewrite forallb_forall in Hall.
  assert (In n (map Z.of_nat (seq 0 9))) as Hin.
  { apply in_map_iff. exists (Z.to_nat n). split; [lia|]. apply in_seq. lia. }
  apply Z.eqb_eq. apply Hall; [done|]. apply in_map_iff. exists (Z.to_nat b). split; [lia|].
  apply in_seq. lia.
Qed.

(** ** Reads after writes *)

Lemma put_bytes_ok buf off l :
  0 <= off -> off + Z.of_nat (length l) <= Z.of_nat (length buf) ->
  put_bytes buf off l = Done (take (Z.to_nat off) buf ++ l ++ drop (Z.to_nat off + length l) buf).
Proof.
  intros Ho Hl. unfold put_bytes.
  destruct (Z.ltb_spec off 0), (Z.ltb_spec (Z.of_nat (length buf)) (off + Z.of_nat (length l))); done || lia.
Qed.

Lemma put_bytes_length buf off l buf' : put_bytes buf off l = Done buf' -> length buf' = length buf.
Proof.
  unfold put_bytes. destruct (Z.ltb_spec off 0); [done|].
  destruct (Z.ltb_spec (Z.of_nat (length buf)) (off + Z.of_nat (length l))); [done|].
  intros [= <-]. rewrite !length_app, length_take, length_drop. lia.
Qed.

Lemma get_bytes_ok buf off n :
  0 <= off -> 0 <= n -> off + n <= Z.of_nat (length buf) ->
  get_bytes buf off n = Done (take (Z.to_nat n) (drop (Z.to_nat off) buf)).
Proof.
  intros Ho Hn Hl. unfold get_bytes.
  destruct (Z.ltb_spec off 0), (Z.ltb_spec n 0), (Z.ltb_spec (Z.of_nat (length buf)) (off + n)); done || lia.
Qed.

Lemma get_bytes_beyond buf off n :
  0 <= off -> Z.of_nat (length buf) < off + n -> get_bytes buf off n = Fault.
Proof.
  intros Ho Hl. unfold get_bytes.
  destruct (Z.ltb_spec (Z.of_nat (length buf)) (off + n)); [|lia]. by rewrite orb_true_r.
Qed.

Lemma array_get_beyond {A} (l : list A) i : Z.of_nat (length l) <= i -> array_get l i = Fault.
Proof.
  intros Hi. unfold array_get. destruct (Z.ltb_spec i 0); [done|].
  by rewrite lookup_ge_None_2 by lia.
Qed.

Lemma memcmp_eq a b :
  length a = length b -> exists r, memcmp a b (length a) = Done r /\ (r = 0 <-> a = b).
Proof.
  revert b. induction a as [|x a IH]; intros [|y b] Hl; try done; [by exists 0|].
  cbn [length memcmp]. destruct (Z.eqb_spec x y) as [->|Hne].
  - injection Hl as Hl. destruct (IH b Hl) as (r & -> & Hr). exists r. split; [done|].
    rewrite Hr. split; [by intros ->|by intros [= ->]].
  - exists (x - y). split; [done|]. split; [lia|by intros [= ->]].
Qed.

(** The conversions between host and network order are inverse to each
    other, and put the most significant byte first in memory. *)
Theorem byte_order_roundtrip x y b n :
  0 <= x < 2 ^ 16 -> 0 <= y < 2 ^ 32 -> 0 <= b < 2 ^ 8 -> 0 <= n <= 8 ->
  ntohs (htons x) = x /\ ntohl (htonl y) = y /\ ntohb (htonb b n) n = b /\
  bytes16 (htons x) = [x / 256; x mod 256] /\ bytes32 (htonl y) = rev (bytes32 y).
Proof.
  intros Hx Hy Hb Hn. unfold ntohs, htons, ntohl, htonl, ntohb, htonb.
  assert (0 <= x / 256 < 256) by (split; [apply Z.div_pos; lia|apply Z.div_lt_upper_bound; lia]).
  pose proof (Z.mod_pos_bound x 256). pose proof (Z.div_mod x 256).
  assert ((x mod 256 * 256 + x / 256) mod 256 = x / 256) as Hm.
  { symmetry. apply Z.mod_unique with (x mod 256); lia. }
  assert ((x mod 256 * 256 + x / 256) / 256 = x mod 256) as Hd.
  { symmetry. apply Z.div_unique with (x / 256); lia. }
  destruct (join_bytes y Hy) as (b0 & b1 & b2 & b3 & B0 & B1 & B2 & B3 & ->).
  rewrite !bit_flip_int_bytes by done. rewrite !split_bytes by done.
  rewrite !bit_flip_short_spec by (rewrite ?bit_flip_short_spec; lia).
  rewrite Hm, Hd. split_and!; [lia|done|apply bit_flip_byte_rotate; lia| |done].
  unfold bytes16. rewrite Hm, Hd. rewrite (Z.mod_small (x mod 256)) by lia. done.
Qed.

Lemma byte_order_roundtrip_witness :
  ntohs (htons 0x1234) = 0x1234 /\ bytes32 (htonl 0x63825363) = [0x63; 0x82; 0x53; 0x63].
Proof.
  destruct (byte_order_roundtrip 0x1234 0x63825363 0xa5 3) as (H1 & _ & _ & _ & H2);
    [lia|lia|lia|lia|].
  split; [exact H1|]. rewrite H2. reflexivity.
Defined.
