(* ===== verification/Net.v ===== *)
(** * The network stack (kernel/src/net: cards.c, stack.c, ethernet.c, arp.c,
    ipv4.c, udp.c, dhcp.c, icmp.c, tcp.c, and rand.c of kernel/src/lib)

    Packets are byte buffers of exactly the length the driver handed over; a
    handler works on the whole frame and an offset, as the code does with
    pointers, so an access past the end of a frame is a [Fault].  Memory for
    outgoing packets is taken to be available.  The structures' offsets are
    written out. *)
From Stdlib Require Import ZArith Lia.
From stdpp Require Import base list gmap numbers.
From S2P Require Import Prelude.
From S2P Require Import Bytes.

#[local] Open Scope Z_scope.

(** ** State *)

(** A card: its address and what [get_mac_addr] answers.  [send_packet] records
    the frame in [sent]. *)
Record netcard_entry := NetCard { ipv4_addr : list Z; mac : list Z }.

Record arp_table_entry := ArpEntry { ip_addr : Z; mac_addr : list Z }.

Inductive tcp_connection_status :=
  | TCP_NONE
  | TCP_CREATED
  | TCP_LISTENING
  | TCP_ESTABLISHED.

Record tcp_connection := TcpConnection {
  conn_card : Z;
  dest_ip_addr : Z;
  source_port : Z;
  dest_port : Z;
  seq : Z;
  ack : Z;
  status : tcp_connection_status
}.

Record netqueue_item := QueueItem { item_card : Z; item_data : list Z }.

Record net := Net {
  cards : list netcard_entry;
  arp_table : list arp_table_entry;
  arp_table_curr : Z;
  incoming_queue : list netqueue_item;
  outgoing_queue : list netqueue_item;
  tcp_connections : list tcp_connection;
  rand_seed : Z;
  sent : list netqueue_item
}.

#[export] Instance status_eq_dec : EqDecision tcp_connection_status.
Proof. solve_decision. Defined.

Definition ARP_TABLE_MAX_SIZE : Z := 128.
Definition MAX_CONNECTIONS : Z := 64.
Definition ETHERNET_TYPE_IPV4 : Z := 0x0800.
Definition ETHERNET_TYPE_ARP : Z := 0x0806.
Definition ETH_IPv4_HEAD_ICMPv4 : Z := 1.
Definition ETH_IPv4_HEAD_TCP : Z := 6.
Definition ETH_IPv4_HEAD_UDP : Z := 0x11.
Definition ARP_REQUEST : Z := 1.
Definition ARP_REPLY : Z := 2.

Definition with_arp (t : list arp_table_entry) (curr : Z) (n : net) : net :=
  Net (cards n) t curr (incoming_queue n) (outgoing_queue n) (tcp_connections n) (rand_seed n) (sent n).
Definition with_queues (i o s : list netqueue_item) (n : net) : net :=
  Net (cards n) (arp_table n) (arp_table_curr n) i o (tcp_connections n) (rand_seed n) s.
Definition with_connections (c : list tcp_connection) (n : net) : net :=
  Net (cards n) (arp_table n) (arp_table_curr n) (incoming_queue n) (outgoing_queue n) c (rand_seed n) (sent n).
Definition with_seed (r : Z) (n : net) : net :=
  Net (cards n) (arp_table n) (arp_table_curr n) (incoming_queue n) (outgoing_queue n)
    (tcp_connections n) r (sent n).
Definition with_cards (c : list netcard_entry) (n : net) : net :=
  Net c (arp_table n) (arp_table_curr n) (incoming_queue n) (outgoing_queue n) (tcp_connections n)
    (rand_seed n) (sent n).

(** ** Cards and random numbers *)

Definition netcard_add (card : netcard_entry) (n : net) : net := with_cards (cards n ++ [card]) n.
Definition netcards_get_count (n : net) : Z := Z.of_nat (length (cards n)).
Definition netcard_get (index : Z) (n : net) : outcome (option netcard_entry) :=
  if netcards_get_count n <=? index then Done None
  else c ← array_get (cards n) index; Done (Some c).

(** The product wraps around as 32-bit arithmetic; the remainder by [2^32] of an
    [int] is the [int] itself. *)
Definition rand (n : net) : Z * net :=
  let r := s32 (164525 * rand_seed n + 101390423) in (r, with_seed r n).

(** ** The queues *)

Definition netstack_push (card : Z) (packet_data : list Z) (n : net) : net :=
  with_queues (incoming_queue n) (outgoing_queue n ++ [QueueItem card packet_data]) (sent n) n.

Definition netstack_transfer (card : Z) (packet_data : list Z) (n : net) : net :=
  with_queues (incoming_queue n ++ [QueueItem card packet_data]) (outgoing_queue n) (sent n) n.

(** [vector_pop_back]: the last element, or null. *)
Definition pop_back (q : list netqueue_item) : option (netqueue_item * list netqueue_item) :=
  match rev q with
  | [] => None
  | x :: r => Some (x, rev r)
  end.

Definition netstack_pop (n : net) : option netqueue_item * net :=
  match pop_back (incoming_queue n) with
  | None => (None, n)
  | Some (x, q) => (Some x, with_queues q (outgoing_queue n) (sent n) n)
  end.

(** One round of the loop of [netstack_processor_out]: the packets queued at its
    start are sent. *)
Fixpoint send_queued (i : nat) (n : net) : outcome net :=
  match i with
  | O => Done n
  | S i' =>
      match pop_back (outgoing_queue n) with
      | None => Fault
      | Some (x, q) => send_queued i' (with_queues (incoming_queue n) q (sent n ++ [x]) n)
      end
  end.

Definition netstack_processor_out_round (n : net) : outcome net :=
  send_queued (length (outgoing_queue n)) n.

(** ** Ethernet *)

Definition ethernet_send_packet (card : Z) (dest_mac data : list Z) (type : Z) (n : net)
    : outcome net :=
  c ← array_get (cards n) card;
  Done (netstack_push card (dest_mac ++ mac c ++ bytes16 (htons type) ++ data) n).

(** The addresses of an IPv6 header are swapped in place before they are
    logged. *)
Fixpoint swap_shorts (k : nat) (buf : list Z) (off : Z) : outcome (list Z) :=
  match k with
  | O => Done buf
  | S k' =>
      x ← load16 buf off;
      buf' ← store16 buf off (htons x);
      swap_shorts k' buf' (off + 2)
  end.

Definition ethernet_dump (buf : list Z) (off : Z) : outcome (list Z) :=
  first ← load8 buf off;
  if first =? 0x60 then swap_shorts 16 buf (off + 8) else Done buf.

(** ** ARP *)

(** An address loaded as a 32-bit word. *)
Definition ip_word (ip : list Z) : outcome Z := load32 ip 0.

Definition arp_lookup_add (hw ip : list Z) (n : net) : outcome net :=
  w ← ip_word ip;
  t ← array_set (arp_table n) (arp_table_curr n) (ArpEntry w hw);
  let curr := arp_table_curr n in
  let curr := if curr <? ARP_TABLE_MAX_SIZE then curr + 1 else curr in
  let curr := if ARP_TABLE_MAX_SIZE <=? curr then 0 else curr in
  Done (with_arp t curr n).

Fixpoint arp_find (t : list arp_table_entry) (ip_entry : Z) : option (list Z) :=
  match t with
  | [] => None
  | e :: t' => if ip_addr e =? ip_entry then Some (mac_addr e) else arp_find t' ip_entry
  end.

Definition arp_lookup (ip : list Z) (n : net) : outcome (option (list Z)) :=
  w ← ip_word ip; Done (arp_find (arp_table n) w).

Definition arp_init (n : net) : outcome net :=
  arp_lookup_add (replicate 6 0xff) (replicate 4 0xff) n.

(** The reply is written over the request. *)
Definition arp_reply (card : netcard_entry) (dest_mac dest_ip buf : list Z) (off : Z)
    : outcome (list Z) :=
  b ← put_bytes buf (off + 8) (mac card);
  b ← put_bytes b (off + 14) (ipv4_addr card);
  b ← put_bytes b (off + 18) dest_mac;
  b ← put_bytes b (off + 24) dest_ip;
  b ← store16 b (off + 6) (htons ARP_REPLY);
  b ← store8 b (off + 4) 6;
  b ← store8 b (off + 5) 4;
  b ← store16 b off (htons 1);
  store16 b (off + 2) (htons ETHERNET_TYPE_IPV4).

Definition arp_handle_packet (card : Z) (buf : list Z) (off : Z) (n : net) : outcome net :=
  dest_mac ← get_bytes buf (off + 8) 6;
  dest_ip ← get_bytes buf (off + 14) 4;
  opcode ← load16 buf (off + 6);
  n' ← (if ntohs opcode =? ARP_REQUEST then
          target ← get_bytes buf (off + 24) 4;
          c ← array_get (cards n) card;
          r ← memcmp target (ipv4_addr c) 4;
          if negb (r =? 0) then
            b ← arp_reply c dest_mac dest_ip buf off;
            data ← get_bytes b off 28;
            ethernet_send_packet card dest_mac data ETHERNET_TYPE_ARP n
          else Done n
        else Done n);
  arp_lookup_add dest_mac dest_ip n'.

Definition arp_send_packet (card : Z) (dest_mac dest_ip : list Z) (n : net) : outcome net :=
  c ← array_get (cards n) card;
  ethernet_send_packet card (replicate 6 0xff)
    (bytes16 (htons 1) ++ bytes16 (htons ETHERNET_TYPE_IPV4) ++ [6; 4] ++
     bytes16 (htons ARP_REQUEST) ++ mac c ++ ipv4_addr c ++ dest_mac ++ dest_ip)
    ETHERNET_TYPE_ARP n.

(** ** IPv4 *)

(** [sum += bit_flip_short(array[i])] over the header. *)
Fixpoint header_sum (k : nat) (packet : list Z) (off sum : Z) : outcome Z :=
  match k with
  | O => Done sum
  | S k' => x ← load16 packet off; header_sum k' packet (off + 2) (u32 (sum + bit_flip_short x))
  end.

Definition ipv4_checksum (packet : list Z) : outcome Z :=
  sum ← header_sum 10 packet 0 0;
  let carry := Z.shiftr sum 16 in
  let sum := Z.land sum 0x0000ffff in
  let sum := u32 (sum + carry) in
  Done (u16 (Z.lnot sum)).

(** The header with the given checksum field; version 4, five words, no options,
    time to live 64. *)
Definition ipv4_header (source dest_ip : list Z) (size protocol checksum : Z) : list Z :=
  [0x45; 0] ++ bytes16 (htons (u16 (20 + size))) ++ [0; 0; 0; 0; 64; u8 protocol] ++
  bytes16 (u16 checksum) ++ source ++ dest_ip.

(** [while (!arp_lookup(dest_mac, dest_ip) && --spin) arp_send_packet(...);] *)
Fixpoint resolve (spin : nat) (card : Z) (dest_ip : list Z) (n : net)
    : outcome (option (list Z) * net) :=
  found ← arp_lookup dest_ip n;
  match found with
  | Some m => Done (Some m, n)
  | None =>
      match spin with
      | S (S _ as spin') =>
          n' ← arp_send_packet card (replicate 6 0) dest_ip n;
          resolve spin' card dest_ip n'
      | _ => Done (None, n)
      end
  end.

Definition ipv4_send_packet (card : Z) (dest_ip data : list Z) (protocol : Z) (n : net)
    : outcome net :=
  c ← array_get (cards n) card;
  let size := Z.of_nat (length data) in
  check ← ipv4_checksum (ipv4_header (ipv4_addr c) dest_ip size protocol 0);
  let packet := ipv4_header (ipv4_addr c) dest_ip size protocol (htons check) ++ data in
  '(found, n') ← resolve 10 card dest_ip n;
  match found with
  | None => Done n'
  | Some dest_mac => ethernet_send_packet card dest_mac packet ETHERNET_TYPE_IPV4 n'
  end.

(** ** UDP and DHCP *)

Definition udp_calculate_checksum : Z := 0.

(** The packet is not freed afterwards. *)
Definition udp_send_packet (card : Z) (dst_ip : list Z) (src_port dst_port : Z) (data : list Z) (n : net)
    : outcome net :=
  let len := 8 + Z.of_nat (length data) in
  ipv4_send_packet card dst_ip
    (bytes16 (htons (u16 src_port)) ++ bytes16 (htons (u16 dst_port)) ++ bytes16 (htons (u16 len)) ++
     bytes16 udp_calculate_checksum ++ data) ETH_IPv4_HEAD_UDP n.

(** The options: the magic number, the message type, the requested address, the
    host name, the end; the rest of the field is zero. *)
Definition dhcp_options (message_type : Z) (ip : list Z) : list Z :=
  bytes32 (htonl 0x63825363) ++ [53; 1; message_type; 50; 4] ++ ip ++
  [12; 7; 83; 97; 121; 111; 114; 105; 0; 0xff] ++ replicate 317 0.

Definition dhcp_packet (xid : Z) (card_mac : list Z) (message_type : Z) (ip : list Z) : list Z :=
  [1; 1; 6; 0] ++ bytes32 xid ++ [0; 0] ++ bytes16 (htons 0x8000) ++ replicate 16 0 ++
  card_mac ++ replicate 10 0 ++ replicate 64 0 ++ replicate 128 0 ++ dhcp_options message_type ip.

Definition dhcp_send (message_type : Z) (ip : list Z) (card : Z) (n : net) : outcome net :=
  c ← array_get (cards n) card;
  let (r, n1) := rand n in
  udp_send_packet card (replicate 4 0xff) 68 67 (dhcp_packet (ntohl (u32 r)) (mac c) message_type ip) n1.

Definition dhcp_discover (card : Z) (n : net) : outcome net := dhcp_send 1 (replicate 4 0) card n.
Definition dhcp_request (card : Z) (req_ip : list Z) (n : net) : outcome net :=
  dhcp_send 3 req_ip card n.

Definition set_card_ip (card : Z) (ip : list Z) (n : net) : outcome net :=
  c ← array_get (cards n) card;
  cs ← array_set (cards n) card (NetCard ip (mac c));
  Done (with_cards cs n).

Definition dhcp_handle_packet (card : Z) (buf : list Z) (off : Z) (n : net) : outcome net :=
  let options := off + 236 + 4 in
  msgtype ← load8 buf options;
  if msgtype =? 53 then
    type ← load8 buf (options + 2);
    if type =? 2 then Done n
    else if type =? 5 then
      my_ip ← get_bytes buf (off + 16) 4; set_card_ip card my_ip n
    else Done n
  else Done n.

Fixpoint dhcp_init_cards (k : nat) (i : Z) (n : net) : outcome net :=
  match k with
  | O => Done n
  | S k' =>
      n1 ← dhcp_discover i n;
      c ← array_get (cards n1) i;
      n2 ← dhcp_request i (ipv4_addr c) n1;
      dhcp_init_cards k' (i + 1) n2
  end.

Definition dhcp_init_all_cards (n : net) : outcome net :=
  dhcp_init_cards (Z.to_nat (netcards_get_count n)) 0 n.

Definition udp_handle_packet (card : Z) (buf : list Z) (off : Z) (n : net) : outcome net :=
  dst ← load16 buf (off + 2);
  if ntohs dst =? 68 then dhcp_handle_packet card buf (off + 8) n else Done n.

(** The type and the code are only logged. *)
Definition icmp_handle_packet (n : net) : outcome net := Done n.

(** ** TCP *)

Fixpoint find_connection (cs : list tcp_connection) (i address port : Z) : Z :=
  match cs with
  | [] => -1
  | c :: cs' =>
      if (dest_ip_addr c =? address) && ((source_port c =? port) || (dest_port c =? port))
         && negb (bool_decide (status c = TCP_NONE))
      then i else find_connection cs' (i + 1) address port
  end.

Definition tcp_find_connection (address port : Z) (n : net) : Z :=
  find_connection (tcp_connections n) 0 address port.

Fixpoint find_empty (cs : list tcp_connection) (i : Z) : Z :=
  match cs with
  | [] => -1
  | c :: cs' =>
      if (dest_ip_addr c =? 0) && (source_port c =? 0) && bool_decide (status c = TCP_NONE)
      then i else find_empty cs' (i + 1)
  end.

(** The fields that are not assigned keep their values. *)
Definition tcp_new_connection (card address port seq_nr : Z) (n : net) : outcome (bool * net) :=
  let index := find_empty (tcp_connections n) 0 in
  if index =? -1 then Done (false, n)
  else
    c ← array_get (tcp_connections n) index;
    cs ← array_set (tcp_connections n) index
           (TcpConnection card address (u16 port) (dest_port c) (u32 seq_nr) (ack c) TCP_CREATED);
    Done (true, with_connections cs n).

(** The 16-bit words of the data, an odd last byte alone. *)
Fixpoint word_sum (data : list Z) (sum : Z) : Z :=
  match data with
  | a :: b :: rest => word_sum rest (u32 (sum + (a + 256 * b)))
  | [a] => u32 (sum + a)
  | [] => sum
  end.

(** [while (sum >> 16) sum = (sum & 0xFFFF) + (sum >> 16);] *)
Fixpoint fold_carries (fuel : nat) (sum : Z) : outcome Z :=
  match fuel with
  | O => Hang
  | S fuel' =>
      if Z.shiftr sum 16 =? 0 then Done sum
      else fold_carries fuel' (u32 (Z.land sum 0xffff + Z.shiftr sum 16))
  end.

Definition checksum (data : list Z) : outcome Z :=
  sum ← fold_carries 4 (word_sum data 0);
  Done (u16 (Z.lnot sum)).

Definition tcp_calculate_checksum (src_addr dst_addr tcp_packet : list Z) (tcp_length : Z) : outcome Z :=
  payload ← get_bytes tcp_packet 0 tcp_length;
  checksum (src_addr ++ dst_addr ++ [0; 6] ++ bytes16 (htons (u16 tcp_length)) ++ payload).

(** Bits of the byte with the flags. *)
Definition FIN : Z := 0.
Definition SYN : Z := 1.
Definition PSH : Z := 3.
Definition ACK : Z := 4.

Definition update_connection (idx : Z) (f : tcp_connection -> tcp_connection) (n : net) : outcome net :=
  c ← array_get (tcp_connections n) idx;
  cs ← array_set (tcp_connections n) idx (f c);
  Done (with_connections cs n).

Definition tcp_send_packet (idx : Z) (data : list Z) (n : net) : outcome net :=
  n1 ← update_connection idx (fun c => TcpConnection (conn_card c) (dest_ip_addr c) (source_port c)
         (dest_port c) (u32 (seq c + 1)) (ack c) (status c)) n;
  c ← array_get (tcp_connections n1) idx;
  card ← array_get (cards n1) (conn_card c);
  let dst_ip := bytes32 (dest_ip_addr c) in
  let packet check :=
    bytes16 (dest_port c) ++ bytes16 (source_port c) ++ bytes32 (htonl (seq c)) ++
    bytes32 (htonl (ack c)) ++ [0x50; 0x18] ++ bytes16 0xfffa ++ bytes16 check ++ [0; 0] ++ data in
  check ← tcp_calculate_checksum (ipv4_addr card) dst_ip (packet 0) (20 + Z.of_nat (length data));
  ipv4_send_packet (conn_card c) dst_ip (packet check) ETH_IPv4_HEAD_TCP n1.

(** "Hello, world!\n" *)
Definition hello : list Z := [72; 101; 108; 108; 111; 44; 32; 119; 111; 114; 108; 100; 33; 10].

(** The fields that the handler swaps in place. *)
Definition tcp_host_order (buf : list Z) (off : Z) : outcome (list Z) :=
  source ← load16 buf off;
  b ← store16 buf off (ntohs source);
  destination ← load16 b (off + 2);
  b ← store16 b (off + 2) (ntohs destination);
  ack_seq ← load32 b (off + 8);
  b ← store32 b (off + 8) (ntohl ack_seq);
  seq ← load32 b (off + 4);
  store32 b (off + 4) (ntohl seq).

(** The SYN+ACK made from the received header. *)
Definition stage_1_segment (sendable : list Z) (seq_nr ack_nr destination source : Z)
    (my_ip source_ip : list Z) : outcome (list Z) :=
  flags ← load8 sendable 13;
  s ← store8 sendable 13 (Z.lor (Z.lor flags (Z.shiftl 1 ACK)) (Z.shiftl 1 SYN));
  s ← store32 s 4 (htonl seq_nr);
  s ← store32 s 8 (htonl ack_nr);
  s ← store16 s 0 (ntohs destination);
  s ← store16 s 2 (ntohs source);
  offset ← load8 s 12;
  s ← store8 s 12 (Z.lor (Z.land offset 0x0f) 0x50);
  s ← store16 s 16 0;
  check ← tcp_calculate_checksum my_ip source_ip s 20;
  store16 s 16 check.

(** Stage 1: the connection takes new sequence numbers and a SYN+ACK is sent. *)
Definition tcp_stage_1 (idx : Z) (buf : list Z) (off : Z) (source_ip : list Z) (n : net) : outcome net :=
  sendable ← get_bytes buf off 20;
  pseq ← load32 buf (off + 4);
  destination ← load16 buf (off + 2);
  source ← load16 buf off;
  my_ip ← get_bytes buf (off - 20 + 16) 4;
  let (r, n1) := rand n in
  n2 ← update_connection idx (fun c => TcpConnection (conn_card c) (dest_ip_addr c) (source_port c)
         (dest_port c) (u32 r) (u32 (pseq + 1)) (status c)) n1;
  c ← array_get (tcp_connections n2) idx;
  s ← stage_1_segment sendable (seq c) (ack c) destination source my_ip source_ip;
  n3 ← ipv4_send_packet (conn_card c) source_ip s ETH_IPv4_HEAD_TCP n2;
  update_connection idx (fun c => TcpConnection (conn_card c) (dest_ip_addr c) (source_port c)
         (ntohs destination) (seq c) (ack c) TCP_CREATED) n3.

(** The connection is looked up, or created, and the stage decided on. *)
Definition tcp_deliver (card : Z) (buf : list Z) (off : Z) (source_ip : list Z)
    (address sp_port pseq flags : Z) (n : net) : outcome net :=
  n1 ← (if tcp_find_connection address sp_port n =? -1 then
          '(_, n1) ← tcp_new_connection card address sp_port pseq n; Done n1
        else Done n);
  let idx := tcp_find_connection address sp_port n1 in
  c ← array_get (tcp_connections n1) idx;
  let created := bool_decide (status c = TCP_CREATED) in
  let syn := Z.testbit flags SYN in
  let ack := Z.testbit flags ACK in
  let psh := Z.testbit flags PSH in
  let fin := Z.testbit flags FIN in
  if created && syn && negb ack && negb psh && negb fin then
    tcp_stage_1 idx buf off source_ip n1
  else if created && negb syn && ack && negb psh && negb fin then
    n2 ← update_connection idx (fun c => TcpConnection (conn_card c) (dest_ip_addr c) (source_port c)
           (dest_port c) (seq c) (Net.ack c) TCP_ESTABLISHED) n1;
    tcp_send_packet idx hello n2
  else Hang.

(** [packet] is at [off]; its IPv4 header, without options, at [off - 20]. *)
Definition tcp_handle_packet (card : Z) (buf : list Z) (off : Z) (n : net) : outcome net :=
  buf ← tcp_host_order buf off;
  source_ip ← get_bytes buf (off - 20 + 12) 4;
  address ← ip_word source_ip;
  source ← load16 buf off;
  pseq ← load32 buf (off + 4);
  flags ← load8 buf (off + 13);
  tcp_deliver card buf off source_ip address (ntohs source) pseq flags n.

(** ** Receiving *)

Definition ipv4_handle_packet (card : Z) (buf : list Z) (off : Z) (n : net) : outcome net :=
  total ← load16 buf (off + 2);
  buf ← store16 buf (off + 2) (ntohs total);
  src_mac ← get_bytes buf (off - 14 + 6) 6;
  source ← get_bytes buf (off + 12) 4;
  n1 ← arp_lookup_add src_mac source n;
  protocol ← load8 buf (off + 9);
  if protocol =? ETH_IPv4_HEAD_UDP then udp_handle_packet card buf (off + 20) n1
  else if protocol =? ETH_IPv4_HEAD_ICMPv4 then icmp_handle_packet n1
  else if protocol =? ETH_IPv4_HEAD_TCP then tcp_handle_packet card buf (off + 20) n1
  else Done n1.

Definition ethernet_handle_packet (card : Z) (packet : list Z) (n : net) : outcome net :=
  buf ← ethernet_dump packet 14;
  type ← load16 buf 12;
  if ntohs type =? ETHERNET_TYPE_ARP then arp_handle_packet card buf 14 n
  else if ntohs type =? ETHERNET_TYPE_IPV4 then ipv4_handle_packet card buf 14 n
  else Done n.

(** One round of [netstack_processor]; [netstack_poll] waits while the queue is
    empty. *)
Definition netstack_processor_round (n : net) : outcome net :=
  match netstack_pop n with
  | (None, _) => Hang
  | (Some item, n') => ethernet_handle_packet (item_card item) (item_data item) n'
  end.

Definition netstack_init (n : net) : net := with_queues [] [] (sent n) n.

(** ** The ARP cache *)

(** Tables have their declared sizes, addresses their lengths. *)
Record net_ok (n : net) : Prop := NetOk {
  nk_arp : length (arp_table n) = 128%nat;
  nk_curr : 0 <= arp_table_curr n < 128;
  nk_cards : Forall (fun c => length (ipv4_addr c) = 4%nat /\ length (mac c) = 6%nat) (cards n);
  nk_connections : length (tcp_connections n) = 64%nat
}.

Definition is_ip (ip : list Z) : Prop := length ip = 4%nat /\ Forall is_byte ip.

Lemma ip_word_ok ip : is_ip ip -> exists w, ip_word ip = Done w /\ 0 <= w < 2 ^ 32 /\ bytes32 w = ip.
Proof.
  intros [Hl Hb]. destruct ip as [|a [|b [|c [|d [|? ?]]]]]; try done.
  repeat (apply Forall_cons_1 in Hb as [? Hb]).
  exists (a + 256 * b + 65536 * c + 16777216 * d). split; [done|].
  split; [unfold is_byte in *; lia|by apply split_bytes].
Qed.

Lemma ip_word_inj ip ip' w : is_ip ip -> is_ip ip' -> ip_word ip = Done w -> ip_word ip' = Done w -> ip = ip'.
Proof.
  intros H H' Hw Hw'. destruct (ip_word_ok ip H) as (x & Hx & _ & <-).
  destruct (ip_word_ok ip' H') as (y & Hy & _ & <-). congruence.
Qed.

Lemma arp_find_app t t' w :
  arp_find (t ++ t') w = match arp_find t w with Some m => Some m | None => arp_find t' w end.
Proof. induction t as [|e t IH]; simpl; [done|]. by destruct (ip_addr e =? w). Qed.

Lemma arp_lookup_add_spec hw ip w n :
  net_ok n -> ip_word ip = Done w ->
  exists p e q, arp_table n = p ++ e :: q /\ Z.of_nat (length p) = arp_table_curr n /\
    exists n', arp_lookup_add hw ip n = Done n' /\ net_ok n' /\
      arp_table n' = p ++ ArpEntry w hw :: q /\
      arp_table_curr n' = (arp_table_curr n + 1) mod 128 /\
      cards n' = cards n /\ outgoing_queue n' = outgoing_queue n /\
      tcp_connections n' = tcp_connections n /\ rand_seed n' = rand_seed n /\ sent n' = sent n.
Proof.
  intros [Hl Hc Hcards Hconn] Hw. unfold ARP_TABLE_MAX_SIZE in *.
  destruct (lookup_lt_is_Some_2 (arp_table n) (Z.to_nat (arp_table_curr n))) as [e He]; [lia|].
  pose proof (take_drop_middle _ _ _ He) as Hsplit.
  set (p := take (Z.to_nat (arp_table_curr n)) (arp_table n)) in *.
  set (q := drop (S (Z.to_nat (arp_table_curr n))) (arp_table n)) in *.
  assert (Z.of_nat (length p) = arp_table_curr n) as Hp by (unfold p; rewrite length_take; lia).
  exists p, e, q. split; [done|]. split; [done|].
  unfold arp_lookup_add. rewrite Hw. cbn [mbind outcome_bind]. rewrite <- Hsplit.
  rewrite array_set_seam by lia. cbn [mbind outcome_bind]. unfold ARP_TABLE_MAX_SIZE.
  destruct (Z.ltb_spec (arp_table_curr n) 128); [|lia].
  eexists. split; [done|]. unfold with_arp.
  cbn [cards arp_table arp_table_curr outgoing_queue tcp_connections rand_seed sent].
  assert ((if 128 <=? arp_table_curr n + 1 then 0 else arp_table_curr n + 1)
    = (arp_table_curr n + 1) mod 128) as Hcurr.
  { destruct (Z.leb_spec 128 (arp_table_curr n + 1)).
    - replace (arp_table_curr n + 1) with 128 by lia. done.
    - symmetry. apply Z.mod_small. lia. }
  split_and!; try done. constructor; cbn; try done.
  - rewrite <- Hl, <- Hsplit, !length_app. done.
  - rewrite Hcurr. by apply Z.mod_pos_bound.
Qed.

(** [arp_lookup_add] always succeeds and keeps the table well formed.
    Looking the address up afterwards finds the new hardware address, unless an
    entry for it lies below the slot being filled: that older answer then stays in
    force, since the table is searched from the start.  Lookups of other addresses
    change only when their entry was the one replaced. *)
Theorem arp_lookup_after_add hw ip n :
  net_ok n -> is_ip ip ->
  exists w evicted n', ip_word ip = Done w /\
    arp_table n !! Z.to_nat (arp_table_curr n) = Some evicted /\
    arp_lookup_add hw ip n = Done n' /\ net_ok n' /\
    arp_lookup ip n' =
      Done (match arp_find (take (Z.to_nat (arp_table_curr n)) (arp_table n)) w with
            | Some older => Some older
            | None => Some hw
            end) /\
    (forall other w', ip_word other = Done w' -> w' <> w -> ip_addr evicted <> w' ->
       arp_lookup other n' = arp_lookup other n).
Proof.
  intros Hok Hip. destruct (ip_word_ok ip Hip) as (w & Hw & _).
  destruct (arp_lookup_add_spec hw ip w n Hok Hw)
    as (p & e & q & Ht & Hp & n' & Hadd & Hok' & Ht' & _).
  assert (Z.to_nat (arp_table_curr n) = length p) as Hlen by lia.
  exists w, e, n'. rewrite Hlen, Ht, list_lookup_middle, take_app_length by done.
  split_and!; try done.
  - unfold arp_lookup. rewrite Hw. cbn [mbind outcome_bind]. rewrite Ht', arp_find_app.
    destruct (arp_find p w); [done|]. cbn [arp_find ip_addr]. by rewrite Z.eqb_refl.
  - intros other w' Hw' Hne Hev. unfold arp_lookup. rewrite Hw'. cbn [mbind outcome_bind].
    rewrite Ht, Ht', !arp_find_app. destruct (arp_find p w'); [done|]. cbn [arp_find ip_addr].
    destruct (Z.eqb_spec w w'); [congruence|]. by destruct (Z.eqb_spec (ip_addr e) w').
Qed.

(** ** Sums and checksums *)

Lemma fold_carries_spec s :
  0 <= s < 2 ^ 32 ->
  exists f, fold_carries 4 s = Done f /\ 0 <= f <= 65535 /\ (s = 0 -> f = 0) /\ (0 < s -> 0 < f) /\
    exists k, s = f + 65535 * k.
Proof.
  assert (forall x, 0 <= x -> Z.shiftr x 16 = x / 65536 /\ Z.land x 0xffff = x mod 65536) as Hbits.
  { intros x Hx. split; [by rewrite Z.shiftr_div_pow2|]. change 0xffff with (Z.ones 16).
    by rewrite Z.land_ones. }
  assert (forall fuel x, 0 <= x <= 65535 -> fold_carries (S fuel) x = Done x) as Hbase.
  { intros fuel x Hx. cbn [fold_carries]. destruct (Hbits x ltac:(lia)) as [-> _].
    by rewrite Z.div_small by lia. }
  assert (forall fuel x, 65535 < x < 2 ^ 32 ->
    fold_carries (S fuel) x = fold_carries fuel (x mod 65536 + x / 65536) /\
    x = (x mod 65536 + x / 65536) + 65535 * (x / 65536) /\ 0 < x / 65536 < 65536 /\
    0 <= x mod 65536 < 65536) as Hstep.
  { intros fuel x Hx. cbn [fold_carries]. destruct (Hbits x ltac:(lia)) as [-> ->].
    assert (0 < x / 65536 < 65536) by (split; [apply Z.div_str_pos; lia|apply Z.div_lt_upper_bound; lia]).
    pose proof (Z.mod_pos_bound x 65536). pose proof (Z.div_mod x 65536).
    destruct (Z.eqb_spec (x / 65536) 0); [lia|]. rewrite u32_small by lia. split_and!; lia || done. }
  intros Hs. destruct (decide (s <= 65535)).
  { exists s. rewrite Hbase by lia. split_and!; try done; try lia. exists 0. lia. }
  destruct (Hstep 3%nat s ltac:(lia)) as (E1 & K1 & Q1 & R1). set (s1 := s mod 65536 + s / 65536) in *.
  destruct (decide (s1 <= 65535)).
  { exists s1. rewrite E1, Hbase by lia. split_and!; try done; try lia. exists (s / 65536). lia. }
  destruct (Hstep 2%nat s1 ltac:(lia)) as (E2 & K2 & Q2 & R2). set (s2 := s1 mod 65536 + s1 / 65536) in *.
  assert (s1 / 65536 = 1) as H1.
  { symmetry. apply Z.div_unique with (s1 - 65536); lia. }
  exists s2. rewrite E1, E2, Hbase by lia. split_and!; try done; try lia.
  exists (s / 65536 + s1 / 65536). lia.
Qed.

(** The value of a sum of words, without the wrap-around. *)
Fixpoint words (data : list Z) : Z :=
  match data with
  | a :: b :: rest => a + 256 * b + words rest
  | [a] => a
  | [] => 0
  end.

Lemma words_bound data : Forall is_byte data -> 0 <= words data <= 65535 * Z.of_nat (length data).
Proof.
  revert data. fix IH 1. intros [|a [|b rest]] Hb.
  - simpl. lia.
  - apply Forall_cons_1 in Hb as [Ha _]. unfold is_byte in Ha. simpl. lia.
  - apply Forall_cons_1 in Hb as [Ha Hb]. apply Forall_cons_1 in Hb as [Hb Hr].
    specialize (IH rest Hr). unfold is_byte in *. cbn [words length]. lia.
Qed.

Lemma word_sum_words data s :
  Forall is_byte data -> 0 <= s -> s + 65535 * Z.of_nat (length data) < 2 ^ 32 ->
  word_sum data s = s + words data.
Proof.
  revert data s. fix IH 1. intros [|a [|b rest]] s Hb Hs Hl.
  - simpl. lia.
  - apply Forall_cons_1 in Hb as [Ha _]. unfold is_byte in Ha. simpl in *. rewrite u32_small; lia.
  - apply Forall_cons_1 in Hb as [Ha Hb]. apply Forall_cons_1 in Hb as [Hb Hr].
    unfold is_byte in *. cbn [word_sum words length] in *. rewrite u32_small by lia.
    rewrite IH by (done || lia). lia.
Qed.

Lemma words_app d1 d2 : Nat.even (length d1) = true -> words (d1 ++ d2) = words d1 + words d2.
Proof.
  revert d1. fix IH 1. intros [|a [|b rest]] He; [done|done|].
  cbn [app words]. cbn [length Nat.even] in He. rewrite IH by done. lia.
Qed.

Lemma u16_lnot x : 0 <= x <= 65535 -> u16 (Z.lnot x) = 65535 - x.
Proof.
  intros Hx. unfold u16. replace (Z.lnot x) with (65535 - x + -1 * 2 ^ 16) by (unfold Z.lnot; lia).
  rewrite Z.mod_add by done. apply Z.mod_small. lia.
Qed.

Lemma bytes16_bytes x : 0 <= x < 2 ^ 16 -> Forall is_byte (bytes16 x) /\ words (bytes16 x) = x.
Proof.
  intros Hx. destruct (bytes16_value x Hx) as [Hv Hm]. unfold bytes16. rewrite Hm.
  pose proof (Z.mod_pos_bound x 256).
  assert (0 <= x / 256 < 256) by (split; [apply Z.div_pos; lia|apply Z.div_lt_upper_bound; lia]).
  split; [repeat apply Forall_cons_2; try apply Forall_nil_2; unfold is_byte; lia|].
  simpl. lia.
Qed.

(** [checksum] terminates on every buffer of bytes of less than 64 KiB and is
    the internet checksum: when its value is stored in the field that was zero,
    the checksum of the whole buffer is zero, which is the receiver's test. *)
Theorem checksum_verifies d1 d2 :
  Forall is_byte d1 -> Forall is_byte d2 -> Nat.even (length d1) = true ->
  Z.of_nat (length (d1 ++ d2)) < 2 ^ 16 - 2 ->
  exists c, checksum (d1 ++ bytes16 0 ++ d2) = Done c /\ 0 <= c < 2 ^ 16 /\
    checksum (d1 ++ bytes16 c ++ d2) = Done 0.
Proof.
  intros Hb1 Hb2 Heven Hlen. rewrite length_app in Hlen.
  assert (forall c, 0 <= c < 2 ^ 16 ->
    word_sum (d1 ++ bytes16 c ++ d2) 0 = words d1 + words d2 + c /\
    0 <= words d1 + words d2 + c < 2 ^ 32) as Hsum.
  { intros c Hc. destruct (bytes16_bytes c Hc) as [Hcb Hcw].
    pose proof (words_bound d1 Hb1). pose proof (words_bound d2 Hb2).
    rewrite word_sum_words.
    - rewrite words_app, words_app, Hcw by done. lia.
    - by repeat apply Forall_app_2.
    - lia.
    - rewrite !length_app. simpl. lia. }
  unfold checksum. destruct (Hsum 0 ltac:(lia)) as [-> Hr0]. rewrite Z.add_0_r in *.
  destruct (fold_carries_spec _ Hr0) as (f & -> & Hf & Hz & Hnz & k & Hk).
  cbn [mbind outcome_bind]. rewrite u16_lnot by lia.
  exists (65535 - f). split; [done|]. split; [lia|].
  destruct (Hsum (65535 - f) ltac:(lia)) as [-> Hr].
  destruct (fold_carries_spec _ Hr) as (g & -> & Hg & _ & Hgz & k' & Hk').
  cbn [mbind outcome_bind]. rewrite u16_lnot by lia. f_equal.
  assert (0 < words d1 + words d2 + (65535 - f)) as Hpos.
  { destruct (decide (words d1 + words d2 = 0)) as [H0|]; [rewrite (Hz H0); lia|lia]. }
  specialize (Hgz Hpos). lia.
Qed.

(** The big-endian reading of the same words. *)
Fixpoint be_words (data : list Z) : Z :=
  match data with
  | a :: b :: rest => 256 * a + b + be_words rest
  | [a] => 256 * a
  | [] => 0
  end.

Lemma be_words_bound data : Forall is_byte data -> 0 <= be_words data <= 65535 * Z.of_nat (length data).
Proof.
  revert data. fix IH 1. intros [|a [|b rest]] Hb.
  - simpl. lia.
  - apply Forall_cons_1 in Hb as [Ha _]. unfold is_byte in Ha. simpl. lia.
  - apply Forall_cons_1 in Hb as [Ha Hb]. apply Forall_cons_1 in Hb as [Hb Hr].
    specialize (IH rest Hr). unfold is_byte in *. cbn [be_words length]. lia.
Qed.

Lemma be_words_app d1 d2 : Nat.even (length d1) = true -> be_words (d1 ++ d2) = be_words d1 + be_words d2.
Proof.
  revert d1. fix IH 1. intros [|a [|b rest]] He; [done|done|].
  cbn [app be_words]. cbn [length Nat.even] in He. rewrite IH by done. lia.
Qed.

(** The two readings agree up to the factor 256 modulo [2^16 - 1]. *)
Lemma words_be data : Nat.even (length data) = true -> exists k, 256 * be_words data = words data + 65535 * k.
Proof.
  revert data. fix IH 1. intros [|a [|b rest]] He; [by exists 0|discriminate|].
  cbn [length Nat.even] in He. destruct (IH rest He) as [k Hk].
  exists (a + k). cbn [words be_words]. lia.
Qed.

Lemma load16_seam p a b q i :
  i = Z.of_nat (length p) -> load16 (p ++ a :: b :: q) i = Done (a + 256 * b).
Proof.
  intros Hi. unfold load16. rewrite (array_get_seam p _ a i) by done. cbn [mbind outcome_bind].
  replace (p ++ a :: b :: q) with ((p ++ [a]) ++ b :: q) by by rewrite <- app_assoc.
  rewrite array_get_seam; [done|]. rewrite length_app. simpl. lia.
Qed.

Lemma bit_flip_short_bytes a b : is_byte a -> is_byte b -> bit_flip_short (a + 256 * b) = 256 * a + b.
Proof.
  unfold is_byte. intros Ha Hb. rewrite bit_flip_short_spec by lia.
  assert ((a + 256 * b) mod 256 = a) as -> by (symmetry; apply Z.mod_unique with b; lia).
  assert ((a + 256 * b) / 256 = b) as -> by (symmetry; apply Z.div_unique with a; lia). lia.
Qed.

Lemma header_sum_spec d p s :
  Forall is_byte d -> Nat.even (length d) = true -> 0 <= s ->
  s + 65535 * Z.of_nat (length d) < 2 ^ 32 ->
  header_sum (length d / 2) (p ++ d) (Z.of_nat (length p)) s = Done (s + be_words d).
Proof.
  revert d p s. fix IH 1. intros [|a [|b rest]] p s Hb He Hs Hl.
  - cbn. f_equal. lia.
  - done.
  - apply Forall_cons_1 in Hb as [Ha Hb]. apply Forall_cons_1 in Hb as [Hb Hr].
    cbn [length Nat.even] in He. cbn [length] in Hl.
    replace (length (a :: b :: rest) / 2)%nat with (S (length rest / 2)).
    2: { cbn [length]. replace (S (S (length rest))) with (length rest + 1 * 2)%nat by lia.
         rewrite Nat.div_add by done. lia. }
    cbn [header_sum]. rewrite load16_seam by done. cbn [mbind outcome_bind].
    rewrite bit_flip_short_bytes by done. unfold is_byte in *.
    rewrite u32_small by lia.
    replace (p ++ a :: b :: rest) with ((p ++ [a; b]) ++ rest) by by rewrite <- app_assoc.
    replace (Z.of_nat (length p) + 2) with (Z.of_nat (length (p ++ [a; b])))
      by (rewrite length_app; simpl; lia).
    rewrite IH; [|done|done|lia|lia]. cbn [be_words]. f_equal. lia.
Qed.

Lemma htons_bytes c : 0 <= c < 2 ^ 16 -> bytes16 (htons c) = [c / 256; c mod 256].
Proof.
  intros Hc. unfold htons. rewrite bit_flip_short_spec by done.
  pose proof (Z.mod_pos_bound c 256).
  assert (0 <= c / 256 < 256) by (split; [apply Z.div_pos; lia|apply Z.div_lt_upper_bound; lia]).
  unfold bytes16.
  assert ((c mod 256 * 256 + c / 256) mod 256 = c / 256) as ->.
  { symmetry. apply Z.mod_unique with (c mod 256); lia. }
  assert ((c mod 256 * 256 + c / 256) / 256 = c mod 256) as ->.
  { symmetry. apply Z.div_unique with (c / 256); lia. }
  by rewrite (Z.mod_small (c mod 256)) by lia.
Qed.

Lemma be_words_htons c : 0 <= c < 2 ^ 16 -> be_words (bytes16 (htons c)) = c /\
  Forall is_byte (bytes16 (htons c)).
Proof.
  intros Hc. rewrite htons_bytes by done. pose proof (Z.mod_pos_bound c 256).
  pose proof (Z.div_mod c 256).
  assert (0 <= c / 256 < 256) by (split; [apply Z.div_pos; lia|apply Z.div_lt_upper_bound; lia]).
  split; [simpl; lia|]. repeat apply Forall_cons_2; try apply Forall_nil_2; unfold is_byte; lia.
Qed.

(** The checksum is zero exactly when the words add up to a positive multiple of
    [2^16 - 1]. *)
Lemma checksum_zero_iff d :
  Forall is_byte d -> Nat.even (length d) = true -> Z.of_nat (length d) < 2 ^ 16 ->
  0 < be_words d -> checksum d = Done 0 <-> (65535 | be_words d).
Proof.
  intros Hb He Hl Hpos. destruct (words_be d He) as [k Hk].
  pose proof (words_bound d Hb). unfold checksum.
  rewrite word_sum_words by (done || lia). rewrite Z.add_0_l.
  destruct (fold_carries_spec (words d)) as (f & -> & Hf & Hz & Hnz & j & Hj); [lia|].
  cbn [mbind outcome_bind]. rewrite u16_lnot by lia.
  assert (0 < words d) as Hw.
  { destruct (decide (0 < words d)); [done|]. assert (words d = 0) as H0 by lia. rewrite H0 in *.
    clear - Hb Hpos H0. exfalso. revert d Hb Hpos H0. fix IH 1. intros [|a [|b rest]] Hb Hpos H0.
    - simpl in Hpos. lia.
    - apply Forall_cons_1 in Hb as [Ha _]. simpl in *. lia.
    - apply Forall_cons_1 in Hb as [Ha Hb]. apply Forall_cons_1 in Hb as [Hb Hr].
      pose proof (words_bound rest Hr). unfold is_byte in *. cbn [words be_words] in *.
      apply (IH rest Hr); lia. }
  specialize (Hnz Hw). split.
  - intros [= Hc]. exists (256 * (j + 1 + k) - be_words d). lia.
  - intros [x Hx]. f_equal. assert (words d = 65535 * (256 * x - k)) as Hwx by lia.
    assert (f = 65535 * (256 * x - k - j)) by lia. lia.
Qed.

(** C10: [ipv4_checksum] adds the words of the header in network order, folds the
    carry once and complements.  The header it is stored in passes the receiver's
    test exactly when that one fold leaves no new carry. *)
Theorem ipv4_checksum_valid_iff d1 d2 :
  Forall is_byte d1 -> Forall is_byte d2 -> length d1 = 10%nat -> length d2 = 8%nat ->
  let s := be_words d1 + be_words d2 in
  exists c, ipv4_checksum (d1 ++ bytes16 0 ++ d2) = Done c /\ 0 <= c < 2 ^ 16 /\
    (checksum (d1 ++ bytes16 (htons c) ++ d2) = Done 0 <-> s mod 65536 + s / 65536 < 65536).
Proof.
  intros Hb1 Hb2 H1 H2 s.
  pose proof (be_words_bound d1 Hb1) as B1. pose proof (be_words_bound d2 Hb2) as B2.
  rewrite H1 in B1. rewrite H2 in B2.
  assert (Forall is_byte (bytes16 0)) as Hb0 by (apply bytes16_bytes; lia).
  assert (0 <= s < 20 * 65536) as Hs by (unfold s; lia).
  pose proof (Z.div_mod s 65536 ltac:(lia)) as Hdm. pose proof (Z.mod_pos_bound s 65536 ltac:(lia)).
  assert (0 <= s / 65536 < 20) by (split; [apply Z.div_pos; lia|apply Z.div_lt_upper_bound; lia]).
  set (t := s mod 65536 + s / 65536) in *.
  exists (u16 (Z.lnot t)). split; [|split; [apply u16_range|]].
  { unfold ipv4_checksum.
    pose proof (header_sum_spec (d1 ++ bytes16 0 ++ d2) [] 0) as Hsum.
    rewrite !length_app, H1, H2 in Hsum. change (length (bytes16 0)) with 2%nat in Hsum.
    change (Z.of_nat (length [])) with 0 in Hsum. cbn [app] in Hsum.
    change ((10 + (2 + 8)) / 2)%nat with 10%nat in Hsum. rewrite Hsum; [|by repeat apply Forall_app_2|done|lia|lia].
    cbn [mbind outcome_bind]. rewrite !be_words_app by (rewrite ?H1; done).
    change (be_words (bytes16 0)) with 0.
    replace (0 + (be_words d1 + (0 + be_words d2))) with s by (unfold s; lia).
    rewrite Z.shiftr_div_pow2 by lia. change 0x0000ffff with (Z.ones 16). rewrite Z.land_ones by lia.
    change (2 ^ 16) with 65536. fold t. by rewrite u32_small by lia. }
  assert (exists r, u16 (Z.lnot t) = r /\ 0 <= r < 65536 /\
    (t < 65536 /\ r = 65535 - t \/ 65536 <= t /\ r = 65535 - (t - 65536))) as (c & -> & Hc & Hcase).
  { destruct (Z.lt_ge_cases t 65536) as [Hlt|Hge].
    - exists (65535 - t). rewrite u16_lnot by lia. split_and!; lia.
    - exists (65535 - (t - 65536)). split_and!; try lia.
      rewrite <- u16_lnot by lia. unfold u16, Z.lnot.
      replace (Z.pred (- (t - 65536))) with (Z.pred (- t) + 1 * 2 ^ 16) by lia.
      by rewrite Z.mod_add. }
  destruct (be_words_htons c Hc) as [Hcw Hcb].
  rewrite checksum_zero_iff.
  - rewrite !be_words_app, Hcw by (rewrite ?H1; done).
    replace (be_words d1 + (c + be_words d2)) with (s + c) by (unfold s; lia).
    split.
    + intros [x Hx]. lia.
    + intros Hlt. exists (s / 65536 + 1). lia.
  - by repeat apply Forall_app_2.
  - by rewrite !length_app, H1, H2.
  - rewrite !length_app, H1, H2. cbn. lia.
  - rewrite !be_words_app, Hcw by (rewrite ?H1; done).
    enough (0 < s + c) by (unfold s in *; lia). lia.
Qed.

(** ** Requests and replies *)

(** Buffers given by their first bytes: the fields are computed away. *)
Ltac fields :=
  repeat (first
    [ rewrite get_bytes_ok by (cbn [length]; lia)
    | rewrite put_bytes_ok by (cbn [length]; lia) ];
    repeat match goal with
      | |- context [Z.to_nat ?z] => let k := eval vm_compute in (Z.to_nat z) in change (Z.to_nat z) with k
      end;
    cbn [mbind outcome_bind Nat.add take drop app length]; rewrite ?take_0, ?drop_0).

(** What [arp_send_packet] puts on the wire. *)
Definition arp_request_frame (c : netcard_entry) (dest_ip : list Z) : list Z :=
  replicate 6 0xff ++ mac c ++ [0x08; 0x06] ++
  [0; 1; 0x08; 0; 6; 4; 0; 1] ++ mac c ++ ipv4_addr c ++ replicate 6 0 ++ dest_ip.

Definition arp_reply_frame (c : netcard_entry) (dest_mac dest_ip : list Z) : list Z :=
  dest_mac ++ mac c ++ [0x08; 0x06] ++
  [0; 1; 0x08; 0; 6; 4; 0; 2] ++ mac c ++ ipv4_addr c ++ dest_mac ++ dest_ip.

Lemma length_4 (l : list Z) : length l = 4%nat -> exists a b c d, l = [a; b; c; d].
Proof. destruct l as [|a [|b [|c [|d [|? ?]]]]]; try done. intros _. by exists a, b, c, d. Qed.

Lemma length_6 (l : list Z) : length l = 6%nat -> exists a b c d e f, l = [a; b; c; d; e; f].
Proof.
  destruct l as [|a [|b [|c [|d [|e [|f [|? ?]]]]]]]; try done. intros _. by exists a, b, c, d, e, f.
Qed.

Lemma length_14 (l : list Z) :
  length l = 14%nat -> exists a b c, l = a ++ b ++ c /\ length a = 4%nat /\ length b = 4%nat /\ length c = 6%nat.
Proof.
  intros Hl. exists (take 4 l), (take 4 (drop 4 l)), (drop 8 l).
  rewrite !length_take, !length_drop. split_and!; try lia.
  rewrite <- (take_drop 4 l) at 1. f_equal. rewrite <- (take_drop 4 (drop 4 l)) at 1.
  by rewrite drop_drop.
Qed.

Lemma net_ok_card card c n :
  net_ok n -> array_get (cards n) card = Done c -> length (ipv4_addr c) = 4%nat /\ length (mac c) = 6%nat.
Proof.
  intros [_ _ Hc _] Hg. apply array_get_Done in Hg as [_ Hg].
  by apply (Forall_lookup_1 _ _ _ _ Hc Hg).
Qed.

(** An ARP request leads to a reply exactly when the address asked for is not
    the card's: the reply carries the card's addresses and goes to the sender.  A
    request for the card's own address is left unanswered.  In both cases the
    sender is entered into the cache. *)
Theorem arp_request_answered_unless_mine card c eth hw smac sip tmac tip pad n :
  net_ok n -> array_get (cards n) card = Done c ->
  length eth = 14%nat -> length hw = 6%nat -> length smac = 6%nat -> length sip = 4%nat ->
  length tmac = 6%nat -> length tip = 4%nat ->
  arp_handle_packet card (eth ++ hw ++ bytes16 (htons ARP_REQUEST) ++ smac ++ sip ++ tmac ++ tip ++ pad) 14 n
  = arp_lookup_add smac sip
      (if decide (tip = ipv4_addr c) then n
       else netstack_push card (arp_reply_frame c smac sip) n).
Proof.
  intros Hok Hc Heth Hhw Hsm Hsi Htm Hti. destruct (net_ok_card card c n Hok Hc) as [Hcip Hcm].
  destruct (memcmp_eq tip (ipv4_addr c)) as (r & Hr & Hr0); [by rewrite Hti|]. rewrite Hti in Hr.
  destruct c as [cip cm]. cbn [ipv4_addr mac] in *. unfold arp_reply_frame. cbn [mac ipv4_addr].
  destruct (length_14 eth Heth) as (e1 & e2 & e3 & -> & H1 & H2 & H3).
  apply length_4 in H1 as (?&?&?&?&->), H2 as (?&?&?&?&->). apply length_6 in H3 as (?&?&?&?&?&?&->).
  apply length_6 in Hhw as (?&?&?&?&?&?&->), Hsm as (?&?&?&?&?&?&->), Htm as (?&?&?&?&?&?&->),
    Hcm as (?&?&?&?&?&?&->).
  apply length_4 in Hsi as (?&?&?&?&->), Hti as (?&?&?&?&->), Hcip as (?&?&?&?&->).
  change (bytes16 (htons ARP_REQUEST)) with [0; 1]. cbn [app].
  unfold arp_handle_packet. fields.
  change (load16 _ (14 + 6)) with (Done 256). cbn [mbind outcome_bind].
  change (ntohs 256 =? ARP_REQUEST) with true. cbn iota. fields.
  rewrite Hc. cbn [mbind outcome_bind ipv4_addr]. rewrite Hr. cbn [mbind outcome_bind].
  case_decide as Ht.
  - rewrite (proj2 Hr0 Ht). done.
  - destruct (Z.eqb_spec r 0) as [Hz|_]; [by destruct Ht; apply Hr0|]. cbn [negb].
    unfold arp_reply, store16, store8. cbn [mac ipv4_addr]. unfold bytes16. fields.
    unfold ethernet_send_packet. rewrite Hc. cbn [mbind outcome_bind mac].
    reflexivity.
Qed.

(** ** Sending IPv4 packets *)

Lemma arp_send_packet_frame card c dest_ip n :
  array_get (cards n) card = Done c ->
  arp_send_packet card (replicate 6 0) dest_ip n = Done (netstack_push card (arp_request_frame c dest_ip) n).
Proof.
  intros Hc. unfold arp_send_packet, ethernet_send_packet. rewrite Hc. reflexivity.
Qed.

Fixpoint push_times (k : nat) (card : Z) (packet_data : list Z) (n : net) : net :=
  match k with
  | O => n
  | S k' => push_times k' card packet_data (netstack_push card packet_data n)
  end.

Lemma resolve_step spin card dest_ip n :
  resolve (S (S spin)) card dest_ip n =
    found ← arp_lookup dest_ip n;
    match found with
    | Some m => Done (Some m, n)
    | None => n' ← arp_send_packet card (replicate 6 0) dest_ip n; resolve (S spin) card dest_ip n'
    end.
Proof. reflexivity. Qed.

Lemma resolve_spec spin card c dest_ip w n :
  array_get (cards n) card = Done c -> ip_word dest_ip = Done w ->
  resolve (S spin) card dest_ip n =
    Done (match arp_find (arp_table n) w with
          | Some m => (Some m, n)
          | None => (None, push_times spin card (arp_request_frame c dest_ip) n)
          end).
Proof.
  intros Hc Hw. revert n Hc. induction spin as [|spin IH]; intros n Hc;
    [cbn [resolve]|rewrite resolve_step]; unfold arp_lookup; rewrite Hw; cbn [mbind outcome_bind];
    destruct (arp_find (arp_table n) w) eqn:E; try done.
  rewrite (arp_send_packet_frame card c) by done. cbn [mbind outcome_bind].
  rewrite IH by done. cbn [netstack_push with_queues arp_table]. by rewrite E.
Qed.

Lemma push_times_queue k card data n :
  push_times k card data n =
    with_queues (incoming_queue n) (outgoing_queue n ++ replicate k (QueueItem card data)) (sent n) n.
Proof.
  revert n. induction k as [|k IH]; intros n.
  - simpl. rewrite app_nil_r. by destruct n.
  - cbn [push_times replicate]. rewrite IH. unfold netstack_push, with_queues. cbn. by rewrite <- app_assoc.
Qed.

(** The header and the payload as they are sent. *)
Definition ipv4_frame (c : netcard_entry) (dest_mac dest_ip data : list Z) (protocol check : Z) : list Z :=
  dest_mac ++ mac c ++ [0x08; 0x00] ++
  ipv4_header (ipv4_addr c) dest_ip (Z.of_nat (length data)) protocol (htons check) ++ data.

Lemma ipv4_checksum_header source dest_ip size protocol :
  length source = 4%nat -> length dest_ip = 4%nat ->
  exists check, ipv4_checksum (ipv4_header source dest_ip size protocol 0) = Done check.
Proof.
  intros Hs Hd. apply length_4 in Hs as (?&?&?&?&->), Hd as (?&?&?&?&->).
  unfold ipv4_header, bytes16. cbn [app]. eexists. reflexivity.
Qed.

Lemma ipv4_send_packet_run card c dest_ip data protocol n w check :
  array_get (cards n) card = Done c -> ip_word dest_ip = Done w ->
  ipv4_checksum (ipv4_header (ipv4_addr c) dest_ip (Z.of_nat (length data)) protocol 0) = Done check ->
  ipv4_send_packet card dest_ip data protocol n =
    Done (with_queues (incoming_queue n)
      (outgoing_queue n ++
       match arp_find (arp_table n) w with
       | Some m => [QueueItem card (ipv4_frame c m dest_ip data protocol check)]
       | None => replicate 9 (QueueItem card (arp_request_frame c dest_ip))
       end) (sent n) n).
Proof.
  intros Hc Hw Hck. unfold ipv4_send_packet. rewrite Hc. cbn [mbind outcome_bind].
  rewrite Hck. cbn [mbind outcome_bind].
  change 10%nat with (S 9). rewrite (resolve_spec 9 card c dest_ip w) by done. cbn [mbind outcome_bind].
  destruct (arp_find (arp_table n) w); [|by rewrite push_times_queue].
  unfold ethernet_send_packet. rewrite Hc. reflexivity.
Qed.

(** Sending to an address in the cache queues one frame, made of the
    addresses, the header with its checksum and the data, and changes nothing
    else.  Sending to any other address queues nine ARP requests for it and drops
    the packet: the loop does not wait for an answer. *)
Theorem ipv4_send_packet_spec card c dest_ip data protocol n :
  net_ok n -> is_ip dest_ip -> array_get (cards n) card = Done c ->
  exists w check, ip_word dest_ip = Done w /\
    ipv4_checksum (ipv4_header (ipv4_addr c) dest_ip (Z.of_nat (length data)) protocol 0) = Done check /\
    ipv4_send_packet card dest_ip data protocol n =
      Done (with_queues (incoming_queue n)
        (outgoing_queue n ++
         match arp_find (arp_table n) w with
         | Some m => [QueueItem card (ipv4_frame c m dest_ip data protocol check)]
         | None => replicate 9 (QueueItem card (arp_request_frame c dest_ip))
         end) (sent n) n).
Proof.
  intros Hok Hip Hc. destruct (net_ok_card card c n Hok Hc) as [Hcip _].
  destruct (ip_word_ok dest_ip Hip) as (w & Hw & _).
  destruct (ipv4_checksum_header (ipv4_addr c) dest_ip (Z.of_nat (length data)) protocol Hcip
    (proj1 Hip)) as [check Hck].
  exists w, check. split; [done|]. split; [done|]. by apply ipv4_send_packet_run.
Qed.

(** ** Connections *)

Definition conn_matches (address port : Z) (c : tcp_connection) : bool :=
  (dest_ip_addr c =? address) && ((source_port c =? port) || (dest_port c =? port))
  && negb (bool_decide (status c = TCP_NONE)).

Lemma find_connection_spec cs i address port :
  (find_connection cs i address port = -1 /\ Forall (fun c => conn_matches address port c = false) cs) \/
  (exists p c q, cs = p ++ c :: q /\ find_connection cs i address port = i + Z.of_nat (length p) /\
     conn_matches address port c = true /\ Forall (fun c => conn_matches address port c = false) p).
Proof.
  revert i. induction cs as [|c cs IH]; intros i; [by left|]. cbn [find_connection].
  fold (conn_matches address port c). destruct (conn_matches address port c) eqn:E.
  - right. exists [], c, cs. split_and!; try done. simpl. lia.
  - destruct (IH (i + 1)) as [[Hf Ha]|(p & d & q & -> & Hf & Hd & Ha)].
    + left. split; [done|]. by apply Forall_cons_2.
    + right. exists (c :: p), d, q. split_and!; try done; [rewrite Hf; simpl; lia|by apply Forall_cons_2].
Qed.

Lemma find_connection_seam p c q address port i :
  Forall (fun c => conn_matches address port c = false) p -> conn_matches address port c = true ->
  find_connection (p ++ c :: q) i address port = i + Z.of_nat (length p).
Proof.
  intros Hp Hc. revert i. induction p as [|d p IH]; intros i; cbn [app find_connection].
  - fold (conn_matches address port c). rewrite Hc. simpl. lia.
  - apply Forall_cons_1 in Hp as [Hd Hp]. fold (conn_matches address port d).
    rewrite Hd, IH by done. simpl. lia.
Qed.

Definition conn_empty (c : tcp_connection) : bool :=
  (dest_ip_addr c =? 0) && (source_port c =? 0) && bool_decide (status c = TCP_NONE).

Lemma find_empty_spec cs i :
  (find_empty cs i = -1 /\ Forall (fun c => conn_empty c = false) cs) \/
  (exists p c q, cs = p ++ c :: q /\ find_empty cs i = i + Z.of_nat (length p) /\ conn_empty c = true).
Proof.
  revert i. induction cs as [|c cs IH]; intros i; [by left|]. cbn [find_empty].
  fold (conn_empty c). destruct (conn_empty c) eqn:E.
  - right. exists [], c, cs. split_and!; try done. simpl. lia.
  - destruct (IH (i + 1)) as [[Hf Ha]|(p & d & q & -> & Hf & Hd)].
    + left. split; [done|]. by apply Forall_cons_2.
    + right. exists (c :: p), d, q. split_and!; try done. rewrite Hf. simpl. lia.
Qed.

(** Reads of a buffer given by its first bytes. *)
Ltac loads :=
  unfold load8, load16, load32;
  repeat (match goal with
    | |- context [array_get ?l ?i] =>
        let k := eval vm_compute in (Z.to_nat i) in
        let o := eval lazy beta iota zeta delta [lookup list_lookup] in (l !! k) in
        match o with Some ?x => change (array_get l i) with (Done x) end
    end; cbn [mbind outcome_bind]).

Lemma bytes16_swap a b : is_byte a -> is_byte b -> bytes16 (u16 (ntohs (a + 256 * b))) = [b; a].
Proof.
  intros Ha Hb. unfold ntohs. rewrite bit_flip_short_bytes by done. unfold is_byte in *.
  rewrite u16_small by lia. unfold bytes16.
  assert ((256 * a + b) mod 256 = b) as -> by (symmetry; apply Z.mod_unique with a; lia).
  assert ((256 * a + b) / 256 = a) as -> by (symmetry; apply Z.div_unique with b; lia).
  by rewrite Z.mod_small.
Qed.

Lemma bytes32_swap a b c d :
  is_byte a -> is_byte b -> is_byte c -> is_byte d ->
  bytes32 (u32 (ntohl (a + 256 * b + 65536 * c + 16777216 * d))) = [d; c; b; a].
Proof.
  intros Ha Hb Hc Hd. unfold ntohl. rewrite bit_flip_int_bytes by done.
  rewrite u32_small by (unfold is_byte in *; lia). by apply split_bytes.
Qed.

(** A segment as it comes from the wire. *)
Record segment := Segment {
  s_source : list Z; s_destination : list Z; s_seq : list Z; s_ack : list Z;
  s_offset : Z; s_flags : Z; s_rest : list Z
}.

Definition segment_bytes (s : segment) : list Z :=
  s_source s ++ s_destination s ++ s_seq s ++ s_ack s ++ [s_offset s; s_flags s] ++ s_rest s.

Definition segment_ok (s : segment) : Prop :=
  length (s_source s) = 2%nat /\ length (s_destination s) = 2%nat /\ is_ip (s_seq s) /\
  is_ip (s_ack s) /\ length (s_rest s) = 6%nat /\
  Forall is_byte (s_source s) /\ Forall is_byte (s_destination s) /\ is_byte (s_flags s).

Definition le16 (l : list Z) : Z := nth 0 l 0 + 256 * nth 1 l 0.
Definition be32 (l : list Z) : Z :=
  nth 3 l 0 + 256 * nth 2 l 0 + 65536 * nth 1 l 0 + 16777216 * nth 0 l 0.

Lemma is_ip_4 l : is_ip l -> exists a b c d, l = [a; b; c; d] /\ is_byte a /\ is_byte b /\ is_byte c /\ is_byte d.
Proof.
  intros [Hl Hb]. destruct (length_4 l Hl) as (a & b & c & d & ->).
  exists a, b, c, d. repeat (apply Forall_cons_1 in Hb as [? Hb]). done.
Qed.

Lemma bytes_2 l :
  length l = 2%nat -> Forall is_byte l -> exists a b, l = [a; b] /\ is_byte a /\ is_byte b.
Proof.
  intros Hl Hb. destruct l as [|a [|b [|? ?]]]; try done. exists a, b.
  repeat (apply Forall_cons_1 in Hb as [? Hb]). done.
Qed.

Lemma length_26 (l : list Z) :
  length l = 26%nat -> exists a b c d e, l = a ++ b ++ c ++ d ++ e /\ length a = 4%nat /\
    length b = 4%nat /\ length c = 6%nat /\ length d = 6%nat /\ length e = 6%nat.
Proof.
  intros Hl. destruct (length_14 (take 14 l)) as (a & b & c & E & ? & ? & ?); [by rewrite length_take, Hl|].
  exists a, b, c, (take 6 (drop 14 l)), (drop 6 (drop 14 l)).
  rewrite !length_take, !length_drop, Hl. split_and!; try done.
  rewrite <- (take_drop 14 l) at 1. rewrite E, <- !app_assoc. do 3 f_equal.
  by rewrite take_drop.
Qed.

(** The fields that the handler works with. *)
Lemma tcp_handle_packet_fields card pre sip dip s pad n w :
  length pre = 26%nat -> is_ip sip -> length dip = 4%nat -> segment_ok s -> ip_word sip = Done w ->
  tcp_handle_packet card (pre ++ sip ++ dip ++ segment_bytes s ++ pad) 34 n =
  tcp_deliver card (pre ++ sip ++ dip ++
      segment_bytes (Segment (rev (s_source s)) (rev (s_destination s)) (rev (s_seq s)) (rev (s_ack s))
        (s_offset s) (s_flags s) (s_rest s)) ++ pad) 34 sip w
    (le16 (s_source s)) (be32 (s_seq s)) (s_flags s) n.
Proof.
  intros Hpre Hsip Hdip Hs Hw. destruct s as [src dst sq ak so fl rest]. unfold segment_ok in Hs.
  cbn [s_source s_destination s_seq s_ack s_offset s_flags s_rest] in *.
  destruct Hs as (Hs1 & Hs2 & Hsq & Hak & Hr & Hb1 & Hb2 & Hf).
  destruct (bytes_2 src Hs1 Hb1) as (s0 & s1 & -> & ? & ?).
  destruct (bytes_2 dst Hs2 Hb2) as (d0 & d1 & -> & ? & ?).
  destruct (is_ip_4 sq Hsq) as (q0 & q1 & q2 & q3 & -> & ? & ? & ? & ?).
  destruct (is_ip_4 ak Hak) as (k0 & k1 & k2 & k3 & -> & ? & ? & ? & ?).
  destruct (is_ip_4 sip Hsip) as (i0 & i1 & i2 & i3 & -> & ? & ? & ? & ?).
  apply length_4 in Hdip as (?&?&?&?&->). apply length_6 in Hr as (?&?&?&?&?&?&->).
  destruct (length_26 pre Hpre) as (e1 & e2 & e3 & e4 & e5 & -> & L1 & L2 & L3 & L4 & L5).
  apply length_4 in L1 as (?&?&?&?&->), L2 as (?&?&?&?&->).
  apply length_6 in L3 as (?&?&?&?&?&?&->), L4 as (?&?&?&?&?&?&->), L5 as (?&?&?&?&?&?&->).
  unfold segment_bytes. cbn [s_source s_destination s_seq s_ack s_offset s_flags s_rest rev app].
  unfold tcp_handle_packet, tcp_host_order, store16, store32. loads. 
  rewrite bytes16_swap by done. fields. loads. rewrite bytes16_swap by done. fields. loads.
  rewrite bytes32_swap by done. fields. loads. rewrite bytes32_swap by done. fields.
  rewrite Hw. cbn [mbind outcome_bind]. loads.
  unfold ntohs. rewrite bit_flip_short_bytes by done. unfold le16, be32. cbn [nth].
  by rewrite (Z.add_comm (256 * s1)).
Qed.

(** The number of the connection and its record once the segment is assigned. *)
Definition handshake_flags (fl : Z) : bool :=
  xorb (Z.testbit fl SYN) (Z.testbit fl ACK) && negb (Z.testbit fl PSH) && negb (Z.testbit fl FIN).

Lemma tcp_deliver_found card buf off sip w port pseq fl n p c q :
  tcp_connections n = p ++ c :: q ->
  Forall (fun d => conn_matches w port d = false) p -> conn_matches w port c = true ->
  array_get (tcp_connections n) (tcp_find_connection w port n) = Done c /\
  tcp_deliver card buf off sip w port pseq fl n =
    (if bool_decide (status c = TCP_CREATED) && handshake_flags fl then
       if Z.testbit fl SYN then tcp_stage_1 (Z.of_nat (length p)) buf off sip n
       else n2 ← update_connection (Z.of_nat (length p)) (fun c => TcpConnection (conn_card c)
                   (dest_ip_addr c) (source_port c) (dest_port c) (seq c) (ack c) TCP_ESTABLISHED) n;
            tcp_send_packet (Z.of_nat (length p)) hello n2
     else Hang).
Proof.
  intros Hn Hp Hc. unfold tcp_deliver, tcp_find_connection. rewrite Hn, find_connection_seam by done.
  split; [by apply array_get_seam; lia|].
  destruct (Z.eqb_spec (0 + Z.of_nat (length p)) (-1)); [lia|]. cbn [mbind outcome_bind].
  rewrite Hn, find_connection_seam, array_get_seam by (done || lia). cbn [mbind outcome_bind].
  rewrite Z.add_0_l. unfold handshake_flags.
  destruct (bool_decide _), (Z.testbit fl SYN), (Z.testbit fl ACK), (Z.testbit fl PSH), (Z.testbit fl FIN);
    reflexivity.
Qed.

(** A new connection, in the first empty slot. *)
Definition new_connection (card w port pseq : Z) (old : tcp_connection) : tcp_connection :=
  TcpConnection card w (u16 port) (dest_port old) (u32 pseq) (ack old) TCP_CREATED.

Lemma new_connection_matches card w port pseq old :
  0 <= port < 2 ^ 16 -> conn_matches w port (new_connection card w port pseq old) = true.
Proof.
  intros Hp. unfold conn_matches, new_connection. cbn [dest_ip_addr source_port dest_port status].
  by rewrite u16_small, !Z.eqb_refl by done.
Qed.

Lemma tcp_deliver_new card buf off sip w port pseq fl n p old q :
  0 <= port < 2 ^ 16 -> tcp_connections n = p ++ old :: q ->
  find_empty (tcp_connections n) 0 = Z.of_nat (length p) -> tcp_find_connection w port n = -1 ->
  tcp_deliver card buf off sip w port pseq fl n =
  tcp_deliver card buf off sip w port pseq fl
    (with_connections (p ++ new_connection card w port pseq old :: q) n).
Proof.
  intros Hport Hn He Hf. unfold tcp_deliver. rewrite Hf. cbn [Z.eqb Pos.eqb].
  unfold tcp_new_connection. rewrite He, Hn. destruct (Z.eqb_spec (Z.of_nat (length p)) (-1)); [lia|].
  rewrite array_get_seam by done. cbn [mbind outcome_bind]. rewrite array_set_seam by done.
  cbn [mbind outcome_bind]. fold (new_connection card w port pseq old).
  assert (tcp_find_connection w port (with_connections (p ++ new_connection card w port pseq old :: q) n)
    = Z.of_nat (length p)) as Hnew; [|
    cbn [mbind outcome_bind]; rewrite !Hnew;
    destruct (Z.eqb_spec (Z.of_nat (length p)) (-1)); [lia|];
    cbn [mbind outcome_bind]; by rewrite ?Hnew].
  unfold tcp_find_connection in *. cbn [tcp_connections with_connections].
  rewrite find_connection_seam; [lia| |by apply new_connection_matches].
  rewrite Hn in Hf. destruct (find_connection_spec (p ++ old :: q) 0 w port)
    as [[_ Ha]|(p' & c' & q' & _ & Hf' & _)]; [by apply Forall_app in Ha as [? _]|lia].
Qed.

Lemma le16_range l : length l = 2%nat -> Forall is_byte l -> 0 <= le16 l < 2 ^ 16.
Proof. intros Hl Hb. destruct (bytes_2 l Hl Hb) as (a & b & -> & ? & ?). unfold is_byte in *. unfold le16. cbn [nth]. lia. Qed.

(** The two ways a segment is assigned to a connection, as one statement. *)
Lemma tcp_deliver_cases card buf off sip w port pseq fl n :
  0 <= port < 2 ^ 16 ->
  (exists p c q, tcp_connections n = p ++ c :: q /\
     Forall (fun d => conn_matches w port d = false) p /\ conn_matches w port c = true) \/
  (tcp_find_connection w port n = -1 /\
   Forall (fun d => conn_matches w port d = false) (tcp_connections n) /\
   exists p old q, tcp_connections n = p ++ old :: q /\
     find_empty (tcp_connections n) 0 = Z.of_nat (length p) /\
     tcp_deliver card buf off sip w port pseq fl n =
     tcp_deliver card buf off sip w port pseq fl
       (with_connections (p ++ new_connection card w port pseq old :: q) n)) \/
  (tcp_find_connection w port n = -1 /\ find_empty (tcp_connections n) 0 = -1 /\
   tcp_deliver card buf off sip w port pseq fl n = Fault).
Proof.
  intros Hport. destruct (find_connection_spec (tcp_connections n) 0 w port)
    as [[Hf Hall]|(p & c & q & Hn & _ & Hc & Hp)]; [right|left; by exists p, c, q].
  destruct (find_empty_spec (tcp_connections n) 0) as [[He _]|(p & old & q & Hn & He & _)]; [right|left].
  - split_and!; try done. unfold tcp_deliver, tcp_new_connection. unfold tcp_find_connection.
    rewrite Hf, He. cbn [Z.eqb Pos.eqb mbind outcome_bind]. by rewrite Hf.
  - split; [done|]. split; [done|]. exists p, old, q. split_and!; try done. by apply tcp_deliver_new.
Qed.


Lemma word_sum_range data s : 0 <= s < 2 ^ 32 -> 0 <= word_sum data s < 2 ^ 32.
Proof.
  revert data s. fix IH 1. intros [|a [|b rest]] s Hs; cbn [word_sum]; [done|apply u32_range|].
  apply IH, u32_range.
Qed.

(** [checksum] always returns. *)
Lemma checksum_total data : exists c, checksum data = Done c /\ 0 <= c < 2 ^ 16.
Proof.
  unfold checksum. destruct (fold_carries_spec (word_sum data 0)) as (f & -> & _).
  - apply word_sum_range. lia.
  - exists (u16 (Z.lnot f)). split; [done|apply u16_range].
Qed.

(** The answer to a SYN: the ports are exchanged, the sequence number is new and the
    one received is acknowledged; version of the header, window and urgent pointer
    stay as they came. *)
Definition syn_ack (s : segment) (r check : Z) : list Z :=
  s_destination s ++ s_source s ++ bytes32 (u32 (htonl (u32 r))) ++
  bytes32 (u32 (htonl (u32 (be32 (s_seq s) + 1)))) ++
  [u8 (Z.lor (Z.land (s_offset s) 0x0f) 0x50); u8 (Z.lor (Z.lor (s_flags s) 0x10) 0x02)] ++
  take 2 (s_rest s) ++ bytes16 (u16 check) ++ drop 4 (s_rest s).

Lemma bytes32_4 x : exists a b c d, bytes32 x = [a; b; c; d].
Proof. by eexists _, _, _, _. Qed.

Lemma stage_1_segment_spec s r check my_ip source_ip :
  segment_ok s ->
  tcp_calculate_checksum my_ip source_ip (syn_ack s r 0) 20 = Done check ->
  exists d0 d1 s0 s1, s_destination s = [d0; d1] /\ s_source s = [s0; s1] /\
  stage_1_segment (segment_bytes (Segment (rev (s_source s)) (rev (s_destination s)) (rev (s_seq s))
      (rev (s_ack s)) (s_offset s) (s_flags s) (s_rest s)))
    (u32 r) (u32 (be32 (s_seq s) + 1)) (d1 + 256 * d0) (s1 + 256 * s0) my_ip source_ip =
  Done (syn_ack s r check).
Proof.
  intros Hs Hck. destruct s as [src dst sq ak so fl rest]. unfold segment_ok in Hs. unfold syn_ack in *.
  cbn [s_source s_destination s_seq s_ack s_offset s_flags s_rest] in *.
  destruct Hs as (Hs1 & Hs2 & Hsq & Hak & Hr & Hb1 & Hb2 & Hf).
  destruct (bytes_2 src Hs1 Hb1) as (s0 & s1 & -> & ? & ?).
  destruct (bytes_2 dst Hs2 Hb2) as (d0 & d1 & -> & ? & ?).
  exists d0, d1, s0, s1. split; [done|]. split; [done|].
  destruct (is_ip_4 sq Hsq) as (q0 & q1 & q2 & q3 & -> & ? & ? & ? & ?).
  destruct (is_ip_4 ak Hak) as (k0 & k1 & k2 & k3 & -> & ? & ? & ? & ?).
  apply length_6 in Hr as (w0 & w1 & c0 & c1 & u0 & u1 & ->).
  generalize dependent (u32 (be32 [q0; q1; q2; q3] + 1)). intros a Hck. generalize dependent (u32 r). intros b Hck.
  unfold segment_bytes, stage_1_segment.
  cbn [s_source s_destination s_seq s_ack s_offset s_flags s_rest rev app take drop] in *.
  destruct (bytes32_4 (u32 (htonl b))) as (r0 & r1 & r2 & r3 & Er).
  destruct (bytes32_4 (u32 (htonl a))) as (a0 & a1 & a2 & a3 & Ea).
  rewrite Er, Ea in *. change (bytes16 (u16 0)) with [0; 0] in Hck. cbn [app] in *.
  loads. unfold store8, store16, store32. rewrite Er, Ea. change (bytes16 (u16 0)) with [0; 0].
  rewrite !bytes16_swap by done. fields. loads. fields.
  change (Z.shiftl 1 ACK) with 0x10. change (Z.shiftl 1 SYN) with 0x02. rewrite Hck.
  cbn [mbind outcome_bind]. destruct (bytes16 (u16 check)) as [|x [|y [|? ?]]] eqn:E; try discriminate.
  fields. reflexivity.
Qed.

(** What stage 1 reads of the frame. *)
Lemma stage_1_reads pre sip dip s pad d0 d1 s0 s1 :
  length pre = 26%nat -> is_ip sip -> length dip = 4%nat -> segment_ok s ->
  s_destination s = [d0; d1] -> s_source s = [s0; s1] ->
  let swapped := segment_bytes (Segment (rev (s_source s)) (rev (s_destination s)) (rev (s_seq s))
    (rev (s_ack s)) (s_offset s) (s_flags s) (s_rest s)) in
  let buf := pre ++ sip ++ dip ++ swapped ++ pad in
  get_bytes buf 34 20 = Done swapped /\ load32 buf (34 + 4) = Done (be32 (s_seq s)) /\
  load16 buf (34 + 2) = Done (d1 + 256 * d0) /\ load16 buf 34 = Done (s1 + 256 * s0) /\
  get_bytes buf (34 - 20 + 16) 4 = Done dip.
Proof.
  intros Hpre Hsip Hdip Hs Hd0 Hs0. destruct s as [src dst sq ak so fl rest]. unfold segment_ok in Hs.
  cbn [s_source s_destination s_seq s_ack s_offset s_flags s_rest] in *. subst src dst.
  destruct Hs as (_ & _ & [Hsq _] & [Hak _] & Hr & _). destruct Hsip as [Hsip _].
  apply length_4 in Hsq as (?&?&?&?&->), Hak as (?&?&?&?&->), Hsip as (?&?&?&?&->), Hdip as (?&?&?&?&->).
  apply length_6 in Hr as (?&?&?&?&?&?&->).
  destruct (length_26 pre Hpre) as (e1 & e2 & e3 & e4 & e5 & -> & L1 & L2 & L3 & L4 & L5).
  apply length_4 in L1 as (?&?&?&?&->), L2 as (?&?&?&?&->).
  apply length_6 in L3 as (?&?&?&?&?&?&->), L4 as (?&?&?&?&?&?&->), L5 as (?&?&?&?&?&?&->).
  unfold segment_bytes. cbn [s_source s_destination s_seq s_ack s_offset s_flags s_rest rev app].
  split_and!; fields; loads; reflexivity.
Qed.

Lemma tcp_stage_1_run card c pre sip dip s pad n w p d q m :
  length pre = 26%nat -> is_ip sip -> length dip = 4%nat -> segment_ok s -> ip_word sip = Done w ->
  tcp_connections n = p ++ d :: q -> conn_card d = card ->
  array_get (cards n) card = Done c -> length (ipv4_addr c) = 4%nat -> arp_find (arp_table n) w = Some m ->
  let r := fst (rand n) in
  exists check ip_check,
    tcp_calculate_checksum dip sip (syn_ack s r 0) 20 = Done check /\
    ipv4_checksum (ipv4_header (ipv4_addr c) sip (Z.of_nat (length (syn_ack s r check)))
      ETH_IPv4_HEAD_TCP 0) = Done ip_check /\
    tcp_stage_1 (Z.of_nat (length p)) (pre ++ sip ++ dip ++
      segment_bytes (Segment (rev (s_source s)) (rev (s_destination s)) (rev (s_seq s)) (rev (s_ack s))
        (s_offset s) (s_flags s) (s_rest s)) ++ pad) 34 sip n =
    Done (with_connections (p ++ TcpConnection (conn_card d) (dest_ip_addr d) (source_port d)
            (le16 (s_destination s)) (u32 r) (u32 (be32 (s_seq s) + 1)) TCP_CREATED :: q)
      (with_queues (incoming_queue n)
         (outgoing_queue n ++
          [QueueItem card (ipv4_frame c m sip (syn_ack s r check) ETH_IPv4_HEAD_TCP ip_check)])
         (sent n) (with_seed r n))).
Proof.
  intros Hpre Hsip Hdip Hs Hw Hn Hd Hc Hcip Hm r.
  assert (exists check, tcp_calculate_checksum dip sip (syn_ack s r 0) 20 = Done check) as [check Hck].
  { unfold tcp_calculate_checksum. rewrite get_bytes_ok; [|lia|lia|].
    - cbn [mbind outcome_bind]. match goal with |- context [checksum ?l] =>
        destruct (checksum_total l) as (x & Hx & _) end. by exists x.
    - destruct Hs as (Hs1 & Hs2 & _ & _ & Hr & _). unfold syn_ack.
      repeat (rewrite ?length_app, ?length_take, ?length_drop; cbn [length bytes32 bytes16]). lia. }
  destruct (ipv4_checksum_header (ipv4_addr c) sip (Z.of_nat (length (syn_ack s r check)))
    ETH_IPv4_HEAD_TCP Hcip (proj1 Hsip)) as [ip_check Hipck].
  exists check, ip_check. split; [done|]. split; [done|].
  destruct (stage_1_segment_spec s r check dip sip Hs Hck) as (d0 & d1 & s0 & s1 & Ed & Es & Hseg).
  destruct (stage_1_reads pre sip dip s pad d0 d1 s0 s1 Hpre Hsip Hdip Hs Ed Es) as (R1 & R2 & R3 & R4 & R5).
  unfold tcp_stage_1. rewrite R1, R2, R3, R4, R5. cbn [mbind outcome_bind].
  assert (rand n = (r, with_seed r n)) as -> by done.
  unfold update_connection. cbn [tcp_connections with_seed]. rewrite Hn.
  rewrite array_get_seam by done. cbn [mbind outcome_bind]. rewrite array_set_seam by done.
  cbn [mbind outcome_bind tcp_connections with_connections]. rewrite array_get_seam by done.
  cbn [mbind outcome_bind conn_card dest_ip_addr source_port dest_port seq ack status].
  rewrite Hseg, Hd. cbn [mbind outcome_bind].
  erewrite ipv4_send_packet_run; [|exact Hc|exact Hw|exact Hipck].
  cbn [mbind outcome_bind arp_table with_connections with_queues with_seed tcp_connections].
  rewrite Hm, array_get_seam by done. cbn [mbind outcome_bind]. rewrite array_set_seam by done.
  cbn [mbind outcome_bind conn_card dest_ip_addr source_port seq ack].
  assert (ntohs (d1 + 256 * d0) = le16 (s_destination s)) as ->; [|done].
  destruct Hs as (_ & _ & _ & _ & _ & _ & Hb & _). rewrite Ed in *.
  apply Forall_cons_1 in Hb as [B0 Hb]. apply Forall_cons_1 in Hb as [B1 _].
  unfold ntohs, le16. cbn [nth]. rewrite bit_flip_short_bytes by done. lia.
Qed.

(** C11: a SYN of an unknown connection, from an address in the cache, takes the
    first empty slot and is answered: the slot records the card, the address, the
    ports, a fresh sequence number and the received one plus one; one SYN+ACK
    segment with the ports exchanged, these numbers in network order and the
    checksum over the pseudo header is queued for the sender. *)
Theorem tcp_syn_answered card c pre sip dip s pad n w p old q m :
  length pre = 26%nat -> is_ip sip -> length dip = 4%nat -> segment_ok s -> ip_word sip = Done w ->
  net_ok n -> array_get (cards n) card = Done c -> arp_find (arp_table n) w = Some m ->
  tcp_find_connection w (le16 (s_source s)) n = -1 ->
  tcp_connections n = p ++ old :: q -> find_empty (tcp_connections n) 0 = Z.of_nat (length p) ->
  handshake_flags (s_flags s) = true -> Z.testbit (s_flags s) SYN = true ->
  let r := fst (rand n) in
  exists check ip_check,
    tcp_calculate_checksum dip sip (syn_ack s r 0) 20 = Done check /\
    ipv4_checksum (ipv4_header (ipv4_addr c) sip (Z.of_nat (length (syn_ack s r check)))
      ETH_IPv4_HEAD_TCP 0) = Done ip_check /\
    tcp_handle_packet card (pre ++ sip ++ dip ++ segment_bytes s ++ pad) 34 n =
    Done (with_connections (p ++ TcpConnection card w (le16 (s_source s)) (le16 (s_destination s))
            (u32 r) (u32 (be32 (s_seq s) + 1)) TCP_CREATED :: q)
      (with_queues (incoming_queue n)
         (outgoing_queue n ++
          [QueueItem card (ipv4_frame c m sip (syn_ack s r check) ETH_IPv4_HEAD_TCP ip_check)])
         (sent n) (with_seed r n))).
Proof.
  intros Hpre Hsip Hdip Hs Hw Hok Hc Hm Hf Hn He Hfl Hsyn r.
  assert (0 <= le16 (s_source s) < 2 ^ 16) as Hport.
  { destruct Hs as (H1 & _ & _ & _ & _ & H2 & _). by apply le16_range. }
  rewrite (tcp_handle_packet_fields card pre sip dip s pad n w) by done.
  rewrite (tcp_deliver_new _ _ _ _ _ _ _ _ n p old q) by done.
  edestruct tcp_deliver_found as [_ ->]; [done| |by apply new_connection_matches|].
  { unfold tcp_find_connection in Hf. rewrite Hn in Hf.
    destruct (find_connection_spec (p ++ old :: q) 0 w (le16 (s_source s)))
      as [[_ Ha]|(p' & c' & q' & _ & Hf' & _)]; [by apply Forall_app in Ha as [? _]|lia]. }
  rewrite Hfl, Hsyn. cbn [new_connection status]. rewrite bool_decide_true by done. cbn [andb].
  edestruct tcp_stage_1_run with (n := with_connections
    (p ++ new_connection card w (le16 (s_source s)) (be32 (s_seq s)) old :: q) n)
    as (check & ip_check & Hck & Hipck & ->); try done.
  { by apply (net_ok_card card c n). }
  exists check, ip_check. split; [done|]. split; [done|].
  unfold new_connection. cbn [conn_card dest_ip_addr source_port]. rewrite u16_small by done. reflexivity.
Qed.

(** ** Frames *)

Lemma put_bytes_take buf off l buf' :
  put_bytes buf off l = Done buf' -> take (Z.to_nat off) buf' = take (Z.to_nat off) buf.
Proof.
  unfold put_bytes. destruct (Z.ltb_spec off 0); [done|].
  destruct (Z.ltb_spec (Z.of_nat (length buf)) (off + Z.of_nat (length l))); [done|].
  intros [= <-]. rewrite take_app_le by (rewrite length_take; lia). rewrite take_take. f_equal. lia.
Qed.

(** The swapping of addresses leaves the length and the Ethernet header. *)
Lemma swap_shorts_prefix k buf off :
  0 <= off ->
  swap_shorts k buf off = Fault \/
  exists buf', swap_shorts k buf off = Done buf' /\ length buf' = length buf /\
    take (Z.to_nat off) buf' = take (Z.to_nat off) buf.
Proof.
  revert buf off. induction k as [|k IH]; intros buf off Hoff; cbn [swap_shorts]; [right; eauto|].
  unfold load16. destruct (Z.lt_ge_cases (off + 1) (Z.of_nat (length buf))).
  - destruct (array_get_in_range buf off) as [a ->]; [lia|].
    destruct (array_get_in_range buf (off + 1)) as [b ->]; [lia|]. cbn [mbind outcome_bind].
    unfold store16. rewrite put_bytes_ok by (cbn [bytes16 length]; lia).
    cbn [mbind outcome_bind].
    match goal with |- context [swap_shorts k ?b _] => set (buf1 := b) end.
    assert (put_bytes buf off (bytes16 (u16 (htons (a + 256 * b)))) = Done buf1) as Hput
      by (apply put_bytes_ok; cbn [bytes16 length]; lia).
    destruct (IH buf1 (off + 2)) as [->|(buf' & -> & Hl & Ht)]; [lia|by left|right].
    exists buf'. split; [done|]. split; [by rewrite Hl, (put_bytes_length _ _ _ _ Hput)|].
    rewrite <- (put_bytes_take _ _ _ _ Hput).
    apply (f_equal (take (Z.to_nat off))) in Ht. rewrite !take_take in Ht.
    by replace (Z.to_nat off `min` Z.to_nat (off + 2))%nat with (Z.to_nat off) in Ht by lia.
  - left. destruct (Z.lt_ge_cases off (Z.of_nat (length buf))).
    + destruct (array_get_in_range buf off) as [a ->]; [lia|]. cbn [mbind outcome_bind].
      by rewrite (array_get_beyond buf (off + 1)) by lia.
    + by rewrite (array_get_beyond buf off) by lia.
Qed.

Lemma ethernet_dump_prefix buf :
  ethernet_dump buf 14 = Fault \/
  exists buf', ethernet_dump buf 14 = Done buf' /\ length buf' = length buf /\ take 14 buf' = take 14 buf.
Proof.
  unfold ethernet_dump, load8. destruct (Z.lt_ge_cases 14 (Z.of_nat (length buf))).
  - destruct (array_get_in_range buf 14) as [a ->]; [lia|]. cbn [mbind outcome_bind].
    destruct (a =? 0x60); [|right; by exists buf].
    destruct (swap_shorts_prefix 16 buf (14 + 8)) as [->|(buf' & -> & Hl & Ht)]; [lia|by left|].
    right. exists buf'. split_and!; [done|done|].
    apply (f_equal (take 14)) in Ht. rewrite !take_take in Ht. exact Ht.
  - left. by rewrite array_get_beyond by lia.
Qed.

Lemma load16_take buf buf' :
  take 14 buf' = take 14 buf -> length buf' = length buf -> load16 buf' 12 = load16 buf 12.
Proof.
  intros Ht Hl. unfold load16, array_get. cbn [Z.ltb Z.compare].
  assert (forall j, (j < 14)%nat -> buf' !! j = buf !! j) as Hj.
  { intros j Hj. rewrite <- (lookup_take_lt buf' 14), <- (lookup_take_lt buf 14) by done. by rewrite Ht. }
  change (Z.to_nat 12) with 12%nat. change (Z.to_nat (12 + 1)) with 13%nat.
  by rewrite !Hj by lia.
Qed.

(** The lengths of frames are not looked at: an ARP frame that ends before the
    sender's address does, an IPv4 frame that ends before the source address does,
    and any frame without payload are read past their end. *)
Theorem short_frames_overrun card packet n :
  (Z.of_nat (length packet) < 15 -> ethernet_handle_packet card packet n = Fault) /\
  (load16 packet 12 = Done (htons ETHERNET_TYPE_ARP) -> Z.of_nat (length packet) < 32 ->
     ethernet_handle_packet card packet n = Fault) /\
  (load16 packet 12 = Done (htons ETHERNET_TYPE_IPV4) -> Z.of_nat (length packet) < 30 ->
     ethernet_handle_packet card packet n = Fault).
Proof.
  unfold ethernet_handle_packet. split; [|split].
  - intros Hl. unfold ethernet_dump, load8. by rewrite array_get_beyond by lia.
  - intros Ht Hl. destruct (ethernet_dump_prefix packet) as [->|(b & -> & Hlb & Htb)]; [done|].
    cbn [mbind outcome_bind]. rewrite (load16_take packet b Htb Hlb), Ht. cbn [mbind outcome_bind].
    change (ntohs (htons ETHERNET_TYPE_ARP) =? ETHERNET_TYPE_ARP) with true. cbn iota.
    unfold arp_handle_packet. destruct (get_bytes b (14 + 8) 6) eqn:E; try done.
    + cbn [mbind outcome_bind]. by rewrite (get_bytes_beyond b (14 + 14) 4) by lia.
    + unfold get_bytes in E. case_match; done.
  - intros Ht Hl. destruct (ethernet_dump_prefix packet) as [->|(b & -> & Hlb & Htb)]; [done|].
    cbn [mbind outcome_bind]. rewrite (load16_take packet b Htb Hlb), Ht. cbn [mbind outcome_bind].
    change (ntohs (htons ETHERNET_TYPE_IPV4) =? ETHERNET_TYPE_ARP) with false.
    change (ntohs (htons ETHERNET_TYPE_IPV4) =? ETHERNET_TYPE_IPV4) with true. cbn iota.
    unfold ipv4_handle_packet. destruct (load16 b (14 + 2)) as [t| |] eqn:E1; cbn [mbind outcome_bind]; try done.
    + destruct (store16 b (14 + 2) (ntohs t)) as [b2| |] eqn:E2; cbn [mbind outcome_bind]; try done.
      * apply put_bytes_length in E2.
        destruct (get_bytes b2 (14 - 14 + 6) 6) eqn:E3; cbn [mbind outcome_bind]; try done.
        -- by rewrite (get_bytes_beyond b2 (14 + 12) 4) by lia.
        -- unfold get_bytes in E3. case_match; done.
      * unfold store16, put_bytes in E2. case_match; done.
    + unfold load16, array_get in E1. simpl in E1.
      by destruct (b !! Z.to_nat (14 + 2)), (b !! Z.to_nat (14 + 2 + 1)).
Qed.

(** The queues hand packets over in the reverse of their order.  A round of the
    output thread sends everything that was queued, last packet first, and leaves
    the queue empty; the input thread takes the packet that came last. *)
Theorem queues_are_stacks card packet_data n :
  netstack_processor_out_round n =
    Done (with_queues (incoming_queue n) [] (sent n ++ rev (outgoing_queue n)) n) /\
  netstack_pop (netstack_transfer card packet_data n) = (Some (QueueItem card packet_data), n).
Proof.
  split.
  - unfold netstack_processor_out_round. destruct n as [cs t k i o tc rs se].
    cbn [outgoing_queue incoming_queue sent]. unfold with_queues. cbn.
    revert se. induction o as [|x o IH] using rev_ind; intros se; [by rewrite app_nil_r|].
    rewrite length_app, Nat.add_comm. cbn [length Nat.add send_queued outgoing_queue].
    unfold pop_back. rewrite rev_app_distr. cbn [rev app]. rewrite rev_involutive.
    unfold with_queues. cbn. rewrite IH. by rewrite <- app_assoc.
  - unfold netstack_pop, netstack_transfer, pop_back. cbn [incoming_queue with_queues].
    rewrite rev_app_distr. cbn [rev app]. rewrite rev_involutive. by destruct n.
Qed.

(** ** Instances *)

Definition card0 : netcard_entry := NetCard [10; 0; 2; 15] [0x52; 0x54; 0; 0x12; 0x34; 0x56].
Definition peer_mac : list Z := [0x52; 0x55; 10; 0; 2; 2].
Definition no_entry : arp_table_entry := ArpEntry 0 (replicate 6 0).
Definition no_connection : tcp_connection := TcpConnection 0 0 0 0 0 0 TCP_NONE.

(** One card, and a cache that knows 10.0.2.2. *)
Definition net0 : net :=
  Net [card0] (ArpEntry 0x0202000a peer_mac :: replicate 127 no_entry) 1 [] []
    (replicate 64 no_connection) 12 [].

Lemma net0_ok : net_ok net0.
Proof.
  constructor; [reflexivity|vm_compute; split; congruence| |reflexivity].
  repeat constructor.
Qed.

Lemma is_ip_decide a b c d :
  forallb (fun x => (0 <=? x) && (x <? 256)) [a; b; c; d] = true -> is_ip [a; b; c; d].
Proof.
  intros H. split; [done|]. apply list.Forall_forall. intros x Hx.
  rewrite forallb_forall in H. apply list_elem_of_In in Hx. specialize (H x Hx). unfold is_byte. lia.
Qed.

Lemma bytes_decide l : forallb (fun x => (0 <=? x) && (x <? 256)) l = true -> Forall is_byte l.
Proof.
  intros H. apply list.Forall_forall. intros x Hx.
  rewrite forallb_forall in H. apply list_elem_of_In in Hx. specialize (H x Hx). unfold is_byte. lia.
Qed.

(** A SYN from port 40000 to port 80, in a frame from 10.0.2.2. *)
Definition syn_segment : segment :=
  Segment [0x9c; 0x40] [0; 80] [0; 0; 0; 7] [0; 0; 0; 0] 0x60 0x02 [0xff; 0xff; 0; 0; 0; 0].
Definition frame_start : list Z :=
  mac card0 ++ peer_mac ++ [8; 0] ++ [0x45; 0; 0; 40; 0; 0; 0; 0; 64; 6; 0; 0].

Lemma syn_segment_ok : segment_ok syn_segment.
Proof. split_and!; try reflexivity; try (apply is_ip_decide; reflexivity); try (apply bytes_decide; reflexivity). unfold is_byte. cbn. lia. Qed.

Lemma arp_lookup_after_add_witness :
  exists n', arp_lookup_add peer_mac [10; 0; 2; 3] net0 = Done n' /\
    arp_lookup [10; 0; 2; 3] n' = Done (Some peer_mac).
Proof.
  destruct (arp_lookup_after_add peer_mac [10; 0; 2; 3] net0 net0_ok (is_ip_decide 10 0 2 3 eq_refl))
    as (w & e & n' & Hw & _ & Hadd & _ & Hl & _).
  exists n'. split; [exact Hadd|]. rewrite Hl.
  assert (w = 0x0302000a) as -> by (vm_compute in Hw; congruence). reflexivity.
Defined.

Lemma checksum_verifies_witness :
  exists c, checksum ([0x12; 0x34] ++ bytes16 0 ++ [0xff; 0xff; 0x80]) = Done c /\
    checksum ([0x12; 0x34] ++ bytes16 c ++ [0xff; 0xff; 0x80]) = Done 0.
Proof.
  destruct (checksum_verifies [0x12; 0x34] [0xff; 0xff; 0x80]) as (c & Hc & _ & Hv);
    [apply bytes_decide; reflexivity|apply bytes_decide; reflexivity|reflexivity|cbn; lia|].
  exists c. split; [exact Hc|exact Hv].
Defined.

(** A header whose checksum is right, and one, from 10.0.2.15 to 192.168.174.27,
    whose words add up to [0x1ffff]: the receiver drops the packet. *)
Lemma ipv4_checksum_valid_iff_witness :
  (exists c, ipv4_checksum (ipv4_header [10; 0; 2; 15] [10; 0; 2; 2] 8 17 0) = Done c /\
     checksum (ipv4_header [10; 0; 2; 15] [10; 0; 2; 2] 8 17 (htons c)) = Done 0) /\
  (exists c, ipv4_checksum (ipv4_header [10; 0; 2; 15] [192; 168; 174; 27] 8 17 0) = Done c /\
     checksum (ipv4_header [10; 0; 2; 15] [192; 168; 174; 27] 8 17 (htons c)) <> Done 0).
Proof.
  split.
  - destruct (ipv4_checksum_valid_iff [0x45; 0; 0; 28; 0; 0; 0; 0; 64; 17] [10; 0; 2; 15; 10; 0; 2; 2])
      as (c & Hc & Hr & Hv);
      [apply bytes_decide; reflexivity|apply bytes_decide; reflexivity|reflexivity|reflexivity|].
    exists c. split; [exact Hc|]. unfold ipv4_header.
    replace (u16 (htons c)) with (htons c) by (symmetry; apply Z.mod_small; apply u16_range).
    apply Hv. reflexivity.
  - eexists. split; [reflexivity|]. vm_compute. discriminate.
Defined.

Lemma arp_request_answered_unless_mine_witness :
  arp_handle_packet 0 (replicate 14 0 ++ [0; 1; 8; 0; 6; 4] ++ bytes16 (htons ARP_REQUEST) ++
    peer_mac ++ [10; 0; 2; 2] ++ replicate 6 0 ++ [10; 0; 2; 15] ++ []) 14 net0
  = arp_lookup_add peer_mac [10; 0; 2; 2] net0.
Proof.
  rewrite (arp_request_answered_unless_mine 0 card0); try reflexivity. apply net0_ok.
Defined.

Lemma ipv4_send_packet_spec_witness :
  exists check n', ipv4_send_packet 0 [10; 0; 2; 2] [1; 2; 3] 17 net0 = Done n' /\
    outgoing_queue n' = [QueueItem 0 (ipv4_frame card0 peer_mac [10; 0; 2; 2] [1; 2; 3] 17 check)].
Proof.
  destruct (ipv4_send_packet_spec 0 card0 [10; 0; 2; 2] [1; 2; 3] 17 net0 net0_ok
    (is_ip_decide 10 0 2 2 eq_refl) eq_refl) as (w & check & Hw & _ & ->).
  exists check. eexists. split; [reflexivity|].
  assert (w = 0x0202000a) as -> by (vm_compute in Hw; congruence). reflexivity.
Defined.

Lemma tcp_syn_answered_witness :
  exists n', tcp_handle_packet 0
      (frame_start ++ [10; 0; 2; 2] ++ [10; 0; 2; 15] ++ segment_bytes syn_segment ++ []) 34 net0 = Done n' /\
    array_get (tcp_connections n') 0 = Done (TcpConnection 0 0x0202000a 0x409c 0x5000
      (u32 (fst (rand net0))) 8 TCP_CREATED) /\ length (outgoing_queue n') = 1%nat.
Proof.
  destruct (tcp_syn_answered 0 card0 frame_start [10; 0; 2; 2] [10; 0; 2; 15] syn_segment [] net0
    0x0202000a [] no_connection (replicate 63 no_connection) peer_mac) as (check & ipc & _ & _ & ->);
    try reflexivity; try (apply is_ip_decide; reflexivity); [apply syn_segment_ok|apply net0_ok|].
  eexists. split; [reflexivity|]. split; reflexivity.
Defined.


Lemma short_frames_overrun_witness :
  ethernet_handle_packet 0 (replicate 12 0xff ++ [8; 6] ++ replicate 10 0) net0 = Fault.
Proof.
  destruct (short_frames_overrun 0 (replicate 12 0xff ++ [8; 6] ++ replicate 10 0) net0) as (_ & H & _).
  apply H; [reflexivity|cbn; lia].
Defined.
