(* ===== verification/Strings.v ===== *)
(** * Memory and string functions (kernel/src/lib/string.c)

    Memory is the list of its bytes, addresses are indices into it; an access past
    its end is a [Fault].  A string that is only read is given by the memory that
    starts at the pointer.  [size_t] has 32 bits, [char] is signed. *)
From Stdlib Require Import ZArith Lia.
From stdpp Require Import base list gmap numbers.
From S2P Require Import Prelude.
From S2P Require Import Bytes.

#[local] Open Scope Z_scope.

(** ** Copying and filling *)

(** [for (; i < len; i++) *tmp_dest++ = *tmp_src++;] *)
Fixpoint copy_words (k : nat) (mem : list Z) (dest src : Z) : outcome (list Z) :=
  match k with
  | O => Done mem
  | S k' =>
      x ← load32 mem src; mem' ← store32 mem dest x; copy_words k' mem' (dest + 4) (src + 4)
  end.

Fixpoint copy_bytes (k : nat) (mem : list Z) (dest src : Z) : outcome (list Z) :=
  match k with
  | O => Done mem
  | S k' =>
      x ← array_get mem src; mem' ← array_set mem dest x; copy_bytes k' mem' (dest + 1) (src + 1)
  end.

Definition memcpy (mem : list Z) (destination source n : Z) : outcome (list Z) :=
  let len := n / 4 in
  let tail := Z.land n 3 in
  mem' ← copy_words (Z.to_nat len) mem destination source;
  if tail =? 0 then Done mem'
  else copy_bytes (Z.to_nat tail) mem' (destination + (n - tail)) (source + (n - tail)).

(** The loop that copies from the end. *)
Fixpoint copy_bytes_down (k : nat) (mem : list Z) (dest src : Z) : outcome (list Z) :=
  match k with
  | O => Done mem
  | S k' =>
      x ← array_get mem src; mem' ← array_set mem dest x; copy_bytes_down k' mem' (dest - 1) (src - 1)
  end.

Definition memmove (mem : list Z) (dest src count : Z) : outcome (list Z) :=
  if (dest <=? src) || (src + count <=? dest) then copy_bytes (Z.to_nat count) mem dest src
  else copy_bytes_down (Z.to_nat count) mem (dest + count - 1) (src + count - 1).

(** The three loops of [memset]: up to an aligned address, by words, the rest. *)
Fixpoint fill_unaligned (fuel : nat) (mem : list Z) (p byte num : Z) : outcome (list Z * Z * Z) :=
  match fuel with
  | O => Hang
  | S fuel' =>
      if negb (Z.land p 3 =? 0) && (0 <? num) then
        mem' ← array_set mem p byte; fill_unaligned fuel' mem' (p + 1) byte (num - 1)
      else Done (mem, p, num)
  end.

Definition fill_word (byte : Z) : Z :=
  if byte =? 0 then 0
  else fold_left (fun word i => Z.lor word (u32 (Z.shiftl byte (i * 8)))) [0; 1; 2; 3] 0.

Fixpoint fill_words (fuel : nat) (mem : list Z) (p word num : Z) : outcome (list Z * Z * Z) :=
  match fuel with
  | O => Hang
  | S fuel' =>
      if 4 <=? num then mem' ← store32 mem p word; fill_words fuel' mem' (p + 4) word (num - 4)
      else Done (mem, p, num)
  end.

Fixpoint fill_bytes (k : nat) (mem : list Z) (p byte : Z) : outcome (list Z) :=
  match k with
  | O => Done mem
  | S k' => mem' ← array_set mem p byte; fill_bytes k' mem' (p + 1) byte
  end.

Definition memset (mem : list Z) (ptr value num : Z) : outcome (list Z) :=
  let byte := u8 value in
  '(mem, p, num) ← fill_unaligned 4 mem ptr byte num;
  '(mem, p, num) ← (if 4 <=? num then fill_words (S (Z.to_nat num)) mem p (fill_word byte) num
                    else Done (mem, p, num));
  fill_bytes (Z.to_nat num) mem p byte.

(** ** Strings *)

Fixpoint strlen (input : list Z) : outcome Z :=
  match input with
  | [] => Fault
  | c :: rest => if c =? 0 then Done 0 else len ← strlen rest; Done (len + 1)
  end.

Fixpoint strcmp (stra strb : list Z) : outcome Z :=
  match stra with
  | [] => Fault
  | a :: resta =>
      b ← array_get strb 0;
      if negb (a =? 0) && (a =? b) then strcmp resta (tail strb) else Done (s8 a - s8 b)
  end.

(** [while(src[i]) { dest[i] = src[i]; i++; } dest[i] = 0;] *)
Fixpoint strcpy_loop (fuel : nat) (mem : list Z) (dest src : Z) : outcome (list Z) :=
  match fuel with
  | O => Hang
  | S fuel' =>
      x ← array_get mem src;
      if x =? 0 then array_set mem dest 0
      else mem' ← array_set mem dest x; strcpy_loop fuel' mem' (dest + 1) (src + 1)
  end.

(** Each step moves on in [mem], so its length bounds the number of steps. *)
Definition strcpy (mem : list Z) (dest src : Z) : outcome (list Z) :=
  strcpy_loop (S (length mem)) mem dest src.

Fixpoint strncpy (mem : list Z) (dest src : Z) (n : nat) : outcome (list Z) :=
  match n with
  | O => Done mem
  | S n' =>
      x ← array_get mem src;
      if x =? 0 then Done mem
      else mem' ← array_set mem dest x; strncpy mem' (dest + 1) (src + 1) n'
  end.

Definition strcat (mem : list Z) (destination source : Z) : outcome (list Z) :=
  len ← strlen (drop (Z.to_nat destination) mem);
  strcpy_loop (S (length mem)) mem (destination + len) source.

Definition substr (mem : list Z) (dest source from len : Z) : outcome (list Z) :=
  mem' ← strncpy mem dest (source + from) (Z.to_nat len); array_set mem' (dest + len) 0.

(** The loop counts to [num] whatever the bytes are. *)
Fixpoint strncmp (s1 s2 : list Z) (num : nat) : outcome Z :=
  match num with
  | O => Done 0
  | S num' =>
      a ← array_get s1 0; b ← array_get s2 0;
      if a =? b then strncmp (tail s1) (tail s2) num' else Done 1
  end.

(** Is the character in the set?  [accept] is read up to the match. *)
Fixpoint strspn_accepts (accept : list Z) (p : Z) : outcome bool :=
  match accept with
  | [] => Fault
  | a :: rest => if a =? 0 then Done false else if p =? a then Done true else strspn_accepts rest p
  end.

Fixpoint strspn (s accept : list Z) : outcome Z :=
  match s with
  | [] => Fault
  | p :: rest =>
      if p =? 0 then Done 0
      else found ← strspn_accepts accept p;
           if found : bool then count ← strspn rest accept; Done (count + 1) else Done 0
  end.

(** The offset of the character found. *)
Fixpoint strchr (s : list Z) (c : Z) : outcome (option Z) :=
  match s with
  | [] => Fault
  | x :: rest =>
      if x =? c then Done (Some 0)
      else if x =? 0 then Done None
      else r ← strchr rest c; Done (option_map (Z.add 1) r)
  end.

Definition isUTF (c : Z) : bool := (s8 c =? -47) || (s8 c =? -48).

Fixpoint count_chars (k : nat) (str : list Z) (len : Z) : outcome Z :=
  match k with
  | O => Done len
  | S k' => c ← array_get str 0; count_chars k' (tail str) (if isUTF c then len else len + 1)
  end.

Definition mb_strlen (str : list Z) : outcome Z :=
  def ← strlen str; count_chars (Z.to_nat def) str 0.

(** ** Numbers *)

Definition is_digit (c : Z) : bool := (48 <=? c) && (c <=? 57).

Fixpoint all_digits (k : nat) (c : list Z) : outcome bool :=
  match k with
  | O => Done true
  | S k' => x ← array_get c 0; if is_digit x then all_digits k' (tail c) else Done false
  end.

Definition isNumber (c : list Z) : outcome bool :=
  len ← strlen c; all_digits (Z.to_nat len) c.

Fixpoint atoi_digits (s : list Z) (n : Z) : outcome Z :=
  match s with
  | [] => Fault
  | c :: rest => if is_digit c then atoi_digits rest (s32 (n * 10 + (c - 48))) else Done n
  end.

Definition atoi (s : list Z) : outcome Z :=
  first ← array_get s 0;
  let minus := first =? 45 in
  n ← atoi_digits (if minus then tail s else s) 0;
  Done (s32 (n * (if minus then -1 else 1))).

Definition hex_digit (c : Z) : option Z :=
  if is_digit c then Some (c - 48)
  else if (65 <=? c) && (c <=? 70) then Some (c - 65 + 10)
  else if (97 <=? c) && (c <=? 102) then Some (c - 97 + 10)
  else None.

Fixpoint htoi_digits (p : list Z) (result : Z) : outcome Z :=
  match p with
  | [] => Fault
  | c :: rest =>
      if c =? 0 then Done result
      else match hex_digit c with
           | Some d => htoi_digits rest (u32 (u32 (Z.shiftl result 4) + d))
           | None => Done result
           end
  end.

Definition htoi (hex : list Z) : outcome Z := htoi_digits hex 0.

(** ** Blocks *)

(** [mem'] is [mem] with [n] bytes copied from [s] to [d]. *)
Definition copied (mem mem' : list Z) (d s n : Z) : Prop :=
  length mem' = length mem /\
  forall i, 0 <= i ->
    mem' !! Z.to_nat i =
      if (d <=? i) && (i <? d + n) then mem !! Z.to_nat (s + (i - d)) else mem !! Z.to_nat i.

(** [mem'] is [mem] with [n] bytes from [p] on set to [byte]. *)
Definition filled (mem mem' : list Z) (p byte n : Z) : Prop :=
  length mem' = length mem /\
  forall i, 0 <= i ->
    mem' !! Z.to_nat i = if (p <=? i) && (i <? p + n) then Some byte else mem !! Z.to_nat i.

Ltac ranges := repeat (case_bool_decide || match goal with
  | |- context [?lo <=? ?hi] => destruct (Z.leb_spec lo hi)
  | |- context [?lo <? ?hi] => destruct (Z.ltb_spec lo hi)
  end); cbn [andb].

Lemma copied_nil mem d s : copied mem mem d s 0.
Proof. split; [done|]. intros i Hi. ranges; lia || done. Qed.

Lemma copied_app mem mem1 mem2 d s j k :
  copied mem mem1 d s j -> copied mem1 mem2 (d + j) (s + j) k ->
  0 <= d -> 0 <= s -> 0 <= j -> 0 <= k -> d <= s \/ s + j + k <= d ->
  copied mem mem2 d s (j + k).
Proof.
  intros [L1 H1] [L2 H2] Hd Hs Hj Hk Hov. split; [congruence|]. intros i Hi.
  rewrite H2 by done.
  assert (d + j <= i < d + j + k -> mem1 !! Z.to_nat (s + j + (i - (d + j))) = mem !! Z.to_nat (s + (i - d))) as Hin.
  { intros Hr. rewrite H1 by lia. replace (s + j + (i - (d + j))) with (s + (i - d)) by lia.
    ranges; lia || done. }
  rewrite (H1 i) by done. ranges; first [lia|done|apply Hin; lia].
Qed.

Lemma array_set_lookup (mem : list Z) i x :
  0 <= i < Z.of_nat (length mem) ->
  exists mem', array_set mem i x = Done mem' /\ length mem' = length mem /\
    forall j, 0 <= j -> mem' !! Z.to_nat j = if j =? i then Some x else mem !! Z.to_nat j.
Proof.
  intros Hi. rewrite array_set_in_range by done. eexists. split; [done|].
  split; [apply length_insert|]. intros j Hj. destruct (Z.eqb_spec j i) as [->|Hne].
  - apply list_lookup_insert_eq. lia.
  - apply list_lookup_insert_ne. lia.
Qed.

Lemma copy_byte (mem : list Z) d s :
  0 <= d < Z.of_nat (length mem) -> 0 <= s < Z.of_nat (length mem) ->
  exists x mem', array_get mem s = Done x /\ array_set mem d x = Done mem' /\ copied mem mem' d s 1.
Proof.
  intros Hd Hs. destruct (array_get_in_range mem s Hs) as [x Hx].
  destruct (array_set_lookup mem d x Hd) as (mem' & Hset & Hl & Hlk).
  exists x, mem'. split; [done|]. split; [done|]. split; [done|]. intros i Hi. rewrite Hlk by done.
  apply array_get_Done in Hx as [_ Hx].
  destruct (Z.eqb_spec i d) as [->|Hne]; ranges; try (lia || done).
  by replace (s + (d - d)) with s by lia.
Qed.

Lemma copy_bytes_spec k mem d s :
  0 <= d -> 0 <= s -> d + Z.of_nat k <= Z.of_nat (length mem) -> s + Z.of_nat k <= Z.of_nat (length mem) ->
  d <= s \/ s + Z.of_nat k <= d ->
  exists mem', copy_bytes k mem d s = Done mem' /\ copied mem mem' d s (Z.of_nat k).
Proof.
  revert mem d s. induction k as [|k IH]; intros mem d s Hd Hs Hdl Hsl Hov.
  - exists mem. split; [done|]. apply copied_nil.
  - cbn [copy_bytes]. destruct (copy_byte mem d s) as (x & mem1 & -> & Hset & Hc); [lia..|].
    cbn [mbind outcome_bind]. rewrite Hset. cbn [mbind outcome_bind].
    pose proof (proj1 Hc) as Hl1.
    destruct (IH mem1 (d + 1) (s + 1)) as (mem2 & -> & Hc2); [rewrite ?Hl1; lia..|].
    exists mem2. split; [done|]. replace (Z.of_nat (S k)) with (1 + Z.of_nat k) by lia.
    apply (copied_app mem mem1); try done; lia.
Qed.

Lemma copy_bytes_down_spec k mem d s :
  0 <= d -> 0 <= s -> d + Z.of_nat k <= Z.of_nat (length mem) -> s + Z.of_nat k <= Z.of_nat (length mem) ->
  s <= d ->
  exists mem', copy_bytes_down k mem (d + Z.of_nat k - 1) (s + Z.of_nat k - 1) = Done mem' /\
    copied mem mem' d s (Z.of_nat k).
Proof.
  revert mem. induction k as [|k IH]; intros mem Hd Hs Hdl Hsl Hov.
  - exists mem. split; [done|]. apply copied_nil.
  - cbn [copy_bytes_down].
    destruct (copy_byte mem (d + Z.of_nat (S k) - 1) (s + Z.of_nat (S k) - 1)) as (x & mem1 & -> & Hset & L1 & H1);
      [lia..|].
    cbn [mbind outcome_bind]. rewrite Hset. cbn [mbind outcome_bind].
    replace (d + Z.of_nat (S k) - 1 - 1) with (d + Z.of_nat k - 1) by lia.
    replace (s + Z.of_nat (S k) - 1 - 1) with (s + Z.of_nat k - 1) by lia.
    destruct (IH mem1) as (mem2 & -> & L2 & H2); [rewrite ?L1; lia..|].
    exists mem2. split; [done|]. split; [congruence|]. intros i Hi. rewrite H2 by done.
    destruct (Z.eqb_spec i (d + Z.of_nat k)) as [->|Hne].
    + rewrite (H1 (d + Z.of_nat k)) by lia. ranges; try lia. do 2 f_equal. lia.
    + ranges; try lia; rewrite H1 by lia; ranges; lia || done.
Qed.

Lemma put_bytes_lookup (mem : list Z) p l :
  0 <= p -> p + Z.of_nat (length l) <= Z.of_nat (length mem) ->
  exists mem', put_bytes mem p l = Done mem' /\ length mem' = length mem /\
    forall i, 0 <= i -> mem' !! Z.to_nat i =
      if (p <=? i) && (i <? p + Z.of_nat (length l)) then l !! Z.to_nat (i - p) else mem !! Z.to_nat i.
Proof.
  intros Hp Hl. eexists. split; [by apply put_bytes_ok|]. split.
  - rewrite !length_app, length_take, length_drop. lia.
  - intros i Hi. ranges; try lia.
    + rewrite lookup_app_r by (rewrite length_take; lia). rewrite length_take.
      rewrite lookup_app_l by lia. f_equal. lia.
    + rewrite lookup_app_r by (rewrite length_take; lia). rewrite length_take.
      rewrite lookup_app_r by lia. rewrite lookup_drop. f_equal. lia.
    + rewrite lookup_app_l by (rewrite length_take; lia). by rewrite lookup_take_lt by lia.
Qed.

Lemma copy_word (mem : list Z) d s :
  Forall is_byte mem -> 0 <= d -> d + 4 <= Z.of_nat (length mem) -> 0 <= s -> s + 4 <= Z.of_nat (length mem) ->
  exists x mem', load32 mem s = Done x /\ store32 mem d x = Done mem' /\ copied mem mem' d s 4.
Proof.
  intros Hb Hd Hdl Hs Hsl.
  destruct (array_get_in_range mem s) as [a Ha]; [lia|].
  destruct (array_get_in_range mem (s + 1)) as [b Hb']; [lia|].
  destruct (array_get_in_range mem (s + 2)) as [c Hc]; [lia|].
  destruct (array_get_in_range mem (s + 3)) as [e He]; [lia|].
  unfold load32. rewrite Ha, Hb', Hc, He. cbn [mbind outcome_bind].
  apply array_get_Done in Ha as [_ Ha], Hb' as [_ Hb'], Hc as [_ Hc], He as [_ He].
  pose proof (Forall_lookup_1 _ _ _ _ Hb Ha) as Ba. pose proof (Forall_lookup_1 _ _ _ _ Hb Hb') as Bb.
  pose proof (Forall_lookup_1 _ _ _ _ Hb Hc) as Bc. pose proof (Forall_lookup_1 _ _ _ _ Hb He) as Be.
  destruct (put_bytes_lookup mem d [a; b; c; e]) as (mem' & Hput & Hl & Hlk); [done|cbn; lia|].
  exists (a + 256 * b + 65536 * c + 16777216 * e), mem'. split; [done|]. split; [|split; [done|]].
  - unfold store32. rewrite u32_small by (unfold is_byte in *; lia). by rewrite split_bytes.
  - intros i Hi. rewrite Hlk by done. change (Z.of_nat (length [a; b; c; e])) with 4. ranges; try (lia || done).
    assert (i = d \/ i = d + 1 \/ i = d + 2 \/ i = d + 3) as [-> | [-> | [-> | ->]]] by lia.
    + replace (d - d) with 0 by lia. by replace (s + 0) with s by lia.
    + replace (d + 1 - d) with 1 by lia. done.
    + replace (d + 2 - d) with 2 by lia. done.
    + replace (d + 3 - d) with 3 by lia. done.
Qed.

Lemma copied_bytes mem mem' d s n :
  copied mem mem' d s n -> 0 <= s -> Forall is_byte mem -> Forall is_byte mem'.
Proof.
  intros [Hl Hlk] Hs Hb. apply Forall_lookup_2. intros i x Hx.
  specialize (Hlk (Z.of_nat i) ltac:(lia)). rewrite Nat2Z.id in Hlk. rewrite Hx in Hlk.
  destruct ((d <=? Z.of_nat i) && (Z.of_nat i <? d + n)); symmetry in Hlk;
    by apply (Forall_lookup_1 _ _ _ _ Hb Hlk).
Qed.

Lemma copy_words_spec k mem d s :
  Forall is_byte mem -> 0 <= d -> 0 <= s ->
  d + 4 * Z.of_nat k <= Z.of_nat (length mem) -> s + 4 * Z.of_nat k <= Z.of_nat (length mem) ->
  d <= s \/ s + 4 * Z.of_nat k <= d ->
  exists mem', copy_words k mem d s = Done mem' /\ copied mem mem' d s (4 * Z.of_nat k).
Proof.
  revert mem d s. induction k as [|k IH]; intros mem d s Hb Hd Hs Hdl Hsl Hov.
  - exists mem. split; [done|]. apply copied_nil.
  - cbn [copy_words]. destruct (copy_word mem d s) as (x & mem1 & -> & Hset & Hc); [done|lia..|].
    cbn [mbind outcome_bind]. rewrite Hset. cbn [mbind outcome_bind].
    pose proof (proj1 Hc) as Hl1.
    destruct (IH mem1 (d + 4) (s + 4)) as (mem2 & -> & Hc2);
      [by apply (copied_bytes mem mem1 d s 4)|rewrite ?Hl1; lia..|].
    exists mem2. split; [done|]. replace (4 * Z.of_nat (S k)) with (4 + 4 * Z.of_nat k) by lia.
    apply (copied_app mem mem1); try done; lia.
Qed.

Lemma split_words n : 0 <= n -> exists q r, n / 4 = q /\ Z.land n 3 = r /\ n = 4 * q + r /\ 0 <= q /\ 0 <= r < 4.
Proof.
  intros Hn. exists (n / 4), (n mod 4). change 3 with (Z.ones 2). rewrite Z.land_ones by lia. change (2 ^ 2) with 4.
  pose proof (Z.div_mod n 4). pose proof (Z.mod_pos_bound n 4). pose proof (Z.div_pos n 4). lia.
Qed.

(** C13: [memmove] copies the bytes whatever the overlap, each from what was there
    before; [memcpy], which copies by words, does the same unless the destination
    starts inside the source, after its beginning. *)
Theorem memmove_memcpy_copy mem dest src n :
  Forall is_byte mem -> 0 <= dest -> 0 <= src -> 0 <= n ->
  dest + n <= Z.of_nat (length mem) -> src + n <= Z.of_nat (length mem) ->
  (exists mem', memmove mem dest src n = Done mem' /\ copied mem mem' dest src n) /\
  (dest <= src \/ src + n <= dest ->
   exists mem', memcpy mem dest src n = Done mem' /\ copied mem mem' dest src n).
Proof.
  intros Hb Hd Hs Hn Hdl Hsl. split.
  - unfold memmove. pose proof (copy_bytes_spec (Z.to_nat n) mem dest src) as Hup.
    pose proof (copy_bytes_down_spec (Z.to_nat n) mem dest src) as Hdown. rewrite Z2Nat.id in * by lia.
    ranges; cbn [orb]; (apply Hup || apply Hdown); lia.
  - intros Hov. unfold memcpy. destruct (split_words n Hn) as (q & r & -> & -> & -> & Hq & Hr).
    destruct (copy_words_spec (Z.to_nat q) mem dest src) as (mem1 & -> & Hc); [done|lia..|].
    rewrite Z2Nat.id in Hc by done. cbn [mbind outcome_bind].
    replace (4 * q + r - r) with (4 * q) by lia.
    destruct (Z.eqb_spec r 0) as [->|Hne]; [exists mem1; by rewrite Z.add_0_r|].
    pose proof (proj1 Hc) as Hl1.
    destruct (copy_bytes_spec (Z.to_nat r) mem1 (dest + 4 * q) (src + 4 * q)) as (mem2 & -> & Hc2);
      [rewrite ?Hl1; lia..|].
    exists mem2. split; [done|]. rewrite Z2Nat.id in Hc2 by lia. apply (copied_app mem mem1); try done; lia.
Qed.

Lemma filled_nil mem p byte : filled mem mem p byte 0.
Proof. split; [done|]. intros i Hi. ranges; lia || done. Qed.

Lemma filled_app mem mem1 mem2 p byte j k :
  filled mem mem1 p byte j -> filled mem1 mem2 (p + j) byte k -> 0 <= p -> 0 <= j -> 0 <= k ->
  filled mem mem2 p byte (j + k).
Proof.
  intros [L1 H1] [L2 H2] Hp Hj Hk. split; [congruence|]. intros i Hi.
  rewrite H2, (H1 i) by done. ranges; lia || done.
Qed.

Lemma fill_byte (mem : list Z) p byte :
  0 <= p < Z.of_nat (length mem) ->
  exists mem', array_set mem p byte = Done mem' /\ filled mem mem' p byte 1.
Proof.
  intros Hp. destruct (array_set_lookup mem p byte Hp) as (mem' & -> & Hl & Hlk).
  exists mem'. split; [done|]. split; [done|]. intros i Hi. rewrite Hlk by done.
  destruct (Z.eqb_spec i p); ranges; lia || done.
Qed.

Lemma fill_bytes_spec k mem p byte :
  0 <= p -> p + Z.of_nat k <= Z.of_nat (length mem) ->
  exists mem', fill_bytes k mem p byte = Done mem' /\ filled mem mem' p byte (Z.of_nat k).
Proof.
  revert mem p. induction k as [|k IH]; intros mem p Hp Hl.
  - exists mem. split; [done|]. apply filled_nil.
  - cbn [fill_bytes]. destruct (fill_byte mem p byte) as (mem1 & -> & Hf); [lia|].
    cbn [mbind outcome_bind]. pose proof (proj1 Hf) as Hl1.
    destruct (IH mem1 (p + 1)) as (mem2 & -> & Hf2); [rewrite ?Hl1; lia..|].
    exists mem2. split; [done|]. replace (Z.of_nat (S k)) with (1 + Z.of_nat k) by lia.
    apply (filled_app mem mem1); try done; lia.
Qed.

Lemma fill_word_bytes b : 0 <= b < 256 -> bytes32 (u32 (fill_word b)) = [b; b; b; b].
Proof.
  intros Hb.
  assert (forallb (fun b => bool_decide (bytes32 (u32 (fill_word b)) = [b; b; b; b]))
            (map Z.of_nat (seq 0 256)) = true) as Hall by (vm_compute; reflexivity).
  rewrite forallb_forall in Hall. apply (bool_decide_eq_true_1 _), Hall.
  apply in_map_iff. exists (Z.to_nat b). split; [lia|]. apply in_seq. lia.
Qed.

Lemma fill_words_spec fuel mem p byte num :
  0 <= byte < 256 -> 0 <= p -> 0 <= num < Z.of_nat fuel -> p + num <= Z.of_nat (length mem) ->
  exists mem' q, fill_words fuel mem p (fill_word byte) num = Done (mem', p + 4 * q, num - 4 * q) /\
    0 <= q /\ 0 <= num - 4 * q /\ filled mem mem' p byte (4 * q).
Proof.
  intros Hb. revert mem p num. induction fuel as [|fuel IH]; intros mem p num Hp Hn Hl; [lia|].
  cbn [fill_words]. destruct (Z.leb_spec 4 num).
  - unfold store32. rewrite fill_word_bytes by done.
    destruct (put_bytes_lookup mem p [byte; byte; byte; byte]) as (mem1 & -> & Hl1 & Hlk); [done|cbn; lia|].
    cbn [mbind outcome_bind].
    assert (filled mem mem1 p byte 4) as Hf.
    { split; [done|]. intros i Hi. rewrite Hlk by done.
      change (Z.of_nat (length [byte; byte; byte; byte])) with 4. ranges; try (lia || done).
      assert (i - p = 0 \/ i - p = 1 \/ i - p = 2 \/ i - p = 3) as [-> | [-> | [-> | ->]]] by lia; done. }
    destruct (IH mem1 (p + 4) (num - 4)) as (mem2 & q & -> & Hq & Hr & Hf2); [rewrite ?Hl1; lia..|].
    exists mem2, (q + 1). split; [do 2 f_equal; [f_equal|]; lia|]. split; [lia|]. split; [lia|].
    replace (4 * (q + 1)) with (4 + 4 * q) by lia. apply (filled_app mem mem1); try done; lia.
  - exists mem, 0. split; [do 2 f_equal; [f_equal|]; lia|]. split; [lia|]. split; [lia|]. apply filled_nil.
Qed.

Lemma fill_unaligned_spec fuel mem p byte num :
  0 <= p -> 0 <= num -> p + num <= Z.of_nat (length mem) -> (4 - p mod 4) mod 4 < Z.of_nat fuel ->
  exists mem' q, fill_unaligned fuel mem p byte num = Done (mem', p + q, num - q) /\
    0 <= q <= num /\ filled mem mem' p byte q.
Proof.
  revert mem p num. induction fuel as [|fuel IH]; intros mem p num Hp Hn Hl Hf.
  { pose proof (Z.mod_pos_bound (4 - p mod 4) 4). lia. }
  cbn [fill_unaligned]. change 3 with (Z.ones 2). rewrite Z.land_ones by lia. change (2 ^ 2) with 4.
  pose proof (Z.mod_pos_bound p 4 ltac:(lia)).
  destruct (Z.eqb_spec (p mod 4) 0) as [E|E]; cbn [negb andb].
  - exists mem, 0. rewrite Z.add_0_r, Z.sub_0_r. split; [done|]. split; [lia|]. apply filled_nil.
  - destruct (Z.ltb_spec 0 num).
    + destruct (fill_byte mem p byte) as (mem1 & -> & Hf1); [lia|]. cbn [mbind outcome_bind].
      pose proof (proj1 Hf1) as Hl1.
      destruct (IH mem1 (p + 1) (num - 1)) as (mem2 & q & -> & Hq & Hf2); [rewrite ?Hl1; lia..| |].
      * pose proof (Z.div_mod p 4). pose proof (Z.div_mod (p + 1) 4).
        pose proof (Z.mod_pos_bound (p + 1) 4 ltac:(lia)).
        pose proof (Z.div_mod (4 - p mod 4) 4). pose proof (Z.mod_pos_bound (4 - p mod 4) 4).
        pose proof (Z.div_mod (4 - (p + 1) mod 4) 4). pose proof (Z.mod_pos_bound (4 - (p + 1) mod 4) 4). lia.
      * exists mem2, (1 + q). split; [do 2 f_equal; [f_equal|]; lia|]. split; [lia|].
        apply (filled_app mem mem1); try done; lia.
    + exists mem, 0. rewrite Z.add_0_r, Z.sub_0_r. split; [done|]. split; [lia|]. apply filled_nil.
Qed.

(** [memset] sets exactly the bytes of the block to the low byte of the value,
    whatever the alignment and the length; its loops terminate and stay inside. *)
Theorem memset_fills mem ptr value num :
  0 <= ptr -> 0 <= num -> ptr + num <= Z.of_nat (length mem) ->
  exists mem', memset mem ptr value num = Done mem' /\ filled mem mem' ptr (u8 value) num.
Proof.
  intros Hp Hn Hl. unfold memset. set (byte := u8 value).
  destruct (fill_unaligned_spec 4 mem ptr byte num Hp Hn Hl) as (mem1 & q & -> & Hq & Hf1).
  { pose proof (Z.mod_pos_bound (4 - ptr mod 4) 4). lia. }
  cbn [mbind outcome_bind]. pose proof (proj1 Hf1) as Hl1.
  assert (exists mem2 j, (if 4 <=? num - q then fill_words (S (Z.to_nat (num - q))) mem1 (ptr + q) (fill_word byte) (num - q)
    else Done (mem1, ptr + q, num - q)) = Done (mem2, ptr + q + j, num - q - j) /\
    0 <= j <= num - q /\ filled mem1 mem2 (ptr + q) byte j) as (mem2 & j & -> & Hj & Hf2).
  { destruct (Z.leb_spec 4 (num - q)).
    - destruct (fill_words_spec (S (Z.to_nat (num - q))) mem1 (ptr + q) byte (num - q))
        as (mem2 & w & -> & Hw & Hr & Hf); [apply u8_range|lia|lia|rewrite Hl1; lia|].
      exists mem2, (4 * w). split; [done|]. split; [lia|done].
    - exists mem1, 0. rewrite Z.add_0_r, Z.sub_0_r. split; [done|]. split; [lia|]. apply filled_nil. }
  cbn [mbind outcome_bind]. pose proof (proj1 Hf2) as Hl2.
  destruct (fill_bytes_spec (Z.to_nat (num - q - j)) mem2 (ptr + q + j) byte) as (mem3 & -> & Hf3);
    [lia|rewrite ?Hl2, ?Hl1; lia|].
  exists mem3. split; [done|]. rewrite Z2Nat.id in Hf3 by lia.
  replace num with (q + (j + (num - q - j))) by lia. apply (filled_app mem mem1); try done; try lia.
  apply (filled_app mem1 mem2); try done; lia.
Qed.

(** ** Strings as lists *)

(** A string that holds the characters [a], with whatever follows. *)
Definition cstr (a rest : list Z) : list Z := a ++ 0 :: rest.
Definition text (a : list Z) : Prop := Forall (fun c => 0 < c < 256) a.

Lemma strlen_cstr a rest : text a -> strlen (cstr a rest) = Done (Z.of_nat (length a)).
Proof.
  intros Ha. induction Ha as [|c a Hc Ha IH]; [done|]. unfold cstr in *. cbn [app strlen].
  destruct (Z.eqb_spec c 0); [lia|]. rewrite IH. cbn [mbind outcome_bind length]. f_equal. lia.
Qed.

Lemma s8_inj a b : 0 <= a < 256 -> 0 <= b < 256 -> s8 a = s8 b -> a = b.
Proof.
  intros Ha Hb. unfold s8. change (2 ^ 7) with 128. change (2 ^ 8) with 256. intros H.
  pose proof (Z.div_mod (a + 128) 256). pose proof (Z.mod_pos_bound (a + 128) 256).
  pose proof (Z.div_mod (b + 128) 256). pose proof (Z.mod_pos_bound (b + 128) 256). lia.
Qed.

Lemma strcmp_cstr a b ra rb :
  text a -> text b -> exists c, strcmp (cstr a ra) (cstr b rb) = Done c /\ (c = 0 <-> a = b).
Proof.
  intros Ha. revert b. unfold cstr. induction Ha as [|x a Hx Ha IH]; intros b Hb; cbn [app strcmp].
  - destruct b as [|y b]; cbn [app].
    + exists 0. done.
    + apply Forall_cons_1 in Hb as [Hy Hb]. exists (s8 0 - s8 y). split; [done|].
      split; [|done]. intros H. assert (0 = y); [|lia]. apply s8_inj; lia.
  - destruct b as [|y b]; cbn [app].
    + change (array_get (0 :: rb) 0) with (Done 0). cbn [mbind outcome_bind].
      destruct (Z.eqb_spec x 0); [lia|]. cbn [negb andb].
      exists (s8 x - s8 0). split; [done|]. split; [|done]. intros H. assert (x = 0); [|lia]. apply s8_inj; lia.
    + apply Forall_cons_1 in Hb as [Hy Hb]. change (array_get (y :: b ++ 0 :: rb) 0) with (Done y).
      cbn [mbind outcome_bind tail]. destruct (Z.eqb_spec x 0); [lia|]. cbn [negb andb].
      destruct (Z.eqb_spec x y) as [->|Hne].
      * destruct (IH b Hb) as (c & -> & Hc). exists c. split; [done|]. rewrite Hc.
        split; [by intros ->|by intros [= ->]].
      * exists (s8 x - s8 y). split; [done|]. split; [|by intros [= ->]].
        intros H. destruct Hne. apply s8_inj; lia.
Qed.

(** The characters [a] and the terminator are at [s] in [mem]. *)
Definition string_at (mem : list Z) (s : Z) (a : list Z) : Prop :=
  forall i x, (a ++ [0]) !! i = Some x -> mem !! Z.to_nat (s + Z.of_nat i) = Some x.

Lemma string_at_drop mem s a rest : 0 <= s -> drop (Z.to_nat s) mem = cstr a rest -> string_at mem s a.
Proof.
  intros Hs Hd i x Hx. replace (Z.to_nat (s + Z.of_nat i)) with (Z.to_nat s + i)%nat by lia.
  rewrite <- lookup_drop, Hd. unfold cstr. replace (a ++ 0 :: rest) with ((a ++ [0]) ++ rest) by by rewrite <- app_assoc.
  by apply lookup_app_l_Some.
Qed.

Lemma strcpy_loop_spec fuel mem d s a :
  text a -> (length a < fuel)%nat -> string_at mem s a -> 0 <= d -> 0 <= s ->
  d + Z.of_nat (length a) + 1 <= Z.of_nat (length mem) ->
  d <= s \/ s + Z.of_nat (length a) + 1 <= d ->
  exists mem', strcpy_loop fuel mem d s = Done mem' /\ copied mem mem' d s (Z.of_nat (length a) + 1).
Proof.
  intros Ha. revert fuel mem d s. induction Ha as [|c a Hc Ha IH]; intros fuel mem d s Hf Hat Hd Hs Hl Hov;
    (destruct fuel as [|fuel]; [cbn in Hf; lia|]); cbn [strcpy_loop].
  - pose proof (Hat 0%nat 0 eq_refl) as H0. rewrite Z.add_0_r in H0.
    rewrite (proj2 (array_get_Done mem s 0)) by done. cbn [mbind outcome_bind Z.eqb].
    pose proof (lookup_lt_Some _ _ _ H0). cbn [length] in Hl.
    destruct (copy_byte mem d s) as (x & mem1 & Hget & Hset & Hc); [lia..|].
    rewrite (proj2 (array_get_Done mem s 0)) in Hget by done. injection Hget as <-. by exists mem1.
  - pose proof (Hat 0%nat c eq_refl) as H0. rewrite Z.add_0_r in H0.
    rewrite (proj2 (array_get_Done mem s c)) by done. cbn [mbind outcome_bind].
    destruct (Z.eqb_spec c 0); [lia|].
    pose proof (lookup_lt_Some _ _ _ H0). cbn [length] in Hl, Hov, Hf.
    destruct (copy_byte mem d s) as (x & mem1 & Hget & Hset & L1 & H1); [lia..|].
    rewrite (proj2 (array_get_Done mem s c)) in Hget by done. injection Hget as <-.
    rewrite Hset. cbn [mbind outcome_bind].
    destruct (IH fuel mem1 (d + 1) (s + 1)) as (mem2 & -> & Hc2); [lia| |lia|lia|rewrite L1; lia|lia|].
    { intros i x Hx. specialize (Hat (S i) x Hx).
      pose proof (lookup_lt_Some _ _ _ Hx) as Hi. rewrite length_app in Hi. cbn [length] in Hi.
      rewrite H1 by lia. replace (s + 1 + Z.of_nat i) with (s + Z.of_nat (S i)) by lia.
      ranges; lia || done. }
    exists mem2. split; [done|]. cbn [length].
    replace (Z.of_nat (S (length a)) + 1) with (1 + (Z.of_nat (length a) + 1)) by lia.
    apply (copied_app mem mem1); try done; lia.
Qed.

(** On strings of non-zero characters the functions are those of lists:
    [strlen] is the length, [strcmp] is zero exactly on equal strings, [strcpy]
    copies the characters and the terminator and nothing else, [strcat] leaves the
    concatenation at the destination.  The source must not overlap what is
    written. *)
Theorem string_functions_are_list_functions mem dest src a b ra rb :
  text a -> text b -> 0 <= dest -> 0 <= src ->
  drop (Z.to_nat dest) mem = cstr a ra -> drop (Z.to_nat src) mem = cstr b rb ->
  dest + Z.of_nat (length a + length b) + 1 <= Z.of_nat (length mem) ->
  dest + Z.of_nat (length a + length b) + 1 <= src \/ src + Z.of_nat (length b) + 1 <= dest ->
  strlen (cstr a ra) = Done (Z.of_nat (length a)) /\
  (exists c, strcmp (cstr a ra) (cstr b rb) = Done c /\ (c = 0 <-> a = b)) /\
  (exists mem', strcpy mem dest src = Done mem' /\
     copied mem mem' dest src (Z.of_nat (length b) + 1)) /\
  (exists mem', strcat mem dest src = Done mem' /\ length mem' = length mem /\
     string_at mem' dest (a ++ b) /\
     forall i, 0 <= i < dest \/ dest + Z.of_nat (length a + length b) < i ->
       mem' !! Z.to_nat i = mem !! Z.to_nat i).
Proof.
  intros Ha Hb Hd Hs Hda Hsb Hl Hov.
  pose proof (string_at_drop _ _ _ _ Hd Hda) as Hat. pose proof (string_at_drop _ _ _ _ Hs Hsb) as Hbt.
  assert (Z.of_nat (length b) + 1 <= Z.of_nat (length mem)) as Hlb by lia.
  split; [by apply strlen_cstr|]. split; [by apply strcmp_cstr|]. split.
  - unfold strcpy. apply strcpy_loop_spec; try done; lia.
  - unfold strcat. rewrite Hda, strlen_cstr by done. cbn [mbind outcome_bind].
    destruct (strcpy_loop_spec (S (length mem)) mem (dest + Z.of_nat (length a)) src b)
      as (mem' & -> & Hc); try done; try lia.
    exists mem'. destruct Hc as [Hlen Hc]. split; [done|]. split; [done|]. split.
    + intros i x Hx. rewrite <- app_assoc in Hx. rewrite Hc by lia.
      destruct (decide (i < length a)%nat) as [Hi|Hi].
      * rewrite lookup_app_l in Hx by done. ranges; try lia. apply Hat.
        by apply lookup_app_l_Some.
      * rewrite lookup_app_r in Hx by lia. pose proof (lookup_lt_Some _ _ _ Hx) as Hlt.
        rewrite length_app in Hlt. cbn [length] in Hlt. ranges; try lia.
        replace (src + (dest + Z.of_nat i - (dest + Z.of_nat (length a))))
          with (src + Z.of_nat (i - length a)) by lia.
        by apply Hbt.
    + intros i Hi. rewrite Hc by lia. ranges; lia || done.
Qed.

(** ** Numbers as digits *)

Definition decimal (ds : list Z) : Z := fold_left (fun n c => n * 10 + (c - 48)) ds 0.
Definition digits (ds : list Z) : Prop := Forall (fun c => 48 <= c <= 57) ds.

Lemma is_digit_true c : 48 <= c <= 57 -> is_digit c = true.
Proof. unfold is_digit. lia. Qed.

Lemma decimal_mono ds n : digits ds -> 0 <= n -> n <= fold_left (fun n c => n * 10 + (c - 48)) ds n.
Proof.
  intros Hds. revert n. induction Hds as [|c ds Hc Hds IH]; intros n Hn; cbn [fold_left]; [lia|].
  specialize (IH (n * 10 + (c - 48)) ltac:(lia)). lia.
Qed.

Lemma atoi_digits_spec ds n e rest :
  digits ds -> is_digit e = false -> 0 <= n ->
  fold_left (fun n c => n * 10 + (c - 48)) ds n < 2 ^ 31 ->
  atoi_digits (ds ++ e :: rest) n = Done (fold_left (fun n c => n * 10 + (c - 48)) ds n).
Proof.
  intros Hds He. revert n. induction Hds as [|c ds Hc Hds IH]; intros n Hn Hlt; cbn [app atoi_digits fold_left] in *.
  - by rewrite He.
  - rewrite is_digit_true by done. pose proof (decimal_mono ds (n * 10 + (c - 48)) Hds ltac:(lia)).
    rewrite s32_small by lia. apply IH; lia.
Qed.

Lemma all_digits_spec a rest :
  all_digits (length a) (a ++ rest) = Done (forallb is_digit a).
Proof.
  induction a as [|c a IH]; [done|]. cbn [length all_digits app forallb].
  change (array_get (c :: a ++ rest) 0) with (Done c). cbn [mbind outcome_bind tail].
  destruct (is_digit c); [apply IH|done].
Qed.

Definition hex_value (c : Z) : Z := match hex_digit c with Some d => d | None => 0 end.
Definition hex_digits (ds : list Z) : Prop := Forall (fun c => hex_digit c <> None) ds.

Lemma hex_digit_range c d : hex_digit c = Some d -> 0 <= d < 16 /\ c <> 0.
Proof.
  unfold hex_digit, is_digit. intros H. repeat case_match; simplify_eq; try lia.
Qed.

Lemma htoi_digits_spec ds n e rest :
  hex_digits ds -> hex_digit e = None ->
  htoi_digits (ds ++ e :: rest) (u32 n) = Done (u32 (fold_left (fun n c => n * 16 + hex_value c) ds n)).
Proof.
  intros Hds He. revert n. induction Hds as [|c ds Hc Hds IH]; intros n; cbn [app htoi_digits fold_left].
  - rewrite He. by destruct (e =? 0).
  - unfold hex_value at 2. destruct (hex_digit c) as [d|] eqn:Hd; [|done].
    destruct (hex_digit_range c d Hd). destruct (Z.eqb_spec c 0); [done|].
    rewrite <- IH. f_equal. rewrite Z.shiftl_mul_pow2 by lia. change (2 ^ 4) with 16.
    unfold u32. rewrite Zplus_mod_idemp_l, <- Zplus_mod_idemp_l, Zmult_mod_idemp_l, Zplus_mod_idemp_l. done.
Qed.

(** [atoi] reads an optional minus and the decimal digits up to the first
    other character, exactly below [2^31]; [htoi] reads hexadecimal digits of either
    case modulo [2^32]; [isNumber] holds exactly of strings of digits only. *)
Theorem number_parsers ds hs a e e' rest :
  digits ds -> is_digit e = false -> decimal ds < 2 ^ 31 ->
  hex_digits hs -> hex_digit e' = None -> text a ->
  (ds <> [] \/ e <> 45 -> atoi (ds ++ e :: rest) = Done (decimal ds)) /\
  atoi (45 :: ds ++ e :: rest) = Done (- decimal ds) /\
  htoi (hs ++ e' :: rest) = Done (u32 (fold_left (fun n c => n * 16 + hex_value c) hs 0)) /\
  isNumber (cstr a rest) = Done (forallb is_digit a).
Proof.
  intros Hds He Hlt Hhs He' Ha.
  pose proof (atoi_digits_spec ds 0 e rest Hds He ltac:(lia) Hlt) as Hd. fold (decimal ds) in Hd.
  pose proof (decimal_mono ds 0 Hds ltac:(lia)) as Hpos. fold (decimal ds) in Hpos.
  split; [|split; [|split]].
  - intros Hne. unfold atoi.
    assert (exists c, array_get (ds ++ e :: rest) 0 = Done c /\ c <> 45) as (c & -> & Hc).
    { destruct Hds as [|c ds Hc Hds]; cbn [app].
      - exists e. split; [done|]. by destruct Hne.
      - exists c. split; [done|]. lia. }
    cbn [mbind outcome_bind]. destruct (Z.eqb_spec c 45); [done|]. rewrite Hd. cbn [mbind outcome_bind].
    f_equal. rewrite Z.mul_1_r. apply s32_small. lia.
  - unfold atoi. change (array_get (45 :: ds ++ e :: rest) 0) with (Done 45).
    cbn [mbind outcome_bind Z.eqb Pos.eqb tail]. rewrite Hd. cbn [mbind outcome_bind].
    f_equal. rewrite s32_small; lia.
  - unfold htoi. change 0 with (u32 0) at 1. by apply htoi_digits_spec.
  - unfold isNumber. rewrite strlen_cstr by done. cbn [mbind outcome_bind]. rewrite Nat2Z.id.
    apply all_digits_spec.
Qed.

(** ** Instances *)

Lemma memmove_memcpy_copy_witness :
  exists mem', memmove [1; 2; 3; 4; 5; 6; 7; 8] 2 0 6 = Done mem' /\ mem' !! 7%nat = Some 6.
Proof.
  destruct (memmove_memcpy_copy [1; 2; 3; 4; 5; 6; 7; 8] 2 0 6) as [(mem' & Hm & _ & Hc) _];
    [repeat constructor; unfold is_byte; lia|lia|lia|lia|cbn; lia|cbn; lia|].
  exists mem'. split; [exact Hm|]. exact (Hc 7 ltac:(lia)).
Defined.

Lemma memset_fills_witness :
  exists mem', memset (replicate 20 0) 3 0x1ab 11 = Done mem' /\ mem' !! 13%nat = Some 0xab /\
    mem' !! 14%nat = Some 0.
Proof.
  destruct (memset_fills (replicate 20 0) 3 0x1ab 11) as (mem' & Hm & _ & Hf); [lia|lia|cbn; lia|].
  exists mem'. split; [exact Hm|]. split; [exact (Hf 13 ltac:(lia))|exact (Hf 14 ltac:(lia))].
Defined.

(** "ab" followed by "c". *)
Lemma string_functions_are_list_functions_witness :
  exists mem', strcat [97; 98; 0; 1; 1; 1; 99; 0] 0 6 = Done mem' /\ string_at mem' 0 [97; 98; 99].
Proof.
  destruct (string_functions_are_list_functions [97; 98; 0; 1; 1; 1; 99; 0] 0 6 [97; 98] [99] [1; 1; 1; 99; 0] [])
    as (_ & _ & _ & mem' & Hm & _ & Hat & _);
    [repeat constructor; lia|repeat constructor; lia|lia|lia|reflexivity|reflexivity|cbn; lia|cbn; lia|].
  exists mem'. split; [exact Hm|exact Hat].
Defined.

Lemma number_parsers_witness :
  atoi [45; 49; 50; 51; 32] = Done (-123) /\ htoi [68; 101; 97; 68; 0; 32] = Done 0xdead.
Proof.
  destruct (number_parsers [49; 50; 51] [68; 101; 97; 68] [49] 32 0 [32])
    as (_ & H1 & _); [repeat constructor; lia|reflexivity|vm_compute; reflexivity|
    repeat constructor; discriminate|reflexivity|repeat constructor; lia|].
  destruct (number_parsers [49; 50; 51] [68; 101; 97; 68] [49] 32 0 [32])
    as (_ & _ & H2 & _); [repeat constructor; lia|reflexivity|vm_compute; reflexivity|
    repeat constructor; discriminate|reflexivity|repeat constructor; lia|].
  split; [exact H1|exact H2].
Defined.
