(* ===== verification/Lists.v ===== *)
(** * The intrusive ring lists (kernel/src/lib/list.c, mutexes of sys/sync.c)

    Items and list heads live in a store indexed by their addresses; 0 is the null
    pointer.  The items of a list form a ring, linked in both directions, that
    starts at [first].  Reading an item that is not in the store is a [Fault]. *)
From Stdlib Require Import ZArith Lia.
From stdpp Require Import base list gmap numbers.
From S2P Require Import Prelude.

#[local] Open Scope Z_scope.

(** ** Operations *)

Record list_item_t := ListItem { prev : Z; next : Z; item_list : Z }.
Record list_t := ListHead { first : Z; count : Z }.

#[export] Instance list_t_eq_dec : EqDecision list_t.
Proof. solve_decision. Defined.

Record store := Store { items : gmap Z list_item_t; heads : gmap Z list_t }.

Definition with_items (m : gmap Z list_item_t) (s : store) : store := Store m (heads s).
Definition with_heads (m : gmap Z list_t) (s : store) : store := Store (items s) m.

Definition get_item (p : Z) (s : store) : outcome list_item_t := of_option (items s !! p).
Definition get_head (l : Z) (s : store) : outcome list_t := of_option (heads s !! l).
Definition put_item (p : Z) (i : list_item_t) (s : store) : store := with_items (<[p := i]> (items s)) s.
Definition put_head (l : Z) (h : list_t) (s : store) : store := with_heads (<[l := h]> (heads s)) s.

(** [p->next = x], [p->prev = x]. *)
Definition set_next (p x : Z) (s : store) : outcome store :=
  i ← get_item p s; Done (put_item p (ListItem (prev i) x (item_list i)) s).
Definition set_prev (p x : Z) (s : store) : outcome store :=
  i ← get_item p s; Done (put_item p (ListItem x (next i) (item_list i)) s).

Definition list_init (l : Z) (s : store) : store := put_head l (ListHead 0 0) s.

Definition list_add (l item : Z) (s : store) : outcome store :=
  i ← get_item item s;
  if item_list i =? 0 then
    h ← get_head l s;
    s ← (if negb (first h =? 0) then
           f ← get_item (first h) s;
           let s := put_item item (ListItem (prev f) (first h) l) s in
           s ← set_next (prev f) item s;
           set_prev (first h) item s
         else Done (put_head l (ListHead item (count h)) (put_item item (ListItem item item l) s)));
    h ← get_head l s;
    Done (put_head l (ListHead (first h) (u32 (count h + 1))) s)
  else Done s.

Definition list_remove (item : Z) (s : store) : outcome store :=
  i ← get_item item s;
  h ← get_head (item_list i) s;
  let s :=
    if first h =? item then
      put_head (item_list i) (ListHead (if next i =? item then 0 else next i) (count h)) s
    else s in
  i ← get_item item s;
  s ← set_prev (next i) (prev i) s;
  i ← get_item item s;
  s ← set_next (prev i) (next i) s;
  i ← get_item item s;
  h ← get_head (item_list i) s;
  Done (put_head (item_list i) (ListHead (first h) (u32 (count h - 1))) s).

(** A mutex that is taken is never released while the caller spins: the machine has
    one processor, and the lists are changed with interrupts off. *)
Definition mutex_get (lock : bool) : outcome bool := if lock then Hang else Done true.
Definition mutex_release (lock : bool) : bool := false.

(** ** Rings *)

(** Consecutive elements point at each other. *)
Fixpoint chain (s : store) (l : list Z) : Prop :=
  match l with
  | x :: (y :: _) as r =>
      next <$> items s !! x = Some y /\ prev <$> items s !! y = Some x /\ chain s r
  | _ => True
  end.

Definition closed (xs : list Z) : list Z :=
  match xs with [] => [] | x :: _ => xs ++ [x] end.

(** [xs] are the items of the list at [l], in order. *)
Record ring (s : store) (l : Z) (xs : list Z) : Prop := Ring {
  rg_head : heads s !! l = Some (ListHead (hd 0 xs) (Z.of_nat (length xs)));
  rg_distinct : NoDup xs;
  rg_null : 0 ∉ xs;
  rg_owner : Forall (fun x => item_list <$> items s !! x = Some l) xs;
  rg_chain : chain s (closed xs)
}.

Lemma chain_cons s x y r :
  chain s (x :: y :: r) <-> next <$> items s !! x = Some y /\ prev <$> items s !! y = Some x /\ chain s (y :: r).
Proof. done. Qed.

Lemma chain_app s l1 z l2 : chain s (l1 ++ z :: l2) <-> chain s (l1 ++ [z]) /\ chain s (z :: l2).
Proof.
  induction l1 as [|x l1 IH]; [cbn [app]; destruct l2; cbn; tauto|]. cbn [app].
  destruct l1 as [|y l1]; cbn [app] in *; rewrite !chain_cons; [cbn; tauto|]. rewrite IH. tauto.
Qed.

(** A chain only depends on the links inside it. *)
Lemma chain_frame s s' l :
  (forall x, x ∈ removelast l -> next <$> items s' !! x = next <$> items s !! x) ->
  (forall y, y ∈ tail l -> prev <$> items s' !! y = prev <$> items s !! y) ->
  chain s l -> chain s' l.
Proof.
  induction l as [|x [|y r] IH]; intros Hn Hp Hc; [done|done|].
  apply chain_cons in Hc as (H1 & H2 & Hc). apply chain_cons. split_and!.
  - rewrite Hn; [done|]. cbn. apply elem_of_cons. by left.
  - rewrite Hp; [done|]. cbn. apply elem_of_cons. by left.
  - apply IH; [|intros z Hz; apply Hp; cbn; apply elem_of_cons; by right|done].
    intros z Hz. apply Hn. cbn [removelast]. apply elem_of_cons. by right.
Qed.

Lemma removelast_app_one (l : list Z) x : removelast (l ++ [x]) = l.
Proof. apply removelast_last. Qed.

Lemma removelast_cons_app (a : Z) l x : removelast (a :: l ++ [x]) = a :: l.
Proof. apply (removelast_last (a :: l)). Qed.

(** Setting one field of one item. *)
Lemma set_next_spec p x s i :
  items s !! p = Some i ->
  exists s', set_next p x s = Done s' /\ heads s' = heads s /\
    (forall q, next <$> items s' !! q = if decide (q = p) then Some x else next <$> items s !! q) /\
    (forall q, prev <$> items s' !! q = prev <$> items s !! q) /\
    (forall q, item_list <$> items s' !! q = item_list <$> items s !! q) /\
    (forall q, q <> p -> items s' !! q = items s !! q).
Proof.
  intros Hi. unfold set_next, get_item. rewrite Hi. cbn [of_option mbind outcome_bind].
  eexists. split; [done|]. unfold put_item, with_items. cbn [items heads]. split; [done|].
  split_and!; intros q; try (intros Hq; by apply lookup_insert_ne); destruct (decide (q = p)) as [->|Hne];
    rewrite ?lookup_insert_eq, ?lookup_insert_ne by done; rewrite ?Hi; done.
Qed.

Lemma set_prev_spec p x s i :
  items s !! p = Some i ->
  exists s', set_prev p x s = Done s' /\ heads s' = heads s /\
    (forall q, prev <$> items s' !! q = if decide (q = p) then Some x else prev <$> items s !! q) /\
    (forall q, next <$> items s' !! q = next <$> items s !! q) /\
    (forall q, item_list <$> items s' !! q = item_list <$> items s !! q) /\
    (forall q, q <> p -> items s' !! q = items s !! q).
Proof.
  intros Hi. unfold set_prev, get_item. rewrite Hi. cbn [of_option mbind outcome_bind].
  eexists. split; [done|]. unfold put_item, with_items. cbn [items heads]. split; [done|].
  split_and!; intros q; try (intros Hq; by apply lookup_insert_ne); destruct (decide (q = p)) as [->|Hne];
    rewrite ?lookup_insert_eq, ?lookup_insert_ne by done; rewrite ?Hi; done.
Qed.

Lemma owner_item s x l : item_list <$> items s !! x = Some l ->
  exists i, items s !! x = Some i /\ item_list i = l.
Proof. destruct (items s !! x) as [i|]; [|done]. intros [= H]. by exists i. Qed.

(** The links at the ends of a ring. *)
Lemma ring_first s l x xs :
  ring s l (x :: xs) ->
  exists i, items s !! x = Some i /\ item_list i = l /\ prev i = default x (list.last xs) /\
    next i = hd x xs.
Proof.
  intros [_ _ _ Ho Hc]. apply Forall_cons_1 in Ho as [Ho _].
  destruct (owner_item _ _ _ Ho) as (i & Hi & Hl). exists i. split; [done|]. split; [done|].
  cbn [closed] in Hc. destruct xs as [|y xs].
  - cbn [app] in Hc. apply chain_cons in Hc as (H1 & H2 & _). rewrite Hi in H1, H2. cbn in *. by simplify_eq.
  - cbn [app hd] in *. apply chain_cons in Hc as (H1 & _ & Hc). rewrite Hi in H1. injection H1 as H1.
    destruct (exists_last (l := y :: xs)) as (q & z & E); [done|]. rewrite E.
    rewrite last_snoc. cbn [default]. change (y :: xs ++ [x]) with ((y :: xs) ++ [x]) in Hc.
    rewrite E, <- app_assoc in Hc. apply chain_app in Hc as [_ Hc]. apply chain_cons in Hc as (_ & H2 & _).
    rewrite Hi in H2. injection H2 as H2. done.
Qed.

(** A list function that only looks at [first], [count] and the three fields. *)
Definition same_items (s s' : store) : Prop :=
  (forall q, next <$> items s' !! q = next <$> items s !! q) /\
  (forall q, prev <$> items s' !! q = prev <$> items s !! q) /\
  (forall q, item_list <$> items s' !! q = item_list <$> items s !! q).

Lemma chain_same s s' l : same_items s s' -> chain s l -> chain s' l.
Proof. intros (Hn & Hp & _). apply chain_frame; auto. Qed.

Lemma closed_tail x xs : tail (closed (x :: xs)) = xs ++ [x].
Proof. done. Qed.

Lemma closed_removelast xs : removelast (closed xs) = xs.
Proof. destruct xs as [|x xs]; [done|]. apply (removelast_last (x :: xs)). Qed.

(** The links after [item] is put between the last item [z] and the first [x]. *)
Definition linked_last (s s' : store) (l x z item : Z) : Prop :=
  (forall q, next <$> items s' !! q =
     if decide (q = z) then Some item else if decide (q = item) then Some x else next <$> items s !! q) /\
  (forall q, prev <$> items s' !! q =
     if decide (q = x) then Some item else if decide (q = item) then Some z else prev <$> items s !! q) /\
  (forall q, item_list <$> items s' !! q =
     if decide (q = item) then Some l else item_list <$> items s !! q).

Lemma link_last s l x z item :
  item <> z -> item <> x -> is_Some (items s !! x) -> is_Some (items s !! z) ->
  exists s2 s3, set_next z item (put_item item (ListItem z x l) s) = Done s2 /\
    set_prev x item s2 = Done s3 /\ heads s3 = heads s /\ linked_last s s3 l x z item /\
    (forall q, q <> item -> q <> z -> q <> x -> items s3 !! q = items s !! q).
Proof.
  intros Hiz Hix [ix Hx] [iz Hz]. set (s1 := put_item item (ListItem z x l) s).
  assert (items s1 = <[item := ListItem z x l]> (items s)) as Es1 by done.
  destruct (set_next_spec z item s1 iz) as (s2 & E2 & Hh2 & Hn2 & Hp2 & Ho2 & He2);
    [by rewrite Es1, lookup_insert_ne|].
  assert (is_Some (items s2 !! x)) as [ix2 Hx2].
  { pose proof (Hp2 x) as Hq. rewrite Es1, lookup_insert_ne, Hx in Hq by done.
    destruct (items s2 !! x) as [i|]; [by exists i|done]. }
  destruct (set_prev_spec x item s2 ix2 Hx2) as (s3 & E3 & Hh3 & Hp3 & Hn3 & Ho3 & He3).
  exists s2, s3. split; [done|]. split; [done|]. split; [by rewrite Hh3, Hh2|]. split; [split_and!|].
  - intros q. rewrite Hn3, Hn2, Es1. case_decide; [done|].
    case_decide; [subst; by rewrite lookup_insert_eq|by rewrite lookup_insert_ne].
  - intros q. rewrite Hp3, Hp2, Es1. case_decide; [done|].
    case_decide; [subst; by rewrite lookup_insert_eq|by rewrite lookup_insert_ne].
  - intros q. rewrite Ho3, Ho2, Es1.
    case_decide; [subst; by rewrite lookup_insert_eq|by rewrite lookup_insert_ne].
  - intros q H1 H2 H3. rewrite He3, He2, Es1 by done. by apply lookup_insert_ne.
Qed.

Lemma NoDup_snoc (xs : list Z) x : NoDup xs -> x ∉ xs -> NoDup (xs ++ [x]).
Proof.
  intros Hd Hx. apply list.NoDup_app. split_and!; [done| |apply list.NoDup_singleton].
  intros y Hy ->%list_elem_of_singleton. done.
Qed.

Lemma NoDup_snoc_inv (xs : list Z) x : NoDup (xs ++ [x]) -> x ∉ xs.
Proof.
  intros Hd Hx. apply list.NoDup_app in Hd as (_ & Hd & _). apply (Hd x Hx). apply elem_of_cons. by left.
Qed.

(** Such links make a ring with the item at the end. *)
Lemma ring_snoc s s' l x xs u z item :
  ring s l (x :: xs) -> x :: xs = u ++ [z] -> item ∉ x :: xs -> item <> 0 ->
  linked_last s s' l x z item ->
  heads s' !! l = Some (ListHead x (Z.of_nat (length (x :: xs)) + 1)) ->
  ring s' l ((x :: xs) ++ [item]).
Proof.
  intros [_ Hd Hnull Ho Hc] Eu Hnin Hne0 (Hnext & Hprev & Howner) Hh.
  assert (x ∉ xs) as Hx by by apply list.NoDup_cons in Hd as [].
  assert (z ∈ x :: xs) as Hzin by (rewrite Eu; apply elem_of_app; right; by apply list_elem_of_singleton).
  assert (item <> z) as Hiz by (intros ->; done).
  assert (item <> x) as Hix by (intros ->; apply Hnin, elem_of_cons; by left).
  constructor.
  - rewrite Hh. rewrite length_app. cbn [hd app length]. do 2 f_equal. lia.
  - by apply NoDup_snoc.
  - intros [|Heq%list_elem_of_singleton]%elem_of_app; [done|congruence].
  - rewrite list.Forall_forall in Ho. apply list.Forall_forall. intros q Hq.
    rewrite Howner. case_decide; [done|]. apply Ho.
    by apply elem_of_app in Hq as [|?%list_elem_of_singleton].
  - change (closed ((x :: xs) ++ [item])) with (((x :: xs) ++ [item]) ++ [x]).
    rewrite Eu, <- !app_assoc. cbn [app]. apply chain_app. split.
    + apply (chain_frame s).
      * intros y Hy. rewrite removelast_app_one in Hy. rewrite Hnext. rewrite Eu in Hd, Hnin.
        case_decide; [subst; by destruct (NoDup_snoc_inv _ _ Hd)|].
        case_decide; [|done]. subst. destruct Hnin. apply elem_of_app. by left.
      * intros y Hy. rewrite <- Eu in Hy. cbn [tail] in Hy. rewrite Hprev.
        case_decide; [by subst|]. case_decide; [|done]. subst. destruct Hnin. apply elem_of_cons. by right.
      * change (closed (x :: xs)) with ((x :: xs) ++ [x]) in Hc.
        rewrite Eu, <- app_assoc in Hc. by apply chain_app in Hc as [Hc _].
    + rewrite !chain_cons, !Hnext, !Hprev. rewrite !decide_True by done.
      rewrite (decide_False (P := item = x)), (decide_True (P := item = item)) by done.
      rewrite (decide_False (P := item = z)) by done. rewrite !decide_True by done. done.
Qed.

(** Adding an item that belongs to no list puts it at the end of the ring. *)
Lemma list_add_spec l item s xs i :
  ring s l xs -> items s !! item = Some i -> item_list i = 0 -> item <> 0 -> l <> 0 ->
  Z.of_nat (length xs) + 1 < 2 ^ 32 ->
  exists s', list_add l item s = Done s' /\ ring s' l (xs ++ [item]) /\
    (forall q, q ∉ item :: xs -> items s' !! q = items s !! q) /\
    (forall q, q <> l -> heads s' !! q = heads s !! q).
Proof.
  intros Hr Hi Hl0 Hne0 Hl Hlen.
  assert (item ∉ xs) as Hnin.
  { intros Hin. pose proof (rg_owner _ _ _ Hr) as Ho. rewrite list.Forall_forall in Ho.
    specialize (Ho _ Hin). rewrite Hi in Ho. cbn in Ho. congruence. }
  unfold list_add, get_item, get_head. rewrite Hi. cbn [of_option mbind outcome_bind].
  rewrite Hl0. cbn [Z.eqb]. pose proof (rg_head _ _ _ Hr) as Hh. rewrite Hh.
  cbn [of_option mbind outcome_bind first count].
  destruct xs as [|x xs]; cbn [hd].
  - cbn [Z.eqb negb mbind outcome_bind]. unfold put_head, put_item, with_heads, with_items. cbn [items heads].
    rewrite lookup_insert_eq. cbn [of_option mbind outcome_bind first count]. eexists. split; [done|].
    cbn [items heads length]. split; [|split].
    + constructor; cbn [items heads app hd length closed].
      * by rewrite lookup_insert_eq.
      * apply list.NoDup_singleton.
      * intros Heq%list_elem_of_singleton. congruence.
      * apply Forall_cons_2; [|apply Forall_nil_2]. by rewrite lookup_insert_eq.
      * apply chain_cons. cbn [items]. rewrite lookup_insert_eq. done.
    + intros q Hq. apply lookup_insert_ne. intros ->. apply Hq, elem_of_cons. by left.
    + intros q Hq. by rewrite !lookup_insert_ne.
  - destruct (ring_first s l x xs Hr) as (f & Hf & Hfl & Hfp & Hfn).
    destruct (Z.eqb_spec x 0) as [->|Hx0]; [destruct (rg_null _ _ _ Hr); apply elem_of_cons; by left|].
    cbn [negb]. rewrite Hf. cbn [of_option mbind outcome_bind]. rewrite Hfp.
    destruct (exists_last (l := x :: xs)) as (u & z & Eu); [done|].
    assert (default x (list.last xs) = z) as ->.
    { pose proof (f_equal list.last Eu) as El. rewrite last_snoc, last_cons in El.
      destruct (list.last xs); by simplify_eq. }
    assert (z ∈ x :: xs) as Hzin by (rewrite Eu; apply elem_of_app; right; by apply list_elem_of_singleton).
    assert (x ∈ x :: xs) as Hxin by (apply elem_of_cons; by left).
    pose proof (rg_owner _ _ _ Hr) as Ho. rewrite list.Forall_forall in Ho.
    destruct (owner_item _ _ _ (Ho z Hzin)) as (iz & Hiz & _).
    destruct (link_last s l x z item) as (s2 & s3 & -> & E3 & Hh3 & Hlink & Hframe);
      [by intros ->|by intros ->|by exists f|by exists iz|].
    cbn [mbind outcome_bind]. rewrite E3. cbn [mbind outcome_bind].
    rewrite Hh3, Hh. cbn [of_option mbind outcome_bind first count hd].
    eexists. split; [done|]. unfold put_head, with_heads. split; [|split].
    + apply (ring_snoc s _ l x xs u z item Hr Eu Hnin Hne0); [exact Hlink|]. cbn [heads].
      rewrite lookup_insert_eq, u32_small by (cbn [length] in *; lia). done.
    + cbn [items]. intros q Hq. apply Hframe; intros ->; apply Hq, elem_of_cons; [by left|by right|by right].
    + cbn [heads]. intros q Hq. rewrite Hh3. by apply lookup_insert_ne.
Qed.

(** The links after the item between [a] and [b] is taken out. *)
Definition unlinked (s s' : store) (a b : Z) : Prop :=
  (forall q, next <$> items s' !! q = if decide (q = a) then Some b else next <$> items s !! q) /\
  (forall q, prev <$> items s' !! q = if decide (q = b) then Some a else prev <$> items s !! q) /\
  (forall q, item_list <$> items s' !! q = item_list <$> items s !! q).

Lemma tail_app (u v : list Z) x : tail (u ++ x :: v) = tail (u ++ [x]) ++ v.
Proof. destruct u as [|y u]; [done|]. cbn [tail app]. by rewrite <- app_assoc. Qed.

Lemma chain_unlinked s s' u a b v :
  chain s (u ++ [a]) -> chain s (b :: v) -> unlinked s s' a b ->
  NoDup (removelast (u ++ a :: b :: v)) -> NoDup (tail (u ++ a :: b :: v)) ->
  chain s' (u ++ a :: b :: v).
Proof.
  intros H1 H2 (Hn & Hp & _) Hsrc Htgt.
  rewrite removelast_app in Hsrc by done. apply list.NoDup_app in Hsrc as (_ & Hua & Hsrc).
  change (removelast (a :: b :: v)) with (a :: removelast (b :: v)) in Hua, Hsrc.
  apply list.NoDup_cons in Hsrc as [Hav _].
  rewrite tail_app in Htgt. apply list.NoDup_app in Htgt as (_ & Htu & Htgt).
  apply list.NoDup_cons in Htgt as [Hbv _].
  apply chain_app. split; [|apply chain_cons; split_and!].
  - apply (chain_frame s); [| |done].
    + intros x Hx. rewrite removelast_app_one in Hx. rewrite Hn. case_decide; [|done].
      subst. destruct (Hua a Hx). apply elem_of_cons. by left.
    + intros y Hy. rewrite Hp. case_decide; [|done]. subst. destruct (Htu b Hy). apply elem_of_cons. by left.
  - rewrite Hn. by rewrite decide_True.
  - rewrite Hp. by rewrite decide_True.
  - apply (chain_frame s); [| |done].
    + intros x Hx. rewrite Hn. case_decide; [by subst|done].
    + intros y Hy. rewrite Hp. case_decide; [by subst|done].
Qed.

(** What surrounds an item of a ring with others. *)
Lemma ring_around s l p item q :
  ring s l (p ++ item :: q) -> p ++ q <> [] ->
  exists i u a b v, items s !! item = Some i /\ item_list i = l /\ prev i = a /\ next i = b /\
    a <> item /\ b <> item /\ closed (p ++ q) = u ++ a :: b :: v /\ chain s (u ++ [a]) /\ chain s (b :: v) /\
    a ∈ p ++ q /\ b ∈ p ++ q /\ (p = [] -> hd 0 (p ++ q) = b).
Proof.
  intros [_ Hd _ Ho Hc] Hne. rewrite list.Forall_forall in Ho.
  destruct (owner_item s item l) as (i & Hi & Hl); [apply Ho, elem_of_app; right; apply elem_of_cons; by left|].
  exists i. assert (item ∉ p ++ q) as Hnin.
  { rewrite Permutation_app_comm in Hd. cbn [app] in Hd. apply list.NoDup_cons in Hd as [Hx _].
    intros Hin. apply Hx. apply elem_of_app. apply elem_of_app in Hin as [|]; auto. }
  destruct p as [|h p].
  - destruct q as [|b q]; [done|]. destruct (exists_last (l := b :: q)) as (u & z & Eu); [done|].
    cbn [app closed] in Hc. change (item :: b :: q ++ [item]) with (item :: (b :: q) ++ [item]) in Hc.
    pose proof Hc as Hc'. apply chain_cons in Hc' as (Hnx & _ & _).
    rewrite Eu, <- app_assoc in Hc. cbn [app] in Hc.
    change (item :: u ++ [z; item]) with ((item :: u) ++ z :: [item]) in Hc.
    apply chain_app in Hc as [Hc1 Hc2]. apply chain_cons in Hc2 as (_ & Hpv & _).
    rewrite Hi in Hnx, Hpv. injection Hnx as Hnx. injection Hpv as Hpv.
    exists u, z, b, []. change (closed ([] ++ b :: q)) with ((b :: q) ++ [b]). cbn [app] in Hnin |- *.
    change (b :: q ++ [b]) with ((b :: q) ++ [b]). rewrite Eu, <- app_assoc. split_and!; try done.
    + intros ->. apply Hnin. rewrite Eu. apply elem_of_app. right. by apply list_elem_of_singleton.
    + intros ->. apply Hnin, elem_of_cons. by left.
    + destruct u as [|y u]; [done|]. by apply chain_cons in Hc1 as (_ & _ & ?).
    + apply elem_of_app. right. by apply list_elem_of_singleton.
    + rewrite <- Eu. apply elem_of_cons. by left.
    + by rewrite <- Eu.
  - destruct (exists_last (l := h :: p)) as (u & a & Eu); [done|].
    destruct (q ++ [h]) as [|b v] eqn:Ev; [by destruct q|].
    assert (closed ((h :: p) ++ item :: q) = u ++ a :: item :: b :: v) as E1.
    { cbn [app closed]. rewrite <- app_assoc. cbn [app]. rewrite Ev.
      change (h :: p ++ item :: b :: v) with ((h :: p) ++ item :: b :: v). by rewrite Eu, <- app_assoc. }
    assert (closed ((h :: p) ++ q) = u ++ a :: b :: v) as E2.
    { cbn [app closed]. rewrite <- app_assoc. rewrite Ev.
      change (h :: p ++ b :: v) with ((h :: p) ++ b :: v). by rewrite Eu, <- app_assoc. }
    rewrite E1 in Hc. apply chain_app in Hc as [Hc1 Hc2]. apply chain_cons in Hc2 as (_ & Hpv & Hc2).
    apply chain_cons in Hc2 as (Hnx & _ & Hc2).
    rewrite Hi in Hnx, Hpv. injection Hnx as Hnx. injection Hpv as Hpv.
    assert (a ∈ (h :: p) ++ q) as Ha.
    { rewrite Eu. apply elem_of_app. left. apply elem_of_app. right. by apply list_elem_of_singleton. }
    assert (b ∈ (h :: p) ++ q) as Hb.
    { destruct q as [|y q]; injection Ev as -> _; [apply elem_of_cons; by left|].
      apply elem_of_app. right. apply elem_of_cons. by left. }
    exists u, a, b, v. split_and!; try done; intros ->; done.
Qed.

Lemma ring_item s l xs x : ring s l xs -> x ∈ xs -> exists i, items s !! x = Some i /\ item_list i = l.
Proof.
  intros Hr Hx. pose proof (rg_owner _ _ _ Hr) as Ho. rewrite list.Forall_forall in Ho.
  by apply owner_item, Ho.
Qed.

Lemma elem_of_middle (p q : list Z) x y : x ∈ p ++ q -> x ∈ p ++ y :: q.
Proof. rewrite !elem_of_app, elem_of_cons. tauto. Qed.

(** The two stores of [list_remove]; the item itself is not touched. *)
Lemma unlink s item i a b :
  items s !! item = Some i -> a <> item -> b <> item -> is_Some (items s !! b) -> is_Some (items s !! a) ->
  exists s2 s3, set_prev b a s = Done s2 /\ set_next a b s2 = Done s3 /\ heads s3 = heads s /\
    unlinked s s3 a b /\ (forall q, q <> a -> q <> b -> items s3 !! q = items s !! q) /\
    items s2 !! item = Some i /\ items s3 !! item = Some i.
Proof.
  intros Hi Ha Hb [ib Hib] [ia Hia].
  destruct (set_prev_spec b a s ib Hib) as (s2 & E2 & Hh2 & Hp2 & Hn2 & Ho2 & He2).
  assert (is_Some (items s2 !! a)) as [ia2 Hia2].
  { pose proof (Hn2 a) as Hq. rewrite Hia in Hq. destruct (items s2 !! a) as [x|]; [by exists x|done]. }
  destruct (set_next_spec a b s2 ia2 Hia2) as (s3 & E3 & Hh3 & Hn3 & Hp3 & Ho3 & He3).
  exists s2, s3. split; [done|]. split; [done|]. split; [by rewrite Hh3, Hh2|]. split; [split_and!|split_and!].
  - intros q. rewrite Hn3. case_decide; [done|]. apply Hn2.
  - intros q. rewrite Hp3. apply Hp2.
  - intros q. by rewrite Ho3, Ho2.
  - intros q H1 H2. by rewrite He3, He2.
  - by rewrite He2.
  - by rewrite He3, He2.
Qed.

(** Removing an item takes it out of the ring; it keeps its mark, so that it cannot
    be added again. *)
Lemma list_remove_spec l item s p q :
  ring s l (p ++ item :: q) -> Z.of_nat (length (p ++ item :: q)) < 2 ^ 32 ->
  exists s', list_remove item s = Done s' /\ ring s' l (p ++ q) /\
    (item_list <$> items s' !! item = Some l) /\
    (forall y, y ∉ p ++ item :: q -> items s' !! y = items s !! y) /\
    (forall y, y <> l -> heads s' !! y = heads s !! y).
Proof.
  intros Hr Hlen. pose proof (rg_head _ _ _ Hr) as Hh. pose proof (rg_distinct _ _ _ Hr) as Hd.
  assert (item ∉ p ++ q) as Hnin.
  { rewrite Permutation_app_comm in Hd. cbn [app] in Hd. apply list.NoDup_cons in Hd as [Hx _].
    intros Hin. apply Hx. apply elem_of_app. apply elem_of_app in Hin as [|]; auto. }
  assert (Z.of_nat (length (p ++ item :: q)) - 1 = Z.of_nat (length (p ++ q))) as Hcount
    by (rewrite !length_app; cbn [length]; lia).
  pose proof (fun H => ring_around s l p item q Hr H) as Haround.
  destruct (decide (p ++ q = [])) as [Hnil|Hne].
  - apply app_eq_nil in Hnil as [-> ->]. clear Haround.
    destruct (ring_first s l item [] Hr) as (i & Hi & Hl & Hp & Hn). cbn in Hp, Hn.
    unfold list_remove, get_item, get_head. rewrite Hi. cbn [of_option mbind outcome_bind].
    rewrite Hl, Hh. cbn [of_option mbind outcome_bind first count hd app]. rewrite Hn, Z.eqb_refl.
    unfold put_head, with_heads. cbn [items]. rewrite Hi. cbn [of_option mbind outcome_bind].
    rewrite Hp, Hn. unfold set_prev, set_next, get_item, put_item, with_items. cbn [items heads].
    repeat (first [rewrite Hi|rewrite lookup_insert_eq]; cbn [of_option mbind outcome_bind items heads prev next item_list first count]).
    rewrite Hl. repeat (rewrite lookup_insert_eq; cbn [of_option mbind outcome_bind first count]).
    eexists. split; [done|]. cbn [items heads app]. split_and!.
    + constructor; cbn [items heads closed].
      * rewrite lookup_insert_eq. done.
      * apply base.NoDup_nil_2.
      * apply not_elem_of_nil.
      * apply Forall_nil_2.
      * done.
    + rewrite lookup_insert_eq. done.
    + intros y Hy. rewrite !lookup_insert_ne; [done|..]; intros ->; apply Hy, elem_of_cons; by left.
    + intros y Hy. by rewrite !lookup_insert_ne.
  - destruct (Haround Hne) as (i & u & a & b & v & Hi & Hl & Hp & Hn & Hai & Hbi & Ecl & Hc1 & Hc2 & Ha & Hb & Hhd).
    clear Haround.
    set (s1 := if hd 0 (p ++ item :: q) =? item
      then put_head l (ListHead (if b =? item then 0 else b) (Z.of_nat (length (p ++ item :: q)))) s else s).
    assert (items s1 = items s) as Eit by (unfold s1; by case_match).
    assert (heads s1 !! l = Some (ListHead (hd 0 (p ++ q)) (Z.of_nat (length (p ++ item :: q))))) as Hh1.
    { unfold s1. destruct (Z.eqb_spec (hd 0 (p ++ item :: q)) item) as [Hf|Hf].
      - unfold put_head, with_heads. cbn [heads]. rewrite lookup_insert_eq. destruct (Z.eqb_spec b item); [done|].
        destruct p as [|h p]; [by rewrite Hhd|]. cbn [app hd] in Hf. subst.
        destruct Hnin. apply elem_of_cons. by left.
      - rewrite Hh. destruct p; [done|]. done. }
    assert (forall y, y <> l -> heads s1 !! y = heads s !! y) as Hho.
    { intros y Hy. unfold s1. case_match; [|done]. by apply lookup_insert_ne. }
    destruct (unlink s1 item i a b) as (s2 & s3 & E2 & E3 & Hh3 & (Hn3 & Hp3 & Ho3) & Hframe & Hkeep2 & Hkeep3);
      try (rewrite ?Eit; done).
    { rewrite Eit. destruct (ring_item s l _ b Hr) as (ib & Hib & _); [by apply elem_of_middle|by exists ib]. }
    { rewrite Eit. destruct (ring_item s l _ a Hr) as (ia & Hia & _); [by apply elem_of_middle|by exists ia]. }
    unfold list_remove, get_item, get_head. rewrite Hi. cbn [of_option mbind outcome_bind].
    rewrite Hl, Hh. cbn [of_option mbind outcome_bind first count]. rewrite Hn. fold s1.
    rewrite Eit, Hi. cbn [of_option mbind outcome_bind]. rewrite Hp, Hn, E2. cbn [mbind outcome_bind].
    rewrite Hkeep2. cbn [of_option mbind outcome_bind]. rewrite Hp, Hn, E3. cbn [mbind outcome_bind].
    rewrite Hkeep3. cbn [of_option mbind outcome_bind]. rewrite Hl, Hh3, Hh1. cbn [of_option mbind outcome_bind first count].
    eexists. split; [done|]. unfold put_head, with_heads. cbn [items heads]. rewrite Eit in *. split_and!.
    + assert (NoDup (p ++ q)) as Hd'.
      { rewrite Permutation_app_comm in Hd. cbn [app] in Hd. apply list.NoDup_cons in Hd as [_ Hd].
        by rewrite Permutation_app_comm. }
      constructor; cbn [items heads].
      * rewrite lookup_insert_eq, u32_small by lia. by rewrite Hcount.
      * done.
      * intros H0. apply (rg_null _ _ _ Hr). by apply elem_of_middle.
      * apply list.Forall_forall. intros y Hy. rewrite Ho3.
        destruct (ring_item s l _ y Hr) as (iy & -> & <-); [by apply elem_of_middle|done].
      * rewrite Ecl. apply (chain_same s3); [done|]. apply (chain_unlinked s); [done|done|done| |].
        -- by rewrite <- Ecl, closed_removelast.
        -- rewrite <- Ecl. destruct (p ++ q) as [|y r]; [done|]. rewrite closed_tail.
           rewrite Permutation_app_comm. done.
    + by rewrite Hkeep3, <- Hl.
    + intros y Hy. apply Hframe; intros ->; apply Hy; by apply elem_of_middle.
    + intros y Hy. rewrite lookup_insert_ne, Hh3 by done. by apply Hho.
Qed.

(** ** The contract *)

Inductive list_op := Add (x : Z) | Remove (x : Z).

Definition run_op (l : Z) (o : list_op) (s : store) : outcome store :=
  match o with Add x => list_add l x s | Remove x => list_remove x s end.

Fixpoint run_ops (l : Z) (os : list list_op) (s : store) : outcome store :=
  match os with [] => Done s | o :: os' => s' ← run_op l o s; run_ops l os' s' end.

(** The queue, and the items that were ever added: an item is accepted once. *)
Fixpoint spec_ops (os : list list_op) (xs used : list Z) : option (list Z * list Z) :=
  match os with
  | [] => Some (xs, used)
  | Add x :: os' => if decide (x ∈ used) then spec_ops os' xs used else spec_ops os' (xs ++ [x]) (x :: used)
  | Remove x :: os' => if decide (x ∈ xs) then spec_ops os' (filter (fun y => y <> x) xs) used else None
  end.

Definition op_item (o : list_op) : Z := match o with Add x | Remove x => x end.

(** The items of [universe]: those in [used] are marked, the others free. *)
Definition marked (s : store) (l : Z) (universe used : list Z) : Prop :=
  forall x, x ∈ universe -> exists i, items s !! x = Some i /\ item_list i = if decide (x ∈ used) then l else 0.

Lemma filter_ne_middle (p q : list Z) x :
  x ∉ p ++ q -> filter (fun y => y <> x) (p ++ x :: q) = p ++ q.
Proof.
  intros Hx. assert (forall r : list Z, x ∉ r -> filter (fun y => y <> x) r = r) as Hid.
  { induction r as [|y r IH]; [done|]. intros Hr. rewrite not_elem_of_cons in Hr. destruct Hr as [H1 H2].
    rewrite list.filter_cons_True by done. by rewrite IH. }
  rewrite list.filter_app, list.filter_cons_False by tauto. apply not_elem_of_app in Hx as [H1 H2]. by rewrite (Hid p H1), (Hid q H2).
Qed.

Lemma run_ops_spec l universe os :
  l <> 0 -> 0 ∉ universe -> NoDup universe -> Z.of_nat (length universe) + 1 < 2 ^ 32 ->
  Forall (fun o => op_item o ∈ universe) os ->
  forall s xs used xs' used', ring s l xs -> marked s l universe used -> xs ⊆ universe ->
  spec_ops os xs used = Some (xs', used') ->
  exists s', run_ops l os s = Done s' /\ ring s' l xs' /\ marked s' l universe used'.
Proof.
  intros Hl H0 Hnd Hlen Hos. induction Hos as [|o os Ho Hos IH]; intros s xs used xs' used' Hr Hm Hsub Hspec.
  { cbn in Hspec. simplify_eq. by exists s. }
  assert (Z.of_nat (length xs) + 1 < 2 ^ 32) as Hxs.
  { pose proof (submseteq_length _ _ (NoDup_submseteq _ _ (rg_distinct _ _ _ Hr) Hsub)). lia. }
  destruct o as [x|x]; cbn [spec_ops run_ops run_op op_item] in *.
  - destruct (Hm x Ho) as (i & Hi & Hil). case_decide as Hu.
    + assert (list_add l x s = Done s) as ->.
      { unfold list_add, get_item. rewrite Hi. cbn [of_option mbind outcome_bind]. rewrite Hil.
        by destruct (Z.eqb_spec l 0). }
      by apply (IH s xs used).
    + assert (x <> 0) as Hx0 by (intros ->; done).
      destruct (list_add_spec l x s xs i Hr Hi Hil Hx0 Hl Hxs) as (s1 & E & Hr1 & Hfr & _).
      rewrite E. cbn [mbind outcome_bind]. apply (IH s1 (xs ++ [x]) (x :: used)); [done| |set_solver|done].
      intros y Hy. destruct (decide (y ∈ xs ++ [x])) as [Hin|Hnin].
      * destruct (ring_item s1 l _ y Hr1 Hin) as (iy & Hiy & Hly). exists iy. split; [done|].
        rewrite decide_True; [done|]. apply elem_of_cons. apply elem_of_app in Hin as [Hin|Hin%list_elem_of_singleton].
        -- right. destruct (Hm y Hy) as (j & Hj & Hjl). destruct (ring_item s l _ y Hr Hin) as (j' & Hj' & Hjl').
           rewrite Hj in Hj'. injection Hj' as <-. case_decide; [done|]. congruence.
        -- by left.
      * destruct (Hm y Hy) as (j & Hj & Hjl). exists j. split.
        -- rewrite Hfr; [done|]. intros Hc. apply Hnin. set_solver.
        -- rewrite Hjl. assert (y <> x) by (intros ->; apply Hnin; set_solver).
           by destruct (decide (y ∈ used)), (decide (y ∈ x :: used)); set_solver.
  - case_decide as Hu; [|done]. apply list_elem_of_split in Hu as (p & q & ->).
    destruct (list_remove_spec l x s p q Hr ltac:(lia)) as (s1 & -> & Hr1 & Hmk & Hfr & _). cbn [mbind outcome_bind].
    assert (x ∉ p ++ q) as Hnin.
    { pose proof (rg_distinct _ _ _ Hr) as Hd. rewrite Permutation_app_comm in Hd. cbn [app] in Hd.
      apply list.NoDup_cons in Hd as [Hx _]. intros Hin. apply Hx. set_solver. }
    rewrite filter_ne_middle in Hspec by done. apply (IH s1 (p ++ q) used); [done| |set_solver|done].
    intros y Hy. destruct (Hm y Hy) as (j & Hj & Hjl).
    destruct (decide (y ∈ p ++ x :: q)) as [Hin|Hout]; [|exists j; by rewrite Hfr].
    destruct (ring_item s l _ y Hr Hin) as (j' & Hj' & Hjl'). rewrite Hj in Hj'. injection Hj' as <-.
    case_decide as Hyu; [|congruence].
    destruct (decide (y = x)) as [->|Hyx].
    + destruct (items s1 !! x) as [k|]; [|done]. exists k. split; [done|]. by injection Hmk.
    + destruct (ring_item s1 l _ y Hr1) as (k & Hk & Hkl); [set_solver|]. by exists k.
Qed.

(** C14: a list refines a queue without repetitions.  From [list_init], every
    sequence of additions and removals of members, on items that were in no list,
    succeeds, and the ring that [first], [next] and [prev] form holds the items of the
    queue in order, [count] their number.  An item that was added once is not
    accepted again, not even after its removal. *)
Theorem list_refines_queue l universe os s xs used :
  l <> 0 -> 0 ∉ universe -> NoDup universe -> Z.of_nat (length universe) + 1 < 2 ^ 32 ->
  (forall x, x ∈ universe -> exists i, items s !! x = Some i /\ item_list i = 0) ->
  Forall (fun o => op_item o ∈ universe) os -> spec_ops os [] [] = Some (xs, used) ->
  exists s', run_ops l os (list_init l s) = Done s' /\ ring s' l xs.
Proof.
  intros Hl H0 Hnd Hlen Hfree Hos Hspec.
  destruct (run_ops_spec l universe os Hl H0 Hnd Hlen Hos (list_init l s) [] [] xs used)
    as (s' & Hrun & Hr & _); [| |set_solver|done|by exists s'].
  - constructor; cbn [closed]; try done.
    + unfold list_init, put_head, with_heads. cbn [heads]. by rewrite lookup_insert_eq.
    + apply base.NoDup_nil_2.
    + apply not_elem_of_nil.
  - intros x Hx. destruct (Hfree x Hx) as (i & Hi & Hil). exists i. split; [done|].
    rewrite Hil. rewrite decide_False; [done|]. apply not_elem_of_nil.
Qed.

(** Three items, the second of them removed and added once more. *)
Lemma list_refines_queue_witness :
  exists s', run_ops 8 [Add 16; Add 32; Add 48; Remove 32; Add 32]
      (list_init 8 (Store {[16 := ListItem 0 0 0; 32 := ListItem 0 0 0; 48 := ListItem 0 0 0]} ∅)) = Done s' /\
    ring s' 8 [16; 48].
Proof.
  apply (list_refines_queue 8 [16; 32; 48] _ _ [16; 48] [48; 32; 16]); [discriminate|set_solver| |cbn; lia| | |reflexivity].
  - apply (bool_decide_unpack _). vm_compute. exact I.
  - intros x Hx. repeat (apply elem_of_cons in Hx as [->|Hx]; [by eexists|]). by apply not_elem_of_nil in Hx.
  - repeat (apply Forall_cons_2; [cbn [op_item]; set_solver|]). apply Forall_nil_2.
Defined.
