(* ===== verification/Sched.v ===== *)
(** * Threads, processes and the scheduler (kernel/src/sys/scheduler)

    Threads and processes are records at their addresses; the first field of both
    is the list item, so the ring of threads is the list at [THREAD_LIST] and that of
    processes the list at [PROCESS_LIST] of Lists.v.  What the kernel gives back to
    the memory managers is recorded in [released], in order.  The machine is taken
    to have interrupts off inside the scheduler. *)
From Stdlib Require Import ZArith Lia.
From stdpp Require Import base list gmap numbers.
From S2P Require Import Prelude.
From S2P Require Import Lists.

#[local] Open Scope Z_scope.

(** ** State *)

Inductive thread_state_t := CREATED | RUNNING | PAUSED | DEAD.

#[export] Instance thread_state_eq_dec : EqDecision thread_state_t.
Proof. solve_decision. Defined.

Record thread_t := Thread {
  t_process : Z;
  t_flags : Z;
  t_stack_size : Z;
  t_stack : Z;
  t_esp : Z;
  t_entry_point : Z;
  t_id : Z;
  t_stack_top : Z;
  t_state : thread_state_t;
  t_fxsave_region : Z;
  t_kernel_stack_top : Z;
  t_kernel_stack_bottom : Z
}.

Record Elf32_Ehdr := Ehdr {
  e_ident : list Z; e_type : Z; e_mashine : Z; e_version : Z; e_entry : Z; e_phoff : Z; e_shoff : Z; e_flags : Z;
  e_ehsize : Z; e_phentsize : Z; e_phnum : Z; e_shentsize : Z; e_shnum : Z; e_shstrndx : Z
}.
Record Elf32_Phdr := Phdr {
  p_type : Z; p_offset : Z; p_vaddr : Z; p_paddr : Z; p_filesz : Z; p_memsz : Z; p_flags : Z; p_align : Z
}.

(** [elf_t] at the address [e_self]; the headers that [e_p_header] points to are in
    [e_phdrs]. *)
Record elf_t := Elf {
  e_self : Z; elf_header : Elf32_Ehdr; e_section : Z; e_p_header : Z; e_file : Z; e_phdrs : list Elf32_Phdr
}.

Record process_t := Process {
  page_dir : Z;
  threads_count : Z;
  pid : Z;
  page_dir_virt : Z;
  name : Z;
  page_tables_virts : list Z;
  cwd : Z;
  program : option elf_t
}.

(** Memory that is given back: to the heap, or the frame that a page of a program
    is mapped to. *)
Inductive release :=
  | Kfree (p : Z)
  | Close (file : Z)
  | FreeFrame (page_dir_virt vaddr : Z).

Record sched := Sched {
  lists : store;
  threads : gmap Z thread_t;
  processes : gmap Z process_t;
  stack_words : gmap Z Z;
  user_pages : list Z;
  next_thread_id : Z;
  next_pid : Z;
  current_thread : Z;
  current_proc : Z;
  sched_idle_thread : Z;
  multi_task : bool;
  threadlist_mutex : bool;
  proclist_mutex : bool;
  released : list release
}.

Definition THREAD_LIST : Z := 1.
Definition PROCESS_LIST : Z := 2.
Definition THREAD_KERNEL : Z := 1.
Definition DEFAULT_STACK_SIZE : Z := 128 * 1024.
Definition PT_LOAD : Z := 1.

Definition with_lists (l : store) (s : sched) : sched :=
  Sched l (threads s) (processes s) (stack_words s) (user_pages s) (next_thread_id s) (next_pid s)
    (current_thread s) (current_proc s) (sched_idle_thread s) (multi_task s) (threadlist_mutex s)
    (proclist_mutex s) (released s).
Definition with_threads (t : gmap Z thread_t) (s : sched) : sched :=
  Sched (lists s) t (processes s) (stack_words s) (user_pages s) (next_thread_id s) (next_pid s)
    (current_thread s) (current_proc s) (sched_idle_thread s) (multi_task s) (threadlist_mutex s)
    (proclist_mutex s) (released s).
Definition with_processes (p : gmap Z process_t) (s : sched) : sched :=
  Sched (lists s) (threads s) p (stack_words s) (user_pages s) (next_thread_id s) (next_pid s)
    (current_thread s) (current_proc s) (sched_idle_thread s) (multi_task s) (threadlist_mutex s)
    (proclist_mutex s) (released s).
Definition with_stack_words (w : gmap Z Z) (s : sched) : sched :=
  Sched (lists s) (threads s) (processes s) w (user_pages s) (next_thread_id s) (next_pid s)
    (current_thread s) (current_proc s) (sched_idle_thread s) (multi_task s) (threadlist_mutex s)
    (proclist_mutex s) (released s).
Definition with_user_pages (u : list Z) (s : sched) : sched :=
  Sched (lists s) (threads s) (processes s) (stack_words s) u (next_thread_id s) (next_pid s)
    (current_thread s) (current_proc s) (sched_idle_thread s) (multi_task s) (threadlist_mutex s)
    (proclist_mutex s) (released s).
Definition with_ids (t p : Z) (s : sched) : sched :=
  Sched (lists s) (threads s) (processes s) (stack_words s) (user_pages s) t p
    (current_thread s) (current_proc s) (sched_idle_thread s) (multi_task s) (threadlist_mutex s)
    (proclist_mutex s) (released s).
Definition with_current (t p : Z) (s : sched) : sched :=
  Sched (lists s) (threads s) (processes s) (stack_words s) (user_pages s) (next_thread_id s) (next_pid s)
    t p (sched_idle_thread s) (multi_task s) (threadlist_mutex s) (proclist_mutex s) (released s).
Definition with_released (r : list release) (s : sched) : sched :=
  Sched (lists s) (threads s) (processes s) (stack_words s) (user_pages s) (next_thread_id s) (next_pid s)
    (current_thread s) (current_proc s) (sched_idle_thread s) (multi_task s) (threadlist_mutex s)
    (proclist_mutex s) r.

Definition get_thread (t : Z) (s : sched) : outcome thread_t := of_option (threads s !! t).
Definition get_process (p : Z) (s : sched) : outcome process_t := of_option (processes s !! p).
Definition put_thread (t : Z) (r : thread_t) (s : sched) : sched := with_threads (<[t := r]> (threads s)) s.
Definition put_process (p : Z) (r : process_t) (s : sched) : sched :=
  with_processes (<[p := r]> (processes s)) s.
Definition kfree_all (l : list Z) (s : sched) : sched := with_released (released s ++ map Kfree l) s.

Definition set_state (t : Z) (x : thread_state_t) (s : sched) : outcome sched :=
  r ← get_thread t s;
  Done (put_thread t (Thread (t_process r) (t_flags r) (t_stack_size r) (t_stack r) (t_esp r)
    (t_entry_point r) (t_id r) (t_stack_top r) x (t_fxsave_region r) (t_kernel_stack_top r)
    (t_kernel_stack_bottom r)) s).

Definition set_threads_count (p x : Z) (s : sched) : outcome sched :=
  r ← get_process p s;
  Done (put_process p (Process (page_dir r) x (pid r) (page_dir_virt r) (name r)
    (page_tables_virts r) (cwd r) (program r)) s).

(** ** The two lists *)

(** [mutex_get]; the list operation; [mutex_release]. *)
Definition thread_add_prepared (t : Z) (s : sched) : outcome sched :=
  _ ← mutex_get (threadlist_mutex s); l ← list_add THREAD_LIST t (lists s); Done (with_lists l s).
Definition thread_remove_prepared (t : Z) (s : sched) : outcome sched :=
  _ ← mutex_get (threadlist_mutex s); l ← list_remove t (lists s); Done (with_lists l s).
Definition process_add_prepared (p : Z) (s : sched) : outcome sched :=
  _ ← mutex_get (proclist_mutex s); l ← list_add PROCESS_LIST p (lists s); Done (with_lists l s).
Definition process_remove_prepared (p : Z) (s : sched) : outcome sched :=
  _ ← mutex_get (proclist_mutex s); l ← list_remove p (lists s); Done (with_lists l s).

(** Memory that is freed is gone: the item with the record. *)
Definition forget_item (p : Z) (s : sched) : sched :=
  with_lists (with_items (delete p (items (lists s))) (lists s)) s.

(** ** Reaping *)

(** The pages of the loaded segments. *)
Definition segment_pages (phdr : Elf32_Phdr) : list Z :=
  if p_type phdr =? PT_LOAD then
    map (fun x => p_vaddr phdr + Z.of_nat x * PAGE_SIZE)
      (seq 0 (Z.to_nat (Z.max (ALIGN (p_memsz phdr) PAGE_SIZE / PAGE_SIZE) 1)))
  else [].

Definition unload_elf (elf : elf_t) : list release :=
  [Kfree (e_p_header elf); Kfree (e_section elf); Close (e_file elf); Kfree (e_self elf)].

(** A process without threads: its program, page tables and names, and its place in
    the list. *)
Definition remove_process (p : Z) (s : sched) : outcome sched :=
  r ← get_process p s;
  let program_release :=
    match program r with
    | Some elf => map (FreeFrame (page_dir_virt r)) (flat_map segment_pages (e_phdrs elf)) ++ unload_elf elf
    | None => []
    end in
  let tables := filter (fun t => t <> 0) (page_tables_virts r) in
  let s := with_released (released s ++ program_release ++ map Kfree tables ++
             [Kfree (page_dir_virt r); Kfree (name r); Kfree (cwd r)]) s in
  s ← process_remove_prepared p s;
  Done (forget_item p (with_processes (delete p (processes s)) (kfree_all [p] s))).

Definition remove_thread (t : Z) (s : sched) : outcome sched :=
  r ← get_thread t s;
  s ← thread_remove_prepared t s;
  let s := kfree_all [t_fxsave_region r; t_kernel_stack_bottom r; t_stack r; t] s in
  let s := forget_item t (with_threads (delete t (threads s)) s) in
  p ← get_process (t_process r) s;
  let count := u32 (threads_count p - 1) in
  s ← set_threads_count (t_process r) count s;
  cur ← get_process (current_proc s) s;
  if (count =? 0) && (pid cur =? 0) then remove_process (t_process r) s else Done s.

(** ** Choosing the next thread *)

Definition next_item (p : Z) (s : sched) : outcome Z := i ← get_item p (lists s); Done (next i).

(** [while(next_thread != NULL)]: a ring has no end, so the loop ends at a thread
    that may run. *)
Fixpoint select_loop (fuel : nat) (next_thread : Z) (s : sched) : outcome (Z * sched) :=
  match fuel with
  | O => Hang
  | S fuel' =>
      if next_thread =? 0 then Done (0, s)
      else
        r ← get_thread next_thread s;
        next_thread_soon ← next_item next_thread s;
        match t_state r with
        | PAUSED => select_loop fuel' next_thread_soon s
        | DEAD => s' ← remove_thread next_thread s; select_loop fuel' next_thread_soon s'
        | _ => Done (next_thread, s)
        end
  end.

(** One more step than there are threads: when all of them are passed over, none
    can run, and the loop goes round for ever. *)
Definition sched_select_next (s : sched) : outcome (Z * sched) :=
  start ← next_item (current_thread s) s;
  select_loop (S (size (threads s))) start s.

(** [task_switch_v2]: the stack pointer [esp] with which the current thread is left
    is stored, the one of the next is loaded; nothing happens between a thread and
    itself. *)
Definition task_switch_v2 (current next_thread esp : Z) (s : sched) : outcome sched :=
  if current =? next_thread then Done s
  else
    r ← get_thread current s;
    let s := put_thread current (Thread (t_process r) (t_flags r) (t_stack_size r) (t_stack r) esp
      (t_entry_point r) (t_id r) (t_stack_top r) (t_state r) (t_fxsave_region r) (t_kernel_stack_top r)
      (t_kernel_stack_bottom r)) s in
    n ← get_thread next_thread s;
    Done (with_current next_thread (t_process n) s).

Definition task_switch_v2_wrapper (esp : Z) (s : sched) : outcome sched :=
  if negb (multi_task s) then Done s
  else
    '(next_thread, s) ← sched_select_next s;
    let next_thread := if next_thread =? 0 then sched_idle_thread s else next_thread in
    task_switch_v2 (current_thread s) next_thread esp s.

Definition thread_exit (t esp : Z) (s : sched) : outcome sched :=
  if negb (multi_task s) then Done s
  else s ← set_state t DEAD s; task_switch_v2_wrapper esp s.

(** What the end of [task_switch_v2] pops: seven registers, the flags, the address
    to go on at. *)
Definition resume (esp : Z) (s : sched) : outcome (Z * Z * Z) :=
  flags ← of_option (stack_words s !! (esp + 28));
  ip ← of_option (stack_words s !! (esp + 32));
  Done (ip, flags, esp + 36).

(** ** Creating threads and processes *)

(** The blocks that the allocator hands out for a thread. *)
Record thread_memory := ThreadMemory { m_thread : Z; m_fxsave : Z; m_kernel_stack : Z; m_stack : Z }.

Fixpoint zero_words (k : nat) (p : Z) (w : gmap Z Z) : gmap Z Z :=
  match k with
  | O => w
  | S k' => zero_words k' (p + 4) (<[p := 0]> w)
  end.

(** [*--esp = x]. *)
Definition push (x : Z) (m : Z * gmap Z Z) : Z * gmap Z Z := (fst m - 4, <[fst m - 4 := x]> (snd m)).

Section Creation.
(** Where the code of [thread_exit_entrypoint] is. *)
Variable thread_exit_entrypoint : Z.

(** The words that a new thread finds on its stack: the arguments, the return
    address, the address to start at, the flags; below them the registers. *)
Definition fill_stack (stack stack_size entry_point : Z) (args : list Z) (w : gmap Z Z) : Z * gmap Z Z :=
  let m := fold_left (fun m a => push a m) args (stack + stack_size, w) in
  let m := push 0x202 (push entry_point (push thread_exit_entrypoint m)) in
  (fst m - 28, snd m).

Definition _thread_create_unwrapped (proc entry_point stack_size flags : Z) (args : list Z)
    (mem : thread_memory) (s : sched) : outcome (Z * sched) :=
  if negb (multi_task s) then Done (0, s)
  else
    let real_stack_size := ALIGN stack_size PAGE_SIZE in
    let stack := m_stack mem in
    let w := zero_words (Z.to_nat (real_stack_size / 4)) stack (stack_words s) in
    let pages :=
      if Z.land flags THREAD_KERNEL =? 0
      then map (fun i => stack + Z.of_nat i * PAGE_SIZE) (seq 0 (Z.to_nat (real_stack_size / PAGE_SIZE)))
      else [] in
    p ← get_process proc s;
    s ← set_threads_count proc (u32 (threads_count p + 1)) s;
    let (esp, w) := fill_stack stack stack_size entry_point args w in
    let t := Thread proc flags stack_size stack esp entry_point (next_thread_id s) (stack + stack_size)
               PAUSED (m_fxsave mem) (m_kernel_stack mem + PAGE_SIZE) (m_kernel_stack mem) in
    let s := with_ids (u32 (next_thread_id s + 1)) (next_pid s) s in
    let s := with_user_pages (user_pages s ++ pages) (with_stack_words w s) in
    let s := put_thread (m_thread mem) t (with_lists (put_item (m_thread mem) (ListItem 0 0 0) (lists s)) s) in
    s ← thread_add_prepared (m_thread mem) s;
    Done (m_thread mem, s).

Definition thread_create (proc entry_point stack_size flags : Z) (args : list Z)
    (mem : thread_memory) (s : sched) : outcome (Z * sched) :=
  if negb (multi_task s) then Done (0, s)
  else
    '(t, s) ← _thread_create_unwrapped proc entry_point stack_size flags args mem s;
    s ← set_state t CREATED s;
    Done (t, s).

Definition thread_create_arg1 (proc entry_point stack_size flags arg1 : Z)
    (mem : thread_memory) (s : sched) : outcome (Z * sched) :=
  thread_create proc entry_point stack_size flags [arg1] mem s.

Definition initialize_idle_thread (sched_idle_task : Z) (mem : thread_memory) (s : sched) : outcome sched :=
  '(t, s) ← thread_create (current_proc s) sched_idle_task 0x100 THREAD_KERNEL [] mem s;
  Done (Sched (lists s) (threads s) (processes s) (stack_words s) (user_pages s) (next_thread_id s)
    (next_pid s) (current_thread s) (current_proc s) t (multi_task s) (threadlist_mutex s)
    (proclist_mutex s) (released s)).

(** [proc], [name'] and [cwd'] are the blocks of the record and of the two strings;
    [dir], [dir_virt] and [tables] what [clone_kernel_page_directory] makes. *)
Definition create_process (entry_point : Z) (is_kernel : bool) (proc name' cwd' dir dir_virt : Z)
    (tables : list Z) (mem : thread_memory) (s : sched) : outcome (Z * sched) :=
  let number := next_pid s in
  let s := with_ids (next_thread_id s) (u32 (next_pid s + 1)) s in
  let s := put_process proc (Process 0 0 number 0 name' (replicate 1024 0) cwd' None)
             (with_lists (put_item proc (ListItem 0 0 0) (lists s)) s) in
  s ← process_add_prepared proc s;
  '(t, s) ← _thread_create_unwrapped proc entry_point DEFAULT_STACK_SIZE
              (if is_kernel then THREAD_KERNEL else 0) [] mem s;
  s ← thread_add_prepared t s;
  p ← get_process proc s;
  let s := put_process proc (Process dir (threads_count p) (pid p) dir_virt (name p) tables (cwd p) (program p)) s in
  Done (number, s).

(** The state before has no lists. *)
Definition init_task_manager (kernel_page_directory init_esp esp sched_idle_task : Z)
    (proc name' cwd' : Z) (mem idle : thread_memory) (s : sched) : outcome sched :=
  let s := with_lists (list_init THREAD_LIST (list_init PROCESS_LIST (lists s))) s in
  let number := next_pid s in
  let s := with_ids (next_thread_id s) (u32 (next_pid s + 1)) s in
  let s := put_process proc (Process kernel_page_directory 1 number 0 name' (replicate 1024 0) cwd' None)
             (with_lists (put_item proc (ListItem 0 0 0) (lists s)) s) in
  l ← list_add PROCESS_LIST proc (lists s);
  let s := with_lists l s in
  let t := Thread proc THREAD_KERNEL DEFAULT_STACK_SIZE 0 esp 0 (next_thread_id s) init_esp CREATED
             (m_fxsave mem) (m_kernel_stack mem + 4 * PAGE_SIZE) (m_kernel_stack mem) in
  let s := with_ids (u32 (next_thread_id s + 1)) (next_pid s) s in
  let s := put_thread (m_thread mem) t (with_lists (put_item (m_thread mem) (ListItem 0 0 0) (lists s)) s) in
  s ← thread_add_prepared (m_thread mem) s;
  let s := with_current (m_thread mem) proc s in
  let s := Sched (lists s) (threads s) (processes s) (stack_words s) (user_pages s) (next_thread_id s)
    (next_pid s) (current_thread s) (current_proc s) (sched_idle_thread s) true (threadlist_mutex s)
    (proclist_mutex s) (released s) in
  initialize_idle_thread sched_idle_task idle s.
End Creation.

(** ** Looking for a process *)

Fixpoint exists_loop (fuel : nat) (proc wanted : Z) (s : sched) : outcome bool :=
  match fuel with
  | O => Hang
  | S fuel' =>
      p ← get_process proc s;
      if pid p =? wanted then Done true
      else
        proc' ← next_item proc s;
        if proc' =? 0 then Done false
        else
          p' ← get_process proc' s;
          if negb (pid p' =? 0) then exists_loop fuel' proc' wanted s else Done false
  end.

Definition process_exists (wanted : Z) (s : sched) : outcome bool :=
  exists_loop (S (size (processes s))) (current_proc s) wanted s.

(** [process_wait] leaves when the process is not found; otherwise it yields. *)
Definition process_wait_round (wanted esp : Z) (s : sched) : outcome (bool * sched) :=
  found ← process_exists wanted s;
  if found : bool then s ← task_switch_v2_wrapper esp s; Done (false, s) else Done (true, s).

(** ** Rotations of a ring *)

Definition rot (xs ys : list Z) : Prop := exists u v, xs = u ++ v /\ ys = v ++ u.

Lemma rot_next s l xs x ys :
  ring s l xs -> rot xs (x :: ys) -> exists i, items s !! x = Some i /\ next i = hd x ys.
Proof.
  intros Hr (u & v & -> & Hrot).
  assert (x ∈ u ++ v) as Hx.
  { apply elem_of_app. apply or_comm, elem_of_app. rewrite <- Hrot. apply elem_of_cons. by left. }
  destruct (ring_item s l _ x Hr Hx) as (i & Hi & _). exists i. split; [done|].
  pose proof (rg_chain _ _ _ Hr) as Hc.
  destruct v as [|x' v].
  - cbn [app] in Hrot. rewrite app_nil_r in Hr. subst u.
    destruct (ring_first s l x ys Hr) as (i' & Hi' & _ & _ & Hn). congruence.
  - injection Hrot as <- ->. destruct u as [|h u].
    + rewrite app_nil_r. cbn [app] in Hr. destruct (ring_first s l x v Hr) as (i' & Hi' & _ & _ & Hn). congruence.
    + change (closed ((h :: u) ++ x :: v)) with (((h :: u) ++ x :: v) ++ [h]) in Hc.
      rewrite <- app_assoc in Hc. cbn [app] in Hc.
      change (h :: u ++ x :: v ++ [h]) with ((h :: u) ++ x :: (v ++ [h])) in Hc.
      apply chain_app in Hc as [_ Hc]. destruct (v ++ [h]) as [|y r] eqn:E; [by destruct v|].
      apply chain_cons in Hc as (Hn & _ & _). rewrite Hi in Hn. injection Hn as ->.
      destruct v as [|y' v]; injection E as -> _; done.
Qed.

Lemma rot_elem xs ys x : rot xs ys -> x ∈ xs <-> x ∈ ys.
Proof. intros (u & v & -> & ->). rewrite !elem_of_app. tauto. Qed.

Lemma rot_length xs ys : rot xs ys -> length xs = length ys.
Proof. intros (u & v & -> & ->). rewrite !length_app. lia. Qed.

Lemma rot_step xs x ys : rot xs (x :: ys) -> rot xs (ys ++ [x]).
Proof.
  intros (u & v & -> & Hr). destruct v as [|y v].
  - cbn [app] in Hr. subst u. rewrite app_nil_r. exists [x], ys. done.
  - injection Hr as -> ->. exists (u ++ [y]), v. by rewrite <- !app_assoc.
Qed.

Lemma rot_remove xs x ys :
  rot xs (x :: ys) -> exists a b, xs = a ++ x :: b /\ rot (a ++ b) ys.
Proof.
  intros (u & v & -> & Hr). destruct v as [|y v].
  - cbn [app] in Hr. subst u. rewrite app_nil_r. exists [], ys. split; [done|]. exists [], ys.
    by rewrite app_nil_r.
  - injection Hr as -> ->. exists u, v. split; [done|]. by exists u, v.
Qed.

(** ** The invariant *)

Definition process_of (s : sched) (t : Z) : Z := default 0 (t_process <$> threads s !! t).

(** [xs] are the threads and [ps] the processes, in the order of their lists. *)
Record sched_ok (s : sched) (xs ps : list Z) : Prop := SchedOk {
  ok_threads : ring (lists s) THREAD_LIST xs;
  ok_processes : ring (lists s) PROCESS_LIST ps;
  ok_disjoint : xs ## ps;
  ok_size : Z.of_nat (length xs) < 2 ^ 32 /\ Z.of_nat (length ps) < 2 ^ 32;
  ok_thread : forall t, t ∈ xs -> exists r, threads s !! t = Some r /\ t_process r ∈ ps;
  ok_process : forall p, p ∈ ps -> exists r, processes s !! p = Some r /\
    threads_count r = Z.of_nat (length (filter (fun t => process_of s t = p) xs));
  ok_current : current_thread s ∈ xs /\ process_of s (current_thread s) = current_proc s;
  ok_mutex : threadlist_mutex s = false /\ proclist_mutex s = false
}.

Lemma ring_frame s s' l xs :
  heads s' !! l = heads s !! l -> (forall x, x ∈ xs -> items s' !! x = items s !! x) ->
  ring s l xs -> ring s' l xs.
Proof.
  intros Hh Hi [H1 H2 H3 H4 H5]. constructor; [by rewrite Hh|done|done| |].
  - rewrite list.Forall_forall in H4. apply list.Forall_forall. intros x Hx. rewrite Hi by done. by apply H4.
  - apply (chain_frame s); [| |done].
    + intros x Hx. rewrite closed_removelast in Hx. by rewrite Hi.
    + intros y Hy. rewrite Hi; [done|]. destruct xs as [|x xs]; [done|]. rewrite closed_tail in Hy.
      apply elem_of_cons. apply elem_of_app in Hy as [|Hy%list_elem_of_singleton]; auto.
Qed.

Lemma current_process_counts s xs ps :
  sched_ok s xs ps -> exists r, processes s !! current_proc s = Some r /\ 0 < threads_count r /\ current_proc s ∈ ps.
Proof.
  intros [_ _ _ _ Ht Hp [Hc Hcp] _]. destruct (Ht _ Hc) as (r & Hr & Hrp).
  unfold process_of in Hcp. rewrite Hr in Hcp. cbn in Hcp. rewrite Hcp in Hrp.
  destruct (Hp _ Hrp) as (pr & Hpr & Hcount). exists pr. split; [done|]. split; [|done]. rewrite Hcount.
  destruct (filter (fun t => process_of s t = current_proc s) xs) as [|y l] eqn:E; [|cbn; lia].
  assert (current_thread s ∈ filter (fun t => process_of s t = current_proc s) xs) as Hin.
  { apply list_elem_of_filter. split; [|done]. unfold process_of. rewrite Hr. done. }
  rewrite E in Hin. by apply not_elem_of_nil in Hin.
Qed.

Lemma list_filter_iff' (P Q : Z -> Prop) `{forall x, Decision (P x)} `{forall x, Decision (Q x)} (l : list Z) :
  (forall x, x ∈ l -> P x <-> Q x) -> filter P l = filter Q l.
Proof.
  induction l as [|x l IH]; intros Hpq; [done|]. rewrite !list.filter_cons.
  pose proof (Hpq x ltac:(apply elem_of_cons; by left)) as Hx.
  rewrite IH by (intros y Hy; apply Hpq, elem_of_cons; by right).
  by repeat case_decide; tauto.
Qed.

(** Taking a thread out changes the counts by one. *)
Lemma filter_count_remove (f : Z -> Z) a t b p :
  Z.of_nat (length (filter (fun x => f x = p) (a ++ t :: b))) =
  Z.of_nat (length (filter (fun x => f x = p) (a ++ b))) + (if decide (f t = p) then 1 else 0).
Proof.
  rewrite !list.filter_app, !length_app. rewrite list.filter_cons. case_decide; cbn [length]; lia.
Qed.

Lemma not_elem_of_middle (a b : list Z) t : NoDup (a ++ t :: b) -> (t ∉ a ++ b) /\ NoDup (a ++ b).
Proof.
  intros Hd. rewrite Permutation_app_comm in Hd. cbn [app] in Hd. apply list.NoDup_cons in Hd as [Hx Hd].
  split; [|by rewrite Permutation_app_comm]. intros Hin. apply Hx. apply elem_of_app.
  apply elem_of_app in Hin as [|]; auto.
Qed.

(** A process without threads leaves its list and is forgotten. *)
Lemma remove_process_spec s xs p r ps :
  sched_ok s xs ps -> p ∈ ps -> processes s !! p = Some r -> threads_count r = 0 ->
  exists s' ps', remove_process p s = Done s' /\ sched_ok s' xs ps' /\ (p ∉ ps') /\
    (forall q, q ∈ ps' <-> q ∈ ps /\ q <> p) /\
    current_thread s' = current_thread s /\ current_proc s' = current_proc s /\ threads s' = threads s /\
    (forall q, q <> p -> processes s' !! q = processes s !! q) /\
    exists rel, released s' = released s ++ rel.
Proof.
  intros Hok Hp Hr Hc. pose proof Hok as [Hrt Hrp Hdis [Hs1 Hs2] Ht Hpr [Hct Hcp] [Hm1 Hm2]].
  assert (p <> current_proc s) as Hpc.
  { intros ->. destruct (current_process_counts s xs ps Hok) as (r' & Hr' & Hpos & _).
    rewrite Hr in Hr'. injection Hr' as <-. lia. }
  apply list_elem_of_split in Hp as (a & b & ->).
  destruct (not_elem_of_middle a b p (rg_distinct _ _ _ Hrp)) as [Hnin Hnd].
  destruct (list_remove_spec PROCESS_LIST p (lists s) a b Hrp Hs2) as (l & El & Hrl & _ & Hfr & Hhd).
  unfold remove_process, get_process. rewrite Hr. cbn [of_option mbind outcome_bind].
  unfold process_remove_prepared. cbn [proclist_mutex with_released lists]. rewrite Hm2.
  cbn [mutex_get mbind outcome_bind]. rewrite El. cbn [mbind outcome_bind].
  eexists _, (a ++ b). split; [reflexivity|].
  unfold forget_item, kfree_all, with_lists, with_items, with_processes, with_released.
  cbn [lists threads processes current_thread current_proc threadlist_mutex proclist_mutex released items heads].
  assert (forall q, q ∈ xs -> q <> p) as Hxp.
  { intros q Hq ->. apply (Hdis p Hq). apply elem_of_app. right. apply elem_of_cons. by left. }
  split_and!; try done.
  - constructor; cbn [lists threads processes current_thread current_proc threadlist_mutex proclist_mutex]; try done.
    + apply (ring_frame (lists s)); [by apply Hhd| |done]. intros x Hx. cbn [items].
      rewrite lookup_delete_ne by (by apply not_eq_sym, Hxp). apply Hfr. intros Hin. by apply (Hdis x Hx).
    + apply (ring_frame l); [done| |done]. intros x Hx. cbn [items].
      apply lookup_delete_ne. by intros ->.
    + intros x Hx Hin. apply (Hdis x Hx). by apply elem_of_middle.
    + split; [done|]. rewrite !length_app in *. cbn [length] in Hs2. lia.
    + intros t Hin. destruct (Ht t Hin) as (rt & Hrt' & Hrtp). exists rt. split; [done|].
      apply elem_of_app in Hrtp as [H|[H|H]%elem_of_cons]; try (apply elem_of_app; by auto).
      exfalso. destruct (Hpr p) as (r' & Hr' & Hcount); [apply elem_of_app; right; apply elem_of_cons; by left|].
      rewrite Hr in Hr'. injection Hr' as <-. rewrite Hc in Hcount.
      destruct (filter (fun t => process_of s t = p) xs) as [|y l0] eqn:E; [|cbn in Hcount; lia].
      assert (t ∈ filter (fun t => process_of s t = p) xs) as Hf.
      { apply list_elem_of_filter. split; [|done]. unfold process_of. by rewrite Hrt'. }
      rewrite E in Hf. by apply not_elem_of_nil in Hf.
    + intros q Hq. destruct (Hpr q) as (r' & Hr' & Hcount); [by apply elem_of_middle|]. exists r'.
      split; [|done]. rewrite lookup_delete_ne; [done|]. by intros ->.
  - intros q. rewrite !elem_of_app, elem_of_cons. split.
    + intros H. split; [tauto|]. intros ->. apply Hnin, elem_of_app. tauto.
    + intros [[|[|]] ?]; [tauto|done|tauto].
  - intros q Hq. by apply lookup_delete_ne.
  - eexists. rewrite <- app_assoc. done.
Qed.

(** The thread leaves the ring, its memory is given back and its process counts one
    less. *)
Lemma remove_thread_count s a t b ps r :
  sched_ok s (a ++ t :: b) ps -> t <> current_thread s -> threads s !! t = Some r ->
  exists s1 p1 cur,
    remove_thread t s =
      (if (threads_count p1 =? 0) && (pid cur =? 0) then remove_process (t_process r) s1 else Done s1) /\
    sched_ok s1 (a ++ b) ps /\ processes s1 !! t_process r = Some p1 /\ t_process r ∈ ps /\
    processes s1 !! current_proc s = Some cur /\
    (forall q, pid <$> processes s1 !! q = pid <$> processes s !! q) /\
    current_thread s1 = current_thread s /\ current_proc s1 = current_proc s /\
    threads s1 = delete t (threads s) /\
    released s1 = released s ++ map Kfree [t_fxsave_region r; t_kernel_stack_bottom r; t_stack r; t].
Proof.
  intros Hok Hct Hr. pose proof Hok as [Hrt Hrp Hdis [Hs1 Hs2] Ht Hpr [Hcin Hcp] [Hm1 Hm2]].
  destruct (not_elem_of_middle a b t (rg_distinct _ _ _ Hrt)) as [Hnin Hnd].
  assert (t ∈ a ++ t :: b) as Htin by (apply elem_of_app; right; apply elem_of_cons; by left).
  destruct (list_remove_spec THREAD_LIST t (lists s) a b Hrt Hs1) as (l & El & Hrl & _ & Hfr & Hhd).
  assert (t_process r ∈ ps) as Hpin by (destruct (Ht t Htin) as (r' & Hr' & ?); congruence).
  destruct (Hpr _ Hpin) as (p & Hp & Hcount).
  assert (process_of s t = t_process r) as Hpo by (unfold process_of; by rewrite Hr).
  assert (Z.of_nat (length (a ++ t :: b)) = Z.of_nat (length (a ++ b)) + 1) as Hlen
    by (rewrite !length_app; cbn [length]; lia).
  rewrite filter_count_remove, decide_True in Hcount by done.
  assert (0 <= threads_count p - 1 < 2 ^ 32) as Hcr.
  { pose proof (length_filter (fun x => process_of s x = t_process r) (a ++ b)). lia. }
  set (p1 := Process (page_dir p) (u32 (threads_count p - 1)) (pid p) (page_dir_virt p) (name p)
    (page_tables_virts p) (cwd p) (program p)).
  destruct (current_process_counts s _ ps Hok) as (c & Hc & _ & Hcps).
  unfold remove_thread, get_thread. rewrite Hr. cbn [of_option mbind outcome_bind].
  unfold thread_remove_prepared. rewrite Hm1. cbn [mutex_get mbind outcome_bind]. rewrite El.
  cbn [mbind outcome_bind]. unfold get_process, set_threads_count, get_process, put_process, forget_item, kfree_all,
    with_lists, with_items, with_threads, with_processes, with_released.
  cbn [lists threads processes current_thread current_proc threadlist_mutex proclist_mutex released items heads
    stack_words user_pages next_thread_id next_pid sched_idle_thread multi_task].
  rewrite Hp. cbn [of_option mbind outcome_bind processes current_proc]. fold p1.
  assert (exists cur, <[t_process r:=p1]> (processes s) !! current_proc s = Some cur /\ pid cur = pid c) as (cur & Hcur & _).
  { destruct (decide (current_proc s = t_process r)) as [E|Hne].
    - rewrite E in Hc |- *. exists p1. rewrite lookup_insert_eq. split; [done|].
      rewrite Hp in Hc. by injection Hc as <-.
    - exists c. by rewrite lookup_insert_ne. }
  rewrite Hcur. cbn [of_option mbind outcome_bind].
  eexists _, p1, cur. split; [reflexivity|].
  cbn [lists threads processes current_thread current_proc released]. split_and!; try done.
  - assert (forall x, x ∈ a ++ b -> x <> t) as Hxt by (intros x Hx ->; done).
    constructor; cbn [lists threads processes current_thread current_proc threadlist_mutex proclist_mutex]; try done.
    + apply (ring_frame l); [done| |done]. intros x Hx. cbn [items].
      by rewrite lookup_delete_ne by (by apply not_eq_sym, Hxt).
    + apply (ring_frame (lists s)); [by apply Hhd| |done]. intros x Hx. cbn [items].
      rewrite lookup_delete_ne by (intros ->; by apply (Hdis _ Htin)). apply Hfr. intros Hin. by apply (Hdis x Hin).
    + intros x Hx Hin. apply (Hdis x); [by apply elem_of_middle|done].
    + split; [lia|done].
    + intros x Hx. destruct (Ht x) as (rx & Hrx & ?); [by apply elem_of_middle|]. exists rx.
      by rewrite lookup_delete_ne by (by apply not_eq_sym, Hxt).
    + intros q Hq.
      assert (filter (fun x => process_of (Sched (with_items (delete t (items l)) l) (delete t (threads s))
          (<[t_process r:=p1]> (processes s)) (stack_words s) (user_pages s) (next_thread_id s) (next_pid s)
          (current_thread s) (current_proc s) (sched_idle_thread s) (multi_task s) (threadlist_mutex s)
          (proclist_mutex s) (released s ++ map Kfree [t_fxsave_region r; t_kernel_stack_bottom r; t_stack r; t])) x = q) (a ++ b)
        = filter (fun x => process_of s x = q) (a ++ b)) as Hfil.
      { apply list_filter_iff'. intros x Hx. unfold process_of. cbn [threads].
        by rewrite lookup_delete_ne by (by apply not_eq_sym, Hxt). }
      unfold with_items in Hfil. rewrite Hfil.
      destruct (decide (q = t_process r)) as [->|Hne].
      * exists p1. rewrite lookup_insert_eq. split; [done|]. unfold p1. cbn [threads_count].
        rewrite u32_small by done. lia.
      * destruct (Hpr q Hq) as (rq & Hrq & Hcq). exists rq. rewrite lookup_insert_ne by done. split; [done|].
        rewrite Hcq, filter_count_remove, decide_False by congruence. lia.
    + split.
      * apply elem_of_app in Hcin as [|[|]%elem_of_cons]; try (apply elem_of_app; by auto).
      * unfold process_of. cbn [threads]. rewrite lookup_delete_ne by congruence. done.
  - by rewrite lookup_insert_eq.
  - intros q. destruct (decide (q = t_process r)) as [->|Hne].
    + rewrite lookup_insert_eq, Hp. done.
    + by rewrite lookup_insert_ne.
Qed.

Definition state_of (s : sched) (t : Z) : option thread_state_t := t_state <$> threads s !! t.
Definition thread_blocks (t : Z) (r : thread_t) : list release :=
  map Kfree [t_fxsave_region r; t_kernel_stack_bottom r; t_stack r; t].
Definition in_kernel (s : sched) : bool :=
  bool_decide (pid <$> processes s !! current_proc s = Some 0).

(** What [remove_thread] does to the invariant; the process goes with its last thread
    when the kernel process is running. *)
Lemma remove_thread_spec s a t b ps r :
  sched_ok s (a ++ t :: b) ps -> t <> current_thread s -> threads s !! t = Some r ->
  exists s' ps', remove_thread t s = Done s' /\ sched_ok s' (a ++ b) ps' /\
    current_thread s' = current_thread s /\ current_proc s' = current_proc s /\ in_kernel s' = in_kernel s /\
    threads s' = delete t (threads s) /\ ps' ⊆ ps /\
    (exists rel, released s' = released s ++ thread_blocks t r ++ rel) /\
    (if in_kernel s then t_process r ∈ ps' -> exists x, x ∈ a ++ b /\ process_of s' x = t_process r
     else ps' = ps).
Proof.
  intros Hok Hct Hr.
  destruct (remove_thread_count s a t b ps r Hok Hct Hr)
    as (s1 & p1 & cur & -> & Hok1 & Hp1 & Hpin & Hcur & Hpid & Hct1 & Hcp1 & Hth1 & Hrel1).
  assert (in_kernel s1 = in_kernel s) as Hk1 by (unfold in_kernel; by rewrite Hcp1, Hpid).
  assert (in_kernel s = (pid cur =? 0)) as Hk.
  { rewrite <- Hk1. unfold in_kernel. rewrite Hcp1, Hcur. cbn.
    destruct (Z.eqb_spec (pid cur) 0); case_bool_decide; congruence || done. }
  assert (threads_count p1 <> 0 -> exists x, x ∈ a ++ b /\ process_of s1 x = t_process r) as Hsome.
  { intros Hne. destruct (ok_process _ _ _ Hok1 _ Hpin) as (p' & Hp' & Hcount).
    rewrite Hp1 in Hp'. injection Hp' as <-.
    destruct (filter (fun x => process_of s1 x = t_process r) (a ++ b)) as [|x l] eqn:E; [cbn in Hcount; lia|].
    exists x. assert (x ∈ filter (fun x => process_of s1 x = t_process r) (a ++ b)) as Hx
      by (rewrite E; apply elem_of_cons; by left).
    apply list_elem_of_filter in Hx. tauto. }
  rewrite Hk. destruct (Z.eqb_spec (threads_count p1) 0) as [Hz|Hnz]; cbn [andb].
  - destruct (Z.eqb_spec (pid cur) 0) as [Hc|Hc].
    + destruct (remove_process_spec s1 (a ++ b) (t_process r) p1 ps Hok1 Hpin Hp1 Hz)
        as (s2 & ps2 & -> & Hok2 & Hout & Hps2 & Hct2 & Hcp2 & Hth2 & Hpr2 & rel & Hrel2).
      exists s2, ps2. split; [done|]. split; [done|]. split; [congruence|]. split; [congruence|]. split_and!.
      * transitivity (in_kernel s1); [|rewrite Hk1, Hk; by destruct (Z.eqb_spec (pid cur) 0)].
        unfold in_kernel. rewrite Hcp2. f_equal.
        destruct (decide (current_proc s1 = t_process r)) as [E|]; [|by rewrite Hpr2].
        destruct (current_process_counts s1 _ _ Hok1) as (c & Hc1 & Hpos & _). rewrite E, Hp1 in Hc1.
        injection Hc1 as <-. lia.
      * by rewrite Hth2.
      * intros q Hq. by apply Hps2.
      * exists rel. rewrite Hrel2, Hrel1. unfold thread_blocks. by rewrite <- app_assoc.
      * done.
    + exists s1, ps. split_and!; try done; [|exists []; by rewrite Hrel1, app_nil_r].
      rewrite Hk1, Hk. by destruct (Z.eqb_spec (pid cur) 0).
  - exists s1, ps. split_and!; try done.
    + by rewrite Hk1, Hk.
    + exists []. by rewrite Hrel1, app_nil_r.
    + destruct (Z.eqb_spec (pid cur) 0); [|done]. intros _. by apply Hsome.
Qed.

(** Threads that are passed over. *)
Definition passed (s : sched) (t : Z) : Prop := state_of s t = Some PAUSED \/ state_of s t = Some DEAD.
Definition may_run (s : sched) (t : Z) : Prop := state_of s t = Some CREATED \/ state_of s t = Some RUNNING.

(** The outcome of passing over the threads [pre]. *)
Record selected (s s' : sched) (xs' ps ps' pre : list Z) (t : Z) (post : list Z) : Prop := Selected {
  sel_ok : sched_ok s' xs' ps';
  sel_order : rot xs' (t :: post ++ filter (fun x => state_of s x = Some PAUSED) pre);
  sel_current : current_thread s' = current_thread s /\ current_proc s' = current_proc s;
  sel_dead : forall d r, d ∈ pre -> threads s !! d = Some r -> t_state r = DEAD ->
    threads s' !! d = None /\ thread_blocks d r ⊆ released s';
  sel_kept : forall x, state_of s x <> Some DEAD \/ x ∉ pre -> threads s' !! x = threads s !! x;
  sel_released : exists rel, released s' = released s ++ rel;
  sel_sub : ps' ⊆ ps;
  sel_processes : if in_kernel s
    then forall d, d ∈ pre -> state_of s d = Some DEAD -> process_of s d ∈ ps' ->
      exists x, x ∈ xs' /\ process_of s' x = process_of s d
    else ps' = ps
}.

Lemma selected_paused s s' xs' ps ps' x r pre t post :
  x <> t -> threads s !! x = Some r -> t_state r = PAUSED ->
  selected s s' xs' ps ps' pre t (post ++ [x]) -> selected s s' xs' ps ps' (x :: pre) t post.
Proof.
  intros Hxt Hr Hst [Hok Hrot Hcur Hdead Hkept Hrel Hsub Hps].
  assert (state_of s x = Some PAUSED) as Hx by (unfold state_of; rewrite Hr; cbn; by rewrite Hst).
  constructor; try done.
  - rewrite list.filter_cons_True by done. by rewrite <- app_assoc in Hrot.
  - intros d rd [->|Hd]%elem_of_cons Hrd Hsd; [congruence|]. by apply Hdead.
  - intros y [Hy|Hy]; apply Hkept; [by left|right]. rewrite not_elem_of_cons in Hy. tauto.
  - destruct (in_kernel s); [|done]. intros d [->|Hd]%elem_of_cons Hsd; [congruence|]. by apply Hps.
Qed.

Lemma selected_dead s s1 s' xs1 xs' ps ps1 ps' x r pre t post :
  threads s !! x = Some r -> t_state r = DEAD -> x ∉ pre ++ t :: post ->
  sched_ok s1 xs1 ps1 -> rot xs1 (pre ++ t :: post) -> Forall (passed s) pre ->
  threads s1 = delete x (threads s) -> (exists rel, released s1 = released s ++ thread_blocks x r ++ rel) ->
  current_thread s1 = current_thread s -> current_proc s1 = current_proc s -> in_kernel s1 = in_kernel s ->
  (if in_kernel s then t_process r ∈ ps1 -> exists y, y ∈ xs1 /\ process_of s1 y = t_process r
   else ps1 = ps) ->
  ps1 ⊆ ps ->
  selected s1 s' xs' ps1 ps' pre t post -> selected s s' xs' ps ps' (x :: pre) t post.
Proof.
  intros Hr Hst Hx Hok1 Hrot1 Hpre Hth [rel1 Hrel1] Hct Hcp Hk Hps1 Hsub1 [Hok Hrot Hcur Hdead Hkept [rel Hrel] Hsub Hps].
  assert (state_of s x = Some DEAD) as Hxd by (unfold state_of; rewrite Hr; cbn; by rewrite Hst).
  assert (forall y, y <> x -> threads s1 !! y = threads s !! y) as Hthy.
  { intros y Hy. rewrite Hth. apply lookup_delete_ne. congruence. }
  assert (forall y, y ∈ pre ++ t :: post -> y <> x) as Hne by (intros y Hy ->; done).
  assert (forall y, y ∈ pre ++ t :: post -> state_of s1 y = state_of s y /\ process_of s1 y = process_of s y) as Hsame.
  { intros y Hy. unfold state_of, process_of. rewrite Hthy by (by apply Hne). done. }
  assert (forall y, y ∈ pre -> y ∈ pre ++ t :: post) as Hin by (intros y Hy; apply elem_of_app; by left).
  constructor.
  - done.
  - rewrite list.filter_cons_False by congruence.
    erewrite list_filter_iff'; [exact Hrot|]. intros y Hy. cbn. by rewrite (proj1 (Hsame y (Hin y Hy))).
  - rewrite <- Hct, <- Hcp. done.
  - intros d rd [->|Hd]%elem_of_cons Hrd Hsd.
    + rewrite Hr in Hrd. injection Hrd as <-. split.
      * rewrite Hkept; [rewrite Hth; apply lookup_delete_eq|]. left. unfold state_of. by rewrite Hth, lookup_delete_eq.
      * rewrite Hrel, Hrel1. intros z Hz. apply elem_of_app. left. apply elem_of_app. right. apply elem_of_app. by left.
    + apply Hdead; [done| |done]. rewrite Hthy by (by apply Hne, Hin). done.
  - intros y Hy. destruct (decide (y = x)) as [->|Hyx].
    + destruct Hy as [Hy|Hy]; [done|]. destruct Hy. apply elem_of_cons. by left.
    + rewrite <- Hthy by done. apply Hkept. destruct Hy as [Hy|Hy].
      * left. unfold state_of. by rewrite Hthy.
      * right. rewrite not_elem_of_cons in Hy. tauto.
  - exists (thread_blocks x r ++ rel1 ++ rel). rewrite Hrel, Hrel1. by rewrite <- !app_assoc.
  - by transitivity ps1.
  - rewrite Hk in Hps. destruct (in_kernel s); [|congruence].
    intros d Hd Hsd Hdp.
    destruct (decide (Exists (fun e => state_of s e = Some DEAD /\ process_of s e = process_of s d) pre)) as [He|Hno].
    + apply list.Exists_exists in He as (e & He & Hes & Hep). rewrite <- Hep in Hdp |- *.
      destruct (Hsame e (Hin e He)) as [Se Pe]. rewrite <- Pe in Hdp |- *. apply Hps; [done|congruence|done].
    + apply elem_of_cons in Hd as [->|Hd].
      2: { destruct Hno. apply list.Exists_exists. by exists d. }
      assert (process_of s x = t_process r) as Hpx by (unfold process_of; by rewrite Hr). rewrite Hpx in *.
      destruct Hps1 as (y & Hy & Hyp); [by apply Hsub|]. exists y.
      apply (rot_elem _ _ y Hrot1) in Hy. destruct (Hsame y Hy) as [Sy Py].
      assert (state_of s1 y <> Some DEAD \/ y ∉ pre) as Hkeep.
      { destruct (decide (y ∈ pre)); [|by right]. left. rewrite Sy. intros Hd. apply Hno.
        apply list.Exists_exists. exists y. split; [done|]. split; [done|]. congruence. }
      split.
      * apply (rot_elem _ _ y Hrot). apply elem_of_cons.
        apply elem_of_app in Hy as [Hy|[Hy|Hy]%elem_of_cons]; [|by left|right; apply elem_of_app; by left].
        right. apply elem_of_app. right. apply list_elem_of_filter. split; [|done].
        rewrite list.Forall_forall in Hpre. destruct (Hpre y Hy) as [H|H]; [congruence|].
        destruct Hkeep as [H'|H']; [congruence|done].
      * rewrite <- Hyp. unfold process_of. by rewrite Hkept.
Qed.

Lemma select_loop_spec pre :
  forall fuel s xs ps t post,
  sched_ok s xs ps -> rot xs (pre ++ t :: post) -> current_thread s ∉ pre ->
  Forall (passed s) pre -> may_run s t -> (length pre < fuel)%nat ->
  exists s' xs' ps', select_loop fuel (hd t pre) s = Done (t, s') /\ selected s s' xs' ps ps' pre t post.
Proof.
  induction pre as [|x pre IH]; intros fuel s xs ps t post Hok Hrot Hcur Hpre Hrun Hfuel;
    (destruct fuel as [|fuel]; [cbn in Hfuel; lia|]).
  - cbn [hd app] in *. pose proof (ok_threads _ _ _ Hok) as Hring.
    assert (t ∈ xs) as Htin by (apply (rot_elem _ _ t Hrot), elem_of_cons; by left).
    assert (t <> 0) as Ht0 by (intros ->; by apply (rg_null _ _ _ Hring)).
    destruct (rot_next _ _ _ _ _ Hring Hrot) as (i & Hi & Hn).
    cbn [select_loop]. destruct (Z.eqb_spec t 0); [done|]. unfold get_thread, next_item, get_item.
    destruct (threads s !! t) as [r|] eqn:Hr; [|destruct Hrun; unfold state_of in *; by rewrite Hr in *].
    cbn [of_option mbind outcome_bind]. rewrite Hi. cbn [of_option mbind outcome_bind].
    exists s, xs, ps. split.
    { destruct Hrun as [H|H]; unfold state_of in H; rewrite Hr in H; injection H as ->; done. }
    constructor; try done.
    + cbn. by rewrite app_nil_r.
    + intros d r' Hd. by apply not_elem_of_nil in Hd.
    + exists []. by rewrite app_nil_r.
    + destruct (in_kernel s); [|done]. intros d Hd. by apply not_elem_of_nil in Hd.
  - cbn [hd app] in *. apply Forall_cons_1 in Hpre as [Hx Hpre].
    pose proof (ok_threads _ _ _ Hok) as Hring.
    assert (x ∈ xs) as Hxin by (apply (rot_elem _ _ x Hrot), elem_of_cons; by left).
    assert (x <> 0) as Hx0 by (intros ->; by apply (rg_null _ _ _ Hring)).
    assert (NoDup (x :: pre ++ t :: post)) as Hnd.
    { destruct Hrot as (u & v & E & ->). rewrite Permutation_app_comm, <- E. apply (rg_distinct _ _ _ Hring). }
    destruct (rot_next _ _ _ _ _ Hring Hrot) as (i & Hi & Hn).
    assert (next i = hd t pre) as Hn' by (rewrite Hn; by destruct pre).
    apply list.NoDup_cons in Hnd as [Hxn Hnd].
    rewrite not_elem_of_cons in Hcur. destruct Hcur as [Hxc Hcur].
    cbn [select_loop]. destruct (Z.eqb_spec x 0); [done|]. unfold get_thread, next_item, get_item.
    destruct (threads s !! x) as [r|] eqn:Hr; [|destruct Hx; unfold state_of in *; by rewrite Hr in *].
    cbn [of_option mbind outcome_bind]. rewrite Hi. cbn [of_option mbind outcome_bind]. rewrite Hn'.
    assert (state_of s x = Some (t_state r)) as Hst by (unfold state_of; by rewrite Hr).
    destruct Hx as [Hx|Hx]; rewrite Hst in Hx; injection Hx as Hx; rewrite Hx.
    + destruct (IH fuel s xs ps t (post ++ [x])) as (s' & xs' & ps' & -> & Hsel); try done.
      { change (x :: pre ++ t :: post) with (x :: (pre ++ t :: post)) in Hrot. apply rot_step in Hrot.
        by rewrite <- app_assoc in Hrot. }
      { cbn in Hfuel. lia. }
      exists s', xs', ps'. split; [done|]. apply (selected_paused _ _ _ _ _ _ r); try done.
      intros ->. apply Hxn, elem_of_app. right. apply elem_of_cons. by left.
    + apply rot_remove in Hrot as (a & b & -> & Hrot).
      destruct (remove_thread_spec s a x b ps r Hok (not_eq_sym Hxc) Hr)
        as (s1 & ps1 & -> & Hok1 & Hct1 & Hcp1 & Hk1 & Hth1 & Hsub1 & Hrel1 & Hps1).
      cbn [mbind outcome_bind].
      assert (forall y, y <> x -> threads s1 !! y = threads s !! y) as Hthy.
      { intros y Hy. rewrite Hth1. apply lookup_delete_ne. congruence. }
      destruct (IH fuel s1 (a ++ b) ps1 t post) as (s' & xs' & ps' & -> & Hsel); try done.
      { by rewrite Hct1. }
      { rewrite list.Forall_forall in Hpre |- *. intros y Hy. unfold passed, state_of. rewrite Hthy; [by apply Hpre|].
        intros ->. apply Hxn, elem_of_app. by left. }
      { unfold may_run, state_of. rewrite Hthy; [done|]. intros ->. apply Hxn, elem_of_app. right. apply elem_of_cons. by left. }
      { cbn in Hfuel. lia. }
      exists s', xs', ps'. split; [done|]. apply (selected_dead s s1 s' (a ++ b) xs' ps ps1 ps' x r pre t post); done.
Qed.

Lemma length_le_size' {A} (m : gmap Z A) (xs : list Z) :
  NoDup xs -> (forall x, x ∈ xs -> is_Some (m !! x)) -> (length xs <= size m)%nat.
Proof.
  intros Hnd Hx. rewrite <- (size_dom (D := gset Z)). rewrite <- (size_list_to_set (C := gset Z) xs Hnd).
  apply subseteq_size. intros x Hin. apply elem_of_dom, Hx. by apply elem_of_list_to_set in Hin.
Qed.

(** Only the processes of the threads matter to the invariant. *)
Lemma threads_changed_ok s ths xs ps :
  sched_ok s xs ps -> (forall x, t_process <$> ths !! x = t_process <$> threads s !! x) ->
  sched_ok (with_threads ths s) xs ps.
Proof.
  intros [H1 H2 H3 H4 Hth Hpr [Hc Hcp] H8] Hsame.
  constructor; cbn [lists threads processes current_thread current_proc threadlist_mutex proclist_mutex with_threads]; try done.
  - intros x Hx. destruct (Hth x Hx) as (rx & Hrx & Hp). pose proof (Hsame x) as E. rewrite Hrx in E.
    destruct (ths !! x) as [r'|]; [|done]. exists r'. split; [done|]. injection E as ->. done.
  - intros p Hp. destruct (Hpr p Hp) as (r & Hr & Hcount). exists r. split; [done|]. rewrite Hcount. do 2 f_equal.
    apply list_filter_iff'. intros x _. unfold process_of. cbn [threads with_threads]. by rewrite Hsame.
  - split; [done|]. unfold process_of. cbn [threads with_threads]. by rewrite Hsame.
Qed.

Lemma current_changed_ok s xs ps t :
  sched_ok s xs ps -> t ∈ xs -> sched_ok (with_current t (process_of s t) s) xs ps.
Proof. intros [H1 H2 H3 H4 Hth Hpr _ H8] Ht. by constructor. Qed.

Lemma switch_ok s xs ps t esp :
  sched_ok s xs ps -> t ∈ xs ->
  exists s', task_switch_v2 (current_thread s) t esp s = Done s' /\ sched_ok s' xs ps /\
    current_thread s' = t /\ current_proc s' = process_of s t /\
    (forall x, x <> current_thread s -> threads s' !! x = threads s !! x) /\ (forall x, state_of s' x = state_of s x).
Proof.
  intros Hok Ht. pose proof Hok as [_ _ _ _ Hth _ [Hc Hcp] _]. unfold task_switch_v2.
  destruct (Z.eqb_spec (current_thread s) t) as [E|Hne]; [exists s; subst t; done|].
  destruct (Hth _ Hc) as (rc & Hrc & _). destruct (Hth _ Ht) as (rt & Hrt & _).
  unfold get_thread. rewrite Hrc. cbn [of_option mbind outcome_bind].
  unfold put_thread, with_threads. cbn [threads]. rewrite lookup_insert_ne, Hrt by done.
  cbn [of_option mbind outcome_bind]. eexists. split; [reflexivity|].
  assert (process_of s t = t_process rt) as Hpt by (unfold process_of; by rewrite Hrt).
  set (rc' := Thread (t_process rc) _ _ _ _ _ _ _ _ _ _ _). split; [|split; [done|split; [done|split]]]; cycle 1.
  { intros x Hx. cbn. by rewrite lookup_insert_ne. }
  { intros x. unfold state_of. cbn. destruct (decide (x = current_thread s)) as [->|]; [by rewrite lookup_insert_eq, Hrc|].
    by rewrite lookup_insert_ne. }
  pose proof (threads_changed_ok s (<[current_thread s := rc']> (threads s)) xs ps Hok) as Hok1.
  apply current_changed_ok with (t := t) in Hok1; [| |done].
  - unfold process_of in Hok1. cbn [with_threads threads] in Hok1. rewrite lookup_insert_ne, Hrt in Hok1 by done.
    exact Hok1.
  - intros x. destruct (decide (x = current_thread s)) as [->|]; [by rewrite lookup_insert_eq, Hrc|].
    by rewrite lookup_insert_ne.
Qed.

(** A switch, with what it leaves of the threads. *)
Lemma round_robin s xs ps rest pre t post esp :
  sched_ok s xs ps -> multi_task s = true ->
  rot xs (current_thread s :: rest) -> rest ++ [current_thread s] = pre ++ t :: post ->
  Forall (passed s) pre -> may_run s t ->
  exists s1 xs' ps' s',
    sched_select_next s = Done (t, s1) /\ selected s s1 xs' ps ps' pre t post /\
    task_switch_v2_wrapper esp s = Done s' /\ sched_ok s' xs' ps' /\
    current_thread s' = t /\ current_proc s' = process_of s t /\
    (forall x, x <> current_thread s -> threads s' !! x = threads s1 !! x) /\ (forall x, state_of s' x = state_of s1 x).
Proof.
  intros Hok Hmt Hrot Heq Hpre Hrun. pose proof (ok_threads _ _ _ Hok) as Hring.
  pose proof (rot_step _ _ _ Hrot) as Hrot'. rewrite Heq in Hrot'.
  assert (NoDup (pre ++ t :: post)) as Hnd.
  { destruct Hrot' as (u & v & E & ->). rewrite Permutation_app_comm, <- E. apply (rg_distinct _ _ _ Hring). }
  assert (current_thread s ∉ pre) as Hcur.
  { intros Hin. apply list.NoDup_app in Hnd as (_ & Hnd & _). apply (Hnd _ Hin).
    destruct (exists_last (l := t :: post)) as (w & z & E); [done|]. rewrite E in Heq |- *.
    rewrite app_assoc in Heq. apply app_inj_tail in Heq as [_ ->].
    apply elem_of_app. right. by apply list_elem_of_singleton. }
  assert (length pre < S (size (threads s)))%nat as Hfuel.
  { pose proof (length_le_size' (threads s) xs (rg_distinct _ _ _ Hring)) as Hle.
    assert (forall x, x ∈ xs -> is_Some (threads s !! x)) as Hall.
    { intros x Hx. destruct (ok_thread _ _ _ Hok x Hx) as (r & Hr & _). by exists r. }
    specialize (Hle Hall). rewrite (rot_length _ _ Hrot'), length_app in Hle. lia. }
  destruct (rot_next _ _ _ _ _ Hring Hrot) as (i & Hi & Hn).
  assert (next i = hd t pre) as Hn'.
  { rewrite Hn. destruct rest as [|y rest], pre as [|z pre]; injection Heq; intros; subst; done. }
  destruct (select_loop_spec pre (S (size (threads s))) s xs ps t post) as (s1 & xs' & ps' & Hsel & Hs); try done.
  assert (sched_select_next s = Done (t, s1)) as Hnext.
  { unfold sched_select_next, next_item, get_item. rewrite Hi. cbn [of_option mbind outcome_bind].
    by rewrite Hn'. }
  assert (t ∈ xs') as Htin.
  { apply (rot_elem _ _ t (sel_order _ _ _ _ _ _ _ _ Hs)). apply elem_of_cons. by left. }
  destruct (sel_current _ _ _ _ _ _ _ _ Hs) as [Hct Hcp].
  destruct (switch_ok s1 xs' ps' t esp (sel_ok _ _ _ _ _ _ _ _ Hs) Htin) as (s' & Hsw & Hok' & Hc1 & Hc2 & Hkeep & Hst).
  exists s1, xs', ps', s'. split_and!; try done.
  - unfold task_switch_v2_wrapper. rewrite Hmt, Hnext. cbn [negb mbind outcome_bind].
    assert (t <> 0) as Ht0.
    { intros ->. by apply (rg_null _ _ _ (ok_threads _ _ _ (sel_ok _ _ _ _ _ _ _ _ Hs))). }
    destruct (Z.eqb_spec t 0); [done|]. done.
  - rewrite Hc2. unfold process_of. rewrite (sel_kept _ _ _ _ _ _ _ _ Hs); [done|].
    left. destruct Hrun as [H|H]; by rewrite H.
  - by rewrite <- Hct.
Qed.

(** C15: the scheduler is round robin.  With the threads in ring order after the
    current one, which comes last, a switch goes to the first that may run.  On the
    way the paused threads are passed over and go behind it, and the dead ones are
    reaped: they leave the ring and their four blocks are given back.  When the kernel process is the current
    one no process survives the reaping of its last thread; otherwise no process is
    removed.  The invariant of threads, processes and counts is kept. *)
Theorem scheduler_is_round_robin s xs ps rest pre t post esp :
  sched_ok s xs ps -> multi_task s = true ->
  rot xs (current_thread s :: rest) -> rest ++ [current_thread s] = pre ++ t :: post ->
  Forall (passed s) pre -> may_run s t ->
  exists s1 xs' ps' s',
    sched_select_next s = Done (t, s1) /\ selected s s1 xs' ps ps' pre t post /\
    task_switch_v2_wrapper esp s = Done s' /\ sched_ok s' xs' ps' /\
    current_thread s' = t /\ current_proc s' = process_of s t.
Proof.
  intros Hok Hmt Hrot Heq Hpre Hrun.
  destruct (round_robin s xs ps rest pre t post esp Hok Hmt Hrot Heq Hpre Hrun) as (s1 & xs' & ps' & s' & H1 & H2 & H3 & H4 & H5 & H6 & _).
  by exists s1, xs', ps', s'.
Qed.

(** A thread that exits is dead, the next that may run goes on, and every other thread
    that was not waiting to be reaped is as it was. *)
Lemma thread_exit_switches s xs ps rest pre t post esp :
  sched_ok s xs ps -> multi_task s = true ->
  rot xs (current_thread s :: rest) -> rest = pre ++ t :: post -> Forall (passed s) pre -> may_run s t ->
  exists s' xs' ps', thread_exit (current_thread s) esp s = Done s' /\ sched_ok s' xs' ps' /\
    current_thread s' = t /\ current_proc s' = process_of s t /\
    state_of s' (current_thread s) = Some DEAD /\ current_thread s ∈ xs' /\
    (forall x, x <> current_thread s -> state_of s x <> Some DEAD \/ x ∉ pre -> threads s' !! x = threads s !! x).
Proof.
  intros Hok Hmt Hrot Heq Hpre Hrun. set (c := current_thread s) in *.
  pose proof (ok_current _ _ _ Hok) as [Hc _]. destruct (ok_thread _ _ _ Hok c Hc) as (r & Hr & _).
  assert (c ∉ rest) as Hcr.
  { pose proof (rg_distinct _ _ _ (ok_threads _ _ _ Hok)) as Hnd. destruct Hrot as (u & v & -> & E).
    rewrite Permutation_app_comm, <- E in Hnd. by apply list.NoDup_cons in Hnd as [? _]. }
  assert ((c ∉ pre) /\ c <> t) as [Hcpre Hct].
  { rewrite Heq in Hcr. split; [intros H|intros ->]; apply Hcr, elem_of_app; [by left|right; apply elem_of_cons; by left]. }
  unfold thread_exit, set_state, get_thread. fold c. rewrite Hmt, Hr. cbn [negb of_option mbind outcome_bind].
  unfold put_thread. set (r' := Thread _ _ _ _ _ _ _ _ _ _ _ _). set (ths := <[c := r']> (threads s)).
  assert (sched_ok (with_threads ths s) xs ps) as Hok1.
  { apply threads_changed_ok; [done|]. intros x. unfold ths. destruct (decide (x = c)) as [->|]; [by rewrite lookup_insert_eq, Hr|].
    by rewrite lookup_insert_ne. }
  assert (forall x, x <> c -> state_of (with_threads ths s) x = state_of s x) as Hst.
  { intros x Hx. unfold state_of, ths. cbn [threads with_threads]. by rewrite lookup_insert_ne. }
  destruct (round_robin (with_threads ths s) xs ps rest pre t (post ++ [c]) esp Hok1 Hmt Hrot) as (s1 & xs' & ps' & s' & _ & Hs & Hsw & Hok' & Hc1 & Hc2 & Hkeep & Hst').
  { cbn [current_thread with_threads]. fold c. rewrite Heq. by rewrite <- app_assoc. }
  { rewrite list.Forall_forall in Hpre |- *. intros x Hx. unfold passed. rewrite Hst by congruence. by apply Hpre. }
  { unfold may_run. by rewrite Hst by congruence. }
  assert (threads s1 !! c = Some r') as Hr1.
  { rewrite (sel_kept _ _ _ _ _ _ _ _ Hs) by (by right). unfold ths. cbn. by rewrite lookup_insert_eq. }
  exists s', xs', ps'. split_and!; try done.
  - rewrite Hc2. unfold process_of, ths. cbn. by rewrite lookup_insert_ne by done.
  - rewrite Hst'. unfold state_of. by rewrite Hr1.
  - apply (rot_elem _ _ _ (sel_order _ _ _ _ _ _ _ _ Hs)). apply elem_of_cons. right. rewrite !elem_of_app. left. right. by apply list_elem_of_singleton.
  - intros x Hx Hd. rewrite Hkeep by done. rewrite (sel_kept _ _ _ _ _ _ _ _ Hs).
    + unfold ths. cbn. by rewrite lookup_insert_ne.
    + by rewrite Hst.
Qed.

(** ** Looking for a process *)

Definition pid_of (s : sched) (p : Z) : Z := default 0 (pid <$> processes s !! p).

Lemma exists_loop_spec l1 :
  forall fuel s ps x i k l2 wanted,
  ring (lists s) PROCESS_LIST ps -> (forall p, p ∈ ps -> is_Some (processes s !! p)) ->
  rot ps (l1 ++ k :: l2) -> x ∈ ps -> items (lists s) !! x = Some i -> next i = hd k l1 ->
  Forall (fun p => pid_of s p <> 0) l1 -> pid_of s k = 0 -> (length l1 < fuel)%nat ->
  exists_loop fuel x wanted s = Done (bool_decide (wanted ∈ map (pid_of s) (x :: l1))).
Proof.
  induction l1 as [|y l1 IH]; intros fuel s ps x i k l2 wanted Hr Hps Hrot Hx Hi Hn Hl1 Hk Hfuel;
    (destruct fuel as [|fuel]; [cbn in Hfuel; lia|]); cbn [exists_loop hd app] in *;
    unfold get_process, next_item, get_item; destruct (Hps x Hx) as [px Hpx];
    (assert (pid_of s x = pid px) as Hpid by (unfold pid_of; by rewrite Hpx));
    rewrite Hpx; cbn [of_option mbind outcome_bind map]; rewrite Hpid;
    (destruct (Z.eqb_spec (pid px) wanted) as [->|Hne];
      [rewrite bool_decide_true; [done|apply elem_of_cons; by left]|]);
    rewrite Hi; cbn [of_option mbind outcome_bind]; rewrite Hn.
  - assert (k ∈ ps) as Hkin by (apply (rot_elem _ _ k Hrot), elem_of_cons; by left).
    destruct (Z.eqb_spec k 0) as [->|_]; [by destruct (rg_null _ _ _ Hr)|].
    destruct (Hps k Hkin) as [pk Hpk]. rewrite Hpk. cbn [of_option mbind outcome_bind].
    unfold pid_of in Hk. rewrite Hpk in Hk. cbn in Hk. rewrite Hk. cbn [Z.eqb negb].
    rewrite bool_decide_false; [done|]. intros Hw%list_elem_of_singleton. congruence.
  - assert (y ∈ ps) as Hyin by (apply (rot_elem _ _ y Hrot), elem_of_cons; by left).
    destruct (Z.eqb_spec y 0) as [->|_]; [by destruct (rg_null _ _ _ Hr)|].
    apply Forall_cons_1 in Hl1 as [Hy Hl1].
    destruct (Hps y Hyin) as [py Hpy]. rewrite Hpy. cbn [of_option mbind outcome_bind].
    assert (pid_of s y = pid py) as Hpidy by (unfold pid_of; by rewrite Hpy).
    destruct (Z.eqb_spec (pid py) 0); [congruence|]. cbn [negb].
    destruct (rot_next _ _ _ _ _ Hr Hrot) as (j & Hj & Hjn).
    rewrite (IH fuel s ps y j k (l2 ++ [y]) wanted); try done.
    + f_equal. apply bool_decide_ext. split; [intros H; apply elem_of_cons; by right|].
      intros [H|H]%elem_of_cons; [congruence|done].
    + apply rot_step in Hrot. by rewrite <- app_assoc in Hrot.
    + rewrite Hjn. by destruct l1.
    + cbn in Hfuel. lia.
Qed.

(** [process_exists] sees the current process and those after it in the list up
    to the kernel process, and no others: when another process than the kernel is
    running, the processes before it, the kernel included, are not found. *)
Theorem process_exists_scans_forward s xs ps rest l1 k l2 wanted :
  sched_ok s xs ps -> rot ps (current_proc s :: rest) -> rest ++ [current_proc s] = l1 ++ k :: l2 ->
  Forall (fun p => pid_of s p <> 0) l1 -> pid_of s k = 0 ->
  process_exists wanted s = Done (bool_decide (wanted ∈ map (pid_of s) (current_proc s :: l1))).
Proof.
  intros Hok Hrot Heq Hl1 Hk. pose proof (ok_processes _ _ _ Hok) as Hr.
  assert (forall p, p ∈ ps -> is_Some (processes s !! p)) as Hps.
  { intros p Hp. destruct (ok_process _ _ _ Hok p Hp) as (r & Hrp & _). by exists r. }
  pose proof (rot_step _ _ _ Hrot) as Hrot'. rewrite Heq in Hrot'.
  destruct (rot_next _ _ _ _ _ Hr Hrot) as (i & Hi & Hn).
  assert (next i = hd k l1) as Hn'.
  { rewrite Hn. destruct rest as [|y rest], l1 as [|z l1]; injection Heq; intros; subst; done. }
  unfold process_exists. apply (exists_loop_spec l1 _ s ps _ i k l2); try done.
  - apply (rot_elem _ _ _ Hrot), elem_of_cons. by left.
  - pose proof (length_le_size' (processes s) ps (rg_distinct _ _ _ Hr) Hps) as Hle.
    rewrite (rot_length _ _ Hrot'), length_app in Hle. lia.
Qed.

(** ** New threads *)

Lemma fold_push args top w :
  let m := fold_left (fun m a => push a m) args (top, w) in
  fst m = top - 4 * Z.of_nat (length args) /\
  (forall j x, rev args !! j = Some x -> snd m !! (fst m + 4 * Z.of_nat j) = Some x) /\
  (forall a, top <= a \/ a < fst m -> snd m !! a = w !! a).
Proof.
  revert top w. induction args as [|a args IH] using rev_ind; intros top w; cbn zeta in *.
  - cbn. split; [lia|]. done.
  - rewrite fold_left_app. cbn [fold_left]. destruct (IH top w) as (H1 & H2 & H3).
    set (m := fold_left (fun m a => push a m) args (top, w)) in *. unfold push. cbn [fst snd].
    rewrite length_app. cbn [length]. split; [lia|]. split.
    + intros j x Hx. rewrite rev_app_distr in Hx. cbn [rev app] in Hx. destruct j as [|j].
      * injection Hx as <-. rewrite Z.add_0_r. apply lookup_insert_eq.
      * cbn in Hx. rewrite lookup_insert_ne by lia.
        replace (fst m - 4 + 4 * Z.of_nat (S j)) with (fst m + 4 * Z.of_nat j) by lia. by apply H2.
    + intros b Hb. rewrite lookup_insert_ne by lia. apply H3. lia.
Qed.

Lemma fill_stack_spec exit_entry stack stack_size entry args w :
  let m := fill_stack exit_entry stack stack_size entry args w in
  fst m = stack + stack_size - 4 * (Z.of_nat (length args) + 10) /\
  snd m !! (fst m + 28) = Some 0x202 /\ snd m !! (fst m + 32) = Some entry /\
  (forall j x, (exit_entry :: rev args) !! j = Some x -> snd m !! (fst m + 36 + 4 * Z.of_nat j) = Some x) /\
  (forall a, stack + stack_size <= a \/ a < fst m -> snd m !! a = w !! a).
Proof.
  cbn zeta. unfold fill_stack. destruct (fold_push args (stack + stack_size) w) as (H1 & H2 & H3). cbn zeta in *.
  set (m := fold_left (fun m a => push a m) args (stack + stack_size, w)) in *. unfold push. cbn [fst snd].
  split; [lia|]. split_and!.
  - replace (fst m - 4 - 4 - 4 - 28 + 28) with (fst m - 4 - 4 - 4) by lia. apply lookup_insert_eq.
  - rewrite lookup_insert_ne by lia.
    replace (fst m - 4 - 4 - 4 - 28 + 32) with (fst m - 4 - 4) by lia. apply lookup_insert_eq.
  - intros j x Hx. rewrite !lookup_insert_ne by lia. destruct j as [|j].
    + injection Hx as <-. replace (fst m - 4 - 4 - 4 - 28 + 36 + 4 * Z.of_nat 0) with (fst m - 4) by lia.
      apply lookup_insert_eq.
    + cbn in Hx. rewrite lookup_insert_ne by lia.
      replace (fst m - 4 - 4 - 4 - 28 + 36 + 4 * Z.of_nat (S j)) with (fst m + 4 * Z.of_nat j) by lia. by apply H2.
  - intros a Ha. rewrite !lookup_insert_ne by lia. apply H3. lia.
Qed.

(** A thread that is entered into the list of threads and counted by its process. *)
Lemma add_thread_ok s s1 xs ps t rt proc p p' :
  sched_ok s xs ps -> proc ∈ ps -> t <> 0 -> t ∉ xs -> t ∉ ps -> Z.of_nat (length xs) + 1 < 2 ^ 32 ->
  t_process rt = proc -> processes s !! proc = Some p -> threads_count p' = u32 (threads_count p + 1) ->
  lists s1 = put_item t (ListItem 0 0 0) (lists s) -> threads s1 = <[t := rt]> (threads s) ->
  processes s1 = <[proc := p']> (processes s) -> current_thread s1 = current_thread s ->
  current_proc s1 = current_proc s -> threadlist_mutex s1 = threadlist_mutex s ->
  proclist_mutex s1 = proclist_mutex s ->
  exists l, thread_add_prepared t s1 = Done (with_lists l s1) /\ sched_ok (with_lists l s1) (xs ++ [t]) ps.
Proof.
  intros [Hrt Hrp Hdis [Hs1 Hs2] Ht Hpr [Hcin Hcp] [Hm1 Hm2]] Hproc Hm0 Hmx Hmp Hlen Hrproc Hp Hp'
    El Eth Epr Ect Ecp Em1 Em2.
  assert (ring (lists s1) THREAD_LIST xs) as Hrt'.
  { rewrite El. apply (ring_frame (lists s)); [done| |done]. intros x Hx. apply lookup_insert_ne. by intros <-. }
  destruct (list_add_spec THREAD_LIST t (lists s1) xs (ListItem 0 0 0) Hrt') as (l & Ea & Hrl & Hfr & Hhd);
    [rewrite El; apply lookup_insert_eq|done|done|done|done|].
  exists l. split. { unfold thread_add_prepared. rewrite Em1, Hm1. cbn [mutex_get mbind outcome_bind]. by rewrite Ea. }
  assert (Z.of_nat (length (xs ++ [t])) = Z.of_nat (length xs) + 1) as Hl by (rewrite length_app; cbn; lia).
  assert (forall x, process_of (with_lists l s1) x = if decide (x = t) then proc else process_of s x) as Hpo.
  { intros x. unfold process_of. cbn [threads with_lists]. rewrite Eth. case_decide as E.
    - by rewrite E, lookup_insert_eq.
    - by rewrite lookup_insert_ne. }
  constructor; cbn [lists threads processes current_thread current_proc threadlist_mutex proclist_mutex with_lists].
  - done.
  - apply (ring_frame (lists s)); [rewrite Hhd, El by done; done| |done]. intros x Hx.
    rewrite Hfr, El; [apply lookup_insert_ne; by intros <-|].
    intros [->|Hin]%elem_of_cons; [done|]. by apply (Hdis x).
  - intros x [Hx| ->%list_elem_of_singleton]%elem_of_app Hin; [by apply (Hdis x)|done].
  - split; [lia|done].
  - intros x Hx. rewrite Eth. destruct (decide (x = t)) as [->|Hne].
    + exists rt. rewrite lookup_insert_eq. split; [done|congruence].
    + apply elem_of_app in Hx as [Hx|Hx%list_elem_of_singleton]; [|done].
      destruct (Ht x Hx) as (rx & Hrx & ?). exists rx. by rewrite lookup_insert_ne.
  - intros q Hq. rewrite list.filter_app, length_app, Epr.
    rewrite (list_filter_iff' _ (fun x => process_of s x = q) xs).
    2: { intros x Hx. rewrite Hpo, decide_False; [done|]. by intros ->. }
    rewrite list.filter_cons, Hpo. rewrite (decide_True (P := t = t)) by done.
    destruct (decide (q = proc)) as [->|Hne].
    + exists p'. rewrite lookup_insert_eq. split; [done|]. rewrite Hp'.
      destruct (Hpr proc Hproc) as (p0 & Hp0 & Hcount). rewrite Hp in Hp0. injection Hp0 as <-.
      rewrite decide_True by done. cbn [length]. rewrite u32_small; [change (length (filter _ [])) with 0%nat; lia|].
      pose proof (length_filter (fun x => process_of s x = proc) xs). lia.
    + destruct (Hpr q Hq) as (rq & Hrq & Hcq). exists rq. rewrite lookup_insert_ne by done. split; [done|].
      rewrite decide_False by congruence. change (length (filter _ [])) with 0%nat. lia.
  - rewrite Ect, Ecp. split; [by apply elem_of_app; left|].
    rewrite Hpo, decide_False; [done|]. by intros E; rewrite E in Hcin.
  - by rewrite Em1, Em2.
Qed.

Lemma create_unwrapped_spec exit_entry proc entry_point stack_size flags args mem s xs ps :
  sched_ok s xs ps -> multi_task s = true -> proc ∈ ps ->
  m_thread mem <> 0 -> m_thread mem ∉ xs -> m_thread mem ∉ ps -> Z.of_nat (length xs) + 1 < 2 ^ 32 ->
  exists s' r, _thread_create_unwrapped exit_entry proc entry_point stack_size flags args mem s =
      Done (m_thread mem, s') /\
    sched_ok s' (xs ++ [m_thread mem]) ps /\ threads s' !! m_thread mem = Some r /\
    t_state r = PAUSED /\ t_process r = proc /\ t_id r = next_thread_id s /\
    (t_esp r, stack_words s') = fill_stack exit_entry (m_stack mem) stack_size entry_point args
      (zero_words (Z.to_nat (ALIGN stack_size PAGE_SIZE / 4)) (m_stack mem) (stack_words s)).
Proof.
  intros Hok Hmt Hproc Hm0 Hmx Hmp Hlen.
  destruct (ok_process _ _ _ Hok proc Hproc) as (p & Hp & _).
  unfold _thread_create_unwrapped. rewrite Hmt. cbn [negb]. cbv zeta. unfold get_process. rewrite Hp.
  cbn [of_option mbind outcome_bind]. unfold set_threads_count, get_process. rewrite Hp. cbn [of_option mbind outcome_bind].
  generalize (zero_words (Z.to_nat (ALIGN stack_size PAGE_SIZE / 4)) (m_stack mem) (stack_words s)). intros w0.
  destruct (fill_stack exit_entry (m_stack mem) stack_size entry_point args w0) as [esp w] eqn:Ew.
  match goal with |- context [thread_add_prepared _ ?S] => set (s1 := S) end.
  match goal with s1 := put_thread _ ?R _ |- _ => set (rt := R) in s1 end.
  destruct (add_thread_ok s s1 xs ps (m_thread mem) rt proc p
    (Process (page_dir p) (u32 (threads_count p + 1)) (pid p) (page_dir_virt p) (name p) (page_tables_virts p)
       (cwd p) (program p))) as (l & -> & Hok'); try done.
  cbn [mbind outcome_bind]. exists (with_lists l s1), rt. split; [done|]. split; [done|].
  split; [apply lookup_insert_eq|]. done.
Qed.

(** A new thread starts at its entry point.  [thread_create] enters it at the end
    of the ring, ready to run and counted by its process; the words it left on the
    stack make the first switch to the thread go to the entry point with interrupts
    enabled, and there the return address is [thread_exit_entrypoint] and the
    arguments follow, the last one first. *)
Theorem new_thread_starts_at_entry exit_entry proc entry_point stack_size flags args mem s xs ps :
  sched_ok s xs ps -> multi_task s = true -> proc ∈ ps ->
  m_thread mem <> 0 -> m_thread mem ∉ xs -> m_thread mem ∉ ps -> Z.of_nat (length xs) + 1 < 2 ^ 32 ->
  4 * (Z.of_nat (length args) + 10) <= stack_size ->
  exists s' r sp, thread_create exit_entry proc entry_point stack_size flags args mem s =
      Done (m_thread mem, s') /\
    sched_ok s' (xs ++ [m_thread mem]) ps /\ threads s' !! m_thread mem = Some r /\
    t_state r = CREATED /\ t_process r = proc /\
    resume (t_esp r) s' = Done (entry_point, 0x202, sp) /\
    m_stack mem <= t_esp r /\ sp <= m_stack mem + stack_size /\
    forall j x, (exit_entry :: rev args) !! j = Some x -> stack_words s' !! (sp + 4 * Z.of_nat j) = Some x.
Proof.
  intros Hok Hmt Hproc Hm0 Hmx Hmp Hlen Hsz.
  destruct (create_unwrapped_spec exit_entry proc entry_point stack_size flags args mem s xs ps Hok Hmt Hproc
    Hm0 Hmx Hmp Hlen) as (s1 & r & E & Hok1 & Hr & Hst & Hp & _ & Hfill).
  pose proof (fill_stack_spec exit_entry (m_stack mem) stack_size entry_point args
    (zero_words (Z.to_nat (ALIGN stack_size PAGE_SIZE / 4)) (m_stack mem) (stack_words s)))
    as (H1 & H2 & H3 & H4 & _).
  rewrite <- Hfill in *. cbn [fst snd] in *.
  unfold thread_create. rewrite Hmt, E. cbn [negb mbind outcome_bind].
  unfold set_state, get_thread. rewrite Hr. cbn [of_option mbind outcome_bind].
  eexists _, _, (t_esp r + 36). split; [reflexivity|]. unfold put_thread, with_threads. cbn [threads stack_words].
  rewrite lookup_insert_eq. split; [|split; [done|cbn [t_state t_process t_esp]; split_and!; try done; try lia]].
  - apply (threads_changed_ok s1); [done|].
    intros x. destruct (decide (x = m_thread mem)) as [->|Hne].
    + rewrite lookup_insert_eq, Hr. done.
    + by rewrite lookup_insert_ne.
  - unfold resume. cbn [stack_words]. by rewrite H2, H3.
Qed.

(** ** Instances *)

(** The kernel with a running, a paused and a ready thread, and a process with one
    dead thread. *)
Definition thread_in (p id : Z) (st : thread_state_t) : thread_t :=
  Thread p THREAD_KERNEL 0x1000 (0x10000 * id) (0x10000 * id + 0xf00) 0x100000 id (0x10000 * id + 0x1000) st
    (0x10000 * id + 0x2000) (0x10000 * id + 0x4000) (0x10000 * id + 0x3000).
Definition process_with (number count : Z) : process_t := Process 0 count number 0 0 [] 0 None.

Definition sched0 : sched :=
  Sched
    (Store {[16 := ListItem 64 32 1; 32 := ListItem 16 48 1; 48 := ListItem 32 64 1; 64 := ListItem 48 16 1;
             256 := ListItem 512 512 2; 512 := ListItem 256 256 2]}
       {[1 := ListHead 16 4; 2 := ListHead 256 2]})
    {[16 := thread_in 256 1 CREATED; 32 := thread_in 256 2 PAUSED; 48 := thread_in 512 3 DEAD;
      64 := thread_in 256 4 CREATED]}
    {[256 := process_with 0 3; 512 := process_with 1 1]} ∅ [] 5 2 16 256 64 true false false [].

Lemma ring_decide s l xs :
  bool_decide (heads s !! l = Some (ListHead (hd 0 xs) (Z.of_nat (length xs)))) = true ->
  bool_decide (NoDup xs) = true -> bool_decide (0 ∈ xs) = false ->
  forallb (fun x => bool_decide (item_list <$> items s !! x = Some l)) xs = true ->
  chain s (closed xs) -> ring s l xs.
Proof.
  intros H1 H2 H3 H4 H5. constructor; try done.
  - by apply bool_decide_eq_true in H1.
  - by apply bool_decide_eq_true in H2.
  - by apply bool_decide_eq_false in H3.
  - apply list.Forall_forall. intros x Hx. rewrite forallb_forall in H4.
    apply list_elem_of_In in Hx. specialize (H4 x Hx). by apply bool_decide_eq_true in H4.
Qed.

Lemma sched0_ok : sched_ok sched0 [16; 32; 48; 64] [256; 512].
Proof.
  constructor.
  - apply ring_decide; [vm_compute; reflexivity..|]. repeat (split; [reflexivity|]). exact I.
  - apply ring_decide; [vm_compute; reflexivity..|]. repeat (split; [reflexivity|]). exact I.
  - set_solver.
  - cbn. lia.
  - intros t Ht. repeat (apply elem_of_cons in Ht as [->|Ht];
      [eexists; split; [reflexivity|apply (bool_decide_unpack _); vm_compute; exact I]|]). by apply not_elem_of_nil in Ht.
  - intros p Hp. repeat (apply elem_of_cons in Hp as [->|Hp]; [eexists; split; reflexivity|]).
    by apply not_elem_of_nil in Hp.
  - split; [apply (bool_decide_unpack _); vm_compute; exact I|reflexivity].
  - split; reflexivity.
Qed.

Lemma scheduler_is_round_robin_witness :
  exists s', task_switch_v2_wrapper 0x1234 sched0 = Done s' /\ current_thread s' = 64.
Proof.
  destruct (scheduler_is_round_robin sched0 [16; 32; 48; 64] [256; 512] [32; 48; 64] [32; 48] 64 [16] 0x1234 sched0_ok)
    as (s1 & xs' & ps' & s' & _ & _ & Hsw & _ & Hc & _); [reflexivity|exists [], [16; 32; 48; 64]; done|reflexivity| |left; reflexivity|].
  - apply Forall_cons_2; [left; reflexivity|]. apply Forall_cons_2; [right; reflexivity|]. apply Forall_nil_2.
  - exists s'. split; [exact Hsw|exact Hc].
Defined.

Lemma process_exists_scans_forward_witness : process_exists 1 sched0 = Done true.
Proof.
  rewrite (process_exists_scans_forward sched0 [16; 32; 48; 64] [256; 512] [512] [512] 256 [] 1 sched0_ok);
    [reflexivity|exists [], [256; 512]; done|reflexivity| |reflexivity].
  apply Forall_cons_2; [vm_compute; discriminate|apply Forall_nil_2].
Defined.

Lemma new_thread_starts_at_entry_witness :
  exists s' r sp, thread_create 0x200000 512 0x100500 0x100 0 [7; 9] (ThreadMemory 80 0x90000 0xa0000 0xb0000) sched0
      = Done (80, s') /\
    threads s' !! 80 = Some r /\ resume (t_esp r) s' = Done (0x100500, 0x202, sp) /\
    stack_words s' !! (sp + 4) = Some 9.
Proof.
  destruct (new_thread_starts_at_entry 0x200000 512 0x100500 0x100 0 [7; 9] (ThreadMemory 80 0x90000 0xa0000 0xb0000)
    sched0 [16; 32; 48; 64] [256; 512] sched0_ok) as (s' & r & sp & H1 & _ & H2 & _ & _ & H3 & _ & _ & H4);
    [reflexivity|apply (bool_decide_unpack _); vm_compute; exact I|discriminate|
     apply (bool_decide_unpack _); vm_compute; exact I|apply (bool_decide_unpack _); vm_compute; exact I|
     cbn; lia|cbn; lia|].
  exists s', r, sp. split; [exact H1|]. split; [exact H2|]. split; [exact H3|].
  exact (H4 1%nat 9 eq_refl).
Defined.
