(* ===== verification/Fs.v ===== *)
(** * File systems, mounts and paths (kernel/src/fs/fsm.c, fs/nvfs.c, lib/fileio.c,
    rust/noct-nvfs)

    A registered file system is a record of operations on the state [W] of the
    disks; the drivers behind the operations, and the list of the disks that the disk
    manager knows, are parameters.  The vectors of the manager hold lists (Vector.v
    proves that they do); the heap blocks of names and mounts are not tracked. *)
From Stdlib Require Import ZArith Lia Ascii.
From stdpp Require Import base list numbers strings sets.
From S2P Require Import Prelude.

#[local] Open Scope Z_scope.

(** ** Data *)

Definition FSM_MOD_READ : Z := 1.
Definition FSM_MOD_WRITE : Z := 2.
Definition FSM_MOD_EXEC : Z := 4.
Definition TYPE_FILE : Z := 0.
Definition TYPE_DIR : Z := 5.

Record FSM_FILE := FsmFile { Ready : bool; Size : Z; Type_ : Z; CHMOD : Z }.
Definition no_file : FSM_FILE := FsmFile false 0 0 0.

Record FSM_DIR := FsmDir {
  dir_Ready : bool;
  CountFiles : Z;
  CountDir : Z;
  CountOther : Z;
  dir_Files : list FSM_FILE
}.

Record FSM_Mount := Mount { diskman_disk_id : string; filesystem_name : string }.

(** What [nvfs_decode] finds out about a path. *)
Record NVFS_DECINFO := DecInfo { d_Ready : bool; d_disk_id : string; d_Path : string; DriverFS : Z }.

Section Manager.
Context {W : Type}.

(** The arguments are the disk, the path, then offset and count, or the type; [Read]
    also gives the bytes that it puts into the buffer. *)
Record FilesystemHandler := Handler {
  Name : string;
  Read : string -> string -> Z -> Z -> W -> Z * list Z;
  Write : string -> string -> Z -> list Z -> W -> Z * W;
  Info : string -> string -> W -> FSM_FILE;
  Dir : string -> string -> W -> FSM_DIR;
  Create : string -> string -> Z -> W -> Z * W;
  Delete : string -> string -> Z -> W -> Z * W;
  Detect : string -> W -> Z
}.

Record manager := Manager {
  registered_filesystems : list FilesystemHandler;
  registered_disks : list FSM_Mount;
  disks : W
}.

(** [diskman_get_disk_id_by_index] of every index below
    [diskman_get_registered_disk_count]. *)
Variable diskman_disk_ids : W -> list string.

Definition with_mounts (m : list FSM_Mount) (s : manager) : manager :=
  Manager (registered_filesystems s) m (disks s).
Definition with_disks (w : W) (s : manager) : manager :=
  Manager (registered_filesystems s) (registered_disks s) w.

(** ** The file system manager *)

Definition fsm_init (s : manager) : manager := Manager [] [] (disks s).

(** [vector_get] of a number given as [int]. *)
Definition handler (FIndex : Z) (s : manager) : option FilesystemHandler :=
  if FIndex <? 0 then None else registered_filesystems s !! Z.to_nat FIndex.

Fixpoint id_by_name (l : list FilesystemHandler) (i : Z) (name : string) : Z :=
  match l with
  | [] => -1
  | h :: l' => if decide (Name h = name) then i else id_by_name l' (i + 1) name
  end.

Definition fsm_getIDbyName (name : string) (s : manager) : Z := id_by_name (registered_filesystems s) 0 name.

Definition fsm_read (FIndex : Z) (disk_name name : string) (Offset Count : Z) (s : manager) : Z * list Z :=
  match handler FIndex s with
  | None => (0, [])
  | Some h => Read h disk_name name Offset Count (disks s)
  end.

Definition fsm_create (FIndex : Z) (disk_name name : string) (Mode : Z) (s : manager) : Z * manager :=
  match handler FIndex s with
  | None => (0, s)
  | Some h => let (r, w) := Create h disk_name name Mode (disks s) in (r, with_disks w s)
  end.

Definition fsm_delete (FIndex : Z) (disk_name name : string) (Mode : Z) (s : manager) : Z * manager :=
  match handler FIndex s with
  | None => (0, s)
  | Some h => let (r, w) := Delete h disk_name name Mode (disks s) in (r, with_disks w s)
  end.

Definition fsm_write (FIndex : Z) (disk_name name : string) (Offset : Z) (data : list Z) (s : manager)
    : Z * manager :=
  match handler FIndex s with
  | None => (0, s)
  | Some h => let (r, w) := Write h disk_name name Offset data (disks s) in (r, with_disks w s)
  end.

Definition fsm_info (FIndex : Z) (disk_name name : string) (s : manager) : FSM_FILE :=
  match handler FIndex s with
  | None => no_file
  | Some h => Info h disk_name name (disks s)
  end.

(** Without a handler the function goes on all the same, through a null pointer. *)
Definition fsm_dir (FIndex : Z) (disk_name name : string) (s : manager) : outcome FSM_DIR :=
  match handler FIndex s with
  | None => Fault
  | Some h => Done (Dir h disk_name name (disks s))
  end.

Definition fsm_reg (h : FilesystemHandler) (s : manager) : manager :=
  Manager (registered_filesystems s ++ [h]) (registered_disks s) (disks s).

Fixpoint find_mount (l : list FSM_Mount) (disk_id : string) : option string :=
  match l with
  | [] => None
  | m :: l' =>
      if decide (diskman_disk_id m = disk_id) then Some (filesystem_name m) else find_mount l' disk_id
  end.

Definition fsm_get_disk_filesystem (disk_id : string) (s : manager) : option string :=
  find_mount (registered_disks s) disk_id.

(** [for(dx = 0; dx < size; dx++)], stepping back after an erasure. *)
Fixpoint detach_loop (fuel : nat) (dx : nat) (disk_id : string) (mounts : list FSM_Mount)
    : outcome (list FSM_Mount) :=
  match fuel with
  | O => Hang
  | S fuel' =>
      match mounts !! dx with
      | None => Done mounts
      | Some m =>
          if decide (diskman_disk_id m = disk_id)
          then detach_loop fuel' dx disk_id (take dx mounts ++ drop (S dx) mounts)
          else detach_loop fuel' (S dx) disk_id mounts
      end
  end.

Definition fsm_detach_fs (disk_id : string) (s : manager) : outcome manager :=
  m ← detach_loop (S (length (registered_disks s))) 0 disk_id (registered_disks s);
  Done (with_mounts m s).

(** The first file system that finds itself on the disk. *)
Fixpoint detect_loop (l : list FilesystemHandler) (disk_id : string) (w : W) : option FSM_Mount :=
  match l with
  | [] => None
  | h :: l' => if Detect h disk_id w =? 1 then Some (Mount disk_id (Name h)) else detect_loop l' disk_id w
  end.

(** The loop of [fsm_detach_fs] is repeated here. *)
Definition fsm_scan_for_filesystem (disk_id : string) (s : manager) : outcome manager :=
  m ← detach_loop (S (length (registered_disks s))) 0 disk_id (registered_disks s);
  let s := with_mounts m s in
  Done (match detect_loop (registered_filesystems s) disk_id (disks s) with
        | Some m => with_mounts (registered_disks s ++ [m]) s
        | None => s
        end).

Fixpoint scan_loop (ids : list string) (s : manager) : outcome manager :=
  match ids with
  | [] => Done s
  | id :: ids' => s' ← fsm_scan_for_filesystem id s; scan_loop ids' s'
  end.

Definition fsm_scan_all_disks (s : manager) : outcome manager :=
  scan_loop (diskman_disk_ids (disks s)) (with_mounts [] s).

Definition fsm_dpm_update (disk_id : option string) (s : manager) : outcome manager :=
  match disk_id with
  | None => fsm_scan_all_disks s
  | Some id => fsm_scan_for_filesystem id s
  end.

(** ** Paths (rust/noct-nvfs/src/lib.rs) *)

Definition continuation (b : Z) : bool := (128 <=? b) && (b <=? 191).
Definition between (a b c : Z) : bool := (a <=? b) && (b <=? c).

(** What [CStr::to_str] accepts. *)
Fixpoint utf8_valid (l : list Z) : bool :=
  match l with
  | [] => true
  | a :: l1 =>
      if a <? 128 then utf8_valid l1
      else match l1 with
      | [] => false
      | b :: l2 =>
          if between 194 a 223 then continuation b && utf8_valid l2
          else match l2 with
          | [] => false
          | c :: l3 =>
              if between 224 a 239 then
                between (if a =? 224 then 160 else 128) b (if a =? 237 then 159 else 191)
                && continuation c && utf8_valid l3
              else match l3 with
              | [] => false
              | d :: l4 =>
                  between 240 a 244
                  && between (if a =? 240 then 144 else 128) b (if a =? 244 then 143 else 191)
                  && continuation c && continuation d && utf8_valid l4
              end
          end
      end
  end.

Fixpoint bytes_of (s : string) : list Z :=
  match s with
  | EmptyString => []
  | String c s' => Z.of_nat (nat_of_ascii c) :: bytes_of s'
  end.

Definition colon : ascii := Eval cbv in ascii_of_nat 58.
Definition slash : ascii := Eval cbv in ascii_of_nat 47.

(** The part of a string before the first [":/"], and what follows it. *)
Fixpoint split_once (s : string) : string * option string :=
  match s with
  | EmptyString => (EmptyString, None)
  | String c s' =>
      match s' with
      | String d s'' =>
          if decide (c = colon /\ d = slash) then (EmptyString, Some s'')
          else let (p, r) := split_once s' in (String c p, r)
      | EmptyString => (s, None)
      end
  end.

Definition no_info : NVFS_DECINFO := DecInfo false EmptyString EmptyString 0.

(** [name.split(":/")] gives the disk and then the path up to a second [":/"].  A name
    that is not UTF-8 and a disk name that is longer than [disk_id[32]] stop the kernel;
    one of 32 bytes leaves [disk_id] without a terminator. *)
Definition nvfs_decode (name : string) (s : manager) : outcome NVFS_DECINFO :=
  if negb (utf8_valid (bytes_of name)) then Fault
  else match split_once name with
  | (_, None) => Done no_info
  | (disk_id, Some rest) =>
      if (32 <=? String.length disk_id)%nat then Fault
      else
        let path := String slash (fst (split_once rest)) in
        match fsm_get_disk_filesystem disk_id s with
        | None => Done (DecInfo false disk_id path 0)
        | Some filesystem_name =>
            let id := fsm_getIDbyName filesystem_name s in
            Done (DecInfo (negb (id =? -1)) disk_id path id)
        end
  end.

(** ** Operations on paths *)

Definition nvfs_read (name : string) (Offset Count : Z) (s : manager) : outcome (Z * list Z) :=
  v ← nvfs_decode name s;
  Done (if d_Ready v then fsm_read (DriverFS v) (d_disk_id v) (d_Path v) Offset Count s else (0, [])).

Definition nvfs_create (name : string) (Mode : Z) (s : manager) : outcome (Z * manager) :=
  v ← nvfs_decode name s;
  Done (if d_Ready v then fsm_create (DriverFS v) (d_disk_id v) (d_Path v) Mode s else (0, s)).

Definition nvfs_delete (name : string) (Mode : Z) (s : manager) : outcome (Z * manager) :=
  v ← nvfs_decode name s;
  Done (if d_Ready v then fsm_delete (DriverFS v) (d_disk_id v) (d_Path v) Mode s else (0, s)).

Definition nvfs_write (name : string) (Offset : Z) (data : list Z) (s : manager) : outcome (Z * manager) :=
  v ← nvfs_decode name s;
  Done (if d_Ready v then fsm_write (DriverFS v) (d_disk_id v) (d_Path v) Offset data s else (0, s)).

Definition nvfs_info (name : string) (s : manager) : outcome FSM_FILE :=
  v ← nvfs_decode name s;
  Done (if d_Ready v then fsm_info (DriverFS v) (d_disk_id v) (d_Path v) s else no_file).

(** When the path is not decoded only [Ready] of the result is set. *)
Definition nvfs_dir_v2 (name : string) (dir : FSM_DIR) (s : manager) : outcome FSM_DIR :=
  v ← nvfs_decode name s;
  if d_Ready v then fsm_dir (DriverFS v) (d_disk_id v) (d_Path v) s
  else Done (FsmDir false (CountFiles dir) (CountDir dir) (CountOther dir) (dir_Files dir)).

(** ** lib/fileio.c *)

Definition is_file (p : string) (s : manager) : outcome bool :=
  f ← nvfs_info p s; Done (Ready f && (Type_ f =? 0)).
Definition is_dir (p : string) (s : manager) : outcome bool :=
  f ← nvfs_info p s; Done (Ready f && (Type_ f =? 5)).
Definition file_exists (p : string) (s : manager) : outcome bool :=
  f ← nvfs_info p s; Done (Ready f).
Definition filesize (p : string) (s : manager) : outcome Z :=
  f ← nvfs_info p s; Done (if Ready f && (Type_ f =? 0) then Size f else 0).

Definition is_readable (p : string) (s : manager) : outcome bool :=
  f ← nvfs_info p s; Done (Ready f && negb (Z.land (CHMOD f) FSM_MOD_READ =? 0)).
Definition is_writable (p : string) (s : manager) : outcome bool :=
  f ← nvfs_info p s; Done (Ready f && negb (Z.land (CHMOD f) FSM_MOD_WRITE =? 0)).
Definition is_executable (p : string) (s : manager) : outcome bool :=
  f ← nvfs_info p s; Done (Ready f && negb (Z.land (CHMOD f) FSM_MOD_EXEC =? 0)).

Definition fileperms (p : string) (s : manager) : outcome Z :=
  f ← nvfs_info p s;
  if Ready f then
    let ret := 0 in
    let ret := if Z.land (CHMOD f) FSM_MOD_READ =? 0 then ret else Z.lor ret FSM_MOD_READ in
    let ret := if Z.land (CHMOD f) FSM_MOD_EXEC =? 0 then ret else Z.lor ret FSM_MOD_EXEC in
    let ret := if Z.land (CHMOD f) FSM_MOD_WRITE =? 0 then ret else Z.lor ret FSM_MOD_WRITE in
    Done (ret * 100 + ret * 10 + ret)
  else Done 0.

(** The results are converted to [bool]. *)
Definition as_bool (r : Z * manager) : outcome (bool * manager) := Done (negb (fst r =? 0), snd r).
Definition touch (p : string) (s : manager) : outcome (bool * manager) :=
  f ← nvfs_info p s;
  if Ready f then Done (false, s) else r ← nvfs_create p TYPE_FILE s; as_bool r.
Definition mkdir (p : string) (s : manager) : outcome (bool * manager) :=
  r ← nvfs_create p TYPE_DIR s; as_bool r.
Definition unlink (p : string) (s : manager) : outcome (bool * manager) :=
  r ← nvfs_delete p 0 s; as_bool r.
Definition rmdir (p : string) (s : manager) : outcome (bool * manager) :=
  r ← nvfs_delete p 1 s; as_bool r.

(** ** Mounts *)

Definition mounted (disk_id : string) (m : FSM_Mount) : Prop := diskman_disk_id m = disk_id.

#[export] Instance mounted_dec disk_id m : Decision (mounted disk_id m).
Proof. unfold mounted. apply _. Defined.

Definition unmount (disk_id : string) (l : list FSM_Mount) : list FSM_Mount :=
  filter (fun m => ~ mounted disk_id m) l.

Lemma detach_loop_spec fuel p q disk_id :
  Forall (fun m => ~ mounted disk_id m) p -> (length q < fuel)%nat ->
  detach_loop fuel (length p) disk_id (p ++ q) = Done (p ++ unmount disk_id q).
Proof.
  revert p q. induction fuel as [|fuel IH]; intros p q Hp Hf; [lia|]. cbn [detach_loop].
  destruct q as [|m q].
  - rewrite app_nil_r, lookup_ge_None_2 by lia. by rewrite app_nil_r.
  - rewrite list_lookup_middle by done. cbn [length] in Hf. unfold unmount.
    assert (p ++ m :: q = (p ++ [m]) ++ q) as Happ by by rewrite <- app_assoc.
    assert (S (length p) = length (p ++ [m])) as Hlen by (rewrite length_app; cbn; lia).
    destruct (decide (diskman_disk_id m = disk_id)) as [E|E].
    + rewrite list.filter_cons_False by (unfold mounted; tauto).
      rewrite take_app_length, Hlen, Happ, drop_app_length. apply IH; [done|lia].
    + rewrite list.filter_cons_True by done.
      rewrite Hlen, Happ, IH; [by rewrite <- app_assoc| |lia]. apply Forall_app_2; [done|]. by apply Forall_cons_2.
Qed.

Lemma detach_all disk_id l : detach_loop (S (length l)) 0 disk_id l = Done (unmount disk_id l).
Proof. apply (detach_loop_spec _ [] l); [done|lia]. Qed.

Lemma fsm_detach_fs_spec disk_id s :
  fsm_detach_fs disk_id s = Done (with_mounts (unmount disk_id (registered_disks s)) s).
Proof. unfold fsm_detach_fs. by rewrite detach_all. Qed.

(** The mount that a scan of one disk enters. *)
Definition detected (s : manager) (disk_id : string) : option FSM_Mount :=
  detect_loop (registered_filesystems s) disk_id (disks s).

Definition option_list {A} (o : option A) : list A := match o with Some a => [a] | None => [] end.

Lemma scan_spec disk_id s :
  fsm_scan_for_filesystem disk_id s =
    Done (with_mounts (unmount disk_id (registered_disks s) ++ option_list (detected s disk_id)) s).
Proof.
  unfold fsm_scan_for_filesystem, detected. rewrite detach_all. cbn [mbind outcome_bind].
  cbn [registered_filesystems disks with_mounts registered_disks].
  destruct (detect_loop _ _ _); [done|]. cbn [option_list]. by rewrite app_nil_r.
Qed.

(** The file system that a disk belongs to: the first one that detects itself on it. *)
Fixpoint owner (l : list FilesystemHandler) (disk_id : string) (w : W) : option FilesystemHandler :=
  match l with
  | [] => None
  | h :: l' => if Detect h disk_id w =? 1 then Some h else owner l' disk_id w
  end.

Lemma detected_owner s disk_id :
  detected s disk_id =
    (fun h => Mount disk_id (Name h)) <$> owner (registered_filesystems s) disk_id (disks s).
Proof.
  unfold detected. induction (registered_filesystems s) as [|h l IH]; [done|]. cbn [detect_loop owner].
  by destruct (_ =? 1).
Qed.

Lemma owner_elem l disk_id w h : owner l disk_id w = Some h -> h ∈ l.
Proof.
  induction l as [|x l IH]; cbn [owner]; [done|].
  destruct (_ =? 1); [intros [= ->]; apply list_elem_of_here|intros E; apply list_elem_of_further; auto].
Qed.

Lemma unmount_none disk_id l : Forall (fun m => ~ mounted disk_id m) l -> unmount disk_id l = l.
Proof.
  induction 1 as [|m l Hm Hl IH]; [done|]. unfold unmount. rewrite list.filter_cons_True by done. f_equal. apply IH.
Qed.

Lemma find_mount_unmounted disk_id l :
  Forall (fun m => ~ mounted disk_id m) l -> find_mount l disk_id = None.
Proof.
  induction 1 as [|m l Hm Hl IH]; [done|]. cbn [find_mount]. by rewrite decide_False.
Qed.

Lemma find_mount_app l l' disk_id :
  find_mount (l ++ l') disk_id =
    match find_mount l disk_id with Some x => Some x | None => find_mount l' disk_id end.
Proof. induction l as [|m l IH]; [done|]. cbn [find_mount app]. by destruct (decide _). Qed.

Lemma unmount_free disk_id l : Forall (fun m => ~ mounted disk_id m) (unmount disk_id l).
Proof. apply list.Forall_forall. intros m Hm. by apply list_elem_of_filter in Hm as [? _]. Qed.

Lemma find_mount_unmount disk_id id l :
  find_mount (unmount disk_id l) id = if decide (id = disk_id) then None else find_mount l id.
Proof.
  destruct (decide (id = disk_id)) as [->|Hne]; [apply find_mount_unmounted, unmount_free|].
  unfold unmount. induction l as [|m l IH]; [done|]. destruct (decide (mounted disk_id m)) as [E|E].
  - rewrite list.filter_cons_False by tauto. rewrite IH. cbn [find_mount].
    rewrite decide_False; [done|]. unfold mounted in E. congruence.
  - rewrite list.filter_cons_True by done. cbn [find_mount]. by rewrite IH.
Qed.

(** At most one mount per disk. *)
Definition one_mount_per_disk (s : manager) : Prop :=
  NoDup (map diskman_disk_id (registered_disks s)).

Lemma unmount_NoDup disk_id l :
  NoDup (map diskman_disk_id l) ->
  NoDup (map diskman_disk_id (unmount disk_id l)) /\ disk_id ∉ map diskman_disk_id (unmount disk_id l).
Proof.
  intros Hnd. split.
  - unfold unmount. induction l as [|m l IH]; [constructor|]. cbn in Hnd. apply list.NoDup_cons in Hnd as [Hm Hnd].
    destruct (decide (mounted disk_id m)).
    + rewrite list.filter_cons_False by tauto. auto.
    + rewrite list.filter_cons_True by done. cbn. apply list.NoDup_cons. split; [|auto].
      contradict Hm. apply list_elem_of_fmap in Hm as (y & -> & Hy).
      apply list_elem_of_fmap. exists y. split; [done|]. by apply list_elem_of_filter in Hy as [_ ?].
  - intros Hin. apply list_elem_of_fmap in Hin as (y & E & Hy). apply list_elem_of_filter in Hy as [Hy _]. by apply Hy.
Qed.

Lemma scan_one_mount disk_id s s' :
  fsm_scan_for_filesystem disk_id s = Done s' -> one_mount_per_disk s -> one_mount_per_disk s'.
Proof.
  rewrite scan_spec. intros [= <-] Hnd. unfold one_mount_per_disk. cbn [registered_disks with_mounts].
  destruct (unmount_NoDup disk_id _ Hnd) as [Hu Hn]. rewrite map_app, detected_owner.
  destruct (owner _ _ _); cbn; [|by rewrite app_nil_r].
  apply list.NoDup_app. split; [done|]. split; [|apply list.NoDup_singleton].
  intros x Hx ->%list_elem_of_singleton. done.
Qed.

(** What a scan of one disk, and of a list of disks, does to the mounts. *)
Definition mounts_of (s : manager) (id : string) : option string :=
  Name <$> owner (registered_filesystems s) id (disks s).

Lemma scan_answers disk_id s :
  exists s', fsm_scan_for_filesystem disk_id s = Done s' /\
    registered_filesystems s' = registered_filesystems s /\ disks s' = disks s /\
    (forall id, fsm_get_disk_filesystem id s' =
       if decide (id = disk_id) then mounts_of s id else fsm_get_disk_filesystem id s) /\
    (one_mount_per_disk s -> one_mount_per_disk s').
Proof.
  eexists. split; [apply scan_spec|]. split; [done|]. split; [done|]. split.
  - intros id. unfold fsm_get_disk_filesystem, mounts_of. cbn [registered_disks with_mounts].
    rewrite find_mount_app, find_mount_unmount, detected_owner. destruct (decide (id = disk_id)) as [->|Hne].
    + destruct (owner _ _ _); cbn; [by rewrite decide_True|done].
    + destruct (find_mount _ id); [done|]. destruct (owner _ _ _); cbn; [|done]. by rewrite decide_False.
  - intros Hone. eapply scan_one_mount; [apply scan_spec|done].
Qed.

Lemma scan_loop_answers ids s :
  exists s', scan_loop ids s = Done s' /\
    registered_filesystems s' = registered_filesystems s /\ disks s' = disks s /\
    (forall id, fsm_get_disk_filesystem id s' =
       if decide (id ∈ ids) then mounts_of s id else fsm_get_disk_filesystem id s) /\
    (one_mount_per_disk s -> one_mount_per_disk s').
Proof.
  revert s. induction ids as [|x ids IH]; intros s.
  - exists s. do 3 (split; [done|]). split; [|done]. intros id. rewrite decide_False; [done|set_solver].
  - destruct (scan_answers x s) as (s1 & E1 & Hf1 & Hd1 & Hg1 & Ho1).
    destruct (IH s1) as (s2 & E2 & Hf2 & Hd2 & Hg2 & Ho2). exists s2. cbn [scan_loop]. rewrite E1. cbn [mbind outcome_bind].
    split; [done|]. split; [congruence|]. split; [congruence|]. split; [|auto].
    intros id. rewrite Hg2, Hg1. unfold mounts_of. rewrite Hf1, Hd1.
    rewrite (decide_ext (id ∈ x :: ids) (id = x \/ id ∈ ids)) by apply elem_of_cons.
    by destruct (decide (id ∈ ids)), (decide (id = x)), (decide (id = x \/ id ∈ ids)); try tauto.
Qed.

(** C16: every update of the mounts returns, for one disk or for all: a scanned disk is
    mounted by the first registered file system that detects itself on it and by no
    other, the other disks stay as they were (or are forgotten by a full scan), a
    detached disk has no file system, and there is never more than one mount per
    disk. *)
Theorem mounts_follow_disks (s : manager) (Hone : one_mount_per_disk s) :
  (forall disk_id, exists s', fsm_dpm_update (Some disk_id) s = Done s' /\ one_mount_per_disk s' /\
     forall id, fsm_get_disk_filesystem id s' =
       if decide (id = disk_id) then Name <$> owner (registered_filesystems s) id (disks s)
       else fsm_get_disk_filesystem id s) /\
  (exists s', fsm_dpm_update None s = Done s' /\ one_mount_per_disk s' /\
     forall id, fsm_get_disk_filesystem id s' =
       if decide (id ∈ diskman_disk_ids (disks s))
       then Name <$> owner (registered_filesystems s) id (disks s) else None) /\
  (forall disk_id, exists s', fsm_detach_fs disk_id s = Done s' /\ one_mount_per_disk s' /\
     forall id, fsm_get_disk_filesystem id s' =
       if decide (id = disk_id) then None else fsm_get_disk_filesystem id s).
Proof.
  split; [|split].
  - intros disk_id. destruct (scan_answers disk_id s) as (s' & E & _ & _ & Hg & Ho). exists s'. auto.
  - destruct (scan_loop_answers (diskman_disk_ids (disks s)) (with_mounts [] s)) as (s' & E & _ & _ & Hg & Ho).
    exists s'. split; [exact E|]. split; [apply Ho; constructor|]. intros id. by rewrite Hg.
  - intros disk_id. eexists. split; [apply fsm_detach_fs_spec|]. split; [by apply unmount_NoDup|].
    intros id. apply find_mount_unmount.
Qed.

(** ** Paths *)

Definition full_name (disk_id rest : string) : string :=
  String.append disk_id (String colon (String slash rest)).

Lemma split_once_cons c c' s :
  split_once (String c (String c' s)) =
    if decide (c = colon /\ c' = slash) then (EmptyString, Some s)
    else let (p, r) := split_once (String c' s) in (String c p, r).
Proof. done. Qed.

Lemma split_once_full disk_id rest :
  snd (split_once disk_id) = None -> split_once (full_name disk_id rest) = (disk_id, Some rest).
Proof.
  unfold full_name. induction disk_id as [|c d IH]; [done|]. intros Hs.
  change (String.append (String c d) ?t) with (String c (String.append d t)). destruct d as [|c' d].
  - change (String.append "" ?t) with t. rewrite split_once_cons, decide_False by (intros [_ ?]; done).
    by rewrite split_once_cons, decide_True.
  - change (String.append (String c' d) ?t) with (String c' (String.append d t)) in IH |- *.
    rewrite split_once_cons in Hs |- *. destruct (decide (c = colon /\ c' = slash)) as [|Hn]; [done|].
    rewrite IH; [done|]. by destruct (split_once (String c' d)).
Qed.

Lemma id_by_name_unique l i h :
  NoDup (map Name l) -> h ∈ l ->
  exists k, (id_by_name l i (Name h) = i + Z.of_nat k)%Z /\ l !! k = Some h.
Proof.
  revert i. induction l as [|x l IH]; intros i Hnd Hin; [by apply not_elem_of_nil in Hin|].
  cbn in Hnd. apply list.NoDup_cons in Hnd as [Hx Hnd]. cbn [id_by_name].
  apply elem_of_cons in Hin as [->|Hin].
  - rewrite decide_True by done. exists 0%nat. split; [lia|done].
  - rewrite decide_False by (intros E; apply Hx; rewrite E; by apply list_elem_of_fmap_2).
    destruct (IH (i + 1) Hnd Hin) as (k & E & Hk). exists (S k). split; [lia|done].
Qed.

Lemma owner_handler s disk_id h :
  NoDup (map Name (registered_filesystems s)) ->
  owner (registered_filesystems s) disk_id (disks s) = Some h ->
  exists i, fsm_getIDbyName (Name h) s = i /\ i <> -1 /\ handler i s = Some h.
Proof.
  intros Hnd Ho. eapply owner_elem in Ho. eapply (id_by_name_unique _ 0) in Ho as (k & E & Hk); [|done].
  exists (Z.of_nat k). unfold fsm_getIDbyName, handler. rewrite E. split; [lia|]. split; [lia|].
  destruct (Z.ltb_spec (Z.of_nat k) 0); [lia|]. by rewrite Nat2Z.id.
Qed.

(** Names that [nvfs_decode] takes: UTF-8, a disk without [":/"] that fits its array. *)
Record decodable (disk_id rest : string) : Prop := Decodable {
  dec_utf8 : utf8_valid (bytes_of (full_name disk_id rest)) = true;
  dec_disk : snd (split_once disk_id) = None;
  dec_length : (String.length disk_id < 32)%nat
}.

Lemma decode_full disk_id rest s :
  decodable disk_id rest ->
  nvfs_decode (full_name disk_id rest) s =
    let path := String slash (fst (split_once rest)) in
    Done (match fsm_get_disk_filesystem disk_id s with
          | None => DecInfo false disk_id path 0
          | Some n => let id := fsm_getIDbyName n s in DecInfo (negb (id =? -1)) disk_id path id
          end).
Proof.
  intros [Hu Hd Hl]. unfold nvfs_decode. rewrite Hu, split_once_full by done. cbn [negb].
  destruct (Nat.leb_spec 32 (String.length disk_id)); [lia|]. by destruct (fsm_get_disk_filesystem _ _).
Qed.

(** C17: after a full scan every operation on ["disk:/path"] is the operation of the first
    file system that detects itself on that disk, on the path behind a slash and up to
    a second [":/"]; a disk that nobody knows, or that no file system detects, has no
    files: reads give nothing, changes fail and change nothing. *)
Theorem paths_reach_the_owner (s s' : manager) (disk_id rest : string)
    (Hnames : NoDup (map Name (registered_filesystems s)))
    (Hscan : fsm_dpm_update None s = Done s') (Hdec : decodable disk_id rest) :
  let name := full_name disk_id rest in
  let path := String slash (fst (split_once rest)) in
  match (if decide (disk_id ∈ diskman_disk_ids (disks s))
         then owner (registered_filesystems s) disk_id (disks s) else None) with
  | Some h =>
      (forall off n, nvfs_read name off n s' = Done (Read h disk_id path off n (disks s))) /\
      nvfs_info name s' = Done (Info h disk_id path (disks s)) /\
      (forall dir, nvfs_dir_v2 name dir s' = Done (Dir h disk_id path (disks s))) /\
      (forall off data, nvfs_write name off data s' =
         Done (let (r, w) := Write h disk_id path off data (disks s) in (r, with_disks w s'))) /\
      (forall ty, nvfs_create name ty s' =
         Done (let (r, w) := Create h disk_id path ty (disks s) in (r, with_disks w s'))) /\
      (forall ty, nvfs_delete name ty s' =
         Done (let (r, w) := Delete h disk_id path ty (disks s) in (r, with_disks w s')))
  | None =>
      (forall off n, nvfs_read name off n s' = Done (0, [])) /\ nvfs_info name s' = Done no_file /\
      (forall off data, nvfs_write name off data s' = Done (0, s')) /\
      (forall ty, nvfs_create name ty s' = Done (0, s') /\ nvfs_delete name ty s' = Done (0, s'))
  end.
Proof.
  intros name path. destruct (scan_loop_answers (diskman_disk_ids (disks s)) (with_mounts [] s))
    as (x & E & Hf & Hd & Hg & _).
  assert (x = s') as -> by (cbn [fsm_dpm_update] in Hscan; unfold fsm_scan_all_disks in Hscan; congruence).
  specialize (Hg disk_id). pose proof (decode_full disk_id rest s' Hdec) as Hn. rewrite Hg in Hn.
  unfold mounts_of in Hn. cbn [registered_filesystems disks with_mounts] in *.
  change (fsm_get_disk_filesystem disk_id (with_mounts [] s)) with (@None string) in Hn.
  unfold nvfs_read, nvfs_info, nvfs_dir_v2, nvfs_write, nvfs_create, nvfs_delete. unfold name. rewrite Hn. clear Hn.
  destruct (decide (disk_id ∈ diskman_disk_ids (disks s))) as [Hi|Hi]; [|done].
  destruct (owner _ _ _) as [h|] eqn:Ho; [|done]. cbn [fmap option_fmap option_map mbind outcome_bind].
  destruct (owner_handler s' disk_id h) as (i & Hi1 & Hi2 & Hi3); [by rewrite Hf|by rewrite Hf, Hd|].
  cbv zeta. rewrite Hi1. destruct (Z.eqb_spec i (-1)); [done|]. cbn [negb d_Ready d_disk_id d_Path DriverFS].
  unfold fsm_read, fsm_info, fsm_dir, fsm_write, fsm_create, fsm_delete. rewrite Hi3, Hd.
  by repeat split.
Qed.

End Manager.
Arguments FilesystemHandler W : clear implicits.
Arguments manager W : clear implicits.

(** ** Examples *)

(** A file system with one file, whose bytes are the state. *)
Definition overwrite (l : list Z) (off : Z) (data : list Z) : list Z :=
  take (Z.to_nat off) l ++ data ++ drop (Z.to_nat off + length data) l.

Definition one_file : FilesystemHandler (list Z) :=
  Handler "ram"
    (fun _ _ off n w =>
       let d := take (Z.to_nat n) (drop (Z.to_nat off) w) in (Z.of_nat (length d), d))
    (fun _ _ off data w => (Z.of_nat (length data), overwrite w off data))
    (fun _ _ w => FsmFile true (Z.of_nat (length w)) TYPE_FILE 7)
    (fun _ _ _ => FsmDir true 0 0 0 [])
    (fun _ _ _ w => (1, w))
    (fun _ _ _ w => (0, w))
    (fun disk _ => if decide (disk = "rd0"%string) then 1 else 0).

Definition one_disk (w : list Z) : list string := ["hd0"; "rd0"]%string.

Definition one_file_manager : manager (list Z) := Manager [one_file] [Mount "hd0" "ram"] [10; 20; 30].

Lemma mounts_follow_disks_witness :
  one_mount_per_disk one_file_manager /\
  exists s', fsm_dpm_update one_disk None one_file_manager = Done s' /\ one_mount_per_disk s' /\
    fsm_get_disk_filesystem "rd0" s' = Some "ram"%string /\ fsm_get_disk_filesystem "hd0" s' = None.
Proof.
  assert (one_mount_per_disk one_file_manager) as H by apply list.NoDup_singleton. split; [exact H|].
  destruct (mounts_follow_disks one_disk one_file_manager H) as (_ & (s' & E & Ho & Hg) & _).
  exists s'. split; [exact E|]. split; [exact Ho|]. rewrite !Hg. split; reflexivity.
Defined.

Lemma paths_reach_the_owner_witness :
  fsm_dpm_update one_disk None one_file_manager = Done (Manager [one_file] [Mount "rd0" "ram"] [10; 20; 30]) /\
  nvfs_read "rd0:/a/b" 1 2 (Manager [one_file] [Mount "rd0" "ram"] [10; 20; 30]) = Done (2, [20; 30]).
Proof.
  assert (fsm_dpm_update one_disk None one_file_manager
          = Done (Manager [one_file] [Mount "rd0" "ram"] [10; 20; 30])) as E by (vm_compute; reflexivity).
  split; [exact E|].
  pose proof (paths_reach_the_owner one_disk one_file_manager _ "rd0" "a/b"
    (list.NoDup_singleton "ram"%string) E ltac:(split; [reflexivity|reflexivity|cbn; lia])) as H.
  cbv zeta in H. destruct (decide _) as [Hin|Hin] in H.
  - exact (proj1 H 1 2).
  - exfalso. apply Hin. apply list_elem_of_further, list_elem_of_here.
Defined.
