(* ===== verification/Files.v ===== *)
(** * Streams and descriptors (kernel/src/lib/stdio.c, sys/file_descriptors.c)

    A [FILE] is a record; those that descriptors point to live in a store indexed by
    their addresses.  Everything below goes through the paths of Fs.v. *)
From Stdlib Require Import ZArith Lia.
From stdpp Require Import base list gmap numbers strings.
From S2P Require Import Prelude Fs.

#[local] Open Scope Z_scope.

(** ** Data *)

Definition O_CREATE : Z := 4.
Definition SEEK_SET : Z := 0.
Definition SEEK_CUR : Z := 1.
Definition SEEK_END : Z := 2.
Definition STDIO_ERR_NOT_FOUND : Z := 1.
Definition STDIO_ERR_MODE_ERROR : Z := 2.
Definition STDIO_ERR_SIZE : Z := 3.
Definition STDIO_ERR_FILE : Z := 4.

Record FILE := File {
  path : string;
  size : Z;
  fmode : Z;
  open : bool;
  pos : Z;
  err : Z
}.

Definition with_err (e : Z) (f : FILE) : FILE := File (path f) (size f) (fmode f) (open f) (pos f) e.
Definition with_pos (p : Z) (f : FILE) : FILE := File (path f) (size f) (fmode f) (open f) p (err f).
Definition with_size (n : Z) (f : FILE) : FILE := File (path f) n (fmode f) (open f) (pos f) (err f).

Record fd_info := FdInfo { fd : Z; file : Z }.

Section Streams.
Context {W : Type}.

(** ** lib/stdio.c *)

Definition fcheckerror (stream : FILE) (m : manager W) : outcome FILE :=
  finfo ← nvfs_info (path stream) m;
  Done (if negb (Ready finfo) then with_err STDIO_ERR_NOT_FOUND stream
        else if fmode stream =? 0 then with_err STDIO_ERR_MODE_ERROR stream
        else if size stream <=? 0 then with_err STDIO_ERR_SIZE stream
        else if negb (open stream) then with_err STDIO_ERR_FILE stream
        else stream).

Definition ferror (stream : FILE) : Z := err stream.

(** The new [FILE], unless the file is not there and cannot be made. *)
Definition fopen (filename : string) (mode : Z) (m : manager W) : outcome (option FILE * manager W) :=
  finfo ← nvfs_info filename m;
  x ← (if negb (Ready finfo) && negb (Z.land mode O_CREATE =? 0) then
         r ← nvfs_create filename TYPE_FILE m;
         finfo ← nvfs_info filename (snd r);
         Done (finfo, snd r)
       else Done (finfo, m));
  Done (if negb (Ready (fst x)) || (mode =? 0) then (None, snd x)
        else (Some (File filename (u32 (Size (fst x))) mode true 0 0), snd x)).

Definition fsize (stream : FILE) (m : manager W) : outcome (Z * FILE) :=
  if negb (open stream) || (size stream <=? 0) || (fmode stream =? 0)
  then f ← fcheckerror stream m; Done (-1, f)
  else Done (s32 (size stream), stream).

(** The result, the bytes that were put into the buffer, the stream afterwards. *)
Definition fread (stream : FILE) (count size_ : Z) (m : manager W) : outcome (Z * list Z * FILE) :=
  finfo ← nvfs_info (path stream) m;
  if negb (open stream) || negb (Ready finfo) || (size stream <=? 0) || (fmode stream =? 0)
  then f ← fcheckerror stream m; Done (-1, [], f)
  else
    let n := u32 (size_ * count) in
    r ← nvfs_read (path stream) (pos stream) n m;
    let res := u32 (fst r) in
    Done (s32 res, snd r, if 0 <? res then with_pos (u32 (pos stream + n)) stream else stream).

Definition ftell (stream : FILE) (m : manager W) : outcome (Z * FILE) :=
  if negb (open stream) || (fmode stream =? 0) then f ← fcheckerror stream m; Done (-1, f)
  else Done (s32 (pos stream), stream).

(** The end of [fseek]: a position that is not in [1..size] is silently ignored. *)
Definition seek_to (lsk offset : Z) (stream : FILE) : FILE :=
  if (0 <? u32 (lsk + offset)) && (u32 (lsk + offset) <=? size stream)
  then with_pos (u32 (lsk + offset)) stream else stream.

Definition fseek (stream : FILE) (offset whence : Z) (m : manager W) : outcome (Z * FILE) :=
  if negb (open stream) || (size stream =? 0) || (fmode stream =? 0)
  then f ← fcheckerror stream m; Done (-1, f)
  else if whence =? SEEK_CUR then Done (0, seek_to (pos stream) offset stream)
  else if whence =? SEEK_END then Done (0, seek_to (size stream) offset stream)
  else if whence =? SEEK_SET then
    if (0 <=? offset) && (offset <=? size stream) then Done (0, with_pos offset stream)
    else Done (0, seek_to 0 offset stream)
  else Done (-1, stream).

Definition rewind (stream : FILE) (m : manager W) : outcome FILE :=
  f ← (if negb (open stream) || (size stream <=? 0) || (fmode stream =? 0)
       then fcheckerror stream m else Done stream);
  Done (with_pos 0 f).

(** [ptr] holds the [size * count] bytes; the recorded size becomes as large as the
    write reaches. *)
Definition fwrite (stream : FILE) (ptr : list Z) (m : manager W) : outcome (Z * FILE * manager W) :=
  let n := Z.of_nat (length ptr) in
  let stream := if size stream <? u32 (pos stream + n) then with_size (u32 (pos stream + n)) stream else stream in
  r ← nvfs_write (path stream) (pos stream) ptr m;
  Done (u32 (-1), if 0 <? u32 (fst r) then with_pos (u32 (pos stream + n)) stream else stream, snd r).

(** ** sys/file_descriptors.c *)

Record system := System {
  fs : manager W;
  files : gmap Z FILE;
  descriptors : list fd_info;
  last_descriptor_number : Z
}.

Definition file_descriptors_init (s : system) : system :=
  System (fs s) (files s) [] (last_descriptor_number s).

(** [addr] is the block of the new [FILE]; the result is what [*out] becomes. *)
Definition file_descriptor_allocate (filename : string) (mode addr : Z) (s : system) : outcome (Z * system) :=
  r ← fopen filename mode (fs s);
  match r with
  | (None, m) => Done (-1, System m (files s) (descriptors s) (last_descriptor_number s))
  | (Some f, m) =>
      let number := last_descriptor_number s in
      Done (number, System m (<[addr := f]> (files s)) (descriptors s ++ [FdInfo number addr]) (s32 (number + 1)))
  end.

Fixpoint find_fd (l : list fd_info) (number : Z) : option fd_info :=
  match l with
  | [] => None
  | i :: l' => if fd i =? number then Some i else find_fd l' number
  end.

Definition file_descriptor_get (number : Z) (s : system) : option fd_info := find_fd (descriptors s) number.

Definition fd_in_range (number : Z) (s : system) : bool :=
  (0 <=? number) && (number <? last_descriptor_number s).

(** The stream of a descriptor: nothing for a number that is not open. *)
Definition fd_stream (number : Z) (s : system) : outcome (option (Z * FILE)) :=
  if negb (fd_in_range number s) then Done None
  else match file_descriptor_get number s with
       | None => Done None
       | Some i => f ← of_option (files s !! file i); Done (Some (file i, f))
       end.

Definition set_stream (a : Z) (f : FILE) (m : manager W) (s : system) : system :=
  System m (<[a := f]> (files s)) (descriptors s) (last_descriptor_number s).

Definition file_descriptor_read (number count : Z) (s : system) : outcome (list Z * system) :=
  x ← fd_stream number s;
  match x with
  | None => Done ([], s)
  | Some (a, f) => r ← fread f count 1 (fs s); Done (snd (fst r), set_stream a (snd r) (fs s) s)
  end.

Definition file_descriptor_write (number : Z) (buffer : list Z) (s : system) : outcome system :=
  x ← fd_stream number s;
  match x with
  | None => Done s
  | Some (a, f) => r ← fwrite f buffer (fs s); Done (set_stream a (snd (fst r)) (snd r) s)
  end.

Definition file_descriptor_seek (number value whence : Z) (s : system) : outcome system :=
  x ← fd_stream number s;
  match x with
  | None => Done s
  | Some (a, f) => r ← fseek f value (u8 whence) (fs s); Done (set_stream a (snd r) (fs s) s)
  end.

Definition file_descriptor_tell (number out : Z) (s : system) : outcome (Z * system) :=
  x ← fd_stream number s;
  match x with
  | None => Done (out, s)
  | Some (a, f) => r ← ftell f (fs s); Done (fst r, set_stream a (snd r) (fs s) s)
  end.

Fixpoint close_loop (l : list fd_info) (number : Z) : option (fd_info * list fd_info) :=
  match l with
  | [] => None
  | i :: l' =>
      if fd i =? number then Some (i, l')
      else match close_loop l' number with Some (x, r) => Some (x, i :: r) | None => None end
  end.

(** [fclose] frees the stream. *)
Definition file_descriptor_close (number : Z) (s : system) : system :=
  if negb (fd_in_range number s) then s
  else match close_loop (descriptors s) number with
       | None => s
       | Some (i, r) => System (fs s) (delete (file i) (files s)) r (last_descriptor_number s)
       end.

(** ** Positions *)

(** [FILE]s whose fields are in the range of their C types, with a size and a position
    that an [int] can show. *)
Record stream_ok (f : FILE) : Prop := StreamOk {
  ok_open : open f = true;
  ok_mode : fmode f <> 0;
  ok_size : 0 < size f < 2 ^ 31;
  ok_pos : 0 <= pos f <= size f
}.

Definition seek_base (f : FILE) (whence : Z) : Z :=
  if whence =? SEEK_CUR then pos f else if whence =? SEEK_END then size f else 0.

Lemma seek_to_spec f lsk offset :
  0 < size f < 2 ^ 31 -> 0 <= lsk < 2 ^ 31 -> - 2 ^ 31 <= offset < 2 ^ 31 ->
  seek_to lsk offset f =
    if (0 <? lsk + offset) && (lsk + offset <=? size f) then with_pos (lsk + offset) f else f.
Proof.
  intros Hs Hl Ho. unfold seek_to. destruct (Z.lt_ge_cases (lsk + offset) 0) as [Hneg|Hpos].
  - assert (u32 (lsk + offset) = lsk + offset + 2 ^ 32) as ->.
    { unfold u32. rewrite <- (Z_mod_plus_full _ 1). apply Z.mod_small. lia. }
    destruct (Z.leb_spec (lsk + offset + 2 ^ 32) (size f)); [lia|].
    destruct (Z.ltb_spec 0 (lsk + offset)); [lia|]. by rewrite andb_false_r.
  - by rewrite u32_small by lia.
Qed.

Lemma usable_test f : stream_ok f -> negb (open f) || (size f =? 0) || (fmode f =? 0) = false.
Proof.
  intros [-> Hm Hs _]. destruct (Z.eqb_spec (size f) 0); [lia|]. by destruct (Z.eqb_spec (fmode f) 0).
Qed.

(** C18: on an open stream whose size an [int] can show, a seek relative to the start, the
    current position or the end goes to its target exactly when the target lies in
    the file, except that a seek relative to the position or the end never reaches
    0; every such seek answers 0, also when it did nothing, any other whence answers
    -1, the position never leaves the file, and [ftell] and [fsize] answer the
    position and the size. *)
Theorem fseek_moves_inside (f : FILE) (m : manager W) (offset whence : Z)
    (Hf : stream_ok f) (Ho : - 2 ^ 31 <= offset < 2 ^ 31) :
  exists r f', fseek f offset whence m = Done (r, f') /\
    r = (if (0 <=? whence) && (whence <=? 2) then 0 else -1) /\
    (let target := seek_base f whence + offset in
     f' = if (0 <=? whence) && (whence <=? 2) && (0 <=? target) && (target <=? size f)
             && negb ((target =? 0) && negb (whence =? SEEK_SET))
          then with_pos target f else f) /\
    stream_ok f' /\ ftell f' m = Done (pos f', f') /\ fsize f' m = Done (size f, f').
Proof.
  assert (forall f', f' = f \/ (exists t, 0 <= t <= size f /\ f' = with_pos t f) ->
    stream_ok f' /\ ftell f' m = Done (pos f', f') /\ fsize f' m = Done (size f, f')) as Hafter.
  { pose proof Hf as [E Hm Hs Hp]. intros f' [-> | (t & Ht & ->)];
      (split; [by destruct Hf|]); unfold ftell, fsize; cbn [open fmode size pos with_pos]; rewrite E; cbn [negb orb];
      (destruct (Z.eqb_spec (fmode f) 0); [done|]); (destruct (Z.leb_spec (size f) 0); [lia|]);
      by rewrite !s32_small by lia. }
  pose proof Hf as [E Hm Hs Hp].
  assert (forall lsk, 0 <= lsk <= size f -> forall b, (b = true -> lsk + offset <> 0) ->
    exists f', seek_to lsk offset f = f' /\
      f' = (if (0 <=? lsk + offset) && (lsk + offset <=? size f) && negb ((lsk + offset =? 0) && negb b)
            then with_pos (lsk + offset) f else f) /\
      stream_ok f' /\ ftell f' m = Done (pos f', f') /\ fsize f' m = Done (size f, f')) as Hseek.
  { intros lsk Hl b Hb. eexists. split; [reflexivity|]. rewrite seek_to_spec by lia. split.
    - destruct (Z.ltb_spec 0 (lsk + offset)), (Z.leb_spec 0 (lsk + offset)), (Z.eqb_spec (lsk + offset) 0), b;
        cbn [andb negb]; rewrite ?andb_true_r, ?andb_false_r; try lia; done.
    - apply Hafter. destruct (Z.ltb_spec 0 (lsk + offset)), (Z.leb_spec (lsk + offset) (size f)); cbn [andb]; auto.
      right. exists (lsk + offset). split; [lia|done]. }
  unfold fseek. rewrite usable_test by done. unfold seek_base.
  destruct (Z.eqb_spec whence SEEK_CUR) as [->|Hc]; [|destruct (Z.eqb_spec whence SEEK_END) as [->|He]].
  - destruct (Hseek (pos f) ltac:(lia) false ltac:(done)) as (f' & -> & Hf' & Hrest). exists 0, f'. by (split; [done|]; split; [done|]; split; [exact Hf'|exact Hrest]).
  - destruct (Hseek (size f) ltac:(lia) false ltac:(done)) as (f' & -> & Hf' & Hrest). exists 0, f'. by (split; [done|]; split; [done|]; split; [exact Hf'|exact Hrest]).
  - destruct (Z.eqb_spec whence SEEK_SET) as [->|Hn].
    + destruct (Z.leb_spec 0 offset), (Z.leb_spec offset (size f)); cbn [andb].
      1: { exists 0, (with_pos offset f). split; [done|]. split; [done|]. split.
           - cbv zeta. change (0 + offset) with offset. destruct (Z.leb_spec 0 offset), (Z.leb_spec offset (size f)); try lia.
             cbn [andb negb]. by rewrite andb_false_r.
           - apply Hafter. right. exists offset. split; [lia|done]. }
      all: destruct (Hseek 0 ltac:(lia) true ltac:(lia)) as (f' & -> & Hf' & Hrest); exists 0, f'; by (split; [done|]; split; [done|]; split; [exact Hf'|exact Hrest]).
    + exists (-1), f. split; [done|]. unfold SEEK_CUR, SEEK_END, SEEK_SET in *.
      destruct (Z.leb_spec 0 whence), (Z.leb_spec whence 2); try lia; cbn [andb]; (do 2 (split; [done|])); apply Hafter; by left.
Qed.

(** ** Contents *)

(** What the C code relies on in a driver, for one file: [contents] is the sequence of
    its bytes. *)
Record driver_law (h : FilesystemHandler W) (disk p : string) (contents : W -> list Z) : Prop := DriverLaw {
  law_read : forall off n w, 0 <= off -> 0 <= n ->
    let d := take (Z.to_nat n) (drop (Z.to_nat off) (contents w)) in
    Read h disk p off n w = (Z.of_nat (length d), d);
  law_write : forall off data w, 0 <= off <= Z.of_nat (length (contents w)) ->
    exists w', Write h disk p off data w = (Z.of_nat (length data), w') /\
      contents w' = overwrite (contents w) off data;
  law_info : forall w, Ready (Info h disk p w) = true
}.

(** The name of a stream leads to the file of a driver that keeps the law. *)
Record leads_to (name : string) (contents : W -> list Z) (m : manager W) : Prop := LeadsTo {
  lead_law : exists disk p i h, nvfs_decode name m = Done (DecInfo true disk p i) /\
    handler i m = Some h /\ driver_law h disk p contents
}.

Lemma leads_to_disks name contents m w :
  leads_to name contents m -> leads_to name contents (with_disks w m).
Proof. intros [H]. constructor. exact H. Qed.

Lemma overwrite_read l off data :
  (off <= length l)%nat -> take (length data) (drop off (overwrite l (Z.of_nat off) data)) = data.
Proof.
  intros Hoff. unfold overwrite. rewrite Nat2Z.id.
  rewrite drop_app_length' by (rewrite length_take; lia). apply take_app_length.
Qed.

(** [fread] gives the bytes of the file from the position on. *)
Lemma fread_contents f contents m count :
  stream_ok f -> leads_to (path f) contents m -> 0 <= count < 2 ^ 31 ->
  let d := take (Z.to_nat count) (drop (Z.to_nat (pos f)) (contents (disks m))) in
  fread f count 1 m =
    Done (Z.of_nat (length d), d, if 0 <? Z.of_nat (length d) then with_pos (u32 (pos f + count)) f else f).
Proof.
  intros Hf [(disk & p & i & h & Hd & Hh & Hlaw)] Hc d. unfold fread, nvfs_info, nvfs_read. rewrite Hd.
  cbn [mbind outcome_bind d_Ready DriverFS d_disk_id d_Path]. unfold fsm_info, fsm_read. rewrite Hh, (law_info _ _ _ _ Hlaw).
  pose proof Hf as [E Hm Hs Hp]. rewrite E. cbn [negb orb].
  destruct (Z.leb_spec (size f) 0); [lia|]. destruct (Z.eqb_spec (fmode f) 0); [done|]. cbn [orb].
  rewrite Z.mul_1_l, (u32_small count) by lia. rewrite (law_read _ _ _ _ Hlaw) by lia. fold d. cbn [fst snd].
  assert (0 <= Z.of_nat (length d) < 2 ^ 31) by (unfold d; rewrite length_take; lia).
  by rewrite u32_small, s32_small by lia.
Qed.

Lemma fwrite_contents f contents m data :
  open f = true -> 0 <= size f < 2 ^ 31 -> leads_to (path f) contents m ->
  data <> [] -> 0 <= pos f <= Z.of_nat (length (contents (disks m))) -> pos f + Z.of_nat (length data) < 2 ^ 31 ->
  exists w, fwrite f data m =
      Done (2 ^ 32 - 1, File (path f) (Z.max (size f) (pos f + Z.of_nat (length data))) (fmode f) true
              (pos f + Z.of_nat (length data)) (err f), with_disks w m) /\
    contents w = overwrite (contents (disks m)) (pos f) data.
Proof.
  intros E Hs [(disk & p & i & h & Hd & Hh & Hlaw)] Hne Hp Hlen.
  destruct (law_write _ _ _ _ Hlaw (pos f) data (disks m) Hp) as (w & Ew & Hw). exists w. split; [|done].
  assert (0 < length data)%nat by (destruct data; [done|cbn; lia]).
  unfold fwrite. rewrite !(u32_small (pos f + _)) by lia.
  assert (nvfs_write (path f) (pos f) data m = Done (Z.of_nat (length data), with_disks w m)) as Hwr.
  { unfold nvfs_write. rewrite Hd. cbn [mbind outcome_bind d_Ready DriverFS d_disk_id d_Path].
    unfold fsm_write. by rewrite Hh, Ew. }
  destruct f as [fp fsz fm fo fpos fe]. cbn [path size fmode open pos err] in *. subst fo.
  destruct (Z.ltb_spec fsz (fpos + Z.of_nat (length data)));
    cbn [with_size path pos open fmode err size]; rewrite Hwr;
    cbn [mbind outcome_bind fst snd]; rewrite (u32_small (Z.of_nat _)) by lia;
    (destruct (Z.ltb_spec 0 (Z.of_nat (length data))); [|lia]); unfold with_pos, with_size; cbn [path pos open fmode err size];
    change (u32 (-1)) with (2 ^ 32 - 1); rewrite (u32_small (fpos + _)) by lia;
    [rewrite Z.max_r by lia|rewrite Z.max_l by lia]; done.
Qed.

(** What a write leaves is found again behind a seek. *)
Lemma write_then_read (f : FILE) (contents : W -> list Z) (m : manager W) (data : list Z)
    (Hf : open f = true /\ fmode f <> 0 /\ 0 <= size f < 2 ^ 31)
    (Hlead : leads_to (path f) contents m) (Hdata : data <> [])
    (Hpos : 0 <= pos f <= Z.of_nat (length (contents (disks m))))
    (Hlen : pos f + Z.of_nat (length data) < 2 ^ 31) :
  let n := Z.of_nat (length data) in
  exists w f1 f2 f3, let m1 := with_disks w m in
    fwrite f data m = Done (2 ^ 32 - 1, f1, m1) /\
    contents (disks m1) = overwrite (contents (disks m)) (pos f) data /\
    pos f1 = pos f + n /\ size f1 = Z.max (size f) (pos f + n) /\
    fseek f1 (pos f) SEEK_SET m1 = Done (0, f2) /\
    fread f2 n 1 m1 = Done (n, data, f3) /\ pos f3 = pos f + n /\
    (forall count, 0 <= count < 2 ^ 31 - pos f ->
       let d := take (Z.to_nat count) (drop (Z.to_nat (pos f)) (contents (disks m1))) in
       exists f4, fread f2 count 1 m1 = Done (Z.of_nat (length d), d, f4) /\
         pos f4 = if bool_decide (d = []) then pos f else pos f + count).
Proof.
  intros n. destruct Hf as (E & Hm & Hs). assert (0 < n) by (unfold n; destruct data; [done|cbn; lia]).
  destruct (fwrite_contents f contents m data E Hs Hlead Hdata Hpos Hlen) as (w & Ew & Hw). fold n in Ew.
  set (f1 := File _ _ _ _ _ _) in Ew. set (f2 := with_pos (pos f) f1).
  assert (stream_ok f2) as Hok2 by (constructor; cbn; [done|done|lia|lia]).
  assert (leads_to (path f2) contents (with_disks w m)) as Hlead2 by by apply leads_to_disks.
  exists w, f1, f2. cbv zeta.
  pose proof (fread_contents f2 contents _ n Hok2 Hlead2 ltac:(lia)) as Hr.
  cbn [disks with_disks] in Hr. change (pos f2) with (pos f) in Hr. rewrite Hw in Hr. cbv zeta in Hr.
  assert (take (Z.to_nat n) (drop (Z.to_nat (pos f)) (overwrite (contents (disks m)) (pos f) data)) = data) as Hd.
  { rewrite <- (Z2Nat.id (pos f)) at 2 by lia. unfold n. rewrite Nat2Z.id. apply overwrite_read. lia. }
  rewrite Hd in Hr. fold n in Hr. destruct (Z.ltb_spec 0 n); [|lia]. rewrite (u32_small (pos f + n)) in Hr by lia.
  eexists. split; [exact Ew|]. split; [exact Hw|]. split; [done|]. split; [done|]. split.
  { unfold fseek. rewrite usable_test by (constructor; cbn; [done|done|lia|lia]). cbn.
    destruct (Z.leb_spec 0 (pos f)), (Z.leb_spec (pos f) (Z.max (size f) (pos f + n))); done || lia. }
  split; [exact Hr|]. split; [done|]. intros count Hc.
  set (d := take (Z.to_nat count) (drop (Z.to_nat (pos f)) (contents (disks (with_disks w m))))).
  pose proof (fread_contents f2 contents (with_disks w m) count Hok2 Hlead2 ltac:(lia)) as Hr'.
  cbv zeta in Hr'. change (pos f2) with (pos f) in Hr'. fold d in Hr'. eexists. split; [exact Hr'|].
  destruct (bool_decide_reflect (d = [])) as [Hd0|Hd0].
  - rewrite Hd0. done.
  - destruct (Z.ltb_spec 0 (Z.of_nat (length d))); [|destruct d; [done|cbn in *; lia]].
    cbn. by rewrite u32_small by lia.
Qed.

(** Bytes written through a stream are read back from the place they were written to;
    they replace or extend exactly that part of the file; the recorded size grows with
    the write.  A read gives what the file has from the position on, but advances by
    the whole count even when it was short, and [fwrite] never answers the number of
    bytes. *)
Theorem fwrite_fread_roundtrip (f : FILE) (contents : W -> list Z) (m : manager W) (data : list Z)
    (Hf : open f = true /\ fmode f <> 0 /\ 0 <= size f < 2 ^ 31)
    (Hlead : leads_to (path f) contents m) (Hdata : data <> [])
    (Hpos : 0 <= pos f <= Z.of_nat (length (contents (disks m))))
    (Hlen : pos f + Z.of_nat (length data) < 2 ^ 31) :
  let n := Z.of_nat (length data) in
  exists f1 m1 f2 f3,
    fwrite f data m = Done (2 ^ 32 - 1, f1, m1) /\
    contents (disks m1) = overwrite (contents (disks m)) (pos f) data /\
    pos f1 = pos f + n /\ size f1 = Z.max (size f) (pos f + n) /\
    fseek f1 (pos f) SEEK_SET m1 = Done (0, f2) /\
    fread f2 n 1 m1 = Done (n, data, f3) /\ pos f3 = pos f + n /\
    (forall count, 0 <= count < 2 ^ 31 - pos f ->
       let d := take (Z.to_nat count) (drop (Z.to_nat (pos f)) (contents (disks m1))) in
       exists f4, fread f2 count 1 m1 = Done (Z.of_nat (length d), d, f4) /\
         pos f4 = if bool_decide (d = []) then pos f else pos f + count).
Proof.
  intros n. destruct (write_then_read f contents m data Hf Hlead Hdata Hpos Hlen) as (w & f1 & f2 & f3 & H).
  by exists f1, (with_disks w m), f2, f3.
Qed.

(** ** Descriptors *)

Record descriptors_ok (s : system) : Prop := DescriptorsOk {
  dok_numbers : NoDup (map fd (descriptors s));
  dok_files : NoDup (map file (descriptors s));
  dok_range : forall i, i ∈ descriptors s -> 0 <= fd i < last_descriptor_number s;
  dok_open : forall i, i ∈ descriptors s -> is_Some (files s !! file i);
  dok_last : 0 <= last_descriptor_number s < 2 ^ 31
}.

(** The stream behind a number. *)
Definition stream_of (number : Z) (s : system) : option FILE :=
  match find_fd (descriptors s) number with Some i => files s !! file i | None => None end.

Lemma find_fd_Some l number i : find_fd l number = Some i -> i ∈ l /\ fd i = number.
Proof.
  induction l as [|x l IH]; cbn [find_fd]; [done|]. destruct (Z.eqb_spec (fd x) number).
  - intros [= ->]. split; [apply list_elem_of_here|done].
  - intros E. destruct (IH E). split; [by apply list_elem_of_further|done].
Qed.

Lemma find_fd_None l number : (forall i, i ∈ l -> fd i <> number) -> find_fd l number = None.
Proof.
  intros H. destruct (find_fd l number) as [i|] eqn:E; [|done]. apply find_fd_Some in E as [Hi E]. by destruct (H i Hi).
Qed.

Lemma find_fd_app l l' number :
  find_fd (l ++ l') number = match find_fd l number with Some i => Some i | None => find_fd l' number end.
Proof. induction l as [|x l IH]; [done|]. cbn [find_fd app]. by destruct (_ =? _). Qed.

Lemma file_inj (s : system) i j :
  descriptors_ok s -> i ∈ descriptors s -> j ∈ descriptors s -> file i = file j -> i = j.
Proof.
  intros [_ Hf _ _ _]. induction (descriptors s) as [|x l IH]; intros Hi Hj E; [by apply not_elem_of_nil in Hi|].
  cbn in Hf. apply list.NoDup_cons in Hf as [Hx Hf].
  apply elem_of_cons in Hi as [->|Hi], Hj as [->|Hj]; [done| | |by apply IH].
  - destruct Hx. rewrite E. by apply list_elem_of_fmap_2.
  - destruct Hx. rewrite <- E. by apply list_elem_of_fmap_2.
Qed.

Lemma fd_stream_of number s :
  descriptors_ok s ->
  fd_stream number s =
    Done (match find_fd (descriptors s) number with
          | Some i => match files s !! file i with Some f => Some (file i, f) | None => None end
          | None => None
          end).
Proof.
  intros Hok. unfold fd_stream, file_descriptor_get, fd_in_range.
  destruct (find_fd (descriptors s) number) as [i|] eqn:E; [|by destruct (negb _)].
  destruct (find_fd_Some _ _ _ E) as [Hi Hn]. pose proof (dok_range _ Hok i Hi). subst number.
  destruct (Z.leb_spec 0 (fd i)); [|lia]. destruct (Z.ltb_spec (fd i) (last_descriptor_number s)); [|lia].
  cbn [andb negb]. by destruct (dok_open _ Hok i Hi) as [f ->].
Qed.

(** A descriptor's stream is replaced: the others stay. *)
Lemma set_stream_ok number s a f f' m :
  descriptors_ok s -> fd_stream number s = Done (Some (a, f)) ->
  descriptors_ok (set_stream a f' m s) /\
  forall n, n <> number -> stream_of n (set_stream a f' m s) = stream_of n s.
Proof.
  intros Hok. rewrite fd_stream_of by done. destruct (find_fd _ number) as [i|] eqn:E; [|done].
  destruct (find_fd_Some _ _ _ E) as [Hi Hn]. destruct (files s !! file i) as [g|] eqn:Eg; [|done].
  intros [= <- <-]. split.
  - destruct Hok as [H1 H2 H3 H4 H5]. constructor; cbn; [done|done|done| |done].
    intros j Hj. destruct (decide (file i = file j)) as [Ej|Hne];
      [rewrite Ej, lookup_insert_eq by done; eauto|rewrite lookup_insert_ne by done; auto].
  - intros n Hne. unfold stream_of. cbn [descriptors files set_stream].
    destruct (find_fd (descriptors s) n) as [j|] eqn:Ej; [|done]. destruct (find_fd_Some _ _ _ Ej) as [Hj Hjn].
    rewrite lookup_insert_ne; [done|]. intros Ef. assert (i = j) as -> by by eapply file_inj. congruence.
Qed.

(** One of the operations on a stream by its number. *)
Inductive stream_op (number : Z) (s : system) : system -> Prop :=
  | op_read count data s' : file_descriptor_read number count s = Done (data, s') -> stream_op number s s'
  | op_write buffer s' : file_descriptor_write number buffer s = Done s' -> stream_op number s s'
  | op_seek value whence s' : file_descriptor_seek number value whence s = Done s' -> stream_op number s s'
  | op_tell out r s' : file_descriptor_tell number out s = Done (r, s') -> stream_op number s s'.

Lemma stream_op_shape number s s' :
  stream_op number s s' ->
  (exists r, fd_stream number s = Done r /\ match r with
     | None => s' = s
     | Some (a, f) => exists f' m, s' = set_stream a f' m s
     end).
Proof.
  destruct 1 as [count data s' E|buffer s' E|value whence s' E|out r s' E].
  all: apply bind_Done in E as (x & Ex & E); exists x; split; [exact Ex|]; destruct x as [[a f]|]; [|congruence].
  all: apply bind_Done in E as (y & Ey & E); injection E as E; subst; eauto.
Qed.

Lemma close_loop_spec l number :
  NoDup (map fd l) ->
  close_loop l number =
    match find_fd l number with
    | Some i => Some (i, filter (fun j => fd j <> number) l)
    | None => None
    end.
Proof.
  induction l as [|x l IH]; intros Hnd; [done|]. cbn in Hnd. apply list.NoDup_cons in Hnd as [Hx Hnd].
  cbn [close_loop find_fd]. destruct (Z.eqb_spec (fd x) number) as [Hn|Hn].
  - rewrite list.filter_cons_False by (intros H; by apply H). do 2 f_equal.
    assert (Forall (fun j => fd j <> number) l) as Hall.
    { apply list.Forall_forall. intros j Hj Ej. apply Hx. rewrite Hn, <- Ej. by apply list_elem_of_fmap_2. }
    clear -Hall. induction Hall as [|j l Hj Hl IH]; [done|]. rewrite list.filter_cons_True by done. by rewrite <- IH.
  - rewrite list.filter_cons_True by done. rewrite IH by done. by destruct (find_fd l number).
Qed.

Lemma find_fd_filter l number n :
  n <> number -> find_fd (filter (fun j => fd j <> number) l) n = find_fd l n.
Proof.
  intros Hne. induction l as [|x l IH]; [done|]. cbn [find_fd]. destruct (decide (fd x = number)) as [E|E].
  - rewrite list.filter_cons_False by tauto. rewrite IH. destruct (Z.eqb_spec (fd x) n); [congruence|done].
  - rewrite list.filter_cons_True by done. cbn [find_fd]. by rewrite IH.
Qed.

Lemma NoDup_map_filter {A} (g : A -> Z) (P : A -> Prop) `{!forall x, Decision (P x)} l :
  NoDup (map g l) -> NoDup (map g (filter P l)).
Proof.
  induction l as [|x l IH]; [done|]. cbn. intros [Hx Hnd]%list.NoDup_cons. destruct (decide (P x)).
  - apply list.NoDup_cons. split; [|auto]. contradict Hx.
    apply list_elem_of_fmap in Hx as (y & -> & Hy). apply list_elem_of_fmap_2. by apply list_elem_of_filter in Hy as [_ ?].
  - auto.
Qed.

Lemma close_ok number s :
  descriptors_ok s ->
  descriptors_ok (file_descriptor_close number s) /\ stream_of number (file_descriptor_close number s) = None /\
  forall n, n <> number -> stream_of n (file_descriptor_close number s) = stream_of n s.
Proof.
  intros Hok. unfold file_descriptor_close, fd_in_range.
  destruct (find_fd (descriptors s) number) as [i|] eqn:E.
  2: { rewrite close_loop_spec, E by apply Hok. unfold stream_of.
       destruct (negb _); rewrite E; (split; [done|]; split; done). }
  destruct (find_fd_Some _ _ _ E) as [Hi Hn]. pose proof (dok_range _ Hok i Hi) as Hr. subst number.
  destruct (Z.leb_spec 0 (fd i)); [|lia]. destruct (Z.ltb_spec (fd i) (last_descriptor_number s)); [|lia].
  cbn [andb negb]. rewrite close_loop_spec, E by apply Hok.
  set (r := filter _ _). assert (forall j, j ∈ r <-> fd j <> fd i /\ j ∈ descriptors s) as Hin by (intros j; unfold r; by rewrite list_elem_of_filter).
  assert (forall j, j ∈ descriptors s -> fd j <> fd i -> file i <> file j) as Hfile.
  { intros j Hj Hne Ef. assert (i = j) as <- by by eapply file_inj. done. }
  split; [|split].
  - constructor; cbn.
    + apply NoDup_map_filter, Hok.
    + apply NoDup_map_filter, Hok.
    + intros j [_ Hj]%Hin. by apply Hok.
    + intros j [Hne Hj]%Hin. rewrite lookup_delete_ne by auto. by apply Hok.
    + apply Hok.
  - unfold stream_of. cbn [descriptors files]. rewrite find_fd_None; [done|]. intros j Hj. apply Hin in Hj as [Hj _]. done.
  - intros n Hne. unfold stream_of. cbn [descriptors files]. unfold r. rewrite find_fd_filter by done.
    destruct (find_fd (descriptors s) n) as [j|] eqn:Ej; [|done]. destruct (find_fd_Some _ _ _ Ej) as [Hj <-].
    by rewrite lookup_delete_ne by auto.
Qed.

Lemma fopen_shape filename mode m f m' :
  fopen filename mode m = Done (Some f, m') ->
  path f = filename /\ fmode f = mode /\ open f = true /\ pos f = 0 /\ err f = 0.
Proof.
  intros E. apply bind_Done in E as (x & _ & E). apply bind_Done in E as (y & _ & E).
  destruct (_ || _); [done|]. by injection E as <- _.
Qed.

Lemma allocate_ok filename mode addr s r s' :
  descriptors_ok s -> files s !! addr = None -> last_descriptor_number s < 2 ^ 31 - 1 ->
  file_descriptor_allocate filename mode addr s = Done (r, s') ->
  descriptors_ok s' /\
  (r = -1 /\ (forall n, stream_of n s' = stream_of n s) \/
   r = last_descriptor_number s /\ stream_of r s = None /\
   (exists f, stream_of r s' = Some f /\ path f = filename /\ fmode f = mode /\ open f = true /\ pos f = 0 /\ err f = 0) /\
   forall n, n <> r -> stream_of n s' = stream_of n s).
Proof.
  intros Hok Haddr Hlast E. apply bind_Done in E as ([o m] & Eo & E). destruct o as [f|].
  2: { injection E as <- <-. split; [by destruct Hok|]. by left. }
  pose proof (dok_last _ Hok) as Hl0.
  cbv beta iota zeta in E. rewrite s32_small in E by lia. injection E as <- <-.
  assert (find_fd (descriptors s) (last_descriptor_number s) = None) as Hnone.
  { apply find_fd_None. intros i Hi. pose proof (dok_range _ Hok i Hi). lia. }
  assert (forall i, i ∈ descriptors s -> addr <> file i) as Hne.
  { intros i Hi ->. destruct (dok_open _ Hok i Hi) as [g Hg]. congruence. }
  split.
  - destruct Hok as [H1 H2 H3 H4 H5]. constructor; cbn [descriptors files last_descriptor_number].
    + rewrite map_app. apply list.NoDup_app. split; [done|]. split; [|apply list.NoDup_singleton].
      intros x (i & -> & Hi)%list_elem_of_fmap Hx%list_elem_of_singleton. cbn in Hx. specialize (H3 _ Hi). lia.
    + rewrite map_app. apply list.NoDup_app. split; [done|]. split; [|apply list.NoDup_singleton].
      intros x (i & -> & Hi)%list_elem_of_fmap Hx%list_elem_of_singleton. by destruct (Hne _ Hi).
    + intros i [Hi|Hi%list_elem_of_singleton]%elem_of_app; [specialize (H3 _ Hi); lia|subst i; cbn; lia].
    + intros i [Hi|Hi%list_elem_of_singleton]%elem_of_app.
      * rewrite lookup_insert_ne by auto. auto.
      * subst i. cbn. rewrite lookup_insert_eq. eauto.
    + lia.
  - right. split; [done|]. split; [by unfold stream_of; rewrite Hnone|]. split.
    + exists f. split; [|by eapply fopen_shape].
      unfold stream_of. cbn [descriptors files]. rewrite find_fd_app, Hnone. cbn [find_fd fd]. rewrite Z.eqb_refl.
      cbn. apply lookup_insert_eq.
    + intros n Hn. unfold stream_of. cbn [descriptors files]. rewrite find_fd_app.
      destruct (find_fd (descriptors s) n) as [i|] eqn:Ei.
      * apply find_fd_Some in Ei as [Hi _]. by rewrite lookup_insert_ne by auto.
      * cbn [find_fd fd]. destruct (Z.eqb_spec (last_descriptor_number s) n); [congruence|done].
Qed.

(** C19: descriptors do not interfere: an allocation gives a number that was never open
    with a stream at the start of its file, a close removes exactly its stream, a
    read, write, seek or tell changes no other descriptor's stream, and every
    operation on a number that is not open does nothing; the numbers stay distinct
    and below the next one. *)
Theorem descriptors_are_independent (s : system) (Hok : descriptors_ok s) :
  (forall filename mode addr r s', files s !! addr = None -> last_descriptor_number s < 2 ^ 31 - 1 ->
     file_descriptor_allocate filename mode addr s = Done (r, s') ->
     descriptors_ok s' /\
     (r = -1 /\ (forall n, stream_of n s' = stream_of n s) \/
      r = last_descriptor_number s /\ stream_of r s = None /\
      (exists f, stream_of r s' = Some f /\ path f = filename /\ fmode f = mode /\
         open f = true /\ pos f = 0 /\ err f = 0) /\
      forall n, n <> r -> stream_of n s' = stream_of n s)) /\
  (forall number, let s' := file_descriptor_close number s in
     descriptors_ok s' /\ stream_of number s' = None /\
     forall n, n <> number -> stream_of n s' = stream_of n s) /\
  (forall number s', stream_op number s s' ->
     descriptors_ok s' /\ (forall n, n <> number -> stream_of n s' = stream_of n s) /\
     (stream_of number s = None -> s' = s)).
Proof.
  split; [|split].
  - intros filename mode addr r s'. by apply allocate_ok.
  - intros number. by apply close_ok.
  - intros number s' (r & Er & Hr)%stream_op_shape. destruct r as [[a f]|].
    + destruct Hr as (f' & m & ->). destruct (set_stream_ok number s a f f' m Hok Er) as [H1 H2].
      split; [done|]. split; [done|]. intros Hnone. rewrite fd_stream_of in Er by done. unfold stream_of in Hnone.
      destruct (find_fd _ number); [|done]. by rewrite Hnone in Er.
    + subst s'. done.
Qed.

End Streams.
Arguments system W : clear implicits.

(** ** Examples *)

Definition sample_stream : FILE := File "hd0:/f" 3 3 true 2 0.

Lemma sample_stream_ok : stream_ok sample_stream.
Proof. constructor; cbn; done || lia. Qed.

Lemma fseek_moves_inside_witness :
  exists r f', fseek sample_stream (-2) SEEK_CUR one_file_manager = Done (r, f') /\ r = 0 /\ f' = sample_stream.
Proof.
  destruct (fseek_moves_inside sample_stream one_file_manager (-2) SEEK_CUR sample_stream_ok ltac:(lia))
    as (r & f' & E & Hr & Hf' & _).
  exists r, f'. split; [exact E|]. split; [exact Hr|exact Hf'].
Defined.

Lemma one_file_law : driver_law one_file "hd0" "/f" (fun w => w).
Proof. constructor; [done| |done]. intros off data w _. eexists. split; reflexivity. Qed.

Lemma sample_leads : leads_to (path sample_stream) (fun w => w) one_file_manager.
Proof.
  constructor. exists "hd0"%string, "/f"%string, 0, one_file.
  split; [vm_compute; reflexivity|]. split; [reflexivity|]. apply one_file_law.
Qed.

Lemma fwrite_fread_roundtrip_witness :
  exists f1 m1 f2 f3,
    fwrite sample_stream [7; 8] one_file_manager = Done (2 ^ 32 - 1, f1, m1) /\ disks m1 = [10; 20; 7; 8] /\
    fseek f1 2 SEEK_SET m1 = Done (0, f2) /\ fread f2 2 1 m1 = Done (2, [7; 8], f3).
Proof.
  destruct (fwrite_fread_roundtrip sample_stream (fun w => w) one_file_manager [7; 8]
    ltac:(cbn; split; [done|split; [done|lia]]) sample_leads ltac:(done) ltac:(cbn; lia) ltac:(cbn; lia))
    as (f1 & m1 & f2 & f3 & E1 & E2 & _ & _ & E5 & E6 & _).
  exists f1, m1, f2, f3. split; [exact E1|]. split; [exact E2|]. split; [exact E5|exact E6].
Defined.

Definition sample_system : system (list Z) :=
  System one_file_manager {[ 4096 := sample_stream ]} [FdInfo 0 4096] 1.

Lemma sample_system_ok : descriptors_ok sample_system.
Proof.
  constructor; cbn.
  - apply list.NoDup_singleton.
  - apply list.NoDup_singleton.
  - intros i ->%list_elem_of_singleton. cbn. lia.
  - intros i ->%list_elem_of_singleton. by eexists.
  - lia.
Qed.

Lemma descriptors_are_independent_witness :
  exists r s', file_descriptor_allocate "hd0:/g" 1 8192 sample_system = Done (r, s') /\ r = 1 /\
    stream_of 0 s' = Some sample_stream.
Proof.
  destruct (descriptors_are_independent sample_system sample_system_ok) as (Ha & _).
  eexists 1, _. split; [vm_compute; reflexivity|]. split; [reflexivity|].
  specialize (Ha "hd0:/g"%string 1 8192 1 _ ltac:(reflexivity) ltac:(cbn; lia) ltac:(vm_compute; reflexivity)).
  destruct Ha as (_ & [[H _]|(_ & _ & _ & H)]); [discriminate|]. rewrite H by lia. reflexivity.
Defined.
