(* ===== verification/Ports.v ===== *)
(** * Port input and output (kernel/include/arch/x86/ports.h)

    Device code runs in a monad over a machine state [D] that only the instructions
    [in] and [out] (and the passing of time) touch.  What the ports do is hardware:
    an interface, for which the drivers' theorems state the laws they rely on. *)
From Stdlib Require Import ZArith Lia.
From stdpp Require Import base list numbers.
From S2P Require Import Prelude Bytes.

#[local] Open Scope Z_scope.

Class PortIO (D : Type) := {
  port_inb : Z -> D -> Z * D;
  port_inw : Z -> D -> Z * D;
  port_inl : Z -> D -> Z * D;
  port_outb : Z -> Z -> D -> D;
  port_outw : Z -> Z -> D -> D;
  port_outl : Z -> Z -> D -> D;
  time_passes : Z -> D -> D
}.

(** Registers in memory, 32 bits wide. *)
Class Mmio (D : Type) := {
  mmio_read : Z -> D -> Z * D;
  mmio_write : Z -> Z -> D -> D
}.

Definition IO (D A : Type) : Type := D -> outcome (A * D).

#[export] Instance IO_ret {D} : MRet (IO D) := fun A a d => Done (a, d).
#[export] Instance IO_bind {D} : MBind (IO D) := fun A B f m d =>
  match m d with
  | Done (a, d') => f a d'
  | Hang => Hang
  | Fault => Fault
  end.

Definition hang {D A} : IO D A := fun _ => Hang.
Definition lift {D A} (o : outcome A) : IO D A := fun d =>
  match o with Done a => Done (a, d) | Hang => Hang | Fault => Fault end.

Section Ports.
Context `{PortIO D}.

Definition inb (port : Z) : IO D Z := fun d => Done (port_inb (u16 port) d).
Definition inw (port : Z) : IO D Z := fun d => Done (port_inw (u16 port) d).
Definition inl (port : Z) : IO D Z := fun d => Done (port_inl (u16 port) d).
Definition outb (port val : Z) : IO D unit := fun d => Done (tt, port_outb (u16 port) (u8 val) d).
Definition outw (port data : Z) : IO D unit := fun d => Done (tt, port_outw (u16 port) (u16 data) d).
Definition outl (port val : Z) : IO D unit := fun d => Done (tt, port_outl (u16 port) (u32 val) d).
Definition sleep_ms (ms : Z) : IO D unit := fun d => Done (tt, time_passes ms d).

(** [for(i = 0; i < n; i++) a[i] = m();] *)
Fixpoint times {A} (n : nat) (m : IO D A) : IO D (list A) :=
  match n with
  | O => mret []
  | S n' => x ← m; l ← times n' m; mret (x :: l)
  end.

Definition insw (port : Z) (n : nat) : IO D (list Z) := times n (inw port).

Fixpoint outsw (port : Z) (ws : list Z) : IO D unit :=
  match ws with
  | [] => mret tt
  | w :: ws' => _ ← outw port w; outsw port ws'
  end.

Lemma bind_run {A B} (m : IO D A) (f : A -> IO D B) d a d' :
  m d = Done (a, d') -> (x ← m; f x) d = f a d'.
Proof. intros E. unfold mbind, IO_bind. by rewrite E. Qed.

Lemma times_app {A} (m : IO D A) n k d l d1 r d2 :
  times n m d = Done (l, d1) -> times k m d1 = Done (r, d2) -> times (n + k) m d = Done (l ++ r, d2).
Proof.
  revert d l. induction n as [|n IH]; intros d l El Er.
  - injection El as <- <-. done.
  - cbn [times Nat.add] in *. unfold mbind, IO_bind in *. destruct (m d) as [[x dx]| |]; try done.
    destruct (times n m dx) as [[y dy]| |] eqn:E; try done. injection El as <- ->. by rewrite (IH dx y E Er).
Qed.

End Ports.

(** ** Memory as a device sees it

    Bus masters work on physical addresses; the kernel reaches the same bytes through
    its page tables, [v2p]. *)
Class PhysMem (D : Type) := {
  mem_read : Z -> D -> Z;
  mem_write : Z -> Z -> D -> D
}.

Section Memory.
Context `{PhysMem D}.
Variable v2p : Z -> Z.

Definition store_byte (a b : Z) : IO D unit := fun d => Done (tt, mem_write a b d).
Definition load_byte (a : Z) : IO D Z := fun d => Done (mem_read a d, d).

Fixpoint store_bytes (a : Z) (l : list Z) : IO D unit :=
  match l with
  | [] => mret tt
  | b :: l' => _ ← store_byte a b; store_bytes (a + 1) l'
  end.

(** [memcpy] and [memset] on virtual addresses. *)
Fixpoint read_virtual (n : nat) (v : Z) : IO D (list Z) :=
  match n with
  | O => mret []
  | S n' => b ← load_byte (v2p v); l ← read_virtual n' (v + 1); mret (b :: l)
  end.

Fixpoint write_virtual (v : Z) (l : list Z) : IO D unit :=
  match l with
  | [] => mret tt
  | b :: l' => _ ← store_byte (v2p v) b; write_virtual (v + 1) l'
  end.

(** Memory takes every write. *)
Lemma write_virtual_done v l d : exists d', write_virtual v l d = Done (tt, d').
Proof. revert v d. induction l as [|b l IH]; intros v d; [by exists d|]. cbn [write_virtual]. apply IH. Qed.

(** Reading leaves the memory as it is. *)
Lemma read_virtual_bytes n v d :
  read_virtual n v d = Done (map (fun i => mem_read (v2p (v + i)) d) (seqZ 0 (Z.of_nat n)), d).
Proof.
  revert v. induction n as [|n IH]; intros v; [done|]. cbn [read_virtual].
  rewrite (bind_run (load_byte (v2p v)) _ d (mem_read (v2p v) d) d eq_refl), (bind_run _ _ _ _ _ (IH (v + 1))).
  rewrite (seqZ_cons 0 (Z.of_nat (S n))) by lia. cbn [map]. rewrite Z.add_0_r. unfold mret, IO_ret. do 3 f_equal.
  replace (Z.pred (Z.of_nat (S n))) with (Z.of_nat n) by lia.
  rewrite <- (fmap_add_seqZ 1 0), <- list_fmap_compose. apply map_ext. intros i. cbn. do 2 f_equal. lia.
Qed.

End Memory.

(** Two bytes a word, the low byte first. *)
Definition words_bytes (ws : list Z) : list Z := concat (map bytes16 ws).

Fixpoint bytes_words (l : list Z) : list Z :=
  match l with
  | a :: b :: l' => (a + 256 * b) :: bytes_words l'
  | _ => []
  end.

Lemma words_bytes_length ws : length (words_bytes ws) = (2 * length ws)%nat.
Proof. unfold words_bytes. induction ws as [|w ws IH]; [done|]. cbn [map concat]. rewrite length_app, IH. cbn. lia. Qed.

Lemma words_bytes_app a b : words_bytes (a ++ b) = words_bytes a ++ words_bytes b.
Proof. unfold words_bytes. by rewrite map_app, concat_app. Qed.

Lemma bytes_words_bytes n l :
  length l = (2 * n)%nat -> Forall is_byte l -> words_bytes (bytes_words l) = l.
Proof.
  revert l. induction n as [|n IH]; intros l Hl Hb; [by destruct l|].
  destruct l as [|a [|b l]]; [done|cbn in Hl; lia|].
  apply list.Forall_cons in Hb as [Ha Hb]. apply list.Forall_cons in Hb as [Hb Hl']. unfold is_byte in *.
  cbn [bytes_words]. unfold words_bytes in *. cbn [map concat]. rewrite IH by (done || (cbn in Hl; lia)).
  unfold bytes16. cbn [app]. do 2 f_equal.
  - rewrite Z.mul_comm, Z_mod_plus_full. by apply Z.mod_small.
  - rewrite Z.mul_comm, Z.div_add by lia. rewrite Z.div_small by lia. by apply Z.mod_small.
Qed.

Lemma bytes_words_app a b n :
  length a = (2 * n)%nat -> bytes_words (a ++ b) = bytes_words a ++ bytes_words b.
Proof.
  revert a. induction n as [|n IH]; intros a Ha; [by destruct a|].
  destruct a as [|x [|y a]]; [done|cbn in Ha; lia|]. cbn [app bytes_words]. f_equal. apply IH. cbn in Ha. lia.
Qed.

Lemma bytes_words_length l n : length l = (2 * n)%nat -> length (bytes_words l) = n.
Proof.
  revert l. induction n as [|n IH]; intros l Hl; [by destruct l|].
  destruct l as [|x [|y l]]; [done|cbn in Hl; lia|]. cbn. f_equal. apply IH. cbn in Hl. lia.
Qed.

Lemma bytes_words_range l : Forall is_byte l -> Forall (fun w => 0 <= w < 65536) (bytes_words l).
Proof.
  intros Hl. assert (exists n, (length l <= n)%nat) as [n Hn] by eauto. revert l Hl Hn.
  induction n as [|n IH]; intros l Hl Hn; [destruct l; [constructor|cbn in Hn; lia]|].
  destruct l as [|a [|b l]]; [constructor|constructor|].
  apply list.Forall_cons in Hl as [Ha Hl]. apply list.Forall_cons in Hl as [Hb Hl]. unfold is_byte in *.
  cbn. constructor; [lia|]. apply IH; [done|cbn in Hn; lia].
Qed.
