(* ===== verification/Ide.v ===== *)
(** * IDE disks: identification, programmed transfers, packet devices
    (kernel/src/drv/disk/ata.c, ata_pio.c, atapi.c)

    The drivers as programs over the ports of the controller.  A wait without a time
    limit polls at most [polls] times and then counts as endless.  Buffers are lists of
    bytes; memory for them is taken to be available. *)
From Stdlib Require Import ZArith Lia.
From stdpp Require Import base list numbers.
From S2P Require Import Prelude Bytes Ports.

#[local] Open Scope Z_scope.

(** ** Registers and commands *)

Definition ATA_SR_BSY : Z := 0x80.
Definition ATA_SR_DF : Z := 0x20.
Definition ATA_SR_DRQ : Z := 0x08.
Definition ATA_SR_ERR : Z := 0x01.
Definition ATA_CMD_READ_PIO : Z := 0x20.
Definition ATA_CMD_WRITE_PIO : Z := 0x30.
Definition ATA_CMD_CACHE_FLUSH : Z := 0xE7.
Definition ATA_CMD_PACKET : Z := 0xA0.
Definition ATA_CMD_IDENTIFY_PACKET : Z := 0xA1.
Definition ATA_CMD_IDENTIFY : Z := 0xEC.
Definition ATA_MASTER : Z := 0.
Definition ATA_REG_DATA : Z := 0.
Definition ATA_REG_ERROR : Z := 1.
Definition ATA_REG_SECCOUNT0 : Z := 2.
Definition ATA_REG_LBA0 : Z := 3.
Definition ATA_REG_LBA1 : Z := 4.
Definition ATA_REG_LBA2 : Z := 5.
Definition ATA_REG_HDDEVSEL : Z := 6.
Definition ATA_REG_COMMAND : Z := 7.
Definition ATA_REG_STATUS : Z := 7.
Definition ATA_REG_CONTROL : Z := 0x0C.
Definition ATA_REG_ALTSTATUS : Z := 0x0C.
Definition ATA_PRIMARY : Z := 0.
Definition ATA_SECONDARY : Z := 1.
Definition ATA_PRIMARY_IO : Z := 0x1F0.
Definition ATA_SECONDARY_IO : Z := 0x170.
Definition DEFAULT_TIMEOUT : Z := 65535 * 2.

Definition ATAPI_CMD_READY : Z := 0x00.
Definition ATAPI_CMD_RQ_SENSE : Z := 0x03.
Definition ATAPI_CMD_START_STOP : Z := 0x1B.
Definition ATAPI_READ_CAPACITY : Z := 0x25.
Definition ATAPI_CMD_READ : Z := 0xA8.

Definition ATA_PORT (bus : Z) : Z := if bus =? ATA_PRIMARY then ATA_PRIMARY_IO else ATA_SECONDARY_IO.

(** The fields of [ata_drive_t] that the code uses. *)
Record ata_drive_t := AtaDrive {
  capacity : Z;
  model_name : list Z;
  fwversion : list Z;
  serial_number : list Z;
  block_size : Z;
  drive_number : Z;
  online : bool;
  is_packet : bool;
  is_dma : bool
}.

Definition no_drive : ata_drive_t := AtaDrive 0 [] [] [] 0 0 false false false.

(** [drives], and the drives given to [diskman_register_drive]. *)
Record ide := Ide { drives : list ata_drive_t; registered : list Z }.

Definition status_has (status mask : Z) : bool := negb (Z.land status mask =? 0).

Section Driver.
Context `{PortIO D}.
Variable polls : nat.

(** ** Waiting *)

Definition ide_400ns_delay (port : Z) : IO D unit :=
  _ ← inb (port + ATA_REG_ALTSTATUS); _ ← inb (port + ATA_REG_ALTSTATUS);
  _ ← inb (port + ATA_REG_ALTSTATUS); _ ← inb (port + ATA_REG_ALTSTATUS); mret tt.

Fixpoint poll_drq (n : nat) (port : Z) : IO D bool :=
  match n with
  | O => hang
  | S n' =>
      status ← inb (port + ATA_REG_STATUS);
      if status_has status ATA_SR_DRQ then mret true
      else if status_has status ATA_SR_ERR || status_has status ATA_SR_DF then mret false
      else poll_drq n' port
  end.

Fixpoint poll_bsy (n : nat) (port : Z) : IO D bool :=
  match n with
  | O => hang
  | S n' =>
      status ← inb (port + ATA_REG_STATUS);
      if negb (status_has status ATA_SR_BSY) then mret true
      else if status_has status ATA_SR_ERR || status_has status ATA_SR_DF then mret false
      else poll_bsy n' port
  end.

Definition ide_poll_drq (port : Z) : IO D bool := poll_drq polls port.
Definition ide_poll_bsy (port : Z) : IO D bool := poll_bsy polls port.

Fixpoint poll_not_busy (n : nat) (port : Z) : IO D unit :=
  match n with
  | O => hang
  | S n' =>
      status ← inb (port + ATA_REG_STATUS);
      if negb (status_has status ATA_SR_BSY) then mret tt else poll_not_busy n' port
  end.

Fixpoint poll_err_drq (n : nat) (port : Z) : IO D unit :=
  match n with
  | O => hang
  | S n' =>
      status ← inb (port + ATA_REG_STATUS);
      if status_has status ATA_SR_ERR then mret tt
      else if status_has status ATA_SR_DRQ then mret tt
      else poll_err_drq n' port
  end.

Definition ide_poll (port : Z) : IO D unit :=
  _ ← ide_400ns_delay port; _ ← inb (port + ATA_REG_STATUS);
  _ ← poll_not_busy polls port; poll_err_drq polls port.

Definition ide_primary_irq : IO D unit := _ ← inb (ATA_PRIMARY_IO + ATA_REG_STATUS); mret tt.
Definition ide_secondary_irq : IO D unit := _ ← inb (ATA_SECONDARY_IO + ATA_REG_STATUS); mret tt.

(** The control register is addressed at offset 12 of the command block. *)
Definition ide_soft_reset (port : Z) : IO D unit :=
  _ ← outb (port + ATA_REG_CONTROL) 0x04; _ ← ide_400ns_delay port; outb (port + ATA_REG_CONTROL) 0.

Definition ide_select_drive (bus slave : Z) : IO D unit :=
  outb ((if bus =? ATA_PRIMARY then ATA_PRIMARY_IO else ATA_SECONDARY_IO) + ATA_REG_HDDEVSEL)
    (Z.lor 0xA0 (u8 (Z.shiftl slave 4))).

(** The port of a drive's channel and its number on the channel; a drive of neither
    channel leaves the port at 0. *)
Definition ata_set_params (drive : Z) : Z * Z :=
  let bus := Z.shiftr drive 1 in
  (if bus =? ATA_PRIMARY then ATA_PRIMARY_IO else if bus =? ATA_SECONDARY then ATA_SECONDARY_IO else 0,
   Z.land drive 1).

(** ** Programmed transfers (ata_pio.c) *)

(** The registers of a transfer of [count] sectors from [lba] on. *)
Definition pio_command (port drive lba count command : Z) : IO D unit :=
  let cmd := if drive =? ATA_MASTER then 0xE0 else 0xF0 in
  let slavebit := if drive =? ATA_MASTER then 0x00 else 0x01 in
  _ ← outb (port + ATA_REG_HDDEVSEL)
        (Z.lor (Z.lor cmd (Z.shiftl slavebit 4)) (u8 (Z.land (Z.shiftr lba 24) 0x0F)));
  _ ← outb (port + 1) 0x00;
  _ ← outb (port + ATA_REG_SECCOUNT0) count;
  _ ← outb (port + ATA_REG_LBA0) (u8 lba);
  _ ← outb (port + ATA_REG_LBA1) (u8 (Z.shiftr lba 8));
  _ ← outb (port + ATA_REG_LBA2) (u8 (Z.shiftr lba 16));
  outb (port + ATA_REG_COMMAND) command.

(** Only 24 of the 28 bits of a sector number are kept. *)
Definition lba_bits (lba : Z) : Z := Z.land lba 0x00FFFFFF.

Definition drive_at (s : ide) (drive : Z) : IO D ata_drive_t := lift (array_get (drives s) drive).

(** The 512 bytes of the sector; nothing when the drive is not there. *)
Definition ata_pio_read_sector (s : ide) (drive lba : Z) : IO D (option (list Z)) :=
  let lba := lba_bits lba in
  dr ← drive_at s drive;
  if negb (online dr) then mret None
  else
    let (port, unit_) := ata_set_params drive in
    _ ← pio_command port unit_ lba 1 ATA_CMD_READ_PIO;
    _ ← ide_poll port;
    ws ← insw (port + ATA_REG_DATA) 256;
    _ ← ide_400ns_delay port;
    mret (Some (words_bytes ws)).

Definition ata_pio_read_sectors_pre (s : ide) (drive lba sector_count : Z) : IO D (option (list Z)) :=
  let lba := lba_bits lba in
  dr ← drive_at s drive;
  if negb (online dr) then mret None
  else
    let (port, unit_) := ata_set_params drive in
    _ ← pio_command port unit_ lba sector_count ATA_CMD_READ_PIO;
    _ ← ide_poll port;
    ws ← insw (port + ATA_REG_DATA) (Z.to_nat (256 * sector_count));
    _ ← ide_400ns_delay port;
    mret (Some (words_bytes ws)).

(** [buf] is the memory from the pointer on; 0 is an error, 1 success. *)
Definition ata_pio_write_raw_sector (s : ide) (drive : Z) (buf : list Z) (lba : Z) : IO D Z :=
  let lba := lba_bits lba in
  dr ← drive_at s drive;
  if negb (online dr) then mret 0
  else
    let (port, unit_) := ata_set_params drive in
    _ ← pio_command port unit_ lba 1 ATA_CMD_WRITE_PIO;
    _ ← ide_poll_drq port;
    sector ← lift (get_bytes buf 0 512);
    _ ← outsw (port + ATA_REG_DATA) (bytes_words sector);
    _ ← ide_400ns_delay port;
    _ ← outb (port + ATA_REG_COMMAND) ATA_CMD_CACHE_FLUSH;
    _ ← ide_poll_bsy port;
    mret 1.

Fixpoint write_loop (n : nat) (i : Z) (s : ide) (drive : Z) (buf : list Z) (lba : Z) : IO D unit :=
  match n with
  | O => mret tt
  | S n' =>
      dr ← drive_at s drive;
      _ ← ata_pio_write_raw_sector s drive (drop (Z.to_nat (i * block_size dr)) buf) (u32 (lba + i));
      write_loop n' (i + 1) s drive buf lba
  end.

Definition ata_pio_write_sectors (s : ide) (drive : Z) (buf : list Z) (lba sectors : Z) : IO D unit :=
  write_loop (Z.to_nat sectors) 0 s drive buf lba.

(** The buffer afterwards. *)
Fixpoint read_loop (n : nat) (i : Z) (s : ide) (drive : Z) (buf : list Z) (lba : Z) : IO D (list Z) :=
  match n with
  | O => mret buf
  | S n' =>
      dr ← drive_at s drive;
      r ← ata_pio_read_sector s drive (u32 (lba + i));
      buf ← lift (match r with
                  | Some sector => put_bytes buf (i * block_size dr) sector
                  | None => Done buf
                  end);
      read_loop n' (i + 1) s drive buf lba
  end.

Definition ata_pio_read_sectors (s : ide) (drive : Z) (buf : list Z) (lba numsects : Z) : IO D (list Z) :=
  read_loop (Z.to_nat numsects) 0 s drive buf lba.

(** ** Packet devices (atapi.c) *)

Fixpoint scsi_wait (n : nat) (bus : Z) : IO D bool :=
  match n with
  | O => hang
  | S n' =>
      status ← inb (ATA_PORT bus + ATA_REG_COMMAND);
      if Z.land status 0x01 =? 1 then mret true
      else if (Z.land status 0x80 =? 0) && negb (Z.land status 0x08 =? 0) then mret false
      else _ ← ide_400ns_delay (ATA_PORT bus); scsi_wait n' bus
  end.

(** [true] is an error. *)
Definition ata_scsi_status_wait (bus : Z) : IO D bool := scsi_wait polls bus.

Definition ata_scsi_send (bus slave lba_mid_hi : Z) (command : list Z) : IO D bool :=
  _ ← ide_select_drive bus slave;
  _ ← ide_400ns_delay (ATA_PORT bus);
  _ ← outb (ATA_PORT bus + ATA_REG_ERROR) 0x00;
  _ ← outb (ATA_PORT bus + ATA_REG_LBA1) (Z.land lba_mid_hi 0xFF);
  _ ← outb (ATA_PORT bus + ATA_REG_LBA2) (Z.land (Z.shiftr lba_mid_hi 8) 0xFF);
  _ ← outb (ATA_PORT bus + ATA_REG_COMMAND) ATA_CMD_PACKET;
  _ ← ide_400ns_delay (ATA_PORT bus);
  error ← ata_scsi_status_wait bus;
  if (error : bool) then mret true
  else _ ← outsw (ATA_PORT bus + ATA_REG_DATA) (bytes_words command); mret false.

Definition ata_scsi_receive_size_of_transfer (bus : Z) : IO D Z :=
  error ← ata_scsi_status_wait bus;
  if (error : bool) then mret 0
  else
    hi ← inb (ATA_PORT bus + ATA_REG_LBA2);
    lo ← inb (ATA_PORT bus + ATA_REG_LBA1);
    mret (Z.lor (Z.shiftl hi 8) lo).

Definition ata_scsi_read_result (bus size : Z) : IO D (list Z) :=
  ws ← insw (ATA_PORT bus + ATA_REG_DATA) (Z.to_nat (size / 2)); mret (words_bytes ws).

Definition packet (l : list Z) : list Z := take 12 (l ++ replicate 12 0).

(** The result is the number of the last block. *)
Definition atapi_read_size (bus slave : Z) : IO D Z :=
  _ ← ata_scsi_send bus slave 0x0008 (packet [ATAPI_READ_CAPACITY]);
  transf_size ← ata_scsi_receive_size_of_transfer bus;
  if transf_size =? 0 then mret 0
  else
    data ← ata_scsi_read_result bus transf_size;
    maxlba ← lift (load32 (data ++ replicate (Z.to_nat transf_size - length data) 0) 0);
    mret (ntohl maxlba).

Definition atapi_read_block_size (bus slave : Z) : IO D Z :=
  _ ← ata_scsi_send bus slave 0x0008 (packet [ATAPI_READ_CAPACITY]);
  transf_size ← ata_scsi_receive_size_of_transfer bus;
  data ← ata_scsi_read_result bus transf_size;
  blocksize ← lift (load32 (data ++ replicate (Z.to_nat transf_size - length data) 0) 4);
  mret (ntohl blocksize).

(** For every sector the device says how many bytes it has; they are put into the
    buffer [block_size] bytes apart.  The result says whether there was an error. *)
Fixpoint atapi_read_loop (n : nat) (i bus block_size : Z) (buf : list Z) : IO D (bool * list Z) :=
  match n with
  | O => mret (false, buf)
  | S n' =>
      error ← ata_scsi_status_wait bus;
      if (error : bool) then mret (true, buf)
      else
        size ← ata_scsi_receive_size_of_transfer bus;
        ws ← insw (ATA_PORT bus + ATA_REG_DATA) (Z.to_nat (size / 2));
        buf ← lift (put_bytes buf (i * block_size) (words_bytes ws));
        atapi_read_loop n' (i + 1) bus block_size buf
  end.

Definition atapi_read_command (lba sector_count : Z) : list Z :=
  packet [ATAPI_CMD_READ; 0;
    Z.land (Z.shiftr lba 0x18) 0xFF; Z.land (Z.shiftr lba 0x10) 0xFF;
    Z.land (Z.shiftr lba 0x08) 0xFF; Z.land (Z.shiftr lba 0x00) 0xFF;
    Z.land (Z.shiftr sector_count 0x18) 0xFF; Z.land (Z.shiftr sector_count 0x10) 0xFF;
    Z.land (Z.shiftr sector_count 0x08) 0xFF; Z.land (Z.shiftr sector_count 0x00) 0xFF].

Definition atapi_read_sectors (drive : Z) (buf : list Z) (lba sector_count : Z) : IO D (bool * list Z) :=
  let bus := Z.land (Z.shiftr drive 1) 1 in
  let slave := Z.land drive 1 in
  block_size ← atapi_read_block_size bus slave;
  error ← ata_scsi_send bus slave (u16 block_size) (atapi_read_command lba sector_count);
  if (error : bool) then mret (true, buf)
  else
    transf_size ← ata_scsi_receive_size_of_transfer bus;
    if transf_size =? 0 then mret (true, buf)
    else atapi_read_loop (Z.to_nat sector_count) 0 bus block_size buf.

Definition atapi_eject (bus slave : Z) : IO D bool :=
  _ ← ata_scsi_send bus slave 0 (packet [ATAPI_CMD_START_STOP]);
  ata_scsi_send bus slave 0 (packet [ATAPI_CMD_START_STOP; 0; 0; 0; Z.shiftl 1 1]).

Record atapi_error_code := ErrorCode { valid : bool; sense_key : Z; sense_code : Z; sense_code_qualifier : Z }.

Definition error_of_sense (out : list Z) : outcome atapi_error_code :=
  b0 ← load8 out 0; b2 ← load8 out 2; b12 ← load8 out 12; b13 ← load8 out 13;
  Done (ErrorCode (negb (Z.land (Z.shiftr b0 7) 1 =? 0)) (Z.land b2 15) b12 b13).

Definition atapi_request_sense (bus slave : Z) : IO D atapi_error_code :=
  _ ← ata_scsi_send bus slave 18 (packet [ATAPI_CMD_RQ_SENSE; 0; 0; 0; 18]);
  _ ← ata_scsi_receive_size_of_transfer bus;
  out ← ata_scsi_read_result bus 18;
  lift (error_of_sense out).

Definition atapi_check_media_presence (bus slave : Z) : IO D bool :=
  error ← ata_scsi_send bus slave 0 (packet [ATAPI_CMD_READY]);
  if (error : bool) then mret false
  else
    e ← atapi_request_sense bus slave;
    mret (negb (valid e && (sense_key e =? 0x02) && (sense_code e =? 0x3A))).

(** ** Identification (ata.c) *)

(** Trailing spaces become zeros, here on the bytes in reverse; a name of
    spaces only is left at its front. *)
Fixpoint trim_end (rev_bytes : list Z) : outcome (list Z) :=
  match rev_bytes with
  | [] => Fault
  | c :: l => if c =? 32 then trim_end l else Done rev_bytes
  end.

Fixpoint until_zero (l : list Z) : list Z :=
  match l with
  | [] => []
  | c :: l' => if c =? 0 then [] else c :: until_zero l'
  end.

Definition ide_name_convert_individual (ide_buf : list Z) (offset len : nat) : outcome (list Z) :=
  let prepared := words_bytes (map bit_flip_short (take (len / 2) (drop offset ide_buf))) in
  r ← trim_end (reverse prepared);
  Done (until_zero (reverse r)).

(** Firmware version, serial number, model. *)
Definition ide_name_convert (ide_buf : list Z) : outcome (list Z * list Z * list Z) :=
  serial ← ide_name_convert_individual ide_buf 10 20;
  fw ← ide_name_convert_individual ide_buf 23 8;
  model ← ide_name_convert_individual ide_buf 27 40;
  Done (fw, serial, model).

(** [while(status & BSY)] or [while(!(status & DRQ))], until an error or the time-out;
    the last status, or nothing. *)
Fixpoint wait_status (timeout : nat) (continue_ : Z -> bool) (port status : Z) : IO D (option Z) :=
  if negb (continue_ status) then mret (Some status)
  else if status_has status ATA_SR_ERR then mret None
  else match timeout with
       | O => mret None
       | S timeout' => status ← inb (port + ATA_REG_STATUS); wait_status timeout' continue_ port status
       end.

Definition set_drive (n : Z) (d : ata_drive_t) (s : ide) : outcome ide :=
  l ← array_set (drives s) n d; Done (Ide l (registered s)).

Definition register_drive (n : Z) (s : ide) : ide := Ide (drives s) (registered s ++ [u8 n]).

(** A packet device: the size and the block size are asked for in turn. *)
Definition identify_packet (bus drive drive_num port : Z) (s : ide) : IO D (Z * ide) :=
  d ← drive_at s drive_num;
  _ ← outb (port + ATA_REG_COMMAND) ATA_CMD_IDENTIFY_PACKET;
  _ ← sleep_ms 15;
  ide_buf ← insw (port + ATA_REG_DATA) 256;
  names ← lift (ide_name_convert ide_buf);
  cap ← atapi_read_size bus drive;
  bs ← atapi_read_block_size bus drive;
  let '(fw, serial, model) := names in
  s ← lift (set_drive drive_num
              (AtaDrive cap model fw serial (u16 bs) (drive_number d) true true (is_dma d)) s);
  mret (0, register_drive drive_num s).

(** A disk: the capacity is taken from the words 100 and 101. *)
Definition identify_disk (drive_num port status : Z) (s : ide) : IO D (Z * ide) :=
  d ← drive_at s drive_num;
  r ← wait_status (Z.to_nat DEFAULT_TIMEOUT) (fun st => status_has st ATA_SR_BSY) port status;
  match r with
  | None => mret (1, s)
  | Some status =>
      r ← wait_status (Z.to_nat DEFAULT_TIMEOUT) (fun st => negb (status_has st ATA_SR_DRQ)) port status;
      match (r : option Z) with
      | None => mret (1, s)
      | Some _ =>
          ide_buf ← insw (port + ATA_REG_DATA) 256;
          names ← lift (ide_name_convert ide_buf);
          hi ← lift (array_get ide_buf 101); lo ← lift (array_get ide_buf 100);
          caps ← lift (array_get ide_buf 49);
          let '(fw, serial, model) := names in
          s ← lift (set_drive drive_num
                      (AtaDrive (u32 (Z.lor (Z.shiftl hi 16) lo)) model fw serial 512 drive_num true
                         (is_packet d) (status_has caps 0x200)) s);
          mret (0, register_drive drive_num s)
      end
  end.

Definition ide_identify (bus drive : Z) (s : ide) : IO D (Z * ide) :=
  let port := if bus =? ATA_PRIMARY then ATA_PRIMARY_IO else ATA_SECONDARY_IO in
  let drive_num := Z.lor (Z.shiftl bus 1) drive in
  _ ← ide_soft_reset port;
  _ ← ide_select_drive bus drive;
  _ ← outb (port + ATA_REG_SECCOUNT0) 0;
  _ ← outb (port + ATA_REG_LBA0) 0;
  _ ← outb (port + ATA_REG_LBA1) 0;
  _ ← outb (port + ATA_REG_LBA2) 0;
  _ ← outb (port + ATA_REG_COMMAND) ATA_CMD_IDENTIFY;
  status ← inb (port + ATA_REG_STATUS);
  if status =? 0 then mret (1, s)
  else
    seccount ← inb (port + ATA_REG_SECCOUNT0);
    lba_l ← inb (port + ATA_REG_LBA0);
    lba_m ← inb (port + ATA_REG_LBA1);
    lba_h ← inb (port + ATA_REG_LBA2);
    if (seccount =? 0x01) && (lba_l =? 0x01) && (lba_m =? 0x14) && (lba_h =? 0xEB)
    then identify_packet bus drive drive_num port s
    else if (seccount =? 0x7F) && (lba_l =? 0x7F) && (lba_m =? 0x7F) && (lba_h =? 0x7F)
    then mret (1, s)
    else identify_disk drive_num port status s.

Definition ata_check_all (s : ide) : IO D ide :=
  r ← ide_identify ATA_PRIMARY 0 s;
  r ← ide_identify ATA_PRIMARY 1 (snd r);
  r ← ide_identify ATA_SECONDARY 0 (snd r);
  r ← ide_identify ATA_SECONDARY 1 (snd r);
  mret (snd r).

(** ** Reading and writing bytes *)

(** The sectors that hold [length] bytes from [location] on, in 32 bits. *)
Definition first_sector (d : ata_drive_t) (location : Z) : Z := location / block_size d.
Definition sector_count (d : ata_drive_t) (location length : Z) : Z :=
  u32 (u32 (location + length - 1) / block_size d - location / block_size d + 1).

(** Programmed or packet transfer; the contents of the fresh buffer are [fresh]. *)
Definition ata_read_pio (s : ide) (drive location length : Z) (fresh : list Z) : IO D (list Z) :=
  d ← drive_at s drive;
  let count := sector_count d location length in
  let real_buf := take (Z.to_nat (u32 (count * block_size d))) fresh in
  real_buf ← (if is_packet d
              then r ← atapi_read_sectors drive real_buf (first_sector d location) count; mret (snd r)
              else ata_pio_read_sectors s drive real_buf (first_sector d location) count);
  lift (get_bytes real_buf (location mod block_size d) length).

(** Always by programmed transfers, also on a packet device. *)
Definition ata_write (s : ide) (drive : Z) (buf : list Z) (location length : Z) (fresh : list Z) : IO D unit :=
  d ← drive_at s drive;
  if negb (online d) then mret tt
  else
    let count := sector_count d location length in
    let temp_buf := take (Z.to_nat (u32 (count * block_size d))) fresh in
    temp_buf ← ata_pio_read_sectors s drive temp_buf (first_sector d location) count;
    data ← lift (get_bytes buf 0 length);
    temp_buf ← lift (put_bytes temp_buf (location mod block_size d) data);
    ata_pio_write_sectors s drive temp_buf (first_sector d location) count.

Definition DISKMAN_COMMAND_EJECT : Z := 0.
Definition DISKMAN_COMMAND_GET_MEDIUM_STATUS : Z := 1.
Definition DISKMAN_COMMAND_GET_DRIVE_TYPE : Z := 2.
Definition DISKMAN_COMMAND_GET_MEDIUM_CAPACITY : Z := 3.
Definition DISKMAN_MEDIUM_OFFLINE : Z := 0.
Definition DISKMAN_MEDIUM_LOADING : Z := 1.
Definition DISKMAN_MEDIUM_ONLINE : Z := 2.

Definition bytes64 (x : Z) : list Z := bytes32 (u32 x) ++ bytes32 (u32 (x / 2 ^ 32)).

(** The answer and the buffer afterwards; no buffer is the null pointer. *)
Definition ata_diskman_control (s : ide) (drive command : Z) (buffer : option (list Z))
    : outcome (Z * option (list Z)) :=
  d ← array_get (drives s) drive;
  if command =? DISKMAN_COMMAND_GET_MEDIUM_CAPACITY then
    match buffer with
    | None => Done (-1, buffer)
    | Some b =>
        if Z.of_nat (length b) <? 12 then Done (-1, buffer)
        else b ← put_bytes b 0 (bytes64 (capacity d)); b ← put_bytes b 8 (bytes32 (block_size d)); Done (0, Some b)
    end
  else if command =? DISKMAN_COMMAND_GET_DRIVE_TYPE then
    match buffer with
    | None => Done (-1, buffer)
    | Some b =>
        if Z.of_nat (length b) <? 4 then Done (-1, buffer)
        else b ← put_bytes b 0 (bytes32 (if is_packet d then 1 else 0)); Done (-1, Some b)
    end
  else Done (-1, buffer).

End Driver.
