(* ===== verification/AtaDisk.v ===== *)
(** * A disk behind an IDE channel is an array of bytes

    What the ATA standard promises about the command block of a channel, as laws, and
    what the driver of Ide.v makes of it: [ata_read] and [ata_write] read and
    write the bytes of the disk. *)
From Stdlib Require Import ZArith Lia.
From stdpp Require Import base list numbers.
From S2P Require Import Prelude Bytes Ports Ide.

#[local] Open Scope Z_scope.

(** ** The device *)

(** What a channel is doing.  [busy] is the number of times its status will still be
    read as busy. *)
Inductive phase :=
  | Ready
  | Reading (busy : nat) (ws : list Z)
  | Writing (busy : nat) (unit_ lba : Z) (got : list Z)
  | Flushing (busy : nat).

(** The unit and the 28-bit sector number in a task file. *)
Definition unit_of (task : Z -> Z) : Z := Z.land (Z.shiftr (task ATA_REG_HDDEVSEL) 4) 1.
Definition lba_of (task : Z -> Z) : Z :=
  task ATA_REG_LBA0 + 2 ^ 8 * task ATA_REG_LBA1 + 2 ^ 16 * task ATA_REG_LBA2
  + 2 ^ 24 * Z.land (task ATA_REG_HDDEVSEL) 0x0F.

Definition status_of (st : Z) (busy drq : bool) : Prop :=
  status_has st ATA_SR_BSY = busy /\ status_has st ATA_SR_DRQ = drq /\
  status_has st ATA_SR_ERR = false /\ status_has st ATA_SR_DF = false.

Section Disk.
Context `{PortIO D}.
Variable port : Z.
Variable max_busy : nat.
Variable ph : D -> phase.
Variable task : D -> Z -> Z.
Variable medium : D -> Z -> Z -> list Z.

Definition unchanged (d d' : D) : Prop :=
  ph d' = ph d /\ (forall r, task d' r = task d r) /\ (forall u l, medium d' u l = medium d u l).

Definition same_medium (d d' : D) : Prop := forall u l, medium d' u l = medium d u l.

(** The laws for a device that makes no errors and that has taken in a sector when its
    last word was written. *)
Record channel_laws : Prop := ChannelLaws {
  law_port : port = ATA_PRIMARY_IO \/ port = ATA_SECONDARY_IO;
  law_medium : forall d u l, length (medium d u l) = 256%nat /\ Forall (fun w => 0 <= w < 65536) (medium d u l);
  law_task : forall r v d, 1 <= r <= 6 -> ph d = Ready ->
    let d' := port_outb (port + r) v d in
    ph d' = Ready /\ (forall r', task d' r' = if r' =? r then v else task d r') /\ same_medium d d';
  law_alternate : forall d, unchanged d (snd (port_inb (port + ATA_REG_ALTSTATUS) d));
  law_read : forall d, ph d = Ready -> task d ATA_REG_SECCOUNT0 = 1 ->
    let d' := port_outb (port + ATA_REG_COMMAND) ATA_CMD_READ_PIO d in
    same_medium d d' /\
    exists busy, (busy <= max_busy)%nat /\ ph d' = Reading busy (medium d (unit_of (task d)) (lba_of (task d)));
  law_write : forall d, ph d = Ready -> task d ATA_REG_SECCOUNT0 = 1 ->
    let d' := port_outb (port + ATA_REG_COMMAND) ATA_CMD_WRITE_PIO d in
    same_medium d d' /\
    exists busy, (busy <= max_busy)%nat /\ ph d' = Writing busy (unit_of (task d)) (lba_of (task d)) [];
  law_flush : forall d, ph d = Ready ->
    let d' := port_outb (port + ATA_REG_COMMAND) ATA_CMD_CACHE_FLUSH d in
    same_medium d d' /\ exists busy, (busy <= max_busy)%nat /\ ph d' = Flushing busy;
  law_status : forall d, let (st, d') := port_inb (port + ATA_REG_STATUS) d in
    same_medium d d' /\
    match ph d with
    | Ready => status_of st false false /\ ph d' = Ready
    | Reading O ws => status_of st false true /\ ph d' = Reading O ws
    | Reading (S n) ws => status_of st true false /\ ph d' = Reading n ws
    | Writing O u l got => status_of st false true /\ ph d' = Writing O u l got
    | Writing (S n) u l got => status_of st true false /\ ph d' = Writing n u l got
    | Flushing O => status_of st false false /\ ph d' = Ready
    | Flushing (S n) => status_of st true false /\ ph d' = Flushing n
    end;
  law_data_in : forall d w ws, ph d = Reading O (w :: ws) ->
    let (v, d') := port_inw (port + ATA_REG_DATA) d in
    v = w /\ same_medium d d' /\ ph d' = match ws with [] => Ready | _ => Reading O ws end;
  law_data_out : forall d u l got w, ph d = Writing O u l got -> 0 <= w < 65536 ->
    (length got < 256)%nat -> Forall (fun w => 0 <= w < 65536) got ->
    let d' := port_outw (port + ATA_REG_DATA) w d in
    let got' := got ++ [w] in
    if (length got' <? 256)%nat then ph d' = Writing O u l got' /\ same_medium d d'
    else ph d' = Ready /\
         forall u' l', medium d' u' l' = if (u' =? u) && (l' =? l) then got' else medium d u' l'
}.

Context (L : channel_laws).
Variable polls : nat.
Hypothesis patient : (max_busy < polls)%nat.

Lemma unchanged_refl d : unchanged d d.
Proof. done. Qed.

Lemma unchanged_trans a b c : unchanged a b -> unchanged b c -> unchanged a c.
Proof. intros (P1 & T1 & M1) (P2 & T2 & M2). repeat split; intros; congruence. Qed.

Lemma unchanged_medium a b : unchanged a b -> same_medium a b.
Proof. by intros (_ & _ & ?). Qed.

Lemma same_medium_trans a b c : same_medium a b -> same_medium b c -> same_medium a c.
Proof. intros M1 M2 u l. by rewrite M2, M1. Qed.

Lemma reg_address r : 0 <= r <= 12 -> u16 (port + r) = port + r.
Proof. intros Hr. apply u16_small. destruct (law_port L) as [-> | ->]; unfold ATA_PRIMARY_IO, ATA_SECONDARY_IO; lia. Qed.

(** ** Steps of the driver *)

Lemma delay_run d : exists d', ide_400ns_delay port d = Done (tt, d') /\ unchanged d d'.
Proof.
  assert (forall e, exists v e', inb (port + ATA_REG_ALTSTATUS) e = Done (v, e') /\ unchanged e e') as Hin.
  { intros e. unfold inb. rewrite reg_address by (unfold ATA_REG_ALTSTATUS; lia).
    destruct (port_inb (port + ATA_REG_ALTSTATUS) e) as [v e'] eqn:E. exists v, e'. split; [done|].
    pose proof (law_alternate L e) as U. by rewrite E in U. }
  destruct (Hin d) as (v1 & d1 & E1 & U1). destruct (Hin d1) as (v2 & d2 & E2 & U2).
  destruct (Hin d2) as (v3 & d3 & E3 & U3). destruct (Hin d3) as (v4 & d4 & E4 & U4).
  exists d4. split; [|by repeat (eapply unchanged_trans; [eassumption|])].
  unfold ide_400ns_delay. rewrite (bind_run _ _ _ _ _ E1), (bind_run _ _ _ _ _ E2), (bind_run _ _ _ _ _ E3), (bind_run _ _ _ _ _ E4). done.
Qed.

Lemma status_run d :
  exists st d', inb (port + ATA_REG_STATUS) d = Done (st, d') /\ port_inb (port + ATA_REG_STATUS) d = (st, d').
Proof.
  unfold inb. rewrite reg_address by (unfold ATA_REG_STATUS; lia).
  destruct (port_inb (port + ATA_REG_STATUS) d) as [st d']. eauto.
Qed.

Ltac status d st d' :=
  let E := fresh "E" in let P := fresh "P" in let Lw := fresh "Lw" in
  destruct (status_run d) as (st & d' & E & P); pose proof (law_status L d) as Lw; rewrite P in Lw; clear P.

(** Waiting for the data of a read. *)
Lemma poll_not_busy_run d n ws k :
  ph d = Reading n ws -> (n < k)%nat ->
  exists d', poll_not_busy k port d = Done (tt, d') /\ ph d' = Reading O ws /\ same_medium d d'.
Proof.
  revert d k. induction n as [|n IH]; intros d k Hp Hk; (destruct k as [|k]; [lia|]); cbn [poll_not_busy];
    status d st d'; rewrite Hp in Lw; destruct Lw as (M & (Hb & _) & Hp').
  - exists d'. rewrite (bind_run _ _ _ _ _ E), Hb. done.
  - destruct (IH d' k Hp' ltac:(lia)) as (d2 & E2 & Hp2 & M2). exists d2.
    rewrite (bind_run _ _ _ _ _ E), Hb. cbn [negb]. split; [done|]. split; [done|]. by eapply same_medium_trans.
Qed.

Lemma poll_err_drq_run d ws k :
  ph d = Reading O ws -> (0 < k)%nat ->
  exists d', poll_err_drq k port d = Done (tt, d') /\ ph d' = Reading O ws /\ same_medium d d'.
Proof.
  intros Hp Hk. destruct k as [|k]; [lia|]. cbn [poll_err_drq]. status d st d'. rewrite Hp in Lw.
  destruct Lw as (M & (Hb & Hd & He & _) & Hp'). exists d'. rewrite (bind_run _ _ _ _ _ E), He, Hd. done.
Qed.

Lemma ide_poll_run d n ws :
  ph d = Reading n ws -> (n <= max_busy)%nat ->
  exists d', ide_poll polls port d = Done (tt, d') /\ ph d' = Reading O ws /\ same_medium d d'.
Proof.
  intros Hp Hn. unfold ide_poll. destruct (delay_run d) as (d1 & E1 & U1). rewrite (bind_run _ _ _ _ _ E1).
  assert (ph d1 = Reading n ws) as Hp1 by (destruct U1; congruence).
  status d1 st d2. rewrite (bind_run _ _ _ _ _ E).
  assert (exists m, ph d2 = Reading m ws /\ (m <= max_busy)%nat /\ same_medium d1 d2) as (m & Hp2 & Hm & M2).
  { rewrite Hp1 in Lw. destruct Lw as (M & Lw). destruct n; destruct Lw as (_ & Hp'); eexists; (split; [exact Hp'|]); split; done || lia. }
  destruct (poll_not_busy_run d2 m ws polls Hp2 ltac:(lia)) as (d3 & E3 & Hp3 & M3). rewrite (bind_run _ _ _ _ _ E3).
  destruct (poll_err_drq_run d3 ws polls Hp3 ltac:(lia)) as (d4 & E4 & Hp4 & M4). exists d4. split; [done|]. split; [done|].
  eapply same_medium_trans; [by apply unchanged_medium|]. eapply same_medium_trans; [done|].
  by eapply same_medium_trans.
Qed.

(** Taking in the words of a sector. *)
Lemma insw_run ws d :
  ph d = Reading O ws -> ws <> [] ->
  exists d', insw (port + ATA_REG_DATA) (length ws) d = Done (ws, d') /\ ph d' = Ready /\ same_medium d d'.
Proof.
  revert d. induction ws as [|w ws IH]; intros d Hp Hne; [done|]. unfold insw. cbn [times length].
  pose proof (law_data_in L d w ws Hp) as Lw.
  destruct (port_inw (port + ATA_REG_DATA) d) as [v d1] eqn:E. destruct Lw as (-> & M & Hp1).
  assert (inw (port + ATA_REG_DATA) d = Done (w, d1)) as E1.
  { unfold inw. rewrite reg_address by (unfold ATA_REG_DATA; lia). by rewrite E. }
  rewrite (bind_run _ _ _ _ _ E1). destruct ws as [|w' ws].
  - exists d1. done.
  - destruct (IH d1 Hp1 ltac:(done)) as (d2 & E2 & Hp2 & M2). exists d2.
    unfold insw in E2. rewrite (bind_run _ _ _ _ _ E2). split; [done|]. split; [done|]. by eapply same_medium_trans.
Qed.

(** The registers before a command. *)
Lemma outb_task r v d :
  1 <= r <= 6 -> 0 <= v < 256 -> ph d = Ready ->
  exists d', outb (port + r) v d = Done (tt, d') /\ ph d' = Ready /\
    (forall r', task d' r' = if r' =? r then v else task d r') /\ same_medium d d'.
Proof.
  intros Hr Hv Hp. unfold outb. rewrite reg_address, u8_small by lia. eexists. split; [done|]. by apply (law_task L).
Qed.

Lemma lba_split lba :
  0 <= lba < 2 ^ 24 -> u8 lba + 2 ^ 8 * u8 (Z.shiftr lba 8) + 2 ^ 16 * u8 (Z.shiftr lba 16) = lba.
Proof.
  intros Hl. rewrite !Z.shiftr_div_pow2 by lia. unfold u8.
  change (2 ^ 8) with 256. change (2 ^ 16) with 65536. change (2 ^ 24) with 16777216 in Hl.
  rewrite (Z.mod_small (lba / 65536)) by (split; [apply Z.div_pos; lia|apply Z.div_lt_upper_bound; lia]).
  pose proof (Z.div_mod lba 256 ltac:(lia)). pose proof (Z.div_mod (lba / 256) 256 ltac:(lia)) as Hd.
  rewrite Z.div_div in Hd by lia. change (256 * 256) with 65536 in Hd. lia.
Qed.

(** Selecting unit and sector: the command finds them in the task file. *)
Lemma pio_command_run d unit_ lba command :
  ph d = Ready -> unit_ = 0 \/ unit_ = 1 -> 0 <= lba < 2 ^ 24 -> 0 <= command < 256 ->
  exists d1, pio_command port unit_ lba 1 command d = Done (tt, port_outb (port + ATA_REG_COMMAND) command d1) /\
    ph d1 = Ready /\ same_medium d d1 /\ task d1 ATA_REG_SECCOUNT0 = 1 /\
    unit_of (task d1) = unit_ /\ lba_of (task d1) = lba.
Proof.
  intros Hp Hu Hl Hc. unfold pio_command.
  assert (Z.land (Z.shiftr lba 24) 0x0F = 0) as Htop.
  { rewrite Z.shiftr_div_pow2, Z.div_small by lia. done. }
  rewrite Htop. set (sel := Z.lor _ _).
  assert (0 <= sel < 256 /\ Z.land (Z.shiftr sel 4) 1 = unit_ /\ Z.land sel 0x0F = 0) as (Hs1 & Hs2 & Hs3).
  { unfold sel. destruct Hu as [-> | ->]; repeat split; vm_compute; done || congruence. }
  destruct (outb_task ATA_REG_HDDEVSEL sel d) as (d1 & E1 & P1 & T1 & M1); [unfold ATA_REG_HDDEVSEL; lia|done|done|].
  destruct (outb_task 1 0 d1) as (d2 & E2 & P2 & T2 & M2); [lia|lia|done|].
  destruct (outb_task ATA_REG_SECCOUNT0 1 d2) as (d3 & E3 & P3 & T3 & M3); [unfold ATA_REG_SECCOUNT0; lia|lia|done|].
  pose proof u8_range as Hu8. change (2 ^ 8) with 256 in Hu8.
  destruct (outb_task ATA_REG_LBA0 (u8 lba) d3) as (d4 & E4 & P4 & T4 & M4); [unfold ATA_REG_LBA0; lia|done|done|].
  destruct (outb_task ATA_REG_LBA1 (u8 (Z.shiftr lba 8)) d4) as (d5 & E5 & P5 & T5 & M5); [unfold ATA_REG_LBA1; lia|done|done|].
  destruct (outb_task ATA_REG_LBA2 (u8 (Z.shiftr lba 16)) d5) as (d6 & E6 & P6 & T6 & M6); [unfold ATA_REG_LBA2; lia|done|done|].
  exists d6. rewrite (bind_run _ _ _ _ _ E1), (bind_run _ _ _ _ _ E2), (bind_run _ _ _ _ _ E3),
    (bind_run _ _ _ _ _ E4), (bind_run _ _ _ _ _ E5), (bind_run _ _ _ _ _ E6).
  split; [unfold outb; by rewrite reg_address, u8_small by (unfold ATA_REG_COMMAND; lia)|].
  split; [done|]. split; [by repeat (eapply same_medium_trans; [eassumption|])|].
  unfold unit_of, lba_of. rewrite !T6, !T5, !T4, !T3, !T2, !T1. cbn [Z.eqb Pos.eqb ATA_REG_SECCOUNT0 ATA_REG_LBA0 ATA_REG_LBA1 ATA_REG_LBA2 ATA_REG_HDDEVSEL].
  split; [done|]. split; [done|]. rewrite Hs3, lba_split by done. lia.
Qed.

(** ** Sectors *)

(** The drive of the table that sits behind the channel. *)
Record drive_here (s : ide) (drive unit_ : Z) : Prop := DriveHere {
  here_unit : ata_set_params drive = (port, unit_);
  here_drive : exists dr, array_get (drives s) drive = Done dr /\ online dr = true /\
    is_packet dr = false /\ block_size dr = 512;
  here_number : unit_ = 0 \/ unit_ = 1
}.

Definition sector_bytes (d : D) (u l : Z) : list Z := words_bytes (medium d u l).

Lemma sector_bytes_length d u l : length (sector_bytes d u l) = 512%nat.
Proof. unfold sector_bytes. rewrite words_bytes_length. by destruct (law_medium L d u l) as [-> _]. Qed.

Lemma words_bytes_range ws : Forall is_byte (words_bytes ws).
Proof.
  unfold words_bytes. induction ws as [|w ws IH]; [constructor|]. cbn [map concat]. apply Forall_app_2; [|done].
  unfold bytes16, is_byte. repeat constructor; apply Z.mod_pos_bound; lia.
Qed.

Lemma lba_bits_mod lba : lba_bits lba = lba mod 2 ^ 24.
Proof. unfold lba_bits. change 0x00FFFFFF with (Z.ones 24). by apply Z.land_ones. Qed.

Lemma read_sector_run s drive u lba d :
  drive_here s drive u -> ph d = Ready ->
  exists d', ata_pio_read_sector polls s drive lba d = Done (Some (sector_bytes d u (lba mod 2 ^ 24)), d') /\
    ph d' = Ready /\ same_medium d d'.
Proof.
  intros [Hu (dr & Hdr & Hon & _) Hun] Hp. unfold ata_pio_read_sector, drive_at. rewrite lba_bits_mod.
  assert (0 <= lba mod 2 ^ 24 < 2 ^ 24) as Hl by (apply Z.mod_pos_bound; lia).
  rewrite (bind_run _ _ d dr d) by (unfold lift; by rewrite Hdr). rewrite Hon, Hu. cbn [negb].
  destruct (pio_command_run d u (lba mod 2 ^ 24) ATA_CMD_READ_PIO Hp Hun Hl ltac:(unfold ATA_CMD_READ_PIO; lia))
    as (d1 & E1 & P1 & M1 & C1 & U1 & L1). rewrite (bind_run _ _ _ _ _ E1).
  destruct (law_read L d1 P1 C1) as (M2 & busy & Hb & P2). rewrite U1, L1 in P2. set (d2 := port_outb _ _ _) in *.
  destruct (ide_poll_run d2 busy _ P2 Hb) as (d3 & E3 & P3 & M3). rewrite (bind_run _ _ _ _ _ E3).
  destruct (law_medium L d1 u (lba mod 2 ^ 24)) as [Hlen _].
  destruct (insw_run _ _ P3) as (d4 & E4 & P4 & M4); [by destruct (medium d1 u _)|]. rewrite Hlen in E4.
  rewrite (bind_run _ _ _ _ _ E4). destruct (delay_run d4) as (d5 & E5 & U5). rewrite (bind_run _ _ _ _ _ E5).
  exists d5. unfold sector_bytes. rewrite <- (M1 u). split; [done|].
  split; [destruct U5; congruence|].
  do 4 (eapply same_medium_trans; [eassumption|]). by apply unchanged_medium.
Qed.

Lemma poll_drq_run d n u l got k :
  ph d = Writing n u l got -> (n < k)%nat ->
  exists d', poll_drq k port d = Done (true, d') /\ ph d' = Writing O u l got /\ same_medium d d'.
Proof.
  revert d k. induction n as [|n IH]; intros d k Hp Hk; (destruct k as [|k]; [lia|]); cbn [poll_drq];
    status d st d'; rewrite Hp in Lw; destruct Lw as (M & (Hb & Hq & He & Hf) & Hp').
  - exists d'. rewrite (bind_run _ _ _ _ _ E), Hq. done.
  - destruct (IH d' k Hp' ltac:(lia)) as (d2 & E2 & Hp2 & M2). exists d2.
    rewrite (bind_run _ _ _ _ _ E), Hq, He, Hf. cbn [orb]. split; [done|]. split; [done|]. by eapply same_medium_trans.
Qed.

Lemma poll_bsy_run d n k :
  ph d = Flushing n -> (n < k)%nat ->
  exists d', poll_bsy k port d = Done (true, d') /\ ph d' = Ready /\ same_medium d d'.
Proof.
  revert d k. induction n as [|n IH]; intros d k Hp Hk; (destruct k as [|k]; [lia|]); cbn [poll_bsy];
    status d st d'; rewrite Hp in Lw; destruct Lw as (M & (Hb & Hq & He & Hf) & Hp').
  - exists d'. rewrite (bind_run _ _ _ _ _ E), Hb. done.
  - destruct (IH d' k Hp' ltac:(lia)) as (d2 & E2 & Hp2 & M2). exists d2.
    rewrite (bind_run _ _ _ _ _ E), Hb, He, Hf. cbn [negb orb]. split; [done|]. split; [done|]. by eapply same_medium_trans.
Qed.

Lemma outsw_run ws got u l d :
  ph d = Writing O u l got -> (length got + length ws = 256)%nat -> ws <> [] ->
  Forall (fun w => 0 <= w < 65536) got -> Forall (fun w => 0 <= w < 65536) ws ->
  exists d', outsw (port + ATA_REG_DATA) ws d = Done (tt, d') /\ ph d' = Ready /\
    forall u' l', medium d' u' l' = if (u' =? u) && (l' =? l) then got ++ ws else medium d u' l'.
Proof.
  revert got d. induction ws as [|w ws IH]; intros got d Hp Hlen Hne Hgot Hws; [done|]. cbn [outsw].
  apply list.Forall_cons in Hws as [Hw Hws]. cbn [length] in Hlen.
  pose proof (law_data_out L d u l got w Hp Hw ltac:(lia) Hgot) as Lw. cbv zeta in Lw. rewrite length_app in Lw. cbn [length] in Lw.
  assert (outw (port + ATA_REG_DATA) w d = Done (tt, port_outw (port + ATA_REG_DATA) w d)) as E1.
  { unfold outw. rewrite reg_address by (unfold ATA_REG_DATA; lia). by rewrite u16_small by lia. }
  rewrite (bind_run _ _ _ _ _ E1). destruct ws as [|w' ws].
  - cbn [length] in Hlen. destruct (Nat.ltb_spec (length got + 1) 256); [lia|]. destruct Lw as [P M].
    exists (port_outw (port + ATA_REG_DATA) w d). split; [done|]. split; [exact P|exact M].
  - cbn [length] in Hlen. destruct (Nat.ltb_spec (length got + 1) 256); [|lia]. destruct Lw as [P M].
    destruct (IH (got ++ [w]) _ P) as (d2 & E2 & P2 & M2); [rewrite length_app; cbn; lia|done| |done|].
    { apply Forall_app_2; [done|]. constructor; [done|constructor]. }
    exists d2. split; [done|]. split; [done|]. intros u' l'. rewrite M2, <- app_assoc. cbn [app].
    destruct ((u' =? u) && (l' =? l)); [done|]. apply M.
Qed.

Definition put_sector (d d' : D) (u l : Z) (ws : list Z) : Prop :=
  forall u' l', medium d' u' l' = if (u' =? u) && (l' =? l) then ws else medium d u' l'.

Lemma write_sector_run s drive u lba buf d :
  drive_here s drive u -> ph d = Ready -> (512 <= length buf)%nat -> Forall is_byte buf ->
  exists d', ata_pio_write_raw_sector polls s drive buf lba d = Done (1, d') /\ ph d' = Ready /\
    put_sector d d' u (lba mod 2 ^ 24) (bytes_words (take 512 buf)).
Proof.
  intros [Hu (dr & Hdr & Hon & _) Hun] Hp Hbl Hbb. unfold ata_pio_write_raw_sector, drive_at. rewrite lba_bits_mod.
  assert (0 <= lba mod 2 ^ 24 < 2 ^ 24) as Hl by (apply Z.mod_pos_bound; lia).
  rewrite (bind_run _ _ d dr d) by (unfold lift; by rewrite Hdr). rewrite Hon, Hu. cbn [negb].
  destruct (pio_command_run d u (lba mod 2 ^ 24) ATA_CMD_WRITE_PIO Hp Hun Hl ltac:(unfold ATA_CMD_WRITE_PIO; lia))
    as (d1 & E1 & P1 & M1 & C1 & U1 & L1). rewrite (bind_run _ _ _ _ _ E1).
  destruct (law_write L d1 P1 C1) as (M2 & busy & Hb & P2). rewrite U1, L1 in P2. set (d2 := port_outb _ _ _) in *.
  destruct (poll_drq_run d2 busy u (lba mod 2 ^ 24) [] polls P2 ltac:(lia)) as (d3 & E3 & P3 & M3).
  unfold ide_poll_drq. rewrite (bind_run _ _ _ _ _ E3).
  set (sector := take 512 buf). assert (length sector = (2 * 256)%nat) as Hsl by (unfold sector; rewrite length_take; lia).
  assert (Forall is_byte sector) as Hsb by by apply Forall_take.
  rewrite (bind_run _ _ d3 sector d3).
  2: { unfold lift. rewrite get_bytes_ok by lia. done. }
  destruct (outsw_run (bytes_words sector) [] u (lba mod 2 ^ 24) d3 P3) as (d4 & E4 & P4 & M4).
  { by rewrite (bytes_words_length _ 256). }
  { intros Hnil. pose proof (bytes_words_length _ 256 Hsl) as Hx. by rewrite Hnil in Hx. }
  { constructor. }
  { by apply bytes_words_range. }
  rewrite (bind_run _ _ _ _ _ E4). destruct (delay_run d4) as (d5 & E5 & U5). rewrite (bind_run _ _ _ _ _ E5).
  assert (ph d5 = Ready) as P5 by (destruct U5; congruence).
  destruct (law_flush L d5 P5) as (M6 & fb & Hfb & P6). set (d6 := port_outb _ _ d5) in *.
  rewrite (bind_run _ _ d5 tt d6).
  2: { unfold outb. by rewrite reg_address, u8_small by (unfold ATA_REG_COMMAND, ATA_CMD_CACHE_FLUSH; lia). }
  destruct (poll_bsy_run d6 fb polls P6 ltac:(lia)) as (d7 & E7 & P7 & M7). unfold ide_poll_bsy.
  rewrite (bind_run _ _ _ _ _ E7). exists d7. split; [done|]. split; [done|].
  intros u' l'. rewrite (M7 u'), (M6 u'), (unchanged_medium _ _ U5 u'), M4. cbn [app].
  destruct ((u' =? u) && (l' =? _)); [done|]. by rewrite (M3 u'), (M2 u'), (M1 u').
Qed.

(** ** Runs of sectors *)

Definition range_bytes (d : D) (u l : Z) (n : nat) : list Z :=
  concat (map (fun j => sector_bytes d u (l + Z.of_nat j)) (seq 0 n)).

Lemma range_bytes_S d u l n : range_bytes d u l (S n) = sector_bytes d u l ++ range_bytes d u (l + 1) n.
Proof.
  unfold range_bytes. cbn [seq map concat]. rewrite Z.add_0_r. f_equal. rewrite <- seq_shift, map_map.
  f_equal. apply map_ext. intros j. f_equal. lia.
Qed.

Lemma range_bytes_length d u l n : length (range_bytes d u l n) = (512 * n)%nat.
Proof.
  revert l. induction n as [|n IH]; intros l; [done|]. rewrite range_bytes_S, length_app, sector_bytes_length, IH. lia.
Qed.

Lemma sector_bytes_same d d' u l : same_medium d d' -> sector_bytes d' u l = sector_bytes d u l.
Proof. intros M. unfold sector_bytes. by rewrite M. Qed.

Lemma range_bytes_same d d' u l n : same_medium d d' -> range_bytes d' u l n = range_bytes d u l n.
Proof.
  intros M. unfold range_bytes. f_equal. apply map_ext. intros j. by apply sector_bytes_same.
Qed.

Lemma read_loop_run s drive u lba n i pre rest d :
  drive_here s drive u -> ph d = Ready -> Z.of_nat (length pre) = 512 * i -> (512 * n <= length rest)%nat ->
  0 <= i -> 0 <= lba -> lba + i + Z.of_nat n <= 2 ^ 24 ->
  exists d', read_loop polls n i s drive (pre ++ rest) lba d =
      Done (pre ++ range_bytes d u (lba + i) n ++ drop (512 * n) rest, d') /\
    ph d' = Ready /\ same_medium d d'.
Proof.
  intros Hh. revert i pre rest d. induction n as [|n IH]; intros i pre rest d Hp Hpre Hrest Hi Hl Hend.
  - exists d. done.
  - cbn [read_loop]. pose proof (here_drive _ _ _ Hh) as (dr & Hdr & Hon & Hpk & Hbs).
    assert (drive_at s drive d = Done (dr, d)) as Ed by (unfold drive_at, lift; by rewrite Hdr).
    rewrite (bind_run _ _ _ _ _ Ed).
    destruct (read_sector_run s drive u (u32 (lba + i)) d Hh Hp) as (d1 & E1 & P1 & M1).
    rewrite u32_small, Z.mod_small in E1 by lia. rewrite u32_small by lia. rewrite (bind_run _ _ _ _ _ E1).
    pose proof (sector_bytes_length d u (lba + i)) as Hsl.
    assert (lift (put_bytes (pre ++ rest) (i * block_size dr) (sector_bytes d u (lba + i))) d1
      = Done ((pre ++ sector_bytes d u (lba + i)) ++ drop 512 rest, d1)) as E2.
    { unfold lift. rewrite Hbs, put_bytes_ok by (rewrite ?length_app; lia). rewrite Hsl.
      replace (Z.to_nat (i * 512)) with (length pre) by lia.
      rewrite take_app_length, <- app_assoc. do 4 f_equal.
      by rewrite drop_app_add. }
    rewrite (bind_run _ _ _ _ _ E2).
    destruct (IH (i + 1) (pre ++ sector_bytes d u (lba + i)) (drop 512 rest) d1 P1) as (d2 & E & P2 & M2);
      [rewrite length_app; lia|rewrite length_drop; lia|lia|lia|lia|].
    exists d2. rewrite E. split; [|split; [done|by eapply same_medium_trans]].
    rewrite range_bytes_S, (range_bytes_same d d1) by done. rewrite drop_drop, <- !app_assoc.
    replace (lba + (i + 1)) with (lba + i + 1) by lia. replace (512 + 512 * n)%nat with (512 * S n)%nat by lia. done.
Qed.

Lemma read_sectors_run s drive u lba n buf d :
  drive_here s drive u -> ph d = Ready -> Z.of_nat (length buf) = 512 * n -> 0 <= lba -> 0 <= n -> lba + n <= 2 ^ 24 ->
  exists d', ata_pio_read_sectors polls s drive buf lba n d = Done (range_bytes d u lba (Z.to_nat n), d') /\
    ph d' = Ready /\ same_medium d d'.
Proof.
  intros Hh Hp Hb Hl Hn Hend.
  destruct (read_loop_run s drive u lba (Z.to_nat n) 0 [] buf d Hh Hp) as (d' & E & P & M); try (cbn; lia).
  exists d'. unfold ata_pio_read_sectors. cbn [app] in E. rewrite E, Z.add_0_r.
  rewrite drop_ge by lia. by rewrite app_nil_r.
Qed.

(** The sectors from [lba] on hold the bytes [buf]; all others are as before. *)
Definition put_range (d d' : D) (u lba : Z) (n : nat) (buf : list Z) : Prop :=
  forall u' l, sector_bytes d' u' l =
    if (u' =? u) && (lba <=? l) && (l <? lba + Z.of_nat n)
    then take 512 (drop (Z.to_nat (512 * (l - lba))) buf) else sector_bytes d u' l.

Lemma write_loop_run s drive u lba n i buf d :
  drive_here s drive u -> ph d = Ready -> Z.of_nat (length buf) = 512 * (i + Z.of_nat n) -> Forall is_byte buf ->
  0 <= i -> 0 <= lba -> lba + i + Z.of_nat n <= 2 ^ 24 ->
  exists d', write_loop polls n i s drive buf lba d = Done (tt, d') /\ ph d' = Ready /\
    put_range d d' u (lba + i) n (drop (Z.to_nat (512 * i)) buf).
Proof.
  intros Hh. revert i d. induction n as [|n IH]; intros i d Hp Hb Hby Hi Hl Hend.
  - exists d. split; [done|]. split; [done|]. intros u' l.
    destruct (Z.leb_spec (lba + i) l), (Z.ltb_spec l (lba + i + Z.of_nat 0)); rewrite ?andb_false_r; done || lia.
  - cbn [write_loop]. pose proof (here_drive _ _ _ Hh) as (dr & Hdr & Hon & Hpk & Hbs).
    assert (drive_at s drive d = Done (dr, d)) as Ed by (unfold drive_at, lift; by rewrite Hdr).
    rewrite (bind_run _ _ _ _ _ Ed), Hbs. replace (i * 512) with (512 * i) by lia.
    set (rest := drop (Z.to_nat (512 * i)) buf).
    assert (length rest = 512 * S n)%nat as Hrl by (unfold rest; rewrite length_drop; lia).
    assert (Forall is_byte rest) as Hrb by by apply Forall_drop.
    destruct (write_sector_run s drive u (u32 (lba + i)) rest d Hh Hp) as (d1 & E1 & P1 & M1); [lia|done|].
    rewrite u32_small, Z.mod_small in M1 by lia. rewrite (bind_run _ _ _ _ _ E1).
    destruct (IH (i + 1) d1 P1) as (d2 & E2 & P2 & M2); [lia|done|lia|lia|lia|].
    exists d2. split; [done|]. split; [done|]. intros u' l. rewrite M2. clear M2 IH.
    replace (lba + (i + 1)) with (lba + i + 1) by lia.
    assert (drop (Z.to_nat (512 * (i + 1))) buf = drop 512 rest) as -> by (unfold rest; rewrite drop_drop; f_equal; lia).
    destruct (Z.eqb_spec u' u) as [->|Hne].
    2: { cbn [andb]. unfold sector_bytes. rewrite M1. destruct (Z.eqb_spec u' u); [done|]. done. }
    cbn [andb]. destruct (Z.leb_spec (lba + i + 1) l), (Z.leb_spec (lba + i) l), (Z.ltb_spec l (lba + i + 1 + Z.of_nat n)),
      (Z.ltb_spec l (lba + i + Z.of_nat (S n))); try lia; cbn [andb].
    + rewrite drop_drop. do 2 f_equal. lia.
    + unfold sector_bytes. rewrite M1, Z.eqb_refl. destruct (Z.eqb_spec l (lba + i)); [lia|done].
    + assert (l = lba + i) as -> by lia. unfold sector_bytes. rewrite M1, !Z.eqb_refl. cbn [andb].
      rewrite (bytes_words_bytes 256) by (by apply Forall_take || (rewrite ?length_take; lia)).
      by replace (Z.to_nat (512 * (lba + i - (lba + i)))) with 0%nat by lia.
    + unfold sector_bytes. rewrite M1, Z.eqb_refl. destruct (Z.eqb_spec l (lba + i)); [lia|done].
Qed.

(** ** Bytes *)

Definition disk_byte (d : D) (u a : Z) : Z := default 0 (sector_bytes d u (a / 512) !! Z.to_nat (a mod 512)).

Lemma range_bytes_lookup d u l n k :
  (k < 512 * n)%nat -> range_bytes d u l n !! k = Some (disk_byte d u (512 * l + Z.of_nat k)).
Proof.
  revert l k. induction n as [|n IH]; intros l k Hk; [lia|]. rewrite range_bytes_S.
  pose proof (sector_bytes_length d u l) as Hlen. destruct (decide (k < 512)%nat) as [Hlt|Hge].
  - rewrite lookup_app_l by lia. unfold disk_byte.
    replace ((512 * l + Z.of_nat k) / 512) with l by (apply Z.div_unique with (Z.of_nat k); lia).
    replace ((512 * l + Z.of_nat k) mod 512) with (Z.of_nat k) by (apply Z.mod_unique with l; lia).
    rewrite Nat2Z.id. destruct (lookup_lt_is_Some_2 (sector_bytes d u l) k) as [x ->]; [lia|done].
  - rewrite lookup_app_r by lia. rewrite IH by lia. do 2 f_equal. lia.
Qed.

Lemma disk_byte_same d d' u a : same_medium d d' -> disk_byte d' u a = disk_byte d u a.
Proof. intros M. unfold disk_byte. by rewrite (sector_bytes_same d d'). Qed.

(** The sectors under a range of bytes. *)
Record covers (location length start count : Z) : Prop := Covers {
  cov_start : 0 <= start;
  cov_count : 0 < count < 2 ^ 23;
  cov_end : start + count <= 2 ^ 23;
  cov_offset : location mod 512 = location - 512 * start;
  cov_range : 0 <= location - 512 * start < 512;
  cov_bytes : location - 512 * start + length <= 512 * count;
  cov_fit : 512 * count < location - 512 * start + length + 512;
  cov_buffer : u32 (count * 512) = 512 * count
}.

Lemma sector_count_covers dr location length :
  block_size dr = 512 -> 0 <= location -> 0 < length -> location + length <= 2 ^ 32 - 512 ->
  covers location length (first_sector dr location) (sector_count dr location length).
Proof.
  intros Hbs Hl Hn Hend. unfold first_sector, sector_count. rewrite Hbs.
  rewrite (u32_small (location + length - 1)) by lia.
  pose proof (Z.div_mod location 512 ltac:(lia)) as Hd. pose proof (Z.mod_pos_bound location 512 ltac:(lia)) as Hm.
  set (e := (location + length - 1) / 512).
  pose proof (Z.div_mod (location + length - 1) 512 ltac:(lia)) as Hde. fold e in Hde.
  pose proof (Z.mod_pos_bound (location + length - 1) 512 ltac:(lia)) as Hme.
  assert (location / 512 <= e) by (apply Z.div_le_mono; lia).
  assert (0 <= location / 512) by (apply Z.div_pos; lia).
  assert (e < 2 ^ 23 - 1) by (unfold e; apply Z.div_lt_upper_bound; lia).
  rewrite (u32_small (e - _ + 1)) by lia. constructor; try lia. rewrite u32_small; lia.
Qed.

Lemma get_range d u start n off len :
  (off + len <= 512 * n)%nat ->
  take len (drop off (range_bytes d u start n)) =
    map (disk_byte d u) (seqZ (512 * start + Z.of_nat off) (Z.of_nat len)).
Proof.
  intros Hle. apply list_eq. intros k. rewrite list_lookup_fmap. destruct (decide (k < len)%nat) as [Hk|Hk].
  - rewrite lookup_take_lt, lookup_drop, range_bytes_lookup by lia. rewrite lookup_seqZ_lt by lia. cbn. do 2 f_equal. lia.
  - rewrite lookup_take_ge by lia. rewrite lookup_seqZ_ge by lia. done.
Qed.

(** The buffer of a read-modify-write. *)
Lemma put_bytes_split (buf data : list Z) off :
  (off + length data <= length buf)%nat ->
  exists buf', put_bytes buf (Z.of_nat off) data = Done buf' /\ length buf' = length buf /\
    forall k, (k < length buf)%nat -> buf' !! k =
      if decide (off <= k < off + length data)%nat then data !! (k - off)%nat else buf !! k.
Proof.
  intros Hle. rewrite put_bytes_ok by lia. eexists. split; [done|]. rewrite Nat2Z.id. split.
  { rewrite !length_app, length_take, length_drop. lia. }
  intros k Hk. destruct (decide _) as [Hin|Hout].
  - rewrite lookup_app_r by (rewrite length_take; lia). rewrite length_take, Nat.min_l by lia.
    by rewrite lookup_app_l by lia.
  - destruct (decide (k < off)%nat).
    + rewrite lookup_app_l by (rewrite length_take; lia). by rewrite lookup_take_lt by lia.
    + rewrite lookup_app_r by (rewrite length_take; lia). rewrite length_take, Nat.min_l by lia.
      rewrite lookup_app_r by lia. rewrite lookup_drop. f_equal. lia.
Qed.

Lemma put_range_byte d d' u start n buf u' a :
  put_range d d' u start n buf -> length buf = (512 * n)%nat -> 0 <= start -> 0 <= a ->
  disk_byte d' u' a =
    if (u' =? u) && (512 * start <=? a) && (a <? 512 * (start + Z.of_nat n))
    then default 0 (buf !! Z.to_nat (a - 512 * start)) else disk_byte d u' a.
Proof.
  intros Hput Hlen Hs Ha. unfold disk_byte. rewrite Hput.
  pose proof (Z.div_mod a 512 ltac:(lia)) as Hd. pose proof (Z.mod_pos_bound a 512 ltac:(lia)) as Hm.
  destruct (u' =? u); [|done]. cbn [andb].
  destruct (Z.leb_spec start (a / 512)), (Z.leb_spec (512 * start) a), (Z.ltb_spec (a / 512) (start + Z.of_nat n)),
    (Z.ltb_spec a (512 * (start + Z.of_nat n))); try lia; cbn [andb]; try done.
  rewrite lookup_take_lt by lia. rewrite lookup_drop. do 2 f_equal. lia.
Qed.

Lemma drive_at_run s drive dr (e : D) : array_get (drives s) drive = Done dr -> drive_at s drive e = Done (dr, e).
Proof. intros E. unfold drive_at, lift. by rewrite E. Qed.

Lemma ata_read_pio_run s drive u location len fresh d :
  drive_here s drive u -> ph d = Ready -> 0 <= location -> 0 < len -> location + len <= 2 ^ 32 - 512 ->
  location mod 512 + len + 512 <= Z.of_nat (length fresh) ->
  exists d', ata_read_pio polls s drive location len fresh d =
      Done (map (disk_byte d u) (seqZ location len), d') /\ ph d' = Ready /\ same_medium d d'.
Proof.
  intros Hhere Hready Hloc Hlen Hend Hfresh. pose proof (here_drive _ _ _ Hhere) as (dr & Hdr & Hon & Hpk & Hbs).
  pose proof (sector_count_covers dr location len Hbs Hloc Hlen Hend) as Hc.
  unfold ata_read_pio. rewrite (bind_run _ _ _ _ _ (drive_at_run _ _ _ d Hdr)). cbv zeta.
  revert Hc. generalize (first_sector dr location) (sector_count dr location len). intros start count [].
  rewrite Hpk, Hbs, cov_buffer0.
  destruct (read_sectors_run s drive u start count (take (Z.to_nat (512 * count)) fresh) d Hhere Hready)
    as (d1 & E1 & P1 & M1); [rewrite length_take; lia|lia|lia|lia|].
  rewrite (bind_run _ _ _ _ _ E1). exists d1. split; [|done].
  unfold lift. rewrite cov_offset0, get_bytes_ok by (rewrite ?range_bytes_length; lia).
  rewrite get_range by lia. rewrite !Z2Nat.id by lia. by replace (512 * start + (location - 512 * start)) with location by lia.
Qed.

Lemma range_bytes_range d u l n : Forall is_byte (range_bytes d u l n).
Proof.
  apply Forall_concat, list.Forall_forall. intros z Hz.
  apply list_elem_of_fmap in Hz as (j & -> & _). apply words_bytes_range.
Qed.

(** Read, replace a part, write back. *)
Lemma modify_sectors_run s drive u start count location buf d :
  drive_here s drive u -> ph d = Ready -> covers location (Z.of_nat (length buf)) start count -> Forall is_byte buf ->
  let range := range_bytes d u start (Z.to_nat count) in
  exists t d', put_bytes range (location - 512 * start) buf = Done t /\
    ata_pio_write_sectors polls s drive t start count d = Done (tt, d') /\ ph d' = Ready /\
    forall u' a, 0 <= a -> disk_byte d' u' a =
      if (u' =? u) && (location <=? a) && (a <? location + Z.of_nat (length buf))
      then default 0 (buf !! Z.to_nat (a - location)) else disk_byte d u' a.
Proof.
  intros Hhere Hready [] Hbytes range.
  assert (length range = 512 * Z.to_nat count)%nat as Hrl by apply range_bytes_length.
  destruct (put_bytes_split range buf (Z.to_nat (location - 512 * start))) as (t & Et & Htl & Ht); [lia|].
  rewrite Z2Nat.id in Et by lia. exists t.
  assert (Forall is_byte t) as Htb.
  { apply list.Forall_lookup. intros k x Hk. pose proof (lookup_lt_Some _ _ _ Hk). rewrite Ht in Hk by lia.
    destruct (decide _); [by eapply Forall_lookup_1|]. eapply Forall_lookup_1; [|exact Hk]. apply range_bytes_range. }
  destruct (write_loop_run s drive u start (Z.to_nat count) 0 t d Hhere Hready) as (d2 & E4 & P2 & M2); try lia; [done|].
  exists d2. split; [done|]. split; [exact E4|]. split; [done|]. intros u' a Ha.
  rewrite drop_0, Z.add_0_r in M2. rewrite (put_range_byte _ _ _ _ _ _ _ _ M2) by lia. rewrite Z2Nat.id by lia.
  destruct (Z.eqb_spec u' u) as [->|]; [|done]. cbn [andb].
  destruct (Z.leb_spec (512 * start) a), (Z.ltb_spec a (512 * (start + count))), (Z.leb_spec location a),
    (Z.ltb_spec a (location + Z.of_nat (length buf))); try lia; cbn [andb]; try done;
    (rewrite Ht by lia; destruct (decide _); try lia).
  - do 2 f_equal. lia.
  - unfold range. rewrite range_bytes_lookup by lia. cbn. f_equal. lia.
  - unfold range. rewrite range_bytes_lookup by lia. cbn. f_equal. lia.
Qed.

Lemma ata_write_run s drive u location fresh buf d :
  drive_here s drive u -> ph d = Ready -> 0 <= location -> buf <> [] ->
  location + Z.of_nat (length buf) <= 2 ^ 32 - 512 -> Forall is_byte buf ->
  location mod 512 + Z.of_nat (length buf) + 512 <= Z.of_nat (length fresh) ->
  exists d', ata_write polls s drive buf location (Z.of_nat (length buf)) fresh d = Done (tt, d') /\ ph d' = Ready /\
    forall u' a, 0 <= a -> disk_byte d' u' a =
      if (u' =? u) && (location <=? a) && (a <? location + Z.of_nat (length buf))
      then default 0 (buf !! Z.to_nat (a - location)) else disk_byte d u' a.
Proof.
  intros Hhere Hready Hloc Hne Hend Hbytes Hfresh. pose proof (here_drive _ _ _ Hhere) as (dr & Hdr & Hon & Hpk & Hbs).
  assert (0 < Z.of_nat (length buf)) as Hlen by (destruct buf; [done|cbn; lia]).
  pose proof (sector_count_covers dr location _ Hbs Hloc Hlen Hend) as Hc.
  unfold ata_write. rewrite (bind_run _ _ _ _ _ (drive_at_run _ _ _ d Hdr)), Hon. cbn [negb]. cbv zeta.
  revert Hc. generalize (first_sector dr location) (sector_count dr location (Z.of_nat (length buf))). intros start count Hc.
  rewrite Hbs, (cov_buffer _ _ _ _ Hc), (cov_offset _ _ _ _ Hc).
  destruct (read_sectors_run s drive u start count (take (Z.to_nat (512 * count)) fresh) d Hhere Hready)
    as (d1 & E1 & P1 & M1); [destruct Hc; rewrite length_take; lia|by destruct Hc|destruct Hc; lia|destruct Hc; lia|].
  rewrite (bind_run _ _ _ _ _ E1).
  rewrite (bind_run _ _ d1 buf d1) by (unfold lift; rewrite get_bytes_ok, drop_0, take_ge by lia; done).
  destruct (modify_sectors_run s drive u start count location buf d1 Hhere P1 Hc Hbytes) as (t & d2 & Et & Ew & P2 & M2).
  rewrite (range_bytes_same d d1) in Et by done.
  rewrite (bind_run _ _ d1 t d1) by (unfold lift; by rewrite Et).
  exists d2. split; [exact Ew|]. split; [done|]. intros u' a Ha. rewrite M2 by done. by rewrite (disk_byte_same d d1).
Qed.


End Disk.

(** ** A device that keeps the laws *)

Record sim := Sim { sim_phase : phase; sim_task : Z -> Z; sim_raw : Z -> Z -> list Z }.

Definition sim_medium (d : sim) (u l : Z) : list Z :=
  map (fun w => w mod 65536) (take 256 (sim_raw d u l ++ replicate 256 0)).

Definition sim_status (d : sim) : Z * sim :=
  match sim_phase d with
  | Ready => (0x40, d)
  | Reading O _ | Writing O _ _ _ => (0x48, d)
  | Reading (S n) ws => (0xC0, Sim (Reading n ws) (sim_task d) (sim_raw d))
  | Writing (S n) u l got => (0xC0, Sim (Writing n u l got) (sim_task d) (sim_raw d))
  | Flushing O => (0x40, Sim Ready (sim_task d) (sim_raw d))
  | Flushing (S n) => (0xC0, Sim (Flushing n) (sim_task d) (sim_raw d))
  end.

Definition sim_take (d : sim) : Z * sim :=
  match sim_phase d with
  | Reading O (w :: ws) => (w, Sim match ws with [] => Ready | _ => Reading O ws end (sim_task d) (sim_raw d))
  | _ => (0, d)
  end.

Definition sim_give (w : Z) (d : sim) : sim :=
  match sim_phase d with
  | Writing O u l got =>
      let got := got ++ [w] in
      if (length got <? 256)%nat then Sim (Writing O u l got) (sim_task d) (sim_raw d)
      else Sim Ready (sim_task d) (fun u' l' => if (u' =? u) && (l' =? l) then got else sim_raw d u' l')
  | _ => d
  end.

Definition sim_out (r v : Z) (d : sim) : sim :=
  match sim_phase d with
  | Ready =>
      if (1 <=? r) && (r <=? 6) then Sim Ready (fun r' => if r' =? r then v else sim_task d r') (sim_raw d)
      else if r =? 7 then
        if v =? ATA_CMD_READ_PIO
        then Sim (Reading 1 (sim_medium d (unit_of (sim_task d)) (lba_of (sim_task d)))) (sim_task d) (sim_raw d)
        else if v =? ATA_CMD_WRITE_PIO
        then Sim (Writing 1 (unit_of (sim_task d)) (lba_of (sim_task d)) []) (sim_task d) (sim_raw d)
        else if v =? ATA_CMD_CACHE_FLUSH then Sim (Flushing 1) (sim_task d) (sim_raw d)
        else d
      else d
  | _ => d
  end.

#[export] Instance sim_ports : PortIO sim := {
  port_inb p d := if p =? ATA_PRIMARY_IO + 7 then sim_status d else (0, d);
  port_inw p d := if p =? ATA_PRIMARY_IO then sim_take d else (0, d);
  port_inl p d := (0, d);
  port_outb p v d := sim_out (p - ATA_PRIMARY_IO) v d;
  port_outw p w d := if p =? ATA_PRIMARY_IO then sim_give w d else d;
  port_outl p v d := d;
  time_passes _ d := d
}.

Lemma sim_medium_ok d u l :
  length (sim_medium d u l) = 256%nat /\ Forall (fun w => 0 <= w < 65536) (sim_medium d u l).
Proof.
  unfold sim_medium. split.
  - rewrite length_map, length_take, length_app, length_replicate. lia.
  - apply list.Forall_forall. intros w (x & -> & _)%list_elem_of_fmap. apply Z.mod_pos_bound. lia.
Qed.

Lemma sim_stored ws :
  length ws = 256%nat -> Forall (fun w => 0 <= w < 65536) ws ->
  map (fun w => w mod 65536) (take 256 (ws ++ replicate 256 0)) = ws.
Proof.
  intros Hl Hws. rewrite take_app_length' by done. induction ws as [|w ws IH] in Hws |- *; [done|].
  apply list.Forall_cons in Hws as [Hw Hws]. cbn. rewrite Z.mod_small by done. f_equal. by apply IH.
Qed.

Lemma sim_laws : channel_laws ATA_PRIMARY_IO 1 sim_phase sim_task sim_medium.
Proof.
  constructor.
  - by left.
  - apply sim_medium_ok.
  - intros r v d Hr Hp. cbn. unfold sim_out. rewrite Hp. replace (ATA_PRIMARY_IO + r - ATA_PRIMARY_IO) with r by lia.
    destruct (Z.leb_spec 1 r), (Z.leb_spec r 6); try lia. done.
  - intros d. done.
  - intros d Hp _. cbn. unfold sim_out. rewrite Hp. cbn. split; [done|]. by exists 1%nat.
  - intros d Hp _. cbn. unfold sim_out. rewrite Hp. cbn. split; [done|]. by exists 1%nat.
  - intros d Hp. cbn. unfold sim_out. rewrite Hp. cbn. split; [done|]. by exists 1%nat.
  - intros d. cbn. unfold sim_status. destruct (sim_phase d) as [|[|n] ws|[|n] u l got|[|n]] eqn:E; cbn; repeat split; done.
  - intros d w ws Hp. cbn. unfold sim_take. rewrite Hp. done.
  - intros d u l got w Hp Hw Hgl Hg. cbv zeta. cbn [port_outw sim_ports].
    change (ATA_PRIMARY_IO + ATA_REG_DATA =? ATA_PRIMARY_IO) with true. cbn iota.
    unfold sim_give. rewrite Hp. cbv zeta. rewrite !length_app. cbn [length].
    destruct (Nat.ltb_spec (length got + 1) 256); [by split|]. split; [done|]. intros u' l'. unfold sim_medium. cbn [sim_raw].
    destruct ((u' =? u) && (l' =? l)); [|done]. apply sim_stored; [rewrite length_app; cbn; lia|].
    apply Forall_app_2; [done|]. constructor; [done|constructor].
Qed.

(** One drive, the slave of the primary channel, on an empty disk. *)
Definition sim_ide : ide := Ide [no_drive; AtaDrive 100 [] [] [] 512 1 true false false; no_drive; no_drive] [1].
Definition sim_start : sim := Sim Ready (fun _ => 0) (fun _ l => replicate 256 (l + 1)).

Lemma sim_drive_here : drive_here ATA_PRIMARY_IO sim_ide 1 1.
Proof. constructor; [reflexivity| |by right]. eexists. split; [reflexivity|]. done. Qed.

