(* ===== verification/AtaDma.v ===== *)
(** * DMA transfers of IDE disks (kernel/src/drv/disk/ata_dma.c) and the entry points of
    ata.c

    The table of physical regions and the buffers lie in physical memory, which the
    controller reads and writes; the kernel reaches a buffer through the page tables
    ([v2p]).  The addresses of the table and of the buffers are given. *)
From Stdlib Require Import ZArith Lia.
From stdpp Require Import base list numbers.
From S2P Require Import Prelude Bytes Ports Ide.

#[local] Open Scope Z_scope.

Definition ATA_CMD_READ_DMA : Z := 0xC8.
Definition ATA_CMD_WRITE_DMA : Z := 0xCA.
Definition ATA_DMA_PRIMARY_CMD : Z := 0x00.
Definition ATA_DMA_PRIMARY_STATUS : Z := 0x02.
Definition ATA_DMA_PRIMARY_PRDT : Z := 0x04.
Definition ATA_DMA_SECONDARY_CMD : Z := 0x08.
Definition ATA_DMA_SECONDARY_STATUS : Z := 0x0A.
Definition ATA_DMA_SECONDARY_PRDT : Z := 0x0C.
Definition ATA_DMA_MARK_END : Z := 0x8000.
Definition prdt_entry_count : Z := 16.

(** The results of the routines. *)
Inductive status_t := OK | E_DEVICE_NOT_ONLINE.

Record prdt_t := Prdt { buffer_phys : Z; transfer_size : Z; mark_end : Z }.

(** The global variables: the I/O base of the bus master, the physical address of the
    table, the mutex. *)
Record dma := Dma { ata_dma_bar4 : Z; ata_dma_phys_prdt : Z; ata_dma_mutex : bool }.

(** ** The table *)

Definition no_region : prdt_t := Prdt 0 0 0.

Definition ata_dma_set_prdt_entry (prdt : list prdt_t) (index address byte_count : Z) (is_last : bool)
    : outcome (list prdt_t) :=
  array_set prdt index (Prdt (u32 address) (u16 byte_count) (if is_last then ATA_DMA_MARK_END else 0)).

(** [while(byte_count >= 65536)], then the rest: a size of 0 stands for 65536. *)
Fixpoint fill_regions (fuel : nat) (prdt : list prdt_t) (i phys_buf byte_count : Z) : outcome (list prdt_t) :=
  match fuel with
  | O => Hang
  | S fuel' =>
      if 65536 <=? byte_count then
        prdt ← ata_dma_set_prdt_entry prdt i (phys_buf + i * 65536) 0 false;
        fill_regions fuel' prdt (i + 1) phys_buf (byte_count - 65536)
      else if negb (byte_count =? 0) then
        ata_dma_set_prdt_entry prdt i (phys_buf + i * 65536) byte_count true
      else
        e ← array_get prdt (i - 1);
        array_set prdt (i - 1) (Prdt (buffer_phys e) (transfer_size e) ATA_DMA_MARK_END)
  end.

(** The table for [numsects] sectors, 0 standing for 256; it was cleared before. *)
Definition make_prdt (phys_buf numsects : Z) : outcome (list prdt_t) :=
  let byte_count := if numsects =? 0 then 256 * 512 else numsects * 512 in
  fill_regions 4 (replicate (Z.to_nat prdt_entry_count) no_region) 0 phys_buf byte_count.

Definition prdt_bytes (e : prdt_t) : list Z :=
  bytes32 (buffer_phys e) ++ bytes16 (transfer_size e) ++ bytes16 (mark_end e).

(** ** Transfers *)

Section Dma.
Context `{PortIO D} `{PhysMem D}.
Variable polls : nat.
(** Virtual to physical addresses in the kernel's address space. *)
Variable v2p : Z -> Z.

Definition store_prdt (st : dma) (prdt : list prdt_t) : IO D unit :=
  store_bytes (ata_dma_phys_prdt st) (concat (map prdt_bytes prdt)).

Fixpoint wait_drq (n : nat) (port : Z) : IO D unit :=
  match n with
  | O => hang
  | S n' =>
      status ← inb (port + ATA_REG_STATUS);
      if Z.land status ATA_SR_DRQ =? 0 then wait_drq n' port else mret tt
  end.

(** Until the controller has raised its interrupt bit and the drive is not busy. *)
Fixpoint wait_done (n : nat) (status_port port : Z) : IO D unit :=
  match n with
  | O => hang
  | S n' =>
      status ← inb status_port;
      dstatus ← inb (port + ATA_REG_STATUS);
      if negb (status_has status 0x04) then wait_done n' status_port port
      else if negb (status_has dstatus 0x80) then mret tt
      else wait_done n' status_port port
  end.

Definition status_offset (port : Z) : Z := if port =? ATA_PRIMARY_IO then ATA_DMA_PRIMARY_STATUS else ATA_DMA_SECONDARY_STATUS.
Definition prdt_offset (port : Z) : Z := if port =? ATA_PRIMARY_IO then ATA_DMA_PRIMARY_PRDT else ATA_DMA_SECONDARY_PRDT.
Definition cmd_offset (port : Z) : Z := if port =? ATA_PRIMARY_IO then ATA_DMA_PRIMARY_CMD else ATA_DMA_SECONDARY_CMD.

(** The registers of the bus master, the drive and the 24 bits of the sector number. *)
Definition dma_setup (st : dma) (port unit_ lba command : Z) : IO D unit :=
  _ ← outb (ata_dma_bar4 st + cmd_offset port) command;
  _ ← outb (ata_dma_bar4 st + status_offset port) 6;
  _ ← outl (ata_dma_bar4 st + prdt_offset port) (ata_dma_phys_prdt st);
  _ ← outb (port + ATA_REG_HDDEVSEL) (if unit_ =? ATA_MASTER then 0xE0 else 0xF0);
  outb (port + 1) 0x00.

Definition dma_lba (port lba : Z) : IO D unit :=
  _ ← outb (port + ATA_REG_LBA0) (Z.land lba 0xFF);
  _ ← outb (port + ATA_REG_LBA1) (Z.land (Z.shiftr lba 8) 0xFF);
  outb (port + ATA_REG_LBA2) (Z.land (Z.shiftr lba 16) 0xFF).

(** One sector through a page of its own at [temp_buf]; the sector count register is
    not written. *)
Definition ata_dma_read_sector (st : dma) (s : ide) (drive lba temp_buf : Z) : IO D (status_t * list Z) :=
  dr ← drive_at s drive;
  if negb (online dr) then mret (E_DEVICE_NOT_ONLINE, [])
  else
    _ ← write_virtual v2p temp_buf (replicate 4096 0);
    prdt ← lift (ata_dma_set_prdt_entry (replicate (Z.to_nat prdt_entry_count) no_region) 0 (v2p temp_buf) 512 true);
    _ ← store_prdt st prdt;
    let lba := lba_bits lba in
    let (port, unit_) := ata_set_params drive in
    _ ← dma_setup st port unit_ lba 8;
    _ ← dma_lba port lba;
    _ ← outb (port + ATA_REG_COMMAND) ATA_CMD_READ_DMA;
    _ ← outb (ata_dma_bar4 st + cmd_offset port) 9;
    _ ← wait_done polls (ata_dma_bar4 st + status_offset port) port;
    _ ← outb (ata_dma_bar4 st + cmd_offset port) 0;
    data ← read_virtual v2p 512 temp_buf;
    mret (OK, data).

(** Up to 256 sectors into the frames from that of [buf] on. *)
Definition ata_dma_read_sectors (st : dma) (s : ide) (drive buf lba numsects : Z) : IO D status_t :=
  dr ← drive_at s drive;
  if negb (online dr) then mret E_DEVICE_NOT_ONLINE
  else if ata_dma_mutex st then hang
  else
    prdt ← lift (make_prdt (v2p buf) numsects);
    _ ← store_prdt st prdt;
    let lba := lba_bits lba in
    let (port, unit_) := ata_set_params drive in
    _ ← dma_setup st port unit_ lba 8;
    _ ← outb (port + ATA_REG_SECCOUNT0) numsects;
    _ ← dma_lba port lba;
    _ ← outb (port + ATA_REG_COMMAND) ATA_CMD_READ_DMA;
    _ ← wait_drq polls port;
    _ ← outb (ata_dma_bar4 st + cmd_offset port) 9;
    _ ← wait_done polls (ata_dma_bar4 st + status_offset port) port;
    _ ← outb (ata_dma_bar4 st + cmd_offset port) 0;
    mret OK.

(** Without the mutex and without waiting for the drive. *)
Definition ata_dma_write_sectors (st : dma) (s : ide) (drive buf lba numsects : Z) : IO D status_t :=
  dr ← drive_at s drive;
  if negb (online dr) then mret E_DEVICE_NOT_ONLINE
  else
    prdt ← lift (make_prdt (v2p buf) numsects);
    _ ← store_prdt st prdt;
    let lba := lba_bits lba in
    let (port, unit_) := ata_set_params drive in
    _ ← dma_setup st port unit_ lba 0;
    _ ← outb (port + ATA_REG_SECCOUNT0) numsects;
    _ ← dma_lba port lba;
    _ ← outb (port + ATA_REG_COMMAND) ATA_CMD_WRITE_DMA;
    _ ← outb (ata_dma_bar4 st + cmd_offset port) 1;
    _ ← wait_done polls (ata_dma_bar4 st + status_offset port) port;
    _ ← outb (ata_dma_bar4 st + cmd_offset port) 0;
    mret OK.

(** 256 sectors at a time, then the rest. *)
Fixpoint clusters (n : nat) (i : Z) (transfer : Z -> Z -> Z -> IO D status_t) (real_buf start_sector : Z) : IO D unit :=
  match n with
  | O => mret tt
  | S n' =>
      _ ← transfer (real_buf + i * (65536 * 2)) (start_sector + i * 256) 0;
      clusters n' (i + 1) transfer real_buf start_sector
  end.

Definition all_clusters (transfer : Z -> Z -> Z -> IO D status_t) (real_buf start_sector count : Z) : IO D unit :=
  let cluster_count := count / 256 in
  let remaining_count := count mod 256 in
  _ ← clusters (Z.to_nat cluster_count) 0 transfer real_buf start_sector;
  if negb (remaining_count =? 0)
  then _ ← transfer (real_buf + cluster_count * (65536 * 2)) (start_sector + cluster_count * 256) remaining_count; mret tt
  else mret tt.

(** [real_buf] is the address of the fresh block. *)
Definition ata_dma_read (st : dma) (s : ide) (drive location length real_buf : Z) : IO D (status_t * list Z) :=
  d ← drive_at s drive;
  if negb (online d) then mret (E_DEVICE_NOT_ONLINE, [])
  else
    let count := sector_count d location length in
    _ ← write_virtual v2p real_buf (replicate (Z.to_nat (u32 (count * block_size d))) 0);
    _ ← (if is_packet d then mret tt
         else all_clusters (ata_dma_read_sectors st s drive) real_buf (first_sector d location) count);
    data ← read_virtual v2p (Z.to_nat length) (real_buf + location mod block_size d);
    mret (OK, data).

(** The first read takes the count modulo 256. *)
Definition ata_dma_write (st : dma) (s : ide) (drive : Z) (buf : list Z) (location length real_buf : Z)
    : IO D status_t :=
  d ← drive_at s drive;
  if negb (online d) then mret E_DEVICE_NOT_ONLINE
  else
    let count := sector_count d location length in
    _ ← ata_dma_read_sectors st s drive real_buf (first_sector d location) (u8 count);
    data ← lift (get_bytes buf 0 length);
    _ ← write_virtual v2p (real_buf + location mod block_size d) data;
    _ ← (if is_packet d then mret tt
         else all_clusters (ata_dma_write_sectors st s drive) real_buf (first_sector d location) count);
    mret OK.

(** ** Entry points (ata.c) *)

(** What is put into the buffer: nothing when the drive is not there. *)
Definition ata_read (st : dma) (s : ide) (drive location length : Z) (fresh : list Z) (real_buf : Z)
    : IO D (list Z) :=
  d ← drive_at s drive;
  if negb (online d) then mret []
  else if negb (is_packet d) && is_dma d && negb (ata_dma_bar4 st =? 0)
  then r ← ata_dma_read st s drive location length real_buf; mret (snd r)
  else ata_read_pio polls s drive location length fresh.

(** The location is cut to 32 bits; the answer is the size asked for, whatever
    happened. *)
Definition ata_diskman_read (st : dma) (s : ide) (drive location size : Z) (fresh : list Z) (real_buf : Z)
    : IO D (Z * list Z) :=
  data ← ata_read st s drive (u32 location) (u32 size) fresh real_buf; mret (size, data).

Definition ata_diskman_write (s : ide) (drive location size : Z) (buf fresh : list Z) : IO D Z :=
  _ ← ata_write polls s drive buf (u32 location) (u32 size) fresh; mret 0.

End Dma.

(** [ata_dma_init]: what the PCI bus answered, and where the table was put. *)
Definition ata_dma_init (found : bool) (bar4 phys_prdt : Z) (st : dma) : dma :=
  if negb found then st
  else
    let b := u16 bar4 in
    Dma (if negb (Z.land b 0x01 =? 0) then u16 (Z.land b 0xfffffffc) else b) phys_prdt (ata_dma_mutex st).

(** ** What the table says *)

(** The regions up to the mark, read as [dump_prdt] reads them. *)
Fixpoint regions (prdt : list prdt_t) : list (Z * Z) :=
  match prdt with
  | [] => []
  | e :: prdt' =>
      (buffer_phys e, if transfer_size e =? 0 then 65536 else transfer_size e) ::
      if mark_end e =? ATA_DMA_MARK_END then [] else regions prdt'
  end.

Definition sectors_bytes (numsects : Z) : Z := (if numsects =? 0 then 256 else numsects) * 512.

(** The shapes of the table: one region, or one of 64 KiB and a second one. *)
Lemma make_prdt_regions phys n :
  0 <= n < 256 -> 0 <= phys -> phys + 131072 <= 2 ^ 32 ->
  exists prdt, make_prdt phys n = Done prdt /\ length prdt = 16%nat /\
    regions prdt =
      if sectors_bytes n <=? 65536 then [(phys, sectors_bytes n)]
      else [(phys, 65536); (phys + 65536, sectors_bytes n - 65536)].
Proof.
  intros Hn Hp Hend. unfold make_prdt, sectors_bytes.
  assert (exists b, (if n =? 0 then 256 * 512 else n * 512) = b /\ (if n =? 0 then 256 else n) * 512 = b /\ 512 <= b <= 131072)
    as (b & -> & -> & Hb) by (destruct (Z.eqb_spec n 0); eexists; split; [done| |done|]; lia).
  cbn [fill_regions]. change (Z.to_nat prdt_entry_count) with 16%nat. cbn [replicate].
  unfold ata_dma_set_prdt_entry. replace (phys + 0 * 65536) with phys by lia. rewrite (u32_small phys) by lia.
  destruct (Z.leb_spec 65536 b) as [H1|H1].
  - cbn. destruct (Z.leb_spec 65536 (b - 65536)) as [H2|H2].
    + assert (b = 131072) as -> by lia. cbn. eexists. split; [done|]. split; [done|]. cbn.
      by rewrite !u32_small by lia.
    + destruct (Z.eqb_spec (b - 65536) 0) as [H3|H3].
      * assert (b = 65536) as -> by lia. cbn. eexists. split; [done|]. by split.
      * cbn. eexists. split; [done|]. split; [done|]. destruct (Z.leb_spec b 65536); [lia|].
        rewrite (u32_small (phys + (0 + 1) * 65536)), (u16_small (b - 65536)) by lia. change (0 + 1) with 1.
        cbv -[Z.sub Z.add Z.mul Z.eqb]. by destruct (Z.eqb_spec (b - 65536) 0).
  - destruct (Z.eqb_spec b 0); [lia|]. cbn. eexists. split; [done|]. split; [done|].
    destruct (Z.leb_spec b 65536); [|lia]. rewrite u16_small by lia. cbv -[Z.sub Z.add Z.mul Z.eqb]. by destruct (Z.eqb_spec b 0).
Qed.

(** The table that [ata_dma_read_sectors] and [ata_dma_write_sectors] give to the
    controller for 1 to 256 sectors ends with a marked region, stays inside its 16
    entries, has no region over 64 KiB, and names every byte from the physical address
    of the buffer on, and no other: the frames of the buffer are taken to be
    contiguous. *)
Theorem dma_regions_cover (phys n : Z)
    (Hn : 0 <= n < 256) (Hphys : 0 <= phys) (Hend : phys + 131072 <= 2 ^ 32) :
  exists prdt, make_prdt phys n = Done prdt /\ length prdt = Z.to_nat prdt_entry_count /\
    (forall a, (exists r, r ∈ regions prdt /\ fst r <= a < fst r + snd r) <-> phys <= a < phys + sectors_bytes n) /\
    Forall (fun r => 0 < snd r <= 65536) (regions prdt) /\
    fold_right Z.add 0 (map snd (regions prdt)) = sectors_bytes n.
Proof.
  destruct (make_prdt_regions phys n Hn Hphys Hend) as (prdt & E & Hlen & Hr). exists prdt.
  split; [done|]. split; [done|].
  assert (512 <= sectors_bytes n <= 131072) as Hb by (unfold sectors_bytes; destruct (Z.eqb_spec n 0); lia).
  rewrite Hr. destruct (Z.leb_spec (sectors_bytes n) 65536) as [H1|H1]; split_and!.
  - intros a. split.
    + intros (r & ->%list_elem_of_singleton & Ha). done.
    + intros Ha. eexists. split; [apply list_elem_of_here|cbn; lia].
  - repeat constructor; cbn; lia.
  - cbn. lia.
  - intros a. split.
    + intros (r & [-> | ->%list_elem_of_singleton]%elem_of_cons & Ha); cbn in Ha; lia.
    + intros Ha. destruct (Z.lt_ge_cases a (phys + 65536)).
      * eexists. split; [apply list_elem_of_here|cbn; lia].
      * eexists. split; [apply list_elem_of_further, list_elem_of_here|cbn; lia].
  - repeat constructor; cbn; lia.
  - cbn. lia.
Qed.

Lemma dma_regions_cover_witness :
  exists prdt, make_prdt 0x100000 200 = Done prdt /\ length prdt = 16%nat.
Proof.
  destruct (dma_regions_cover 0x100000 200 ltac:(lia) ltac:(lia) ltac:(lia)) as (prdt & E & Hl & _).
  exists prdt. split; [exact E|exact Hl].
Defined.
