(* ===== verification/Ahci.v ===== *)
(** * AHCI disks (kernel/src/drv/disk/ahci.c, kernel/include/drv/disk/ahci.h)

    The registers of the controller are 32-bit words of memory-mapped input and output;
    the command lists and the buffers lie in memory, which the kernel reaches through
    [v2p] and the controller by physical addresses.  A routine runs on the driver's
    global variables together with the machine.  The addresses of blocks that the heap
    hands out are arguments, pauses ([sleep_ms]) are left out. *)
From Stdlib Require Import ZArith Lia.
From stdpp Require Import base list numbers.
From S2P Require Import Prelude Bytes Ports Ide.

#[local] Open Scope Z_scope.

(** ** Registers *)

Definition AHCI_SIGNATURE_SATAPI : Z := 0xEB140101.
Definition AHCI_SIGNATURE_SATA : Z := 0x00000101.
Definition AHCI_HBA_ST : Z := 0x0001.
Definition AHCI_HBA_FRE : Z := 0x0010.
Definition AHCI_HBA_FR : Z := 0x4000.
Definition AHCI_HBA_CR : Z := 0x8000.
Definition AHCI_HBA_TFES : Z := Z.shiftl 1 30.
Definition ATA_CMD_READ_DMA_EXT : Z := 0x25.
Definition ATA_CMD_WRITE_DMA_EXT : Z := 0x35.

(** Offsets in [AHCI_HBA_MEM]. *)
Inductive hba_register :=
  | capability | global_host_control | hba_interrupt_status | port_implemented | version
  | host_capabilities_extended | handoff_control_and_status.

Definition hba_offset (r : hba_register) : Z :=
  match r with
  | capability => 0 | global_host_control => 4 | hba_interrupt_status => 8
  | port_implemented => 12 | version => 16
  | host_capabilities_extended => 0x24 | handoff_control_and_status => 0x28
  end.

(** Offsets in [AHCI_HBA_PORT]. *)
Inductive port_register :=
  | command_list_base_address_low | command_list_base_address_high
  | fis_base_address_low | fis_base_address_high | interrupt_status
  | command_and_status | task_file_data | signature | sata_status | sata_control
  | sata_error | sata_active | command_issue.

Definition port_offset (r : port_register) : Z :=
  match r with
  | command_list_base_address_low => 0 | command_list_base_address_high => 4
  | fis_base_address_low => 8 | fis_base_address_high => 12 | interrupt_status => 16
  | command_and_status => 24 | task_file_data => 32 | signature => 36 | sata_status => 40
  | sata_control => 44 | sata_error => 48 | sata_active => 52 | command_issue => 56
  end.

Definition AHCI_PORT (abar num : Z) : Z := abar + 0x100 + 0x80 * num.

(** ** Structures in memory *)

Record AHCI_FIS_REG_HOST_TO_DEVICE := Fis {
  fis_type : Z; pmport : Z; c : Z; command : Z; featurel : Z;
  lba0 : Z; lba1 : Z; lba2 : Z; device : Z;
  lba3 : Z; lba4 : Z; lba5 : Z; featureh : Z;
  countl : Z; counth : Z; icc : Z; control : Z
}.

Definition FIS_TYPE_REG_HOST_TO_DEVICE : Z := 0x27.

Definition fis_bytes (f : AHCI_FIS_REG_HOST_TO_DEVICE) : list Z :=
  [fis_type f; Z.lor (Z.land (pmport f) 15) (Z.shiftl (Z.land (c f) 1) 7); command f; featurel f;
   lba0 f; lba1 f; lba2 f; device f; lba3 f; lba4 f; lba5 f; featureh f;
   countl f; counth f; icc f; control f; 0; 0; 0; 0].

(** [cfl:5], [a:1], [w:1], [p:1] of a command header. *)
Definition header_flags (cfl a w p : Z) : Z :=
  Z.lor (Z.land cfl 31) (Z.lor (Z.shiftl a 5) (Z.lor (Z.shiftl w 6) (Z.shiftl p 7))).

Record AHCI_HBA_PRDT_ENTRY := PrdtEntry { dba : Z; dbc : Z; i_flag : Z }.

Definition no_entry : AHCI_HBA_PRDT_ENTRY := PrdtEntry 0 0 0.

Definition prdt_entry_bytes (e : AHCI_HBA_PRDT_ENTRY) : list Z :=
  bytes32 (dba e) ++ bytes32 0 ++ bytes32 0 ++ bytes32 (Z.lor (dbc e) (Z.shiftl (i_flag e) 31)).

Definition COMMAND_TABLE_PRDT_ENTRY_COUNT : Z := 8.

Record HBA_CMD_TBL := CmdTable {
  cfis : AHCI_FIS_REG_HOST_TO_DEVICE; acmd : list Z; prdt_entry : list AHCI_HBA_PRDT_ENTRY
}.

Definition table_bytes (t : HBA_CMD_TBL) : list Z :=
  fis_bytes (cfis t) ++ replicate 44 0 ++ acmd t ++ replicate 48 0 ++ concat (map prdt_entry_bytes (prdt_entry t)).

Definition empty_prdt : list AHCI_HBA_PRDT_ENTRY := replicate (Z.to_nat COMMAND_TABLE_PRDT_ENTRY_COUNT) no_entry.

(** The block of a port: 32 headers, the received FIS, 32 command tables. *)
Definition COMMAND_LIST_ENTRY_COUNT : Z := 32.
Definition COMMAND_LIST_ENTRY_SIZE : Z := 32.
Definition COMMAND_LIST_SIZE : Z := COMMAND_LIST_ENTRY_COUNT * COMMAND_LIST_ENTRY_SIZE.
Definition FIS_SIZE : Z := 256.
Definition COMMAND_TABLE_ENTRY_SIZE : Z := 256.
Definition COMMAND_TABLE_SIZE : Z := COMMAND_TABLE_ENTRY_SIZE * COMMAND_LIST_ENTRY_COUNT.
Definition MEMORY_PER_AHCI_PORT : Z := COMMAND_LIST_SIZE + FIS_SIZE + COMMAND_TABLE_SIZE.
Definition AHCI_COMMAND_LIST (mem port_num : Z) : Z := mem + MEMORY_PER_AHCI_PORT * port_num.
Definition AHCI_FIS (mem port_num : Z) : Z := AHCI_COMMAND_LIST mem port_num + COMMAND_LIST_SIZE.
Definition AHCI_COMMAND_TABLE (mem port_num : Z) : Z := AHCI_FIS mem port_num + FIS_SIZE.
Definition AHCI_COMMAND_TABLE_ENTRY (mem port_num i : Z) : Z :=
  AHCI_COMMAND_TABLE mem port_num + i * COMMAND_TABLE_ENTRY_SIZE.

(** ** The driver's variables *)

Record ahci_port_descriptor := PortDesc {
  command_list_addr_virt : Z; command_list_addr_phys : Z; fis_virt : Z; fis_phys : Z;
  disk_capacity : Z; is_atapi : bool
}.

(** [registered] holds the drives given to the disk manager: optical or not, and the
    port number in the private data. *)
Record ahci := Ahci {
  ahci_mutex : bool; ahci_initialized : bool; abar : Z;
  ports : list ahci_port_descriptor; registered : list (bool * Z)
}.

Definition set_mutex (b : bool) (s : ahci) : ahci := Ahci b (ahci_initialized s) (abar s) (ports s) (registered s).
Definition set_ports (ps : list ahci_port_descriptor) (s : ahci) : ahci :=
  Ahci (ahci_mutex s) (ahci_initialized s) (abar s) ps (registered s).

(** ** Physical regions *)

Definition MB : Z := 2 ^ 20.

(** The loop of [ahci_fill_prdt]: past the eighth region it raises an invalid opcode
    exception. *)
Fixpoint fill_prdt (fuel : nat) (v2p : Z -> Z) (prdt : list AHCI_HBA_PRDT_ENTRY) (index i buffer_mem bytes : Z)
    : outcome (list AHCI_HBA_PRDT_ENTRY * Z) :=
  match fuel with
  | O => Hang
  | S fuel' =>
      if bytes <=? i then Done (prdt, index)
      else if 8 <=? index then Fault
      else
        prdt ← array_set prdt index
          (PrdtEntry (u32 (v2p (buffer_mem + i))) (u32 (Z.min (4 * MB) ((bytes - i) mod (4 * MB)) - 1) mod 2 ^ 22) 0);
        fill_prdt fuel' v2p prdt (index + 1) (i + (4 * MB - 1)) buffer_mem bytes
  end.

(** The regions and their number, which goes into the header. *)
Definition ahci_fill_prdt (v2p : Z -> Z) (prdt : list AHCI_HBA_PRDT_ENTRY) (buffer_mem bytes : Z)
    : outcome (list AHCI_HBA_PRDT_ENTRY * Z) :=
  r ← fill_prdt 10 v2p prdt 0 0 buffer_mem bytes;
  let '(prdt, index) := r in
  e ← array_get prdt (index - 1);
  prdt ← array_set prdt (index - 1) (PrdtEntry (dba e) (dbc e) 1);
  Done (prdt, index).

(** ** Access to the machine *)

(** The memory of the machine under the driver's variables. *)
#[export] Instance PhysMem_state {S D} `{PhysMem D} : PhysMem (S * D) := {
  mem_read a d := mem_read a (snd d);
  mem_write a b d := (fst d, mem_write a b (snd d))
}.

Section Driver.
Context `{Mmio D} `{PhysMem D}.
(** Virtual to physical addresses in the kernel's page directory. *)
Variable v2p : Z -> Z.
(** Polls after which a loop without a bound of its own counts as endless. *)
Variable polls : nat.

Definition M (A : Type) : Type := IO (ahci * D) A.

#[local] Instance M_ret : MRet M := @IO_ret (ahci * D).
#[local] Instance M_bind : MBind M := @IO_bind (ahci * D).

Definition driver : M ahci := fun x => Done (fst x, x).
Definition update (f : ahci -> ahci) : M unit := fun x => Done (tt, (f (fst x), snd x)).
Definition readl (a : Z) : M Z := fun x => let (v, d) := mmio_read a (snd x) in Done (u32 v, (fst x, d)).
Definition writel (a v : Z) : M unit := fun x => Done (tt, (fst x, mmio_write a (u32 v) (snd x))).

(** [*a |= bits], [*a &= ~bits]. *)
Definition set_bits (a bits : Z) : M unit := v ← readl a; writel a (Z.lor v bits).
Definition clear_bits (a bits : Z) : M unit := v ← readl a; writel a (Z.ldiff v bits).
Definition has (v bits : Z) : bool := negb (Z.land v bits =? 0).

Fixpoint wait_while (n : nat) (a : Z) (cond : Z -> bool) : M unit :=
  match n with
  | O => hang
  | S n' => v ← readl a; if cond v then wait_while n' a cond else mret tt
  end.

Definition hba (r : hba_register) : M Z := s ← driver; mret (abar s + hba_offset r).
Definition port_at (num : Z) : M Z := s ← driver; mret (AHCI_PORT (abar s) num).
Definition port_desc (num : Z) : M ahci_port_descriptor := s ← driver; lift (array_get (ports s) num).

(** [mutex_get] of a taken mutex waits for ever: there is no other thread here. *)
Definition mutex_get : M unit :=
  s ← driver; if ahci_mutex s then hang else update (set_mutex true).
Definition mutex_release : M unit := update (set_mutex false).

(** ** Ports *)

Definition ahci_is_drive_attached (port_num : Z) : M bool :=
  if 31 <? port_num then mret false
  else
    pi ← hba port_implemented; implemented_ports ← readl pi;
    if negb (Z.testbit implemented_ports port_num) then mret false
    else
      port ← port_at port_num;
      status ← readl (port + port_offset sata_status);
      mret ((Z.land (Z.shiftr status 8) 0xF =? 1) && (Z.land status 0xF =? 3)).

(** The first of the bits [i], [i + 1], .. that is clear. *)
Fixpoint first_clear (n : nat) (i slots : Z) : Z :=
  match n with
  | O => -1
  | S n' => if negb (Z.testbit slots i) then i else first_clear n' (i + 1) slots
  end.

Definition ahci_free_cmd_slot (port_num : Z) : M Z :=
  if 31 <? port_num then mret (-1)
  else
    port ← port_at port_num;
    active ← readl (port + port_offset sata_active);
    issued ← readl (port + port_offset command_issue);
    mret (first_clear 32 0 (Z.lor active issued)).

Definition ahci_start_cmd (port_num : Z) : M unit :=
  if 31 <? port_num then mret tt
  else
    port ← port_at port_num;
    let cmd := port + port_offset command_and_status in
    _ ← wait_while polls cmd (fun v => has v AHCI_HBA_CR);
    _ ← set_bits cmd AHCI_HBA_FRE;
    set_bits cmd AHCI_HBA_ST.

(** [while(1) { if (cmd & FR) continue; if (cmd & CR) continue; break; }] *)
Fixpoint wait_stopped (n : nat) (cmd : Z) : M unit :=
  match n with
  | O => hang
  | S n' =>
      v ← readl cmd;
      if has v AHCI_HBA_FR then wait_stopped n' cmd
      else w ← readl cmd; if has w AHCI_HBA_CR then wait_stopped n' cmd else mret tt
  end.

Definition ahci_stop_cmd (port_num : Z) : M unit :=
  if 31 <? port_num then mret tt
  else
    port ← port_at port_num;
    let cmd := port + port_offset command_and_status in
    _ ← clear_bits cmd AHCI_HBA_ST;
    _ ← clear_bits cmd AHCI_HBA_FRE;
    wait_stopped polls cmd.

(** Both levels of interrupt status are acknowledged by writing back what was read. *)
Fixpoint acknowledge_ports (n : nat) (i status : Z) : M unit :=
  match n with
  | O => mret tt
  | S n' =>
      _ ← (if Z.testbit status i then
             port ← port_at i;
             port_interrupt_status ← readl (port + port_offset interrupt_status);
             writel (port + port_offset interrupt_status) port_interrupt_status
           else mret tt);
      acknowledge_ports n' (i + 1) status
  end.

Definition ahci_irq_handler : M unit :=
  reg ← hba hba_interrupt_status; status ← readl reg; _ ← writel reg status;
  acknowledge_ports 32 0 status.

(** ** Commands *)

(** [n] is what is left of the million spins; a drive that becomes ready with the very
    last one counts as hung. *)
Fixpoint wait_spin (n : nat) (port : Z) : M bool :=
  v ← readl (port + port_offset task_file_data);
  match n with
  | O => mret false
  | S n' => if has v (Z.lor ATA_SR_BSY ATA_SR_DRQ) then wait_spin n' port else mret true
  end.

Definition ahci_wait_spin (port : Z) : M bool := wait_spin (Z.to_nat 1000000) port.

(** After a task file error the port is stopped and started. *)
Definition restart_port (port : Z) : M unit :=
  let cmd := port + port_offset command_and_status in
  _ ← clear_bits cmd 1;
  _ ← wait_while polls cmd (fun v => has v 1);
  _ ← set_bits cmd 1;
  wait_while polls cmd (fun v => negb (has v 1)).

(** [n] turns are left; the message on an error reads the interrupt status again. *)
Fixpoint wait_command (n : nat) (port slot : Z) : M bool :=
  match n with
  | O => mret false
  | S n' =>
      issued ← readl (port + port_offset command_issue);
      if negb (Z.testbit issued slot) then mret true
      else
        pending ← readl (port + port_offset interrupt_status);
        if has pending AHCI_HBA_TFES then
          _ ← readl (port + port_offset interrupt_status); _ ← restart_port port; mret false
        else wait_command n' port slot
  end.

Definition ahci_send_cmd (port slot : Z) : M bool :=
  ready ← ahci_wait_spin port;
  if negb ready then mret false
  else
    _ ← writel (port + port_offset interrupt_status) 0xFFFFFFFF;
    _ ← writel (port + port_offset command_issue) (Z.shiftl 1 slot);
    wait_command (Z.to_nat 10001) port slot.

(** The first header of a port's list and its table. *)
Definition set_header (hdr cfl a w p : Z) : M unit := write_virtual v2p hdr [header_flags cfl a w p].
Definition set_prdtl (hdr n : Z) : M unit := write_virtual v2p (hdr + 2) (bytes16 (u16 n)).
Definition set_table (hdr : Z) (t : HBA_CMD_TBL) : M unit :=
  write_virtual v2p (AHCI_COMMAND_TABLE hdr 0) (table_bytes t).

(** The command FIS: the packet command, and a transfer of [count] sectors. *)
Definition packet_fis (lba1_ lba2_ : Z) : AHCI_FIS_REG_HOST_TO_DEVICE :=
  Fis FIS_TYPE_REG_HOST_TO_DEVICE 0 1 ATA_CMD_PACKET 0 0 lba1_ lba2_ 0 0 0 0 0 0 0 0 0.

Definition read_fis (location sector_count : Z) : AHCI_FIS_REG_HOST_TO_DEVICE :=
  Fis FIS_TYPE_REG_HOST_TO_DEVICE 0 1 ATA_CMD_READ_DMA_EXT 0
    (Z.land location 0xFF) (Z.land (Z.shiftr location 8) 0xFF) (Z.land (Z.shiftr location 16) 0xFF)
    (Z.shiftl 1 6)
    (Z.land (Z.shiftr location 24) 0xFF) (Z.land (Z.shiftr location 32) 0xFF) (Z.land (Z.shiftr location 40) 0xFF)
    0 (Z.land sector_count 0xFF) (Z.land (Z.shiftr sector_count 8) 0xFF) 0 0.

(** The bits of the sector number from 32 on stay clear: [location] has 32 bits here. *)
Definition write_fis (location sector_count : Z) : AHCI_FIS_REG_HOST_TO_DEVICE :=
  Fis FIS_TYPE_REG_HOST_TO_DEVICE 0 1 ATA_CMD_WRITE_DMA_EXT 0
    (Z.land location 0xFF) (Z.land (Z.shiftr location 8) 0xFF) (Z.land (Z.shiftr location 16) 0xFF)
    (Z.shiftl 1 6)
    (Z.land (Z.shiftr location 24) 0xFF) 0 0
    0 (Z.land sector_count 0xFF) (Z.land (Z.shiftr sector_count 8) 0xFF) 0 0.

Definition no_packet : list Z := replicate 16 0.
Definition packet16 (l : list Z) : list Z := take 16 (l ++ no_packet).

Definition read_packet (location sector_count : Z) : list Z :=
  packet16 [ATAPI_CMD_READ; 0;
    Z.land (Z.shiftr location 24) 0xFF; Z.land (Z.shiftr location 16) 0xFF;
    Z.land (Z.shiftr location 8) 0xFF; Z.land location 0xFF;
    Z.land (Z.shiftr sector_count 24) 0xFF; Z.land (Z.shiftr sector_count 16) 0xFF;
    Z.land (Z.shiftr sector_count 8) 0xFF; Z.land sector_count 0xFF].

(** ** Packet commands *)

Definition ahci_send_atapi_nomem (port_num : Z) (command : list Z) : M bool :=
  _ ← mutex_get;
  port ← port_at port_num;
  _ ← writel (port + port_offset interrupt_status) 0xFFFFFFFF;
  desc ← port_desc port_num;
  let hdr := command_list_addr_virt desc in
  _ ← set_header hdr 5 1 0 0;
  _ ← set_prdtl hdr 0;
  _ ← set_table hdr (CmdTable (packet_fis 0 0) command empty_prdt);
  result ← ahci_send_cmd port 0;
  _ ← mutex_release;
  mret result.

Definition align_page (n : Z) : Z := u32 (n + Z.land (u32 (- n)) 4095).

(** The [size] bytes of the answer; whether the command succeeded is not looked at. *)
Definition ahci_send_atapi (port_num : Z) (command : list Z) (size buffer_mem : Z) : M (list Z) :=
  _ ← mutex_get;
  port ← port_at port_num;
  _ ← writel (port + port_offset interrupt_status) 0xFFFFFFFF;
  desc ← port_desc port_num;
  let hdr := command_list_addr_virt desc in
  _ ← set_header hdr 5 1 0 0;
  let buffer_size := align_page size in
  _ ← write_virtual v2p buffer_mem (replicate (Z.to_nat buffer_size) 0);
  r ← lift (ahci_fill_prdt v2p empty_prdt buffer_mem buffer_size);
  let '(prdt, prdtl) := r in
  _ ← set_prdtl hdr prdtl;
  _ ← set_table hdr (CmdTable (packet_fis (Z.land size 0xFF) (Z.land (Z.shiftr size 8) 0xFF)) command prdt);
  _ ← ahci_send_cmd port 0;
  output ← read_virtual v2p (Z.to_nat size) buffer_mem;
  _ ← mutex_release;
  mret output.

Definition ahci_eject_cdrom (port_num : Z) : M unit :=
  _ ← ahci_send_atapi_nomem port_num (packet16 [ATAPI_CMD_START_STOP; 0; 0; 0; Z.shiftl 1 1]); mret tt.

Definition ahci_atapi_request_sense (port_num buffer_mem : Z) : M atapi_error_code :=
  output ← ahci_send_atapi port_num (packet16 [ATAPI_CMD_RQ_SENSE; 0; 0; 0; 252]) 252 buffer_mem;
  lift (error_of_sense output).

(** The number of the last block, or-ed with the size of a block. *)
Definition ahci_atapi_read_capacity (port_num buffer_mem : Z) : M Z :=
  data ← ahci_send_atapi port_num (packet16 [ATAPI_READ_CAPACITY]) 64 buffer_mem;
  sector_count ← lift (load32 data 0);
  blocksize ← lift (load32 data 4);
  mret (Z.lor (ntohl sector_count) (ntohl blocksize)).

Definition SCSI_SENSEKEY_NOT_READY : Z := 0x02.
Definition SCSI_ASC_NOT_READY : Z := 0x04.
Definition SCSI_ASCQ_NR_BECOMING_READY : Z := 0x01.

Definition medium_of_sense (e : atapi_error_code) : Z :=
  let is_ready := negb (sense_key e =? SCSI_SENSEKEY_NOT_READY) in
  let is_loading := (sense_code e =? SCSI_ASC_NOT_READY) && (sense_code_qualifier e =? SCSI_ASCQ_NR_BECOMING_READY) in
  if negb is_ready && negb is_loading then DISKMAN_MEDIUM_OFFLINE
  else if negb is_ready && is_loading then DISKMAN_MEDIUM_LOADING
  else DISKMAN_MEDIUM_ONLINE.

Definition ahci_atapi_check_media_presence (port_num buffer_mem : Z) : M Z :=
  _ ← ahci_send_atapi_nomem port_num (packet16 [ATAPI_CMD_READY]);
  error_code ← ahci_atapi_request_sense port_num buffer_mem;
  mret (medium_of_sense error_code).

(** ** Sectors *)

Definition block_size_of (desc : ahci_port_descriptor) : Z := if is_atapi desc then 2048 else 512.

(** One sector more than asked for is described to the controller and copied to
    [buffer].  [buffer_mem] and [sense_mem] are the blocks for the transfer and for the
    sense data. *)
Definition ahci_read_sectors (port_num location sector_count buffer buffer_mem sense_mem : Z) : M Z :=
  s ← driver;
  if negb (ahci_initialized s) then mret 0
  else
    _ ← mutex_get;
    port ← port_at port_num;
    _ ← ahci_wait_spin port;
    desc ← port_desc port_num;
    online ← (if is_atapi desc then
                _ ← mutex_release;
                status ← ahci_atapi_check_media_presence port_num sense_mem;
                _ ← mutex_get;
                mret (status =? DISKMAN_MEDIUM_ONLINE)
              else mret true);
    if negb online then _ ← mutex_release; mret 0
    else
      _ ← writel (port + port_offset interrupt_status) 0xFFFFFFFF;
      let hdr := command_list_addr_virt desc in
      _ ← set_header hdr 5 (if is_atapi desc then 1 else 0) 0 0;
      let bytes := u32 ((sector_count + 1) * block_size_of desc) in
      _ ← write_virtual v2p buffer_mem (replicate (Z.to_nat bytes) 0);
      r ← lift (ahci_fill_prdt v2p empty_prdt buffer_mem bytes);
      let '(prdt, prdtl) := r in
      _ ← set_prdtl hdr prdtl;
      _ ← set_table hdr
            (if is_atapi desc
             then CmdTable (packet_fis (Z.land 2048 0xFF) (Z.land (Z.shiftr 2048 8) 0xFF)) (read_packet location sector_count) prdt
             else CmdTable (read_fis location sector_count) no_packet prdt);
      status ← ahci_send_cmd port 0;
      if negb status then _ ← mutex_release; mret 0
      else
        data ← read_virtual v2p (Z.to_nat bytes) buffer_mem;
        _ ← write_virtual v2p buffer data;
        _ ← mutex_release;
        mret bytes.

(** Whether the command succeeded is not told. *)
Definition ahci_write_sectors (port_num location sector_count buffer buffer_mem : Z) : M unit :=
  s ← driver;
  if negb (ahci_initialized s) then mret tt
  else
    _ ← mutex_get;
    desc ← port_desc port_num;
    let bytes := u32 (sector_count * block_size_of desc) in
    _ ← write_virtual v2p buffer_mem (replicate (Z.to_nat bytes) 0);
    data ← read_virtual v2p (Z.to_nat bytes) buffer;
    _ ← write_virtual v2p buffer_mem data;
    port ← port_at port_num;
    _ ← writel (port + port_offset interrupt_status) 0xFFFFFFFF;
    let hdr := command_list_addr_virt desc in
    _ ← set_header hdr 5 0 1 0;
    r ← lift (ahci_fill_prdt v2p empty_prdt buffer_mem bytes);
    let '(prdt, prdtl) := r in
    _ ← set_prdtl hdr prdtl;
    _ ← set_table hdr (CmdTable (write_fis location sector_count) no_packet prdt);
    _ ← ahci_send_cmd port 0;
    mutex_release.

(** ** Bytes *)

Definition sectors_per_transfer : Z := 64.

(** [for(i = 0; i < sector_count; i += 64)]; [n] transfers are left. *)
Fixpoint read_transfers (n : nat) (i port_num start_sector sector_count block_size real_buf buffer_mem sense_mem : Z) : M unit :=
  match n with
  | O => mret tt
  | S n' =>
      _ ← ahci_read_sectors port_num (u64 (start_sector + i)) (Z.min (sector_count - i) sectors_per_transfer)
            (u32 (real_buf + i * block_size)) buffer_mem sense_mem;
      read_transfers n' (i + sectors_per_transfer) port_num start_sector sector_count block_size real_buf buffer_mem sense_mem
  end.

Definition start_sector_of (block_size location : Z) : Z := location / block_size.
Definition sector_count_of (block_size location length : Z) : Z :=
  u64 (u64 (location + length - 1) / block_size - location / block_size + 1).

(** [real_buf] is the block for the whole range, with 64 KiB to spare; a transfer that
    fails leaves its part as the heap handed it out. *)
Definition ahci_read (port_num buf location length real_buf buffer_mem sense_mem : Z) : M unit :=
  if buf =? 0 then mret tt
  else
    desc ← port_desc port_num;
    let block_size := block_size_of desc in
    let sector_count := sector_count_of block_size location length in
    _ ← read_transfers (Z.to_nat ((sector_count + (sectors_per_transfer - 1)) / sectors_per_transfer)) 0
          port_num (start_sector_of block_size location) sector_count block_size real_buf buffer_mem sense_mem;
    data ← read_virtual v2p (Z.to_nat length) (real_buf + location mod block_size);
    write_virtual v2p buf data.

(** ** The disk manager's functions *)

Definition ahci_diskman_read (port_nr location size buf real_buf buffer_mem sense_mem : Z) : M Z :=
  _ ← ahci_read port_nr buf location (u32 size) real_buf buffer_mem sense_mem; mret size.

Definition ahci_diskman_write (port_nr location size : Z) (buf : list Z) : M Z := mret (-1).

(** The answer and the buffer afterwards; no buffer is the null pointer.  The capacity of
    an optical medium is four bytes of the eight. *)
Definition ahci_diskman_control (port_nr command : Z) (buffer : option (list Z)) (buffer_mem : Z)
    : M (Z * option (list Z)) :=
  let too_short := fun n => match buffer with None => true | Some b => Z.of_nat (length b) <? n end in
  let b := default [] buffer in
  if command =? DISKMAN_COMMAND_GET_MEDIUM_CAPACITY then
    if too_short 12 then mret (-1, buffer)
    else
      desc ← port_desc port_nr;
      b ← (if is_atapi desc then
             status ← ahci_atapi_check_media_presence port_nr buffer_mem;
             if status =? DISKMAN_MEDIUM_ONLINE then
               cap ← ahci_atapi_read_capacity port_nr buffer_mem; lift (put_bytes b 0 (bytes32 (u32 cap)))
             else lift (put_bytes b 0 (replicate 12 0))
           else lift (put_bytes b 0 (bytes64 (disk_capacity desc))));
      b ← lift (put_bytes b 8 (bytes32 (block_size_of desc)));
      mret (0, Some b)
  else if command =? DISKMAN_COMMAND_GET_DRIVE_TYPE then
    if too_short 4 then mret (-1, buffer)
    else
      desc ← port_desc port_nr;
      b ← lift (put_bytes b 0 (bytes32 (if is_atapi desc then 1 else 0)));
      mret (0, Some b)
  else if command =? DISKMAN_COMMAND_GET_MEDIUM_STATUS then
    if too_short 4 then mret (-1, buffer)
    else
      desc ← port_desc port_nr;
      status ← (if is_atapi desc then ahci_atapi_check_media_presence port_nr buffer_mem
                else mret DISKMAN_MEDIUM_ONLINE);
      b ← lift (put_bytes b 0 (bytes32 status));
      mret (0, Some b)
  else if command =? DISKMAN_COMMAND_EJECT then
    desc ← port_desc port_nr;
    if is_atapi desc then _ ← ahci_eject_cdrom port_nr; mret (0, buffer) else mret (-1, buffer)
  else mret (-1, buffer).

(** ** Initialisation *)

(** The command identifies the drive; its answer is used whether it succeeded or not. *)
Definition ahci_identify (port_num : Z) (is_atapi_ : bool) (memory : Z) : M unit :=
  port ← port_at port_num;
  _ ← writel (port + port_offset interrupt_status) 0xFFFFFFFF;
  desc ← port_desc port_num;
  let hdr := command_list_addr_virt desc in
  _ ← set_header hdr 5 0 0 1;
  _ ← write_virtual v2p (hdr + 4) (bytes32 512);
  _ ← set_prdtl hdr 1;
  _ ← write_virtual v2p memory (replicate 512 0);
  prdt ← lift (array_set empty_prdt 0 (PrdtEntry (u32 (v2p memory)) 0x1ff 0));
  _ ← set_table hdr (CmdTable
        (Fis FIS_TYPE_REG_HOST_TO_DEVICE 0 1 (if is_atapi_ then ATA_CMD_IDENTIFY_PACKET else ATA_CMD_IDENTIFY)
           0 0 0 0 0 0 0 0 0 0 0 0 0) no_packet prdt);
  _ ← ahci_send_cmd port 0;
  data ← read_virtual v2p 512 memory;
  low ← lift (load16 data 200);
  high ← lift (load16 data 202);
  s ← driver;
  ps ← lift (array_set (ports s) port_num
         (PortDesc (command_list_addr_virt desc) (command_list_addr_phys desc) (fis_virt desc) (fis_phys desc)
            (Z.lor (u32 (Z.shiftl high 16)) low) is_atapi_));
  update (fun s => Ahci (ahci_mutex s) (ahci_initialized s) (abar s) ps (registered s ++ [(is_atapi_, u8 port_num)])).

Fixpoint init_headers (n : nat) (i virt phys : Z) : M unit :=
  match n with
  | O => mret tt
  | S n' =>
      let h := virt + i * COMMAND_LIST_ENTRY_SIZE in
      _ ← set_prdtl h COMMAND_TABLE_PRDT_ENTRY_COUNT;
      _ ← write_virtual v2p (h + 8) (bytes32 (u32 (AHCI_COMMAND_TABLE_ENTRY phys 0 i)));
      _ ← write_virtual v2p (h + 12) (bytes32 0);
      init_headers n' (i + 1) virt phys
  end.

(** [virt] is the new block of the port.  Its physical addresses count from the frame of
    its first page. *)
Definition ahci_rebase_memory_for (port_num virt : Z) : M unit :=
  if 31 <? port_num then mret tt
  else
    _ ← ahci_stop_cmd port_num;
    port ← port_at port_num;
    _ ← write_virtual v2p virt (replicate (Z.to_nat MEMORY_PER_AHCI_PORT) 0);
    let phys := v2p virt in
    desc ← port_desc port_num;
    s ← driver;
    ps ← lift (array_set (ports s) port_num
           (PortDesc virt phys (AHCI_FIS virt 0) (AHCI_FIS phys 0) (disk_capacity desc) (is_atapi desc)));
    _ ← update (set_ports ps);
    _ ← writel (port + port_offset command_list_base_address_low) phys;
    _ ← writel (port + port_offset command_list_base_address_high) 0;
    _ ← writel (port + port_offset fis_base_address_low) (AHCI_FIS phys 0);
    _ ← writel (port + port_offset fis_base_address_high) 0;
    _ ← init_headers (Z.to_nat COMMAND_LIST_ENTRY_COUNT) 0 virt phys;
    ahci_start_cmd port_num.

(** Power, spin-up, FIS reception.  The first wait is for the power bit to clear again,
    just after it was set. *)
Definition init_port (i virt : Z) : M unit :=
  port ← port_at i;
  let cmd := port + port_offset command_and_status in
  v ← readl cmd;
  _ ← (if has v (Z.shiftl 1 2) then mret tt
       else _ ← set_bits cmd (Z.shiftl 1 2); wait_while polls cmd (fun v => has v (Z.shiftl 1 2)));
  v ← readl cmd;
  _ ← (if has v (Z.shiftl 1 1) then mret tt
       else
         _ ← writel (port + port_offset sata_error) 0xFFFFFFFF;
         _ ← writel (port + port_offset sata_control) 0;
         set_bits cmd (Z.shiftl 1 1));
  _ ← writel (port + port_offset sata_error) 0xFFFFFFFF;
  _ ← set_bits cmd (Z.shiftl 1 4);
  v ← readl cmd;
  _ ← writel cmd (Z.lor (Z.ldiff v (Z.shiftl 0xf 28)) (Z.shiftl 1 28));
  attached ← ahci_is_drive_attached i;
  if negb attached then mret tt
  else
    v ← readl cmd;
    _ ← writel cmd (Z.land v 0xfffffffe);
    _ ← wait_while polls cmd (fun v => has v (Z.shiftl 1 15));
    ahci_rebase_memory_for i virt.

Fixpoint init_ports (n : nat) (i implemented_ports : Z) (port_mem : Z -> Z) : M unit :=
  match n with
  | O => mret tt
  | S n' =>
      _ ← (if Z.testbit implemented_ports i then init_port i (port_mem i) else mret tt);
      init_ports n' (i + 1) implemented_ports port_mem
  end.

(** Drives by signature; the register of implemented ports is read anew. *)
Fixpoint identify_ports (n : nat) (i memory : Z) : M unit :=
  match n with
  | O => mret tt
  | S n' =>
      pi ← hba port_implemented; implemented_ports ← readl pi;
      _ ← (if negb (Z.testbit implemented_ports i) then mret tt
           else
             attached ← ahci_is_drive_attached i;
             if negb attached then mret tt
             else
               port ← port_at i;
               sig ← readl (port + port_offset signature);
               if sig =? AHCI_SIGNATURE_SATAPI then ahci_identify i true memory
               else
                 sig ← readl (port + port_offset signature);
                 if sig =? AHCI_SIGNATURE_SATA then ahci_identify i false memory else mret tt);
      identify_ports n' (i + 1) memory
  end.

(** Ownership from the firmware, reset, enabling. *)
Definition reset_hba : M unit :=
  vs ← hba version; v ← readl vs;
  cap2 ← hba host_capabilities_extended;
  handoff ← (if 0x00010200 <=? v then c2 ← readl cap2; mret (has c2 1) else mret false);
  bohc ← hba handoff_control_and_status;
  _ ← (if (handoff : bool) then
         _ ← set_bits bohc (Z.shiftl 1 1); wait_while polls bohc (fun v => Z.land v 3 =? 2)
       else mret tt);
  ghc ← hba global_host_control;
  _ ← set_bits ghc (Z.lor (Z.shiftl 1 31) 1);
  _ ← wait_while polls ghc (fun v => has v 1);
  set_bits ghc (Z.shiftl 1 31).

(** What the PCI bus knows of the controller is given; [port_mem] and [memory] are the
    blocks of the heap. *)
Definition ahci_init (vendor devid bar5 : Z) (port_mem : Z -> Z) (memory : Z) : M unit :=
  if (vendor =? 0) || (devid =? 0) then mret tt
  else
    _ ← update (fun s => Ahci (ahci_mutex s) (ahci_initialized s) (Z.ldiff (u32 bar5) 15) (ports s) (registered s));
    _ ← reset_hba;
    capr ← hba capability; caps ← readl capr;
    let maxports := Z.land caps 0x1f + 1 in
    pi ← hba port_implemented; implemented_ports ← readl pi;
    let implemented_ports :=
      if implemented_ports =? 0 then Z.shiftr 0xffffffff (32 - maxports) else implemented_ports in
    _ ← init_ports 32 0 implemented_ports port_mem;
    _ ← update (fun s => Ahci (ahci_mutex s) true (abar s) (ports s) (registered s));
    identify_ports 32 0 memory.

(** ** Running a sequence *)

Lemma bind_M {A B} (m : M A) (f : A -> M B) x a y : m x = Done (a, y) -> (r ← m; f r) x = f a y.
Proof. intros E. unfold mbind, M_bind, IO_bind. by rewrite E. Qed.

Lemma bind_Hang {A B} (m : M A) (f : A -> M B) x : m x = Hang -> (r ← m; f r) x = Hang.
Proof. intros E. unfold mbind, M_bind, IO_bind. by rewrite E. Qed.

(** ** The mutex *)

(** [moves b b' m]: started with the mutex in state [b], [m] leaves it in [b'] when it
    returns. *)
Definition moves {A} (b b' : bool) (m : M A) : Prop :=
  forall x a y, ahci_mutex (fst x) = b -> m x = Done (a, y) -> ahci_mutex (fst y) = b'.

Lemma moves_bind {A B} b c e (m : M A) (f : A -> M B) :
  moves b c m -> (forall a, moves c e (f a)) -> moves b e (x ← m; f x).
Proof.
  intros Hm Hf x a y Hx E. unfold mbind, M_bind, IO_bind in E.
  destruct (m x) as [[a1 y1]| |] eqn:E1; [|done|done]. exact (Hf a1 y1 a y (Hm x a1 y1 Hx E1) E).
Qed.

Lemma moves_elim {A} b b' (m : M A) x :
  moves b b' m -> ahci_mutex (fst x) = b -> forall a y, m x = Done (a, y) -> ahci_mutex (fst y) = b'.
Proof. intros Hm Hx a y. by apply Hm. Qed.

Lemma moves_ret {A} b (a : A) : moves b b (mret a).
Proof. intros x r y Hx [= <- <-]. done. Qed.

Lemma moves_hang {A} b b' : moves b b' (hang : M A).
Proof. done. Qed.

Lemma moves_lift {A} b (o : outcome A) : moves b b (lift o).
Proof. intros x a y Hx E. unfold lift in E. by destruct o; simplify_eq. Qed.

Lemma moves_driver b : moves b b driver.
Proof. intros x a y Hx [= <- <-]. done. Qed.

Lemma moves_update b f : (forall s, ahci_mutex (f s) = ahci_mutex s) -> moves b b (update f).
Proof. intros Hf x a y Hx [= <- <-]. cbn. by rewrite Hf. Qed.

Lemma moves_readl b a : moves b b (readl a).
Proof. intros x r y Hx E. unfold readl in E. destruct (mmio_read a (snd x)). by simplify_eq. Qed.

Lemma moves_writel b a v : moves b b (writel a v).
Proof. intros x r y Hx [= <- <-]. done. Qed.

Lemma moves_get : moves false true mutex_get.
Proof. intros x a y Hx E. unfold mutex_get, mbind, M_bind, IO_bind, driver in E. rewrite Hx in E. injection E as _ <-. done. Qed.

Lemma moves_release b : moves b false mutex_release.
Proof. intros x a y Hx [= <- <-]. done. Qed.

Create HintDb mutex discriminated.
#[local] Hint Resolve moves_ret moves_hang moves_lift moves_driver moves_readl moves_writel moves_get moves_release : mutex.

(** One step of a routine: a sequence, a choice, or something known. *)
Ltac mutex_step :=
  lazymatch goal with
  | |- moves _ _ (mbind _ _) => eapply moves_bind; [|intros]
  | |- moves _ _ (if ?b then _ else _) => destruct b
  | |- moves _ _ (match ?x with _ => _ end) => destruct x
  | |- moves _ _ (let _ := _ in _) => cbv zeta
  | |- _ => solve [eauto 2 with mutex]
  end.
Ltac mutex_steps := repeat mutex_step.

Lemma moves_write_virtual b v l : moves b b (write_virtual v2p v l).
Proof.
  revert v. induction l as [|z l IH]; intros v; cbn [write_virtual]; [apply moves_ret|].
  eapply moves_bind; [|intros; apply IH]. intros x r y Hx [= <- <-]. done.
Qed.

Lemma moves_read_virtual b n v : moves b b (read_virtual v2p n v).
Proof.
  revert v. induction n as [|n IH]; intros v; cbn [read_virtual]; [apply moves_ret|].
  eapply moves_bind; [|intros; eapply moves_bind; [apply IH|intros; apply moves_ret]].
  intros x r y Hx [= <- <-]. done.
Qed.

Lemma moves_port_at b n : moves b b (port_at n).
Proof. unfold port_at. mutex_steps. Qed.

Lemma moves_port_desc b n : moves b b (port_desc n).
Proof. unfold port_desc. mutex_steps. Qed.

Lemma moves_set_bits b a v : moves b b (set_bits a v).
Proof. unfold set_bits. mutex_steps. Qed.

Lemma moves_clear_bits b a v : moves b b (clear_bits a v).
Proof. unfold clear_bits. mutex_steps. Qed.

Lemma moves_wait_while b n a cond : moves b b (wait_while n a cond).
Proof. induction n as [|n IH]; cbn [wait_while]; [apply moves_hang|]. mutex_steps. Qed.

#[local] Hint Resolve moves_write_virtual moves_read_virtual moves_port_at moves_port_desc moves_set_bits
  moves_clear_bits moves_wait_while : mutex.

Lemma moves_wait_spin b n port : moves b b (wait_spin n port).
Proof. induction n as [|n IH]; cbn [wait_spin]; mutex_steps. Qed.

Lemma moves_wait_command b n port slot : moves b b (wait_command n port slot).
Proof.
  induction n as [|n IH]; cbn [wait_command]; unfold restart_port; mutex_steps.
Qed.

#[local] Hint Resolve moves_wait_spin moves_wait_command : mutex.

Lemma moves_send_cmd b port slot : moves b b (ahci_send_cmd port slot).
Proof. unfold ahci_send_cmd, ahci_wait_spin. mutex_steps. Qed.

#[local] Hint Resolve moves_send_cmd : mutex.

Lemma moves_send_atapi_nomem port_num command : moves false false (ahci_send_atapi_nomem port_num command).
Proof. unfold ahci_send_atapi_nomem, set_header, set_prdtl, set_table. mutex_steps. Qed.

Lemma moves_send_atapi port_num command size buffer_mem :
  moves false false (ahci_send_atapi port_num command size buffer_mem).
Proof. unfold ahci_send_atapi, set_header, set_prdtl, set_table. mutex_steps. Qed.

#[local] Hint Resolve moves_send_atapi_nomem moves_send_atapi : mutex.

Lemma moves_media_presence port_num buffer_mem :
  moves false false (ahci_atapi_check_media_presence port_num buffer_mem).
Proof. unfold ahci_atapi_check_media_presence, ahci_atapi_request_sense. mutex_steps. Qed.

#[local] Hint Resolve moves_media_presence : mutex.

Lemma moves_read_capacity port_num buffer_mem : moves false false (ahci_atapi_read_capacity port_num buffer_mem).
Proof. unfold ahci_atapi_read_capacity. mutex_steps. Qed.

Lemma moves_eject port_num : moves false false (ahci_eject_cdrom port_num).
Proof. unfold ahci_eject_cdrom. mutex_steps. Qed.

#[local] Hint Resolve moves_read_capacity moves_eject : mutex.

Lemma moves_read_sectors port_num location sector_count buffer buffer_mem sense_mem :
  moves false false (ahci_read_sectors port_num location sector_count buffer buffer_mem sense_mem).
Proof.
  unfold ahci_read_sectors, ahci_wait_spin, set_header, set_prdtl, set_table.
  mutex_step; [mutex_steps|]. mutex_step; [mutex_steps|]. do 4 (mutex_step; [mutex_steps|]).
  eapply (moves_bind _ true); [destruct (is_atapi _); mutex_steps|]. intros. mutex_steps.
Qed.

Lemma moves_write_sectors port_num location sector_count buffer buffer_mem :
  moves false false (ahci_write_sectors port_num location sector_count buffer buffer_mem).
Proof. unfold ahci_write_sectors, set_header, set_prdtl, set_table. mutex_steps. Qed.

#[local] Hint Resolve moves_read_sectors moves_write_sectors : mutex.

Lemma moves_read_transfers n i port_num start count bs real_buf buffer_mem sense_mem :
  moves false false (read_transfers n i port_num start count bs real_buf buffer_mem sense_mem).
Proof.
  revert i. induction n as [|n IH]; intros i; cbn [read_transfers]; [apply moves_ret|].
  eapply moves_bind; [apply moves_read_sectors|]. intros. apply IH.
Qed.

#[local] Hint Resolve moves_read_transfers : mutex.

Lemma moves_read port_num buf location length real_buf buffer_mem sense_mem :
  moves false false (ahci_read port_num buf location length real_buf buffer_mem sense_mem).
Proof. unfold ahci_read. mutex_steps. Qed.

#[local] Hint Resolve moves_read : mutex.

(** Whatever the controller answers (errors, time-outs, a drive that is not ready),
    a routine of the driver that takes the mutex gives it back before it returns, also
    where [ahci_read_sectors] lets go of it half-way to ask an optical drive for its
    medium; so no later request waits for ever.  A request that finds the mutex taken
    does not return. *)
Theorem ahci_mutex_released (port_num location n buf real_buf buffer_mem sense_mem command : Z)
    (buffer : option (list Z)) (x : ahci * D) :
  (ahci_mutex (fst x) = false ->
    (forall a y, ahci_read_sectors port_num location n buf buffer_mem sense_mem x = Done (a, y) -> ahci_mutex (fst y) = false) /\
    (forall a y, ahci_write_sectors port_num location n buf buffer_mem x = Done (a, y) -> ahci_mutex (fst y) = false) /\
    (forall a y, ahci_diskman_read port_num location n buf real_buf buffer_mem sense_mem x = Done (a, y) -> ahci_mutex (fst y) = false) /\
    (forall a y, ahci_diskman_control port_num command buffer buffer_mem x = Done (a, y) -> ahci_mutex (fst y) = false)) /\
  (ahci_mutex (fst x) = true -> ahci_initialized (fst x) = true ->
    ahci_read_sectors port_num location n buf buffer_mem sense_mem x = Hang /\
    ahci_write_sectors port_num location n buf buffer_mem x = Hang).
Proof.
  split.
  - intros Hx. split_and!; (eapply moves_elim; [|exact Hx]).
    + apply moves_read_sectors.
    + apply moves_write_sectors.
    + unfold ahci_diskman_read. mutex_steps.
    + unfold ahci_diskman_control. mutex_steps.
  - intros Hm Hi. assert (mutex_get x = Hang) as Eg.
    { unfold mutex_get. by rewrite (bind_M _ _ x (fst x) x eq_refl), Hm. }
    unfold ahci_read_sectors, ahci_write_sectors.
    rewrite !(bind_M driver _ x (fst x) x eq_refl), Hi. cbn [negb]. by rewrite !(bind_Hang _ _ _ Eg).
Qed.

(** ** Commands end *)

Lemma readl_run a x :
  exists v d, mmio_read a (snd x) = (v, d) /\ readl a x = Done (u32 v, (fst x, d)).
Proof. unfold readl. destruct (mmio_read a (snd x)) as [v d]. eauto. Qed.

Lemma wait_spin_ends n port x : exists b y, wait_spin n port x = Done (b, y).
Proof.
  revert x. induction n as [|n IH]; intros x; cbn [wait_spin];
    destruct (readl_run (port + port_offset task_file_data) x) as (v & d & _ & E); rewrite (bind_M _ _ _ _ _ E); [eauto|].
  destruct (has _ _); [apply IH|eauto].
Qed.

Lemma u32_bit0 v : Z.testbit (u32 v) 0 = Z.testbit v 0.
Proof. unfold u32. by rewrite Z.mod_pow2_bits_low by lia. Qed.

Lemma has_1 v : has v 1 = Z.testbit v 0.
Proof.
  unfold has. change 1 with (Z.ones 1). rewrite Z.land_ones by lia. change (2 ^ 1) with 2. rewrite Zmod_odd, Z.bit0_odd.
  by destruct (Z.odd v).
Qed.

Section Ends.
Variable port : Z.
Hypothesis start_bit : forall v d,
  Z.testbit (fst (mmio_read (port + port_offset command_and_status) (mmio_write (port + port_offset command_and_status) v d))) 0
  = Z.testbit v 0.
Hypothesis some_polls : (0 < polls)%nat.

Lemma wait_start_bit cmd b v x :
  cmd = port + port_offset command_and_status -> Z.testbit v 0 = b ->
  exists y, (_ ← writel cmd v; wait_while polls cmd (fun w => negb (Bool.eqb (has w 1) b))) x = Done (tt, y).
Proof.
  intros -> Hv. rewrite (bind_M _ _ _ tt _ eq_refl). destruct polls as [|n]; [lia|]. cbn [wait_while].
  destruct (readl_run (port + port_offset command_and_status)
    (fst x, mmio_write (port + port_offset command_and_status) (u32 v) (snd x))) as (w & d & Er & E).
  rewrite (bind_M _ _ _ _ _ E). pose proof (start_bit (u32 v) (snd x)) as Hb. cbn [snd] in Er. rewrite Er in Hb. cbn [fst] in Hb.
  rewrite has_1, u32_bit0, Hb, u32_bit0, Hv. rewrite Bool.eqb_reflx. cbn [negb]. eauto.
Qed.

Lemma wait_while_ext n a c1 c2 (x : ahci * D) : (forall w, c1 w = c2 w) -> wait_while n a c1 x = wait_while n a c2 x.
Proof.
  intros Hc. revert x. induction n as [|n IH]; intros x; [done|]. cbn [wait_while].
  destruct (readl_run a x) as (v & d & _ & E). rewrite !(bind_M _ _ _ _ _ E), Hc. destruct (c2 _); [apply IH|done].
Qed.

Lemma restart_port_ends x : exists y, restart_port port x = Done (tt, y).
Proof.
  unfold restart_port, clear_bits, set_bits. cbv zeta. set (cmd := port + port_offset command_and_status).
  assert (forall b (f : Z -> Z) (cond : Z -> bool) z, (forall w, cond w = negb (Bool.eqb (has w 1) b)) ->
    (forall v, Z.testbit (f v) 0 = b) ->
    exists y, (_ ← (v ← readl cmd; writel cmd (f v)); wait_while polls cmd cond) z = Done (tt, y)) as Hstep.
  { intros b f cond z Hc Hf. destruct (readl_run cmd z) as (v & d & _ & E).
    destruct (wait_start_bit cmd b (f (u32 v)) (fst z, d) eq_refl (Hf _)) as (y & Ey). exists y. rewrite <- Ey.
    rewrite (bind_M (v ← readl cmd; writel cmd (f v)) _ z tt (fst z, mmio_write cmd (u32 (f (u32 v))) d)).
    2: { by rewrite (bind_M _ _ _ _ _ E). }
    rewrite (bind_M (writel cmd (f (u32 v))) _ _ tt _ eq_refl). by apply wait_while_ext. }
  destruct (Hstep false (fun v => Z.ldiff v 1) (fun v => has v 1) x) as (y & Ey).
  { intros w. by destruct (has w 1). }
  { intros v. by rewrite Z.ldiff_spec, andb_false_r. }
  destruct (Hstep true (fun v => Z.lor v 1) (fun v => negb (has v 1)) y) as (z & Ez).
  { intros w. by destruct (has w 1). }
  { intros v. by rewrite Z.lor_spec, orb_true_r. }
  exists z. rewrite <- Ez. unfold mbind, M_bind, IO_bind in *. destruct (readl cmd x) as [[v d]| |]; [|done|done].
  destruct (writel cmd _ d) as [[v' d']| |]; [|done|done]. by rewrite Ey.
Qed.

Lemma wait_command_ends n slot x : exists b y, wait_command n port slot x = Done (b, y).
Proof.
  revert x. induction n as [|n IH]; intros x; cbn [wait_command]; [eauto|].
  destruct (readl_run (port + port_offset command_issue) x) as (v & d & _ & E). rewrite (bind_M _ _ _ _ _ E).
  destruct (negb _); [eauto|].
  destruct (readl_run (port + port_offset interrupt_status) (fst x, d)) as (w & d2 & _ & E2). rewrite (bind_M _ _ _ _ _ E2).
  destruct (has _ _); [|apply IH].
  destruct (readl_run (port + port_offset interrupt_status) (fst x, d2)) as (w3 & d3 & _ & E3). cbn [fst] in *. rewrite (bind_M _ _ _ _ _ E3).
  destruct (restart_port_ends (fst x, d3)) as (y & Ey). rewrite (bind_M _ _ _ _ _ Ey). eauto.
Qed.

End Ends.

(** C22: sending a command ends.  Waiting for the drive and for the command is bounded, and
    restarting the port after a task file error ends when the start bit of the port
    reads back as written.  A drive that never stops being busy is given up, and the
    command is not issued. *)
Theorem ahci_send_cmd_ends (port slot : Z) (x : ahci * D)
    (start_bit : forall v d,
      Z.testbit (fst (mmio_read (port + port_offset command_and_status)
                        (mmio_write (port + port_offset command_and_status) v d))) 0 = Z.testbit v 0)
    (some_polls : (0 < polls)%nat) :
  (exists b y, ahci_send_cmd port slot x = Done (b, y)) /\
  ((forall d, has (u32 (fst (mmio_read (port + port_offset task_file_data) d))) (Z.lor ATA_SR_BSY ATA_SR_DRQ) = true) ->
    exists y, ahci_send_cmd port slot x = Done (false, y)).
Proof.
  unfold ahci_send_cmd, ahci_wait_spin. split.
  - destruct (wait_spin_ends (Z.to_nat 1000000) port x) as (b & y & E). rewrite (bind_M _ _ _ _ _ E).
    destruct b; cbn [negb]; [|eauto]. rewrite !(bind_M (writel _ _) _ _ tt _ eq_refl).
    by apply wait_command_ends.
  - intros Hbusy. assert (forall n z, exists y, wait_spin n port z = Done (false, y)) as Hspin.
    { induction n as [|n IH]; intros z; cbn [wait_spin];
        destruct (readl_run (port + port_offset task_file_data) z) as (v & d & Er & E); rewrite (bind_M _ _ _ _ _ E); [eauto|].
      pose proof (Hbusy (snd z)) as Hb. rewrite Er in Hb. cbn [fst] in Hb. rewrite Hb. apply IH. }
    destruct (Hspin (Z.to_nat 1000000) x) as (y & E). rewrite (bind_M _ _ _ _ _ E). eauto.
Qed.

(** ** Free slots *)

Lemma first_clear_spec n i slots :
  0 <= i ->
  (exists j, i <= j < i + Z.of_nat n /\ first_clear n i slots = j /\ Z.testbit slots j = false /\
     forall k, i <= k < j -> Z.testbit slots k = true) \/
  (first_clear n i slots = -1 /\ forall k, i <= k < i + Z.of_nat n -> Z.testbit slots k = true).
Proof.
  revert i. induction n as [|n IH]; intros i Hi; cbn [first_clear]; [right; split; [done|lia]|].
  destruct (Z.testbit slots i) eqn:E; cbn [negb].
  - destruct (IH (i + 1)) as [(j & Hj & Ej & Hc & Hb)|[Ej Hb]]; [lia| |].
    + left. exists j. split; [lia|]. split; [done|]. split; [done|]. intros k Hk.
      destruct (decide (k = i)) as [->|]; [done|]. apply Hb. lia.
    + right. split; [done|]. intros k Hk. destruct (decide (k = i)) as [->|]; [done|]. apply Hb. lia.
  - left. exists i. split; [lia|]. split; [done|]. split; [done|]. lia.
Qed.

End Driver.

(** ** Regions of a transfer *)

Definition region_step : Z := 4 * MB - 1.
Definition region_size (e : AHCI_HBA_PRDT_ENTRY) : Z := dbc e + 1.

Lemma fill_prdt_eq fuel v2p prdt index i buffer_mem bytes :
  fill_prdt (S fuel) v2p prdt index i buffer_mem bytes =
    if bytes <=? i then Done (prdt, index)
    else if 8 <=? index then Fault
    else
      prdt ← array_set prdt index
        (PrdtEntry (u32 (v2p (buffer_mem + i))) (u32 (Z.min (4 * MB) ((bytes - i) mod (4 * MB)) - 1) mod 2 ^ 22) 0);
      fill_prdt fuel v2p prdt (index + 1) (i + (4 * MB - 1)) buffer_mem bytes.
Proof. done. Qed.

Lemma fill_prdt_outruns fuel v2p prdt index buffer_mem bytes :
  0 <= index <= 8 -> 8 - index < Z.of_nat fuel -> length prdt = 8%nat -> 8 * region_step < bytes ->
  fill_prdt fuel v2p prdt index (index * region_step) buffer_mem bytes = Fault.
Proof.
  revert prdt index. induction fuel as [|fuel IH]; intros prdt index Hi Hf Hl Hb; [lia|]. rewrite fill_prdt_eq.
  unfold region_step, MB in *. destruct (Z.leb_spec bytes (index * (4 * 2 ^ 20 - 1))); [lia|].
  destruct (Z.leb_spec 8 index); [done|]. rewrite array_set_in_range by lia. cbn [mbind outcome_bind].
  replace (index * (4 * 2 ^ 20 - 1) + (4 * 2 ^ 20 - 1)) with ((index + 1) * (4 * 2 ^ 20 - 1)) by lia.
  apply IH; [lia|lia|by rewrite length_insert|lia].
Qed.

Lemma fill_prdt_counts fuel v2p prdt index buffer_mem bytes :
  0 <= index <= 8 -> 8 - index < Z.of_nat fuel -> length prdt = 8%nat ->
  (index - 1) * region_step < bytes <= 8 * region_step -> 0 < bytes ->
  exists prdt', fill_prdt fuel v2p prdt index (index * region_step) buffer_mem bytes =
      Done (prdt', Z.max index ((bytes + (region_step - 1)) / region_step)) /\ length prdt' = 8%nat.
Proof.
  revert prdt index. induction fuel as [|fuel IH]; intros prdt index Hi Hf Hl Hb Hpos; [lia|]. rewrite fill_prdt_eq.
  unfold region_step, MB in *. destruct (Z.leb_spec bytes (index * (4 * 2 ^ 20 - 1))).
  - exists prdt. split; [|done]. do 2 f_equal.
    assert ((bytes + (4 * 2 ^ 20 - 1 - 1)) / (4 * 2 ^ 20 - 1) < index + 1) by (apply Z.div_lt_upper_bound; lia). lia.
  - destruct (Z.leb_spec 8 index); [lia|]. rewrite array_set_in_range by lia. cbn [mbind outcome_bind].
    replace (index * (4 * 2 ^ 20 - 1) + (4 * 2 ^ 20 - 1)) with ((index + 1) * (4 * 2 ^ 20 - 1)) by lia.
    destruct (IH (<[Z.to_nat index := PrdtEntry (u32 (v2p (buffer_mem + index * (4 * 2 ^ 20 - 1))))
      (u32 (Z.min (4 * 2 ^ 20) ((bytes - index * (4 * 2 ^ 20 - 1)) mod (4 * 2 ^ 20)) - 1) mod 2 ^ 22) 0]> prdt) (index + 1))
      as (prdt' & E & Hl'); [lia|lia|by rewrite length_insert|lia|lia|].
    exists prdt'. split; [|done]. rewrite E. do 2 f_equal.
    assert (index + 1 <= (bytes + (4 * 2 ^ 20 - 1 - 1)) / (4 * 2 ^ 20 - 1)) by (apply Z.div_le_lower_bound; lia). lia.
Qed.

Lemma one_region v2p buffer_mem bytes :
  0 < bytes <= region_step ->
  ahci_fill_prdt v2p empty_prdt buffer_mem bytes =
    Done (PrdtEntry (u32 (v2p buffer_mem)) (bytes - 1) 1 :: replicate 7 no_entry, 1).
Proof.
  unfold region_step, MB. intros Hb. unfold ahci_fill_prdt. rewrite fill_prdt_eq.
  destruct (Z.leb_spec bytes 0); [lia|]. cbn [Z.leb Z.compare]. rewrite array_set_in_range by done.
  cbn [mbind outcome_bind]. rewrite fill_prdt_eq. unfold MB. destruct (Z.leb_spec bytes (0 + (4 * 2 ^ 20 - 1))); [|lia].
  rewrite Z.add_0_r, Z.sub_0_r, (Z.mod_small bytes), Z.min_r, (u32_small (bytes - 1)), Z.mod_small by lia. done.
Qed.

(** For 1 to 4194303 bytes [ahci_fill_prdt] describes the buffer with one region: its
    physical address, exactly its bytes, marked as the last.  For more, up to eight times
    as much, it uses the least number of regions of 4194303 bytes, but their sizes are
    wrong: of the bytes of a buffer over 4 MiB that needs two regions, those from
    [bytes - 4194304] up to the second region are in none.  An empty buffer and one that needs a ninth region
    stop the machine. *)
Theorem ahci_regions (v2p : Z -> Z) (buffer_mem bytes : Z) (Hb : 0 <= bytes < 2 ^ 32) :
  (0 < bytes <= region_step ->
    ahci_fill_prdt v2p empty_prdt buffer_mem bytes =
      Done (PrdtEntry (u32 (v2p buffer_mem)) (bytes - 1) 1 :: replicate 7 no_entry, 1)) /\
  (4 * MB < bytes <= 2 * region_step ->
    exists e1 e2 rest, ahci_fill_prdt v2p empty_prdt buffer_mem bytes = Done (e1 :: e2 :: rest, 2) /\
      dba e1 = u32 (v2p buffer_mem) /\ region_size e1 = bytes - 4 * MB /\
      dba e2 = u32 (v2p (buffer_mem + region_step)) /\ region_size e2 = bytes - region_step) /\
  (0 < bytes <= 8 * region_step ->
    exists prdt, ahci_fill_prdt v2p empty_prdt buffer_mem bytes =
      Done (prdt, (bytes + (region_step - 1)) / region_step)) /\
  (bytes = 0 \/ 8 * region_step < bytes -> ahci_fill_prdt v2p empty_prdt buffer_mem bytes = Fault).
Proof.
  split; [apply one_region|]. split; [|split].
  - unfold region_size, region_step, MB. intros Hr. unfold ahci_fill_prdt. rewrite fill_prdt_eq.
    destruct (Z.leb_spec bytes 0); [lia|]. cbn [Z.leb Z.compare]. rewrite array_set_in_range by done.
    cbn [mbind outcome_bind]. rewrite fill_prdt_eq. unfold MB. destruct (Z.leb_spec bytes (0 + (4 * 2 ^ 20 - 1))); [lia|].
    rewrite array_set_in_range by done. cbn [mbind outcome_bind]. rewrite fill_prdt_eq. unfold MB.
    destruct (Z.leb_spec bytes (0 + (4 * 2 ^ 20 - 1) + (4 * 2 ^ 20 - 1))); [|lia].
    assert (bytes mod (4 * 2 ^ 20) = bytes - 4 * 2 ^ 20) as Hm.
    { symmetry. apply Z.mod_unique with 1; lia. }
    do 3 eexists. split; [reflexivity|]. cbn [dba dbc].
    rewrite !Z.add_0_r, !Z.sub_0_r, !Z.add_0_l, Hm, (Z.mod_small (bytes - (4 * 2 ^ 20 - 1))), !Z.min_r, !(u32_small (_ - _)), !Z.mod_small by lia.
    split; [done|]. split; [lia|]. split; [done|lia].
  - intros Hr. unfold ahci_fill_prdt.
    destruct (fill_prdt_counts 10 v2p empty_prdt 0 buffer_mem bytes) as (prdt & E & Hl); [lia|lia|done|unfold region_step, MB in *; lia|lia|].
    rewrite Z.mul_0_l in E. rewrite E. clear E. cbn [mbind outcome_bind].
    assert (1 <= (bytes + (region_step - 1)) / region_step) by (unfold region_step, MB in *; apply Z.div_le_lower_bound; lia).
    assert ((bytes + (region_step - 1)) / region_step < 9) by (unfold region_step, MB in *; apply Z.div_lt_upper_bound; lia).
    rewrite Z.max_r by lia. set (k := _ / _) in *.
    destruct (array_get_in_range prdt (k - 1)) as (e & ->); [lia|]. cbn [mbind outcome_bind].
    rewrite array_set_in_range by lia. eauto.
  - intros [-> |Hr]; [done|]. unfold ahci_fill_prdt. rewrite <- (Z.mul_0_l region_step) at 1.
    rewrite fill_prdt_outruns by (done || lia). done.
Qed.

Lemma ahci_regions_witness :
  ahci_fill_prdt (fun v => v + 0x1000) empty_prdt 0x200000 33280 =
    Done (PrdtEntry 0x201000 33279 1 :: replicate 7 no_entry, 1) /\
  exists e1 e2 rest, ahci_fill_prdt (fun v => v) empty_prdt 0x200000 (5 * MB) = Done (e1 :: e2 :: rest, 2) /\
    region_size e1 = MB /\ region_size e2 = MB + 1.
Proof.
  destruct (ahci_regions (fun v => v + 0x1000) 0x200000 33280 ltac:(lia)) as [H1 _].
  destruct (ahci_regions (fun v => v) 0x200000 (5 * MB) ltac:(unfold MB; lia)) as [_ [H2 _]].
  split; [apply H1; unfold region_step, MB; lia|].
  destruct H2 as (e1 & e2 & rest & E & _ & S1 & _ & S2); [unfold region_step, MB; lia|].
  exists e1, e2, rest. split; [exact E|]. rewrite S1, S2. split; reflexivity.
Defined.

(** ** The block of a port *)

(** The parts of the block: the list of headers, the received FIS, the tables. *)
Definition part_start (mem : Z) (j : nat) : Z :=
  match j with
  | O => AHCI_COMMAND_LIST mem 0
  | S O => AHCI_FIS mem 0
  | S (S i) => AHCI_COMMAND_TABLE_ENTRY mem 0 (Z.of_nat i)
  end.
Definition part_size (j : nat) : Z :=
  match j with
  | O => COMMAND_LIST_SIZE
  | S O => FIS_SIZE
  | S (S i) => Z.of_nat (length (table_bytes (CmdTable (packet_fis 0 0) no_packet empty_prdt)))
  end.

(** In the page-aligned block of a port the list of headers, the received FIS and the 32
    command tables follow one another without gaps or overlaps and fill the block; the
    list is aligned to 1 KiB, the FIS to 256 bytes and every table to 128 bytes, as the
    controller wants them.  The first page of the block holds the list, the FIS and the
    tables of the slots 0 to 10, so these have the physical addresses that
    [ahci_rebase_memory_for] computes from the frame of the first page; the tables from slot 11 on lie in
    other pages. *)
Theorem ahci_block_layout (mem : Z) (Hmem : mem mod 4096 = 0) :
  (forall j, (j < 33)%nat -> part_start mem (S j) = part_start mem j + part_size j) /\
  part_start mem 0 = mem /\ part_start mem 33 + part_size 33 = mem + MEMORY_PER_AHCI_PORT /\
  AHCI_COMMAND_LIST mem 0 mod 1024 = 0 /\ AHCI_FIS mem 0 mod 256 = 0 /\
  (forall i, AHCI_COMMAND_TABLE_ENTRY mem 0 i mod 128 = 0) /\
  (forall i, 0 <= i < 32 ->
    (AHCI_COMMAND_TABLE_ENTRY mem 0 i + COMMAND_TABLE_ENTRY_SIZE <= mem + 4096 <-> i <= 10)).
Proof.
  unfold AHCI_COMMAND_TABLE_ENTRY, AHCI_COMMAND_TABLE, AHCI_FIS, AHCI_COMMAND_LIST, MEMORY_PER_AHCI_PORT,
    COMMAND_TABLE_SIZE, COMMAND_LIST_SIZE, COMMAND_TABLE_ENTRY_SIZE, FIS_SIZE, COMMAND_LIST_ENTRY_COUNT, COMMAND_LIST_ENTRY_SIZE.
  assert (forall i, part_size (S (S i)) = 256) as Hsize by reflexivity.
  apply Z.div_exact in Hmem; [|lia]. set (q := mem / 4096) in *. rewrite Hmem.
  assert (forall i, 4096 * q + (32 * 32 + 256 + 256 * 32) * 0 + 32 * 32 + 256 + i * 256 = (32 * q + 10 + 2 * i) * 128) as Ht by (intros; lia).
  split_and!.
  - intros [|[|j]] Hj.
    + unfold part_start, part_size, AHCI_FIS, AHCI_COMMAND_LIST. lia.
    + unfold part_start, part_size, AHCI_COMMAND_TABLE_ENTRY, AHCI_COMMAND_TABLE, FIS_SIZE. lia.
    + rewrite Hsize. unfold part_start, AHCI_COMMAND_TABLE_ENTRY, COMMAND_TABLE_ENTRY_SIZE. lia.
  - unfold part_start, AHCI_COMMAND_LIST. lia.
  - rewrite Hsize. unfold part_start, AHCI_COMMAND_TABLE_ENTRY, COMMAND_TABLE_ENTRY_SIZE, AHCI_COMMAND_TABLE, AHCI_FIS, AHCI_COMMAND_LIST,
      COMMAND_LIST_SIZE, COMMAND_LIST_ENTRY_COUNT, COMMAND_LIST_ENTRY_SIZE, FIS_SIZE. lia.
  - replace (4096 * q + _) with (4 * q * 1024) by lia. apply Z.mod_mul. lia.
  - replace (4096 * q + _ + _) with ((16 * q + 4) * 256) by lia. apply Z.mod_mul. lia.
  - intros i. rewrite Ht. apply Z.mod_mul. lia.
  - intros i Hi. lia.
Qed.

Lemma ahci_block_layout_witness :
  AHCI_COMMAND_TABLE_ENTRY 0x8000 0 10 + COMMAND_TABLE_ENTRY_SIZE <= 0x8000 + 4096.
Proof.
  destruct (ahci_block_layout 0x8000 eq_refl) as (_ & _ & _ & _ & _ & _ & Hp). apply (Hp 10); lia.
Defined.

(** ** Registers that keep what is written, for examples *)

Definition regs : Type := Z -> Z.

#[local] Instance regs_mmio : Mmio regs := {
  mmio_read a d := (d a, d);
  mmio_write a v d := fun a' => if a' =? a then v else d a'
}.
#[local] Instance regs_mem : PhysMem regs := {
  mem_read a d := d a;
  mem_write a b d := fun a' => if a' =? a then b else d a'
}.

Definition regs_driver : ahci := Ahci false true 0x100000 [PortDesc 0 0 1024 1024 100 true] [].

Lemma ahci_send_cmd_ends_witness :
  exists b y, ahci_send_cmd (D := regs) 1 0x100100 0 (regs_driver, fun _ => 0) = Done (b, y).
Proof.
  destruct (ahci_send_cmd_ends (D := regs) 1 0x100100 0 (regs_driver, fun _ => 0)) as [H _]; [|lia|exact H].
  intros v d. cbn. reflexivity.
Defined.

(** A drive that never completes the command is given up; the mutex is free. *)
Lemma ahci_mutex_released_witness :
  match ahci_diskman_control (D := regs) id 1 0 DISKMAN_COMMAND_EJECT None 0x4000 (regs_driver, fun _ => 0) with
  | Done (_, y) => ahci_mutex (fst y) = false
  | _ => False
  end.
Proof.
  destruct (ahci_mutex_released (D := regs) id 1 0 0 0 0 0 0x4000 0 DISKMAN_COMMAND_EJECT None (regs_driver, fun _ => 0)) as [H _].
  destruct (H eq_refl) as (_ & _ & _ & Hc).
  destruct (ahci_diskman_control _ _ _ _ _ _ _) as [[a y]| |] eqn:E; [exact (Hc a y eq_refl)| |]; vm_compute in E; discriminate.
Defined.
