(* ===== verification/AhciDisk.v ===== *)
(** * A disk behind an AHCI port is an array of bytes

    What an AHCI controller promises about the first slot of a port, as laws, and what
    the driver of Ahci.v makes of it: [ahci_read] delivers the bytes of the disk and
    [ahci_write_sectors] stores whole sectors. *)
From Stdlib Require Import ZArith Lia.
From stdpp Require Import base list numbers.
From S2P Require Import Prelude Bytes Ports Ide Ahci.

#[local] Open Scope Z_scope.

(** ** The command as the controller reads it *)

Definition word32 (mem : Z -> Z) (a : Z) : Z :=
  mem a + 2 ^ 8 * mem (a + 1) + 2 ^ 16 * mem (a + 2) + 2 ^ 24 * mem (a + 3).

(** The first header of the list at [clb] is an ATA command of [n] sectors at sector
    [l], with one region of [size] bytes at [addr]; [t] is its table. *)
Record command_of (mem : Z -> Z) (clb : Z) (write : bool) (l n addr size : Z) : Prop := CommandOf {
  co_flags : mem clb = if write then 0x45 else 0x05;
  co_prdtl : mem (clb + 2) + 2 ^ 8 * mem (clb + 3) = 1;
  co_fis : let t := word32 mem (clb + 8) in
    mem t = 0x27 /\ mem (t + 1) = 0x80 /\ mem (t + 2) = (if write then 0x35 else 0x25) /\ mem (t + 7) = 0x40;
  co_lba : let t := word32 mem (clb + 8) in
    mem (t + 4) + 2 ^ 8 * mem (t + 5) + 2 ^ 16 * mem (t + 6) +
    2 ^ 24 * mem (t + 8) + 2 ^ 32 * mem (t + 9) + 2 ^ 40 * mem (t + 10) = l;
  co_count : let t := word32 mem (clb + 8) in mem (t + 12) + 2 ^ 8 * mem (t + 13) = n;
  co_region : let t := word32 mem (clb + 8) in
    word32 mem (t + 128) = addr /\ word32 mem (t + 132) = 0 /\ word32 mem (t + 140) mod 2 ^ 22 = size - 1
}.

Section Disk.
Context `{Mmio D} `{PhysMem D}.
(** The registers of the port, the physical address of its command list. *)
Variables pb clb : Z.
(** The port runs, no command is outstanding and its list is at [clb]. *)
Variable idle : D -> Prop.
(** The bytes of the disk. *)
Variable disk : D -> Z -> Z.

Definition mem (d : D) (a : Z) : Z := mem_read a d.

(** The command that was issued is done after [k] polls without an error. *)
Inductive completes : nat -> D -> D -> Prop :=
  | completes_now v d d' :
      mmio_read (pb + port_offset command_issue) d = (v, d') -> Z.testbit (u32 v) 0 = false -> completes 0 d d'
  | completes_later k v w d d1 d2 d' :
      mmio_read (pb + port_offset command_issue) d = (v, d1) -> Z.testbit (u32 v) 0 = true ->
      mmio_read (pb + port_offset interrupt_status) d1 = (w, d2) -> has (u32 w) AHCI_HBA_TFES = false ->
      completes k d2 d' -> completes (S k) d d'.

Definition same (d d' : D) : Prop := (forall a, mem d' a = mem d a) /\ (forall a, disk d' a = disk d a).

Record ahci_laws : Prop := AhciLaws {
  law_byte : forall a d, is_byte (mem d a);
  law_store : forall a b d, is_byte b -> forall a', mem (mem_write a b d) a' = if a' =? a then b else mem d a';
  law_store_idle : forall a b d, idle d -> idle (mem_write a b d) /\ forall a', disk (mem_write a b d) a' = disk d a';
  law_ready : forall d, idle d ->
    let (v, d') := mmio_read (pb + port_offset task_file_data) d in
    has (u32 v) (Z.lor ATA_SR_BSY ATA_SR_DRQ) = false /\ idle d' /\ same d d';
  law_acknowledge : forall v d, idle d ->
    let d' := mmio_write (pb + port_offset interrupt_status) v d in idle d' /\ same d d';
  law_read : forall d l n addr size, idle d -> command_of (mem d) clb false l n addr size -> 0 < n < 2 ^ 16 -> 512 * n <= size ->
    exists k d', Z.of_nat k <= 10000 /\ completes k (mmio_write (pb + port_offset command_issue) 1 d) d' /\ idle d' /\
      (forall a, disk d' a = disk d a) /\
      (forall a, mem d' a = if (addr <=? a) && (a <? addr + 512 * n) then disk d (512 * l + (a - addr)) else mem d a);
  law_write : forall d l n addr size, idle d -> command_of (mem d) clb true l n addr size -> 0 < n < 2 ^ 16 -> 512 * n <= size ->
    exists k d', Z.of_nat k <= 10000 /\ completes k (mmio_write (pb + port_offset command_issue) 1 d) d' /\ idle d' /\
      (forall a, mem d' a = mem d a) /\
      (forall a, disk d' a =
         if (512 * l <=? a) && (a <? 512 * l + 512 * n) then mem d (addr + (a - 512 * l)) else disk d a)
}.

Context (L : ahci_laws).
Variable v2p : Z -> Z.
Variable polls : nat.

(** ** Memory *)

Lemma load_byte_run a (s : ahci) (d : D) : load_byte a (s, d) = Done (mem d a, (s, d)).
Proof. done. Qed.

Lemma store_byte_run a b (s : ahci) (d : D) : store_byte a b (s, d) = Done (tt, (s, mem_write a b d)).
Proof. done. Qed.

Lemma read_virtual_run n v (s : ahci) (d : D) :
  read_virtual v2p n v (s, d) = Done (map (fun i => mem d (v2p (v + i))) (seqZ 0 (Z.of_nat n)), (s, d)).
Proof. exact (read_virtual_bytes (D := ahci * D) v2p n v (s, d)). Qed.

(** [put d d' v l]: [l] was stored at [v], and nothing else changed. *)
Record put (d d' : D) (v : Z) (l : list Z) : Prop := Put {
  put_in : forall i b, l !! i = Some b -> mem d' (v2p (v + Z.of_nat i)) = b;
  put_out : forall a, (forall i, (i < length l)%nat -> a <> v2p (v + Z.of_nat i)) -> mem d' a = mem d a;
  put_disk : forall a, disk d' a = disk d a
}.

Definition injective_on (v n : Z) : Prop :=
  forall i j, 0 <= i < n -> 0 <= j < n -> v2p (v + i) = v2p (v + j) -> i = j.

Lemma write_virtual_run v l (s : ahci) (d : D) :
  idle d -> Forall is_byte l -> injective_on v (Z.of_nat (length l)) ->
  exists d', write_virtual v2p v l (s, d) = Done (tt, (s, d')) /\ idle d' /\ put d d' v l.
Proof.
  revert v d. induction l as [|b l IH]; intros v d Hi Hl Hinj.
  - exists d. split; [done|]. split; [done|]. constructor; done.
  - apply list.Forall_cons in Hl as [Hb Hl]. cbn [write_virtual].
    rewrite (bind_run _ _ _ _ _ (store_byte_run (v2p v) b s d)).
    destruct (law_store_idle L (v2p v) b d Hi) as [Hi1 Hd1].
    destruct (IH (v + 1) (mem_write (v2p v) b d) Hi1 Hl) as (d' & E & Hi' & [Hin Hout Hd]).
    { intros i j Hx Hy E. cbn [length] in Hinj. cut (i + 1 = j + 1); [lia|]. apply Hinj; [lia|lia|].
      by replace (v + (i + 1)) with (v + 1 + i) by lia; replace (v + (j + 1)) with (v + 1 + j) by lia. }
    exists d'. split; [done|]. split; [done|].
    assert (mem d' (v2p v) = b) as Hfirst.
    { rewrite Hout.
      - rewrite (law_store L) by done. by rewrite Z.eqb_refl.
      - intros i Hil E2. cut (0 = 1 + Z.of_nat i); [lia|]. apply Hinj; cbn [length]; [lia|lia|].
        rewrite Z.add_0_r, E2. f_equal. lia. }
    constructor.
    + intros [|i] x Hx; cbn in Hx; [injection Hx as <-; by rewrite Z.add_0_r|].
      replace (v + Z.of_nat (S i)) with (v + 1 + Z.of_nat i) by lia. by apply Hin.
    + intros a Ha. rewrite Hout.
      * rewrite (law_store L) by done. destruct (Z.eqb_spec a (v2p v)) as [->|]; [|done].
        exfalso. apply (Ha 0%nat); [cbn; lia|]. by rewrite Z.add_0_r.
      * intros i Hil ->. apply (Ha (S i)); [cbn; lia|]. f_equal. lia.
    + intros a. by rewrite Hd.
Qed.

(** ** Memory under contiguous blocks *)

(** [over p l m]: the memory [m] with the bytes [l] at [p]. *)
Definition over (p : Z) (l : list Z) (m : Z -> Z) (a : Z) : Z :=
  if (p <=? a) && (a <? p + Z.of_nat (length l)) then default 0 (l !! Z.to_nat (a - p)) else m a.

Lemma over_out p l m a : a < p \/ p + Z.of_nat (length l) <= a -> over p l m a = m a.
Proof. intros Ha. unfold over. destruct (Z.leb_spec p a), (Z.ltb_spec a (p + Z.of_nat (length l))); done || lia. Qed.

Lemma over_in p l m a i b : a = p + Z.of_nat i -> l !! i = Some b -> over p l m a = b.
Proof.
  intros -> Hb. pose proof (lookup_lt_Some _ _ _ Hb). unfold over.
  destruct (Z.leb_spec p (p + Z.of_nat i)), (Z.ltb_spec (p + Z.of_nat i) (p + Z.of_nat (length l))); try lia. cbn [andb].
  replace (Z.to_nat (p + Z.of_nat i - p)) with i by lia. by rewrite Hb.
Qed.

Definition contiguous (v p n : Z) : Prop := forall i, 0 <= i < n -> v2p (v + i) = p + i.

Lemma contiguous_injective v p n : contiguous v p n -> injective_on v n.
Proof. intros Hc i j Hi Hj E. rewrite !Hc in E by done. lia. Qed.

(** The machine after a step that keeps the port idle and the disk. *)
Record steps_to (d d' : D) (m : Z -> Z) : Prop := StepsTo {
  st_idle : idle d';
  st_disk : forall a, disk d' a = disk d a;
  st_mem : forall a, mem d' a = m a
}.

Lemma store_block v p l (s : ahci) (d : D) :
  idle d -> Forall is_byte l -> contiguous v p (Z.of_nat (length l)) ->
  exists d', write_virtual v2p v l (s, d) = Done (tt, (s, d')) /\ steps_to d d' (over p l (mem d)).
Proof.
  intros Hi Hl Hc. destruct (write_virtual_run v l s d Hi Hl (contiguous_injective _ _ _ Hc)) as (d' & E & Hi' & [Hin Hout Hd]).
  exists d'. split; [done|]. constructor; [done|done|]. intros a. unfold over.
  destruct (Z.leb_spec p a), (Z.ltb_spec a (p + Z.of_nat (length l))); cbn [andb]; try (apply Hout; intros i Hil ->; rewrite Hc in *; lia).
  destruct (lookup_lt_is_Some_2 l (Z.to_nat (a - p))) as [b Hb]; [lia|]. rewrite Hb. cbn.
  rewrite <- (Hin _ _ Hb), Hc by lia. f_equal. lia.
Qed.

Lemma acknowledge_run (s : ahci) (d : D) v :
  idle d -> exists d', writel (pb + port_offset interrupt_status) v (s, d) = Done (tt, (s, d')) /\ steps_to d d' (mem d).
Proof.
  intros Hi. destruct (law_acknowledge L (u32 v) d Hi) as (Hi' & Hm & Hd). eexists. split; [done|]. by constructor.
Qed.

Lemma readl_at a (s : ahci) (d d' : D) v : mmio_read a d = (v, d') -> readl a (s, d) = Done (u32 v, (s, d')).
Proof. intros E. unfold readl. cbn [fst snd]. by rewrite E. Qed.

Lemma wait_spin_run (s : ahci) (d : D) :
  idle d -> exists d', ahci_wait_spin pb (s, d) = Done (true, (s, d')) /\ steps_to d d' (mem d).
Proof.
  intros Hi. pose proof (law_ready L d Hi) as Hr.
  destruct (mmio_read (pb + port_offset task_file_data) d) as [v d'] eqn:E. destruct Hr as (Hb & Hi' & Hm & Hd).
  exists d'. split; [|by constructor]. unfold ahci_wait_spin. generalize (eq_refl (Z.to_nat 1000000)).
  generalize (Z.to_nat 1000000) at 1 3. intros [|n] En; [lia|]. cbn [wait_spin].
  by rewrite (bind_M _ _ _ _ _ (readl_at _ s _ _ _ E)), Hb.
Qed.

Lemma wait_command_run n k (s : ahci) (d d' : D) :
  completes k d d' -> (k < n)%nat -> wait_command polls n pb 0 (s, d) = Done (true, (s, d')).
Proof.
  intros Hc. revert n. induction Hc as [v d d' E Hb|k v w d d1 d2 d' E Hb E2 Hw Hc IH]; intros [|n] Hn; try lia; cbn [wait_command];
    rewrite (bind_M _ _ _ _ _ (readl_at _ s _ _ _ E)), Hb; cbn [negb]; [done|].
  rewrite (bind_M _ _ _ _ _ (readl_at _ s _ _ _ E2)), Hw. apply IH. lia.
Qed.

(** The command in memory is carried out: [m] is the memory and [dk] the disk after it. *)
Lemma send_cmd_run (s : ahci) (d : D) (m dk : Z -> Z) :
  idle d ->
  (forall d0, idle d0 -> same d d0 ->
    exists k d', Z.of_nat k <= 10000 /\ completes k (mmio_write (pb + port_offset command_issue) 1 d0) d' /\ idle d' /\
      (forall a, disk d' a = dk a) /\ (forall a, mem d' a = m a)) ->
  exists d', ahci_send_cmd polls pb 0 (s, d) = Done (true, (s, d')) /\ idle d' /\
    (forall a, disk d' a = dk a) /\ (forall a, mem d' a = m a).
Proof.
  intros Hi Hissue. unfold ahci_send_cmd.
  destruct (wait_spin_run s d Hi) as (d1 & E1 & [Hi1 Hd1 Hm1]). rewrite (bind_M _ _ _ _ _ E1). cbn [negb].
  destruct (acknowledge_run s d1 0xFFFFFFFF Hi1) as (d2 & E2 & [Hi2 Hd2 Hm2]). rewrite (bind_M _ _ _ _ _ E2).
  rewrite (bind_M _ _ (s, d2) tt (s, mmio_write (pb + port_offset command_issue) 1 d2) eq_refl).
  destruct (Hissue d2 Hi2) as (k & d' & Hk & Hc & Hi' & Hd' & Hm').
  { split; intros a; congruence. }
  exists d'. rewrite (wait_command_run _ _ s _ _ Hc) by lia. done.
Qed.

(** ** The command the driver builds *)

Definition command_table (write : bool) (l n addr size : Z) : HBA_CMD_TBL :=
  CmdTable (if write then write_fis l n else read_fis l n) no_packet (PrdtEntry addr (size - 1) 1 :: replicate 7 no_entry).

Lemma land_ff x : Z.land x 0xFF = x mod 256.
Proof. change 0xFF with (Z.ones 8). by rewrite Z.land_ones by lia. Qed.

(** The bytes of a number give it back. *)
Lemma bytes_of_48 x :
  0 <= x < 2 ^ 48 ->
  x mod 256 + 2 ^ 8 * (x / 2 ^ 8 mod 256) + 2 ^ 16 * (x / 2 ^ 16 mod 256) + 2 ^ 24 * (x / 2 ^ 24 mod 256) +
  2 ^ 32 * (x / 2 ^ 32 mod 256) + 2 ^ 40 * (x / 2 ^ 40 mod 256) = x.
Proof.
  intros Hx.
  assert (forall k, 0 <= k -> x / 2 ^ k = 256 * (x / 2 ^ (k + 8)) + x / 2 ^ k mod 256) as Hd.
  { intros k Hk. rewrite Z.pow_add_r by lia. rewrite <- Z.div_div by lia. apply Z.div_mod. done. }
  pose proof (Hd 0 ltac:(lia)) as H0'. pose proof (Hd 8 ltac:(lia)) as H8. pose proof (Hd 16 ltac:(lia)) as H16.
  pose proof (Hd 24 ltac:(lia)) as H24. pose proof (Hd 32 ltac:(lia)) as H32. pose proof (Hd 40 ltac:(lia)) as H40. clear Hd.
  assert (x / 2 ^ (40 + 8) = 0) as Htop by (apply Z.div_small; done).
  rewrite Z.pow_0_r, Z.div_1_r in H0'. cbn [Z.add] in *.
  change (0 + 8) with 8 in *. change (8 + 8) with 16 in *. change (16 + 8) with 24 in *. change (24 + 8) with 32 in *.
  change (32 + 8) with 40 in *. lia.
Qed.

Lemma bytes_of_32 x :
  0 <= x < 2 ^ 32 ->
  x mod 256 + 2 ^ 8 * (x / 2 ^ 8 mod 256) + 2 ^ 16 * (x / 2 ^ 16 mod 256) + 2 ^ 24 * (x / 2 ^ 24 mod 256) = x.
Proof.
  intros Hx. pose proof (bytes_of_48 x ltac:(lia)) as E.
  rewrite (Z.div_small x (2 ^ 32)), (Z.div_small x (2 ^ 40)) in E by lia. change (0 mod 256) with 0 in E. lia.
Qed.

Lemma bytes_of_16 x : 0 <= x < 2 ^ 16 -> x mod 256 + 2 ^ 8 * (x / 2 ^ 8 mod 256) = x.
Proof.
  intros Hx. pose proof (bytes_of_32 x ltac:(lia)) as E.
  rewrite (Z.div_small x (2 ^ 16)), (Z.div_small x (2 ^ 24)) in E by lia. change (0 mod 256) with 0 in E. lia.
Qed.

Lemma word32_bytes (m : Z -> Z) a x :
  0 <= x < 2 ^ 32 -> (forall i b, bytes32 x !! i = Some b -> m (a + Z.of_nat i) = b) -> word32 m a = x.
Proof.
  intros Hx Hm. unfold word32.
  pose proof (Hm 0%nat _ eq_refl) as B0. pose proof (Hm 1%nat _ eq_refl) as B1.
  pose proof (Hm 2%nat _ eq_refl) as B2. pose proof (Hm 3%nat _ eq_refl) as B3.
  change (Z.of_nat 0) with 0 in B0. change (Z.of_nat 1) with 1 in B1. change (Z.of_nat 2) with 2 in B2.
  change (Z.of_nat 3) with 3 in B3. rewrite Z.add_0_r in B0. rewrite B0, B1, B2, B3.
  change 256 with (2 ^ 8) at 3. change 65536 with (2 ^ 16). change 16777216 with (2 ^ 24). by apply bytes_of_32.
Qed.

Lemma command_in_memory (m : Z -> Z) (write : bool) l n addr size :
  m clb = header_flags 5 0 (if write then 1 else 0) 0 -> m (clb + 2) = 1 -> m (clb + 3) = 0 ->
  word32 m (clb + 8) = clb + 1280 ->
  (forall i b, table_bytes (command_table write l n addr size) !! i = Some b -> m (clb + 1280 + Z.of_nat i) = b) ->
  0 <= l < (if write then 2 ^ 32 else 2 ^ 48) -> 0 < n < 2 ^ 16 -> 0 <= addr < 2 ^ 32 -> 0 < size <= region_step ->
  command_of m clb write l n addr size.
Proof.
  intros Hf H2 H3 Hw Ht Hl Hn Ha Hs.
  assert (forall i b, table_bytes (command_table write l n addr size) !! Z.to_nat i = Some b -> 0 <= i -> m (clb + 1280 + i) = b) as Ht'.
  { intros i b Hb Hi. rewrite <- (Ht _ _ Hb). f_equal. lia. }
  constructor; rewrite ?Hw.
  - rewrite Hf. by destruct write.
  - rewrite H2, H3. done.
  - cbv zeta. rewrite <- (Z.add_0_r (clb + 1280)) at 1. by destruct write; repeat split; apply Ht'.
  - cbv zeta. destruct write; cbn [command_table] in Ht';
      rewrite (Ht' 4 _ eq_refl), (Ht' 5 _ eq_refl), (Ht' 6 _ eq_refl), (Ht' 8 _ eq_refl), (Ht' 9 _ eq_refl), (Ht' 10 _ eq_refl) by lia;
      cbn -[Z.land Z.shiftr Z.add Z.mul Z.pow]; rewrite !land_ff, !Z.shiftr_div_pow2 by lia.
    + pose proof (bytes_of_32 l ltac:(lia)). lia.
    + by apply bytes_of_48.
  - cbv zeta. destruct write; rewrite (Ht' 12 _ eq_refl), (Ht' 13 _ eq_refl) by lia;
      cbn -[Z.land Z.shiftr Z.add Z.mul Z.pow]; rewrite !land_ff, !Z.shiftr_div_pow2 by lia; apply bytes_of_16; lia.
  - cbv zeta. split_and!.
    + apply word32_bytes; [done|]. intros i b Hb. replace (clb + 1280 + 128 + Z.of_nat i) with (clb + 1280 + (128 + Z.of_nat i)) by lia.
      apply Ht'; [|lia]. replace (Z.to_nat (128 + Z.of_nat i)) with (128 + i)%nat by lia.
      pose proof (lookup_lt_Some _ _ _ Hb). destruct write; destruct i as [|[|[|[|i]]]]; exact Hb || (cbn in *; lia).
    + apply word32_bytes; [lia|]. intros i b Hb. replace (clb + 1280 + 132 + Z.of_nat i) with (clb + 1280 + (132 + Z.of_nat i)) by lia.
      apply Ht'; [|lia]. replace (Z.to_nat (132 + Z.of_nat i)) with (132 + i)%nat by lia.
      pose proof (lookup_lt_Some _ _ _ Hb). destruct write; destruct i as [|[|[|[|i]]]]; exact Hb || (cbn in *; lia).
    + unfold region_step, MB in Hs. rewrite (word32_bytes m _ (size - 1 + 2 ^ 31)); [|lia|].
      * rewrite <- Zplus_mod_idemp_r. rewrite Z.add_0_r. apply Z.mod_small. lia.
      * intros i b Hb. replace (clb + 1280 + 140 + Z.of_nat i) with (clb + 1280 + (140 + Z.of_nat i)) by lia.
        apply Ht'; [|lia]. replace (Z.to_nat (140 + Z.of_nat i)) with (140 + i)%nat by lia.
        pose proof (lookup_lt_Some _ _ _ Hb).
        assert (Z.lor (size - 1) (Z.shiftl 1 31) = size - 1 + 2 ^ 31) as El.
        { rewrite Z.shiftl_1_l, Z.add_nocarry_lxor, Z.lxor_lor; [done| |]; (apply Z.bits_inj'; intros j Hj; rewrite Z.land_spec, Z.bits_0, Z.pow2_bits_eqb by lia;
            destruct (Z.eqb_spec 31 j) as [<-|]; [|by rewrite andb_false_r]; rewrite andb_true_r; apply (testbit_small _ 22); lia). }
        rewrite <- El in Hb. destruct write; destruct i as [|[|[|[|i]]]]; exact Hb || (cbn in *; lia).
Qed.

(** The list of the port is at [hdr], and its first header points to the first table. *)
Record slot (hdr : Z) (d : D) : Prop := Slot {
  slot_at : contiguous hdr clb 1536;
  slot_table : word32 (mem d) (clb + 8) = clb + 1280
}.

Definition outside (a p n : Z) : Prop := a < p \/ p + n <= a.

Lemma slot_kept hdr d d' : slot hdr d -> (forall a, clb + 8 <= a < clb + 12 -> mem d' a = mem d a) -> slot hdr d'.
Proof.
  intros [Hat Ht] Hm. constructor; [done|]. rewrite <- Ht. unfold word32. by rewrite !Hm by lia.
Qed.

Lemma contiguous_part v p n k len : contiguous v p n -> 0 <= k -> k + len <= n -> contiguous (v + k) (p + k) len.
Proof. intros Hc Hk Hl i Hi. rewrite <- Z.add_assoc, Hc by lia. lia. Qed.

Lemma table_bytes_length write l n addr size : length (table_bytes (command_table write l n addr size)) = 256%nat.
Proof. by destruct write. Qed.

Lemma bytes32_range x : Forall is_byte (bytes32 x).
Proof. unfold bytes32, is_byte. repeat constructor; apply Z.mod_pos_bound; lia. Qed.

Lemma land_ff_range x : is_byte (Z.land x 0xFF).
Proof. rewrite land_ff. unfold is_byte. apply Z.mod_pos_bound. lia. Qed.

Lemma zeros_range n : Forall is_byte (replicate n 0).
Proof. apply Forall_replicate. unfold is_byte. lia. Qed.

Lemma table_bytes_range write l n addr size : Forall is_byte (table_bytes (command_table write l n addr size)).
Proof.
  assert (forall f, Forall is_byte (fis_bytes f) -> Forall is_byte (table_bytes (CmdTable f no_packet
    (PrdtEntry addr (size - 1) 1 :: replicate 7 no_entry)))) as Hf.
  { intros f Hf. unfold table_bytes. cbn [cfis acmd prdt_entry]. do 4 (apply Forall_app_2; [solve [done | apply zeros_range]|]).
    apply Forall_concat, list.Forall_forall. intros z Hz. apply list_elem_of_fmap in Hz as (e & -> & _).
    unfold prdt_entry_bytes. repeat apply Forall_app_2; apply bytes32_range. }
  destruct write; apply Hf; unfold fis_bytes, write_fis, read_fis;
    cbn [fis_type pmport c command featurel lba0 lba1 lba2 device lba3 lba4 lba5 featureh countl counth icc control];
    repeat (apply list.Forall_cons; split); try apply land_ff_range; try apply list.Forall_nil; try done;
    unfold is_byte; vm_compute; split; congruence.
Qed.

(** The rest of the command after the flags of the header. *)
Lemma issue_run (s : ahci) (d : D) hdr (write : bool) l n addr size :
  idle d -> slot hdr d -> mem d clb = header_flags 5 0 (if write then 1 else 0) 0 ->
  0 <= l < (if write then 2 ^ 32 else 2 ^ 48) -> 0 < n < 2 ^ 16 -> 0 <= addr < 2 ^ 32 -> 512 * n <= size <= region_step ->
  (addr + size <= clb \/ clb + 1536 <= addr) ->
  exists d1 d2 d3, set_prdtl v2p hdr 1 (s, d) = Done (tt, (s, d1)) /\
    set_table v2p hdr (command_table write l n addr size) (s, d1) = Done (tt, (s, d2)) /\
    ahci_send_cmd polls pb 0 (s, d2) = Done (true, (s, d3)) /\ idle d3 /\ slot hdr d3 /\
    (forall a, disk d3 a = if write && (512 * l <=? a) && (a <? 512 * l + 512 * n)
                           then mem d (addr + (a - 512 * l)) else disk d a) /\
    (forall a, outside a clb 1536 ->
       mem d3 a = if negb write && (addr <=? a) && (a <? addr + 512 * n) then disk d (512 * l + (a - addr)) else mem d a).
Proof.
  intros Hi Hs Hflags Hl Hn Ha Hsize Hdis. pose proof (slot_at _ _ Hs) as Hat.
  destruct (store_block (hdr + 2) (clb + 2) (bytes16 (u16 1)) s d Hi) as (d1 & E1 & [Hi1 Hd1 Hm1]).
  { unfold is_byte. repeat constructor; vm_compute; congruence. }
  { apply contiguous_part with (n := 1536); [done|lia|cbn; lia]. }
  destruct (store_block (AHCI_COMMAND_TABLE hdr 0) (clb + 1280) (table_bytes (command_table write l n addr size)) s d1 Hi1)
    as (d2 & E2 & [Hi2 Hd2 Hm2]).
  { apply table_bytes_range. }
  { rewrite table_bytes_length. replace (AHCI_COMMAND_TABLE hdr 0) with (hdr + 1280)
      by (unfold AHCI_COMMAND_TABLE, AHCI_FIS, AHCI_COMMAND_LIST, COMMAND_LIST_SIZE, COMMAND_LIST_ENTRY_COUNT, COMMAND_LIST_ENTRY_SIZE, FIS_SIZE; lia).
    apply contiguous_part with (n := 1536); [done|lia|lia]. }
  assert (forall a, outside a clb 1536 -> mem d2 a = mem d a) as Hout.
  { intros a Ho. unfold outside in Ho. rewrite Hm2, over_out, Hm1, over_out by (rewrite ?table_bytes_length; cbn; lia). done. }
  assert (forall a, clb <= a < clb + 1280 -> mem d2 a = over (clb + 2) (bytes16 (u16 1)) (mem d) a) as Hlist.
  { intros a Hin. rewrite Hm2, over_out, Hm1 by (rewrite ?table_bytes_length; lia). done. }
  assert (slot hdr d2) as Hs2.
  { apply (slot_kept hdr d); [done|]. intros a Hin. rewrite Hlist, over_out by (cbn; lia). done. }
  assert (command_of (mem d2) clb write l n addr size) as Hc.
  { apply command_in_memory; try done; try lia.
    - rewrite Hlist, over_out by (cbn; lia). done.
    - rewrite Hlist by lia. by apply over_in with (i := 0%nat); [lia|].
    - rewrite Hlist by lia. by apply over_in with (i := 1%nat); [lia|].
    - apply (slot_table _ _ Hs2).
    - intros i b Hb. rewrite Hm2. by apply over_in with (i := i). }
  destruct (send_cmd_run s d2
    (fun a => if negb write && (addr <=? a) && (a <? addr + 512 * n) then disk d (512 * l + (a - addr)) else mem d2 a)
    (fun a => if write && (512 * l <=? a) && (a <? 512 * l + 512 * n) then mem d2 (addr + (a - 512 * l)) else disk d a) Hi2)
    as (d3 & E3 & Hi3 & Hd3 & Hm3).
  { intros d0 Hi0 [Hm0 Hd0].
    assert (command_of (mem d0) clb write l n addr size) as Hc0.
    { destruct Hc as [F P T LB C R]. constructor; unfold word32 in *; rewrite ?Hm0; cbv zeta in *; rewrite ?Hm0; assumption. }
    destruct write; cbn [negb andb].
    - destruct (law_write L d0 l n addr size Hi0 Hc0 Hn ltac:(lia)) as (k & d' & Hk & Hcp & Hi' & Hm' & Hd').
      exists k, d'. split_and!; try done; intros a; [rewrite Hd'; destruct (_ && _); [by rewrite Hm0|congruence]|by rewrite Hm', Hm0].
    - destruct (law_read L d0 l n addr size Hi0 Hc0 Hn ltac:(lia)) as (k & d' & Hk & Hcp & Hi' & Hd' & Hm').
      exists k, d'. split_and!; try done; intros a; [by rewrite Hd', Hd0, Hd2, Hd1|].
      rewrite Hm'. destruct (_ && _); [by rewrite Hd0, Hd2, Hd1|by rewrite Hm0]. }
  exists d1, d2, d3. split; [exact E1|]. split; [exact E2|]. split; [exact E3|]. split; [done|]. split_and!.
  - apply (slot_kept hdr d2); [done|]. intros a Hin. rewrite Hm3.
    destruct (negb write && (addr <=? a) && (a <? addr + 512 * n)) eqn:Eb; [|done].
    apply andb_true_iff in Eb as [[_ Eb]%andb_true_iff Eb2]. lia.
  - intros a. rewrite Hd3. destruct (write && (512 * l <=? a) && (a <? 512 * l + 512 * n)) eqn:Eb; [|done].
    apply andb_true_iff in Eb as [[_ Eb]%andb_true_iff Eb2]. apply Hout. unfold outside. lia.
  - intros a Ho. rewrite Hm3. destruct (_ && _); [done|]. by apply Hout.
Qed.

(** ** Sectors *)

(** The driver knows the port as a hard disk, and nobody is using it. *)
Record port_here (s : ahci) (port_num hdr : Z) : Prop := PortHere {
  here_port : AHCI_PORT (abar s) port_num = pb;
  here_desc : exists desc, array_get (ports s) port_num = Done desc /\ is_atapi desc = false /\ command_list_addr_virt desc = hdr;
  here_ready : ahci_initialized s = true;
  here_free : ahci_mutex s = false
}.

Definition locked (s : ahci) : ahci := set_mutex true s.

Lemma unlock s : ahci_mutex s = false -> set_mutex false (locked s) = s.
Proof. destruct s. cbn. by intros ->. Qed.

Lemma port_desc_run (s : ahci) (d : D) n desc :
  array_get (ports s) n = Done desc -> port_desc n (s, d) = Done (desc, (s, d)).
Proof. intros E. unfold port_desc. rewrite (bind_M driver _ (s, d) s (s, d) eq_refl). unfold lift. by rewrite E. Qed.

(** What a transfer leaves behind in memory. *)
Definition disk_bytes (d : D) (a n : Z) : list Z := map (disk d) (seqZ a n).

Lemma disk_bytes_lookup d a n i : 0 <= i < n -> disk_bytes d a n !! Z.to_nat i = Some (disk d (a + i)).
Proof. intros Hi. unfold disk_bytes. rewrite list_lookup_fmap, lookup_seqZ_lt by lia. cbn. do 2 f_equal. lia. Qed.

Definition not_under (a v n : Z) : Prop := forall i, 0 <= i < n -> a <> v2p (v + i).

Lemma sectors_fit n : 0 < n <= 64 -> u32 ((n + 1) * 512) = 512 * n + 512.
Proof. intros Hn. rewrite u32_small; lia. Qed.

(** The first half of a read: the command is carried out. *)
Lemma ahci_read_sectors_run s port_num hdr l n buffer buffer_mem sense_mem pm d :
  port_here s port_num hdr -> idle d -> slot hdr d ->
  0 <= l < 2 ^ 48 -> 0 < n <= 64 -> contiguous buffer_mem pm (512 * n + 512) -> 0 <= pm -> pm + (512 * n + 512) <= 2 ^ 32 ->
  (pm + (512 * n + 512) <= clb \/ clb + 1536 <= pm) ->
  injective_on buffer (512 * n + 512) -> (forall a, clb <= a < clb + 1536 -> not_under a buffer (512 * n + 512)) ->
  exists d', ahci_read_sectors v2p polls port_num l n buffer buffer_mem sense_mem (s, d) = Done (512 * n + 512, (s, d')) /\
    idle d' /\ slot hdr d' /\ (forall a, disk d' a = disk d a) /\
    (forall i, 0 <= i < 512 * n -> mem d' (v2p (buffer + i)) = disk d (512 * l + i)) /\
    (forall a, outside a clb 1536 -> outside a pm (512 * n + 512) -> not_under a buffer (512 * n + 512) -> mem d' a = mem d a).
Proof.
  intros [Hp (desc & Hdesc & Hat & Hv) Hr Hf] Hi Hs Hl Hn Hc Hpm Hpe Hdis Hinj Hlb. unfold ahci_read_sectors.
  rewrite (bind_M driver _ (s, d) s (s, d) eq_refl), Hr. cbn [negb].
  assert (mutex_get (s, d) = Done (tt, (locked s, d))) as E0.
  { unfold mutex_get. by rewrite (bind_M driver _ (s, d) s (s, d) eq_refl), Hf. }
  rewrite (bind_M _ _ _ _ _ E0), (bind_M (port_at port_num) _ (locked s, d) pb (locked s, d)) by (rewrite <- Hp; done).
  destruct (wait_spin_run (locked s) d Hi) as (d1 & E1 & [Hi1 Hd1 Hm1]). rewrite (bind_M _ _ _ _ _ E1).
  rewrite (bind_M _ _ _ _ _ (port_desc_run (locked s) d1 port_num desc Hdesc)), Hat.
  rewrite (bind_M (mret true) _ (locked s, d1) true (locked s, d1) eq_refl). cbn [negb].
  destruct (acknowledge_run (locked s) d1 0xFFFFFFFF Hi1) as (d2 & E2 & [Hi2 Hd2 Hm2]). rewrite (bind_M _ _ _ _ _ E2).
  cbv zeta. rewrite Hv. unfold block_size_of. rewrite Hat, (sectors_fit n Hn).
  assert (slot hdr d2) as Hs2 by (apply (slot_kept hdr d); [done|]; intros; by rewrite Hm2, Hm1).
  destruct (store_block hdr clb [header_flags 5 0 0 0] (locked s) d2 Hi2) as (d3 & E3 & [Hi3 Hd3 Hm3]).
  { unfold is_byte. repeat constructor; vm_compute; congruence. }
  { intros i Hin. cbn in Hin. by rewrite (slot_at _ _ Hs2) by lia. }
  rewrite (bind_M _ _ _ _ _ E3).
  destruct (store_block buffer_mem pm (replicate (Z.to_nat (512 * n + 512)) 0) (locked s) d3 Hi3) as (d4 & E4 & [Hi4 Hd4 Hm4]).
  { apply zeros_range. }
  { by rewrite length_replicate, Z2Nat.id by lia. }
  rewrite (bind_M _ _ _ _ _ E4).
  assert (forall a, outside a pm (512 * n + 512) -> mem d4 a = over clb [header_flags 5 0 0 0] (mem d2) a) as Hm4'.
  { intros a Ho. unfold outside in Ho. rewrite Hm4, over_out, Hm3 by (rewrite length_replicate; lia). done. }
  rewrite (bind_M (lift (ahci_fill_prdt v2p empty_prdt buffer_mem (512 * n + 512))) _ (locked s, d4)
    (PrdtEntry pm (512 * n + 512 - 1) 1 :: replicate 7 no_entry, 1) (locked s, d4)).
  2: { unfold lift. rewrite one_region by (unfold region_step, MB; lia). rewrite <- (Z.add_0_r buffer_mem), Hc by lia.
       by rewrite Z.add_0_r, (u32_small pm) by lia. }
  destruct (issue_run (locked s) d4 hdr false l n pm (512 * n + 512)) as (d5 & d6 & d7 & E5 & E6 & E7 & Hi7 & Hs7 & Hd7 & Hm7); try done.
  { apply (slot_kept hdr d2); [done|]. intros a Ha. rewrite Hm4' by (unfold outside; lia). apply over_out. cbn. lia. }
  { rewrite Hm4' by (unfold outside; lia). by apply over_in with (i := 0%nat); [lia|]. }
  { lia. } { lia. } { unfold region_step, MB. lia. }
  cbn [command_table] in E6. rewrite (bind_M _ _ _ _ _ E5), (bind_M _ _ _ _ _ E6), (bind_M _ _ _ _ _ E7). cbn [negb].
  rewrite (bind_M _ _ _ _ _ (read_virtual_run _ buffer_mem (locked s) d7)). rewrite Z2Nat.id by lia. set (data := map _ _).
  assert (length data = Z.to_nat (512 * n + 512)) as Hlen by (unfold data; by rewrite length_map, length_seqZ).
  destruct (write_virtual_run buffer data (locked s) d7 Hi7) as (d8 & E8 & Hi8 & [Hin Hout Hd8]).
  { apply list.Forall_forall. intros b Hb. apply list_elem_of_fmap in Hb as (i & -> & _). apply (law_byte L). }
  { by rewrite Hlen, Z2Nat.id by lia. }
  rewrite (bind_M _ _ _ _ _ E8).
  rewrite (bind_M mutex_release _ (locked s, d8) tt (s, d8)) by (unfold mutex_release, update; cbn [fst snd]; by rewrite unlock).
  exists d8. split; [done|]. split; [done|].
  assert (forall a, not_under a buffer (512 * n + 512) -> mem d8 a = mem d7 a) as Hout'.
  { intros a Ha. apply Hout. intros i Hil. apply Ha. lia. }
  split; [|split; [|split]].
  - apply (slot_kept hdr d7); [done|]. intros a Ha. apply Hout', Hlb. lia.
  - intros a. rewrite Hd8, Hd7. cbn [andb]. by rewrite Hd4, Hd3, Hd2, Hd1.
  - intros i Hil. rewrite <- (Z2Nat.id i) at 1 by lia. apply Hin. unfold data.
    rewrite list_lookup_fmap, lookup_seqZ_lt by lia. cbn [fmap option_fmap option_map].
    rewrite Z2Nat.id, Z.add_0_l, Hc, Hm7 by (lia || (unfold outside; lia)). cbn [negb andb].
    destruct (Z.leb_spec pm (pm + i)), (Z.ltb_spec (pm + i) (pm + 512 * n)); try lia. cbn [andb].
    rewrite Hd4, Hd3, Hd2, Hd1. do 2 f_equal. lia.
  - intros a Ho1 Ho2 Ho3. rewrite Hout', Hm7 by done. cbn [negb andb]. unfold outside in Ho1, Ho2.
    destruct (Z.leb_spec pm a), (Z.ltb_spec a (pm + 512 * n)); try lia; cbn [andb];
      (rewrite Hm4', over_out, Hm2, Hm1 by (unfold outside; cbn; lia); done).
Qed.

(** ** Runs of transfers *)

(** The block [v] of [n] bytes does not share memory with the port's list or with the
    transfer block at [pm]. *)
Record apart (v n pm : Z) : Prop := Apart {
  apart_injective : injective_on v n;
  apart_list : forall i, 0 <= i < n -> outside (v2p (v + i)) clb 1536;
  apart_transfer : forall i, 0 <= i < n -> outside (v2p (v + i)) pm 33280
}.

Lemma apart_part v n pm k len : apart v n pm -> 0 <= k -> k + len <= n -> apart (v + k) len pm.
Proof.
  intros [Hi Hl Ht] Hk Hle. constructor.
  - intros i j H1 H2 E. cut (k + i = k + j); [lia|]. apply Hi; [lia|lia|]. by rewrite !Z.add_assoc.
  - intros i Hil. rewrite <- Z.add_assoc. apply Hl. lia.
  - intros i Hil. rewrite <- Z.add_assoc. apply Ht. lia.
Qed.

Lemma apart_under v n pm a : apart v n pm -> clb <= a < clb + 1536 -> not_under a v n.
Proof. intros [_ Hl _] Ha i Hi ->. pose proof (Hl i Hi) as Ho. unfold outside in Ho. lia. Qed.

(** The transfer block: 65 sectors in adjacent frames. *)
Record transfer_block (buffer_mem pm : Z) : Prop := TransferBlock {
  tb_frames : contiguous buffer_mem pm 33280;
  tb_range : 0 <= pm /\ pm + 33280 <= 2 ^ 32;
  tb_list : pm + 33280 <= clb \/ clb + 1536 <= pm
}.

Lemma read_transfers_run k i s port_num hdr start count rb buffer_mem sense_mem pm d :
  port_here s port_num hdr -> idle d -> slot hdr d -> transfer_block buffer_mem pm ->
  0 <= i -> 0 <= count -> (count - i + 63) / 64 = Z.of_nat k ->
  0 <= start -> start + count <= 2 ^ 48 -> 0 <= rb -> rb + (512 * count + 512) <= 2 ^ 32 ->
  apart rb (512 * count + 512) pm ->
  exists d', read_transfers v2p polls k i port_num start count 512 rb buffer_mem sense_mem (s, d) = Done (tt, (s, d')) /\
    idle d' /\ slot hdr d' /\ (forall a, disk d' a = disk d a) /\
    (forall j, 0 <= j < 512 * count ->
       mem d' (v2p (rb + j)) = if j <? 512 * i then mem d (v2p (rb + j)) else disk d (512 * start + j)) /\
    (forall a, outside a clb 1536 -> outside a pm 33280 -> not_under a rb (512 * count + 512) -> mem d' a = mem d a).
Proof.
  intros Hh Hi Hs [Hc Hpr Hpd] H0i Hcount Hk Hst Hse Hrb Hre Hap. revert i d Hi Hs H0i Hk.
  induction k as [|k IH]; intros i d Hi Hs H0i Hk; cbn [read_transfers].
  { exists d. split; [done|]. split_and!; try done. intros j Hj. destruct (Z.ltb_spec j (512 * i)); [done|].
    assert (0 < (count - i + 63) / 64) by (apply Z.div_str_pos; lia). lia. }
  assert (0 < count - i) as Hpos.
  { destruct (Z.lt_ge_cases 0 (count - i)); [done|].
    assert ((count - i + 63) / 64 < 1) by (apply Z.div_lt_upper_bound; lia). lia. }
  set (n := Z.min (count - i) sectors_per_transfer). assert (0 < n <= 64 /\ n <= count - i) as [Hn Hnc] by (unfold n, sectors_per_transfer; lia).
  rewrite (u64_small (start + i)), (u32_small (rb + i * 512)) by lia. replace (rb + i * 512) with (rb + 512 * i) by lia.
  assert (apart (rb + 512 * i) (512 * n + 512) pm) as Hap1 by (apply apart_part with (n := 512 * count + 512); [done|lia|lia]).
  destruct (ahci_read_sectors_run s port_num hdr (start + i) n (rb + 512 * i) buffer_mem sense_mem pm d)
    as (d1 & E1 & Hi1 & Hs1 & Hd1 & Hin1 & Hout1); try done; try lia.
  { intros j Hj. apply Hc. lia. }
  { apply (apart_injective _ _ _ Hap1). }
  { intros a Ha. by apply (apart_under _ _ pm). }
  rewrite (bind_M _ _ _ _ _ E1).
  destruct (IH (i + sectors_per_transfer) d1) as (d2 & E2 & Hi2 & Hs2 & Hd2 & Hin2 & Hout2); [done|done|unfold sectors_per_transfer; lia| |].
  { unfold sectors_per_transfer. replace (count - (i + 64) + 63) with (count - i + 63 + (-1) * 64) by lia. rewrite Z.div_add by lia. lia. }
  exists d2. split; [done|]. split; [done|]. split; [done|]. split; [intros a; by rewrite Hd2|]. split.
  - intros j Hj. rewrite Hin2 by done. unfold sectors_per_transfer in *.
    destruct (Z.ltb_spec j (512 * (i + 64))), (Z.ltb_spec j (512 * i)); try lia.
    + apply Hout1; [by apply (apart_list _ _ _ Hap); lia| |].
      * pose proof (apart_transfer _ _ _ Hap j ltac:(lia)) as Ho. unfold outside in *. lia.
      * intros m Hm E. rewrite <- Z.add_assoc in E. apply (apart_injective _ _ _ Hap) in E; lia.
    + replace (rb + j) with (rb + 512 * i + (j - 512 * i)) by lia. rewrite Hin1 by lia. f_equal. lia.
    + by rewrite Hd1.
  - intros a Ho1 Ho2 Ho3. rewrite Hout2 by done. apply Hout1; [done|unfold outside in *; lia|].
    intros m Hm. rewrite <- Z.add_assoc. apply Ho3. lia.
Qed.

(** ** Bytes *)

Lemma sector_count_of_covers location length :
  0 <= location -> 0 < length -> location + length <= 2 ^ 48 ->
  let start := start_sector_of 512 location in let count := sector_count_of 512 location length in
  0 <= start /\ 0 < count /\ start + count <= 2 ^ 48 /\ 512 * start + location mod 512 = location /\
  location mod 512 + length <= 512 * count < location mod 512 + length + 512.
Proof.
  intros Hl Hn Hend. unfold start_sector_of, sector_count_of. cbv zeta. rewrite (u64_small (location + length - 1)) by lia.
  pose proof (Z.div_mod location 512 ltac:(lia)) as Hd. pose proof (Z.mod_pos_bound location 512 ltac:(lia)) as Hm.
  pose proof (Z.div_mod (location + length - 1) 512 ltac:(lia)) as Hd2.
  pose proof (Z.mod_pos_bound (location + length - 1) 512 ltac:(lia)) as Hm2.
  revert Hd Hm Hd2 Hm2. generalize (location / 512) (location mod 512) ((location + length - 1) / 512) ((location + length - 1) mod 512).
  intros q r q2 r2 -> Hm Hd2 Hm2. rewrite u64_small by lia. lia.
Qed.

Lemma ahci_read_run (s : ahci) (port_num hdr buf location length real_buf buffer_mem sense_mem pm : Z) (d : D)
    (Hhere : port_here s port_num hdr) (Hidle : idle d) (Hslot : slot hdr d) (Hblock : transfer_block buffer_mem pm)
    (Hloc : 0 <= location) (Hlen : 0 < length) (Hend : location + length <= 2 ^ 48)
    (Hrb : 0 <= real_buf) (Hre : real_buf + length + 2048 <= 2 ^ 32) (Hrap : apart real_buf (length + 2048) pm)
    (Hbuf : buf <> 0) (Hbap : apart buf length pm) :
  exists d', ahci_read v2p polls port_num buf location length real_buf buffer_mem sense_mem (s, d) = Done (tt, (s, d')) /\
    idle d' /\ slot hdr d' /\ (forall a, disk d' a = disk d a) /\
    (forall i, 0 <= i < length -> mem d' (v2p (buf + i)) = disk d (location + i)) /\
    (forall a, outside a clb 1536 -> outside a pm 33280 -> not_under a real_buf (length + 2048) -> not_under a buf length ->
       mem d' a = mem d a).
Proof.
  pose proof (sector_count_of_covers location length Hloc Hlen Hend) as Hcov. cbv zeta in Hcov.
  destruct Hcov as (Hs0 & Hc0 & Hse & Hoff & Hcov). pose proof (Z.mod_pos_bound location 512 ltac:(lia)) as Hmod.
  unfold ahci_read. destruct (Z.eqb_spec buf 0) as [|_]; [done|].
  destruct (here_desc _ _ _ Hhere) as (desc & Hdesc & Hat & _).
  rewrite (bind_M _ _ _ _ _ (port_desc_run s d port_num desc Hdesc)). cbv zeta. unfold block_size_of. rewrite Hat.
  revert Hs0 Hc0 Hse Hoff Hcov. generalize (start_sector_of 512 location) (sector_count_of 512 location length).
  intros start count Hs0 Hc0 Hse Hoff Hcov.
  destruct (read_transfers_run (Z.to_nat ((count + (sectors_per_transfer - 1)) / sectors_per_transfer)) 0 s port_num hdr
    start count real_buf buffer_mem sense_mem pm d) as (d1 & E1 & Hi1 & Hs1 & Hd1 & Hin1 & Hout1); try done; try lia.
  { unfold sectors_per_transfer. rewrite Z.sub_0_r, Z2Nat.id; [done|]. apply Z.div_pos; lia. }
  { rewrite <- (Z.add_0_r real_buf). apply apart_part with (n := length + 2048); [done|lia|lia]. }
  rewrite (bind_M _ _ _ _ _ E1), (bind_M _ _ _ _ _ (read_virtual_run _ _ s d1)), Z2Nat.id by lia.
  destruct (write_virtual_run buf (map (fun i => mem d1 (v2p (real_buf + location mod 512 + i))) (seqZ 0 length)) s d1 Hi1)
    as (d2 & E2 & Hi2 & [Hin2 Hout2 Hd2]).
  { apply list.Forall_forall. intros b Hb. apply list_elem_of_fmap in Hb as (i & -> & _). apply (law_byte L). }
  { rewrite length_map, length_seqZ, Z2Nat.id by lia. apply (apart_injective _ _ _ Hbap). }
  exists d2. split; [exact E2|]. split; [done|].
  assert (forall a, not_under a buf length -> mem d2 a = mem d1 a) as Hout.
  { intros a Ha. apply Hout2. rewrite length_map, length_seqZ. intros i Hi. apply Ha. lia. }
  split; [|split; [|split]].
  - apply (slot_kept hdr d1); [done|]. intros a Ha. apply Hout. apply (apart_under _ _ pm); [done|lia].
  - intros a. by rewrite Hd2.
  - intros i Hi. rewrite <- (Z2Nat.id i) at 1 by lia. apply Hin2. rewrite list_lookup_fmap, lookup_seqZ_lt by lia. cbn.
    rewrite Z2Nat.id, <- Z.add_assoc, Hin1 by lia. f_equal. destruct (Z.ltb_spec (location mod 512 + (0 + i)) (512 * 0)); [lia|].
    f_equal. lia.
  - intros a Ho1 Ho2 Ho3 Ho4. rewrite Hout, Hout1 by (try done; intros i Hi; apply Ho3; lia). done.
Qed.


(** ** Writing *)

Lemma ahci_write_sectors_run s port_num hdr l n buffer buffer_mem pm d :
  port_here s port_num hdr -> idle d -> slot hdr d ->
  0 <= l < 2 ^ 32 -> 0 < n -> 512 * n <= region_step ->
  contiguous buffer_mem pm (512 * n) -> 0 <= pm -> pm + 512 * n <= 2 ^ 32 -> (pm + 512 * n <= clb \/ clb + 1536 <= pm) ->
  (forall i, 0 <= i < 512 * n -> outside (v2p (buffer + i)) pm (512 * n)) ->
  exists d', ahci_write_sectors v2p polls port_num l n buffer buffer_mem (s, d) = Done (tt, (s, d')) /\
    idle d' /\ slot hdr d' /\
    (forall a, disk d' a = if (512 * l <=? a) && (a <? 512 * l + 512 * n)
                           then mem d (v2p (buffer + (a - 512 * l))) else disk d a) /\
    (forall a, outside a clb 1536 -> outside a pm (512 * n) -> mem d' a = mem d a).
Proof.
  intros [Hp (desc & Hdesc & Hat & Hv) Hr Hf] Hi Hs Hl Hn Hns Hc Hpm Hpe Hdis Hb. unfold ahci_write_sectors.
  assert (512 * n < 2 ^ 22) as Hn2 by (unfold region_step, MB in *; lia).
  rewrite (bind_M driver _ (s, d) s (s, d) eq_refl), Hr. cbn [negb].
  assert (mutex_get (s, d) = Done (tt, (locked s, d))) as E0.
  { unfold mutex_get. by rewrite (bind_M driver _ (s, d) s (s, d) eq_refl), Hf. }
  rewrite (bind_M _ _ _ _ _ E0), (bind_M _ _ _ _ _ (port_desc_run (locked s) d port_num desc Hdesc)). cbv zeta.
  unfold block_size_of. rewrite Hat, Hv, u32_small by lia. replace (n * 512) with (512 * n) by lia.
  destruct (store_block buffer_mem pm (replicate (Z.to_nat (512 * n)) 0) (locked s) d Hi) as (d1 & E1 & [Hi1 Hd1 Hm1]).
  { apply zeros_range. }
  { by rewrite length_replicate, Z2Nat.id by lia. }
  rewrite (bind_M _ _ _ _ _ E1), (bind_M _ _ _ _ _ (read_virtual_run _ buffer (locked s) d1)), Z2Nat.id by lia.
  set (data := map (fun i => mem d1 (v2p (buffer + i))) (seqZ 0 (512 * n))).
  assert (length data = Z.to_nat (512 * n)) as Hlen by (unfold data; by rewrite length_map, length_seqZ).
  destruct (store_block buffer_mem pm data (locked s) d1 Hi1) as (d2 & E2 & [Hi2 Hd2 Hm2]).
  { apply list.Forall_forall. intros b Hin. apply list_elem_of_fmap in Hin as (i & -> & _). apply (law_byte L). }
  { by rewrite Hlen, Z2Nat.id by lia. }
  rewrite (bind_M _ _ _ _ _ E2), (bind_M (port_at port_num) _ (locked s, d2) pb (locked s, d2)) by (rewrite <- Hp; done).
  assert (forall a, outside a pm (512 * n) -> mem d2 a = mem d a) as Hm2'.
  { intros a Ho. unfold outside in Ho. rewrite Hm2, over_out, Hm1, over_out by (rewrite ?Hlen, ?length_replicate; lia). done. }
  destruct (acknowledge_run (locked s) d2 0xFFFFFFFF Hi2) as (d3 & E3 & [Hi3 Hd3 Hm3]). rewrite (bind_M _ _ _ _ _ E3).
  assert (slot hdr d3) as Hs3.
  { apply (slot_kept hdr d); [done|]. intros a Ha. rewrite Hm3. apply Hm2'. unfold outside. lia. }
  destruct (store_block hdr clb [header_flags 5 0 1 0] (locked s) d3 Hi3) as (d4 & E4 & [Hi4 Hd4 Hm4]).
  { unfold is_byte. repeat constructor; vm_compute; congruence. }
  { intros i Hin. cbn in Hin. by rewrite (slot_at _ _ Hs3) by lia. }
  rewrite (bind_M _ _ _ _ _ E4).
  rewrite (bind_M (lift (ahci_fill_prdt v2p empty_prdt buffer_mem (512 * n))) _ (locked s, d4)
    (PrdtEntry pm (512 * n - 1) 1 :: replicate 7 no_entry, 1) (locked s, d4)).
  2: { unfold lift. rewrite one_region by lia. rewrite <- (Z.add_0_r buffer_mem), Hc by lia.
       by rewrite Z.add_0_r, (u32_small pm) by lia. }
  assert (forall a, mem d4 a = over clb [header_flags 5 0 1 0] (mem d2) a) as Hm4'.
  { intros a. rewrite Hm4. unfold over. destruct (_ && _); [done|apply Hm3]. }
  destruct (issue_run (locked s) d4 hdr true l n pm (512 * n)) as (d5 & d6 & d7 & E5 & E6 & E7 & Hi7 & Hs7 & Hd7 & Hm7); try done; try lia.
  { apply (slot_kept hdr d3); [done|]. intros a Ha. rewrite Hm4', over_out by (cbn; lia). by rewrite Hm3. }
  { rewrite Hm4'. by apply over_in with (i := 0%nat); [lia|]. }
  cbn [command_table] in E6. rewrite (bind_M _ _ _ _ _ E5), (bind_M _ _ _ _ _ E6), (bind_M _ _ _ _ _ E7).
  exists d7. split; [unfold mutex_release, update; cbn [fst snd]; by rewrite unlock|]. split; [done|]. split; [done|]. split.
  - intros a. rewrite Hd7. cbn [andb]. destruct (Z.leb_spec (512 * l) a), (Z.ltb_spec a (512 * l + 512 * n)); cbn [andb];
      try (by rewrite Hd4, Hd3, Hd2, Hd1).
    rewrite Hm4', over_out, Hm2 by (cbn; lia).
    rewrite (over_in _ _ _ _ (Z.to_nat (a - 512 * l)) (mem d1 (v2p (buffer + (a - 512 * l))))); [|lia|].
    + rewrite Hm1, over_out; [done|]. rewrite length_replicate. pose proof (Hb (a - 512 * l) ltac:(lia)) as Ho. unfold outside in Ho. lia.
    + unfold data. rewrite list_lookup_fmap, lookup_seqZ_lt by lia. cbn. do 4 f_equal. lia.
  - intros a Ho1 Ho2. rewrite Hm7 by done. cbn [negb andb]. rewrite Hm4', over_out by (cbn; unfold outside in Ho1; lia). by apply Hm2'.
Qed.

(** What [ahci_write_sectors] stores is what [ahci_read] returns.  Writing [n] sectors
    (as many as fit in one region) at sector [l] puts the bytes of the buffer on the disk
    and keeps all other bytes of it; any range within these sectors that is read later
    has the bytes that the buffer had. *)
Theorem ahci_sectors_roundtrip (s : ahci)
    (port_num hdr l n data buffer_mem pm : Z) (d : D)
    (buf location length real_buf read_mem read_pm : Z)
    (Hhere : port_here s port_num hdr) (Hidle : idle d) (Hslot : slot hdr d)
    (Hl : 0 <= l < 2 ^ 32) (Hn : 0 < n) (Hns : 512 * n <= region_step)
    (Hframes : contiguous buffer_mem pm (512 * n)) (Hpm : 0 <= pm) (Hpe : pm + 512 * n <= 2 ^ 32)
    (Hlist : pm + 512 * n <= clb \/ clb + 1536 <= pm)
    (Hdata : forall i, 0 <= i < 512 * n -> outside (v2p (data + i)) pm (512 * n))
    (Hblock : transfer_block read_mem read_pm)
    (Hfrom : 512 * l <= location) (Hlen : 0 < length) (Hto : location + length <= 512 * l + 512 * n)
    (Hrb : 0 <= real_buf) (Hre : real_buf + length + 2048 <= 2 ^ 32) (Hrap : apart real_buf (length + 2048) read_pm)
    (Hbuf : buf <> 0) (Hbap : apart buf length read_pm) :
  exists d1 d2, ahci_write_sectors v2p polls port_num l n data buffer_mem (s, d) = Done (tt, (s, d1)) /\
    (forall a, outside a (512 * l) (512 * n) -> disk d1 a = disk d a) /\
    ahci_read v2p polls port_num buf location length real_buf read_mem 0 (s, d1) = Done (tt, (s, d2)) /\
    (forall a, disk d2 a = disk d1 a) /\
    (forall i, 0 <= i < length -> mem d2 (v2p (buf + i)) = mem d (v2p (data + (location - 512 * l + i)))).
Proof.
  destruct (ahci_write_sectors_run s port_num hdr l n data buffer_mem pm d) as (d1 & E1 & Hi1 & Hs1 & Hd1 & _); try done.
  assert (location + length <= 2 ^ 48) as Hend by (unfold region_step, MB in *; lia).
  destruct (ahci_read_run s port_num hdr buf location length real_buf read_mem 0 read_pm d1) as (d2 & E2 & _ & _ & Hd2 & Hin & _); try done; try lia.
  exists d1, d2. split; [done|]. split; [|split; [done|split; [done|]]].
  - intros a Ha. rewrite Hd1. unfold outside in Ha.
    destruct (Z.leb_spec (512 * l) a), (Z.ltb_spec a (512 * l + 512 * n)); done || lia.
  - intros i Hi. rewrite Hin, Hd1 by done.
    destruct (Z.leb_spec (512 * l) (location + i)), (Z.ltb_spec (location + i) (512 * l + 512 * n)); try lia. cbn [andb].
    do 3 f_equal. lia.
Qed.

End Disk.

(** ** A controller that keeps the laws *)

Record sim_hba := SimHba { sim_mem : Z -> Z; sim_disk : Z -> Z; sim_busy : nat }.

Definition sim_abar : Z := 0xFEBF0000.
Definition sim_pb : Z := AHCI_PORT sim_abar 0.
Definition sim_clb : Z := 0x10000.

#[export] Instance sim_hba_mem : PhysMem sim_hba := {
  mem_read a d := sim_mem d a mod 256;
  mem_write a b d := SimHba (fun a' => if a' =? a then b else sim_mem d a') (sim_disk d) (sim_busy d)
}.

(** The command in the first slot, carried out at once; it still shows as issued for two
    polls. *)
Definition sim_run (m : Z -> Z) (d : sim_hba) : sim_hba :=
  let t := word32 m (sim_clb + 8) in
  let l := m (t + 4) + 2 ^ 8 * m (t + 5) + 2 ^ 16 * m (t + 6) + 2 ^ 24 * m (t + 8) + 2 ^ 32 * m (t + 9) + 2 ^ 40 * m (t + 10) in
  let n := m (t + 12) + 2 ^ 8 * m (t + 13) in
  let addr := word32 m (t + 128) in
  if m sim_clb =? 0x45
  then SimHba (sim_mem d)
    (fun a => if (512 * l <=? a) && (a <? 512 * l + 512 * n) then m (addr + (a - 512 * l)) else sim_disk d a) 2
  else SimHba (fun a => if (addr <=? a) && (a <? addr + 512 * n) then sim_disk d (512 * l + (a - addr)) mod 256 else sim_mem d a)
    (sim_disk d) 2.

Definition sim_execute (d : sim_hba) : sim_hba := sim_run (mem d) d.

#[export] Instance sim_hba_mmio : Mmio sim_hba := {
  mmio_read a d :=
    if a =? sim_pb + port_offset task_file_data then (0x50, d)
    else if a =? sim_pb + port_offset command_issue then
      match sim_busy d with O => (0, d) | S n => (1, SimHba (sim_mem d) (sim_disk d) n) end
    else (0, d);
  mmio_write a v d := if (a =? sim_pb + port_offset command_issue) && (v =? 1) then sim_execute d else d
}.

Definition sim_idle (d : sim_hba) : Prop := sim_busy d = 0%nat.
Definition sim_bytes (d : sim_hba) (a : Z) : Z := sim_disk d a mod 256.

Lemma sim_completes (m dk : Z -> Z) : completes sim_pb 2 (SimHba m dk 2) (SimHba m dk 0).
Proof. do 2 (eapply completes_later; [reflexivity|reflexivity|reflexivity|reflexivity|]). by eapply completes_now. Qed.

Lemma sim_ahci_laws : ahci_laws sim_pb sim_clb sim_idle sim_bytes.
Proof.
  constructor.
  - intros a d. unfold mem, is_byte. cbn. apply Z.mod_pos_bound. lia.
  - intros a b d Hb a'. unfold mem, is_byte in *. cbn. destruct (Z.eqb_spec a' a); [by rewrite Z.mod_small|done].
  - intros a b d Hd. done.
  - intros d Hd. cbn. done.
  - intros v d Hd. cbn. done.
  - intros d l n addr size Hd [Hf _ _ Hlb Hcnt [Haddr _]] Hn Hs. cbv zeta in *.
    exists 2%nat. eexists. split; [done|]. split.
    { change (mmio_write _ _ d) with (sim_execute d). unfold sim_execute, sim_run. cbv zeta. rewrite Hf. change (5 =? 0x45) with false. cbn iota. rewrite Hlb, Hcnt, Haddr. apply sim_completes. }
    split; [done|]. split; [done|]. intros a. unfold mem, sim_bytes. cbn [mem_read sim_hba_mem sim_mem sim_disk].
    destruct (_ && _); [by rewrite Zmod_mod|done].
  - intros d l n addr size Hd [Hf _ _ Hlb Hcnt [Haddr _]] Hn Hs. cbv zeta in *.
    exists 2%nat. eexists. split; [done|]. split.
    { change (mmio_write _ _ d) with (sim_execute d). unfold sim_execute, sim_run. cbv zeta. rewrite Hf. change (0x45 =? 0x45) with true. cbn iota. rewrite Hlb, Hcnt, Haddr. apply sim_completes. }
    split; [done|]. split; [done|]. intros a. unfold mem, sim_bytes. cbn [mem_read sim_hba_mem sim_mem sim_disk].
    destruct (_ && _); [by rewrite Zmod_mod|done].
Qed.

(** One hard disk at port 0; the kernel's addresses are the physical ones. *)
Definition sim_driver : ahci :=
  Ahci false true sim_abar [PortDesc sim_clb sim_clb (sim_clb + 1024) (sim_clb + 1024) 100 false] [].
Definition sim_boot : sim_hba :=
  SimHba (fun a => if a =? sim_clb + 9 then 5 else if a =? sim_clb + 10 then 1 else if a <? 0x20000 then 0 else 7)
    (fun a => a / 512 + 1) 0.

Lemma sim_port_here : port_here sim_pb sim_driver 0 sim_clb.
Proof. constructor; [reflexivity| |done|done]. eexists. split; [reflexivity|]. done. Qed.

Lemma sim_slot : slot sim_clb id sim_clb sim_boot.
Proof. constructor; [done|reflexivity]. Qed.

Lemma id_apart v n pm :
  outside v (sim_clb - n) (1536 + n) -> outside v (pm - n) (33280 + n) -> apart sim_clb id v n pm.
Proof.
  unfold outside. intros H1 H2. constructor; unfold injective_on, outside, id; intros; lia.
Qed.


Lemma ahci_sectors_roundtrip_witness :
  exists d1 d2, ahci_write_sectors id 1 0 3 2 0x300000 0x40000 (sim_driver, sim_boot) = Done (tt, (sim_driver, d1)) /\
    ahci_read id 1 0 0x100000 2000 4 0x200000 0x20000 0 (sim_driver, d1) = Done (tt, (sim_driver, d2)) /\
    mem d2 0x100000 = 7.
Proof.
  destruct (ahci_sectors_roundtrip sim_pb sim_clb sim_idle sim_bytes sim_ahci_laws id 1 sim_driver
    0 sim_clb 3 2 0x300000 0x40000 0x40000 sim_boot 0x100000 2000 4 0x200000 0x20000 0x20000
    sim_port_here eq_refl sim_slot ltac:(lia) ltac:(lia) ltac:(unfold region_step, MB; lia) ltac:(done) ltac:(lia) ltac:(lia)
    ltac:(right; unfold sim_clb; lia) ltac:(unfold outside, id; lia)
    ltac:(constructor; [done|lia|right; unfold sim_clb; lia]) ltac:(lia) ltac:(lia) ltac:(lia) ltac:(lia) ltac:(lia)
    ltac:(apply id_apart; unfold outside, sim_clb; lia) ltac:(done) ltac:(apply id_apart; unfold outside, sim_clb; lia))
    as (d1 & d2 & E1 & _ & E2 & _ & Hin).
  exists d1, d2. split; [exact E1|]. split; [exact E2|]. exact (Hin 0 ltac:(lia)).
Defined.

