(* ===== verification/Clock.v ===== *)
(** * Dates and the clock (kernel/src/lib/time_conversion.c, drv/cmos.c)

    Conversion between seconds since 1970 and calendar dates, and the reading of the
    clock chip. *)
From Stdlib Require Import ZArith Lia.
From stdpp Require Import base list numbers.
From S2P Require Import Prelude Ports.

#[local] Open Scope Z_scope.

(** ** Dates (time_conversion.c) *)

Record FSM_TIME := FsmTime { year : Z; month : Z; day : Z; hour : Z; minute : Z; second : Z }.

Definition seconds_per_day : Z := 24 * 60 * 60.

Definition is_leap (year : Z) : bool :=
  (year mod 4 =? 0) && (negb (year mod 100 =? 0) || (year mod 400 =? 0)).
Definition days_in_year (year : Z) : Z := if is_leap year then 366 else 365.

Definition month_days (year : Z) : list Z :=
  [31; if is_leap year then 29 else 28; 31; 30; 31; 30; 31; 31; 30; 31; 30; 31].

(** [for (year = 1970; year < time.year; year++)]; [n] years are left. *)
Fixpoint add_years (n : nat) (year unix_time : Z) : Z :=
  match n with
  | O => unix_time
  | S n' => add_years n' (year + 1) (u32 (unix_time + days_in_year year * seconds_per_day))
  end.

(** The months before [time.month], which counts from 1. *)
Fixpoint add_months (n : nat) (month : Z) (md : list Z) (unix_time : Z) : outcome Z :=
  match n with
  | O => Done unix_time
  | S n' =>
      d ← array_get md month;
      add_months n' (month + 1) md (u32 (unix_time + d * seconds_per_day))
  end.

Definition fsm_DateConvertToUnix (time : FSM_TIME) : outcome Z :=
  let unix_time := add_years (Z.to_nat (year time - 1970)) 1970 0 in
  unix_time ← add_months (Z.to_nat (month time - 1)) 0 (month_days (year time)) unix_time;
  let unix_time := u32 (unix_time + (day time - 1) * seconds_per_day) in
  Done (u32 (unix_time + (hour time * 3600 + minute time * 60 + second time))).

(** The year that day number [days] of [years] lies in, and the number of the day in it. *)
Fixpoint find_year (fuel : nat) (days years : Z) : outcome (Z * Z) :=
  match fuel with
  | O => Hang
  | S fuel' =>
      if days <? days_in_year years then Done (years, days)
      else find_year fuel' (days - days_in_year years) (years + 1)
  end.

Fixpoint find_month (n : nat) (month days : Z) (md : list Z) : outcome (Z * Z) :=
  match n with
  | O => Done (month, days)
  | S n' =>
      d ← array_get md month;
      if days <? d then Done (month, days) else find_month n' (month + 1) (days - d) md
  end.

(** Month and day count from 0. *)
Definition fsm_convertUnix (unix_time : Z) : outcome FSM_TIME :=
  let days := unix_time / seconds_per_day in
  '(years, days) ← find_year (S (Z.to_nat (days / 365))) days 1970;
  '(month, day) ← find_month 12 0 days (month_days years);
  let seconds := unix_time mod seconds_per_day in
  Done (FsmTime (u16 years) (u8 month) (u8 day) (u8 (seconds / 3600)) (u8 ((seconds mod 3600) / 60)) (u8 (seconds mod 60))).

(** ** The clock chip (cmos.c) *)

Definition cmos_address : Z := 0x70.
Definition cmos_data : Z := 0x71.
Definition CURRENT_CENTURY : Z := 20.

(** The variables of the driver; the second reading is in [registers]. *)
Record registers := Registers {
  r_second : Z; r_minute : Z; r_hour : Z; r_day : Z; r_month : Z; r_year : Z; r_century : Z
}.

Record sayori_time_t := SayoriTime {
  seconds : Z; minutes : Z; hours : Z; t_day : Z; t_month : Z; t_year : Z; century : Z
}.

Section Cmos.
Context `{PortIO D}.
Variable polls : nat.

Definition get_RTC_register (reg : Z) : IO D Z := _ ← outb cmos_address reg; inb cmos_data.

Definition get_update_in_progress_flag : IO D Z :=
  v ← get_RTC_register 0x0A; mret (Z.land v 0x80).

Fixpoint rtc_wait_update (n : nat) : IO D unit :=
  match n with
  | O => hang
  | S n' => f ← get_update_in_progress_flag; if negb (f =? 0) then rtc_wait_update n' else mret tt
  end.

(** The century is read only when ACPI named its register. *)
Definition read_registers (century_register old_century : Z) : IO D registers :=
  s ← get_RTC_register 0x00;
  mi ← get_RTC_register 0x02;
  h ← get_RTC_register 0x04;
  d ← get_RTC_register 0x07;
  mo ← get_RTC_register 0x08;
  y ← get_RTC_register 0x09;
  c ← (if negb (century_register =? 0) then get_RTC_register century_register else mret old_century);
  mret (Registers s mi h d mo y c).

(** [last_year] is a byte, as all that is read. *)
Definition same_registers (a b : registers) : bool :=
  (r_second a =? r_second b) && (r_minute a =? r_minute b) && (r_hour a =? r_hour b) && (r_day a =? r_day b) &&
  (r_month a =? r_month b) && (r_year a =? r_year b) && (r_century a =? r_century b).

(** Until two readings agree. *)
Fixpoint read_stable (n : nat) (century_register : Z) (last : registers) : IO D registers :=
  match n with
  | O => hang
  | S n' =>
      _ ← rtc_wait_update polls;
      r ← read_registers century_register (r_century last);
      if same_registers last r then mret r else read_stable n' century_register r
  end.

Definition from_bcd (x : Z) : Z := u8 (Z.land x 0x0F + Z.shiftr x 4 * 10).

Definition hour_from_bcd (x : Z) : Z :=
  u8 (Z.lor (Z.land x 0x0F + Z.shiftr (Z.land x 0x70) 4 * 10) (Z.land x 0x80)).

(** What the registers mean, by the mode bits of register B. *)
Definition convert_time (century_register registerB : Z) (r : registers) : registers :=
  let r :=
    if Z.land registerB 0x04 =? 0 then
      Registers (from_bcd (r_second r)) (from_bcd (r_minute r)) (hour_from_bcd (r_hour r)) (from_bcd (r_day r))
        (from_bcd (r_month r)) (u16 (Z.land (r_year r) 0x0F + Z.shiftr (r_year r) 4 * 10))
        (if negb (century_register =? 0) then from_bcd (r_century r) else r_century r)
    else r in
  let h :=
    if (Z.land registerB 0x02 =? 0) && negb (Z.land (r_hour r) 0x80 =? 0)
    then (Z.land (r_hour r) 0x7F + 12) mod 24 else r_hour r in
  let c := if negb (century_register =? 0) then r_century r else CURRENT_CENTURY in
  Registers (r_second r) (r_minute r) h (r_day r) (r_month r) (u16 (r_year r + c * 100)) (r_century r).

Definition read_rtc (century_register old_century : Z) : IO D registers :=
  _ ← rtc_wait_update polls;
  r ← read_registers century_register old_century;
  r ← read_stable polls century_register r;
  registerB ← get_RTC_register 0x0B;
  mret (convert_time century_register registerB r).

Definition get_time (century_register old_century : Z) : IO D sayori_time_t :=
  r ← read_rtc century_register old_century;
  mret (SayoriTime (r_second r) (r_minute r) (r_hour r) (r_day r) (r_month r) (r_year r) (r_century r)).

End Cmos.

(** ** Dates and days *)

(** The days of the [n] years from [y] on. *)
Fixpoint days_of_years (n : nat) (y : Z) : Z :=
  match n with
  | O => 0
  | S n' => days_in_year y + days_of_years n' (y + 1)
  end.

Definition sum (l : list Z) : Z := fold_right Z.add 0 l.

Lemma days_in_year_range y : 365 <= days_in_year y <= 366.
Proof. unfold days_in_year. destruct (is_leap y); lia. Qed.

Lemma u32_add_l x y : u32 (u32 x + y) = u32 (x + y).
Proof. unfold u32. apply Zplus_mod_idemp_l. Qed.

Lemma add_years_sum n y acc : u32 (add_years n y acc) = u32 (acc + seconds_per_day * days_of_years n y).
Proof.
  revert y acc. induction n as [|n IH]; intros y acc; cbn [add_years days_of_years].
  - f_equal. lia.
  - rewrite IH, u32_add_l. f_equal. lia.
Qed.

Lemma add_months_sum n md pre rest acc :
  (n <= length rest)%nat -> exists r, add_months n (Z.of_nat (length pre)) (pre ++ rest) acc = Done r /\
    (md = pre ++ rest -> u32 r = u32 (acc + seconds_per_day * sum (take n rest))).
Proof.
  revert pre rest acc. induction n as [|n IH]; intros pre rest acc Hn; cbn [add_months].
  - exists acc. split; [done|]. intros _. f_equal. change (sum (take 0 rest)) with 0. lia.
  - destruct rest as [|x rest]; [cbn in Hn; lia|].
    destruct (array_get_in_range (pre ++ x :: rest) (Z.of_nat (length pre))) as (d & Hd); [rewrite length_app; cbn; lia|].
    rewrite Hd. apply array_get_Done in Hd as [_ Hd]. rewrite Nat2Z.id, lookup_app_r, Nat.sub_diag in Hd by lia.
    injection Hd as <-. cbn [mbind outcome_bind].
    destruct (IH (pre ++ [x]) rest (u32 (acc + x * seconds_per_day))) as (r & E & Hr); [cbn in Hn; lia|].
    rewrite <- app_assoc, length_app in E. cbn [app length] in E.
    rewrite Nat2Z.inj_add in E. exists r. split; [exact E|]. intros ->. rewrite Hr by (by rewrite <- app_assoc).
    rewrite u32_add_l. f_equal. cbn [take sum fold_right]. fold (sum (take n rest)). lia.
Qed.

(** Days of a date before it in its year and month; month and day count from 0. *)
Definition day_number (y mo d : Z) : Z :=
  days_of_years (Z.to_nat (y - 1970)) 1970 + sum (take (Z.to_nat mo) (month_days y)) + d.

Lemma date_to_unix t :
  1 <= month t <= 13 ->
  fsm_DateConvertToUnix t = Done (u32 (seconds_per_day * day_number (year t) (month t - 1) (day t - 1)
    + (hour t * 3600 + minute t * 60 + second t))).
Proof.
  intros Hm. unfold fsm_DateConvertToUnix, day_number.
  destruct (add_months_sum (Z.to_nat (month t - 1)) (month_days (year t)) [] (month_days (year t))
    (add_years (Z.to_nat (year t - 1970)) 1970 0)) as (r & E & Hr); [cbn; lia|].
  cbn [app length] in E. change (Z.of_nat 0) with 0 in E. rewrite E. cbn [mbind outcome_bind]. specialize (Hr eq_refl).
  f_equal. rewrite u32_add_l, <- Z.add_assoc, <- u32_add_l, Hr, u32_add_l, <- Z.add_assoc, <- u32_add_l, add_years_sum, u32_add_l.
  f_equal. lia.
Qed.

Lemma find_year_spec fuel days y :
  0 <= days < 365 * Z.of_nat fuel ->
  exists n rem, find_year fuel days y = Done (y + Z.of_nat n, rem) /\ days = days_of_years n y + rem /\
    0 <= rem < days_in_year (y + Z.of_nat n) /\ (n < fuel)%nat.
Proof.
  revert days y. induction fuel as [|fuel IH]; intros days y Hd; [lia|]. cbn [find_year].
  pose proof (days_in_year_range y) as Hy. destruct (Z.ltb_spec days (days_in_year y)).
  - exists 0%nat, days. cbn. rewrite Z.add_0_r. split_and!; done || lia.
  - destruct (IH (days - days_in_year y) (y + 1)) as (n & rem & E & Hdays & Hrem & Hn); [lia|].
    exists (S n), rem. replace (y + Z.of_nat (S n)) with (y + 1 + Z.of_nat n) by lia.
    split; [done|]. split; [cbn [days_of_years]; lia|]. split; [done|lia].
Qed.

Lemma find_month_spec pre rest days :
  Forall (fun d => 0 < d) rest -> 0 <= days < sum rest ->
  exists mo rem x, find_month (length rest) (Z.of_nat (length pre)) days (pre ++ rest) = Done (Z.of_nat (length pre + mo), rem) /\
    rest !! mo = Some x /\ days = sum (take mo rest) + rem /\ 0 <= rem < x.
Proof.
  revert pre days. induction rest as [|x rest IH]; intros pre days Hpos Hd; [cbn in Hd; lia|]. cbn [find_month length].
  destruct (array_get_in_range (pre ++ x :: rest) (Z.of_nat (length pre))) as (d & Hg); [rewrite length_app; cbn; lia|].
  rewrite Hg. apply array_get_Done in Hg as [_ Hg]. rewrite Nat2Z.id, lookup_app_r, Nat.sub_diag in Hg by lia.
  injection Hg as <-. cbn [mbind outcome_bind]. apply list.Forall_cons in Hpos as [Hx Hpos]. cbn [sum fold_right] in Hd. fold (sum rest) in Hd.
  destruct (Z.ltb_spec days x).
  - exists 0%nat, days, x. rewrite Nat.add_0_r. split_and!; done || (cbn; lia).
  - destruct (IH (pre ++ [x]) (days - x) Hpos ltac:(lia)) as (mo & rem & z & E & Hz & Hdays & Hrem).
    rewrite <- app_assoc, length_app in E. cbn [app length] in E.
    exists (S mo), rem, z. split; [replace (Z.of_nat (length pre) + 1) with (Z.of_nat (length pre + 1)) by lia; rewrite E; do 2 f_equal; lia|].
    split; [done|]. split; [cbn; fold (sum (take mo rest)); lia|done].
Qed.

Lemma month_days_sum y : sum (month_days y) = days_in_year y.
Proof. unfold month_days, days_in_year. by destruct (is_leap y). Qed.

Lemma convert_unix t :
  0 <= t < 2 ^ 32 ->
  exists tm x, fsm_convertUnix t = Done tm /\ 1970 <= year tm < 2107 /\ 0 <= month tm < 12 /\
    month_days (year tm) !! Z.to_nat (month tm) = Some x /\ 0 <= day tm < x /\
    0 <= hour tm < 24 /\ 0 <= minute tm < 60 /\ 0 <= second tm < 60 /\
    t = seconds_per_day * day_number (year tm) (month tm) (day tm) + (hour tm * 3600 + minute tm * 60 + second tm).
Proof.
  intros Ht. unfold fsm_convertUnix. unfold seconds_per_day. change (24 * 60 * 60) with 86400.
  pose proof (Z.div_mod t 86400 ltac:(lia)) as Hdm. pose proof (Z.mod_pos_bound t 86400 ltac:(lia)) as Hsr.
  assert (0 <= t / 86400 < 49711) as Hdays by (split; [apply Z.div_pos; lia|apply Z.div_lt_upper_bound; lia]).
  set (days := t / 86400) in *. set (s := t mod 86400) in *.
  pose proof (Z.div_mod days 365 ltac:(lia)) as Hdm2. pose proof (Z.mod_pos_bound days 365 ltac:(lia)).
  assert (0 <= days / 365 < 137) as Hyears by (split; [apply Z.div_pos; lia|apply Z.div_lt_upper_bound; lia]).
  destruct (find_year_spec (S (Z.to_nat (days / 365))) days 1970) as (n & rem & E & Hrem & Hr & Hn); [lia|].
  rewrite E. cbn [mbind outcome_bind]. set (y := 1970 + Z.of_nat n) in *.
  destruct (find_month_spec [] (month_days y) rem) as (mo & d & x & E2 & Hx & Hd & Hdr).
  { unfold month_days. destruct (is_leap y); repeat constructor; lia. }
  { by rewrite month_days_sum. }
  cbn [app length plus] in E2. change (length (month_days y)) with 12%nat in E2. change (Z.of_nat 0) with 0 in E2.
  rewrite E2. cbn [mbind outcome_bind].
  pose proof (lookup_lt_Some _ _ _ Hx) as Hmo. change (length (month_days y)) with 12%nat in Hmo.
  assert (x <= 31) as Hx31.
  { assert (Forall (fun z => z <= 31) (month_days y)) as Hf by (unfold month_days; destruct (is_leap y); repeat constructor; lia).
    by apply (Forall_lookup_1 _ _ _ _ Hf Hx). }
  pose proof (Z.div_mod s 3600 ltac:(lia)) as Hh. pose proof (Z.mod_pos_bound s 3600 ltac:(lia)) as Hhr.
  assert (0 <= s / 3600 < 24) as Hhour by (split; [apply Z.div_pos; lia|apply Z.div_lt_upper_bound; lia]).
  pose proof (Z.div_mod (s mod 3600) 60 ltac:(lia)) as Hmi. pose proof (Z.mod_pos_bound (s mod 3600) 60 ltac:(lia)) as Hmir.
  assert (0 <= s mod 3600 / 60 < 60) as Hmin by (split; [apply Z.div_pos; lia|apply Z.div_lt_upper_bound; lia]).
  assert (s mod 60 = (s mod 3600) mod 60) as Hsec.
  { apply Z.mod_unique with (s / 60 - 60 * (s / 3600)).
    all: pose proof (Z.div_mod s 60 ltac:(lia)); pose proof (Z.mod_pos_bound s 60 ltac:(lia)); lia. }
  eexists _, x. split; [done|]. cbn [year month day hour minute second].
  rewrite (u16_small y) by (unfold y; lia). rewrite !u8_small by lia. rewrite Nat2Z.id.
  split; [unfold y; lia|]. split; [lia|]. split; [done|]. split; [lia|]. split; [lia|]. split; [lia|]. split; [lia|].
  unfold day_number. rewrite Nat2Z.id. replace (Z.to_nat (y - 1970)) with n by (unfold y; lia). lia.
Qed.

(** Every count of seconds that fits in 32 bits becomes a date of the calendar (1970
    to 2106, a month and a day that exist, an hour, minute and second in range), and
    [fsm_DateConvertToUnix] gives the count back for that date.  The two count months and
    days differently: from 0 and from 1. *)
Theorem unix_date_roundtrip (t : Z) (Ht : 0 <= t < 2 ^ 32) :
  exists tm x, fsm_convertUnix t = Done tm /\ 1970 <= year tm < 2107 /\
    0 <= month tm < 12 /\ month_days (year tm) !! Z.to_nat (month tm) = Some x /\ 0 <= day tm < x /\
    0 <= hour tm < 24 /\ 0 <= minute tm < 60 /\ 0 <= second tm < 60 /\
    fsm_DateConvertToUnix (FsmTime (year tm) (month tm + 1) (day tm + 1) (hour tm) (minute tm) (second tm)) = Done t.
Proof.
  destruct (convert_unix t Ht) as (tm & x & E & Hy & Hm & Hx & Hd & Hh & Hmi & Hs & Et).
  exists tm, x. do 8 (split; [done|]). rewrite date_to_unix by (cbn; lia). cbn [year month day hour minute second].
  rewrite !Z.add_simpl_r, <- Et. by rewrite u32_small.
Qed.

Lemma unix_date_roundtrip_witness :
  exists tm, fsm_convertUnix 1709210096 = Done tm /\
    fsm_DateConvertToUnix (FsmTime (year tm) (month tm + 1) (day tm + 1) (hour tm) (minute tm) (second tm)) = Done 1709210096.
Proof.
  destruct (unix_date_roundtrip 1709210096 ltac:(lia)) as (tm & x & E & _ & _ & _ & _ & _ & _ & _ & Er).
  exists tm. split; [exact E|exact Er].
Defined.

Example leap_day : fsm_convertUnix 1709210096 = Done (FsmTime 2024 1 28 12 34 56).
Proof. reflexivity. Qed.

(** Leap years up to [y]. *)
Definition leaps (y : Z) : Z := y / 4 - y / 100 + y / 400.

Lemma quotient_step y k : 0 < k -> y / k = (y - 1) / k + (if y mod k =? 0 then 1 else 0).
Proof.
  intros Hk. pose proof (Z.div_mod y k ltac:(lia)) as Hd. pose proof (Z.mod_pos_bound y k Hk) as Hm.
  destruct (Z.eqb_spec (y mod k) 0) as [E|E].
  - assert ((y - 1) / k = y / k - 1) as ->; [|lia]. symmetry. apply Z.div_unique with (k - 1); lia.
  - assert ((y - 1) / k = y / k) as ->; [|lia]. symmetry. apply Z.div_unique with (y mod k - 1); lia.
Qed.

Lemma leaps_step y : leaps y = leaps (y - 1) + (if is_leap y then 1 else 0).
Proof.
  unfold leaps, is_leap. rewrite (quotient_step y 4), (quotient_step y 100), (quotient_step y 400) by lia.
  assert (y mod 400 = 0 -> y mod 100 = 0) as H1.
  { intros E. apply Z.mod_divide; [lia|]. apply Z.mod_divide in E as [q ->]; [|lia]. exists (4 * q). lia. }
  assert (y mod 100 = 0 -> y mod 4 = 0) as H2.
  { intros E. apply Z.mod_divide; [lia|]. apply Z.mod_divide in E as [q ->]; [|lia]. exists (25 * q). lia. }
  destruct (Z.eqb_spec (y mod 4) 0), (Z.eqb_spec (y mod 100) 0), (Z.eqb_spec (y mod 400) 0); cbn; lia.
Qed.

Lemma days_of_years_gregorian n y :
  days_of_years n y = 365 * Z.of_nat n + leaps (y + Z.of_nat n - 1) - leaps (y - 1).
Proof.
  revert y. induction n as [|n IH]; intros y; cbn [days_of_years].
  - replace (y + Z.of_nat 0 - 1) with (y - 1) by lia. lia.
  - rewrite IH. replace (y + 1 + Z.of_nat n - 1) with (y + Z.of_nat (S n) - 1) by lia.
    replace (y + 1 - 1) with y by lia. rewrite (leaps_step y) at 1. unfold days_in_year. destruct (is_leap y); lia.
Qed.

(** C23: [fsm_DateConvertToUnix] agrees with the formula of the Gregorian calendar, modulo
    2^32: 365 days a year, a day for every fourth year that is not one of three of four
    centuries, the months before, the days before. *)
Theorem unix_time_is_gregorian (t : FSM_TIME) (Hy : 1970 <= year t) (Hm : 1 <= month t <= 12) :
  fsm_DateConvertToUnix t = Done (u32 (86400 *
      (365 * (year t - 1970) + (leaps (year t - 1) - leaps 1969) + sum (take (Z.to_nat (month t - 1)) (month_days (year t)))
       + (day t - 1))
    + (hour t * 3600 + minute t * 60 + second t))).
Proof.
  rewrite date_to_unix by lia. unfold day_number. rewrite days_of_years_gregorian, Z2Nat.id by lia.
  replace (1970 + (year t - 1970) - 1) with (year t - 1) by lia. change (1970 - 1) with 1969. do 2 f_equal. unfold seconds_per_day. lia.
Qed.

Lemma unix_time_is_gregorian_witness :
  fsm_DateConvertToUnix (FsmTime 2000 3 1 0 0 0) = Done 951868800.
Proof. rewrite (unix_time_is_gregorian (FsmTime 2000 3 1 0 0 0)); [reflexivity|cbn; lia|cbn; lia]. Defined.

(** ** The clock chip *)

Definition bcd (x : Z) : Z := 16 * (x / 10) + x mod 10.

Lemma below_100 (P : Z -> bool) x : forallb P (seqZ 0 100) = true -> 0 <= x < 100 -> P x = true.
Proof. intros HP Hx. rewrite forallb_forall in HP. apply HP. apply list_elem_of_In, elem_of_seqZ. lia. Qed.

Lemma from_bcd_bcd x : 0 <= x < 100 -> from_bcd (bcd x) = x.
Proof. intros Hx. apply Z.eqb_eq. by apply (below_100 (fun x => from_bcd (bcd x) =? x)). Qed.

(** Hours of a 12-hour clock: 12, 1 to 11, with the top bit after noon. *)
Definition hour12 (h : Z) : Z := (if h mod 12 =? 0 then 12 else h mod 12).
Definition pm (h : Z) : Z := if h <? 12 then 0 else 0x80.

(** The time of the day that the driver gets from a clock with 24 hours, or 12. *)
Definition shown_hour (h24 : bool) (h : Z) : Z :=
  if h24 then h else if h =? 0 then 12 else if h =? 12 then 0 else h.

(** The registers of the clock are understood in its four modes (BCD or binary, 24 or
    12 hours) for every date of this century, but on a 12-hour clock midnight and noon are
    exchanged. *)
Theorem clock_modes (s mi h d mo y : Z) (binary h24 : bool)
    (Hs : 0 <= s < 60) (Hmi : 0 <= mi < 60) (Hh : 0 <= h < 24) (Hd : 0 <= d < 32) (Hmo : 0 <= mo < 13) (Hy : 0 <= y < 100) :
  let code := fun x => if binary then x else bcd x in
  let hour := if h24 then code h else Z.lor (code (hour12 h)) (pm h) in
  let registerB := (if binary then 4 else 0) + (if h24 then 2 else 0) in
  convert_time 0 registerB (Registers (code s) (code mi) hour (code d) (code mo) (code y) 0) =
    Registers s mi (shown_hour h24 h) d mo (2000 + y) 0.
Proof.
  cbv zeta. unfold convert_time.
  assert ((Z.land ((if binary then 4 else 0) + (if h24 then 2 else 0)) 0x04 =? 0) = negb binary) as -> by by destruct binary, h24.
  assert ((Z.land ((if binary then 4 else 0) + (if h24 then 2 else 0)) 0x02 =? 0) = negb h24) as -> by by destruct binary, h24.
  assert (u16 (y + 20 * 100) = 2000 + y) as Ey by (rewrite u16_small; lia).
  assert (h ∈ seqZ 0 24) as Hin by (apply elem_of_seqZ; lia).
  assert (Forall (fun h => forall b,
    let x := hour_from_bcd (if h24 then bcd h else Z.lor (bcd (hour12 h)) (pm h)) in
    let z := if h24 then h else Z.lor (hour12 h) (pm h) in
    let r := if (b : bool) then z else x in
    (if negb h24 && negb (Z.land r 0x80 =? 0) then (Z.land r 0x7F + 12) mod 24 else r) = shown_hour h24 h) (seqZ 0 24)) as Hhours.
  { let l := eval vm_compute in (seqZ 0 24) in change (seqZ 0 24) with l.
    repeat constructor; intros []; destruct h24; reflexivity. }
  rewrite list.Forall_forall in Hhours. specialize (Hhours h Hin binary). cbv zeta in Hhours.
  destruct binary; cbn [negb andb r_second r_minute r_hour r_day r_month r_year r_century] in *; unfold CURRENT_CENTURY.
  - rewrite Hhours. change (negb (0 =? 0)) with false. cbn iota. by rewrite Ey.
  - rewrite Hhours, !from_bcd_bcd by lia. fold (bcd y).
    assert (Z.land (bcd y) 0x0F + Z.shiftr (bcd y) 4 * 10 = y) as Eb.
    { apply Z.eqb_eq. apply (below_100 (fun y => Z.land (bcd y) 0x0F + Z.shiftr (bcd y) 4 * 10 =? y)); done. }
    change (negb (0 =? 0)) with false. cbn iota. by rewrite Eb, (u16_small y), Ey by lia.
Qed.

Lemma clock_modes_witness :
  convert_time 0 0 (Registers 0x59 0x08 0x92 0x31 0x12 0x25 0) = Registers 59 8 0 31 12 2025 0.
Proof. exact (clock_modes 59 8 12 31 12 25 false false ltac:(lia) ltac:(lia) ltac:(lia) ltac:(lia) ltac:(lia) ltac:(lia)). Defined.
