(* ===== verification/Elf.v ===== *)
(** * Programs (kernel/src/sys/elf.c)

    [load_elf] reads the headers of a program through a stream; [spawn_prog] loads its
    segments into the kernel's address space, makes a process and a thread for it, copies
    the address space for the process and takes the segments out of the kernel's own.  It
    brings together the page tables (Paging.v, AddressSpace.v), the streams (Files.v) and
    the scheduler (Sched.v).  The blocks that the heap hands out are arguments. *)
From Stdlib Require Import ZArith Lia.
From stdpp Require Import base list gmap numbers strings.
From S2P Require Import Prelude Pmm Frames Paging AddressSpace Bytes Lists Sched Fs Files.

#[local] Open Scope Z_scope.

(** ** Headers *)

Definition sizeof_Ehdr : Z := 52.
Definition sizeof_Phdr : Z := 32.
Definition sizeof_Shdr : Z := 40.
Definition O_READ : Z := 1.

Definition parse_ehdr (b : list Z) : outcome Elf32_Ehdr :=
  ident ← get_bytes b 0 16;
  type ← load16 b 16; machine ← load16 b 18; version ← load32 b 20; entry ← load32 b 24;
  phoff ← load32 b 28; shoff ← load32 b 32; flags ← load32 b 36; ehsize ← load16 b 40;
  phentsize ← load16 b 42; phnum ← load16 b 44; shentsize ← load16 b 46; shnum ← load16 b 48; shstrndx ← load16 b 50;
  Done (Ehdr ident type machine version entry phoff shoff flags ehsize phentsize phnum shentsize shnum shstrndx).

Definition parse_phdr (b : list Z) (off : Z) : outcome Elf32_Phdr :=
  type ← load32 b off; offset ← load32 b (off + 4); vaddr ← load32 b (off + 8); paddr ← load32 b (off + 12);
  filesz ← load32 b (off + 16); memsz ← load32 b (off + 20); flags ← load32 b (off + 24); align ← load32 b (off + 28);
  Done (Phdr type offset vaddr paddr filesz memsz flags align).

(** [p_header + i] counts by the size of the C structure, whatever [e_phentsize] says. *)
Fixpoint parse_phdrs (n : nat) (b : list Z) (off : Z) : outcome (list Elf32_Phdr) :=
  match n with
  | O => Done []
  | S n' => h ← parse_phdr b off; rest ← parse_phdrs n' b (off + sizeof_Phdr); Done (h :: rest)
  end.

(** A block of [n] zero bytes after a read into it. *)
Definition read_into (n : Z) (data : list Z) : outcome (list Z) :=
  if Z.of_nat (length data) <=? n then Done (data ++ replicate (Z.to_nat n - length data) 0) else Fault.

Section Loader.
Context {F : Type} `{FrameAlloc F} {W : Type}.

(** The structure and its stream; a stream that could not be opened is a null pointer,
    which is followed. *)
Definition load_elf (name : string) (elf p_header section file_elf : Z) (m : manager W)
    : outcome (option (elf_t * FILE) * manager W) :=
  '(file, m) ← fopen name O_READ m;
  f ← of_option file;
  if negb (err f =? 0) then Done (None, m)
  else
    '(_, data, f) ← fread f 1 sizeof_Ehdr m;
    bytes ← read_into sizeof_Ehdr data;
    header ← parse_ehdr bytes;
    '(_, f) ← fseek f (s32 (e_phoff header)) SEEK_SET m;
    '(_, data, f) ← fread f (e_phnum header) (e_phentsize header) m;
    bytes ← read_into (e_phentsize header * e_phnum header) data;
    phdrs ← parse_phdrs (Z.to_nat (e_phnum header)) bytes 0;
    '(_, f) ← fseek f (s32 (e_shoff header)) SEEK_SET m;
    '(_, data, f) ← fread f (e_shnum header) sizeof_Shdr m;
    _ ← read_into (sizeof_Shdr * e_shnum header) data;
    Done (Some (Elf elf header section p_header file_elf phdrs, f), m).

(** [temp] is what the block of 4 bytes from the heap holds before; it is compared also
    when the file is shorter. *)
Definition is_elf_file (temp : list Z) (fp : FILE) (m : manager W) : outcome (bool * FILE) :=
  '(orig, fp) ← ftell fp m;
  '(_, fp) ← fseek fp 0 SEEK_SET m;
  '(_, data, fp) ← fread fp 4 1 m;
  '(_, fp) ← fseek fp orig SEEK_SET m;
  t0 ← array_get (data ++ drop (length data) temp) 0;
  t1 ← array_get (data ++ drop (length data) temp) 1;
  t2 ← array_get (data ++ drop (length data) temp) 2;
  t3 ← array_get (data ++ drop (length data) temp) 3;
  Done ((t0 =? 0x7F) && (t1 =? 0x45) && (t2 =? 0x4C) && (t3 =? 0x46), fp).

(** ** Segments *)

Definition pagecount (phdr : Elf32_Phdr) : Z := Z.max (ALIGN (p_memsz phdr) PAGE_SIZE / PAGE_SIZE) 1.

(** What a read into memory does. *)
Fixpoint write_bytes (m : machine F) (dst : Z) (l : list Z) : outcome (machine F) :=
  match l with
  | [] => Done m
  | x :: l' => m' ← vwrite8 m dst x; write_bytes m' (u32 (dst + 1)) l'
  end.

Definition load_segment (phdr : Elf32_Phdr) (f : FILE) (mgr : manager W) (m : machine F)
    : outcome (FILE * machine F) :=
  if negb (p_type phdr =? PT_LOAD) then Done (f, m)
  else
    '(addrto, fr) ← alloc_frames (pagecount phdr) (frames m);
    let m := set_frames fr m in
    m ← map_pages m (get_kernel_page_directory m) addrto (p_vaddr phdr) (u32 (pagecount phdr * PAGE_SIZE))
          (Z.lor PAGE_USER PAGE_WRITEABLE);
    m ← vfill m (p_vaddr phdr) 0 (Z.to_nat (p_memsz phdr));
    '(_, f) ← fseek f (s32 (p_offset phdr)) SEEK_SET mgr;
    '(_, data, f) ← fread f (p_filesz phdr) 1 mgr;
    m ← write_bytes m (p_vaddr phdr) data;
    Done (f, m).

Fixpoint load_segments (l : list Elf32_Phdr) (f : FILE) (mgr : manager W) (m : machine F)
    : outcome (FILE * machine F) :=
  match l with
  | [] => Done (f, m)
  | phdr :: l' => '(f, m) ← load_segment phdr f mgr m; load_segments l' f mgr m
  end.

(** The loop over the pages of a segment, and over the segments. *)
Definition unload_segment (phdr : Elf32_Phdr) (m : machine F) : outcome (machine F) :=
  if negb (p_type phdr =? PT_LOAD) then Done m
  else unmap_pages_loop (Z.to_nat (pagecount phdr)) m (get_kernel_page_directory m) (p_vaddr phdr).

Fixpoint unload_segments (l : list Elf32_Phdr) (m : machine F) : outcome (machine F) :=
  match l with
  | [] => Done m
  | phdr :: l' => m ← unload_segment phdr m; unload_segments l' m
  end.

(** ** Starting a program *)

(** What the heap hands out during [spawn_prog]. *)
Record program_blocks := ProgramBlocks {
  b_elf : Z; b_p_header : Z; b_section : Z; b_file : Z; b_proc : Z; b_name : Z;
  b_thread : thread_memory; b_dir : Z; b_tables : list Z
}.

Record world := World {
  memory : machine F;
  fsys : system W;
  tasks : sched;
  elf_loader_mutex : bool
}.

(** [_thread_create_unwrapped] opens the stack of the thread to the user. *)
Fixpoint share_pages (n : nat) (m : machine F) (virtual : Z) : outcome (machine F) :=
  match n with
  | O => Done m
  | S n' =>
      m ← phys_set_flags m (get_kernel_page_directory m) virtual (Z.lor PAGE_WRITEABLE PAGE_USER);
      share_pages n' m (u32 (virtual + PAGE_SIZE))
  end.

Definition spawn_prog (thread_exit_entrypoint : Z) (name : string) (args : list Z) (b : program_blocks) (w : world)
    : outcome (Z * world) :=
  '(r, mgr) ← load_elf name (b_elf b) (b_p_header b) (b_section b) (b_file b) (fs (fsys w));
  match r with
  | None => Done (-1, World (memory w) (System mgr (files (fsys w)) (descriptors (fsys w)) (last_descriptor_number (fsys w)))
                       (tasks w) (elf_loader_mutex w))
  | Some (elf_file, f) =>
      _ ← mutex_get (elf_loader_mutex w);
      let s := tasks w in
      let number := next_pid s in
      let s := with_ids (next_thread_id s) (u32 (next_pid s + 1)) s in
      '(f, m) ← load_segments (e_phdrs elf_file) f mgr (memory w);
      let s := put_process (b_proc b) (Process 0 0 number 0 (b_name b) (replicate 1024 0) 0 (Some elf_file))
                 (with_lists (put_item (b_proc b) (ListItem 0 0 0) (lists s)) s) in
      s ← process_add_prepared (b_proc b) s;
      '(thread, s) ← _thread_create_unwrapped thread_exit_entrypoint (b_proc b) (e_entry (elf_header elf_file))
                       DEFAULT_STACK_SIZE 0 args (b_thread b) s;
      m ← (if multi_task s then share_pages (Z.to_nat (DEFAULT_STACK_SIZE / PAGE_SIZE)) m (m_stack (b_thread b)) else Done m);
      '(tables, m) ← clone_kernel_page_directory m (b_dir b) (b_tables b) (replicate 1024 0);
      phys ← virt2phys m (get_kernel_page_directory m) (b_dir b);
      p ← get_process (b_proc b) s;
      let s := put_process (b_proc b) (Process phys (threads_count p) (pid p) (b_dir b) (Sched.name p) tables (cwd p) (program p)) s in
      m ← unload_segments (e_phdrs elf_file) m;
      s ← set_state thread CREATED s;
      Done (s32 number, World m (set_stream (b_file b) f mgr (fsys w)) s false)
  end.

End Loader.
Arguments World {F W} _ _ _ _.
Arguments memory {F W} _.
Arguments fsys {F W} _.
Arguments tasks {F W} _.
Arguments elf_loader_mutex {F W} _.
Arguments world F W : clear implicits.

(** ** Bytes in memory *)

Section Data.
Context {F : Type} `{FrameAllocLaws F}.
Implicit Types (m : machine F) (d : Z).

(** The byte at a physical address. *)
Definition pbyte m (pa : Z) : Z := u8 (Z.shiftr (pread m pa) (8 * (pa mod 4))).

Definition with_byte (w j x : Z) : Z :=
  Z.lor (Z.land w (Z.lnot (Z.shiftl 0xff (8 * j)))) (Z.shiftl (u8 x) (8 * j)).

Lemma u8_testbit x n : 0 <= n -> Z.testbit (u8 x) n = (n <? 8) && Z.testbit x n.
Proof.
  intros Hn. unfold u8. destruct (Z.ltb_spec n 8); cbn [andb]; [by rewrite Z.mod_pow2_bits_low|by rewrite Z.mod_pow2_bits_high by lia].
Qed.

Lemma mask_testbit n : 0 <= n -> Z.testbit 0xff n = (n <? 8).
Proof.
  intros Hn. change 0xff with (Z.ones 8). destruct (Z.ltb_spec n 8); [by apply Z.ones_spec_low|by apply Z.ones_spec_high].
Qed.

Lemma with_byte_get w j x i :
  0 <= i < 4 -> 0 <= j < 4 -> u8 (Z.shiftr (with_byte w j x) (8 * i)) = if i =? j then u8 x else u8 (Z.shiftr w (8 * i)).
Proof.
  intros Hi Hj. apply Z.bits_inj'. intros n Hn. unfold with_byte.
  assert (Z.testbit (u8 (Z.shiftr (Z.lor (Z.land w (Z.lnot (Z.shiftl 255 (8 * j)))) (Z.shiftl (u8 x) (8 * j))) (8 * i))) n =
    (n <? 8) && (if i =? j then Z.testbit x n else Z.testbit w (n + 8 * i))) as ->.
  { rewrite u8_testbit by done. destruct (Z.ltb_spec n 8); cbn [andb]; [|done].
    rewrite Z.shiftr_spec, Z.lor_spec, Z.land_spec, Z.lnot_spec, !Z.shiftl_spec by lia.
    destruct (Z.eqb_spec i j) as [->|Hne].
    - replace (n + 8 * j - 8 * j) with n by lia. rewrite mask_testbit, u8_testbit by done.
      destruct (Z.ltb_spec n 8); [|lia]. by rewrite andb_false_r.
    - destruct (Z.lt_ge_cases (n + 8 * i - 8 * j) 0).
      + rewrite (Z.testbit_neg_r 255), (Z.testbit_neg_r (u8 x)) by lia. by rewrite orb_false_r, andb_true_r.
      + rewrite mask_testbit, u8_testbit by lia. destruct (Z.ltb_spec (n + 8 * i - 8 * j) 8); [lia|].
        by rewrite orb_false_r, andb_true_r. }
  destruct (i =? j); rewrite u8_testbit by done; [done|]. by rewrite Z.shiftr_spec by done.
Qed.

Lemma with_byte_range w j x : 0 <= w < 2 ^ 32 -> 0 <= j < 4 -> 0 <= with_byte w j x < 2 ^ 32.
Proof.
  intros Hw Hj. apply lor_bound; [lia| |].
  - split; [apply Z.land_nonneg; lia|]. apply bits_bound; [apply Z.land_nonneg; lia|lia|].
    intros n Hn. by rewrite Z.land_spec, (testbit_small w 32 n).
  - pose proof (u8_range x). rewrite Z.shiftl_mul_pow2 by lia. split; [apply Z.mul_nonneg_nonneg; lia|].
    apply Z.lt_le_trans with (2 ^ 8 * 2 ^ (8 * j)); [apply Z.mul_lt_mono_pos_r; lia|].
    rewrite <- Z.pow_add_r by lia. apply Z.pow_le_mono_r; lia.
Qed.

Lemma pread_word m a : pread m (4 * (a / 4)) = pread m a.
Proof. unfold pread. by rewrite (Z.mul_comm 4), Z.div_mul. Qed.

Lemma pbyte_pwrite m a x b :
  0 <= pread m a < 2 ^ 32 -> pbyte (pwrite m a (with_byte (pread m a) (a mod 4) x)) b = if b =? a then u8 x else pbyte m b.
Proof.
  intros Hw. unfold pbyte. rewrite pread_pwrite.
  pose proof (Z.div_mod a 4 ltac:(lia)). pose proof (Z.div_mod b 4 ltac:(lia)).
  pose proof (Z.mod_pos_bound a 4 ltac:(lia)). pose proof (Z.mod_pos_bound b 4 ltac:(lia)).
  destruct (Z.eqb_spec (b / 4) (a / 4)) as [E|E].
  - rewrite with_byte_get by done. destruct (Z.eqb_spec (b mod 4) (a mod 4)), (Z.eqb_spec b a); try done; try lia.
    assert (pread m a = pread m b) as ->; [|done]. by rewrite <- (pread_word m a), <- E, pread_word.
  - destruct (Z.eqb_spec b a) as [->|]; done.
Qed.

(** ** Runs of pages *)

(** Pages [p] to [p + n - 1] are mapped to frames [k] to [k + n - 1]. *)
Definition run_mapped m d (p k n : Z) : Prop := forall i, 0 <= i < n -> data_page m d (p + i) (k + i).
Definition run_frames (k n : Z) : list Z := seqZ k n.

Lemma run_no_table m d p k n : run_mapped m d p k n -> no_table (run_frames k n) m d.
Proof.
  intros Hr t Ht. apply elem_of_seqZ in Ht. specialize (Hr (t - k) ltac:(lia)). replace t with (k + (t - k)) by lia. apply Hr.
Qed.

Lemma run_kept m m' d p k n ks :
  space_ok m d -> kept ks m m' -> no_table ks m d -> run_mapped m d p k n -> run_mapped m' d p k n.
Proof. intros Hok Hk Hn Hr i Hi. by apply (kept_data ks m), Hr. Qed.

(** Byte [x] of a run. *)
Lemma run_address p k n x : 0 <= x < 4096 * n ->
  exists i o, 0 <= i < n /\ 0 <= o < 4096 /\ 4096 * p + x = 4096 * (p + i) + o /\ 4096 * k + x = 4096 * (k + i) + o.
Proof.
  intros Hx. destruct (page_split_addr x) as [E Ho]. exists (x / 4096), (x mod 4096).
  assert (0 <= x / 4096 < n) by (split; [apply Z.div_pos; lia|apply Z.div_lt_upper_bound; lia]). lia.
Qed.

Lemma translate_run m d p k n x :
  space_ok m d -> paging_initialized m = true -> run_mapped m d p k n -> 0 <= x < 4096 * n ->
  translate m (4096 * p + x) = Some (4096 * k + x).
Proof.
  intros Hok Hpg Hr Hx. destruct (run_address p k n x Hx) as (i & o & Hi & Ho & -> & ->). specialize (Hr i Hi).
  unfold translate. rewrite Hpg, (walk_entry m d) by (done || apply Hr).
  destruct (data_page_value m d (p + i) (k + i) Hr) as (-> & -> & _). done.
Qed.

Lemma mod4_run p k x : (4096 * p + x) mod 4 = (4096 * k + x) mod 4.
Proof.
  replace (4096 * p + x) with (x + 1024 * p * 4) by lia. replace (4096 * k + x) with (x + 1024 * k * 4) by lia. by rewrite !Z.mod_add.
Qed.

Lemma vread8_run m d p k n x :
  space_ok m d -> paging_initialized m = true -> run_mapped m d p k n -> 0 <= x < 4096 * n ->
  vread8 m (4096 * p + x) = Done (pbyte m (4096 * k + x)).
Proof.
  intros Hok Hpg Hr Hx. unfold vread8, vread. rewrite (translate_run m d p k n x) by done. cbn [of_option mbind outcome_bind].
  unfold pbyte. by rewrite (mod4_run p k).
Qed.

Lemma vwrite8_run m d p k n x v :
  space_ok m d -> paging_initialized m = true -> run_mapped m d p k n -> 0 <= x < 4096 * n ->
  exists m', vwrite8 m (4096 * p + x) v = Done m' /\ kept (run_frames k n) m m' /\
    forall b, pbyte m' b = if b =? 4096 * k + x then u8 v else pbyte m b.
Proof.
  intros Hok Hpg Hr Hx. unfold vwrite8, vread, vwrite. rewrite (translate_run m d p k n x) by done. cbn [of_option mbind outcome_bind].
  rewrite (mod4_run p k). fold (with_byte (pread m (4096 * k + x)) ((4096 * k + x) mod 4) v).
  eexists. split; [done|]. split; [|intros b; apply pbyte_pwrite, Hok].
  destruct (run_address p k n x Hx) as (i & o & Hi & Ho & _ & E). rewrite E.
  assert (4096 * (k + i) + o = 4096 * (k + i) + 4 * (o / 4) + o mod 4) as Ew by (pose proof (Z.div_mod o 4 ltac:(lia)); lia).
  set (v' := with_byte _ _ _). pose proof (Z.mod_pos_bound o 4 ltac:(lia)).
  assert (pwrite m (4096 * (k + i) + o) v' = pwrite m (4096 * (k + i) + 4 * (o / 4)) v') as ->.
  { unfold pwrite. do 2 f_equal. rewrite Ew. rewrite slot_div. symmetry. apply Z.div_unique with (o mod 4); lia. }
  eapply kept_weaken; [|apply kept_pwrite; [split; [apply Z.div_pos; lia|apply Z.div_lt_upper_bound; lia]|]].
  - intros t ->%list_elem_of_singleton. apply elem_of_seqZ. lia.
  - apply with_byte_range; [apply Hok|apply Z.mod_pos_bound; lia].
Qed.

Lemma write_bytes_run l m d p k n x :
  space_ok m d -> paging_initialized m = true -> run_mapped m d p k n -> 0 <= x -> x + Z.of_nat (length l) <= 4096 * n ->
  0 <= p -> p + n <= 1023 * 1024 ->
  exists m', write_bytes m (4096 * p + x) l = Done m' /\ kept (run_frames k n) m m' /\
    forall b, pbyte m' b = match (if 4096 * k + x <=? b then l !! Z.to_nat (b - (4096 * k + x)) else None) with
                           | Some v => u8 v | None => pbyte m b end.
Proof.
  revert m x. induction l as [|v l IH]; intros m x Hok Hpg Hr Hx Hl Hp0 Hp; cbn [write_bytes length] in *.
  { exists m. split; [done|]. split; [apply kept_refl|]. intros b. by destruct (_ <=? b). }
  destruct (vwrite8_run m d p k n x v Hok Hpg Hr ltac:(lia)) as (m1 & -> & Hk1 & Hb1). cbn [mbind outcome_bind].
  pose proof (run_no_table m d p k n Hr) as Hn. destruct (kept_space _ m m1 d Hok Hk1 Hn) as (Hok1 & _).
  rewrite u32_small by lia. replace (4096 * p + x + 1) with (4096 * p + (x + 1)) by lia.
  destruct (IH m1 (x + 1)) as (m' & E & Hk & Hb); try done; try lia; [by rewrite (kept_paging _ _ _ Hk1)|by apply (run_kept m _ _ _ _ _ (run_frames k n))|].
  exists m'. split; [done|]. split; [by eapply kept_trans|]. intros b. rewrite Hb, Hb1.
  destruct (Z.leb_spec (4096 * k + (x + 1)) b), (Z.leb_spec (4096 * k + x) b), (Z.eqb_spec b (4096 * k + x)); try lia; try done.
  - replace (Z.to_nat (b - (4096 * k + x))) with (S (Z.to_nat (b - (4096 * k + (x + 1))))) by lia. done.
  - subst b. by rewrite Z.sub_diag.
Qed.

Lemma vfill_write_bytes n m dst x : vfill m dst x n = write_bytes m dst (replicate n x).
Proof.
  revert m dst. induction n as [|n IH]; intros m dst; cbn [vfill replicate write_bytes]; [done|].
  destruct (vwrite8 m dst x); cbn [mbind outcome_bind]; [apply IH|done|done].
Qed.

(** ** Segments in memory *)

(** [k] is the first frame of the segment, [data] what its pages hold. *)
Record segment_at m d (phdr : Elf32_Phdr) (k : Z) (data : list Z) : Prop := SegmentAt {
  sg_load : p_type phdr = PT_LOAD;
  sg_aligned : p_vaddr phdr = 4096 * (p_vaddr phdr / 4096);
  sg_range : 0 <= p_vaddr phdr / 4096 /\ p_vaddr phdr / 4096 + pagecount phdr <= 1023 * 1024;
  sg_mapped : run_mapped m d (p_vaddr phdr / 4096) k (pagecount phdr);
  sg_used : forall i, 0 <= i < pagecount phdr -> ~ frame_free (frames m) (4096 * (k + i));
  sg_length : Z.of_nat (length data) <= 4096 * pagecount phdr;
  sg_bytes : forall j x, data !! j = Some x -> pbyte m (4096 * k + Z.of_nat j) = x
}.

Definition page_of_segment (phdr : Elf32_Phdr) (q : Z) : Prop :=
  p_vaddr phdr / 4096 <= q < p_vaddr phdr / 4096 + pagecount phdr.

Lemma pread_frame m t o : pread m (4096 * t + o) = pread m (4096 * t + 4 * (o / 4)).
Proof.
  unfold pread. do 2 f_equal. rewrite slot_div. symmetry. apply Z.div_unique with (o mod 4).
  - left. by apply Z.mod_pos_bound.
  - pose proof (Z.div_mod o 4 ltac:(lia)). lia.
Qed.

Lemma pbyte_same m m' k n x :
  (forall i j, 0 <= i < n -> 0 <= j < 1024 -> pread m' (4096 * (k + i) + 4 * j) = pread m (4096 * (k + i) + 4 * j)) ->
  0 <= x < 4096 * n -> pbyte m' (4096 * k + x) = pbyte m (4096 * k + x).
Proof.
  intros Hs Hx. destruct (run_address 0 k n x Hx) as (i & o & Hi & Ho & _ & E). unfold pbyte. do 2 f_equal. rewrite E, !(pread_frame _ (k + i) o).
  apply Hs; [done|]. split; [apply Z.div_pos; lia|apply Z.div_lt_upper_bound; lia].
Qed.

Lemma pagecount_pos phdr : 0 < pagecount phdr.
Proof. unfold pagecount. lia. Qed.

(** What it takes to keep a segment. *)
Lemma segment_kept m m' d phdr k data :
  segment_at m d phdr k data ->
  (forall i, 0 <= i < pagecount phdr ->
     entry m' d (p_vaddr phdr / 4096 + i) = entry m d (p_vaddr phdr / 4096 + i) /\
     ~ owned m' d (4096 * (k + i)) /\ ~ frame_free (frames m') (4096 * (k + i)) /\
     forall j, 0 <= j < 1024 -> pread m' (4096 * (k + i) + 4 * j) = pread m (4096 * (k + i) + 4 * j)) ->
  segment_at m' d phdr k data.
Proof.
  intros [? ? ? Hm Hu Hl Hb] Hs. constructor; try done.
  - intros i Hi. destruct (Hs i Hi) as (He & Ho & _). destruct (Hm i Hi) as [? ? Hent _]. constructor; try done. by rewrite He.
  - intros i Hi. apply (Hs i Hi).
  - intros j x Hj. pose proof (lookup_lt_Some _ _ _ Hj). rewrite (pbyte_same m m' k (pagecount phdr)) by
      (lia || (intros i j' Hi; by apply (Hs i Hi))). by apply Hb.
Qed.

(** ** Loading a segment *)

(** The allocator handed out [n] frames from [k] on, which were free. *)
Record run_taken (f : F) (k n : Z) (f' : F) : Prop := RunTaken {
  rt_range : 0 < k /\ k + n < 2 ^ 20;
  rt_inv : frames_inv f';
  rt_free : forall i, 0 <= i < n -> frame_free f (4096 * (k + i));
  rt_frames : forall b, frame_free f' b <-> frame_free f b /\ forall i, 0 <= i < n -> b <> 4096 * (k + i);
  rt_managed : forall b, frame_managed f' b <-> frame_managed f b
}.

Lemma run_taken_space m d k n fr : space_ok m d -> run_taken (frames m) k n fr -> space_ok (set_frames fr m) d.
Proof.
  intros [? ? ? ? ? ? ? ? Ho] [_ Hi _ Hf Hm]. constructor; simpl; try done.
  intros b Hb. destruct (Ho b Hb) as [? Hnf]. split; [by apply Hm|]. intros Hb'. by apply Hf in Hb' as [].
Qed.

Lemma pagecount_spec phdr : 0 <= p_memsz phdr < 2 ^ 31 -> p_memsz phdr <= 4096 * pagecount phdr.
Proof.
  intros Hm. unfold pagecount. rewrite ALIGN_page by lia. unfold PAGE_SIZE. rewrite (Z.mul_comm 4096 (_ / 4096)), Z.div_mul by lia.
  pose proof (Z.div_mod (p_memsz phdr + 4095) 4096 ltac:(lia)). pose proof (Z.mod_pos_bound (p_memsz phdr + 4095) 4096 ltac:(lia)). lia.
Qed.

(** The fresh run is mapped where the segment wants to be. *)
Lemma map_run m d p k n fr :
  space_ok m d -> run_taken (frames m) k (Z.of_nat n) fr -> (0 < n)%nat -> 0 <= p -> p + Z.of_nat n <= 1023 * 1024 ->
  (n <= frames_left fr)%nat ->
  exists m1, map_pages (set_frames fr m) (get_kernel_page_directory m) (4096 * k) (4096 * p) (u32 (Z.of_nat n * PAGE_SIZE))
      (Z.lor PAGE_USER PAGE_WRITEABLE) = Done m1 /\
    space_ok m1 d /\ paging_initialized m1 = paging_initialized m /\ run_mapped m1 d p k (Z.of_nat n) /\
    (forall b, frame_free (frames m1) b -> frame_free fr b) /\
    (forall b, owned m1 d b -> owned m d b \/ frame_free fr b) /\
    (forall q, ordinary q -> ~ (p <= q < p + Z.of_nat n) -> entry m1 d q = entry m d q) /\
    tables_only (set_frames fr m) m1 d.
Proof.
  intros Hok Hr Hn Hp0 Hp Hl. pose proof (run_taken_space m d k _ fr Hok Hr) as Hok0. pose proof (rt_range _ _ _ _ Hr) as Hk.
  destruct (map_pages_spec n (set_frames fr m) d k 0 p 0 (Z.of_nat n * PAGE_SIZE) (Z.lor PAGE_USER PAGE_WRITEABLE))
    as (m1 & E & Hok1 & Hu & Hpg & Hent); try done; try (unfold PAGE_SIZE; lia).
  rewrite !Z.add_0_r in E. rewrite u32_small by (unfold PAGE_SIZE; lia).
  exists m1. destruct Hu as [_ Hfree _ Hown Hto]. split; [exact E|]. split; [done|]. split; [done|]. split; [|split; [done|split; [done|split; [|done]]]].
  - intros i Hi. assert (ordinary (p + i)) as Ho by (unfold ordinary; lia). constructor; [done|lia| |].
    + exists 6. split; [lia|]. rewrite Hent by done.
      destruct (Z.leb_spec p (p + i)), (Z.ltb_spec (p + i) (p + Z.of_nat n)); try lia. cbn [andb].
      unfold pte_value. replace (p + i - p) with i by lia. rewrite page_base_mul by lia. by rewrite <- Z.lor_assoc.
    + intros Ho1. pose proof (rt_free _ _ _ _ Hr i Hi) as Hf. apply Hown in Ho1 as [Ho1|Ho1].
      * by apply (so_owned _ _ Hok) in Ho1 as [].
      * apply (rt_frames _ _ _ _ Hr) in Ho1 as [_ Hne]. by apply (Hne i).
  - intros q Hq Hout. rewrite Hent by done. destruct (Z.leb_spec p q), (Z.ltb_spec q (p + Z.of_nat n)); cbn [andb]; lia || done.
Qed.

(** Other segments stay as they are while one is loaded. *)
Lemma other_segment_kept m m1 m2 d k n fr phdr k' data' :
  space_ok m d -> run_taken (frames m) k n fr -> tables_only (set_frames fr m) m1 d -> kept (run_frames k n) m1 m2 ->
  space_ok m2 d -> (forall b, frame_free (frames m2) b -> frame_free fr b) -> (forall b, owned m2 d b -> owned m d b \/ frame_free fr b) ->
  (forall q, page_of_segment phdr q -> entry m2 d q = entry m d q) ->
  segment_at m d phdr k' data' -> segment_at m2 d phdr k' data'.
Proof.
  intros Hok Hr Hto Hk Hok2 Hfree Hown Hent Hs. apply (segment_kept m); [done|]. intros i Hi.
  pose proof (sg_used _ _ _ _ _ Hs i Hi) as Hnf. pose proof (dp_free _ _ _ _ (sg_mapped _ _ _ _ _ Hs i Hi)) as Hno.
  assert (~ frame_free fr (4096 * (k' + i))) as Hnf' by (intros Hf; by apply (rt_frames _ _ _ _ Hr) in Hf as []).
  split; [apply Hent; unfold page_of_segment; lia|]. split; [by intros [|]%Hown|]. split; [by intros ?%Hfree|].
  intros j Hj. rewrite (kept_read _ _ _ Hk), Hto; try done.
  intros Hin. apply elem_of_seqZ in Hin. apply Hnf. replace (k' + i) with (k + (k' + i - k)) by lia. apply (rt_free _ _ _ _ Hr). lia.
Qed.

(** The bytes that a segment should have. *)
Definition segment_data (contents : list Z) (phdr : Elf32_Phdr) : list Z :=
  take (Z.to_nat (p_filesz phdr)) (drop (Z.to_nat (p_offset phdr)) contents) ++
  replicate (Z.to_nat (p_memsz phdr - p_filesz phdr)) 0.

(** Zeros, then the part of the file over them. *)
Lemma fill_segment m d p k n phdr contents :
  space_ok m d -> paging_initialized m = true -> run_mapped m d p k n -> 0 <= p -> p + n <= 1023 * 1024 ->
  0 <= p_filesz phdr <= p_memsz phdr -> p_memsz phdr <= 4096 * n -> 0 <= p_offset phdr ->
  p_offset phdr + p_filesz phdr <= Z.of_nat (length contents) -> Forall is_byte contents ->
  exists m1 m2, vfill m (4096 * p) 0 (Z.to_nat (p_memsz phdr)) = Done m1 /\
    write_bytes m1 (4096 * p) (take (Z.to_nat (p_filesz phdr)) (drop (Z.to_nat (p_offset phdr)) contents)) = Done m2 /\
    kept (run_frames k n) m m2 /\
    forall j x, segment_data contents phdr !! j = Some x -> pbyte m2 (4096 * k + Z.of_nat j) = x.
Proof.
  intros Hok Hpg Hr Hp0 Hp Hf Hm Ho Hend Hbytes. set (data := take _ _).
  assert (length data = Z.to_nat (p_filesz phdr)) as Hl by (unfold data; rewrite length_take, length_drop; lia).
  pose proof (run_no_table m d p k n Hr) as Hn. rewrite vfill_write_bytes.
  destruct (write_bytes_run (replicate (Z.to_nat (p_memsz phdr)) 0) m d p k n 0) as (m1 & E1 & Hk1 & Hb1); try done; try lia;
    [rewrite length_replicate; lia|].
  rewrite Z.add_0_r in E1. rewrite E1. destruct (kept_space _ m m1 d Hok Hk1 Hn) as (Hok1 & _).
  destruct (write_bytes_run data m1 d p k n 0) as (m2 & E2 & Hk2 & Hb2); try done; try lia;
    [by rewrite (kept_paging _ _ _ Hk1)|by apply (run_kept m _ _ _ _ _ (run_frames k n))|].
  rewrite Z.add_0_r in E2. exists m1, m2. split; [done|]. split; [done|]. split; [by eapply kept_trans|].
  intros j x Hj. rewrite Hb2, Hb1. rewrite Z.add_0_r. destruct (Z.leb_spec (4096 * k) (4096 * k + Z.of_nat j)); [|lia].
  replace (4096 * k + Z.of_nat j - 4096 * k) with (Z.of_nat j) by lia. rewrite Nat2Z.id.
  unfold segment_data in Hj. fold data in Hj. destruct (data !! j) as [y|] eqn:Ej.
  - rewrite (lookup_app_l_Some _ _ _ _ Ej) in Hj. injection Hj as <-. apply u8_small.
    assert (Forall is_byte data) as Hd by (by apply Forall_take, Forall_drop). by apply (Forall_lookup_1 _ _ _ _ Hd Ej).
  - apply lookup_ge_None in Ej. rewrite lookup_app_r in Hj by done. apply lookup_replicate in Hj as [-> Hj].
    by rewrite lookup_replicate_2 by lia.
Qed.

End Data.

Section Loading.
Context {F : Type} `{FrameAllocLaws F} {W : Type}.
Implicit Types (m : machine F) (d : Z) (mgr : manager W).

Lemma read_part (f : FILE) contents mgr offset count :
  stream_ok f -> leads_to (path f) contents mgr -> size f = Z.of_nat (length (contents (disks mgr))) ->
  0 <= offset -> 0 <= count -> offset + count <= size f ->
  exists f', stream_ok f' /\ path f' = path f /\ size f' = size f /\
    ('(_, f) ← fseek f (s32 offset) SEEK_SET mgr; fread f count 1 mgr) =
      Done (count, take (Z.to_nat count) (drop (Z.to_nat offset) (contents (disks mgr))), f').
Proof.
  intros Hf Hl Hsz Ho Hc Hend. pose proof Hf as [Eo Hm Hs Hp]. unfold fseek. rewrite usable_test by done. rewrite s32_small by lia.
  change (SEEK_SET =? SEEK_CUR) with false. change (SEEK_SET =? SEEK_END) with false. change (SEEK_SET =? SEEK_SET) with true. cbn iota.
  destruct (Z.leb_spec 0 offset), (Z.leb_spec offset (size f)); try lia. cbn [andb mbind outcome_bind].
  assert (stream_ok (with_pos offset f)) as Hf' by (constructor; cbn; done || lia).
  rewrite (fread_contents (with_pos offset f) contents mgr count) by (done || lia). cbn [pos with_pos].
  set (data := take _ _). assert (Z.of_nat (length data) = count) as -> by (unfold data; rewrite length_take, length_drop; lia).
  eexists. split; [|split; [|split; [|done]]]; destruct (0 <? count); try done.
  constructor; cbn; try done. rewrite u32_small; lia.
Qed.

Lemma load_segment_spec m d mgr (f : FILE) (contents : W -> list Z) (phdr : Elf32_Phdr) (k : Z) (fr : F)
    (Hok : space_ok m d) (Hon : paging_initialized m = true)
    (Hload : p_type phdr = PT_LOAD) (Haligned : p_vaddr phdr = 4096 * (p_vaddr phdr / 4096))
    (Hplace : 0 <= p_vaddr phdr /\ p_vaddr phdr + 4096 * pagecount phdr <= page_directory_start)
    (Hsizes : 0 <= p_filesz phdr <= p_memsz phdr /\ p_memsz phdr < 2 ^ 31)
    (Hfile : stream_ok f /\ leads_to (path f) contents mgr /\ size f = Z.of_nat (length (contents (disks mgr))))
    (Hpart : 0 <= p_offset phdr /\ p_offset phdr + p_filesz phdr <= size f)
    (Hbytes : Forall is_byte (contents (disks mgr)))
    (Halloc : alloc_frames (pagecount phdr) (frames m) = Done (4096 * k, fr)) (Hrun : run_taken (frames m) k (pagecount phdr) fr)
    (Hleft : (Z.to_nat (pagecount phdr) <= frames_left fr)%nat) :
  exists f' m', load_segment phdr f mgr m = Done (f', m') /\ space_ok m' d /\ paging_initialized m' = true /\
    segment_at m' d phdr k (segment_data (contents (disks mgr)) phdr) /\
    (forall q, ordinary q -> ~ page_of_segment phdr q -> entry m' d q = entry m d q) /\
    (forall phdr' k' data', segment_at m d phdr' k' data' ->
       (forall q, page_of_segment phdr' q -> ~ page_of_segment phdr q) -> segment_at m' d phdr' k' data') /\
    stream_ok f' /\ path f' = path f /\ size f' = size f.
Proof.
  pose proof (pagecount_pos phdr) as Hn0. set (p := p_vaddr phdr / 4096) in *.
  assert (0 <= p /\ p + pagecount phdr <= 1023 * 1024) as [Hp0 Hp] by (unfold page_directory_start in Hplace; lia).
  destruct Hfile as (Hf & Hl & Hsz). unfold load_segment. rewrite Hload. change (PT_LOAD =? PT_LOAD) with true. cbn [negb].
  rewrite Halloc. cbn [mbind outcome_bind].
  destruct (map_run m d p k (Z.to_nat (pagecount phdr)) fr) as (m1 & E1 & Hok1 & Hpg1 & Hrm & Hfree & Hown & Hent & Hto); try done; try lia;
    [by rewrite Z2Nat.id by lia|]. rewrite Z2Nat.id in * by lia.
  change (get_kernel_page_directory (set_frames fr m)) with (get_kernel_page_directory m). rewrite Haligned, E1. cbn [mbind outcome_bind].
  destruct (fill_segment m1 d p k (pagecount phdr) phdr (contents (disks mgr))) as (m2 & m3 & E2 & E3 & Hk & Hb);
    try done; try lia; [congruence|apply pagecount_spec; lia|]. rewrite E2. cbn [mbind outcome_bind].
  destruct (read_part f contents mgr (p_offset phdr) (p_filesz phdr)) as (f' & Hf' & Hpath & Hsz' & Er); try done; try lia.
  pose proof (run_no_table m1 d p k _ Hrm) as Hnt. destruct (kept_space _ m1 m3 d Hok1 Hk Hnt) as (Hok3 & Hnt3 & Hpde & _ & Hent3).
  assert (forall b, owned m3 d b <-> owned m1 d b) as Hown3 by (intros b; by apply owned_same_dir).
  exists f', m3. split; [|split; [done|split; [rewrite (kept_paging _ _ _ Hk); congruence|split; [|split; [|split; [|done]]]]]].
  - destruct (fseek f _ _ _) as [[r f1]| |]; cbn [mbind outcome_bind] in *; try discriminate. rewrite Er. cbn [mbind outcome_bind].
    by rewrite E3.
  - constructor; try done.
    + by apply (run_kept m1 _ _ _ _ _ (run_frames k (pagecount phdr))).
    + intros i Hi Hf3. rewrite (kept_frames _ _ _ Hk) in Hf3. apply Hfree, (rt_frames _ _ _ _ Hrun) in Hf3 as [_ Hne]. by apply (Hne i).
    + unfold segment_data. rewrite length_app, length_take, length_drop, length_replicate. pose proof (pagecount_spec phdr ltac:(lia)). lia.
  - intros q Hq Hout. rewrite Hent3 by done. by apply Hent.
  - intros phdr' k' data' Hs Hapart. apply (other_segment_kept m m1 m3 d k (pagecount phdr) fr); try done.
    + intros b. rewrite (kept_frames _ _ _ Hk). apply Hfree.
    + intros b. rewrite Hown3. apply Hown.
    + intros q Hq. pose proof (sg_range _ _ _ _ _ Hs). assert (ordinary q) by (unfold ordinary, page_of_segment in *; lia).
      rewrite Hent3, Hent; try done. by apply Hapart.
Qed.


End Loading.

Section Moving.
Context {F : Type} `{FrameAllocLaws F}.
Implicit Types (m : machine F) (d : Z).

(** ** Taking segments out of the kernel's space *)

Record unmapped (P : Z -> Prop) m m' d : Prop := Unmapped {
  um_space : space_ok m' d;
  um_paging : paging_initialized m' = true;
  um_owned : forall b, owned m' d b <-> owned m d b;
  um_structure : structure_only m m' d;
  um_gone : forall q, ordinary q -> P q -> entry m' d q = 0;
  um_kept : forall q, ordinary q -> ~ P q -> entry m' d q = entry m d q
}.

Lemma unmapped_refl m d : space_ok m d -> paging_initialized m = true -> unmapped (fun _ => False) m m d.
Proof. intros Hok Hpg. by constructor. Qed.

Lemma unmapped_trans (P Q : Z -> Prop) m1 m2 m3 d :
  (forall q, Q q \/ ~ Q q) -> unmapped P m1 m2 d -> unmapped Q m2 m3 d -> unmapped (fun q => P q \/ Q q) m1 m3 d.
Proof.
  intros Hdec [_ _ O1 S1 G1 K1] [Hok Hpg O2 S2 G2 K2]. constructor; try done.
  - intros b. by rewrite O2, O1.
  - intros t i Hi Hno. rewrite S2, S1; try done. by rewrite O1.
  - intros q Hq HPQ. destruct (Hdec q) as [HQ|HQ]; [by apply G2|]. rewrite K2 by done. apply G1; tauto.
  - intros q Hq HPQ. rewrite K2, K1; tauto.
Qed.

Lemma unmap_one m d p o :
  space_ok m d -> paging_initialized m = true -> ordinary p -> 0 <= o < 4096 ->
  exists m', unmap_single_page m (get_kernel_page_directory m) (4096 * p + o) = Done m' /\ unmapped (fun q => q = p) m m' d.
Proof.
  intros Hok Hpg Hp Ho. destruct (unmap_single_page_spec m d p o Hok Hp Ho) as (m' & E & Hok' & _ & Hown & Hpg' & Hent).
  exists m'. split; [done|]. constructor; try done; [congruence|by apply (unmap_structure_only m m' d p o)| |].
  - intros q Hq ->. by rewrite Hent, Z.eqb_refl.
  - intros q Hq Hne. rewrite Hent by done. by destruct (Z.eqb_spec q p).
Qed.

Lemma unmap_loop n m d p :
  space_ok m d -> paging_initialized m = true -> 0 <= p -> p + Z.of_nat n <= 1023 * 1024 ->
  exists m', unmap_pages_loop n m (get_kernel_page_directory m) (4096 * p) = Done m' /\
    unmapped (fun q => p <= q < p + Z.of_nat n) m m' d.
Proof.
  revert m p. induction n as [|n IH]; intros m p Hok Hpg Hp0 Hp; cbn [unmap_pages_loop].
  { exists m. split; [done|]. destruct (unmapped_refl m d Hok Hpg). constructor; try done; intros q Hq Hpq; lia || done. }
  destruct (unmap_one m d p 0 Hok Hpg) as (m1 & E1 & Hu1); [unfold ordinary; lia|lia|].
  rewrite Z.add_0_r in E1. rewrite E1. cbn [mbind outcome_bind]. unfold PAGE_SIZE. rewrite u32_small by lia.
  replace (4096 * p + 4096) with (4096 * (p + 1)) by lia.
  assert (get_kernel_page_directory m = get_kernel_page_directory m1) as ->.
  { unfold get_kernel_page_directory. by rewrite Hpg, (um_paging _ _ _ _ Hu1). }
  destruct (IH m1 (p + 1)) as (m' & E & Hu); try apply Hu1; try lia. exists m'. split; [done|].
  assert (forall q, p + 1 <= q < p + 1 + Z.of_nat n \/ ~ (p + 1 <= q < p + 1 + Z.of_nat n)) as Hdec by (intros q; lia).
  pose proof (unmapped_trans _ _ _ _ _ _ Hdec Hu1 Hu) as [? ? ? ? G K].
  constructor; try done; intros q Hq Hpq; [apply G|apply K]; cbn; lia || done.
Qed.

Definition loads (phdr : Elf32_Phdr) : Prop := p_type phdr = PT_LOAD.
Definition well_placed (phdr : Elf32_Phdr) : Prop :=
  p_vaddr phdr = 4096 * (p_vaddr phdr / 4096) /\
  0 <= p_vaddr phdr / 4096 /\ p_vaddr phdr / 4096 + pagecount phdr <= 1023 * 1024.

Lemma unload_segments_spec l m d :
  space_ok m d -> paging_initialized m = true -> (forall phdr, phdr ∈ l -> loads phdr -> well_placed phdr) ->
  exists m', unload_segments l m = Done m' /\
    unmapped (fun q => exists phdr, phdr ∈ l /\ loads phdr /\ page_of_segment phdr q) m m' d.
Proof.
  revert m. induction l as [|phdr l IH]; intros m Hok Hpg Hw; cbn [unload_segments].
  { exists m. split; [done|]. destruct (unmapped_refl m d Hok Hpg). constructor; try done. intros q _ (? & []%elem_of_nil & _). }
  unfold unload_segment. destruct (Z.eqb_spec (p_type phdr) PT_LOAD) as [Hl|Hl]; cbn [negb].
  - destruct (Hw phdr (list_elem_of_here _ _) Hl) as (Ha & Hp0 & Hp). pose proof (pagecount_pos phdr).
    rewrite Ha. destruct (unmap_loop (Z.to_nat (pagecount phdr)) m d (p_vaddr phdr / 4096)) as (m1 & -> & Hu1); try done; try lia.
    cbn [mbind outcome_bind]. destruct (IH m1) as (m' & -> & Hu); try apply Hu1.
    { intros x Hx. apply Hw. by apply list_elem_of_further. }
    exists m'. split; [done|]. rewrite Z2Nat.id in Hu1 by lia.
    assert (forall q, (exists x, x ∈ l /\ loads x /\ page_of_segment x q) \/ ~ (exists x, x ∈ l /\ loads x /\ page_of_segment x q)) as Hdec.
    { intros q. unfold loads, page_of_segment.
      destruct (decide (Exists (fun x => p_type x = PT_LOAD /\ (p_vaddr x / 4096 <= q /\ q < p_vaddr x / 4096 + pagecount x)) l)) as [He|He].
      - left. apply Exists_exists in He as (x & ? & ?). by exists x.
      - right. intros (x & ? & ?). apply He, Exists_exists. by exists x. }
    pose proof (unmapped_trans _ _ _ _ _ _ Hdec Hu1 Hu) as [? ? ? ? G K]. constructor; try done.
    + intros q Hq (x & Hx & Hlx & Hpq). apply G; [done|]. apply elem_of_cons in Hx as [->|Hx]; [by left|right; by exists x].
    + intros q Hq Hno. apply K; [done|]. intros [Hpq|(x & Hx & ?)]; apply Hno; [exists phdr|exists x]; (split; [|done]).
      * apply list_elem_of_here.
      * by apply list_elem_of_further.
  - cbn [mbind outcome_bind]. destruct (IH m) as (m' & -> & [? ? ? ? G K]); try done.
    { intros x Hx. apply Hw. by apply list_elem_of_further. }
    exists m'. split; [done|]. constructor; try done.
    + intros q Hq (x & Hx & Hlx & Hpq). apply G; [done|]. apply elem_of_cons in Hx as [->|Hx]; [done|by exists x].
    + intros q Hq Hno. apply K; [done|]. intros (x & Hx & ?). apply Hno. exists x. split; [by apply list_elem_of_further|done].
Qed.

(** ** The space of the process *)

(** A walk reads one entry of the directory and one of a table. *)
Lemma walk_same m m' c p o :
  0 <= o < 4096 -> cr3 m = c -> cr3 m' = c ->
  pread m' (c + 4 * (p / 1024)) = pread m (c + 4 * (p / 1024)) ->
  (present (pde m c (p / 1024)) = true ->
     pread m' (table m c (p / 1024) + 4 * (p mod 1024)) = pread m (table m c (p / 1024) + 4 * (p mod 1024))) ->
  walk m' (4096 * p + o) = walk m (4096 * p + o).
Proof.
  intros Ho Hc Hc' Hd Ht. rewrite !(walk_page _ c) by done. unfold pte_addr, table, pde in *. rewrite Hd.
  destruct (present _) eqn:Hp; [|done]. by rewrite Ht.
Qed.

(** A byte of a segment, seen from the process's directory before and after the kernel's
    pages are gone. *)
Lemma process_walk m m1 m2 d c va P :
  space_ok m d -> space_ok m1 d -> (forall q, ordinary q -> entry m1 d q = entry m d q) ->
  (forall b, owned m1 d b <-> owned m d b) -> unmapped P m1 m2 d ->
  (exists kd, c = 4096 * kd /\ ~ owned m d (4096 * kd)) ->
  (forall va, 0 <= va < page_directory_start -> walk (in_space c m1) va = walk m va) ->
  (forall x, 0 <= x < 1023 -> pde m d x <> 0 -> ~ owned m d (table m1 c x)) ->
  0 <= va < page_directory_start -> pde m d (va / 4096 / 1024) <> 0 ->
  walk (in_space c m2) va = walk m va.
Proof.
  intros Hok Hok1 Hent Hown Hu (kd & -> & Hkd) Hw Ht Hva Hpd. rewrite <- Hw by done.
  destruct (page_split_addr va) as [Ev Ho]. rewrite Ev.
  assert (ordinary (va / 4096)) as Hp.
  { unfold ordinary, page_directory_start in *. split; [apply Z.div_pos; lia|apply Z.div_lt_upper_bound; lia]. }
  destruct (ordinary_index _ Hp) as [Hi Hj]. apply (walk_same _ _ (4096 * kd)); try done.
  - apply (um_structure _ _ _ _ Hu); [lia|]. by rewrite Hown.
  - intros _. change (table (in_space (4096 * kd) m1)) with (table m1). change (pread (in_space (4096 * kd) m2)) with (pread m2).
    change (pread (in_space (4096 * kd) m1)) with (pread m1). specialize (Ht _ Hi Hpd).
    destruct (page_base_page (pde m1 (4096 * kd) (va / 4096 / 1024))) as (t & Et & _); [apply Hok1|].
    unfold table in *. rewrite Et in *. apply (um_structure _ _ _ _ Hu); [done|]. by rewrite Hown.
Qed.


End Moving.

Section Starting.
Context {F : Type} `{FrameAllocLaws F} {W : Type}.
Implicit Types (m : machine F) (d : Z) (mgr : manager W).

(** ** Headers in a file *)

Definition file_bytes (contents : list Z) (off n : Z) : list Z := take (Z.to_nat n) (drop (Z.to_nat off) contents).

Lemma file_bytes_length contents off n :
  0 <= off -> 0 <= n -> off + n <= Z.of_nat (length contents) -> length (file_bytes contents off n) = Z.to_nat n.
Proof. intros Ho Hn Hl. unfold file_bytes. rewrite length_take, length_drop. lia. Qed.

Lemma read_into_full n data : 0 <= n -> length data = Z.to_nat n -> read_into n data = Done data.
Proof.
  intros Hn Hl. unfold read_into. destruct (Z.leb_spec (Z.of_nat (length data)) n); [|lia].
  by rewrite Hl, Nat.sub_diag, app_nil_r.
Qed.

Lemma load16_total b off : 0 <= off -> off + 2 <= Z.of_nat (length b) -> exists x, load16 b off = Done x.
Proof.
  intros Ho Hl. unfold load16. destruct (array_get_in_range b off) as (x & ->); [lia|].
  destruct (array_get_in_range b (off + 1)) as (y & ->); [lia|]. cbn. eauto.
Qed.

Lemma load32_total b off : 0 <= off -> off + 4 <= Z.of_nat (length b) -> exists x, load32 b off = Done x.
Proof.
  intros Ho Hl. unfold load32. destruct (array_get_in_range b off) as (x & ->); [lia|].
  destruct (array_get_in_range b (off + 1)) as (y & ->); [lia|]. destruct (array_get_in_range b (off + 2)) as (z & ->); [lia|].
  destruct (array_get_in_range b (off + 3)) as (t & ->); [lia|]. cbn. eauto.
Qed.

Lemma parse_phdr_total b off : 0 <= off -> off + 32 <= Z.of_nat (length b) -> exists h, parse_phdr b off = Done h.
Proof.
  intros Ho Hl. unfold parse_phdr.
  repeat (match goal with |- context [load32 b ?o] => destruct (load32_total b o) as (? & ->); [lia|lia|]; cbn [mbind outcome_bind] end). eauto.
Qed.

Lemma parse_phdrs_total n b off : 0 <= off -> off + 32 * Z.of_nat n <= Z.of_nat (length b) -> exists l, parse_phdrs n b off = Done l /\ length l = n.
Proof.
  revert off. induction n as [|n IH]; intros off Ho Hl; cbn [parse_phdrs]; [by exists []|].
  destruct (parse_phdr_total b off) as (h & ->); [lia|lia|]. cbn [mbind outcome_bind]. unfold sizeof_Phdr.
  destruct (IH (off + 32)) as (l & -> & Hn); [lia|lia|]. cbn. eexists. split; [done|]. cbn. by rewrite Hn.
Qed.

(** [fseek] and [fread] of [load_elf]. *)
Lemma read_headers (f : FILE) contents mgr offset count size_ :
  stream_ok f -> leads_to (path f) contents mgr -> size f = Z.of_nat (length (contents (disks mgr))) ->
  0 <= offset -> 0 <= count -> 0 <= size_ -> offset + size_ * count <= size f ->
  exists f1 f2, stream_ok f2 /\ path f2 = path f /\ size f2 = size f /\ fseek f (s32 offset) SEEK_SET mgr = Done (0, f1) /\
    fread f1 count size_ mgr = Done (size_ * count, file_bytes (contents (disks mgr)) offset (size_ * count), f2).
Proof.
  intros Hf Hl Hsz Ho Hc Hs Hend. pose proof Hf as [_ _ Hrange _]. pose proof (Z.mul_nonneg_nonneg _ _ Hs Hc).
  destruct (read_part f contents mgr offset (size_ * count)) as (f2 & Hf2 & Hp2 & Hs2 & E); try done.
  destruct (fseek f (s32 offset) SEEK_SET mgr) as [[r f1]| |] eqn:Es; cbn [mbind outcome_bind] in E; try done.
  exists f1, f2. split; [done|]. split; [done|]. split; [done|]. split.
  - unfold fseek in Es. rewrite usable_test in Es by done. change (SEEK_SET =? SEEK_CUR) with false in Es.
    change (SEEK_SET =? SEEK_END) with false in Es. change (SEEK_SET =? SEEK_SET) with true in Es. cbn iota in Es.
    destruct ((0 <=? s32 offset) && (s32 offset <=? size f)); injection Es as <- <-; done.
  - unfold file_bytes. rewrite <- E. unfold fread. by rewrite Z.mul_1_l.
Qed.

(** [load_elf] of a file whose tables lie inside it, with program headers of the usual
    size, gives the header at its start and the program headers that it names, and an open
    stream on the file. *)
Theorem load_elf_reads_headers (name : string) (contents : W -> list Z) mgr (fi : FSM_FILE) (elf p_header section file : Z) (header : Elf32_Ehdr)
    (Hinfo : nvfs_info name mgr = Done fi /\ Ready fi = true) (Hlead : leads_to name contents mgr)
    (Hsize : Size fi = Z.of_nat (length (contents (disks mgr))) /\ 52 <= Size fi < 2 ^ 31)
    (Hheader : parse_ehdr (file_bytes (contents (disks mgr)) 0 52) = Done header)
    (Hphdrs : 0 <= e_phoff header /\ 0 <= e_phnum header /\ e_phentsize header = 32 /\ e_phoff header + 32 * e_phnum header <= Size fi)
    (Hshdrs : 0 <= e_shoff header /\ 0 <= e_shnum header /\ e_shoff header + 40 * e_shnum header <= Size fi) :
  exists phdrs f, load_elf name elf p_header section file mgr = Done (Some (Elf elf header section p_header file phdrs, f), mgr) /\
    parse_phdrs (Z.to_nat (e_phnum header)) (file_bytes (contents (disks mgr)) (e_phoff header) (32 * e_phnum header)) 0 = Done phdrs /\
    length phdrs = Z.to_nat (e_phnum header) /\ stream_ok f /\ path f = name /\ size f = Size fi.
Proof.
  destruct Hinfo as [Hinfo Hready]. destruct Hsize as [Hsz Hrange]. destruct Hphdrs as (Hpo & Hpn & Hps & Hpe). destruct Hshdrs as (Hso & Hsn & Hse).
  set (f0 := File name (Size fi) O_READ true 0 0).
  assert (stream_ok f0) as Hf0 by (constructor; cbn; done || lia).
  assert (fopen name O_READ mgr = Done (Some f0, mgr)) as Eo.
  { unfold fopen. rewrite Hinfo. cbn [mbind outcome_bind]. rewrite Hready. cbn [negb andb mbind outcome_bind fst snd orb].
    rewrite Hready. cbn [negb orb]. change (O_READ =? 0) with false. cbn iota. rewrite u32_small by lia. done. }
  unfold load_elf. rewrite Eo. cbn [mbind outcome_bind of_option]. change (err f0 =? 0) with true. cbn [negb].
  assert (exists f1, stream_ok f1 /\ path f1 = name /\ size f1 = Size fi /\
    fread f0 1 sizeof_Ehdr mgr = Done (52, file_bytes (contents (disks mgr)) 0 52, f1)) as (f1 & Hf1 & Hp1 & Hs1 & E1).
  { pose proof (fread_contents f0 contents mgr 52 Hf0 Hlead ltac:(lia)) as E. cbn [pos f0] in E.
    assert (fread f0 1 sizeof_Ehdr mgr = fread f0 52 1 mgr) as -> by done. rewrite E. fold (file_bytes (contents (disks mgr)) 0 52).
    rewrite (file_bytes_length _ 0 52) by lia. change (0 <? Z.of_nat (Z.to_nat 52)) with true. cbn iota. eexists. split; [|split; [|split; [|done]]]; [|done|done]. constructor; cbn; try done; rewrite ?u32_small; lia. }
  rewrite E1. cbn [mbind outcome_bind]. rewrite read_into_full by (done || (rewrite file_bytes_length by lia; done)). cbn [mbind outcome_bind].
  rewrite Hheader. cbn [mbind outcome_bind].
  destruct (read_headers f1 contents mgr (e_phoff header) (e_phnum header) (e_phentsize header)) as (f2 & f3 & Hf3 & Hp3 & Hs3 & -> & E3);
    try done; try (by rewrite Hp1); try (rewrite ?Hps; lia). cbn [mbind outcome_bind]. rewrite E3. cbn [mbind outcome_bind].
  rewrite Hps in *. rewrite read_into_full by (lia || (rewrite file_bytes_length by lia; done)). cbn [mbind outcome_bind].
  destruct (parse_phdrs_total (Z.to_nat (e_phnum header)) (file_bytes (contents (disks mgr)) (e_phoff header) (32 * e_phnum header)) 0)
    as (phdrs & -> & Hlen); [lia|rewrite file_bytes_length by lia; lia|]. cbn [mbind outcome_bind].
  destruct (read_headers f3 contents mgr (e_shoff header) (e_shnum header) sizeof_Shdr) as (f4 & f5 & Hf5 & Hp5 & Hs5 & -> & E5);
    try done; try (by rewrite Hp3, Hp1); try (rewrite Hp3; exact Hlead); try (unfold sizeof_Shdr; lia). cbn [mbind outcome_bind]. rewrite E5. cbn [mbind outcome_bind].
  rewrite read_into_full by (unfold sizeof_Shdr; lia || (rewrite file_bytes_length by (unfold sizeof_Shdr; lia); done)). cbn [mbind outcome_bind].
  exists phdrs, f5. split; [done|]. split; [done|]. split; [done|]. split; [done|]. split; congruence.
Qed.

(** A program that is not there stops the machine: the null pointer that [fopen] gives is
    followed. *)
Theorem spawn_missing_file (exit_entry : Z) (name : string) (args : list Z) (b : program_blocks) (w : world F W) fi
    (Hinfo : nvfs_info name (fs (fsys w)) = Done fi) (Hmissing : Ready fi = false) :
  spawn_prog exit_entry name args b w = Fault.
Proof.
  unfold spawn_prog, load_elf, fopen. rewrite Hinfo. cbn [mbind outcome_bind]. rewrite Hmissing.
  change (Z.land O_READ O_CREATE =? 0) with true. cbn [negb andb mbind outcome_bind fst snd]. by rewrite Hmissing.
Qed.

(** A segment that starts inside a page gets one page more than frames: the page behind is
    mapped to the frame behind the run, whoever owns it. *)
Theorem unaligned_segment_maps_foreign_frame m d p o k n fr
    (Hok : space_ok m d) (Hrun : run_taken (frames m) k (Z.of_nat n) fr) (Hn : (0 < n)%nat)
    (Ho : 0 < o < 4096) (Hp : 0 <= p /\ p + Z.of_nat n + 1 <= 1023 * 1024) (Hk : k + Z.of_nat n + 1 < 2 ^ 20)
    (Hleft : (n + 1 <= frames_left fr)%nat) :
  exists m1, map_pages (set_frames fr m) (get_kernel_page_directory m) (4096 * k) (4096 * p + o) (u32 (Z.of_nat n * PAGE_SIZE))
      (Z.lor PAGE_USER PAGE_WRITEABLE) = Done m1 /\
    entry m1 d (p + Z.of_nat n) = pte_value (4096 * (k + Z.of_nat n)) 6.
Proof.
  pose proof (run_taken_space m d k _ fr Hok Hrun) as Hok0. pose proof (rt_range _ _ _ _ Hrun) as Hkr.
  destruct (map_pages_spec (S n) (set_frames fr m) d k 0 p o (Z.of_nat n * PAGE_SIZE) (Z.lor PAGE_USER PAGE_WRITEABLE))
    as (m1 & E & _ & _ & _ & Hent); try done; try (unfold PAGE_SIZE; lia); [cbn; lia|].
  rewrite Z.add_0_r in E. rewrite u32_small by (unfold PAGE_SIZE; lia). exists m1. split; [exact E|].
  rewrite Hent by (unfold ordinary; lia). destruct (Z.leb_spec p (p + Z.of_nat n)), (Z.ltb_spec (p + Z.of_nat n) (p + Z.of_nat (S n))); try lia.
  cbn [andb]. by replace (p + Z.of_nat n - p) with (Z.of_nat n) by lia.
Qed.

End Starting.

(** ** The physical memory manager hands out such runs *)

Lemma pmm_run_taken (s s' : pmm) k count :
  pmm_inv s -> runs_closed (pages_bitmap s) -> 0 < count < 2 ^ 20 ->
  u32 (used_phys_memory_size s + 4096 * count) < phys_memory_size s ->
  alloc_frames count s = Done (4096 * k, s') -> k <> 0 -> k + count < 2 ^ 20 -> run_taken s k count s'.
Proof.
  intros [Hwf Hz Hu Hm] Hcl Hc Hroom E Hk Hend. cbn [alloc_frames pmm_frames] in E.
  destruct (alloc_multi_cases s count Hwf Hcl Hc Hroom) as [(p & bm' & Hp0 & Hp & Hfree & _ & Hset & Ea)|[Ea _]];
    rewrite Ea in E; injection E as E1 <-; [|lia]. assert (p = k) as -> by lia. clear E1.
  destruct Hset as (Hl & Hb & Hs).
  assert (forall q, 0 <= q -> page_used bm' q = in_run k count q || page_used (pages_bitmap s) q) as Hused by exact Hs.
  assert (0 < k) as Hk0.
  { destruct (decide (k = 0)); lia. }
  constructor; [lia| | | |].
  - constructor; cbn; [by apply (wf_set (in_run k count) s)| |apply u32_range|done].
    rewrite Hused, Hz by lia. apply orb_true_r.
  - intros i Hi. exists (k + i). split; [done|]. split; [lia|]. apply Hfree. lia.
  - intros b. cbn. split.
    + intros (q & -> & Hq & Hf). rewrite Hused in Hf by lia. apply orb_false_iff in Hf as [Hr Hf]. split; [by exists q|].
      intros i Hi E. assert (q = k + i) as -> by lia. unfold in_run in Hr.
      destruct (Z.leb_spec k (k + i)), (Z.ltb_spec (k + i) (k + count)); cbn in Hr; lia || done.
    + intros [(q & -> & Hq & Hf) Hne]. exists q. split; [done|]. split; [done|]. rewrite Hused, Hf, orb_false_r by lia.
      unfold in_run. destruct (Z.leb_spec k q), (Z.ltb_spec q (k + count)); cbn; try done.
      exfalso. apply (Hne (q - k)); lia.
  - intros b. cbn. unfold page_count. by rewrite Hl.
Qed.

(** ** A program *)

(** A header, one program header, four bytes of code; two bytes more of memory. *)
Definition program_file : list Z :=
  [0x7f; 0x45; 0x4c; 0x46; 1; 1; 1; 0; 0; 0; 0; 0; 0; 0; 0; 0] ++ bytes16 2 ++ bytes16 3 ++ bytes32 1 ++ bytes32 0xa002 ++
  bytes32 52 ++ bytes32 0 ++ bytes32 0 ++ bytes16 52 ++ bytes16 32 ++ bytes16 1 ++ bytes16 40 ++ bytes16 0 ++ bytes16 0 ++
  bytes32 1 ++ bytes32 84 ++ bytes32 0xa000 ++ bytes32 0 ++ bytes32 4 ++ bytes32 6 ++ bytes32 5 ++ bytes32 4096 ++
  [1; 2; 3; 4].

Definition program_header : Elf32_Ehdr :=
  Ehdr [0x7f; 0x45; 0x4c; 0x46; 1; 1; 1; 0; 0; 0; 0; 0; 0; 0; 0; 0] 2 3 1 0xa002 52 0 0 52 32 1 40 0 0.
Definition program_segment : Elf32_Phdr := Phdr 1 84 0xa000 0 4 6 5 4096.
Definition program_manager : manager (list Z) := Manager [one_file] [Mount "hd0" "ram"] program_file.

Lemma program_leads : leads_to "hd0:/f" (fun w => w) program_manager.
Proof.
  constructor. exists "hd0"%string, "/f"%string, 0, one_file.
  split; [vm_compute; reflexivity|]. split; [reflexivity|]. apply one_file_law.
Qed.

Lemma load_elf_reads_headers_witness :
  exists phdrs f, load_elf "hd0:/f" 16 32 48 64 program_manager = Done (Some (Elf 16 program_header 48 32 64 phdrs, f), program_manager) /\
    length phdrs = 1%nat.
Proof.
  destruct (load_elf_reads_headers "hd0:/f" (fun w => w) program_manager (FsmFile true 88 TYPE_FILE 7) 16 32 48 64 program_header)
    as (phdrs & f & E & _ & Hl & _).
  - split; vm_compute; reflexivity.
  - exact program_leads.
  - split; [vm_compute; reflexivity|cbn; lia].
  - vm_compute. reflexivity.
  - cbn. lia.
  - cbn. lia.
  - exists phdrs, f. split; [exact E|exact Hl].
Defined.

(** A machine and a scheduler that know nothing of the program. *)
Definition sample_world : world pmm (list Z) :=
  World boot_machine (System program_manager ∅ [] 0) sched0 false.

Lemma spawn_missing_file_witness :
  spawn_prog 0 "cd9:/f" [] (ProgramBlocks 0 0 0 0 0 0 (ThreadMemory 0 0 0 0) 0 []) sample_world = Fault.
Proof.
  destruct (nvfs_info "cd9:/f" program_manager) as [fi| |] eqn:E; vm_compute in E; try discriminate.
  apply (spawn_missing_file _ _ _ _ sample_world fi); injection E as <-; reflexivity.
Defined.

Definition program_stream : FILE := File "hd0:/f" 88 1 true 0 0.
Definition frames_before : pmm := Pmm [255; 0; 0; 0] 0x8000 0x20000.
Definition frames_after : pmm := Pmm [255; 1; 0; 0] 0x9000 0x20000.

Lemma process_machine_frames m : process_machine = Done m -> frames m = frames_before.
Proof.
  intros E. assert (match process_machine with Done m => (pages_bitmap (frames m), used_phys_memory_size (frames m), phys_memory_size (frames m))
    | _ => ([], 0, 0) end = ([255; 0; 0; 0], 0x8000, 0x20000)) as Hf by (vm_compute; reflexivity).
  rewrite E in Hf. destruct (frames m) as [bm u s]. cbn in Hf. injection Hf as -> -> ->. reflexivity.
Qed.

Lemma sample_run m : process_machine = Done m -> space_ok m 0x6000 ->
  alloc_frames (pagecount program_segment) (frames m) = Done (4096 * 8, frames_after) /\
  run_taken (frames m) 8 (pagecount program_segment) frames_after.
Proof.
  intros E Hok. pose proof (process_machine_frames m E) as Hf.
  assert (alloc_frames (pagecount program_segment) (frames m) = Done (4096 * 8, frames_after)) as Ha by (rewrite Hf; vm_compute; reflexivity).
  split; [exact Ha|]. rewrite Hf in *. pose proof (so_frames _ _ Hok) as Hinv. rewrite Hf in Hinv.
  refine (pmm_run_taken frames_before frames_after 8 (pagecount program_segment) Hinv _ _ _ Ha _ _).
  - intros i Hi Hb. cbn in Hb. destruct (Z.to_nat i) as [|[|[|[|n]]]] eqn:Ei; cbn in Hb; try discriminate Hb. clear -Hi Ei. lia.
  - change (pagecount program_segment) with 1. lia.
  - vm_compute. reflexivity.
  - lia.
  - change (pagecount program_segment) with 1. lia.
Qed.

Lemma program_bytes : Forall is_byte program_file.
Proof. unfold is_byte. apply (bool_decide_unpack _). vm_compute. exact I. Qed.

Lemma program_stream_ok : stream_ok program_stream.
Proof. constructor; cbn; done || lia. Qed.


(** The same machine with the program loaded, and two pages for the copy of the tables. *)
Definition loaded_machine : outcome (machine pmm) :=
  m ← process_machine;
  '(_, m) ← load_segment program_segment program_stream program_manager m;
  Done m.

Definition loaded_machine_facts (m : machine pmm) : bool :=
  bool_decide (pages_bitmap (frames m) = [255; 1; 0; 0]) && present (pde m 0x6000 0) &&
  forallb (fun x => pde m 0x6000 x =? 0) (seqZ 1 1022).

Lemma loaded_machine_ok :
  exists m, loaded_machine = Done m /\ space_ok m 0x6000 /\ paging_initialized m = true /\
    segment_at m 0x6000 program_segment 8 (segment_data program_file program_segment) /\
    entry m 0x6000 8 = pte_value 0x10000 2 /\ entry m 0x6000 9 = pte_value 0x11000 2 /\ loaded_machine_facts m = true.
Proof.
  destruct process_machine_ok as (m & E & Hok & Hf & H8 & H9). destruct (sample_run m E Hok) as [Ha Hr].
  assert (paging_initialized m = true) as Hpg.
  { unfold process_machine_facts in Hf. by repeat (apply andb_true_iff in Hf as [Hf _]). }
  destruct (load_segment_spec m 0x6000 program_manager program_stream (fun w => w) program_segment 8 frames_after Hok Hpg eq_refl eq_refl)
    as (f' & m' & El & Hok' & Hpg' & Hs & Hent & _).
  - split; apply Z.leb_le; vm_compute; reflexivity.
  - cbn. lia.
  - split; [exact program_stream_ok|]. split; [exact program_leads|reflexivity].
  - cbn. lia.
  - exact program_bytes.
  - exact Ha.
  - exact Hr.
  - vm_compute. lia.
  - assert (loaded_machine = Done m') as E'.
    { unfold loaded_machine. rewrite (bind_outcome _ _ _ E), (bind_outcome _ _ _ El). reflexivity. }
    assert (forall q, (q = 8 \/ q = 9) -> entry m' 0x6000 q = entry m 0x6000 q) as Hq.
    { intros q Hq. apply Hent; [unfold ordinary; lia|]. unfold page_of_segment. change (p_vaddr program_segment / 4096) with 10. lia. }
    exists m'. split; [exact E'|]. split; [exact Hok'|]. split; [exact Hpg'|]. split; [exact Hs|].
    split; [rewrite Hq; [exact H8|by left]|]. split; [rewrite Hq; [exact H9|by right]|].
    assert (match loaded_machine with Done m => loaded_machine_facts m | _ => false end = true) as Hc by (vm_compute; reflexivity).
    by rewrite E' in Hc.
Qed.

(** Pages 8 and 9 are mapped to frames 16 and 17 that the tables do not use. *)
Lemma loaded_blocks_ok m :
  space_ok m 0x6000 -> loaded_machine_facts m = true -> entry m 0x6000 8 = pte_value 0x10000 2 -> entry m 0x6000 9 = pte_value 0x11000 2 ->
  blocks_ok m 0x6000 8 16 [(9, 17)] /\ used_slots_present m 0x6000.
Proof.
  intros Hok Hf H8 H9. unfold loaded_machine_facts in Hf. apply andb_true_iff in Hf as [[Hfr%bool_decide_eq_true Hp0]%andb_true_iff Hz].
  assert (forall x, 0 < x < 1023 -> pde m 0x6000 x = 0) as Hz'.
  { intros x Hx. apply Z.eqb_eq. rewrite forallb_forall in Hz. apply Hz. apply list_elem_of_In, elem_of_seqZ. lia. }
  assert (forall k, (k = 16 \/ k = 17) -> ~ owned m 0x6000 (4096 * k)) as Hno.
  { intros k Hk Ho. destruct (so_owned _ _ Hok _ Ho) as [_ Hnf]. apply Hnf. exists k. split; [done|]. split; [lia|].
    rewrite Hfr. by destruct Hk as [-> | ->]. }
  split; [constructor|].
  - constructor; [unfold ordinary; lia|lia|exists 2; split; [lia|rewrite H8; reflexivity]|apply Hno; by left].
  - constructor; [|constructor]. constructor; cbn [fst snd]; [unfold ordinary; lia|lia|exists 2; split; [lia|rewrite H9; reflexivity]|apply Hno; by right].
  - cbn. repeat (apply list.NoDup_cons; split); [|by intros ?%elem_of_nil|constructor]. by intros Hin%list_elem_of_singleton.
  - assert (slots m 0x6000 = [0]) as ->; [|cbn; lia]. unfold slots. rewrite (seqZ_cons 0 1023) by lia.
    rewrite list.filter_cons_True by (intros E0; rewrite E0 in Hp0; done). f_equal.
    destruct (filter _ (seqZ (Z.succ 0) _)) as [|x l] eqn:Ef; [done|]. exfalso.
    pose proof (list_elem_of_here x l) as Hin. rewrite <- Ef in Hin. apply list_elem_of_filter in Hin as [Hx0 Hx].
    apply elem_of_seqZ in Hx. apply Hx0, Hz'. lia.
  - intros x Hx Hx0. destruct (decide (x = 0)) as [->|]; [done|]. exfalso. apply Hx0, Hz'. lia.
Qed.


(** The whole of [spawn_prog] on this program: process 2 in its own space. *)
Definition spawned : outcome (Z * world pmm (list Z)) :=
  m ← process_machine;
  spawn_prog 0x1234 "hd0:/f" [5; 6]
    (ProgramBlocks 16 32 48 64 1024 80 (ThreadMemory 2048 96 112 0x20000) 0x8000 [0x9000])
    (World m (System program_manager ∅ [] 0) sched0 false).

Example spawned_runs :
  match spawned with
  | Done (pid, w) =>
      (pid, vread8 (memory w) 0xa000, vread8 (in_space 0x10000 (memory w)) 0xa003,
       t_state <$> threads (tasks w) !! 2048, t_entry_point <$> threads (tasks w) !! 2048, page_dir <$> processes (tasks w) !! 1024)
  | _ => (0, Fault, Fault, None, None, None)
  end = (2, Fault, Done 4, Some CREATED, Some 0xa002, Some 0x10000).
Proof. vm_compute. reflexivity. Qed.
