(* ===== verification/Media.v ===== *)
(** * Memory disks and the media notifier (kernel/src/drv/disk/memdisk.c, initrd.c, media_notifier.c)

    A memory disk is a part of memory behind the functions that the disk manager calls.
    The media notifier asks every disk for the status of its medium twice a second and
    keeps the mounts of Fs.v up to date.  The disk manager is Rust: the list of its disks,
    their answers and the search for partitions are parameters. *)
From Stdlib Require Import ZArith Lia.
From stdpp Require Import base list numbers strings.
From S2P Require Import Prelude Bytes Ports Ide Fs.

#[local] Open Scope Z_scope.

(** ** memdisk.c *)

Record memdisk_t := Memdisk { memory : Z; size : Z }.

(** The bytes that go to the buffer; [mem] is the memory of the kernel, [size_t] has 32
    bits and [uint64_t] 64. *)
Definition memdisk_diskman_read (disk : memdisk_t) (mem : list Z) (location size_ : Z) : outcome (Z * list Z) :=
  let end_offset := u32 (u32 location + size_) in
  let n := if size disk <? end_offset then u32 (size disk - u32 location) else size_ in
  data ← get_bytes mem (u32 (memory disk + u32 location)) (u32 n);
  Done (n, data).

(** [while(1);] *)
Definition memdisk_diskman_write (disk : memdisk_t) (location size_ : Z) : outcome Z := Hang.

(** The answer and the buffer; no buffer is the null pointer. *)
Definition memdisk_diskman_control (disk : memdisk_t) (command : Z) (buffer : option (list Z))
    : outcome (Z * option (list Z)) :=
  let fill := fun need bytes =>
    match buffer with
    | None => Done (-1, buffer)
    | Some b => if Z.of_nat (length b) <? need then Done (-1, buffer) else b ← put_bytes b 0 bytes; Done (-1, Some b)
    end in
  if command =? DISKMAN_COMMAND_GET_DRIVE_TYPE then fill 4 (bytes32 0)
  else if command =? DISKMAN_COMMAND_GET_MEDIUM_CAPACITY then fill 12 (bytes64 (size disk) ++ bytes32 1)
  else if command =? DISKMAN_COMMAND_GET_MEDIUM_STATUS then fill 4 (bytes32 DISKMAN_MEDIUM_ONLINE)
  else Done (-1, buffer).

(** What is registered with the disk manager: its identifier and the disk.  [kcalloc_] is
    the block that the heap would give, 0 when it has none; the disk manager makes
    identifiers from prefixes. *)
Definition memdisk_create (diskman_generate_new_id : string -> string) (kcalloc_ : Z) (preffered_id : option string) (mem size_ : Z)
    : option (string * memdisk_t) :=
  if size_ =? 0 then None
  else
    let mem := if mem =? 0 then kcalloc_ else mem in
    if mem =? 0 then None
    else
      let preffered_id := match preffered_id with None => diskman_generate_new_id "mem" | Some id => id end in
      Some (diskman_generate_new_id preffered_id, Memdisk mem size_).

Definition initrd_tarfs (diskman_generate_new_id : string -> string) (kcalloc_ : Z) (start end_ : Z) : option (string * memdisk_t) :=
  if end_ <? start then None else memdisk_create diskman_generate_new_id kcalloc_ (Some "rd"%string) start (u32 (end_ - start)).

(** ** media_notifier.c *)

Section Notifier.
Context {W : Type}.
(** The disks in order; what a disk answers to [GET_MEDIUM_STATUS], with the word that it
    leaves in the buffer; the search for partitions. *)
Variable diskman_disk_ids : W -> list string.
Variable medium_status : W -> string -> Z * Z.
Variable diskman_reload_partitions_for : string -> W -> W.

(** An index without a disk gives a null pointer as name, to which the disk manager
    answers -1. *)
Definition ask (i : nat) (w : W) : Z * Z :=
  match diskman_disk_ids w !! i with Some name => medium_status w name | None => (-1, 0) end.

Definition reload (name : string) (s : manager W) : manager W :=
  with_disks (diskman_reload_partitions_for name (disks s)) s.

Definition notifier_step (i : nat) (statuses : list Z) (s : manager W) : outcome (list Z * manager W) :=
  let (resp, status) := ask i (disks s) in
  if resp =? -1 then statuses ← array_set statuses (Z.of_nat i) 0; Done (statuses, s)
  else
    old ← array_get statuses (Z.of_nat i);
    if old =? status then Done (statuses, s)
    else
      name ← of_option (diskman_disk_ids (disks s) !! i);
      s ← (if status =? DISKMAN_MEDIUM_ONLINE then fsm_dpm_update diskman_disk_ids (Some name) (reload name s)
           else if status =? DISKMAN_MEDIUM_OFFLINE then s ← fsm_detach_fs name s; Done (reload name s)
           else Done s);
      statuses ← array_set statuses (Z.of_nat i) (u8 status);
      Done (statuses, s).

Fixpoint notifier_steps (n i : nat) (statuses : list Z) (s : manager W) : outcome (list Z * manager W) :=
  match n with
  | O => Done (statuses, s)
  | S n' => '(statuses, s) ← notifier_step i statuses s; notifier_steps n' (S i) statuses s
  end.

Definition real_count (s : manager W) : nat := Nat.min (length (diskman_disk_ids (disks s))) 1024.

(** The number of disks is taken once, at the start. *)
Definition notifier_loop (statuses : list Z) (s : manager W) : outcome (list Z * manager W) :=
  notifier_steps (real_count s) 0 statuses s.

Fixpoint load_steps (n i : nat) (statuses : list Z) (w : W) : outcome (list Z) :=
  match n with
  | O => Done statuses
  | S n' =>
      let (resp, status) := ask i w in
      statuses ← array_set statuses (Z.of_nat i) (if resp =? -1 then 0 else u8 status);
      load_steps n' (S i) statuses w
  end.

Definition load_statuses (statuses : list Z) (s : manager W) : outcome (list Z) :=
  load_steps (real_count s) 0 statuses (disks s).

(** [notifier_thread] up to round [n]; [outside] is what else happens meanwhile. *)
Fixpoint notifier_rounds (n : nat) (outside : manager W -> manager W) (statuses : list Z) (s : manager W)
    : outcome (list Z * manager W) :=
  match n with
  | O => Done (statuses, s)
  | S n' => '(statuses, s) ← notifier_loop statuses s; notifier_rounds n' outside statuses (outside s)
  end.

Definition notifier_thread (n : nat) (outside : manager W -> manager W) (s : manager W) : outcome (list Z * manager W) :=
  old_statuses ← load_statuses (replicate 1024 0) s; notifier_rounds n outside old_statuses s.

End Notifier.

(** ** Memory disks are arrays of bytes *)

Lemma get_bytes_inside mem off n : 0 <= off -> 0 <= n -> off + n <= Z.of_nat (length mem) ->
  get_bytes mem off n = Done (take (Z.to_nat n) (drop (Z.to_nat off) mem)).
Proof. intros Ho Hn Hl. unfold get_bytes. destruct (Z.ltb_spec off 0), (Z.ltb_spec n 0), (Z.ltb_spec (Z.of_nat (length mem)) (off + n)); cbn [orb]; done || lia. Qed.

(** The bytes of the disk. *)
Definition disk_bytes (disk : memdisk_t) (mem : list Z) : list Z := take (Z.to_nat (size disk)) (drop (Z.to_nat (memory disk)) mem).

(** A read that starts inside a memory disk gives the bytes asked for, as far as the disk
    has them, and answers their number. *)
Theorem memdisk_read_gives_bytes (disk : memdisk_t) (mem : list Z) (location n : Z)
    (Hdisk : 0 <= memory disk /\ 0 <= size disk /\ memory disk + size disk <= Z.of_nat (length mem) < 2 ^ 32)
    (Hread : 0 <= location <= size disk /\ 0 <= n /\ location + n < 2 ^ 32) :
  let got := take (Z.to_nat n) (drop (Z.to_nat location) (disk_bytes disk mem)) in
  memdisk_diskman_read disk mem location n = Done (Z.of_nat (length got), got).
Proof.
  intros got. assert (Z.of_nat (length got) = Z.min n (size disk - location)) as Hlen.
  { unfold got, disk_bytes. rewrite length_take, length_drop, length_take, length_drop. lia. }
  unfold memdisk_diskman_read. rewrite (u32_small location), (u32_small (location + n)), (u32_small (memory disk + location)) by lia.
  assert ((if size disk <? location + n then u32 (size disk - location) else n) = Z.of_nat (length got)) as ->.
  { rewrite Hlen. destruct (Z.ltb_spec (size disk) (location + n)); [rewrite u32_small by lia|]; lia. }
  rewrite u32_small, get_bytes_inside by lia. cbn [mbind outcome_bind]. do 2 f_equal.
  unfold got, disk_bytes. rewrite length_take, length_drop, length_take, length_drop.
  apply list_eq. intros i. destruct (decide (i < Z.to_nat n `min` (Z.to_nat (size disk) - Z.to_nat location))%nat).
  - rewrite !lookup_take_lt by lia. rewrite !lookup_drop, lookup_take_lt, lookup_drop by lia. f_equal. lia.
  - rewrite (lookup_take_ge (drop _ mem)) by lia. destruct (decide (i < Z.to_nat n)%nat); [|by rewrite lookup_take_ge by lia].
    rewrite lookup_take_lt by lia. by rewrite lookup_drop, lookup_take_ge by lia.
Qed.

(** A read behind the end is taken for one of almost 4 GiB. *)
Theorem memdisk_read_behind_end (disk : memdisk_t) (mem : list Z) (location n : Z)
    (Hdisk : 0 <= size disk) (Hbehind : size disk < location) (Hread : 0 <= n /\ location + n < 2 ^ 32) :
  memdisk_diskman_read disk mem location n =
    let m := 2 ^ 32 + size disk - location in
    data ← get_bytes mem (u32 (memory disk + location)) m; Done (m, data).
Proof.
  unfold memdisk_diskman_read. rewrite (u32_small location), (u32_small (location + n)) by lia.
  destruct (Z.ltb_spec (size disk) (location + n)); [|lia].
  assert (u32 (size disk - location) = 2 ^ 32 + size disk - location) as ->.
  { unfold u32. rewrite <- (Z_mod_plus_full _ 1). rewrite Z.mod_small; lia. }
  by rewrite (u32_small (2 ^ 32 + size disk - location)) by lia.
Qed.

(** Whatever is asked of a memory disk, the answer is the one for failure. *)
Theorem memdisk_control_fails (disk : memdisk_t) command buffer r b :
  memdisk_diskman_control disk command buffer = Done (r, b) -> r = -1.
Proof.
  unfold memdisk_diskman_control. intros E.
  repeat (destruct (_ =? _) in E); try (destruct buffer as [l|]; [destruct (_ <? _) in E; [|destruct (put_bytes _ _ _)]|]);
    cbn in E; try discriminate E; by injection E.
Qed.

(** ** The notifier keeps the mounts up to date *)

Section Notified.
Context {W : Type}.
Variable diskman_disk_ids : W -> list string.
Variable medium_status : W -> string -> Z * Z.
Variable diskman_reload_partitions_for : string -> W -> W.
Abbreviation ids := diskman_disk_ids.
Abbreviation ask := (ask ids medium_status).
Abbreviation step := (notifier_step ids medium_status diskman_reload_partitions_for).

(** The disks, what they answer and what the file systems find on them. *)
Record same_disks (l : list (FilesystemHandler W)) (w w' : W) : Prop := SameDisks {
  sd_ids : ids w' = ids w;
  sd_status : forall d, medium_status w' d = medium_status w d;
  sd_detect : forall h d, h ∈ l -> Detect h d w' = Detect h d w
}.

(** Looking for partitions finds none that were not known. *)
Definition no_new_partitions (l : list (FilesystemHandler W)) : Prop :=
  forall name w, same_disks l w (diskman_reload_partitions_for name w).

Lemma same_disks_refl l w : same_disks l w w.
Proof. by constructor. Qed.

Lemma same_disks_trans l w1 w2 w3 : same_disks l w1 w2 -> same_disks l w2 w3 -> same_disks l w1 w3.
Proof.
  intros [I1 S1 D1] [I2 S2 D2]. constructor; [congruence|intros d; by rewrite S2|intros h d Hh; rewrite D2, D1; done].
Qed.

Lemma same_ask l w w' i : same_disks l w w' -> ask i w' = ask i w.
Proof. intros [I S _]. unfold Media.ask. rewrite I. destruct (ids w !! i); [apply S|done]. Qed.

Lemma same_owner l w w' d : same_disks l w w' -> owner l d w' = owner l d w.
Proof.
  intros [_ _ D]. induction l as [|h l IH]; [done|]. cbn [owner]. rewrite D by apply list_elem_of_here.
  destruct (_ =? 1); [done|]. apply IH. intros x d' Hx. apply D. by apply list_elem_of_further.
Qed.

(** The file system of a disk after a round, from the status that was known and the
    answer. *)
Definition mount_after (s : manager W) (name : string) (known : Z) (answer : Z * Z) : option string :=
  if (fst answer =? -1) || (known =? snd answer) then fsm_get_disk_filesystem name s
  else if snd answer =? DISKMAN_MEDIUM_ONLINE then Name <$> owner (registered_filesystems s) name (disks s)
  else if snd answer =? DISKMAN_MEDIUM_OFFLINE then None
  else fsm_get_disk_filesystem name s.

Definition status_after (answer : Z * Z) : Z := if fst answer =? -1 then 0 else u8 (snd answer).

Definition answer_range : Prop := forall w d, fst (medium_status w d) = -1 \/ 0 <= snd (medium_status w d) < 256.

Lemma notifier_step_spec i name statuses (s : manager W) known :
  no_new_partitions (registered_filesystems s) -> answer_range -> one_mount_per_disk s ->
  ids (disks s) !! i = Some name -> statuses !! i = Some known ->
  exists s', step i statuses s = Done (<[i := status_after (ask i (disks s))]> statuses, s') /\
    registered_filesystems s' = registered_filesystems s /\ one_mount_per_disk s' /\
    same_disks (registered_filesystems s) (disks s) (disks s') /\
    forall id, fsm_get_disk_filesystem id s' =
      if decide (id = name) then mount_after s name known (ask i (disks s)) else fsm_get_disk_filesystem id s.
Proof.
  intros Hnp Hrange Hone Hname Hknown. unfold notifier_step, status_after, mount_after.
  assert (ask i (disks s) = medium_status (disks s) name) as Hask by (unfold Media.ask; by rewrite Hname).
  pose proof (Hrange (disks s) name) as Hr. rewrite <- Hask in Hr. destruct (ask i (disks s)) as [resp status]. cbn [fst snd] in *.
  pose proof (lookup_lt_Some _ _ _ Hknown) as Hlt.
  destruct (Z.eqb_spec resp (-1)) as [->|Hresp]; cbn [orb].
  - rewrite array_set_in_range, Nat2Z.id by lia. cbn [mbind outcome_bind]. exists s. split; [done|].
    split; [done|]. split; [done|]. split; [apply same_disks_refl|]. intros id. by destruct (decide (id = name)) as [->|].
  - rewrite (proj2 (array_get_Done statuses (Z.of_nat i) known)) by (rewrite Nat2Z.id; split; [lia|done]). cbn [mbind outcome_bind].
    assert (u8 status = status) as Hu by (apply u8_small; destruct Hr; [done|lia]).
    destruct (Z.eqb_spec known status) as [->|Hne].
    { exists s. rewrite Hu, list_insert_id by done. split; [done|].
      split; [done|]. split; [done|]. split; [apply same_disks_refl|]. intros id. by destruct (decide (id = name)) as [->|]. }
    rewrite Hname. cbn [of_option mbind outcome_bind]. pose proof (Hnp name (disks s)) as Hsame.
    destruct (Z.eqb_spec status DISKMAN_MEDIUM_ONLINE); [|destruct (Z.eqb_spec status DISKMAN_MEDIUM_OFFLINE)].
    + destruct (scan_answers name (reload diskman_reload_partitions_for name s)) as (s' & E & Hf & Hd & Hg & Ho).
      unfold fsm_dpm_update. rewrite E. cbn [mbind outcome_bind]. rewrite array_set_in_range, Nat2Z.id by lia. cbn [mbind outcome_bind].
      exists s'. split; [done|]. split; [done|]. split; [by apply Ho|]. rewrite Hd. split; [done|].
      intros id. rewrite Hg. destruct (decide (id = name)) as [->|]; [|done].
      unfold mounts_of. cbn [reload with_disks registered_filesystems disks]. f_equal. by apply same_owner.
    + rewrite fsm_detach_fs_spec. cbn [mbind outcome_bind]. rewrite array_set_in_range, Nat2Z.id by lia. cbn [mbind outcome_bind].
      eexists. split; [done|]. split; [done|]. split; [by apply unmount_NoDup|]. split; [done|].
      intros id. apply find_mount_unmount.
    + cbn [mbind outcome_bind]. rewrite array_set_in_range, Nat2Z.id by lia. cbn [mbind outcome_bind].
      exists s. split; [done|]. split; [done|]. split; [done|]. split; [apply same_disks_refl|]. intros id. by destruct (decide (id = name)) as [->|].
Qed.

Lemma mount_after_same (s s1 : manager W) name known answer :
  registered_filesystems s1 = registered_filesystems s -> same_disks (registered_filesystems s) (disks s) (disks s1) ->
  fsm_get_disk_filesystem name s1 = fsm_get_disk_filesystem name s -> mount_after s1 name known answer = mount_after s name known answer.
Proof.
  intros Hf Hd Hg. unfold mount_after. rewrite Hg, Hf. by rewrite (same_owner _ _ _ name Hd).
Qed.

Lemma notifier_steps_spec n : forall i statuses (s : manager W),
  no_new_partitions (registered_filesystems s) -> answer_range -> one_mount_per_disk s -> NoDup (ids (disks s)) ->
  (i + n <= length (ids (disks s)))%nat -> (i + n <= length statuses)%nat ->
  exists statuses' s', notifier_steps ids medium_status diskman_reload_partitions_for n i statuses s = Done (statuses', s') /\
    one_mount_per_disk s' /\ length statuses' = length statuses /\
    (forall j, statuses' !! j = if decide (i <= j < i + n)%nat then Some (status_after (ask j (disks s))) else statuses !! j) /\
    (forall j name known, (i <= j < i + n)%nat -> ids (disks s) !! j = Some name -> statuses !! j = Some known ->
       fsm_get_disk_filesystem name s' = mount_after s name known (ask j (disks s))) /\
    (forall id, (forall j, (i <= j < i + n)%nat -> ids (disks s) !! j <> Some id) ->
       fsm_get_disk_filesystem id s' = fsm_get_disk_filesystem id s).
Proof.
  induction n as [|n IH]; intros i statuses s Hnp Hr Hone Hnd Hi Hs; cbn [notifier_steps].
  { exists statuses, s. split; [done|]. split; [done|]. split; [done|]. split; [|split; [|done]].
    - intros j. by rewrite decide_False by lia.
    - intros j name known Hj. lia. }
  destruct (lookup_lt_is_Some_2 (ids (disks s)) i ltac:(lia)) as (name & Hname).
  destruct (lookup_lt_is_Some_2 statuses i ltac:(lia)) as (known & Hknown).
  destruct (notifier_step_spec i name statuses s known Hnp Hr Hone Hname Hknown) as (s1 & E1 & Hf1 & Hone1 & Hd1 & Hg1).
  rewrite E1. cbn [mbind outcome_bind]. pose proof (sd_ids _ _ _ Hd1) as Hids.
  destruct (IH (S i) (<[i:=status_after (ask i (disks s))]> statuses) s1) as (st' & s' & E & Hone' & Hl & Hst & Hm & Ho);
    rewrite ?Hf1, ?Hids, ?length_insert; try done; try lia.
  exists st', s'. split; [done|]. split; [done|]. split; [by rewrite Hl, length_insert|]. split; [|split].
  - intros j. rewrite Hst. rewrite (same_ask _ _ _ j Hd1).
    destruct (decide (S i <= j < S i + n)%nat), (decide (i <= j < i + S n)%nat); try lia; try done.
    + assert (j = i) as -> by lia. by rewrite list_lookup_insert_eq by lia.
    + by rewrite list_lookup_insert_ne by lia.
  - intros j nm kn Hj Hnm Hkn. destruct (decide (j = i)) as [->|Hne].
    + assert (nm = name) as -> by congruence. assert (kn = known) as -> by congruence.
      rewrite Ho, Hg1; [by rewrite decide_True|]. intros k Hk Hk'. rewrite Hids in Hk'.
      pose proof (NoDup_lookup _ _ _ _ Hnd Hname Hk'). lia.
    + assert (nm <> name) as Hnn.
      { intros ->. pose proof (NoDup_lookup _ _ _ _ Hnd Hname Hnm). lia. }
      rewrite (Hm j nm kn) by (rewrite ?Hids, ?list_lookup_insert_ne by lia; done || lia).
      rewrite (same_ask _ _ _ j Hd1). apply mount_after_same; [done|done|]. rewrite Hg1. by rewrite decide_False.
  - intros id Hid. rewrite Ho, Hg1.
    + rewrite decide_False; [done|]. intros ->. by apply (Hid i ltac:(lia)).
    + intros j Hj. rewrite Hids. apply Hid. lia.
Qed.


End Notified.

(** ** Witnesses *)

(** Two disks; the answer of each is in the state. *)
Definition two_status (w : list Z) (d : string) : Z * Z :=
  if decide (d = "hd0"%string) then (0, if default 0 (w !! 0%nat) =? 2 then 2 else 0) else (-1, 0).
Definition always_fs : FilesystemHandler (list Z) :=
  Handler "ram" (fun _ _ _ _ _ => (0, [])) (fun _ _ _ _ w => (0, w)) (fun _ _ _ => no_file) (fun _ _ _ => FsmDir true 0 0 0 [])
    (fun _ _ _ w => (0, w)) (fun _ _ _ w => (0, w)) (fun d _ => if decide (d = "hd0"%string) then 1 else 0).
Definition two_disks (w : list Z) : manager (list Z) := Manager [always_fs] [] w.

Lemma memdisk_read_gives_bytes_witness :
  memdisk_diskman_read (Memdisk 2 4) [1; 2; 3; 4; 5; 6; 7] 3 9 = Done (1, [6]).
Proof. exact (memdisk_read_gives_bytes (Memdisk 2 4) [1; 2; 3; 4; 5; 6; 7] 3 9 ltac:(cbn; lia) ltac:(cbn; lia)). Defined.

