(* ===== verification/Input.v ===== *)
(** * Keyboard and mouse (kernel/src/io/keyboard.c, drv/input/ps2_mouse.c; rust/noct-input, noct-ps2)

    The keyboard is a state machine over the key codes that the interrupt handler puts
    into the keyboard buffer; the mouse one over the bytes of its packets.  The buffer and
    the controller are Rust, and translated where the C code calls them. *)
From Stdlib Require Import ZArith Lia.
From stdpp Require Import base list numbers.
From S2P Require Import Prelude Bytes Ports.

#[local] Open Scope Z_scope.

(** ** The keyboard *)

Definition KEYBOARD_STATE_PRESSED : Z := 1.
Definition KEYBOARD_STATE_SHIFT : Z := 2.
Definition KEYBOARD_STATE_CTRL : Z := 4.

Definition KEY_LSHIFT : Z := 42.
Definition KEY_LCTRL : Z := 29.
Definition KEY_LEFT : Z := 75.
Definition KEY_RIGHT : Z := 77.
Definition KEY_UP : Z := 72.
Definition KEY_DOWN : Z := 80.
Definition KEY_DELETE : Z := 83.

(** The rest of the 128 entries is zero. *)
Definition layout (l : list Z) : list Z := l ++ replicate (128 - length l) 0.

Definition keyboard_layout : list Z := layout
  [0; 0; 49; 50; 51; 52; 53; 54; 55; 56; 57; 48; 45; 61; 127; 0;
   113; 119; 101; 114; 116; 121; 117; 105; 111; 112; 91; 93; 10; 0; 97; 115;
   100; 102; 103; 104; 106; 107; 108; 59; 39; 96; 0; 92; 122; 120; 99; 118;
   98; 110; 109; 44; 46; 47; 0; 42; 0; 32].

Definition shifted_keyboard_layout : list Z := layout
  [0; 0; 33; 64; 35; 36; 37; 94; 38; 42; 40; 41; 95; 43; 127; 0;
   81; 87; 69; 82; 84; 89; 85; 73; 79; 80; 123; 125; 0; 0; 65; 83;
   68; 70; 71; 72; 74; 75; 76; 58; 34; 126; 0; 124; 90; 88; 67; 86;
   66; 78; 77; 60; 62; 63; 0; 42; 0; 32].

Definition set_flag (on : bool) (flag states : Z) : Z :=
  if on then Z.lor states flag else Z.ldiff states flag.
Definition flag_set (flag states : Z) : bool := negb (Z.land states flag =? 0).

(** The character, and [keyboard_states] afterwards. *)
Definition parse_char (key states : Z) : outcome (Z * Z) :=
  let pressed := negb (Z.testbit key 7) in
  let states := set_flag pressed KEYBOARD_STATE_PRESSED states in
  let keycode := Z.land key 0x7F in
  let states :=
    if keycode =? KEY_LSHIFT then set_flag pressed KEYBOARD_STATE_SHIFT states
    else if keycode =? KEY_LCTRL then set_flag pressed KEYBOARD_STATE_CTRL states
    else states in
  if pressed && negb (keycode =? KEY_LSHIFT) && negb (keycode =? KEY_LCTRL) && negb (keycode =? KEY_LEFT)
     && negb (keycode =? KEY_RIGHT) && negb (keycode =? KEY_UP) && negb (keycode =? KEY_DOWN)
     && negb (keycode =? KEY_DELETE) && (256 <=? key)
  then Done (0, states)
  else
    character ←
      (if negb pressed then Done 0
       else if keycode =? KEY_LSHIFT then Done 0
       else if keycode =? KEY_LCTRL then Done 0
       else if keycode =? KEY_LEFT then Done 0x00445b1b
       else if keycode =? KEY_RIGHT then Done 0x00435b1b
       else if keycode =? KEY_UP then Done 0x00415b1b
       else if keycode =? KEY_DOWN then Done 0x00425b1b
       else if keycode =? KEY_DELETE then Done 0x7e335b1b
       else array_get (if flag_set KEYBOARD_STATE_SHIFT states then shifted_keyboard_layout else keyboard_layout) keycode);
    let ctrl := flag_set KEYBOARD_STATE_CTRL states in
    if ctrl && (character =? 115) then Done (0x13, states)
    else if ctrl && (character =? 113) then Done (0x11, states)
    else if ctrl && (character =? 111) then Done (0x0f, states)
    else Done (character, states).

(** The keyboard buffer (rust/noct-input/src/lib.rs): keys are taken from the end that
    they are put at. *)
Definition keyboard_buffer_put (character : Z) (buffer : list Z) : list Z := buffer ++ [character].
Definition keyboard_buffer_get_raw (buffer : list Z) : option (Z * list Z) :=
  match rev buffer with c :: rest => Some (c, rev rest) | [] => None end.
Definition keyboard_buffer_get_or_nothing (buffer : list Z) : Z * list Z :=
  match keyboard_buffer_get_raw buffer with Some r => r | None => (0, buffer) end.

(** [keyboard_buffer_get] waits until a key is there; [typed] are the bursts of keys that
    come while it waits, one for each [task_yield]. *)
Fixpoint keyboard_buffer_get (typed : list (list Z)) (buffer : list Z) : outcome (Z * list Z * list (list Z)) :=
  match keyboard_buffer_get_raw buffer with
  | Some (c, buffer') => Done (c, buffer', typed)
  | None =>
      match typed with
      | [] => Hang
      | burst :: typed' => keyboard_buffer_get typed' (buffer ++ burst)
      end
  end.

(** Every key that is taken was typed, which bounds the rounds. *)
Fixpoint getchar_loop (fuel : nat) (typed : list (list Z)) (buffer : list Z) (states : Z)
    : outcome (Z * list Z * list (list Z) * Z) :=
  match fuel with
  | O => Hang
  | S fuel' =>
      '(key, buffer, typed) ← keyboard_buffer_get typed buffer;
      '(ch, states) ← parse_char key states;
      if negb (ch =? 0) then Done (ch, buffer, typed, states) else getchar_loop fuel' typed buffer states
  end.

Definition getchar (typed : list (list Z)) (buffer : list Z) (states : Z) : outcome (Z * list Z * list (list Z) * Z) :=
  getchar_loop (S (length (buffer ++ concat typed))) typed buffer states.

(** ** The controller (rust/noct-ps2/src/controller.rs) *)

Definition PS2_DATA_PORT : Z := 0x60.
Definition PS2_STATE_REG : Z := 0x64.

Section Controller.
Context `{PortIO D}.
Variable polls : nat.

Fixpoint wait_empty (n : nat) : IO D unit :=
  match n with
  | O => hang
  | S n' => s ← inb PS2_STATE_REG; if Z.land s 2 =? 0 then mret tt else wait_empty n'
  end.
Definition ps2_in_wait_until_empty : IO D unit := wait_empty polls.

Fixpoint wait_full (n : nat) : IO D unit :=
  match n with
  | O => hang
  | S n' => s ← inb PS2_STATE_REG; if Z.land s 1 =? 0 then wait_full n' else mret tt
  end.
Definition ps2_out_wait_until_full : IO D unit := wait_full polls.

Definition ps2_read : IO D Z := _ ← ps2_out_wait_until_full; inb PS2_DATA_PORT.
Definition ps2_write (byte : Z) : IO D unit := _ ← ps2_in_wait_until_empty; outb PS2_DATA_PORT byte.

Definition ps2_read_configuration_byte : IO D Z :=
  _ ← ps2_in_wait_until_empty; _ ← outb PS2_STATE_REG 0x20; ps2_read.
Definition ps2_write_configuration_byte (byte : Z) : IO D unit :=
  _ ← ps2_in_wait_until_empty; _ ← outb PS2_STATE_REG 0x60; ps2_write byte.

End Controller.

(** ** The mouse *)

Record dev_ps2m_mouse_packet := MousePacket { movement_x : Z; movement_y : Z; button_l : Z; button_m : Z; button_r : Z }.

Record mouse := Mouse {
  mouse_ready : Z;
  mouse_x : Z; mouse_y : Z;
  mouse_ox : Z; mouse_oy : Z;
  mouse_b1 : Z; mouse_b2 : Z; mouse_b3 : Z; mouse_b4 : Z; mouse_b5 : Z;
  mouse_wheel : Z;
  ps2m_buffer : dev_ps2m_mouse_packet;
  recbyte : Z;
  mousebuf : list Z
}.

Definition with_position (x y : Z) (m : mouse) : mouse :=
  Mouse (mouse_ready m) x y (mouse_ox m) (mouse_oy m) (mouse_b1 m) (mouse_b2 m) (mouse_b3 m) (mouse_b4 m) (mouse_b5 m)
    (mouse_wheel m) (ps2m_buffer m) (recbyte m) (mousebuf m).
Definition with_packet (n : Z) (buf : list Z) (m : mouse) : mouse :=
  Mouse (mouse_ready m) (mouse_x m) (mouse_y m) (mouse_ox m) (mouse_oy m) (mouse_b1 m) (mouse_b2 m) (mouse_b3 m) (mouse_b4 m)
    (mouse_b5 m) (mouse_wheel m) (ps2m_buffer m) n buf.

Definition isMouseInit (m : mouse) : bool := mouse_ready m =? 1.

Definition bit (x i : Z) : Z := Z.b2z (Z.testbit x i).

(** [(int16_t) (0xff00 * sign) | buf[i]]; [char] is signed. *)
Definition movement (sign byte : Z) : Z := Z.lor (s16 (0xff00 * sign)) (s8 byte).

Definition mouse_parse_packet (buf : list Z) (has_wheel has_5_buttons : bool) (m : mouse) : outcome mouse :=
  flags ← array_get buf 0;
  if Z.testbit flags 6 || Z.testbit flags 7 || negb (Z.testbit flags 3) then Done m
  else
    bx ← array_get buf 1;
    by_ ← array_get buf 2;
    let offx := movement (bit flags 4) bx in
    let offy := movement (bit flags 5) by_ in
    let x := s32 (mouse_x m + offx) in
    let y := s32 (mouse_y m - offy) in
    let b1 := bit flags 0 in let b2 := bit flags 1 in let b3 := bit flags 2 in
    let moved := negb (b1 =? 0) || negb (b2 =? 0) || negb (b3 =? 0) || negb (x =? mouse_ox m) || negb (y =? mouse_oy m) in
    let m := Mouse (mouse_ready m) x y (if moved then x else mouse_ox m) (if moved then y else mouse_oy m) b1 b2 b3 (mouse_b4 m) (mouse_b5 m)
               (mouse_wheel m) (MousePacket (s16 offx) (s16 offy) b1 b3 b2) (recbyte m) (mousebuf m) in
    if has_wheel then
      b ← array_get buf 3;
      let wheel := s32 (mouse_wheel m + s8 (Z.lor (bit b 3 * 0xf8) (Z.land b 7))) in
      Done (Mouse (mouse_ready m) (mouse_x m) (mouse_y m) (mouse_ox m) (mouse_oy m) (mouse_b1 m) (mouse_b2 m) (mouse_b3 m)
              (if has_5_buttons then bit b 5 else mouse_b4 m) (mouse_b5 m) wheel (ps2m_buffer m) (recbyte m) (mousebuf m))
    else Done m.

Section Mouse.
Context `{PortIO D}.
Variable polls : nat.
Variables getScreenWidth getScreenHeight : Z.

(** The four tests, one after the other. *)
Definition keep_on_screen (m : mouse) : mouse :=
  let x := if mouse_x m <? 0 then 0 else mouse_x m in
  let y := if mouse_y m <? 0 then 0 else mouse_y m in
  let x := if s32 getScreenWidth <? x then s32 getScreenWidth else x in
  let y := if s32 getScreenHeight <? y then s32 getScreenHeight else y in
  with_position x y m.

(** A byte of a packet. *)
Definition mouse_receive (byte : Z) (m : mouse) : outcome mouse :=
  buf ← array_set (mousebuf m) (recbyte m) byte;
  let m := with_packet (recbyte m + 1) buf m in
  if recbyte m =? 3 then
    m ← mouse_parse_packet buf false false (with_packet 0 buf m);
    Done (keep_on_screen m)
  else Done m.

Definition mouse_handler (m : mouse) : IO D mouse :=
  status ← inb 0x64;
  if negb (Z.testbit status 0) || negb (Z.testbit status 5) then mret m
  else byte ← inb 0x60; lift (mouse_receive byte m).

(** [while (_time_out--)]. *)
Fixpoint wait_bit (n : nat) (mask want : Z) : IO D unit :=
  match n with
  | O => mret tt
  | S n' => s ← inb 0x64; if Z.land s mask =? want then mret tt else wait_bit n' mask want
  end.
Definition mouse_wait (a_type : Z) : IO D unit :=
  if a_type =? 0 then wait_bit 100 1 1 else wait_bit 100 2 0.

Definition mouse_write (a_write : Z) : IO D unit :=
  _ ← ps2_in_wait_until_empty polls;
  _ ← outb PS2_STATE_REG 0xD4;
  _ ← ps2_in_wait_until_empty polls;
  outb PS2_DATA_PORT a_write.

Definition mouse_read : IO D Z := _ ← ps2_out_wait_until_full polls; inb PS2_DATA_PORT.

Definition mouse_install (m : mouse) : IO D mouse :=
  status ← ps2_read_configuration_byte polls;
  _ ← ps2_write_configuration_byte polls (Z.lor status 2);
  _ ← mouse_write 0xF6;
  _ ← mouse_read;
  _ ← mouse_write 0xF4;
  _ ← mouse_read;
  mret (with_position (s32 (getScreenWidth / 2)) (s32 (getScreenHeight / 2)) m).

(** Registers [mouse_handler] for interrupt 12. *)
Definition ps2_mouse_install_irq (m : mouse) : mouse :=
  Mouse 1 (mouse_x m) (mouse_y m) (mouse_ox m) (mouse_oy m) (mouse_b1 m) (mouse_b2 m) (mouse_b3 m) (mouse_b4 m) (mouse_b5 m)
    (mouse_wheel m) (ps2m_buffer m) (recbyte m) (mousebuf m).

End Mouse.

Definition mouse_get_x (m : mouse) : Z := u32 (mouse_x m).
Definition mouse_get_y (m : mouse) : Z := u32 (mouse_y m).
Definition mouse_get_b1 (m : mouse) : Z := u8 (mouse_b1 m).
Definition mouse_get_b2 (m : mouse) : Z := u8 (mouse_b2 m).
Definition mouse_get_b3 (m : mouse) : Z := u8 (mouse_b3 m).
Definition mouse_get_b4 (m : mouse) : Z := u8 (mouse_b4 m).
Definition mouse_get_b5 (m : mouse) : Z := u8 (mouse_b5 m).

(** ** Modifier keys *)

Lemma flag_set_set on a b s : (a = b -> a <> 0) -> (a <> b -> Z.land a b = 0) ->
  flag_set a (set_flag on b s) = if decide (a = b) then on else flag_set a s.
Proof.
  intros Ha Hab. unfold flag_set, set_flag. destruct (decide (a = b)) as [<-|Hne].
  - specialize (Ha eq_refl). destruct on.
    + rewrite Z.land_lor_distr_l, Z.land_diag. destruct (Z.eqb_spec (Z.lor (Z.land s a) a) 0) as [E|]; [|done].
      apply Z.lor_eq_0_iff in E as [_ ?]. done.
    + by rewrite Z.land_comm, Z.ldiff_land, Z.land_assoc, (Z.land_comm a s), <- Z.land_assoc, Z.land_lnot_diag, Z.land_0_r.
  - specialize (Hab Hne). destruct on.
    + by rewrite Z.land_lor_distr_l, (Z.land_comm b), Hab, Z.lor_0_r.
    + do 2 f_equal. apply Z.bits_inj'. intros n Hn. rewrite !Z.land_spec, Z.ldiff_spec.
      assert (Z.testbit a n && Z.testbit b n = false) as Hb by (rewrite <- Z.land_spec, Hab; apply Z.bits_0).
      by destruct (Z.testbit s n), (Z.testbit a n), (Z.testbit b n).
Qed.

(** The state after a key. *)
Definition state_after (key states : Z) : Z :=
  let pressed := negb (Z.testbit key 7) in
  let states := set_flag pressed KEYBOARD_STATE_PRESSED states in
  if Z.land key 0x7F =? KEY_LSHIFT then set_flag pressed KEYBOARD_STATE_SHIFT states
  else if Z.land key 0x7F =? KEY_LCTRL then set_flag pressed KEYBOARD_STATE_CTRL states
  else states.

Lemma keycode_range key : 0 <= key -> 0 <= Z.land key 0x7F < 128.
Proof. intros Hk. change 0x7F with (Z.ones 7). rewrite Z.land_ones by lia. by apply Z.mod_pos_bound. Qed.

Lemma layout_length l : (length l <= 128)%nat -> length (layout l) = 128%nat.
Proof. intros Hl. unfold layout. rewrite length_app, length_replicate. lia. Qed.

(** Every key is understood, and changes the state as its code says. *)
Lemma parse_char_total key states : 0 <= key -> exists ch, parse_char key states = Done (ch, state_after key states).
Proof.
  intros Hk. unfold parse_char. cbv zeta. fold (state_after key states). pose proof (keycode_range key Hk) as Hr.
  destruct (_ && (256 <=? key)); [by eexists|].
  assert (exists c, (if negb (negb (Z.testbit key 7)) then Done 0
       else if Z.land key 0x7F =? KEY_LSHIFT then Done 0 else if Z.land key 0x7F =? KEY_LCTRL then Done 0
       else if Z.land key 0x7F =? KEY_LEFT then Done 0x00445b1b else if Z.land key 0x7F =? KEY_RIGHT then Done 0x00435b1b
       else if Z.land key 0x7F =? KEY_UP then Done 0x00415b1b else if Z.land key 0x7F =? KEY_DOWN then Done 0x00425b1b
       else if Z.land key 0x7F =? KEY_DELETE then Done 0x7e335b1b
       else array_get (if flag_set KEYBOARD_STATE_SHIFT (state_after key states) then shifted_keyboard_layout else keyboard_layout)
              (Z.land key 0x7F)) = Done c) as (c & ->).
  { repeat (destruct (_ =? _)); destruct (negb _); try (by eexists). all: apply array_get_in_range.
    all: destruct (flag_set _ _); unfold keyboard_layout, shifted_keyboard_layout; rewrite layout_length by (cbn; lia); lia. }
  cbn [mbind outcome_bind]. repeat (destruct (_ && _)); by eexists.
Qed.

(** Whether a key is held down, by the keys that came. *)
Fixpoint held (code : Z) (keys : list Z) (h : bool) : bool :=
  match keys with
  | [] => h
  | k :: keys' => held code keys' (if Z.land k 0x7F =? code then negb (Z.testbit k 7) else h)
  end.

Lemma state_after_flags key states :
  flag_set KEYBOARD_STATE_SHIFT (state_after key states) = held KEY_LSHIFT [key] (flag_set KEYBOARD_STATE_SHIFT states) /\
  flag_set KEYBOARD_STATE_CTRL (state_after key states) = held KEY_LCTRL [key] (flag_set KEYBOARD_STATE_CTRL states).
Proof.
  unfold state_after, held. cbv zeta.
  destruct (Z.eqb_spec (Z.land key 0x7F) KEY_LSHIFT) as [E|E]; [|destruct (Z.eqb_spec (Z.land key 0x7F) KEY_LCTRL) as [E'|E']];
    rewrite ?E; split; try (change (KEY_LSHIFT =? KEY_LCTRL) with false; cbn iota);
    repeat (rewrite flag_set_set by (vm_compute; congruence)); reflexivity.
Qed.

(** The characters that a sequence of keys gives. *)
Fixpoint run_keys (keys : list Z) (states : Z) : outcome (list Z * Z) :=
  match keys with
  | [] => Done ([], states)
  | k :: keys' =>
      '(ch, states) ← parse_char k states;
      '(text, states) ← run_keys keys' states;
      Done (if ch =? 0 then text else ch :: text, states)
  end.

(** After any sequence of keys, shift (and control) counts as held exactly when the last
    event of that key was a press. *)
Theorem modifiers_follow_keys (keys : list Z) (states : Z) (Hkeys : Forall (fun k => 0 <= k) keys) :
  exists text states', run_keys keys states = Done (text, states') /\
    flag_set KEYBOARD_STATE_SHIFT states' = held KEY_LSHIFT keys (flag_set KEYBOARD_STATE_SHIFT states) /\
    flag_set KEYBOARD_STATE_CTRL states' = held KEY_LCTRL keys (flag_set KEYBOARD_STATE_CTRL states).
Proof.
  revert states. induction Hkeys as [|k keys Hk Hkeys IH]; intros states; cbn [run_keys].
  - by exists [], states.
  - destruct (parse_char_total k states Hk) as (ch & ->). cbn [mbind outcome_bind].
    destruct (IH (state_after k states)) as (text & s' & -> & Hs & Hc). cbn [mbind outcome_bind].
    eexists _, s'. split; [done|]. destruct (state_after_flags k states) as [Es Ec]. rewrite Hs, Hc, Es, Ec. done.
Qed.

Lemma run_keys_app k1 k2 states :
  run_keys (k1 ++ k2) states =
    '(t1, s1) ← run_keys k1 states; '(t2, s2) ← run_keys k2 s1; Done (t1 ++ t2, s2).
Proof.
  revert states. induction k1 as [|k k1 IH]; intros states; cbn [run_keys app].
  - cbn [mbind outcome_bind]. by destruct (run_keys k2 states) as [[t s]| |].
  - destruct (parse_char k states) as [[ch s]| |]; [|done|done]. cbn [mbind outcome_bind]. rewrite IH.
    destruct (run_keys k1 s) as [[t1 s1]| |]; [|done|done]. cbn [mbind outcome_bind].
    destruct (run_keys k2 s1) as [[t2 s2]| |]; [|done|done]. cbn [mbind outcome_bind]. by destruct (ch =? 0).
Qed.

(** ** Typing *)

(** The position of a character in a layout. *)
Fixpoint key_of (c : Z) (l : list Z) (i : Z) : option Z :=
  match l with
  | [] => None
  | x :: l' => if x =? c then Some i else key_of c l' (i + 1)
  end.

Definition press_release (k : Z) : list Z := [k; k + 0x80].

(** The key, if need be between the press and the release of shift. *)
Definition type_char (c : Z) : list Z :=
  match key_of c keyboard_layout 0 with
  | Some k => press_release k
  | None =>
      match key_of c shifted_keyboard_layout 0 with
      | Some k => [KEY_LSHIFT] ++ press_release k ++ [KEY_LSHIFT + 0x80]
      | None => []
      end
  end.

Definition typable (c : Z) : Prop := c = 10 \/ 32 <= c <= 127.

Lemma type_char_spec c : typable c -> run_keys (type_char c) 0 = Done ([c], 0).
Proof.
  intros Hc. set (test := fun c => match run_keys (type_char c) 0 with Done ([x], s) => (x =? c) && (s =? 0) | _ => false end).
  assert (forallb test (10 :: seqZ 32 96) = true) as Ht by (vm_compute; reflexivity).
  rewrite forallb_forall in Ht.
  assert (In c (10 :: seqZ 32 96)) as Hin by (apply list_elem_of_In, elem_of_cons; destruct Hc; [by left|right; apply elem_of_seqZ; lia]).
  specialize (Ht c Hin). unfold test in Ht.
  destruct (run_keys (type_char c) 0) as [[[|x [|y l]] s]| |]; try discriminate Ht.
  apply andb_true_iff in Ht as [->%Z.eqb_eq ->%Z.eqb_eq]. done.
Qed.

(** Every text of printable ASCII characters, delete and line feeds can be typed: the
    keys of its characters, with shift where the layout asks for it, give exactly the text
    and leave no key held. *)
Theorem keyboard_types_text (text : list Z) (Htext : Forall typable text) :
  run_keys (flat_map type_char text) 0 = Done (text, 0).
Proof.
  induction Htext as [|c text Hc Htext IH]; [done|]. cbn [flat_map]. rewrite run_keys_app, type_char_spec by done.
  cbn [mbind outcome_bind]. by rewrite IH.
Qed.

(** The keys that give no character. *)
Definition silent (keys : list Z) (states states' : Z) : Prop := run_keys keys states = Done ([], states').

Lemma buffer_get_one k typed : keyboard_buffer_get ([k] :: typed) [] = Done (k, [], typed).
Proof. cbn. by destruct typed. Qed.

(** C28: a reader that waits in [getchar] gets the first character that the keys give, when
    they come one at a time: keys without a character are passed over. *)
Theorem getchar_gets_first_character (pre : list Z) (key : Z) (post : list Z) (states s1 s2 ch : Z)
    (Hpre : silent pre states s1) (Hkey : parse_char key s1 = Done (ch, s2)) (Hch : ch <> 0) :
  getchar (map (fun k => [k]) (pre ++ key :: post)) [] states = Done (ch, [], map (fun k => [k]) post, s2).
Proof.
  unfold getchar. cbn [app]. assert (length (concat (map (fun k : Z => [k]) (pre ++ key :: post))) = length (pre ++ key :: post)) as ->.
  { generalize (pre ++ key :: post). intros l. induction l as [|x l IH]; [done|]. cbn. by rewrite IH. }
  rewrite length_app. cbn [length]. revert states Hpre. induction pre as [|k pre IH]; intros states Hpre.
  - injection Hpre as ->. cbn [app map length plus getchar_loop]. rewrite buffer_get_one. cbn [mbind outcome_bind]. rewrite Hkey.
    cbn [mbind outcome_bind]. by destruct (Z.eqb_spec ch 0).
  - unfold silent in Hpre. cbn [run_keys] in Hpre. cbn [app map length plus getchar_loop]. rewrite buffer_get_one. cbn [mbind outcome_bind].
    destruct (parse_char k states) as [[c s]| |]; [|done|done]. cbn [mbind outcome_bind] in *.
    destruct (run_keys pre s) as [[t s']| |] eqn:E; [|done|done]. cbn [mbind outcome_bind] in Hpre.
    destruct (Z.eqb_spec c 0) as [->|]; [|done]. cbn [negb]. injection Hpre as -> ->. by apply IH.
Qed.

(** Keys that come together are read in reverse. *)
Theorem burst_is_reversed k1 k2 typed : keyboard_buffer_get ([k1; k2] :: typed) [] = Done (k2, [k1], typed).
Proof. cbn. by destruct typed. Qed.

Lemma modifiers_follow_keys_witness :
  let keys := [42; 31; 159; 29; 170; 31; 159] in
  Forall (fun k => 0 <= k) keys /\
  exists text states', run_keys keys 0 = Done (text, states') /\
    flag_set KEYBOARD_STATE_SHIFT states' = false /\ flag_set KEYBOARD_STATE_CTRL states' = true.
Proof.
  assert (Forall (fun k => 0 <= k) [42; 31; 159; 29; 170; 31; 159]) as Hk by (repeat constructor; lia).
  split; [exact Hk|]. exact (modifiers_follow_keys [42; 31; 159; 29; 170; 31; 159] 0 Hk).
Defined.

Lemma keyboard_types_text_witness :
  Forall typable [72; 105; 33; 10] /\ run_keys (flat_map type_char [72; 105; 33; 10]) 0 = Done ([72; 105; 33; 10], 0).
Proof.
  assert (Forall typable [72; 105; 33; 10]) as Ht by (repeat (constructor; [unfold typable; lia|]); constructor).
  split; [exact Ht|]. exact (keyboard_types_text [72; 105; 33; 10] Ht).
Defined.

Lemma getchar_gets_first_character_witness :
  getchar [[42]; [35]; [163]] [] 0 = Done (72, [], [[163]], 3).
Proof. exact (getchar_gets_first_character [42] 35 [163] 0 3 3 72 eq_refl eq_refl ltac:(discriminate)). Defined.

(** ** Moving the mouse *)

(** The position is on the screen or one pixel behind it, and a packet is being collected. *)
Record mouse_ok (W H : Z) (m : mouse) : Prop := {
  ok_x : 0 <= mouse_x m <= W;
  ok_y : 0 <= mouse_y m <= H;
  ok_recbyte : 0 <= recbyte m < 3;
  ok_mousebuf : length (mousebuf m) = 5%nat
}.

Definition clamp (lo hi x : Z) : Z := Z.max lo (Z.min hi x).

Lemma keep_on_screen_spec W H m : 0 <= W < 2 ^ 31 -> 0 <= H < 2 ^ 31 ->
  keep_on_screen W H m = with_position (clamp 0 W (mouse_x m)) (clamp 0 H (mouse_y m)) m.
Proof.
  intros HW HH. unfold keep_on_screen, clamp. cbv zeta. rewrite !s32_small by lia. f_equal.
  - destruct (Z.ltb_spec (mouse_x m) 0), (Z.ltb_spec W 0), (Z.ltb_spec W (mouse_x m)); lia.
  - destruct (Z.ltb_spec (mouse_y m) 0), (Z.ltb_spec H 0), (Z.ltb_spec H (mouse_y m)); lia.
Qed.

Lemma clamp_range lo hi x : lo <= hi -> lo <= clamp lo hi x <= hi.
Proof. unfold clamp. lia. Qed.

Definition packet_valid (flags : Z) : bool := negb (Z.testbit flags 6 || Z.testbit flags 7) && Z.testbit flags 3.

(** What a packet of three bytes does. *)
Lemma mouse_parse_packet_spec f a b c d m :
  exists m', mouse_parse_packet [f; a; b; c; d] false false m = Done m' /\
    recbyte m' = recbyte m /\ mousebuf m' = mousebuf m /\
    if packet_valid f then
      mouse_x m' = s32 (mouse_x m + movement (bit f 4) a) /\ mouse_y m' = s32 (mouse_y m - movement (bit f 5) b) /\
      mouse_b1 m' = bit f 0 /\ mouse_b2 m' = bit f 1 /\ mouse_b3 m' = bit f 2
    else m' = m.
Proof.
  unfold mouse_parse_packet, packet_valid.
  change (array_get [f; a; b; c; d] 0) with (Done f). change (array_get [f; a; b; c; d] 1) with (Done a).
  change (array_get [f; a; b; c; d] 2) with (Done b). cbn [mbind outcome_bind].
  destruct (Z.testbit f 6), (Z.testbit f 7), (Z.testbit f 3); cbn [orb andb negb]; eexists; (split; [reflexivity|]); done.
Qed.

Lemma mouse_receive_ok W H byte m : 0 <= W < 2 ^ 31 -> 0 <= H < 2 ^ 31 -> mouse_ok W H m ->
  exists m', mouse_receive W H byte m = Done m' /\ mouse_ok W H m'.
Proof.
  intros HW HH [Hx Hy Hr Hl]. unfold mouse_receive.
  pose proof (array_set_in_range (mousebuf m) (recbyte m) byte ltac:(lia)) as E. set (buf := <[_ := _]> _) in E.
  rewrite E. cbn [mbind outcome_bind]. pose proof (array_set_length _ _ _ _ E) as Hlen. rewrite Hl in Hlen.
  clearbody buf. cbn [with_packet recbyte]. destruct (Z.eqb_spec (recbyte m + 1) 3) as [E3|E3].
  - destruct buf as [|f [|a [|b [|c [|d [|]]]]]]; try discriminate Hlen.
    destruct (mouse_parse_packet_spec f a b c d (with_packet 0 [f; a; b; c; d] (with_packet (recbyte m + 1) [f; a; b; c; d] m)))
      as (m' & -> & Er & Eb & _). cbn [mbind outcome_bind]. eexists. split; [reflexivity|]. rewrite keep_on_screen_spec by done.
    split; cbn [with_position mouse_x mouse_y recbyte mousebuf]; rewrite ?Er, ?Eb; cbn; try done; try (apply clamp_range; lia); lia.
  - eexists. split; [reflexivity|]. by split; cbn; try lia.
Qed.

Section Moving.
Context `{Ports : PortIO D}.
Variables W H : Z.
Hypothesis HW : 0 <= W < 2 ^ 31.
Hypothesis HH : 0 <= H < 2 ^ 31.

(** [n] interrupts of the mouse. *)
Fixpoint mouse_interrupts (n : nat) (m : mouse) : IO D mouse :=
  match n with
  | O => mret m
  | S n' => m ← mouse_handler W H m; mouse_interrupts n' m
  end.

(** C27: whatever the mouse sends, its handler keeps the state well-formed: the position stays
    within the screen (the bounds included), the count of received bytes within a packet,
    and no byte is ever stored outside of the buffer. *)
Theorem mouse_state_stays_well_formed (n : nat) (m : mouse) (d : D) (Hm : mouse_ok W H m) :
  exists m' d', mouse_interrupts n m d = Done (m', d') /\ mouse_ok W H m'.
Proof.
  revert m d Hm. induction n as [|n IH]; intros m d Hm; cbn [mouse_interrupts]; [by exists m, d|].
  assert (exists m' d', mouse_handler W H m d = Done (m', d') /\ mouse_ok W H m') as (m' & d' & E & Hm').
  { unfold mouse_handler. unfold mbind, IO_bind, inb. cbn. destruct (port_inb (u16 0x64) d) as [s d1].
    destruct (_ || _); [by exists m, d1|]. destruct (port_inb (u16 0x60) d1) as [b d2].
    destruct (mouse_receive_ok W H b m HW HH Hm) as (m' & E & Hm'). exists m', d2. unfold lift. by rewrite E. }
  rewrite (bind_run _ _ _ _ _ E). by apply IH.
Qed.

End Moving.

(** The bytes of a packet, as they arrive. *)
Definition receive_packet (W H : Z) (bytes : list Z) (m : mouse) : outcome mouse :=
  fold_left (fun om b => m ← om; mouse_receive W H b m) bytes (Done m).

(** The distance that a packet reports, as the code decodes it. *)
Definition distance (sign : bool) (byte : Z) : Z := if sign || (128 <=? byte) then byte - 256 else byte.

Lemma movement_distance s byte : 0 <= byte < 256 -> movement (Z.b2z s) byte = distance s byte.
Proof.
  intros Hb. assert (forallb (fun b => (movement 0 b =? distance false b) && (movement 1 b =? distance true b)) (seqZ 0 256) = true) as Ht
    by (vm_compute; reflexivity).
  rewrite forallb_forall in Ht. specialize (Ht byte).
  assert (In byte (seqZ 0 256)) as Hin by (apply list_elem_of_In, elem_of_seqZ; lia).
  specialize (Ht Hin). apply andb_true_iff in Ht as [E0%Z.eqb_eq E1%Z.eqb_eq]. by destruct s.
Qed.

Lemma distance_range s byte : 0 <= byte < 256 -> -256 <= distance s byte < 128.
Proof. intros Hb. unfold distance. destruct s, (Z.leb_spec 128 byte); cbn; lia. Qed.

(** A whole packet moves the mouse by the distances it reports, downwards for negative
    ones, but not off the screen, and sets the buttons; a packet that reports an overflow, or
    is out of step, changes nothing. *)
Theorem mouse_packet_moves (W H f a b : Z) (m : mouse)
    (HW : 0 <= W < 2 ^ 30) (HH : 0 <= H < 2 ^ 30) (Hm : mouse_ok W H m) (Hstart : recbyte m = 0)
    (Ha : 0 <= a < 256) (Hb : 0 <= b < 256) :
  exists m', receive_packet W H [f; a; b] m = Done m' /\ recbyte m' = 0 /\
    if packet_valid f then
      mouse_x m' = clamp 0 W (mouse_x m + distance (Z.testbit f 4) a) /\
      mouse_y m' = clamp 0 H (mouse_y m - distance (Z.testbit f 5) b) /\
      mouse_b1 m' = bit f 0 /\ mouse_b2 m' = bit f 1 /\ mouse_b3 m' = bit f 2
    else mouse_x m' = mouse_x m /\ mouse_y m' = mouse_y m /\ mouse_b1 m' = mouse_b1 m /\
      mouse_b2 m' = mouse_b2 m /\ mouse_b3 m' = mouse_b3 m.
Proof.
  destruct Hm as [Hx Hy _ Hl]. destruct (mousebuf m) as [|b0 [|b1 [|b2 [|b3 [|b4 [|]]]]]] eqn:Eb; try discriminate Hl.
  assert (m = with_packet 0 [b0; b1; b2; b3; b4] m) as Em by (destruct m; cbn in *; by subst).
  assert (receive_packet W H [f; a; b] m =
    m' ← mouse_parse_packet [f; a; b; b3; b4] false false (with_packet 0 [f; a; b; b3; b4] m); Done (keep_on_screen W H m')) as ->
    by (rewrite Em; reflexivity).
  set (m0 := with_packet 0 [f; a; b; b3; b4] m).
  destruct (mouse_parse_packet_spec f a b b3 b4 m0) as (m' & -> & Er & _ & Hp).
  cbn -[packet_valid distance keep_on_screen]. eexists. split; [reflexivity|]. rewrite keep_on_screen_spec by lia.
  split; [by cbn; rewrite Er|]. destruct (packet_valid f).
  - destruct Hp as (Ex & Ey & E1 & E2 & E3). cbn [with_position mouse_x mouse_y mouse_b1 mouse_b2 mouse_b3]. rewrite Ex, Ey.
    unfold bit in *. rewrite !movement_distance by done. change (mouse_x m0) with (mouse_x m). change (mouse_y m0) with (mouse_y m).
    pose proof (distance_range (Z.testbit f 4) a Ha). pose proof (distance_range (Z.testbit f 5) b Hb).
    rewrite !s32_small by lia. done.
  - subst m'. cbn. unfold clamp. repeat split; lia.
Qed.

(** The mouse after [mouse_install] on a screen of 800 by 600. *)
Definition fresh_mouse : mouse := Mouse 1 400 300 0 0 0 0 0 0 0 0 (MousePacket 0 0 0 0 0) 0 [0; 0; 0; 0; 0].

Lemma fresh_mouse_ok : mouse_ok 800 600 fresh_mouse.
Proof. split; cbn; lia. Defined.

(** A controller that hands out a list of bytes. *)
#[export] Instance list_ports : PortIO (list Z) := {
  port_inb p d := if p =? 0x64 then (if d is [] then 0 else 0x21, d) else match d with [] => (0, []) | b :: d' => (b, d') end;
  port_inw _ d := (0, d);
  port_inl _ d := (0, d);
  port_outb _ _ d := d;
  port_outw _ _ d := d;
  port_outl _ _ d := d;
  time_passes _ d := d
}.

Lemma mouse_state_stays_well_formed_witness :
  exists m' d', mouse_interrupts 800 600 7 fresh_mouse [0x18; 0; 5; 0x08; 90] = Done (m', d') /\ mouse_ok 800 600 m'.
Proof.
  apply (mouse_state_stays_well_formed 800 600 ltac:(lia) ltac:(lia) 7 fresh_mouse [0x18; 0; 5; 0x08; 90]).
  exact fresh_mouse_ok.
Defined.

Lemma mouse_packet_moves_witness :
  exists m', receive_packet 800 600 [0x29; 100; 250] fresh_mouse = Done m' /\ recbyte m' = 0 /\
    mouse_x m' = 500 /\ mouse_y m' = 306 /\ mouse_b1 m' = 1 /\ mouse_b2 m' = 0 /\ mouse_b3 m' = 0.
Proof.
  exact (mouse_packet_moves 800 600 0x29 100 250 fresh_mouse ltac:(lia) ltac:(lia) fresh_mouse_ok eq_refl ltac:(lia) ltac:(lia)).
Defined.

(** A long movement to the right, with the sign bit clear, goes to the left. *)
Theorem fast_movement_turns_back :
  exists m', receive_packet 800 600 [0x08; 200; 0] fresh_mouse = Done m' /\ mouse_x m' = 344.
Proof. eexists. split; [vm_compute; reflexivity|reflexivity]. Qed.
