(* ===== verification/Screen.v ===== *)
(** * The screen (kernel/include/io/screen.h, src/io/screen.c, lib/pixel.c, gui/, io/tty.c)

    Everything is drawn into a back buffer, which [screen_update] copies to the display.
    [set_pixel] clips, so drawing never leaves the buffer; what a drawing function paints
    is a set of pixels, and a small calculus ([draws]) composes these sets. *)
From Stdlib Require Import ZArith Lia.
From stdpp Require Import base list numbers.
From S2P Require Import Prelude Pmm Paging Heap.

#[local] Open Scope Z_scope.

Record screen := Screen {
  framebuffer_addr : Z;
  framebuffer_pitch : Z;
  framebuffer_bpp : Z;
  framebuffer_width : Z;
  framebuffer_height : Z;
  framebuffer_size : Z;
  back_framebuffer_addr : Z;
  back_framebuffer : list Z;
  framebuffer : list Z
}.

Definition with_back (buf : list Z) (s : screen) : screen :=
  Screen (framebuffer_addr s) (framebuffer_pitch s) (framebuffer_bpp s) (framebuffer_width s) (framebuffer_height s)
    (framebuffer_size s) (back_framebuffer_addr s) buf (framebuffer s).

Definition getDisplayAddr (s : screen) : Z := framebuffer_addr s.
Definition getFrameBufferAddr (s : screen) : Z := back_framebuffer_addr s.
Definition getDisplayPitch (s : screen) : Z := framebuffer_pitch s.
Definition getDisplayBpp (s : screen) : Z := framebuffer_bpp s.
Definition getScreenWidth (s : screen) : Z := framebuffer_width s.
Definition getScreenHeight (s : screen) : Z := framebuffer_height s.
Definition getDisplaySize (s : screen) : Z := framebuffer_size s.

(** ** Pixels *)

(** [pixels[d] = v;] for each [(d, v)], [pixels] being [off] bytes into the buffer. *)
Fixpoint poke (off : Z) (ds : list (Z * Z)) (buf : list Z) : outcome (list Z) :=
  match ds with
  | [] => Done buf
  | (d, v) :: ds' => buf ← array_set buf (off + d) v; poke off ds' buf
  end.

Definition pixel_offset (s : screen) (x y : Z) : Z :=
  u32 (x * Z.shiftr (framebuffer_bpp s) 3) + u32 (y * framebuffer_pitch s).

(** The three bytes of a color. *)
Definition blue (color : Z) : Z := Z.land color 0xff.
Definition green (color : Z) : Z := Z.land (Z.shiftr color 8) 0xff.
Definition red (color : Z) : Z := Z.land (Z.shiftr color 16) 0xff.

Definition set_pixel (x y color : Z) (s : screen) : outcome screen :=
  let x := u32 x in let y := u32 y in
  if (getScreenWidth s <=? x) || (getScreenHeight s <=? y) then Done s
  else
    buf ← poke (pixel_offset s x y) [(0, blue color); (1, green color); (2, red color)] (back_framebuffer s);
    Done (with_back buf s).

(** Four pixels, which are not clipped. *)
Definition set_pixel4x1 (x y color : Z) (s : screen) : outcome screen :=
  let x := u32 x in let y := u32 y in
  buf ← poke (pixel_offset s x y)
    [(12, blue color); (8, blue color); (4, blue color); (0, blue color);
     (13, green color); (9, green color); (5, green color); (1, green color);
     (14, red color); (10, red color); (6, red color); (2, red color)] (back_framebuffer s);
  Done (with_back buf s).

(** [x] and [y] are signed, and compared as such. *)
Definition getPixel (x y : Z) (s : screen) : outcome Z :=
  if (x <? 0) || (y <? 0) || (s32 (getScreenWidth s) <=? x) || (s32 (getScreenHeight s) <=? y) then Done 0
  else
    let where_ := u32 (x * Z.shiftr (framebuffer_bpp s) 3 + y * framebuffer_pitch s) in
    r ← array_get (back_framebuffer s) (where_ + 2);
    g ← array_get (back_framebuffer s) (where_ + 1);
    b ← array_get (back_framebuffer s) where_;
    Done (Z.shiftl (Z.land r 0xff) 16 + Z.shiftl (Z.land g 0xff) 8 + Z.land b 0xff).

(** [result[i]]; the fourth component is opaque. *)
Definition rgba_blend (fg bg : list Z) : outcome (list Z) :=
  a ← array_get fg 3;
  let alpha := a + 1 in
  let inv_alpha := u32 (256 - a) in
  let mix (i : Z) := f ← array_get fg i; b ← array_get bg i; Done (u8 (Z.shiftr (u32 (alpha * f + inv_alpha * b)) 8)) in
  r0 ← mix 0; r1 ← mix 1; r2 ← mix 2;
  Done [r0; r1; r2; 0xff].

(** A buffer of [width] by [height] pixels of four bytes. *)
Definition buffer_set_pixel4 (width height x y color : Z) (buffer : list Z) : outcome (list Z) :=
  let x := u32 x in let y := u32 y in
  if (width <=? x) || (height <=? y) then Done buffer
  else
    let pixpos := u32 (u32 (width * 4) * y + u32 (x * 4)) in
    buffer ← array_set buffer pixpos (u8 color);
    buffer ← array_set buffer (u32 (pixpos + 1)) (u8 (Z.shiftr color 8));
    array_set buffer (u32 (pixpos + 2)) (u8 (Z.shiftr color 16)).

(** ** The whole screen *)

Definition clean_screen (s : screen) : screen := with_back (replicate (Z.to_nat (framebuffer_size s)) 0) s.

(** [memcpy(framebuffer_addr, back_framebuffer_addr, framebuffer_size)], within the mutex. *)
Definition screen_update (s : screen) : outcome screen :=
  let n := Z.to_nat (framebuffer_size s) in
  if decide (n <= Datatypes.length (back_framebuffer s) /\ n <= Datatypes.length (framebuffer s))%nat
  then Done (Screen (framebuffer_addr s) (framebuffer_pitch s) (framebuffer_bpp s) (framebuffer_width s) (framebuffer_height s)
               (framebuffer_size s) (back_framebuffer_addr s) (back_framebuffer s)
               (take n (back_framebuffer s) ++ drop n (framebuffer s)))
  else Fault.

Section Memory.
Context {M : Type} `{PageOps M}.

(** [unmap_pages_overlapping] and [map_pages] in the directory of the kernel. *)
Fixpoint unmap_run (n : nat) (virtual : Z) (m : M) : outcome M :=
  match n with
  | O => Done m
  | S n' => m ← unmap_page m virtual; unmap_run n' (u32 (virtual + PAGE_SIZE)) m
  end.

Definition unmap_display (addr size : Z) (m : M) : outcome M :=
  let virtual := page_base addr in
  let pages := u32 (u32 (u32 (virtual + size) / PAGE_SIZE - virtual / PAGE_SIZE) + 1) in
  unmap_run (Z.to_nat pages) virtual m.

Definition map_display (addr size : Z) (m : M) : outcome M :=
  map_range m addr addr size (Z.lor PAGE_WRITEABLE PAGE_CACHE_DISABLE).

(** The memory range registers are not set: [NOCTURNE_ARCH_X86] is never defined. *)
Definition create_back_framebuffer (s : screen) (k : kernel_memory M) : outcome (screen * kernel_memory M) :=
  '(addr, k) ← kmalloc_common (framebuffer_size s) PAGE_SIZE k;
  m ← fill_bytes addr 0 (framebuffer_size s) (space k);
  Done (Screen (framebuffer_addr s) (framebuffer_pitch s) (framebuffer_bpp s) (framebuffer_width s) (framebuffer_height s)
          (framebuffer_size s) addr (replicate (Z.to_nat (framebuffer_size s)) 0) (framebuffer s),
        KernelMemory (system_heap k) m).

(** The geometry that the boot loader has set; [display] is the memory of the card. *)
Definition init_vbe (addr pitch bpp width height : Z) (display : list Z) (k : kernel_memory M)
    : outcome (screen * kernel_memory M) :=
  let size := u32 (height * pitch) in
  m ← map_display (u32 addr) size (space k);
  create_back_framebuffer (Screen (u32 addr) pitch bpp width height size 0 [] display) (KernelMemory (system_heap k) m).

(** [new_width] is not zero: the division would trap. *)
Definition graphics_update (new_width new_height new_pitch : Z) (s : screen) (k : kernel_memory M)
    : outcome (screen * kernel_memory M) :=
  m ← unmap_display (framebuffer_addr s) (framebuffer_size s) (space k);
  if new_width =? 0 then Fault
  else
    let bpp := u32 (Z.shiftl (new_pitch / new_width) 3) in
    let size := ALIGN (u32 (u32 (u32 (new_width + 32) * new_height) * 4)) PAGE_SIZE in
    m ← map_display (framebuffer_addr s) size m;
    k ← kfree (back_framebuffer_addr s) (KernelMemory (system_heap k) m);
    create_back_framebuffer
      (Screen (framebuffer_addr s) new_pitch bpp new_width new_height size (back_framebuffer_addr s) (back_framebuffer s)
         (framebuffer s)) k.

End Memory.

(** ** Loops and shapes *)

Section Loops.
Context {S : Type}.

(** [for (i = lo; i < lo + n; i++) body(i);] *)
Fixpoint for_up (n : nat) (i : Z) (body : Z -> S -> outcome S) (s : S) : outcome S :=
  match n with
  | O => Done s
  | Datatypes.S n' => s ← body i s; for_up n' (i + 1) body s
  end.

(** [for (_x = x, endx = x+w; _x < endx; _x++)], unsigned. *)
Definition for_unsigned (x w : Z) (body : Z -> S -> outcome S) : S -> outcome S :=
  for_up (Z.to_nat (u32 (x + w) - x)) x body.

(** [for (i = a; i <= b; i++)] and [for (i = a; i < b; i++)], signed. *)
Definition for_to (a b : Z) (body : Z -> S -> outcome S) : S -> outcome S := for_up (Z.to_nat (b + 1 - a)) a body.
Definition for_below (a b : Z) (body : Z -> S -> outcome S) : S -> outcome S := for_up (Z.to_nat (b - a)) a body.

(** The line of [draw_line] and [draw_line_extern], which differ in [plot]. *)
Variable plot : Z -> Z -> S -> outcome S.

Fixpoint line_loop (fuel : nat) (x0 y0 x1 y1 dx dy sx sy error thickness : Z) (s : S) : outcome S :=
  match fuel with
  | O => Hang
  | Datatypes.S fuel' =>
      s ← for_to (Z.quot (- thickness) 2) (Z.quot thickness 2) (fun i => plot (s32 (x0 + i)) y0) s;
      if (x0 =? x1) && (y0 =? y1) then Done s
      else
        let error2 := s32 (error * 2) in
        let step_x := - dy <? error2 in
        let step_y := error2 <? dx in
        let error := if step_x then s32 (error - dy) else error in
        let x0 := if step_x then s32 (x0 + sx) else x0 in
        let error := if step_y then s32 (error + dx) else error in
        let y0 := if step_y then s32 (y0 + sy) else y0 in
        line_loop fuel' x0 y0 x1 y1 dx dy sx sy error thickness s
  end.

Definition line (x0 y0 x1 y1 thickness : Z) (s : S) : outcome S :=
  let dx := Z.abs (s32 (x1 - x0)) in
  let dy := Z.abs (s32 (y1 - y0)) in
  let sx := if x0 <? x1 then 1 else -1 in
  let sy := if y0 <? y1 then 1 else -1 in
  line_loop (Datatypes.S (Z.to_nat (Z.max dx dy))) x0 y0 x1 y1 dx dy sx sy (s32 (dx - dy)) thickness s.

End Loops.

Definition draw_line (x0 y0 x1 y1 thickness color : Z) : screen -> outcome screen :=
  line (fun x y => set_pixel x y color) x0 y0 x1 y1 thickness.

Definition draw_line_extern (width height x0 y0 x1 y1 thickness color : Z) : list Z -> outcome (list Z) :=
  line (fun x y => buffer_set_pixel4 width height x y color) x0 y0 x1 y1 thickness.

Definition drawRect (x y w h color : Z) : screen -> outcome screen :=
  for_unsigned y h (fun _y => for_unsigned x w (fun _x => set_pixel _x _y color)).

Definition drawRectBorder (x y w h color : Z) (s : screen) : outcome screen :=
  s ← for_below x (s32 (x + w)) (fun _x s => s ← set_pixel _x y color s; set_pixel _x (y + h) color s) s;
  for_below y (s32 (y + h)) (fun _y s => s ← set_pixel x _y color s; set_pixel (x + w) _y color s) s.

Definition drawHorizontalLine (x1 x2 y color : Z) : screen -> outcome screen := for_to x1 x2 (fun x => set_pixel x y color).
Definition drawVerticalLine (y1 y2 x color : Z) : screen -> outcome screen := for_to y1 y2 (fun y => set_pixel x y color).

(** The loop of the filled circles: [x] and [y] go from [(radius, 0)] to the diagonal. *)
Fixpoint disc_loop (fuel : nat) (row : Z -> Z -> screen -> outcome screen) (x y err : Z) (s : screen) : outcome screen :=
  match fuel with
  | O => Hang
  | S fuel' =>
      if y <=? x then
        s ← row x y s;
        let grow := err <=? 0 in
        let y := if grow then y + 1 else y in
        let err := if grow then s32 (err + (2 * y + 1)) else err in
        let shrink := 0 <? err in
        let x := if shrink then x - 1 else x in
        let err := if shrink then s32 (err - (2 * x + 1)) else err in
        disc_loop fuel' row x y err s
      else Done s
  end.

Definition drawFilledCircle (x0 y0 radius color : Z) : screen -> outcome screen :=
  disc_loop (S (Z.to_nat (radius + 1))) (fun x y s =>
    s ← drawHorizontalLine (s32 (x0 - x)) (s32 (x0 + x)) (s32 (y0 + y)) color s;
    s ← drawHorizontalLine (s32 (x0 - x)) (s32 (x0 + x)) (s32 (y0 - y)) color s;
    s ← drawHorizontalLine (s32 (x0 - y)) (s32 (x0 + y)) (s32 (y0 + x)) color s;
    drawHorizontalLine (s32 (x0 - y)) (s32 (x0 + y)) (s32 (y0 - x)) color s) radius 0 0.

Definition drawFilledRectBorder (x0 y0 radius w mode color : Z) : screen -> outcome screen :=
  let left := if (mode =? 3) || (mode =? 4) then Z.quot w 2 else 0 in
  let right := if (mode =? 1) || (mode =? 2) then Z.quot w 2 else 0 in
  disc_loop (S (Z.to_nat (radius + 1))) (fun x y s =>
    s ← drawHorizontalLine (s32 (x0 - x - left)) (s32 (x0 + x + right)) (s32 (y0 - y)) color s;
    s ← drawHorizontalLine (s32 (x0 - y - left)) (s32 (x0 + y + right)) (s32 (y0 - x)) color s;
    s ← drawHorizontalLine (s32 (x0 - x - left)) (s32 (x0 + x + right)) (s32 (y0 + y)) color s;
    drawHorizontalLine (s32 (x0 - y - left)) (s32 (x0 + y + right)) (s32 (y0 + x)) color s) radius 0 0.

(** At most [4 * radius + 5] rounds ([circle_ends]). *)
Fixpoint circle_loop (fuel : nat) (xc yc color x y delta : Z) (s : screen) : outcome screen :=
  match fuel with
  | O => Hang
  | S fuel' =>
      if 0 <=? y then
        s ← set_pixel (xc + x) (yc + y) color s;
        s ← set_pixel (xc + x) (yc - y) color s;
        s ← set_pixel (xc - x) (yc + y) color s;
        s ← set_pixel (xc - x) (yc - y) color s;
        let error := s32 (2 * (delta + y) - 1) in
        if (delta <? 0) && (error <=? 0) then circle_loop fuel' xc yc color (x + 1) y (s32 (delta + (2 * (x + 1) + 1))) s
        else if (0 <? delta) && (0 <? error) then circle_loop fuel' xc yc color x (y - 1) (s32 (delta - (2 * (y - 1) + 1))) s
        else circle_loop fuel' xc yc color (x + 1) (y - 1) (s32 (delta + 2 * (x + 1 - y))) s
      else Done s
  end.

Definition draw_circle (xc yc radius color : Z) : screen -> outcome screen :=
  circle_loop (S (Z.to_nat (4 * radius + 5))) xc yc color 0 radius (s32 (1 - 2 * radius)).

Definition draw_rectangle (x y w h color : Z) (s : screen) : outcome screen :=
  let ay := u32 (y + h) in
  let ax := u32 (x + w) in
  s ← for_unsigned x w (fun i s => s ← set_pixel i y color s; set_pixel i ay color s) s;
  for_unsigned y h (fun j s => s ← set_pixel x j color s; set_pixel ax j color s) s.

(** [for(; j < w; j += 4)], and the [j] that it ends with. *)
Fixpoint strides (fuel : nat) (j w : Z) (body : Z -> screen -> outcome screen) (s : screen) : outcome (Z * screen) :=
  match fuel with
  | O => Hang
  | S fuel' => if j <? w then s ← body j s; strides fuel' (u32 (j + 4)) w body s else Done (j, s)
  end.

Definition draw_filled_rectangle (x y w h fill : Z) : screen -> outcome screen :=
  for_up (Z.to_nat h) 0 (fun i s =>
    '(j, s) ← strides (S (S (Z.to_nat (w / 4)))) 0 w (fun j => set_pixel4x1 (u32 (x + j)) (u32 (y + i)) fill) s;
    let j := u32 (j - 4) in
    for_below j w (fun j => set_pixel (x + j) (y + i) fill) s).

Definition fill_screen (color : Z) (s : screen) : outcome screen :=
  draw_filled_rectangle 0 0 (getScreenWidth s) (getScreenHeight s) color s.

(** ** What is painted *)

Record same_geometry (s s' : screen) : Prop := SameGeometry {
  sg_addr : framebuffer_addr s' = framebuffer_addr s;
  sg_pitch : framebuffer_pitch s' = framebuffer_pitch s;
  sg_bpp : framebuffer_bpp s' = framebuffer_bpp s;
  sg_width : framebuffer_width s' = framebuffer_width s;
  sg_height : framebuffer_height s' = framebuffer_height s;
  sg_size : framebuffer_size s' = framebuffer_size s;
  sg_back : back_framebuffer_addr s' = back_framebuffer_addr s;
  sg_front : framebuffer s' = framebuffer s;
  sg_length : Datatypes.length (back_framebuffer s') = Datatypes.length (back_framebuffer s)
}.

#[export] Instance same_geometry_preorder : PreOrder same_geometry.
Proof. split; [by constructor|]. intros a b c [] []. constructor; congruence. Qed.

(** Every pixel of the screen has its three bytes in the buffers. *)
Record screen_ok (s : screen) : Prop := ScreenOk {
  ok_width : 0 <= framebuffer_width s < 2 ^ 31;
  ok_height : 0 <= framebuffer_height s < 2 ^ 31;
  ok_bpp : 3 <= Z.shiftr (framebuffer_bpp s) 3;
  ok_pitch : framebuffer_width s * Z.shiftr (framebuffer_bpp s) 3 <= framebuffer_pitch s;
  ok_size : framebuffer_height s * framebuffer_pitch s <= framebuffer_size s < 2 ^ 32;
  ok_back : Z.of_nat (Datatypes.length (back_framebuffer s)) = framebuffer_size s;
  ok_front : Z.of_nat (Datatypes.length (framebuffer s)) = framebuffer_size s
}.

Lemma screen_ok_geometry s s' : same_geometry s s' -> screen_ok s -> screen_ok s'.
Proof.
  intros [E1 E2 E3 E4 E5 E6 E7 E8 E9] [H1 H2 H3 H4 H5 H6 H7].
  split; rewrite ?E2, ?E3, ?E4, ?E5, ?E6, ?E8, ?E9; assumption.
Qed.

Definition on_screen (s : screen) (x y : Z) : Prop := 0 <= x < framebuffer_width s /\ 0 <= y < framebuffer_height s.

(** The color without what lies above its three bytes. *)
Definition rgb (color : Z) : Z := Z.land color 0xffffff.

(** Exactly the pixels in [P] got the color. *)
Definition paints (P : Z -> Z -> bool) (color : Z) (s s' : screen) : Prop :=
  forall x y, on_screen s x y -> getPixel x y s' = if P x y then Done (rgb color) else getPixel x y s.

(** Starting from any screen whose geometry satisfies [pre]. *)
Definition draws_on (pre : screen -> Prop) (P : Z -> Z -> bool) (color : Z) (m : screen -> outcome screen) : Prop :=
  forall s, screen_ok s -> pre s -> exists s', m s = Done s' /\ same_geometry s s' /\ paints P color s s'.

Abbreviation draws := (draws_on (fun _ => True)).

Class GeometryOnly (pre : screen -> Prop) := geometry_only : forall s s', same_geometry s s' -> pre s -> pre s'.

#[export] Instance geometry_only_True : GeometryOnly (fun _ => True).
Proof. done. Qed.

Lemma on_screen_geometry s s' x y : same_geometry s s' -> on_screen s' x y <-> on_screen s x y.
Proof. intros []. unfold on_screen. by rewrite sg_width0, sg_height0. Qed.

Section Calculus.
Context (pre : screen -> Prop) `{GeometryOnly pre}.

Lemma draws_nothing color : draws_on pre (fun _ _ => false) color (fun s => Done s).
Proof. intros s Hs _. exists s. split; [done|]. split; [reflexivity|]. by intros x y _. Qed.

Lemma draws_seq P Q color m1 m2 : draws_on pre P color m1 -> draws_on pre Q color m2 ->
  draws_on pre (fun x y => P x y || Q x y) color (fun s => s ← m1 s; m2 s).
Proof.
  intros H1 H2 s Hs Hpre. destruct (H1 s Hs Hpre) as (s1 & -> & G1 & P1). cbn [mbind outcome_bind].
  destruct (H2 s1 (screen_ok_geometry _ _ G1 Hs) (geometry_only _ _ G1 Hpre)) as (s2 & -> & G2 & P2). exists s2.
  split; [done|]. split; [by etransitivity|]. intros x y Hxy.
  rewrite P2 by by apply (on_screen_geometry s). rewrite P1 by done. by destruct (P x y), (Q x y).
Qed.

(** Only what [P] says about coordinates that a screen can have matters. *)
Lemma draws_ext P Q color m :
  (forall x y, 0 <= x < 2 ^ 31 -> 0 <= y < 2 ^ 31 -> P x y = Q x y) -> draws_on pre P color m -> draws_on pre Q color m.
Proof.
  intros HPQ Hm s Hs Hpre. destruct (Hm s Hs Hpre) as (s' & E & G & HP). exists s'. split; [done|]. split; [done|].
  intros x y Hxy. rewrite <- HPQ; [by apply HP|..]; destruct Hxy, Hs; lia.
Qed.

Lemma draws_for P color n lo body :
  (forall i, lo <= i < lo + Z.of_nat n -> draws_on pre (P i) color (body i)) ->
  draws_on pre (fun x y => existsb (fun i => P i x y) (seqZ lo (Z.of_nat n))) color (for_up n lo body).
Proof.
  revert lo. induction n as [|n IH]; intros lo Hb.
  - apply (draws_ext (fun _ _ => false)); [done|]. apply draws_nothing.
  - replace (seqZ lo (Z.of_nat (S n))) with (lo :: seqZ (lo + 1) (Z.of_nat n))
      by (rewrite (seqZ_cons lo) by lia; do 2 f_equal; lia).
    cbn [for_up existsb]. apply draws_seq; [apply Hb; lia|]. apply IH. intros i Hi. apply Hb. lia.
Qed.

(** The same, for a set that is given as a whole. *)
Lemma draws_for_set P Q color n lo body :
  (forall i, lo <= i < lo + Z.of_nat n -> draws_on pre (P i) color (body i)) ->
  (forall x y, 0 <= x < 2 ^ 31 -> 0 <= y < 2 ^ 31 ->
     Q x y = true <-> exists i, lo <= i < lo + Z.of_nat n /\ P i x y = true) ->
  draws_on pre Q color (for_up n lo body).
Proof.
  intros Hb HQ. eapply draws_ext; [|by apply draws_for]. intros x y Hx Hy. cbn. apply eq_true_iff_eq.
  rewrite existsb_exists, (HQ x y Hx Hy). split.
  - intros (i & Hi%list_elem_of_In%elem_of_seqZ & ?). exists i. split; [lia|done].
  - intros (i & Hi & ?). exists i. split; [|done]. by apply list_elem_of_In, elem_of_seqZ.
Qed.

(** What is drawn on a screen of this geometry. *)
Lemma draws_run P color m s : draws_on pre P color m -> screen_ok s -> pre s ->
  exists s', m s = Done s' /\ screen_ok s' /\
    forall px py, on_screen s px py -> getPixel px py s' = if P px py then Done (rgb color) else getPixel px py s.
Proof.
  intros Hd Hs Hpre. destruct (Hd s Hs Hpre) as (s' & E & G & HP). exists s'. split; [done|]. split; [by apply (screen_ok_geometry s)|done].
Qed.

End Calculus.

Arguments draws_nothing {pre} _.
Arguments draws_seq {pre _} _ _ _ _ _.
Arguments draws_ext {pre} _ _ _ _.
Arguments draws_for_set {pre _} _ _ _ _ _ _.
Arguments draws_run {pre} _ _ _ _.

(** ** Single pixels *)

Definition poked (ds : list (Z * Z)) (d : Z) : option Z := snd <$> find (fun p => fst p =? d) ds.

Lemma array_get_lookup {A} (l : list A) i : 0 <= i -> array_get l i = of_option (l !! Z.to_nat i).
Proof. intros Hi. unfold array_get. by destruct (Z.ltb_spec i 0); [lia|]. Qed.

Lemma poke_spec off ds buf : NoDup ds.*1 ->
  Forall (fun d => 0 <= off + fst d < Z.of_nat (Datatypes.length buf)) ds ->
  exists buf', poke off ds buf = Done buf' /\ Datatypes.length buf' = Datatypes.length buf /\
    forall k, 0 <= k -> array_get buf' k = match poked ds (k - off) with Some v => Done v | None => array_get buf k end.
Proof.
  revert buf. induction ds as [|[d v] ds IH]; intros buf Hnd Hin.
  - exists buf. by repeat split.
  - apply list.Forall_cons in Hin as [Hd Hin]. cbn [fst] in Hd. apply list.NoDup_cons in Hnd as [Hnew Hnd].
    cbn [poke]. rewrite array_set_in_range by done. cbn [mbind outcome_bind].
    destruct (IH (<[Z.to_nat (off + d) := v]> buf) Hnd) as (buf' & -> & Hl & Hk); [by rewrite length_insert|].
    exists buf'. split; [done|]. split; [by rewrite Hl, length_insert|]. intros k Hk0. rewrite Hk by done.
    unfold poked. cbn [find fst]. destruct (Z.eqb_spec d (k - off)) as [E|E].
    + destruct (find (fun p => p.1 =? k - off) ds) as [[d' v']|] eqn:F.
      * apply find_some in F as [Hin' E']. cbn in E'. apply Z.eqb_eq in E'. exfalso. apply Hnew.
        apply list_elem_of_fmap. exists (d', v'). split; [cbn; lia|by apply list_elem_of_In].
      * cbn. rewrite array_get_lookup by done. replace (Z.to_nat k) with (Z.to_nat (off + d)) by lia.
        by rewrite list_lookup_insert_eq by lia.
    + destruct (find _ ds) as [[d' v']|]; [done|]. cbn. rewrite !array_get_lookup by done.
      rewrite list_lookup_insert_ne by lia. done.
Qed.

(** The color at an offset of the buffer. *)
Definition color_at (buf : list Z) (w : Z) : outcome Z :=
  r ← array_get buf (w + 2); g ← array_get buf (w + 1); b ← array_get buf w;
  Done (Z.shiftl (Z.land r 0xff) 16 + Z.shiftl (Z.land g 0xff) 8 + Z.land b 0xff).

Lemma color_at_eq buf buf' w w' : (forall d, 0 <= d < 3 -> array_get buf' (w' + d) = array_get buf (w + d)) ->
  color_at buf' w' = color_at buf w.
Proof.
  intros E. unfold color_at. pose proof (E 0 ltac:(lia)) as E0. rewrite !Z.add_0_r in E0.
  by rewrite (E 2), (E 1), E0 by lia.
Qed.

Lemma color_at_written buf w color : array_get buf (w + 2) = Done (red color) -> array_get buf (w + 1) = Done (green color) ->
  array_get buf w = Done (blue color) -> color_at buf w = Done (rgb color).
Proof.
  intros E2 E1 E0. unfold color_at. rewrite E2, E1, E0. cbn [mbind outcome_bind]. f_equal. unfold red, green, blue, rgb.
  rewrite !Z.shiftl_mul_pow2, !Z.shiftr_div_pow2 by lia. change 0xff with (Z.ones 8). change 0xffffff with (Z.ones 24).
  rewrite !Z.land_ones by lia. change (2 ^ 8) with 256. change (2 ^ 16) with 65536. change (2 ^ 24) with 16777216.
  rewrite !Z.mod_mod by lia. Z.to_euclidean_division_equations; nia.
Qed.

Section Pixels.
Variable s : screen.
Hypothesis Hs : screen_ok s.
Let B := Z.shiftr (framebuffer_bpp s) 3.
Let W := framebuffer_pitch s.

Lemma row_bounds x y : on_screen s x y ->
  3 <= B /\ 0 <= x * B /\ x * B + B <= W /\ 0 <= y * W /\ y * W + W <= framebuffer_size s.
Proof. intros [Hx Hy]. destruct Hs as [Hw Hh HB Hp Hz Hb Hf]. fold B in HB, Hp. fold W in Hp, Hz. repeat split; nia. Qed.

Lemma pixel_offset_eq x y : on_screen s x y -> pixel_offset s x y = x * B + y * W.
Proof.
  intros Hxy. pose proof (row_bounds x y Hxy). pose proof (ok_size s Hs). unfold pixel_offset. fold B W.
  rewrite !u32_small by lia. done.
Qed.

Lemma getPixel_eq x y : on_screen s x y -> getPixel x y s = color_at (back_framebuffer s) (x * B + y * W).
Proof.
  intros Hxy. pose proof (row_bounds x y Hxy) as Hr. destruct Hxy as [Hx Hy]. pose proof (ok_size s Hs) as [? ?]. pose proof (ok_bpp s Hs).
  pose proof (ok_width s Hs). pose proof (ok_height s Hs). unfold getPixel, getScreenWidth, getScreenHeight. rewrite !s32_small by lia.
  destruct (Z.ltb_spec x 0), (Z.ltb_spec y 0), (Z.leb_spec (framebuffer_width s) x), (Z.leb_spec (framebuffer_height s) y); try lia.
  cbn [orb]. fold B W. rewrite u32_small; [done|]. unfold B in *. lia.
Qed.

(** Pixels do not overlap. *)
Lemma pixels_apart x y x' y' d d' : on_screen s x y -> on_screen s x' y' -> 0 <= d < B -> 0 <= d' < B ->
  x * B + y * W + d = x' * B + y' * W + d' -> x = x' /\ y = y'.
Proof.
  intros Hxy Hxy' Hd Hd' E. pose proof (row_bounds _ _ Hxy). pose proof (row_bounds _ _ Hxy').
  assert (y = y') as -> by (destruct (Z.lt_trichotomy y y') as [?|[?|?]]; [nia|done|nia]).
  split; [|done]. destruct (Z.lt_trichotomy x x') as [?|[?|?]]; [nia|done|nia].
Qed.

End Pixels.

(** Writing bytes to the buffer paints [P], when the bytes of the pixels in [P] are written
    with the color and those of the others are not. *)
Lemma poke_draws s ds off color (P : Z -> Z -> bool) : screen_ok s -> NoDup ds.*1 ->
  Forall (fun d => 0 <= off + fst d < framebuffer_size s) ds ->
  (forall x y, on_screen s x y ->
     let w := x * Z.shiftr (framebuffer_bpp s) 3 + y * framebuffer_pitch s in
     if P x y then poked ds (w - off) = Some (blue color) /\ poked ds (w + 1 - off) = Some (green color) /\
                   poked ds (w + 2 - off) = Some (red color)
     else forall d, 0 <= d < 3 -> poked ds (w + d - off) = None) ->
  exists buf', poke off ds (back_framebuffer s) = Done buf' /\ same_geometry s (with_back buf' s) /\
    paints P color s (with_back buf' s).
Proof.
  intros Hs Hnd Hin HP. pose proof (ok_back s Hs) as Hb.
  destruct (poke_spec off ds (back_framebuffer s) Hnd) as (buf' & -> & Hl & Hk); [by rewrite Hb|].
  assert (same_geometry s (with_back buf' s)) as G by by split.
  exists buf'. split; [done|]. split; [done|]. intros x y Hxy.
  rewrite (getPixel_eq (with_back buf' s)) by (eapply screen_ok_geometry || apply (on_screen_geometry _ _ _ _ G); eauto).
  rewrite (getPixel_eq s) by done. cbn [with_back back_framebuffer framebuffer_bpp framebuffer_pitch].
  pose proof (row_bounds s Hs x y Hxy) as (HB & Hx & _ & Hy & _). specialize (HP x y Hxy). cbv zeta in HP. destruct (P x y).
  - destruct HP as (H0 & H1 & H2). apply color_at_written; rewrite Hk by lia; by rewrite ?H0, ?H1, ?H2.
  - apply color_at_eq. intros d Hd. rewrite Hk by lia. by rewrite HP.
Qed.

Definition at_pixel (x y x' y' : Z) : bool := (x' =? x) && (y' =? y).

(** Case analysis on which entry of a concrete list is hit. *)
Ltac solve_poked :=
  unfold poked; cbn [find fst snd fmap option_fmap option_map];
  repeat match goal with |- context [?a =? ?b] => destruct (Z.eqb_spec a b); try lia; cbn [fmap option_fmap option_map snd] end;
  try reflexivity.

Lemma set_pixel_draws x y color : draws (at_pixel (u32 x) (u32 y)) color (set_pixel x y color).
Proof.
  intros s Hs _. unfold set_pixel, getScreenWidth, getScreenHeight. cbv zeta.
  pose proof (u32_range x). pose proof (u32_range y). set (X := u32 x) in *. set (Y := u32 y) in *.
  destruct (Z.leb_spec (framebuffer_width s) X) as [Hx|Hx], (Z.leb_spec (framebuffer_height s) Y) as [Hy|Hy]; cbn [orb].
  1-3: exists s; split; [done|]; split; [reflexivity|]; intros x' y' [? ?]; unfold at_pixel;
    destruct (Z.eqb_spec x' X), (Z.eqb_spec y' Y); try done; lia.
  assert (on_screen s X Y) as HXY by (unfold on_screen; lia).
  pose proof (row_bounds s Hs X Y HXY). rewrite (pixel_offset_eq s Hs X Y HXY).
  destruct (poke_draws s [(0, blue color); (1, green color); (2, red color)]
    (X * Z.shiftr (framebuffer_bpp s) 3 + Y * framebuffer_pitch s) color (at_pixel X Y) Hs) as (buf' & -> & G & Hp).
  - cbn [fmap list_fmap fst]. by apply (bool_decide_unpack _).
  - repeat (apply list.Forall_cons; split; [cbn; lia|]). done.
  - intros x' y' Hxy'. cbv zeta. pose proof (pixels_apart s Hs x' y' X Y) as Hap. unfold at_pixel.
    destruct (Z.eqb_spec x' X) as [->|Hne]; [destruct (Z.eqb_spec y' Y) as [->|Hne]|]; cbn [andb].
    + repeat split; solve_poked.
    + intros d Hd. unfold poked. destruct (find _ _) as [p|] eqn:F; [|done]. apply find_some in F as [Hin E%Z.eqb_eq].
      destruct (Hap d (fst p) Hxy' HXY); [lia| |lia|lia]. destruct Hin as [<-|[<-|[<-|[]]]]; cbn; lia.
    + intros d Hd. unfold poked. destruct (find _ _) as [p|] eqn:F; [|done]. apply find_some in F as [Hin E%Z.eqb_eq].
      destruct (Hap d (fst p) Hxy' HXY); [lia| |lia|lia]. destruct Hin as [<-|[<-|[<-|[]]]]; cbn; lia.
  - cbn [mbind outcome_bind]. by exists (with_back buf' s).
Qed.

Lemma coordinate_eqb x z : 0 <= x < 2 ^ 31 -> - 2 ^ 31 <= z < 2 ^ 32 -> (x =? u32 z) = (x =? z).
Proof.
  intros Hx Hz. unfold u32. destruct (Z.eqb_spec x (z mod 2 ^ 32)), (Z.eqb_spec x z); try done; Z.to_euclidean_division_equations; lia.
Qed.

(** Coordinates off the screen, negative ones included, are clipped. *)
Lemma set_pixel_at x y color : - 2 ^ 31 <= x < 2 ^ 32 -> - 2 ^ 31 <= y < 2 ^ 32 ->
  draws (at_pixel x y) color (set_pixel x y color).
Proof.
  intros Hx Hy. eapply draws_ext; [|apply set_pixel_draws]. intros x' y' Hx' Hy'. unfold at_pixel. by rewrite !coordinate_eqb.
Qed.

(** ** Rectangles and straight lines *)

Definition in_rect (x y w h x' y' : Z) : bool := (x <=? x') && (x' <? x + w) && (y <=? y') && (y' <? y + h).

Ltac pixel_sets :=
  unfold at_pixel, in_rect in *;
  repeat match goal with
  | |- context [_ || _ = true] => rewrite orb_true_iff
  | |- context [_ && _ = true] => rewrite andb_true_iff
  | |- context [(_ =? _) = true] => rewrite Z.eqb_eq
  | |- context [(_ <=? _) = true] => rewrite Z.leb_le
  | |- context [(_ <? _) = true] => rewrite Z.ltb_lt
  end.

Lemma drawHorizontalLine_draws x1 x2 y color :
  - 2 ^ 31 <= x1 -> x2 < 2 ^ 31 - 1 -> - 2 ^ 31 <= y < 2 ^ 31 ->
  draws (in_rect x1 y (x2 + 1 - x1) 1) color (drawHorizontalLine x1 x2 y color).
Proof.
  intros H1 H2 Hy. apply (draws_for_set (fun x => at_pixel x y)).
  - intros i Hi. apply set_pixel_at; lia.
  - intros x' y' Hx' Hy'. pixel_sets. split; [intros ?; exists x'; pixel_sets; lia|intros (i & ? & Hi); revert Hi; pixel_sets; lia].
Qed.

Lemma drawVerticalLine_draws y1 y2 x color :
  - 2 ^ 31 <= y1 -> y2 < 2 ^ 31 - 1 -> - 2 ^ 31 <= x < 2 ^ 31 ->
  draws (in_rect x y1 1 (y2 + 1 - y1)) color (drawVerticalLine y1 y2 x color).
Proof.
  intros H1 H2 Hy. apply (draws_for_set (fun y => at_pixel x y)).
  - intros i Hi. apply set_pixel_at; lia.
  - intros x' y' Hx' Hy'. pixel_sets. split; [intros ?; exists y'; pixel_sets; lia|intros (i & ? & Hi); revert Hi; pixel_sets; lia].
Qed.

(** [drawRect] paints exactly the part of the rectangle that is on the screen, whatever
    its position and size. *)
Theorem drawRect_paints (x y w h color : Z) (s : screen) (Hs : screen_ok s)
    (Hx : 0 <= x /\ 0 <= w /\ x + w < 2 ^ 32) (Hy : 0 <= y /\ 0 <= h /\ y + h < 2 ^ 32) :
  exists s', drawRect x y w h color s = Done s' /\ screen_ok s' /\
    forall px py, on_screen s px py ->
      getPixel px py s' = if in_rect x y w h px py then Done (rgb color) else getPixel px py s.
Proof.
  assert (draws (in_rect x y w h) color (drawRect x y w h color)) as Hd.
  { unfold drawRect, for_unsigned. rewrite !u32_small by lia. apply (draws_for_set (fun j => in_rect x j w 1)).
    - intros j Hj. apply (draws_for_set (fun i => at_pixel i j)); [intros i Hi; apply set_pixel_at; lia|].
      intros x' y' Hx' Hy'. pixel_sets. split; [intros ?; exists x'; pixel_sets; lia|intros (i & ? & Hi); revert Hi; pixel_sets; lia].
    - intros x' y' Hx' Hy'. pixel_sets. split; [intros ?; exists y'; pixel_sets; lia|intros (i & ? & Hi); revert Hi; pixel_sets; lia]. }
  by apply (draws_run _ _ _ _ Hd).
Qed.

Definition on_border (x y w h x' y' : Z) : bool :=
  in_rect x y w 1 x' y' || in_rect x (y + h) w 1 x' y' || in_rect x y 1 h x' y' || in_rect (x + w) y 1 h x' y'.

(** The two functions that draw the border of a rectangle leave the corner at [(x + w, y + h)] out. *)
Lemma border_draws m n x y w h color : 0 <= w -> 0 <= h -> m = Z.to_nat w -> n = Z.to_nat h ->
  - 2 ^ 31 <= x /\ x + w < 2 ^ 32 -> - 2 ^ 31 <= y /\ y + h < 2 ^ 32 ->
  draws (on_border x y w h) color (fun s =>
    s ← for_up m x (fun _x s => s ← set_pixel _x y color s; set_pixel _x (y + h) color s) s;
    for_up n y (fun _y s => s ← set_pixel x _y color s; set_pixel (x + w) _y color s) s).
Proof.
  intros Hw Hh -> -> Hx Hy.
  eapply draws_ext; [|apply (draws_seq (fun x' y' => in_rect x y w 1 x' y' || in_rect x (y + h) w 1 x' y')
                                         (fun x' y' => in_rect x y 1 h x' y' || in_rect (x + w) y 1 h x' y'))].
  - intros x' y' _ _. unfold on_border. cbn. by rewrite !orb_assoc.
  - apply (draws_for_set (fun i x' y' => at_pixel i y x' y' || at_pixel i (y + h) x' y')).
    + intros i Hi. apply draws_seq; apply set_pixel_at; lia.
    + intros x' y' Hx' Hy'. pixel_sets. split; [intros ?; exists x'; pixel_sets; lia|intros (i & ? & Hi); revert Hi; pixel_sets; lia].
  - apply (draws_for_set (fun j x' y' => at_pixel x j x' y' || at_pixel (x + w) j x' y')).
    + intros i Hi. apply draws_seq; apply set_pixel_at; lia.
    + intros x' y' Hx' Hy'. pixel_sets. split; [intros ?; exists y'; pixel_sets; lia|intros (i & ? & Hi); revert Hi; pixel_sets; lia].
Qed.

Theorem drawRectBorder_draws x y w h color : 0 <= w -> 0 <= h ->
  - 2 ^ 31 <= x /\ x + w < 2 ^ 31 -> - 2 ^ 31 <= y /\ y + h < 2 ^ 31 ->
  draws (on_border x y w h) color (drawRectBorder x y w h color).
Proof.
  intros Hw Hh Hx Hy. unfold drawRectBorder, for_below. rewrite !s32_small by lia. apply border_draws; lia.
Qed.

Theorem draw_rectangle_draws x y w h color : 0 <= w -> 0 <= h ->
  0 <= x /\ x + w < 2 ^ 32 -> 0 <= y /\ y + h < 2 ^ 32 ->
  draws (on_border x y w h) color (draw_rectangle x y w h color).
Proof.
  intros Hw Hh Hx Hy. unfold draw_rectangle, for_unsigned. cbv zeta. rewrite !u32_small by lia. apply border_draws; lia.
Qed.

(** ** Oblique lines *)

Section Bresenham.
Variables dx dy : Z.
Hypothesis Hdx : 0 <= dx.
Hypothesis Hdy : 0 <= dy.

(** After [a] steps in x and [b] in y the line deviates by [a * dy - b * dx], scaled by
    its length. *)
Definition deviation (a b : Z) : Z := a * dy - b * dx.

Definition on_course (a b : Z) : Prop :=
  0 <= a <= dx /\ 0 <= b <= dy /\
  if dy <=? dx then 2 * deviation a b <= dx /\ (- dx < 2 * deviation a b \/ dx = 0)
  else - dy <= 2 * deviation a b < dy.

(** Steps left, along the longer direction. *)
Definition steps_left (a b : Z) : Z := if dy <=? dx then dx - a else dy - b.

Lemma on_course_near a b : on_course a b -> 2 * Z.abs (deviation a b) <= Z.max dx dy.
Proof using Hdx Hdy.
  intros (_ & _ & H). destruct (Z.leb_spec dy dx); [|lia]. destruct H as [H [?|E]]; [lia|].
  unfold deviation. assert (dy = 0) by lia. nia.
Qed.

(** No step is left only at the end of the line. *)
Lemma on_course_end a b : on_course a b -> steps_left a b = 0 <-> a = dx /\ b = dy.
Proof using Hdx Hdy.
  unfold on_course, steps_left, deviation. intros (Ha & Hb & H). destruct (Z.leb_spec dy dx).
  - split; [|lia]. intros E. assert (a = dx) as -> by lia. split; [done|].
    destruct (Z.eq_dec dx 0); [lia|]. assert (-1 < 2 * (dy - b) <= 1) by nia. lia.
  - split; [|lia]. intros E. assert (b = dy) as -> by lia. split; [|done]. assert (-1 <= 2 * (a - dx) < 1) by nia. lia.
Qed.

(** The tests on twice the error, as the code makes them. *)
Definition steps_x (a b : Z) : bool := - dy <? 2 * (dx - dy - deviation a b).
Definition steps_y (a b : Z) : bool := 2 * (dx - dy - deviation a b) <? dx.

(** The shorter direction keeps within the line because the deviation is small. *)
Lemma minor_bound p q a b : 0 <= p -> 0 <= q -> a <= p -> - p < 2 * (a * q - b * p) -> b <= q.
Proof. intros Hp Hq Ha H. destruct (Z.le_gt_cases b q); [done|]. assert (a * q <= p * q) by nia. assert ((q + 1) * p <= b * p) by nia. lia. Qed.

Lemma bresenham_step a b : on_course a b -> steps_left a b <> 0 ->
  let a' := if steps_x a b then a + 1 else a in
  let b' := if steps_y a b then b + 1 else b in
  on_course a' b' /\ steps_left a' b' = steps_left a b - 1.
Proof using Hdx Hdy.
  unfold on_course, steps_left, steps_x, steps_y, deviation. intros (Ha & Hb & H) Hleft.
  destruct (Z.leb_spec dy dx), (Z.ltb_spec (- dy) (2 * (dx - dy - (a * dy - b * dx)))),
    (Z.ltb_spec (2 * (dx - dy - (a * dy - b * dx))) dx); cbv zeta; try lia.
  - split; [|lia]. split; [lia|]. split; [|lia]. split; [lia|]. apply (minor_bound dx dy (a + 1)); lia.
  - exfalso. destruct H as [H [H'|H']]; [|lia]. assert (dx = dy) by lia. assert (2 * (a - b) * dx = dx) by nia.
    assert (2 * (a - b) = 1) by nia. lia.
  - split; [|lia]. split; [|split; [lia|]]; [|lia]. split; [lia|]. apply (minor_bound dy dx (b + 1)); lia.
Qed.

End Bresenham.

(** A horizontal brush of [2 * (t / 2) + 1] pixels around each point. *)
Definition stroke (t : Z) (pts : list (Z * Z)) (x y : Z) : bool :=
  existsb (fun p => in_rect (fst p - t / 2) (snd p) (2 * (t / 2) + 1) 1 x y) pts.

(** Points that follow each other touch, at least by a corner. *)
Fixpoint connected (pts : list (Z * Z)) : Prop :=
  match pts with
  | p :: (q :: _) as rest => Z.abs (fst q - fst p) <= 1 /\ Z.abs (snd q - snd p) <= 1 /\ connected rest
  | _ => True
  end.

Section Lines.
Variables X0 Y0 X1 Y1 t color : Z.
Hypothesis Hcoords : Forall (fun z => - 2 ^ 26 <= z <= 2 ^ 26) [X0; Y0; X1; Y1].
Hypothesis Ht : 0 <= t <= 2 ^ 26.
Let dx := Z.abs (X1 - X0).
Let dy := Z.abs (Y1 - Y0).
Let sx := if X0 <? X1 then 1 else -1.
Let sy := if Y0 <? Y1 then 1 else -1.

(** The distance of a point from the straight line, along the shorter direction and scaled
    by the length of the longer. *)
Definition off_line (p : Z * Z) : Z := (fst p - X0) * (Y1 - Y0) - (snd p - Y0) * (X1 - X0).

Definition track (a b : Z) : Z * Z := (X0 + sx * a, Y0 + sy * b).

Lemma line_ranges : (- 2 ^ 26 <= X0 <= 2 ^ 26 /\ - 2 ^ 26 <= Y0 <= 2 ^ 26) /\
  X1 = X0 + sx * dx /\ Y1 = Y0 + sy * dy /\ 0 <= dx <= 2 ^ 27 /\ 0 <= dy <= 2 ^ 27 /\ Z.abs sx = 1 /\ Z.abs sy = 1.
Proof.
  pose proof Hcoords as H. rewrite !list.Forall_cons in H. destruct H as (? & ? & ? & ? & _).
  unfold dx, dy, sx, sy. destruct (Z.ltb_spec X0 X1), (Z.ltb_spec Y0 Y1); lia.
Qed.

Lemma track_off a b : Z.abs (off_line (track a b)) = Z.abs (deviation dx dy a b).
Proof.
  destruct line_ranges as (_ & E1 & E2 & _ & _ & S1 & S2). unfold off_line, track, deviation. cbn [fst snd].
  rewrite E1, E2. replace ((X0 + sx * a - X0) * (Y0 + sy * dy - Y0) - (Y0 + sy * b - Y0) * (X0 + sx * dx - X0))
    with (sx * sy * (a * dy - b * dx)) by ring. rewrite !Z.abs_mul, S1, S2. lia.
Qed.

Lemma brush_draws a b : on_course dx dy a b ->
  draws (in_rect (fst (track a b) - t / 2) (snd (track a b)) (2 * (t / 2) + 1) 1) color
    (for_to (Z.quot (- t) 2) (Z.quot t 2) (fun i => set_pixel (s32 (fst (track a b) + i)) (snd (track a b)) color)).
Proof.
  intros (Ha & Hb & _). destruct line_ranges as ((? & ?) & _ & _ & ? & ? & S1 & S2).
  assert (Z.abs (sx * a) <= dx) by (rewrite Z.abs_mul, S1; lia). assert (Z.abs (sy * b) <= dy) by (rewrite Z.abs_mul, S2; lia).
  unfold track. cbn [fst snd]. set (x := X0 + sx * a) in *. set (y := Y0 + sy * b) in *.
  rewrite Z.quot_opp_l, Z.quot_div_nonneg by lia. pose proof (Z.div_mod t 2 ltac:(lia)). pose proof (Z.mod_pos_bound t 2 ltac:(lia)).
  apply (draws_for_set (fun i => at_pixel (x + i) y)).
  - intros i Hi. rewrite s32_small by lia. apply set_pixel_at; lia.
  - intros x' y' Hx' Hy'. pixel_sets. split; [intros ?; exists (x' - x); pixel_sets; lia|intros (i & ? & Hi); revert Hi; pixel_sets; lia].
Qed.

Lemma line_loop_draws n : forall fuel a b, on_course dx dy a b -> steps_left dx dy a b = Z.of_nat n -> (n < fuel)%nat ->
  exists pts, draws (stroke t (track a b :: pts)) color
      (line_loop (fun x y => set_pixel x y color) fuel (fst (track a b)) (snd (track a b)) X1 Y1 dx dy sx sy (dx - dy - deviation dx dy a b) t) /\
    Datatypes.length pts = n /\ list.last (track a b :: pts) = Some (X1, Y1) /\ connected (track a b :: pts) /\
    Forall (fun p => 2 * Z.abs (off_line p) <= Z.max dx dy) (track a b :: pts).
Proof.
  destruct line_ranges as ((? & ?) & E1 & E2 & ? & ? & S1 & S2).
  induction n as [|n IH]; intros [|fuel] a b Hc Hn Hfuel; try lia; pose proof (brush_draws a b Hc) as Hbrush;
    pose proof (on_course_near dx dy ltac:(lia) ltac:(lia) a b Hc) as Hnear; rewrite <- track_off in Hnear.
  - apply (on_course_end dx dy ltac:(lia) ltac:(lia)) in Hn as [-> ->]; [|done]. exists [].
    assert (track dx dy = (X1, Y1)) as Et by (unfold track; by rewrite <- E1, <- E2).
    split; [|split; [done|]; split; [by rewrite Et|]; split; [done|]; by constructor].
    eapply draws_ext; [|apply (draws_seq _ (fun _ _ => false) color _ _ Hbrush)].
    + intros x y _ _. unfold stroke. cbn [existsb]. done.
    + rewrite Et. cbn [fst snd]. rewrite !Z.eqb_refl. apply draws_nothing.
  - destruct (bresenham_step dx dy ltac:(lia) ltac:(lia) a b Hc ltac:(lia)) as [Hc' Hn'].
    set (a' := if steps_x dx dy a b then a + 1 else a) in *. set (b' := if steps_y dx dy a b then b + 1 else b) in *.
    destruct (IH fuel a' b' Hc' ltac:(lia) ltac:(lia)) as (pts & Hd & Hl & Hlast & Hcon & Hall).
    exists (track a' b' :: pts). split; [|split; [cbn; lia|]; split; [done|]; split].
    + change (stroke t (track a b :: track a' b' :: pts)) with
        (fun x y => in_rect (fst (track a b) - t / 2) (snd (track a b)) (2 * (t / 2) + 1) 1 x y || stroke t (track a' b' :: pts) x y).
      cbn [line_loop]. apply draws_seq; [exact Hbrush|]. revert Hd. pose proof Hc as (Ha & Hb & _). pose proof Hc' as (Ha' & Hb' & _).
      assert ((fst (track a b) =? X1) && (snd (track a b) =? Y1) = false) as ->.
      { destruct (on_course_end dx dy ltac:(lia) ltac:(lia) a b Hc) as [_ Hend]. apply not_true_is_false.
        rewrite andb_true_iff, !Z.eqb_eq. unfold track. cbn [fst snd]. intros [? ?]. assert (a = dx /\ b = dy) by nia. lia. }
      assert (Z.abs (deviation dx dy a b) <= 2 ^ 27) by (rewrite track_off in Hnear; lia).
      assert (Z.abs (sx * a) <= dx) by (rewrite Z.abs_mul, S1; lia). assert (Z.abs (sy * b) <= dy) by (rewrite Z.abs_mul, S2; lia).
      rewrite !(s32_small (_ * 2)) by lia. rewrite (Z.mul_comm _ 2). fold (steps_x dx dy a b) (steps_y dx dy a b). cbv zeta.
      set (E := dx - dy - deviation dx dy a b) in *.
      assert (s32 (E - dy) = E - dy) as R1 by (apply s32_small; lia). assert (s32 (E + dx) = E + dx) as R2 by (apply s32_small; lia).
      assert (s32 (E - dy + dx) = E - dy + dx) as R3 by (apply s32_small; lia).
      assert (s32 (X0 + sx * a + sx) = X0 + sx * a + sx) as R4 by (apply s32_small; lia).
      assert (s32 (Y0 + sy * b + sy) = Y0 + sy * b + sy) as R5 by (apply s32_small; lia).
      unfold a', b', track. cbn [fst snd].
      destruct (steps_x dx dy a b), (steps_y dx dy a b); rewrite ?R1, ?R2, ?R3, ?R4, ?R5; intros Hd; (eapply eq_ind; [exact Hd|]); f_equal;
        unfold E, deviation; ring.
    + cbn [connected]. split; [|split; [|done]]; unfold track, a', b'; cbn [fst snd]; [destruct (steps_x _ _ _ _)|destruct (steps_y _ _ _ _)]; lia.
    + by constructor.
Qed.

End Lines.

(** The points of a line from [(x0, y0)] to [(x1, y1)]. *)
Record line_points (x0 y0 x1 y1 : Z) (pts : list (Z * Z)) : Prop := {
  lp_count : Z.of_nat (Datatypes.length pts) = Z.max (Z.abs (x1 - x0)) (Z.abs (y1 - y0)) + 1;
  lp_first : head pts = Some (x0, y0);
  lp_last : list.last pts = Some (x1, y1);
  lp_connected : connected pts;
  lp_straight : Forall (fun p => 2 * Z.abs (off_line x0 y0 x1 y1 p) <= Z.max (Z.abs (x1 - x0)) (Z.abs (y1 - y0))) pts
}.

(** C29: [draw_line] ends, and paints a connected chain of points from one end to the other,
    one for each step along the longer direction and none further than half a pixel from the
    straight line, with a brush of the given thickness; nothing else changes. *)
Theorem draw_line_is_straight (x0 y0 x1 y1 thickness color : Z) (s : screen) (Hs : screen_ok s)
    (Hcoords : Forall (fun z => - 2 ^ 26 <= z <= 2 ^ 26) [x0; y0; x1; y1]) (Ht : 0 <= thickness <= 2 ^ 26) :
  exists pts s', line_points x0 y0 x1 y1 pts /\ draw_line x0 y0 x1 y1 thickness color s = Done s' /\ screen_ok s' /\
    forall px py, on_screen s px py ->
      getPixel px py s' = if stroke thickness pts px py then Done (rgb color) else getPixel px py s.
Proof.
  destruct (line_ranges x0 y0 x1 y1 Hcoords) as ((? & ?) & E1 & E2 & ? & ? & S1 & S2).
  set (dx := Z.abs (x1 - x0)) in *. set (dy := Z.abs (y1 - y0)) in *.
  assert (on_course dx dy 0 0) as Hc by (unfold on_course, deviation; destruct (Z.leb_spec dy dx); lia).
  assert (steps_left dx dy 0 0 = Z.of_nat (Z.to_nat (Z.max dx dy))) as Hn by (unfold steps_left; destruct (Z.leb_spec dy dx); lia).
  destruct (line_loop_draws x0 y0 x1 y1 thickness color Hcoords Ht (Z.to_nat (Z.max dx dy)) (S (Z.to_nat (Z.max dx dy))) 0 0 Hc Hn
    (Nat.lt_succ_diag_r _)) as (pts & Hd & Hl & Hlast & Hcon & Hall). fold dx dy in Hd, Hall.
  assert (track x0 y0 x1 y1 0 0 = (x0, y0)) as Et by (unfold track; f_equal; lia). rewrite Et in *. cbn [fst snd] in Hd.
  assert (deviation dx dy 0 0 = 0) as Ed by (unfold deviation; lia). rewrite Ed, Z.sub_0_r in Hd.
  destruct (draws_run _ _ _ _ Hd Hs I) as (s' & E & Hs' & HP). exists ((x0, y0) :: pts), s'. split; [|split; [|split; done]].
  - split; [cbn; lia|done|done|done|done].
  - rewrite <- E. unfold draw_line, line. rewrite (s32_small (x1 - x0)), (s32_small (y1 - y0)) by lia.
    fold dx dy. rewrite (s32_small (dx - dy)) by lia. done.
Qed.

(** ** Circles *)

(** Some set of pixels is painted. *)
Definition draws_within (P : Z -> Z -> Prop) (color : Z) (m : screen -> outcome screen) : Prop :=
  exists Q, draws Q color m /\ forall x y, Q x y = true -> P x y.

Lemma draws_within_seq (P : Z -> Z -> Prop) color m1 m2 : draws_within P color m1 -> draws_within P color m2 ->
  draws_within P color (fun s => s ← m1 s; m2 s).
Proof.
  intros (Q1 & H1 & S1) (Q2 & H2 & S2). exists (fun x y => Q1 x y || Q2 x y). split; [by apply draws_seq|].
  intros x y [?|?]%orb_true_iff; auto.
Qed.

Lemma draws_within_nothing (P : Z -> Z -> Prop) color : draws_within P color (fun s => Done s).
Proof. exists (fun _ _ => false). split; [apply draws_nothing|done]. Qed.

Lemma row_within (P : Z -> Z -> Prop) x1 x2 y color : - 2 ^ 31 <= x1 -> x2 < 2 ^ 31 - 1 -> - 2 ^ 31 <= y < 2 ^ 31 ->
  (forall x, x1 <= x <= x2 -> P x y) -> draws_within P color (drawHorizontalLine x1 x2 y color).
Proof.
  intros H1 H2 Hy HP. eexists. split; [by apply drawHorizontalLine_draws|]. intros x y' H. revert H. unfold in_rect.
  rewrite !andb_true_iff, !Z.leb_le, !Z.ltb_lt. intros. assert (y' = y) as -> by lia. apply HP. lia.
Qed.

(** In every round of [disc_loop] the distance [x - y] shrinks. *)
Lemma disc_loop_within (P : Z -> Z -> Prop) color row R : 
  (forall x y, 0 <= y <= x -> x <= R -> draws_within P color (row x y)) ->
  forall n fuel x y err, 0 <= y -> x <= R -> x - y < Z.of_nat n -> (n < fuel)%nat ->
    draws_within P color (disc_loop fuel row x y err).
Proof.
  intros Hrow. induction n as [|n IH]; intros [|fuel] x y err Hy Hx Hn Hf; try lia; cbn [disc_loop].
  - destruct (Z.leb_spec y x); [lia|]. apply draws_within_nothing.
  - destruct (Z.leb_spec y x); [|apply draws_within_nothing].
    cbv zeta. apply draws_within_seq; [by apply Hrow|]. apply IH; try lia.
    + destruct (err <=? 0); lia.
    + destruct (0 <? _); lia.
    + destruct (Z.leb_spec err 0); [destruct (0 <? _); lia|]. destruct (Z.ltb_spec 0 err); lia.
Qed.

Definition in_box (x0 y0 left right radius x y : Z) : Prop :=
  x0 - radius - left <= x <= x0 + radius + right /\ y0 - radius <= y <= y0 + radius.

(** The filled shapes with a round side end, for every center and radius, and paint only
    inside their bounding box. *)
Theorem filled_circles_end (x0 y0 radius w mode color : Z) (s : screen) (Hs : screen_ok s)
    (Hx : - 2 ^ 28 <= x0 <= 2 ^ 28) (Hy : - 2 ^ 28 <= y0 <= 2 ^ 28) (Hr : radius <= 2 ^ 28) (Hw : 0 <= w <= 2 ^ 28) :
  exists s1 s2, drawFilledCircle x0 y0 radius color s = Done s1 /\ drawFilledRectBorder x0 y0 radius w mode color s1 = Done s2 /\
    screen_ok s2 /\ forall px py, on_screen s px py -> ~ in_box x0 y0 (w / 2) (w / 2) radius px py ->
      getPixel px py s2 = getPixel px py s.
Proof.
  set (P := in_box x0 y0 (w / 2) (w / 2) radius). pose proof (Z.div_pos w 2 ltac:(lia) ltac:(lia)) as Hq.
  assert (w / 2 <= 2 ^ 27) by (apply Z.div_le_upper_bound; lia).
  assert (forall row, (forall x y, 0 <= y <= x -> x <= radius -> draws_within P color (row x y)) ->
    draws_within P color (disc_loop (S (Z.to_nat (radius + 1))) row radius 0 0)) as Hloop
    by (intros row Hrow; apply (disc_loop_within P color row radius Hrow (Z.to_nat (radius + 1))); lia).
  assert (draws_within P color (drawFilledCircle x0 y0 radius color)) as (Q1 & D1 & S1).
  { apply Hloop. intros x y Hyx Hxr. rewrite !s32_small by lia.
    repeat apply draws_within_seq; apply row_within; unfold P, in_box; lia. }
  assert (draws_within P color (drawFilledRectBorder x0 y0 radius w mode color)) as (Q2 & D2 & S2).
  { apply Hloop. intros x y Hyx Hxr. rewrite Z.quot_div_nonneg by lia.
    destruct ((mode =? 3) || (mode =? 4)), ((mode =? 1) || (mode =? 2)); rewrite !s32_small by lia;
      repeat apply draws_within_seq; apply row_within; unfold P, in_box; lia. }
  destruct (draws_run _ _ _ _ (draws_seq _ _ _ _ _ D1 D2) Hs I) as (s2 & E & Hs2 & HP). destruct (D1 s Hs I) as (s1 & E1 & _ & _).
  rewrite E1 in E. cbn [mbind outcome_bind] in E. exists s1, s2. split; [done|]. split; [done|].
  split; [done|]. intros px py Hp Hout. rewrite HP by done.
  destruct (Q1 px py) eqn:F1; [by destruct Hout; apply S1|]. destruct (Q2 px py) eqn:F2; [by destruct Hout; apply S2|]. done.
Qed.

(** The error term of [draw_circle], in terms of the position and of the number [k] of
    diagonal steps so far. *)
Definition circle_delta (r x y k : Z) : Z := (x + 1) * (x + 1) + y * y - (r + 1) * (r + 1) + 1 - 2 * k.

Lemma circle_loop_ends (r xc yc color : Z) : - 2 ^ 28 <= xc <= 2 ^ 28 -> - 2 ^ 28 <= yc <= 2 ^ 28 -> r <= 2 ^ 14 ->
  forall n fuel x y k, 0 <= k -> k + y <= r -> -1 <= y -> 0 <= x <= r + 1 + k -> 2 * r + 3 - x + 2 * (y + 1) <= Z.of_nat n -> (n < fuel)%nat ->
    draws_within (fun px py => Z.abs (py - yc) <= r) color (circle_loop fuel xc yc color x y (circle_delta r x y k)).
Proof.
  intros Hxc Hyc Hr. induction n as [|n IH]; intros [|fuel] x y k Hk Hky Hy Hx Hn Hf; try lia.
  cbn [circle_loop]. destruct (Z.leb_spec 0 y); [|apply draws_within_nothing].
  assert (0 <= (x + 1) * (x + 1) <= (2 ^ 15 + 3) * (2 ^ 15 + 3)) by nia. assert (0 <= y * y <= 2 ^ 14 * 2 ^ 14) by nia.
  assert (0 <= (r + 1) * (r + 1) <= (2 ^ 14 + 1) * (2 ^ 14 + 1)) by nia.
  assert (- 2 ^ 30 <= circle_delta r x y k <= 2 ^ 30 + 2 ^ 29) by (unfold circle_delta; lia). cbv zeta.
  assert (forall px py, - 2 ^ 30 <= px <= 2 ^ 30 -> - 2 ^ 30 <= py <= 2 ^ 30 -> Z.abs (py - yc) <= r ->
    draws_within (fun px py => Z.abs (py - yc) <= r) color (set_pixel px py color)) as Hset.
  { intros px py Hpx Hpy Hin. eexists. split; [apply set_pixel_at; lia|]. intros x' y'. pixel_sets. lia. }
  do 4 (apply draws_within_seq; [apply Hset; lia|]).
  destruct ((circle_delta r x y k <? 0) && _) eqn:F1; [|destruct ((0 <? circle_delta r x y k) && _)]; rewrite s32_small by lia.
  - apply andb_true_iff in F1 as [F1%Z.ltb_lt _]. assert (x <= r) by (unfold circle_delta in F1; assert ((x + 1) * (x + 1) < (r + 2) * (r + 2)) by nia; nia).
    replace (circle_delta r x y k + _) with (circle_delta r (x + 1) y k) by (unfold circle_delta; ring). apply IH; lia.
  - replace (circle_delta r x y k - _) with (circle_delta r x (y - 1) k) by (unfold circle_delta; ring). apply IH; lia.
  - replace (circle_delta r x y k + _) with (circle_delta r (x + 1) (y - 1) (k + 1)) by (unfold circle_delta; ring). apply IH; lia.
Qed.

(** [draw_circle] ends for every center and radius, and paints only the rows within the
    radius. *)
Theorem circle_ends (xc yc radius color : Z) (s : screen) (Hs : screen_ok s)
    (Hx : - 2 ^ 28 <= xc <= 2 ^ 28) (Hy : - 2 ^ 28 <= yc <= 2 ^ 28) (Hr : - 2 ^ 14 <= radius <= 2 ^ 14) :
  exists s', draw_circle xc yc radius color s = Done s' /\ screen_ok s' /\
    forall px py, on_screen s px py -> radius < Z.abs (py - yc) -> getPixel px py s' = getPixel px py s.
Proof.
  assert (draws_within (fun px py => Z.abs (py - yc) <= radius) color (draw_circle xc yc radius color)) as (Q & D & HQ).
  { unfold draw_circle. destruct (Z.le_gt_cases 0 radius).
    - rewrite s32_small by lia. replace (1 - 2 * radius) with (circle_delta radius 0 radius 0) by (unfold circle_delta; ring).
      apply (circle_loop_ends radius xc yc color Hx Hy ltac:(lia) (Z.to_nat (4 * radius + 5))); lia.
    - cbn [circle_loop]. destruct (Z.leb_spec 0 radius); [lia|]. apply draws_within_nothing. }
  destruct (draws_run _ _ _ _ D Hs I) as (s' & E & Hs' & HP). exists s'. split; [done|]. split; [done|].
  intros px py Hp Hout. rewrite HP by done. destruct (Q px py) eqn:F; [|done]. apply HQ in F. lia.
Qed.

(** ** Filled rectangles *)

(** Screens with 32 bits per pixel and the size of [s0]. *)
Definition like (s0 : screen) (s : screen) : Prop := same_geometry s0 s.

#[export] Instance like_geometry_only s0 : GeometryOnly (like s0).
Proof. intros s s' G Hl. by etransitivity. Qed.

Lemma set_pixel4x1_draws s0 x y color :
  Z.shiftr (framebuffer_bpp s0) 3 = 4 -> 0 <= x -> x + 4 <= framebuffer_width s0 -> 0 <= y < framebuffer_height s0 ->
  draws_on (like s0) (in_rect x y 4 1) color (set_pixel4x1 x y color).
Proof.
  intros HB Hx Hx4 Hy s Hs [_ Ep Eb Ew Eh _ _ _ _]. unfold set_pixel4x1. cbv zeta.
  assert (on_screen s x y) as HXY by (unfold on_screen; lia). assert (on_screen s (x + 3) y) as HXY3 by (unfold on_screen; lia).
  pose proof (ok_width s Hs). pose proof (ok_height s Hs). rewrite !u32_small by lia. rewrite (pixel_offset_eq s Hs x y HXY).
  pose proof (row_bounds s Hs _ _ HXY). pose proof (row_bounds s Hs _ _ HXY3). rewrite Eb, HB in *.
  set (ds := [(12, _); _; _; _; _; _; _; _; _; _; _; _]).
  destruct (poke_draws s ds (x * 4 + y * framebuffer_pitch s) color (in_rect x y 4 1) Hs) as (buf' & -> & G & Hp).
  - cbn [ds fmap list_fmap fst]. by apply (bool_decide_unpack _).
  - unfold ds. repeat (apply list.Forall_cons; split; [cbn; lia|]). done.
  - intros x' y' Hxy'. cbv zeta. rewrite Eb, HB. pose proof (row_bounds s Hs _ _ Hxy') as Hr. rewrite Eb, HB in Hr. unfold in_rect.
    destruct (Z.leb_spec x x'), (Z.ltb_spec x' (x + 4)), (Z.leb_spec y y'), (Z.ltb_spec y' (y + 1)); cbn [andb].
    1: { assert (y' = y) as -> by lia. assert (x' = x \/ x' = x + 1 \/ x' = x + 2 \/ x' = x + 3) as [E | [E | [E | E]]] by lia;
      (rewrite E; repeat split); unfold ds; solve_poked. }
    all: intros d Hd; unfold poked; destruct (find _ _) as [p|] eqn:F; [|done]; apply find_some in F as [Hin E%Z.eqb_eq]; exfalso;
      pose proof (pixels_apart s Hs x' y' (x + fst p / 4) y d (fst p mod 4) Hxy') as Hap; rewrite Eb, HB in Hap;
      assert (0 <= fst p < 15 /\ fst p mod 4 < 4 /\ fst p = 4 * (fst p / 4) + fst p mod 4) as (? & ? & ?)
        by (unfold ds in Hin; cbn [In] in Hin; repeat (destruct Hin as [<-|Hin]; [cbn; split; [lia|split; reflexivity]|]); destruct Hin);
      pose proof (Z.mod_pos_bound (fst p) 4 ltac:(lia)); pose proof (Z.div_pos (fst p) 4 ltac:(lia) ltac:(lia));
      destruct Hap; [unfold on_screen in *; lia|lia|lia|lia|lia].
  - cbn [mbind outcome_bind]. by exists (with_back buf' s).
Qed.

(** Rounding a width up to whole groups of four pixels. *)
Definition up4 (w : Z) : Z := 4 * ((w + 3) / 4).

Lemma up4_range w : w <= up4 w < w + 4.
Proof. unfold up4. Z.to_euclidean_division_equations; lia. Qed.

Section FilledRectangle.
Variable s0 : screen.
Variables x w color : Z.
Hypothesis HB : Z.shiftr (framebuffer_bpp s0) 3 = 4.
Hypothesis Hx : 0 <= x.
Hypothesis Hw : 0 <= w.
Hypothesis Hxw : x + up4 w <= framebuffer_width s0 < 2 ^ 31.

Lemma strides_draw Y n : 0 <= Y < framebuffer_height s0 -> framebuffer_height s0 < 2 ^ 31 -> forall fuel j, 0 <= j -> j + 4 * Z.of_nat n = up4 w -> (n < fuel)%nat ->
  forall s, screen_ok s -> like s0 s ->
  exists s', strides fuel j w (fun j => set_pixel4x1 (u32 (x + j)) (u32 Y) color) s = Done (up4 w, s') /\ same_geometry s s' /\
    paints (in_rect (x + j) Y (4 * Z.of_nat n) 1) color s s'.
Proof.
  intros HY HH. pose proof (up4_range w). induction n as [|n IH]; intros [|fuel] j Hj Hjn Hf s Hs Hl; try lia; cbn [strides].
  - destruct (Z.ltb_spec j w); [lia|]. exists s. split; [do 2 f_equal; lia|]. split; [reflexivity|]. intros px py _.
    destruct (in_rect _ _ _ _ _ _) eqn:F; [|done]. revert F. pixel_sets. lia.
  - destruct (Z.ltb_spec j w); [|exfalso; unfold up4 in *; Z.to_euclidean_division_equations; lia]. rewrite (u32_small (j + 4)) by lia.
    set (body := fun j => set_pixel4x1 (u32 (x + j)) (u32 Y) color) in *.
    assert (set_pixel4x1 (u32 (x + j)) (u32 Y) color = set_pixel4x1 (x + j) Y color) as -> by (by rewrite !u32_small by lia).
    destruct (set_pixel4x1_draws s0 (x + j) Y color HB ltac:(lia) ltac:(lia) ltac:(lia) s Hs Hl) as (s1 & -> & G1 & P1).
    cbn [mbind outcome_bind].
    destruct (IH fuel (j + 4) ltac:(lia) ltac:(lia) ltac:(lia) s1 (screen_ok_geometry _ _ G1 Hs) (geometry_only _ _ G1 Hl)) as (s2 & -> & G2 & P2).
    exists s2. split; [done|]. split; [by etransitivity|]. intros px py Hp. rewrite P2 by by apply (on_screen_geometry s). rewrite P1 by done.
    assert (in_rect (x + j) Y (4 * Z.of_nat (S n)) 1 px py = in_rect (x + j) Y 4 1 px py || in_rect (x + (j + 4)) Y (4 * Z.of_nat n) 1 px py) as ->
      by (apply eq_true_iff_eq; pixel_sets; lia).
    by destruct (in_rect (x + (j + 4)) _ _ _ _ _), (in_rect (x + j) _ _ _ _ _).
Qed.

Lemma filled_rectangle_draws y h : 0 <= y -> 0 <= h -> y + h <= framebuffer_height s0 < 2 ^ 31 ->
  draws_on (like s0) (in_rect x y (up4 w) h) color (draw_filled_rectangle x y w h color).
Proof.
  intros Hy Hh Hyh. pose proof (up4_range w). unfold draw_filled_rectangle.
  apply (draws_for_set (fun i => in_rect x (y + i) (up4 w) 1)).
  - intros i Hi s Hs Hl. rewrite Z2Nat.id in Hi by lia.
    destruct (strides_draw (y + i) (Z.to_nat ((w + 3) / 4)) ltac:(lia) ltac:(lia) (S (S (Z.to_nat (w / 4)))) 0 ltac:(lia)) with (s := s) as (s1 & -> & G1 & P1); try done.
    { rewrite Z2Nat.id by (apply Z.div_pos; lia). unfold up4. lia. }
    { Z.to_euclidean_division_equations; lia. }
    rewrite Z2Nat.id, Z.add_0_r in P1 by (apply Z.div_pos; lia). fold (up4 w) in P1. cbn [mbind outcome_bind].
    assert (draws (fun px py => existsb (fun j => at_pixel (x + j) (y + i) px py) (seqZ (u32 (up4 w - 4)) (Z.of_nat (Z.to_nat (w - u32 (up4 w - 4))))))
      color (for_below (u32 (up4 w - 4)) w (fun j => set_pixel (x + j) (y + i) color))) as Hd.
    { apply (draws_for (fun _ => True)). intros j Hj. apply set_pixel_at; pose proof (u32_range (up4 w - 4)); lia. }
    destruct (Hd s1 (screen_ok_geometry _ _ G1 Hs) I) as (s2 & E & G2 & P2). exists s2. split; [done|]. split; [by etransitivity|].
    intros px py Hp. rewrite P2 by by apply (on_screen_geometry s). rewrite P1 by done.
    destruct (existsb _ _) eqn:F; [|done]. apply existsb_exists in F as (j & Hj%list_elem_of_In%elem_of_seqZ & Hat).
    assert (in_rect x (y + i) (up4 w) 1 px py = true) as ->; [|done]. revert Hat. pixel_sets. intros ?.
    destruct (Z.eq_dec w 0) as [E0|]; [|assert (4 <= up4 w) by (unfold up4; Z.to_euclidean_division_equations; lia); rewrite u32_small in Hj by lia; lia].
    unfold up4 in Hj. rewrite E0 in Hj. change (u32 _) with (2 ^ 32 - 4) in Hj. lia.
  - intros px py Hp Hp'. pixel_sets. split; [intros ?; exists (py - y); pixel_sets; lia|intros (i & ? & Hi); revert Hi; pixel_sets; lia].
Qed.

End FilledRectangle.

(** On a screen with 32 bits per pixel [draw_filled_rectangle] paints whole groups of four
    pixels: the rectangle, and up to three more columns, which must be on the screen. *)
Theorem draw_filled_rectangle_paints (x y w h color : Z) (s : screen) (Hs : screen_ok s)
    (HB : Z.shiftr (framebuffer_bpp s) 3 = 4)
    (Hx : 0 <= x /\ 0 <= w /\ x + up4 w <= framebuffer_width s) (Hy : 0 <= y /\ 0 <= h /\ y + h <= framebuffer_height s) :
  exists s', draw_filled_rectangle x y w h color s = Done s' /\ screen_ok s' /\
    forall px py, on_screen s px py ->
      getPixel px py s' = if in_rect x y (up4 w) h px py then Done (rgb color) else getPixel px py s.
Proof.
  pose proof (ok_width s Hs). pose proof (ok_height s Hs).
  apply (draws_run (pre := like s)); [|done|reflexivity]. apply filled_rectangle_draws; lia || done.
Qed.

(** ** The buffers *)

(** The display shows what was drawn. *)
Theorem screen_update_shows (s : screen) (Hs : screen_ok s) :
  exists s', screen_update s = Done s' /\ screen_ok s' /\ framebuffer s' = back_framebuffer s /\ back_framebuffer s' = back_framebuffer s.
Proof.
  pose proof (ok_back s Hs). pose proof (ok_front s Hs). unfold screen_update. cbv zeta. destruct (decide _) as [|Hn]; [|destruct Hn; lia].
  assert (take (Z.to_nat (framebuffer_size s)) (back_framebuffer s) ++ drop (Z.to_nat (framebuffer_size s)) (framebuffer s) = back_framebuffer s) as ->
    by (rewrite take_ge, drop_ge, app_nil_r; [done|lia..]).
  eexists. split; [reflexivity|]. split; [|done]. destruct Hs. split; cbn; done || lia.
Qed.

Lemma clean_screen_ok s : screen_ok s -> screen_ok (clean_screen s).
Proof. intros []. split; cbn; rewrite ?length_replicate; done || lia. Qed.

Definition is_color (c : list Z) : Prop := exists r g b a, c = [r; g; b; a] /\ Forall (fun v => 0 <= v < 256) c.

(** Blending keeps every component between those of its two colors: an opaque color hides
    what is behind it, and a transparent one leaves it as it is. *)
Theorem rgba_blend_between (fg bg : list Z) : is_color fg -> is_color bg ->
  exists r0 r1 r2, rgba_blend fg bg = Done [r0; r1; r2; 255] /\
    (forall i f b r, fg !! i = Some f -> bg !! i = Some b -> [r0; r1; r2] !! i = Some r ->
       Z.min f b <= r <= Z.max f b /\ (fg !! 3%nat = Some 255 -> r = f) /\ (fg !! 3%nat = Some 0 -> r = b)).
Proof.
  intros (f0 & f1 & f2 & a & -> & Hf) (b0 & b1 & b2 & ab & -> & Hb). rewrite !list.Forall_cons in Hf, Hb.
  destruct Hf as (? & ? & ? & Ha & _), Hb as (? & ? & ? & _ & _).
  assert (forall f b, 0 <= f < 256 -> 0 <= b < 256 -> let v := (a + 1) * f + (256 - a) * b in
    u8 (Z.shiftr (u32 ((a + 1) * f + u32 (256 - a) * b)) 8) = v / 256 /\
    Z.min f b <= v / 256 <= Z.max f b /\ (a = 255 -> v / 256 = f) /\ (a = 0 -> v / 256 = b)) as Hmix.
  { intros f b Hf Hb v. rewrite (u32_small (256 - a)) by lia. fold v.
    assert (0 <= v <= 257 * Z.max f b) by (unfold v; nia). assert (256 * Z.min f b <= v) by (unfold v; nia).
    rewrite u32_small by lia. rewrite Z.shiftr_div_pow2 by lia. change (2 ^ 8) with 256.
    assert (Z.min f b <= v / 256 <= Z.max f b) as Hmm by (Z.to_euclidean_division_equations; lia).
    split; [unfold u8; rewrite Z.mod_small by lia; done|]. split; [done|].
    split; intros ->; unfold v; Z.to_euclidean_division_equations; lia. }
  do 3 eexists. split; [reflexivity|]. intros i f b r Hf Hb Hr.
  destruct i as [|[|[|i]]]; cbn in Hf, Hb, Hr; try done; injection Hf as <-; injection Hb as <-; injection Hr as <-;
    edestruct Hmix as (-> & ? & Hop & Htr); try eassumption; (split; [done|]); split; intros [=]; auto.
Qed.

Section Modes.
Context {M : Type} `{PageOps M}.

(** After a change of mode every pixel has its place in the new back buffer, if a row is at
    most 32 pixels longer than its visible part. *)
Theorem graphics_update_fits w h pitch (s s' : screen) (k k' : kernel_memory M) :
  0 < w -> 0 <= h -> (w + 32) * h * 4 <= 2 ^ 31 -> 4 * w <= pitch <= 4 * (w + 32) ->
  Z.of_nat (Datatypes.length (framebuffer s)) = ALIGN ((w + 32) * h * 4) PAGE_SIZE ->
  graphics_update w h pitch s k = Done (s', k') -> w < 2 ^ 31 -> h < 2 ^ 31 -> screen_ok s'.
Proof.
  intros Hw Hh Hsize Hpitch Hfront. unfold graphics_update.
  destruct (unmap_display _ _ _) as [m1| |]; [|done|done]. cbn [mbind outcome_bind]. destruct (Z.eqb_spec w 0); [lia|].
  destruct (map_display _ _ _) as [m2| |]; [|done|done]. cbn [mbind outcome_bind].
  destruct (kfree _ _) as [k1| |]; [|done|done]. cbn [mbind outcome_bind]. unfold create_back_framebuffer.
  destruct (kmalloc_common _ _ _) as [[a k2]| |]; [|done|done]. cbn [mbind outcome_bind].
  destruct (fill_bytes _ _ _ _) as [m3| |]; [|done|done]. cbn [mbind outcome_bind]. intros [= <- _] Hw31 Hh31.
  assert (u32 (u32 (u32 (w + 32) * h) * 4) = (w + 32) * h * 4) as Es.
  { destruct (Z.eq_dec h 0) as [->|]; [by rewrite !Z.mul_0_r|]. assert (w + 32 <= (w + 32) * h) by nia.
    by rewrite (u32_small (w + 32)), (u32_small ((w + 32) * h)), (u32_small ((w + 32) * h * 4)) by lia. }
  set (size := ALIGN (u32 _) PAGE_SIZE). assert (size = ALIGN ((w + 32) * h * 4) PAGE_SIZE) as Ez by (unfold size; by rewrite Es).
  pose proof (ALIGN_bounds ((w + 32) * h * 4) PAGE_SIZE ltac:(nia) ltac:(unfold PAGE_SIZE; lia) ltac:(unfold PAGE_SIZE; lia)) as Hb. rewrite <- Ez in Hb.
  assert (4 <= pitch / w) by (apply Z.div_le_lower_bound; lia).
  assert (w * (pitch / w) <= pitch) by (apply Z.mul_div_le; lia).
  assert (pitch / w <= 132) by (apply Z.div_le_upper_bound; nia).
  assert (Z.shiftr (u32 (Z.shiftl (pitch / w) 3)) 3 = pitch / w) as Eb.
  { rewrite Z.shiftl_mul_pow2, Z.shiftr_div_pow2 by lia. rewrite u32_small by lia. apply Z.div_mul. done. }
  split; cbn -[Z.shiftl Z.shiftr]; rewrite ?Eb, ?length_replicate; rewrite ?Hfront, <- ?Ez; try (unfold PAGE_SIZE in *; nia).
Qed.

End Modes.

(** ** Concrete screens *)

(** 8 by 4 pixels of 32 bits. *)
Definition small_screen : screen := Screen 0xfd000000 32 32 8 4 128 0xc1000000 (replicate 128 0) (replicate 128 0).

Lemma small_screen_ok : screen_ok small_screen.
Proof. split; cbn -[Z.shiftr]; try lia; change (Z.shiftr 32 3) with 4; lia. Defined.

Lemma drawRect_paints_witness :
  exists s', drawRect 6 2 10 10 0xff0000 small_screen = Done s' /\ screen_ok s' /\
    forall px py, on_screen small_screen px py ->
      getPixel px py s' = if in_rect 6 2 10 10 px py then Done 0xff0000 else getPixel px py small_screen.
Proof. apply (drawRect_paints 6 2 10 10 0xff0000 small_screen small_screen_ok); lia. Defined.

Lemma draw_line_is_straight_witness :
  exists pts s', line_points (-3) 3 7 0 pts /\ draw_line (-3) 3 7 0 1 0xff0000 small_screen = Done s' /\ screen_ok s' /\
    forall px py, on_screen small_screen px py ->
      getPixel px py s' = if stroke 1 pts px py then Done 0xff0000 else getPixel px py small_screen.
Proof.
  assert (Forall (fun z => - 2 ^ 26 <= z <= 2 ^ 26) [-3; 3; 7; 0]) as Hc by (repeat (constructor; [lia|]); constructor).
  exact (draw_line_is_straight (-3) 3 7 0 1 0xff0000 small_screen small_screen_ok Hc ltac:(lia)).
Defined.

Lemma filled_circles_end_witness :
  exists s1 s2, drawFilledCircle 4 2 3 0xff small_screen = Done s1 /\ drawFilledRectBorder 4 2 3 1 1 0xff s1 = Done s2 /\
    screen_ok s2 /\ forall px py, on_screen small_screen px py -> ~ in_box 4 2 0 0 3 px py ->
      getPixel px py s2 = getPixel px py small_screen.
Proof. apply (filled_circles_end 4 2 3 1 1 0xff small_screen small_screen_ok); lia. Defined.

Lemma circle_ends_witness :
  exists s', draw_circle 4 2 3 0xff small_screen = Done s' /\ screen_ok s' /\
    forall px py, on_screen small_screen px py -> 3 < Z.abs (py - 2) -> getPixel px py s' = getPixel px py small_screen.
Proof. apply (circle_ends 4 2 3 0xff small_screen small_screen_ok); lia. Defined.

Lemma draw_filled_rectangle_paints_witness :
  exists s', draw_filled_rectangle 2 1 3 2 0xff00 small_screen = Done s' /\ screen_ok s' /\
    forall px py, on_screen small_screen px py ->
      getPixel px py s' = if in_rect 2 1 4 2 px py then Done 0xff00 else getPixel px py small_screen.
Proof.
  apply (draw_filled_rectangle_paints 2 1 3 2 0xff00 small_screen small_screen_ok); [reflexivity|split; [|split]; vm_compute; congruence|cbn; lia].
Defined.

(** A rectangle at the lower right corner writes behind the buffer. *)
Theorem filled_rectangle_overruns : draw_filled_rectangle 7 3 1 1 0xff00 small_screen = Fault.
Proof. vm_compute. reflexivity. Qed.

(** Shapes as they come out. *)
Example disc_drawn :
  (s ← drawFilledCircle 3 1 1 0xff small_screen; r ← mapM (fun x => getPixel x 1 s) [1; 2; 3; 4; 5]; Done r) = Done [0; 0xff; 0xff; 0xff; 0].
Proof. vm_compute. reflexivity. Qed.
