(* ===== verification/Acpi.v ===== *)
(** * Firmware tables and interrupt controllers (kernel/src/sys/acpi.c, sys/apic/, arch/x86/pic.c)

    The tables lie in physical memory, [mem], which the kernel maps at the same addresses.
    An access to a page that no mapping covers faults.  What follows the tables - the
    routes of the interrupts - is written to the registers of the I/O APIC. *)
From Stdlib Require Import ZArith Lia.
From stdpp Require Import base list numbers gmap.
From S2P Require Import Prelude Bytes Ports.

#[local] Open Scope Z_scope.

(** ** The state *)

Record platform (D : Type) := Platform {
  mapped : gset Z;
  system_processors_found : Z;
  century_register : Z;
  lapic_addr : Z;
  ioapic_addr : Z;
  using_apic : bool;
  device : D
}.
Arguments Platform {D} _ _ _ _ _ _ _.
Arguments mapped {D} _.
Arguments system_processors_found {D} _.
Arguments century_register {D} _.
Arguments lapic_addr {D} _.
Arguments ioapic_addr {D} _.
Arguments using_apic {D} _.
Arguments device {D} _.

Definition sizeof_ACPISDTHeader : Z := 36.
Definition sizeof_APIC_Base_Table : Z := 8.

(** Offsets in the packed structures. *)
Definition RSDP_RSDTaddress : Z := 16.
Definition SDT_Length : Z := 4.
Definition FADT_Century : Z := 72.
Definition ENTRY_record_length : Z := 1.
Definition ENTRY_io_apic_address : Z := 4.
Definition ENTRY_irq_source : Z := 3.
Definition ENTRY_global_system_interrupt : Z := 4.

Definition APIC_PLAPIC : Z := 0.
Definition APIC_IOAPIC : Z := 1.
Definition APIC_IOAPIC_ISO : Z := 2.
Definition APIC_IOAPIC_NMI : Z := 3.
Definition APIC_LAPIC_NMI : Z := 4.

Definition APIC_REG_SPURIOUS : Z := 0xF0.
Definition APIC_REG_LVT_TMR : Z := 0x320.
Definition APIC_REG_TMRINITCNT : Z := 0x380.
Definition APIC_REG_TMRCURRCNT : Z := 0x390.
Definition APIC_REG_TMRDIV : Z := 0x3E0.

Definition IOAPIC_REGSEL : Z := 0x00.
Definition IOAPIC_DATA : Z := 0x10.
Definition IOAPIC_REG_VER : Z := 0x01.
Definition IOAPIC_REG_REDTBL_BASE : Z := 0x10.
Definition LAPIC_TIMER_DIVISOR : Z := 3.
Definition INTEL_APIC_BASE_MSR : Z := 0x1B.

Definition RSDP_SIGNATURE : list Z := [82; 83; 68; 32; 80; 84; 82; 32].
Definition APIC_SIGNATURE : list Z := [65; 80; 73; 67].
Definition FACP_SIGNATURE : list Z := [70; 65; 67; 80].

(** The pages that [map_pages] goes through. *)
Fixpoint run_pages (fuel : nat) (virt vend : Z) : gset Z :=
  match fuel with
  | O => ∅
  | S fuel' => if virt <? vend then {[virt / 4096]} ∪ run_pages fuel' (u32 (virt + 4096)) vend else ∅
  end.

Definition pages_of (virtual size : Z) : gset Z :=
  let vend := ALIGN (u32 (virtual + size)) PAGE_SIZE in
  run_pages (S (Z.to_nat ((vend - virtual) / PAGE_SIZE + 1))) virtual vend.

(** The size that [map_pages_overlapping] maps: the pages that the range touches. *)
Definition overlapping_size (virtual size : Z) : Z :=
  let pages_to_map := u32 (u32 (u32 (virtual + size) / PAGE_SIZE - virtual / PAGE_SIZE) + 1) in
  u32 (pages_to_map * PAGE_SIZE).

Section Platform.
Context {D : Type} `{Dports : PortIO D} `{Dmmio : Mmio D}.
(** The memory of the firmware, and the model specific registers. *)
Variable mem : Z -> Z.
Variable read_msr : Z -> D -> Z.
Variable write_msr : Z -> Z -> D -> D.

#[local] Abbreviation P := (IO (platform D)).

Definition state : P (platform D) := fun s => Done (s, s).
Definition modify (f : platform D -> platform D) : P unit := fun s => Done (tt, f s).
Definition with_device (d : D) (s : platform D) : platform D :=
  Platform (mapped s) (system_processors_found s) (century_register s) (lapic_addr s) (ioapic_addr s) (using_apic s) d.
Definition with_mapped (m : gset Z) (s : platform D) : platform D :=
  Platform m (system_processors_found s) (century_register s) (lapic_addr s) (ioapic_addr s) (using_apic s) (device s).

Definition map_pages (start size : Z) : P unit := modify (fun s => with_mapped (pages_of start size ∪ mapped s) s).
Definition map_pages_overlapping (start size : Z) : P unit := map_pages start (overlapping_size start size).

Definition is_mapped (s : platform D) (a : Z) : bool := bool_decide (u32 a / 4096 ∈ mapped s).

Definition read8 (a : Z) : P Z := fun s => if is_mapped s a then Done (mem (u32 a), s) else Fault.
Definition read32 (a : Z) : P Z :=
  b0 ← read8 a; b1 ← read8 (a + 1); b2 ← read8 (a + 2); b3 ← read8 (a + 3);
  mret (b0 + 256 * b1 + 65536 * b2 + 16777216 * b3).

(** Registers in memory. *)
Definition reg_read (a : Z) : P Z := fun s =>
  if is_mapped s a then let (v, d) := mmio_read (u32 a) (device s) in Done (u32 v, with_device d s) else Fault.
Definition reg_write (a v : Z) : P unit := fun s =>
  if is_mapped s a then Done (tt, with_device (mmio_write (u32 a) (u32 v) (device s)) s) else Fault.
Definition device_do (m : IO D unit) : P unit := fun s =>
  match m (device s) with Done (_, d) => Done (tt, with_device d s) | Hang => Hang | Fault => Fault end.

(** [memcmp] with constant bytes. *)
Fixpoint memcmp (a : Z) (l : list Z) : P Z :=
  match l with
  | [] => mret 0
  | u2 :: l' => u1 ← read8 a; if negb (u1 =? u2) then mret (u1 - u2) else memcmp (a + 1) l'
  end.

(** ** Tables (acpi.c) *)

Fixpoint rsdp_loop (fuel : nat) (saddr : Z) : P Z :=
  match fuel with
  | O => hang
  | S fuel' =>
      if saddr <? 0x000FFFFF then
        c ← memcmp saddr RSDP_SIGNATURE;
        if c =? 0 then mret saddr else rsdp_loop fuel' (saddr + 1)
      else mret saddr
  end.

(** Nothing tells an address without the signature from one with it. *)
Definition acpi_rsdp_find : P Z :=
  _ ← map_pages 0xE0000 (0x100000 - 0xE0000);
  saddr ← rsdp_loop (Z.to_nat 0x20000) 0x000E0000;
  rsdt ← read32 (saddr + RSDP_RSDTaddress);
  mret (if rsdt =? 0 then 0 else saddr).

Fixpoint sum_bytes (n : nat) (a sum : Z) : P Z :=
  match n with
  | O => mret sum
  | S n' => b ← read8 a; sum_bytes n' (a + 1) (u8 (sum + b))
  end.

Definition acpi_checksum_sdt (tableHeader : Z) : P bool :=
  len ← read32 (tableHeader + SDT_Length);
  sum ← sum_bytes (Z.to_nat len) tableHeader 0;
  mret (sum =? 0).

Definition sdt_count_of (len : Z) : Z := u32 (len - sizeof_ACPISDTHeader) / 4.

(** [n] entries of the table of tables. *)
Fixpoint find_entry (n : nat) (entries : Z) (signature : list Z) : P Z :=
  match n with
  | O => mret 0
  | S n' =>
      entry ← read32 entries;
      c ← memcmp entry signature;
      if c =? 0 then mret entry else find_entry n' (entries + 4) signature
  end.

Definition acpi_find_table (rsdt_addr sdt_count : Z) (signature : list Z) : P Z :=
  _ ← map_pages_overlapping rsdt_addr (u32 (sdt_count * 4));
  find_entry (Z.to_nat sdt_count) (rsdt_addr + sizeof_ACPISDTHeader) signature.

Fixpoint map_tables (n : nat) (entries : Z) : P unit :=
  match n with
  | O => mret tt
  | S n' => entry ← read32 entries; _ ← map_pages_overlapping entry PAGE_SIZE; map_tables n' (entries + 4)
  end.

Definition acpi_scan_all_tables (rsdt_addr : Z) : P unit :=
  _ ← map_pages_overlapping rsdt_addr sizeof_ACPISDTHeader;
  rsdt_length ← read32 (rsdt_addr + SDT_Length);
  _ ← map_pages_overlapping rsdt_addr rsdt_length;
  map_tables (Z.to_nat (sdt_count_of rsdt_length)) (rsdt_addr + sizeof_ACPISDTHeader).

Definition acpi_find_facp (rsdt_addr : Z) : P unit :=
  _ ← map_pages_overlapping rsdt_addr (PAGE_SIZE * 2);
  check ← acpi_checksum_sdt rsdt_addr;
  if negb check then mret tt
  else
    len ← read32 (rsdt_addr + SDT_Length);
    pre_fadt ← acpi_find_table rsdt_addr (sdt_count_of len) FACP_SIGNATURE;
    if pre_fadt =? 0 then mret tt
    else
      century ← read8 (pre_fadt + sizeof_ACPISDTHeader + FADT_Century);
      if century =? 0 then mret tt
      else modify (fun s => Platform (mapped s) (system_processors_found s) century (lapic_addr s) (ioapic_addr s) (using_apic s) (device s)).

(** The entries of the interrupt controller table, as far as they are known, at most [n]. *)
Fixpoint count_processors (n : nat) (entry : Z) : P unit :=
  match n with
  | O => mret tt
  | S n' =>
      type ← read8 entry;
      if negb (type <=? APIC_LAPIC_NMI) then mret tt
      else
        _ ← (if type =? APIC_PLAPIC then
               modify (fun s => Platform (mapped s) (u32 (system_processors_found s + 1)) (century_register s) (lapic_addr s)
                                  (ioapic_addr s) (using_apic s) (device s))
             else mret tt);
        len ← read8 (entry + ENTRY_record_length);
        count_processors n' (u32 (entry + len))
  end.

(** The address of the local controller, if there is a table. *)
Definition acpi_find_apic (rsdt_addr : Z) : P (option Z) :=
  let start := page_base rsdt_addr in
  let end_ := ALIGN (u32 (rsdt_addr + PAGE_SIZE)) PAGE_SIZE in
  _ ← map_pages start (u32 (end_ - start));
  check ← acpi_checksum_sdt rsdt_addr;
  if negb check then mret None
  else
    len ← read32 (rsdt_addr + SDT_Length);
    let sdt_count := sdt_count_of len in
    apic ← acpi_find_table rsdt_addr sdt_count APIC_SIGNATURE;
    if apic =? 0 then mret None
    else
      let table_end := apic + sizeof_ACPISDTHeader in
      lapic ← read32 table_end;
      _ ← count_processors (Z.to_nat sdt_count) (table_end + sizeof_APIC_Base_Table);
      mret (Some lapic).

(** ** The I/O APIC (ioapic.c) *)

(** [while(offset < table_size)] over the entries of the table; an entry of length zero is
    visited for ever. *)
Fixpoint walk_entries (fuel : nat) (visit : Z -> P unit) (table offset table_size : Z) : P unit :=
  match fuel with
  | O => hang
  | S fuel' =>
      if offset <? table_size then
        let entry := table + offset in
        _ ← visit entry;
        len ← read8 (entry + ENTRY_record_length);
        walk_entries fuel' visit table (u32 (offset + len)) table_size
      else mret tt
  end.

Definition for_each_entry (visit : Z -> P unit) (apic : Z) : P unit :=
  len ← read32 (apic + SDT_Length);
  let header := sizeof_ACPISDTHeader + sizeof_APIC_Base_Table in
  let table_size := u32 (len - header) in
  walk_entries (S (Z.to_nat table_size)) visit (apic + header) 0 table_size.

Definition see_ioapic (entry : Z) : P unit :=
  type ← read8 entry;
  if type =? APIC_IOAPIC then
    addr ← read32 (entry + ENTRY_io_apic_address);
    _ ← map_pages addr PAGE_SIZE;
    modify (fun s => Platform (mapped s) (system_processors_found s) (century_register s) (lapic_addr s) addr (using_apic s) (device s))
  else mret tt.

Definition apic_find_ioapic : P bool :=
  rsdp ← acpi_rsdp_find;
  if rsdp =? 0 then mret false
  else
    rsdt ← read32 (rsdp + RSDP_RSDTaddress);
    _ ← map_pages_overlapping rsdt PAGE_SIZE;
    len ← read32 (rsdt + SDT_Length);
    apic ← acpi_find_table rsdt (sdt_count_of len) APIC_SIGNATURE;
    if apic =? 0 then mret false
    else _ ← for_each_entry see_ioapic apic; mret true.

Definition ioapic_read (reg : Z) : P Z :=
  s ← state; _ ← reg_write (ioapic_addr s + IOAPIC_REGSEL) reg; reg_read (ioapic_addr s + IOAPIC_DATA).
Definition ioapic_write (reg value : Z) : P unit :=
  s ← state; _ ← reg_write (ioapic_addr s + IOAPIC_REGSEL) reg; reg_write (ioapic_addr s + IOAPIC_DATA) value.

(** The interrupt [gsi] goes to [vector], in both halves of its register. *)
Definition route (gsi vector : Z) : P unit :=
  _ ← ioapic_write (u32 (IOAPIC_REG_REDTBL_BASE + gsi * 2)) vector;
  ioapic_write (u32 (IOAPIC_REG_REDTBL_BASE + gsi * 2 + 1)) 0.

Definition see_override (entry : Z) : P unit :=
  type ← read8 entry;
  if type =? APIC_IOAPIC_ISO then
    irq ← read8 (entry + ENTRY_irq_source);
    gsi ← read32 (entry + ENTRY_global_system_interrupt);
    route gsi (32 + irq)
  else mret tt.

Fixpoint fill_identity (n : nat) (i : Z) : P unit :=
  match n with
  | O => mret tt
  | S n' =>
      redtbl_i ← ioapic_read (IOAPIC_REG_REDTBL_BASE + i * 2);
      _ ← (if Z.testbit redtbl_i 16 then route i (32 + i) else mret tt);
      fill_identity n' (i + 1)
  end.

Definition ioapic_post_initialize : P unit :=
  rsdp ← acpi_rsdp_find;
  rsdt ← read32 (rsdp + RSDP_RSDTaddress);
  len ← read32 (rsdt + SDT_Length);
  apic ← acpi_find_table rsdt (sdt_count_of len) APIC_SIGNATURE;
  _ ← for_each_entry see_override apic;
  fill_identity 23 1.

(** ** The local APIC (apic.c, lapic_timer.c) and the old controllers (pic.c) *)

Definition apic_write (reg value : Z) : P unit := s ← state; reg_write (lapic_addr s + reg) value.
Definition apic_read (reg : Z) : P Z := s ← state; reg_read (lapic_addr s + reg).

Definition outbs (l : list (Z * Z)) : IO D unit := foldr (fun pv m => _ ← outb (fst pv) (snd pv); m) (mret tt) l.

Definition pic_init : P unit := device_do (outbs
  [(0x20, 0x11); (0xA0, 0x11); (0x21, 0x20); (0xA1, 0x28); (0x21, 0x04); (0xA1, 0x02); (0x21, 0x01); (0xA1, 0x01); (0x21, 0); (0xA1, 0)]).

Definition pic_disable : P unit := device_do (outbs
  [(0xA0, 0x11); (0x20, 0x10); (0xA1, 0x20); (0x21, 0x28); (0xA1, 0x2); (0x21, 0x4); (0xA1, 0x01); (0x21, 0x01); (0xA1, 0xFF); (0x21, 0xFF)]).

Definition apic_init : P unit :=
  found ← apic_find_ioapic;
  if negb found then mret tt
  else
    _ ← pic_disable;
    s ← state;
    let base := page_base (u32 (read_msr INTEL_APIC_BASE_MSR (device s))) in
    _ ← modify (fun s => Platform (mapped s) (system_processors_found s) (century_register s) base (ioapic_addr s) (using_apic s)
                  (write_msr INTEL_APIC_BASE_MSR (Z.lor (Z.lor base 0x100) 0x800) (device s)));
    _ ← map_pages base PAGE_SIZE;
    _ ← apic_write APIC_REG_SPURIOUS 0x1FF;
    _ ← ioapic_read IOAPIC_REG_VER;
    _ ← ioapic_post_initialize;
    modify (fun s => Platform (mapped s) (system_processors_found s) (century_register s) (lapic_addr s) (ioapic_addr s) true (device s)).

Definition recalibrate_lapic_timer (divisor milliseconds : Z) : P Z :=
  _ ← apic_write APIC_REG_TMRDIV divisor;
  _ ← apic_write APIC_REG_TMRINITCNT 0xFFFFFFFF;
  _ ← device_do (sleep_ms milliseconds);
  _ ← apic_write APIC_REG_LVT_TMR 0x1000;
  count ← apic_read APIC_REG_TMRCURRCNT;
  mret (u32 (0xFFFFFFFF - count)).

Fixpoint average_ticks (n : nat) (ticks : Z) : P Z :=
  match n with
  | O => mret ticks
  | S n' => t ← recalibrate_lapic_timer LAPIC_TIMER_DIVISOR 5; average_ticks n' (u32 (ticks + t / 5) / 2)
  end.

Definition lapic_init : P unit :=
  t ← recalibrate_lapic_timer LAPIC_TIMER_DIVISOR 5;
  ticks_in_1_ms ← average_ticks 5 (t / 5);
  _ ← device_do (outbs [(0x43, 0x32); (0x40, 0xff); (0x40, 0xff)]);
  _ ← apic_write APIC_REG_LVT_TMR (Z.lor 32 0x20000);
  _ ← apic_write APIC_REG_TMRDIV LAPIC_TIMER_DIVISOR;
  apic_write APIC_REG_TMRINITCNT ticks_in_1_ms.

End Platform.

(** ** Reading the tables *)

Section Reading.
Context {D : Type} `{Dports : PortIO D} `{Dmmio : Mmio D}.
Variable mem : Z -> Z.

Implicit Types s : platform D.

Definition bytes_at (a : Z) (n : nat) : list Z := map mem (seqZ a (Z.of_nat n)).
Definition word_at (a : Z) : Z := mem a + 256 * mem (a + 1) + 65536 * mem (a + 2) + 16777216 * mem (a + 3).

(** [n] bytes from [a] on are mapped. *)
Definition readable s (a n : Z) : Prop := 0 <= a /\ a + n <= 2 ^ 32 /\ forall i, a <= i < a + n -> i / 4096 ∈ mapped s.

(** More is mapped in [s'] than in [s]. *)
Definition extends s s' : Prop := mapped s ⊆ mapped s'.

Lemma extends_trans s s' s'' : extends s s' -> extends s' s'' -> extends s s''.
Proof. unfold extends. by intros ->. Qed.

Lemma readable_extends s s' a n : extends s s' -> readable s a n -> readable s' a n.
Proof. intros He (Ha & Hn & Hm). split; [done|]. split; [done|]. intros i Hi. by apply He, Hm. Qed.

Lemma readable_sub s a n b m : readable s a n -> a <= b -> b + m <= a + n -> 0 <= m -> readable s b m.
Proof. intros (Ha & Hn & Hm) Hb Hbm H0. split; [lia|]. split; [lia|]. intros i Hi. apply Hm. lia. Qed.

Lemma read8_run s a : readable s a 1 -> read8 mem a s = Done (mem a, s).
Proof.
  intros (Ha & Hn & Hm). unfold read8, is_mapped. rewrite u32_small by lia. rewrite bool_decide_eq_true_2; [done|]. apply Hm. lia.
Qed.

Lemma read32_run s a : readable s a 4 -> read32 mem a s = Done (word_at a, s).
Proof.
  intros Hr. unfold read32.
  do 4 (erewrite bind_run; [|apply read8_run; apply (readable_sub _ _ _ _ _ Hr); lia]). done.
Qed.

Lemma memcmp_run s l : forall a, readable s a (Z.of_nat (length l)) ->
  exists c, memcmp mem a l s = Done (c, s) /\ (c =? 0) = bool_decide (bytes_at a (length l) = l).
Proof.
  induction l as [|u l IH]; intros a Hr; [by exists 0|]. cbn [length] in Hr. cbn [memcmp].
  assert (bytes_at a (length (u :: l)) = mem a :: bytes_at (a + 1) (length l)) as ->.
  { unfold bytes_at. cbn [length]. rewrite seqZ_cons by lia. cbn [map]. do 3 f_equal; lia. }
  erewrite bind_run; [|apply read8_run; apply (readable_sub _ _ _ _ _ Hr); lia].
  destruct (Z.eqb_spec (mem a) u) as [->|Hne]; cbn [negb].
  - destruct (IH (a + 1)) as (c & Ec & E0); [apply (readable_sub _ _ _ _ _ Hr); lia|].
    exists c. split; [done|]. rewrite E0. apply bool_decide_ext. split; [by intros ->|by intros [=]].
  - exists (mem a - u). split; [done|]. rewrite bool_decide_eq_false_2 by congruence. apply Z.eqb_neq. lia.
Qed.

(** ** Checksums *)

Lemma sum_bytes_run s n : forall a sum, readable s a (Z.of_nat n) ->
  sum_bytes mem n a (u8 sum) s = Done (u8 (sum + foldr Z.add 0 (bytes_at a n)), s).
Proof.
  induction n as [|n IH]; intros a sum Hr; cbn [sum_bytes].
  - cbn. by rewrite Z.add_0_r.
  - erewrite bind_run; [|apply read8_run; apply (readable_sub _ _ _ _ _ Hr); lia].
    assert (u8 (u8 sum + mem a) = u8 (sum + mem a)) as -> by (unfold u8; apply Z.add_mod_idemp_l; lia).
    rewrite IH by (apply (readable_sub _ _ _ _ _ Hr); lia). do 3 f_equal.
    unfold bytes_at. rewrite (seqZ_cons a) by lia. cbn [map foldr]. rewrite Nat2Z.inj_succ, Z.pred_succ, <- Z.add_1_r. lia.
Qed.

(** A table passes when its bytes add up to zero, modulo 256. *)
Theorem acpi_checksum_sdt_sums s t : readable s t 8 -> readable s t (word_at (t + SDT_Length)) -> 0 <= word_at (t + SDT_Length) ->
  acpi_checksum_sdt mem t s =
    Done (foldr Z.add 0 (bytes_at t (Z.to_nat (word_at (t + SDT_Length)))) mod 256 =? 0, s).
Proof.
  intros H8 Hr Hlen. unfold acpi_checksum_sdt.
  erewrite bind_run; [|apply read32_run; apply (readable_sub _ _ _ _ _ H8); unfold SDT_Length; lia].
  erewrite bind_run; [|change 0 with (u8 0) at 1; apply sum_bytes_run; by rewrite Z2Nat.id]. done.
Qed.

(** ** Finding tables *)

(** The entries of a table of tables. *)
Fixpoint entries_at (a : Z) (tables : list Z) : Prop :=
  match tables with
  | [] => True
  | t :: tables' => word_at a = t /\ entries_at (a + 4) tables'
  end.

Definition has_signature (signature : list Z) (t : Z) : bool := bool_decide (bytes_at t (length signature) = signature).

Lemma find_entry_run s signature tables : forall a,
  entries_at a tables -> readable s a (4 * Z.of_nat (length tables)) ->
  Forall (fun t => readable s t (Z.of_nat (length signature))) tables ->
  find_entry mem (length tables) a signature s = Done (default 0 (find (has_signature signature) tables), s).
Proof.
  induction tables as [|t tables IH]; intros a Ht Hr Hsig; [done|]. destruct Ht as [E Ht].
  apply list.Forall_cons in Hsig as [Hst Hsig]. cbn [length find_entry find] in *.
  erewrite bind_run; [|apply read32_run; apply (readable_sub _ _ _ _ _ Hr); lia]. rewrite E.
  destruct (memcmp_run s signature t Hst) as (c & Ec & E0). erewrite bind_run; [|exact Ec]. rewrite E0. fold (has_signature signature t).
  destruct (has_signature signature t); [done|]. apply IH; try done. apply (readable_sub _ _ _ _ _ Hr); lia.
Qed.

Lemma identity_map_run a n s : map_pages a n s = Done (tt, with_mapped (pages_of a n ∪ mapped s) s).
Proof. done. Qed.

(** The first table with the signature, or zero. *)
Lemma acpi_find_table_run s rsdt tables signature :
  entries_at (rsdt + sizeof_ACPISDTHeader) tables -> readable s (rsdt + sizeof_ACPISDTHeader) (4 * Z.of_nat (length tables)) ->
  Forall (fun t => readable s t (Z.of_nat (length signature))) tables ->
  acpi_find_table mem rsdt (Z.of_nat (length tables)) signature s =
    Done (default 0 (find (has_signature signature) tables),
          with_mapped (pages_of rsdt (overlapping_size rsdt (u32 (Z.of_nat (length tables) * 4))) ∪ mapped s) s).
Proof.
  intros Ht Hr Hsig. unfold acpi_find_table. erewrite bind_run; [|apply identity_map_run].
  set (s1 := with_mapped _ _). assert (extends s s1) as He by (unfold extends; cbn; set_solver).
  rewrite Nat2Z.id. apply find_entry_run; [done|by apply (readable_extends s)|].
  eapply Forall_impl; [exact Hsig|]. cbn. intros t. by apply readable_extends.
Qed.

(** The root pointer is the first place with its signature. *)
Lemma rsdp_loop_run s rsdp : readable s 0xE0000 (rsdp + 8 - 0xE0000) -> 0xE0000 <= rsdp < 0xFFFFF ->
  has_signature RSDP_SIGNATURE rsdp = true -> (forall a, 0xE0000 <= a < rsdp -> has_signature RSDP_SIGNATURE a = false) ->
  forall n fuel a, a = rsdp - Z.of_nat n -> 0xE0000 <= a -> (n < fuel)%nat -> rsdp_loop mem fuel a s = Done (rsdp, s).
Proof.
  intros Hr Hrange Hsig Hfirst. induction n as [|n IH]; intros [|fuel] a Ha Ha0 Hf; try lia; cbn [rsdp_loop].
  all: destruct (Z.ltb_spec a 0xFFFFF); [|lia].
  all: destruct (memcmp_run s RSDP_SIGNATURE a) as (c & Ec & E0); [apply (readable_sub _ _ _ _ _ Hr); cbn; lia|].
  all: erewrite bind_run; [|exact Ec]; rewrite E0; fold (has_signature RSDP_SIGNATURE a).
  - assert (a = rsdp) as -> by lia. by rewrite Hsig.
  - rewrite Hfirst by lia. apply IH; lia.
Qed.

(** ** Entries of the interrupt controller table *)

(** Entries of the given lengths, one behind the other; those that the kernel looks into
    have all their fields. *)
Fixpoint records_at (a : Z) (lens : list Z) : Prop :=
  match lens with
  | [] => True
  | len :: lens' =>
      mem (a + ENTRY_record_length) = len /\ 2 <= len <= 255 /\ (mem a = APIC_IOAPIC \/ mem a = APIC_IOAPIC_ISO -> 8 <= len) /\
      records_at (a + len) lens'
  end.

Fixpoint addresses (a : Z) (lens : list Z) : list Z :=
  match lens with
  | [] => []
  | len :: lens' => a :: addresses (a + len) lens'
  end.

Definition total (lens : list Z) : Z := foldr Z.add 0 lens.

Lemma total_nonneg a lens : records_at a lens -> 0 <= total lens.
Proof.
  revert a. induction lens as [|len lens IH]; intros a; cbn; [lia|]. intros (_ & Hl & _ & Hr). pose proof (IH _ Hr). unfold total in *. lia.
Qed.

(** Doing something for every entry. *)
Fixpoint visit_all (visit : Z -> IO (platform D) unit) (l : list Z) : IO (platform D) unit :=
  match l with
  | [] => mret tt
  | a :: l' => _ ← visit a; visit_all visit l'
  end.

Definition growing (visit : Z -> IO (platform D) unit) : Prop :=
  forall a s u s', visit a s = Done (u, s') -> extends s s'.

Lemma walk_entries_run visit table size : growing visit -> 0 <= size < 2 ^ 32 -> forall lens fuel off s,
  0 <= off -> readable s (table + off) (size - off) -> records_at (table + off) lens -> off + total lens = size ->
  (length lens < fuel)%nat ->
  walk_entries mem fuel visit table off size s = visit_all visit (addresses (table + off) lens) s.
Proof.
  intros Hg Hsize. induction lens as [|len lens IH]; intros [|fuel] off s Hoff Hr Hrec Htot Hf; cbn in Hf; try lia; cbn [walk_entries].
  - cbn in Htot. destruct (Z.ltb_spec off size); [lia|]. done.
  - destruct Hrec as (Elen & Hlen & _ & Hrec). pose proof (total_nonneg _ _ Hrec).
    assert (total (len :: lens) = len + total lens) as Et by done.
    destruct (Z.ltb_spec off size); [|lia]. cbn [addresses visit_all]. unfold mbind, IO_bind.
    destruct (visit (table + off) s) as [[u s1]| |] eqn:E; [|done|done].
    assert (readable s1 (table + off) (size - off)) as Hr1 by (eapply readable_extends; [by eapply Hg|done]).
    rewrite read8_run by (apply (readable_sub _ _ _ _ _ Hr1); unfold ENTRY_record_length; lia).
    rewrite Elen, u32_small by lia. rewrite (IH fuel (off + len)); try lia.
    + by rewrite Z.add_assoc.
    + apply (readable_sub _ _ _ _ _ Hr1); lia.
    + by rewrite Z.add_assoc.
Qed.

(** An entry of length zero is visited for ever: the length is not checked. *)
Theorem zero_length_entry_hangs visit table size off fuel s :
  growing visit -> (forall a s', exists s'', visit a s' = Done (tt, s'')) -> 0 <= off < size -> size < 2 ^ 32 ->
  readable s (table + off) 2 -> mem (table + off + ENTRY_record_length) = 0 ->
  walk_entries mem fuel visit table off size s = Hang.
Proof.
  intros Hg Hv Hoff Hsize Hr Hz. revert s Hr. induction fuel as [|fuel IH]; intros s Hr; [done|]. cbn [walk_entries].
  destruct (Z.ltb_spec off size); [|lia]. destruct (Hv (table + off) s) as (s1 & E). pose proof (Hg _ _ _ _ E) as He.
  rewrite (bind_run _ _ _ _ _ E). pose proof (readable_extends _ _ _ _ He Hr) as Hr1.
  erewrite bind_run; [|apply read8_run; apply (readable_sub _ _ _ _ _ Hr1); unfold ENTRY_record_length; lia].
  rewrite Hz, Z.add_0_r, u32_small by lia. by apply IH.
Qed.

(** A table of interrupt controllers. *)
Record madt s (apic : Z) (lens : list Z) : Prop := Madt {
  madt_readable : readable s apic (44 + total lens);
  madt_length : word_at (apic + SDT_Length) = 44 + total lens;
  madt_records : records_at (apic + 44) lens
}.

Definition entries_of (apic : Z) (lens : list Z) : list Z := addresses (apic + 44) lens.

Lemma count_le_total a lens : records_at a lens -> Z.of_nat (length lens) <= total lens.
Proof.
  revert a. induction lens as [|len lens IH]; intros a; cbn; [lia|]. intros (_ & Hl & _ & Hr). pose proof (IH _ Hr). unfold total in *. lia.
Qed.

Lemma for_each_entry_run visit s apic lens : growing visit -> madt s apic lens ->
  for_each_entry mem visit apic s = visit_all visit (entries_of apic lens) s.
Proof.
  intros Hg [Hr El Hrec]. pose proof (total_nonneg _ _ Hrec). pose proof (count_le_total _ _ Hrec). pose proof Hr as (Ha & Hn & _).
  unfold for_each_entry, sizeof_ACPISDTHeader, sizeof_APIC_Base_Table. change (36 + 8) with 44.
  erewrite bind_run; [|apply read32_run; apply (readable_sub _ _ _ _ _ Hr); unfold SDT_Length; lia].
  rewrite El. replace (44 + total lens - 44) with (total lens) by lia. rewrite u32_small by lia.
  rewrite (walk_entries_run visit (apic + 44) (total lens) Hg ltac:(lia) lens); rewrite ?Z.add_0_r; try done; try lia.
  apply (readable_sub _ _ _ _ _ Hr); lia.
Qed.

(** What the entries say is read where they are. *)
Lemma entry_readable s a0 lens n : readable s a0 n -> records_at a0 lens -> total lens <= n ->
  Forall (fun a => readable s a 2 /\ (mem a = APIC_IOAPIC \/ mem a = APIC_IOAPIC_ISO -> readable s a 8)) (addresses a0 lens).
Proof.
  revert a0 n. induction lens as [|len lens IH]; intros a0 n Hr; cbn [addresses]; [by constructor|]. intros (_ & Hl & H8 & Hrec) Ht.
  pose proof (total_nonneg _ _ Hrec). assert (total (len :: lens) = len + total lens) as Et by done. constructor.
  - split; [apply (readable_sub _ _ _ _ _ Hr); lia|]. intros Hk. specialize (H8 Hk). apply (readable_sub _ _ _ _ _ Hr); lia.
  - apply (IH _ (n - len)); [apply (readable_sub _ _ _ _ _ Hr)|done|]; lia.
Qed.

(** ** Processors *)

(** [acpi_find_apic] counts the processors among as many entries as there are system
    tables, which has nothing to do with the number of entries. *)
Theorem processors_among_first_entries (n : nat) (a : Z) (lens : list Z) s
    (Hrec : records_at a lens) (Hr : readable s a (total lens)) (Hn : (n <= length lens)%nat)
    (Hknown : Forall (fun e => mem e <= APIC_LAPIC_NMI) (addresses a lens)) :
  exists s', count_processors mem n a s = Done (tt, s') /\ mapped s' = mapped s /\
    system_processors_found s' mod 2 ^ 32 =
      (system_processors_found s + Z.of_nat (length (filter (fun e => mem e = APIC_PLAPIC) (take n (addresses a lens))))) mod 2 ^ 32.
Proof.
  revert a lens s Hrec Hr Hn Hknown. induction n as [|n IH]; intros a lens s Hrec Hr Hn Hknown.
  - exists s. split; [done|]. split; [done|]. cbn. by rewrite Z.add_0_r.
  - destruct lens as [|len lens]; [cbn in Hn; lia|]. destruct Hrec as (El & Hl & _ & Hrec). cbn [addresses take] in *.
    apply list.Forall_cons in Hknown as [Hk Hknown]. pose proof (total_nonneg _ _ Hrec). assert (total (len :: lens) = len + total lens) as Et by done.
    cbn [count_processors]. erewrite bind_run; [|apply read8_run; apply (readable_sub _ _ _ _ _ Hr); lia].
    destruct (Z.leb_spec (mem a) APIC_LAPIC_NMI); [|lia]. cbn [negb].
    set (s1 := if mem a =? APIC_PLAPIC then Platform (mapped s) (u32 (system_processors_found s + 1)) (century_register s) (lapic_addr s)
                 (ioapic_addr s) (using_apic s) (device s) else s).
    erewrite (bind_run _ _ s tt s1); [|by unfold s1; destruct (mem a =? APIC_PLAPIC)].
    assert (mapped s1 = mapped s) as Em by (unfold s1; by destruct (_ =? _)).
    assert (readable s1 a (total (len :: lens))) as Hr1 by (apply (readable_extends s); [by unfold extends; rewrite Em|done]).
    pose proof Hr as (Ha & Hend & _).
    erewrite bind_run; [|apply read8_run; apply (readable_sub _ _ _ _ _ Hr1); unfold ENTRY_record_length; lia]. rewrite El.
    destruct (IH (a + len) lens s1 Hrec) as (s' & E & Em' & Ec); [apply (readable_sub _ _ _ _ _ Hr1); lia|cbn in Hn; lia|done|].
    exists s'. split.
    { destruct n; [exact E|]. rewrite <- E. destruct lens; [cbn in Hn; lia|]. rewrite u32_small; [done|].
      assert (2 <= total (z :: lens)); [|lia]. destruct Hrec as (_ & ? & _ & Hrec). pose proof (total_nonneg _ _ Hrec). unfold total in *; cbn in *; lia. }
    split; [by rewrite Em'|]. rewrite Ec. unfold s1. destruct (Z.eqb_spec (mem a) APIC_PLAPIC).
    + rewrite list.filter_cons_True by done. cbn [length system_processors_found]. unfold u32. rewrite Z.add_mod_idemp_l by lia. f_equal. lia.
    + by rewrite list.filter_cons_False by done.
Qed.

End Reading.

(** ** Routing interrupts *)

(** The I/O APIC at [base]: a register is chosen by its number and keeps what is written to
    it; only the fields of the redirection entries that software owns are written. *)
Class IoApic (D : Type) `{Mmio D} := {
  selected : D -> Z;
  ioreg : D -> Z -> Z
}.

Class IoApicLaws (D : Type) `{IoApic D} (base : Z) : Prop := {
  select_law : forall r d, 0 <= r < 0x40 ->
    selected (mmio_write (base + IOAPIC_REGSEL) r d) = r /\ forall q, ioreg (mmio_write (base + IOAPIC_REGSEL) r d) q = ioreg d q;
  read_law : forall d,
    fst (mmio_read (base + IOAPIC_DATA) d) = ioreg d (selected d) /\ 0 <= ioreg d (selected d) < 2 ^ 32 /\
    forall q, ioreg (snd (mmio_read (base + IOAPIC_DATA) d)) q = ioreg d q;
  write_law : forall v d, 0x10 <= selected d < 0x40 -> 0 <= v < 0x1000 ->
    forall q, ioreg (mmio_write (base + IOAPIC_DATA) v d) q = if q =? selected d then v else ioreg d q
}.

Section Routing.
Context {D : Type} `{Dio : IoApic D} (base : Z) `{!IoApicLaws D base}.
Variable mem : Z -> Z.
Implicit Types s : platform D.

(** The driver has found the controller, and mapped its page. *)
Definition ioapic_ready s : Prop := ioapic_addr s = base /\ readable s base 20.

(** The low half of the entry for an interrupt. *)
Definition entry s (gsi : Z) : Z := ioreg (device s) (IOAPIC_REG_REDTBL_BASE + gsi * 2).

Definition same_pages s s' : Prop := mapped s' = mapped s /\ ioapic_addr s' = ioapic_addr s.

#[export] Instance same_pages_preorder : PreOrder same_pages.
Proof. split; [by split|]. intros a b c [] []. split; congruence. Qed.

Lemma ready_same s s' : same_pages s s' -> ioapic_ready s -> ioapic_ready s'.
Proof. intros [Em Ei] [Hi Hr]. split; [congruence|]. apply (readable_extends s); [unfold extends; by rewrite Em|done]. Qed.

Lemma reg_mapped s a : readable s a 1 -> is_mapped s a = true /\ u32 a = a.
Proof.
  intros (Ha & Hn & Hm). unfold is_mapped. rewrite u32_small by lia. split; [|done]. apply bool_decide_eq_true_2, Hm. lia.
Qed.

(** Choosing register [r]. *)
Lemma select_run s r : ioapic_ready s -> 0 <= r < 0x40 ->
  exists s', reg_write (ioapic_addr s + IOAPIC_REGSEL) r s = Done (tt, s') /\ same_pages s s' /\
    selected (device s') = r /\ forall q, ioreg (device s') q = ioreg (device s) q.
Proof.
  intros [Hi Hr] Hreg. rewrite Hi. destruct (reg_mapped s (base + IOAPIC_REGSEL)) as [Em Eu];
    [apply (readable_sub _ _ _ _ _ Hr); unfold IOAPIC_REGSEL; lia|].
  unfold reg_write. rewrite Em, Eu, u32_small by lia. eexists. split; [reflexivity|]. split; [done|]. by apply select_law.
Qed.

Lemma ioapic_read_run s r : ioapic_ready s -> 0 <= r < 0x40 ->
  exists s', ioapic_read r s = Done (ioreg (device s) r, s') /\ same_pages s s' /\ forall q, ioreg (device s') q = ioreg (device s) q.
Proof.
  intros Hready Hreg. destruct (select_run s r Hready Hreg) as (s1 & E1 & Hp1 & Hsel & Hq1).
  pose proof (ready_same _ _ Hp1 Hready) as [Hi1 Hr1]. unfold ioapic_read. erewrite bind_run; [|reflexivity].
  rewrite (bind_run _ _ _ _ _ E1). destruct Hp1 as [Em1 Ei1]. rewrite <- Ei1, Hi1.
  destruct (reg_mapped s1 (base + IOAPIC_DATA)) as [Em Eu]; [apply (readable_sub _ _ _ _ _ Hr1); unfold IOAPIC_DATA; lia|].
  unfold reg_read. rewrite Em, Eu. destruct (read_law (base := base) (device s1)) as (Ev & Hv & Hq).
  destruct (mmio_read _ _) as [v d]. cbn in Ev, Hq. subst v. rewrite Hsel, Hq1 in *. rewrite u32_small by lia.
  eexists. split; [reflexivity|]. split; [by split|]. intros q. cbn. by rewrite Hq, Hq1.
Qed.

Lemma ioapic_write_run s r v : ioapic_ready s -> 0x10 <= r < 0x40 -> 0 <= v < 0x1000 ->
  exists s', ioapic_write r v s = Done (tt, s') /\ same_pages s s' /\
    forall q, ioreg (device s') q = if q =? r then v else ioreg (device s) q.
Proof.
  intros Hready Hreg Hv. destruct (select_run s r Hready ltac:(lia)) as (s1 & E1 & Hp1 & Hsel & Hq1).
  pose proof (ready_same _ _ Hp1 Hready) as [Hi1 Hr1]. unfold ioapic_write. erewrite bind_run; [|reflexivity].
  rewrite (bind_run _ _ _ _ _ E1). pose proof Hp1 as [Em1 Ei1]. rewrite <- Ei1, Hi1.
  destruct (reg_mapped s1 (base + IOAPIC_DATA)) as [Em Eu]; [apply (readable_sub _ _ _ _ _ Hr1); unfold IOAPIC_DATA; lia|].
  unfold reg_write. rewrite Em, Eu, u32_small by lia. eexists. split; [reflexivity|]. split; [done|]. intros q. cbn.
  rewrite write_law by (rewrite ?Hsel; done). by rewrite Hsel, Hq1.
Qed.

(** Routing an interrupt changes its entry only. *)
Lemma route_run s gsi vector : ioapic_ready s -> 0 <= gsi < 24 -> 0 <= vector < 0x1000 ->
  exists s', route gsi vector s = Done (tt, s') /\ same_pages s s' /\
    forall g, entry s' g = if g =? gsi then vector else entry s g.
Proof.
  intros Hready Hg Hv. unfold route. unfold IOAPIC_REG_REDTBL_BASE. rewrite !u32_small by lia.
  destruct (ioapic_write_run s (0x10 + gsi * 2) vector Hready ltac:(lia) Hv) as (s1 & E1 & Hp1 & Hq1).
  rewrite (bind_run _ _ _ _ _ E1).
  destruct (ioapic_write_run s1 (0x10 + gsi * 2 + 1) 0 (ready_same _ _ Hp1 Hready) ltac:(lia) ltac:(lia)) as (s2 & E2 & Hp2 & Hq2).
  exists s2. split; [done|]. split; [by etransitivity|]. intros g. unfold entry, IOAPIC_REG_REDTBL_BASE. rewrite Hq2, Hq1.
  destruct (Z.eqb_spec (0x10 + g * 2) (0x10 + gsi * 2 + 1)), (Z.eqb_spec (0x10 + g * 2) (0x10 + gsi * 2)), (Z.eqb_spec g gsi); done || lia.
Qed.

(** The vector that the entries ask for, the last one counting. *)
Definition override (g : Z) (v : option Z) (a : Z) : option Z :=
  if (mem a =? APIC_IOAPIC_ISO) && (word_at mem (a + ENTRY_global_system_interrupt) =? g)
  then Some (32 + mem (a + ENTRY_irq_source)) else v.
Definition overridden (g : Z) (entries : list Z) : option Z := fold_left (override g) entries None.

Definition valid_override (a : Z) : Prop :=
  mem a = APIC_IOAPIC_ISO -> 0 <= word_at mem (a + ENTRY_global_system_interrupt) < 24 /\ 0 <= mem (a + ENTRY_irq_source) < 256.

Lemma see_override_run s a : ioapic_ready s -> readable s a 2 -> (mem a = APIC_IOAPIC \/ mem a = APIC_IOAPIC_ISO -> readable s a 8) ->
  valid_override a ->
  exists s', see_override mem a s = Done (tt, s') /\ same_pages s s' /\
    forall g, entry s' g = default (entry s g) (override g None a).
Proof.
  intros Hready Hr2 Hr8 Hvalid. unfold see_override. erewrite bind_run; [|apply read8_run; apply (readable_sub _ _ _ _ _ Hr2); lia].
  unfold override. destruct (Z.eqb_spec (mem a) APIC_IOAPIC_ISO) as [E|E]; [|by exists s].
  destruct (Hvalid E) as [Hg Hirq]. specialize (Hr8 (or_intror E)).
  erewrite bind_run; [|apply read8_run; apply (readable_sub _ _ _ _ _ Hr8); unfold ENTRY_irq_source; lia].
  erewrite bind_run; [|apply read32_run; apply (readable_sub _ _ _ _ _ Hr8); unfold ENTRY_global_system_interrupt; lia].
  destruct (route_run s _ (32 + mem (a + ENTRY_irq_source)) Hready Hg ltac:(lia)) as (s' & E' & Hp & He). exists s'. split; [done|]. split; [done|].
  intros g. rewrite He, Z.eqb_sym. by destruct (_ =? g).
Qed.

Lemma override_default g v a : override g v a = match override g None a with Some x => Some x | None => v end.
Proof. unfold override. by destruct (_ && _). Qed.

Lemma fold_override_default g v entries : fold_left (override g) entries v = match overridden g entries with Some x => Some x | None => v end.
Proof.
  unfold overridden. revert v. induction entries as [|a entries IH]; intros v; [done|]. cbn [fold_left].
  rewrite (IH (override g v a)), (IH (override g None a)). destruct (fold_left (override g) entries None); [done|]. apply override_default.
Qed.

Lemma overrides_run entries : forall s, ioapic_ready s ->
  Forall (fun a => readable s a 2 /\ (mem a = APIC_IOAPIC \/ mem a = APIC_IOAPIC_ISO -> readable s a 8)) entries ->
  Forall valid_override entries ->
  exists s', visit_all (see_override mem) entries s = Done (tt, s') /\ same_pages s s' /\
    forall g, entry s' g = default (entry s g) (overridden g entries).
Proof.
  induction entries as [|a entries IH]; intros s Hready Hr Hv; [by exists s|].
  apply list.Forall_cons in Hr as [[Hr2 Hr8] Hr]. apply list.Forall_cons in Hv as [Hva Hv].
  destruct (see_override_run s a Hready Hr2 Hr8 Hva) as (s1 & E1 & Hp1 & He1). cbn [visit_all]. rewrite (bind_run _ _ _ _ _ E1).
  assert (extends s s1) as Hext by (destruct Hp1 as [Em _]; unfold extends; by rewrite Em).
  destruct (IH s1 (ready_same _ _ Hp1 Hready)) as (s2 & E2 & Hp2 & He2); [|done|].
  { eapply Forall_impl; [exact Hr|]. cbn. intros b [? Hb]. split; [by apply (readable_extends s)|]. intros Hk. apply (readable_extends s); auto. }
  exists s2. split; [done|]. split; [by etransitivity|]. intros g. rewrite He2, He1.
  assert (overridden g (a :: entries) = match overridden g entries with Some x => Some x | None => override g None a end) as ->
    by (unfold overridden at 1; cbn [fold_left]; apply fold_override_default).
  by destruct (overridden g entries), (override g None a).
Qed.

Lemma fill_identity_run n : forall i s, ioapic_ready s -> 0 <= i -> i + Z.of_nat n <= 24 ->
  exists s', fill_identity n i s = Done (tt, s') /\ same_pages s s' /\
    forall g, entry s' g = if (i <=? g) && (g <? i + Z.of_nat n) && Z.testbit (entry s g) 16 then 32 + g else entry s g.
Proof.
  induction n as [|n IH]; intros i s Hready Hi Hn; cbn [fill_identity].
  - exists s. split; [done|]. split; [done|]. intros g. destruct (Z.leb_spec i g), (Z.ltb_spec g (i + Z.of_nat 0)); cbn; try done; lia.
  - destruct (ioapic_read_run s (IOAPIC_REG_REDTBL_BASE + i * 2) Hready) as (s1 & E1 & Hp1 & Hq1); [unfold IOAPIC_REG_REDTBL_BASE; lia|].
    rewrite (bind_run _ _ _ _ _ E1). fold (entry s i). pose proof (ready_same _ _ Hp1 Hready) as Hready1.
    assert (exists s2, (if Z.testbit (entry s i) 16 then route i (32 + i) else mret tt) s1 = Done (tt, s2) /\ same_pages s1 s2 /\
      forall g, entry s2 g = if (g =? i) && Z.testbit (entry s i) 16 then 32 + i else entry s g) as (s2 & E2 & Hp2 & He2).
    { destruct (Z.testbit (entry s i) 16).
      - destruct (route_run s1 i (32 + i) Hready1 ltac:(lia) ltac:(lia)) as (s2 & E2 & Hp2 & He2). exists s2. split; [done|]. split; [done|].
        intros g. rewrite He2. destruct (g =? i); [done|]. unfold entry. by rewrite Hq1.
      - exists s1. split; [done|]. split; [done|]. intros g. rewrite andb_false_r. unfold entry. by rewrite Hq1. }
    rewrite (bind_run _ _ _ _ _ E2).
    destruct (IH (i + 1) s2 (ready_same _ _ Hp2 Hready1) ltac:(lia) ltac:(lia)) as (s3 & E3 & Hp3 & He3).
    exists s3. split; [done|]. split; [by do 2 (etransitivity; [eassumption|])|]. intros g. rewrite He3, He2.
    destruct (Z.eqb_spec g i) as [->|Hne]; cbn [andb].
    + destruct (Z.leb_spec (i + 1) i), (Z.leb_spec i i), (Z.ltb_spec i (i + Z.of_nat (S n))); try lia. cbn [andb]. by destruct (Z.testbit (entry s i) 16).
    + destruct (Z.leb_spec (i + 1) g), (Z.leb_spec i g), (Z.ltb_spec g (i + 1 + Z.of_nat n)), (Z.ltb_spec g (i + Z.of_nat (S n))); try lia; done.
Qed.

(** ** The firmware as a whole *)

(** The root pointer, the table of tables it names, and the table of interrupt controllers
    among them; all of it mapped. *)
Record firmware s (rsdp rsdt : Z) (tables : list Z) (apic : Z) (lens : list Z) : Prop := Firmware {
  fw_region : 0xE0000 <= rsdp < 0xFFFFF /\ readable s 0xE0000 (rsdp + 20 - 0xE0000);
  fw_signature : has_signature mem RSDP_SIGNATURE rsdp = true /\ forall a, 0xE0000 <= a < rsdp -> has_signature mem RSDP_SIGNATURE a = false;
  fw_root : word_at mem (rsdp + RSDP_RSDTaddress) = rsdt /\ 0 < rsdt;
  fw_rsdt : readable s rsdt (36 + 4 * Z.of_nat (length tables));
  fw_length : word_at mem (rsdt + SDT_Length) = 36 + 4 * Z.of_nat (length tables);
  fw_entries : entries_at mem (rsdt + 36) tables;
  fw_tables : Forall (fun t => readable s t 4) tables;
  fw_apic : find (has_signature mem APIC_SIGNATURE) tables = Some apic /\ apic <> 0;
  fw_madt : madt mem s apic lens
}.

Lemma firmware_extends s s' rsdp rsdt tables apic lens : extends s s' ->
  firmware s rsdp rsdt tables apic lens -> firmware s' rsdp rsdt tables apic lens.
Proof.
  intros He [[H1 H1'] H2 H3 H4 H5 H6 H7 H8 [H9 H10 H11]]. split; try done; try (by eapply readable_extends).
  - split; [done|]. by eapply readable_extends.
  - eapply Forall_impl; [exact H7|]. cbn. intros t. by apply readable_extends.
  - split; [by eapply readable_extends|done|done].
Qed.

Definition mapping_more (f : gset Z) s : platform D := with_mapped (f ∪ mapped s) s.

Lemma mapping_more_extends f s : extends s (mapping_more f s).
Proof. unfold extends, mapping_more. cbn. set_solver. Qed.

Lemma mapping_more_ready f s : ioapic_ready s -> ioapic_ready (mapping_more f s).
Proof. intros [Hi Hr]. split; [done|]. eapply readable_extends; [apply mapping_more_extends|done]. Qed.

Section Found.
Variables (s : platform D) (rsdp rsdt : Z) (tables : list Z) (apic : Z) (lens : list Z).
Hypothesis Hfw : firmware s rsdp rsdt tables apic lens.

Lemma acpi_rsdp_find_run : exists f, acpi_rsdp_find mem s = Done (rsdp, mapping_more f s).
Proof.
  destruct Hfw as [[Hrange Hr] [Hsig Hfirst] [Hroot Hrsdt] _ _ _ _ _ _]. exists (pages_of 0xE0000 (0x100000 - 0xE0000)).
  unfold acpi_rsdp_find. erewrite bind_run; [|apply identity_map_run]. fold (mapping_more (pages_of 0xE0000 (0x100000 - 0xE0000)) s).
  set (s1 := mapping_more _ s). pose proof (readable_extends s s1 _ _ (mapping_more_extends _ _) Hr) as Hr1.
  assert (readable s1 0xE0000 (rsdp + 8 - 0xE0000)) as Hscan by (apply (readable_sub _ _ _ _ _ Hr1); lia).
  erewrite bind_run; [|apply (rsdp_loop_run mem s1 rsdp Hscan Hrange Hsig Hfirst (Z.to_nat (rsdp - 0xE0000))); lia].
  erewrite bind_run; [|apply read32_run; apply (readable_sub _ _ _ _ _ Hr1); unfold RSDP_RSDTaddress; lia].
  rewrite Hroot. destruct (Z.eqb_spec rsdt 0); [lia|done].
Qed.

Lemma sdt_count_run : sdt_count_of (36 + 4 * Z.of_nat (length tables)) = Z.of_nat (length tables).
Proof.
  destruct (fw_rsdt _ _ _ _ _ _ Hfw) as (? & ? & _). unfold sdt_count_of, sizeof_ACPISDTHeader. rewrite u32_small by lia.
  replace (36 + 4 * Z.of_nat (length tables) - 36) with (Z.of_nat (length tables) * 4) by lia. by apply Z.div_mul.
Qed.

Lemma find_apic_table_run : exists f, acpi_find_table mem rsdt (Z.of_nat (length tables)) APIC_SIGNATURE s = Done (apic, mapping_more f s).
Proof.
  destruct Hfw as [_ _ _ Hr _ He Ht [Hfind _] _]. eexists.
  rewrite (acpi_find_table_run mem s rsdt tables APIC_SIGNATURE); [rewrite Hfind; reflexivity|done| |done].
  apply (readable_sub _ _ _ _ _ Hr); unfold sizeof_ACPISDTHeader; lia.
Qed.

End Found.

Lemma growing_overrides : growing (see_override mem).
Proof.
  assert (forall r v s u s', reg_write r v s = Done (u, s') -> mapped s' = mapped s) as Hw.
  { intros r v s u s'. unfold reg_write. destruct (is_mapped s r); [|done]. by intros [= _ <-]. }
  assert (forall r v s u s', ioapic_write r v s = Done (u, s') -> mapped s' = mapped s) as Hiw.
  { intros r v s u s'. unfold ioapic_write, mbind, IO_bind, state. destruct (reg_write _ r s) as [[u1 s1]| |] eqn:E; [|done|done].
    intros E2. by rewrite (Hw _ _ _ _ _ E2), (Hw _ _ _ _ _ E). }
  assert (forall a s v s', read8 mem a s = Done (v, s') -> s' = s) as H8.
  { intros a s v s'. unfold read8. destruct (is_mapped s a); [|done]. by intros [= _ <-]. }
  assert (forall a s v s', read32 mem a s = Done (v, s') -> s' = s) as H32.
  { intros a s v s'. unfold read32, mbind, IO_bind. destruct (read8 mem a s) as [[? ?]| |] eqn:E0; [|done|done].
    destruct (read8 mem (a + 1) p) as [[? ?]| |] eqn:E1; [|done|done]. destruct (read8 mem (a + 2) p0) as [[? ?]| |] eqn:E2; [|done|done].
    destruct (read8 mem (a + 3) p1) as [[? ?]| |] eqn:E3; [|done|done]. intros [= _ <-].
    apply H8 in E0, E1, E2, E3. congruence. }
  intros a s u s'. unfold extends, see_override, mbind, IO_bind. destruct (read8 mem a s) as [[t s1]| |] eqn:E; [|done|done].
  apply H8 in E as ->. destruct (t =? APIC_IOAPIC_ISO); [|by intros [= _ <-]].
  destruct (read8 mem (a + ENTRY_irq_source) s) as [[irq s1]| |] eqn:E; [|done|done]. apply H8 in E as ->.
  destruct (read32 mem _ s) as [[gsi s1]| |] eqn:E; [|done|done]. apply H32 in E as ->.
  unfold route, mbind, IO_bind. destruct (ioapic_write _ _ s) as [[u1 s1]| |] eqn:E1; [|done|done]. intros E2.
  by rewrite (Hiw _ _ _ _ _ E2), (Hiw _ _ _ _ _ E1).
Qed.

(** C30: after [ioapic_post_initialize] every interrupt of the firmware's table of overrides
    arrives at the vector of its old number, the last override of an input counting; of the
    other inputs, those that were masked arrive at the vector of their own number (except
    for input 0), and the rest stays as it was. *)
Theorem interrupts_are_routed (s : platform D) (rsdp rsdt : Z) (tables : list Z) (apic : Z) (lens : list Z)
    (Hfw : firmware s rsdp rsdt tables apic lens) (Hready : ioapic_ready s)
    (Hvalid : Forall valid_override (entries_of apic lens)) :
  exists s', ioapic_post_initialize mem s = Done (tt, s') /\
    forall g, 0 <= g < 24 -> entry s' g =
      match overridden g (entries_of apic lens) with
      | Some vector => vector
      | None => if (1 <=? g) && Z.testbit (entry s g) 16 then 32 + g else entry s g
      end.
Proof.
  unfold ioapic_post_initialize. destruct (acpi_rsdp_find_run _ _ _ _ _ _ Hfw) as (f & E). rewrite (bind_run _ _ _ _ _ E).
  set (s1 := mapping_more f s) in *. pose proof (firmware_extends s s1 _ _ _ _ _ (mapping_more_extends _ _) Hfw) as Hfw1.
  pose proof Hfw1 as [[Hrange Hr] _ [Hroot _] Hrsdt Hlen _ _ _ _].
  erewrite bind_run; [|apply read32_run; apply (readable_sub _ _ _ _ _ Hr); unfold RSDP_RSDTaddress; lia]. rewrite Hroot.
  erewrite bind_run; [|apply read32_run; apply (readable_sub _ _ _ _ _ Hrsdt); unfold SDT_Length; lia]. rewrite Hlen.
  rewrite (sdt_count_run _ _ _ _ _ _ Hfw1).
  destruct (find_apic_table_run _ _ _ _ _ _ Hfw1) as (f2 & E2). rewrite (bind_run _ _ _ _ _ E2). set (s2 := mapping_more f2 s1) in *.
  pose proof (firmware_extends s1 s2 _ _ _ _ _ (mapping_more_extends _ _) Hfw1) as Hfw2. pose proof (fw_madt _ _ _ _ _ _ Hfw2) as Hm.
  assert (ioapic_ready s2) as Hready2 by by do 2 apply mapping_more_ready.
  destruct (overrides_run (entries_of apic lens) s2 Hready2) as (s3 & E3 & Hp3 & He3); [|done|].
  { destruct Hm as [Hrm _ Hrec]. unfold entries_of. apply (entry_readable mem s2 (apic + 44) lens (total lens)); [|done|lia].
    apply (readable_sub _ _ _ _ _ Hrm); pose proof (total_nonneg _ _ _ Hrec); lia. }
  erewrite bind_run; [|rewrite (for_each_entry_run mem _ _ _ _ growing_overrides Hm); exact E3].
  destruct (fill_identity_run 23 1 s3 (ready_same _ _ Hp3 Hready2) ltac:(lia) ltac:(lia)) as (s4 & E4 & _ & He4).
  exists s4. split; [exact E4|]. intros g Hg. rewrite He4, He3. change (entry s2 g) with (entry s g).
  destruct (Z.ltb_spec g (1 + Z.of_nat 23)); [|lia]. rewrite andb_true_r.
  destruct (overridden g (entries_of apic lens)) as [v|] eqn:Ev; unfold default, from_option, id; [|done].
  assert (0 <= v < 2 ^ 16) as Hv.
  { clear - Ev Hvalid. unfold overridden in Ev. revert Ev. assert (forall v0, None = Some v0 -> 0 <= v0 < 2 ^ 16) as H0 by done. revert H0.
    generalize (@None Z). induction Hvalid as [|a l Ha _ IH]; intros v0 H0; cbn [fold_left]; [auto|]. apply IH. intros w. unfold override.
    destruct (_ && _) eqn:F; [|auto]. apply andb_true_iff in F as [F%Z.eqb_eq _]. destruct (Ha F) as [_ ?]. intros [= <-]. lia. }
  assert (Z.testbit v 16 = false) as ->; [|by rewrite andb_false_r].
  by apply (testbit_small v 16).
Qed.

(** ** Finding the I/O APIC *)

Definition last_ioapic (addr a : Z) : Z := if mem a =? APIC_IOAPIC then word_at mem (a + ENTRY_io_apic_address) else addr.

Lemma read8_same a s v s' : read8 mem a s = Done (v, s') -> s' = s.
Proof. unfold read8. destruct (is_mapped s a); [|done]. by intros [= _ <-]. Qed.

Lemma see_ioapic_run s a : readable s a 2 -> (mem a = APIC_IOAPIC \/ mem a = APIC_IOAPIC_ISO -> readable s a 8) ->
  exists s', see_ioapic mem a s = Done (tt, s') /\ extends s s' /\ ioapic_addr s' = last_ioapic (ioapic_addr s) a.
Proof.
  intros Hr2 Hr8. unfold see_ioapic, last_ioapic. erewrite bind_run; [|apply read8_run; apply (readable_sub _ _ _ _ _ Hr2); lia].
  destruct (Z.eqb_spec (mem a) APIC_IOAPIC) as [E|E]; [|exists s; split; [done|split; [unfold extends; set_solver|done]]].
  specialize (Hr8 (or_introl E)). erewrite bind_run; [|apply read32_run; apply (readable_sub _ _ _ _ _ Hr8); unfold ENTRY_io_apic_address; lia].
  erewrite bind_run; [|apply identity_map_run]. eexists. split; [reflexivity|]. split; [|done]. unfold extends. cbn. set_solver.
Qed.

Lemma growing_ioapic : growing (D := D) (see_ioapic mem).
Proof.
  intros a s u s'. unfold extends, see_ioapic, read32, mbind, IO_bind.
  destruct (read8 mem a s) as [[t s1]| |] eqn:E; [|done|done]. apply read8_same in E as ->.
  destruct (t =? APIC_IOAPIC); [|by intros [= _ <-]].
  destruct (read8 mem _ s) as [[? s1]| |] eqn:E; [|done|done]. apply read8_same in E as ->.
  destruct (read8 mem _ s) as [[? s1]| |] eqn:E; [|done|done]. apply read8_same in E as ->.
  destruct (read8 mem _ s) as [[? s1]| |] eqn:E; [|done|done]. apply read8_same in E as ->.
  destruct (read8 mem _ s) as [[? s1]| |] eqn:E; [|done|done]. apply read8_same in E as ->.
  cbn. intros [= _ <-]. cbn. set_solver.
Qed.

Lemma visit_ioapics_run entries : forall s,
  Forall (fun a => readable s a 2 /\ (mem a = APIC_IOAPIC \/ mem a = APIC_IOAPIC_ISO -> readable s a 8)) entries ->
  exists s', visit_all (see_ioapic mem) entries s = Done (tt, s') /\ extends s s' /\
    ioapic_addr s' = fold_left last_ioapic entries (ioapic_addr s).
Proof.
  induction entries as [|a entries IH]; intros s Hr; [exists s; split; [done|split; [unfold extends; set_solver|done]]|].
  apply list.Forall_cons in Hr as [[Hr2 Hr8] Hr].
  destruct (see_ioapic_run s a Hr2 Hr8) as (s1 & E1 & He1 & Ei1). cbn [visit_all]. rewrite (bind_run _ _ _ _ _ E1).
  destruct (IH s1) as (s2 & E2 & He2 & Ei2).
  { eapply Forall_impl; [exact Hr|]. cbn. intros b [? Hb]. split; [by apply (readable_extends s)|]. intros Hk. apply (readable_extends s); auto. }
  exists s2. split; [done|]. split; [by apply (extends_trans _ s1)|]. cbn [fold_left]. by rewrite Ei2, Ei1.
Qed.

(** The driver finds the last I/O APIC that the firmware lists, and maps everything it reads. *)
Theorem apic_find_ioapic_finds s rsdp rsdt tables apic lens : firmware s rsdp rsdt tables apic lens ->
  exists s', apic_find_ioapic mem s = Done (true, s') /\ extends s s' /\
    ioapic_addr s' = fold_left last_ioapic (entries_of apic lens) (ioapic_addr s).
Proof.
  intros Hfw. unfold apic_find_ioapic. destruct (acpi_rsdp_find_run _ _ _ _ _ _ Hfw) as (f & E). rewrite (bind_run _ _ _ _ _ E).
  set (s1 := mapping_more f s) in *. pose proof (firmware_extends s s1 _ _ _ _ _ (mapping_more_extends _ _) Hfw) as Hfw1.
  pose proof Hfw1 as [[Hrange Hr] _ [Hroot _] _ Hlen _ _ [_ Hapic] _]. destruct (Z.eqb_spec rsdp 0); [lia|].
  erewrite bind_run; [|apply read32_run; apply (readable_sub _ _ _ _ _ Hr); unfold RSDP_RSDTaddress; lia]. rewrite Hroot.
  erewrite bind_run; [|unfold map_pages_overlapping; apply identity_map_run].
  fold (mapping_more (pages_of rsdt (overlapping_size rsdt PAGE_SIZE)) s1). set (s2 := mapping_more _ s1).
  pose proof (firmware_extends s1 s2 _ _ _ _ _ (mapping_more_extends _ _) Hfw1) as Hfw2. pose proof (fw_rsdt _ _ _ _ _ _ Hfw2) as Hrsdt.
  erewrite bind_run; [|apply read32_run; apply (readable_sub _ _ _ _ _ Hrsdt); unfold SDT_Length; lia]. rewrite Hlen.
  rewrite (sdt_count_run _ _ _ _ _ _ Hfw2). destruct (find_apic_table_run _ _ _ _ _ _ Hfw2) as (f3 & E3). rewrite (bind_run _ _ _ _ _ E3).
  destruct (Z.eqb_spec apic 0); [contradiction|]. set (s3 := mapping_more f3 s2) in *.
  pose proof (firmware_extends s2 s3 _ _ _ _ _ (mapping_more_extends _ _) Hfw2) as Hfw3. pose proof (fw_madt _ _ _ _ _ _ Hfw3) as Hm.
  destruct (visit_ioapics_run (entries_of apic lens) s3) as (s4 & E4 & He4 & Ei4).
  { destruct Hm as [Hrm _ Hrec]. unfold entries_of. apply (entry_readable mem s3 (apic + 44) lens (total lens)); [|done|lia].
    apply (readable_sub _ _ _ _ _ Hrm); pose proof (total_nonneg _ _ _ Hrec); lia. }
  erewrite bind_run; [|rewrite (for_each_entry_run mem _ _ _ _ growing_ioapic Hm); exact E4].
  exists s4. split; [done|]. split; [|done].
  apply (extends_trans _ s3); [|exact He4]. apply (extends_trans _ s1); [apply mapping_more_extends|].
  apply (extends_trans _ s2); apply mapping_more_extends.
Qed.

End Routing.

(** ** A small machine *)

Lemma readable_in_page {D} (s : platform D) p a n : p ∈ mapped s -> 0 <= p < 2 ^ 20 -> 4096 * p <= a -> a + n <= 4096 * (p + 1) -> readable s a n.
Proof.
  intros Hp Hrange Ha Hn. split; [lia|]. split; [lia|]. intros i Hi. assert (i / 4096 = p) as ->; [|done].
  symmetry. apply (Z.div_unique _ _ _ (i - 4096 * p)); lia.
Qed.

(** A root pointer, a table of tables with one entry, and an interrupt controller table with
    a processor, an I/O APIC and an override of interrupt 0 to input 2. *)
Definition small_firmware : list Z :=
  RSDP_SIGNATURE ++ replicate 8 0 ++ [0x20; 0x00; 0x0e; 0x00] ++ replicate 12 0 ++
  [82; 83; 68; 84; 40; 0; 0; 0] ++ replicate 28 0 ++ [0x50; 0x00; 0x0e; 0x00] ++ replicate 8 0 ++
  APIC_SIGNATURE ++ [74; 0; 0; 0] ++ replicate 36 0 ++
  [0; 8; 0; 0; 1; 0; 0; 0] ++ [1; 12; 0; 0; 0x00; 0x00; 0xc0; 0xfe; 0; 0; 0; 0] ++ [2; 10; 0; 0; 2; 0; 0; 0; 0; 0].

Definition small_mem (a : Z) : Z := if a <? 0xE0000 then 0 else nth (Z.to_nat (a - 0xE0000)) small_firmware 0.

(** The number of the register that is chosen, and the registers. *)
Record io_sim := IoSim { chosen : Z; io_registers : Z -> Z }.

Definition io_base : Z := 0xfec00000.

#[export] Instance io_sim_mmio : Mmio io_sim := {
  mmio_read a d := (if a =? io_base + IOAPIC_DATA then u32 (io_registers d (chosen d)) else 0, d);
  mmio_write a v d :=
    if a =? io_base + IOAPIC_REGSEL then IoSim v (io_registers d)
    else if a =? io_base + IOAPIC_DATA then IoSim (chosen d) (fun q => if q =? chosen d then v else io_registers d q)
    else d
}.

#[export] Instance io_sim_apic : IoApic io_sim := { selected := chosen; ioreg d q := u32 (io_registers d q) }.

#[export] Instance io_sim_laws : IoApicLaws io_sim io_base.
Proof.
  split.
  - intros r d _. cbn -[u32]. done.
  - intros d. cbn -[u32]. split; [done|]. split; [apply u32_range|done].
  - intros v d _ Hv q. change (u32 (if q =? chosen d then v else io_registers d q) = if q =? chosen d then v else u32 (io_registers d q)).
    destruct (q =? chosen d); [by apply u32_small; lia|done].
Qed.

(** Every input is masked. *)
Definition small_machine : platform io_sim :=
  Platform ({[0xE0]} ∪ {[0xfec00]}) 0 0 0 io_base false (IoSim 0 (fun _ => 0x10000)).

Lemma small_firmware_ok : firmware small_mem small_machine 0xE0000 0xE0020 [0xE0050] 0xE0050 [8; 12; 10].
Proof.
  assert (0xE0 ∈ mapped small_machine) as Hp by (cbn; set_solver).
  assert (forall a n, 0xE0000 <= a -> a + n <= 0xE1000 -> readable small_machine a n) as Hr by (intros a n ? ?; apply (readable_in_page _ 0xE0); lia || done).
  split.
  - split; [lia|]. apply Hr; lia.
  - split; [vm_compute; reflexivity|]. intros a Ha. lia.
  - split; [vm_compute; reflexivity|lia].
  - apply Hr; cbn; lia.
  - vm_compute. reflexivity.
  - split; [vm_compute; reflexivity|exact I].
  - constructor; [apply Hr; lia|constructor].
  - split; [vm_compute; reflexivity|lia].
  - split; [apply Hr; cbn; lia|vm_compute; reflexivity|].
    cbn -[small_mem]. repeat split; (vm_compute; congruence) || (intros [?|?]; lia) || lia.
Defined.

Lemma small_overrides_ok : Forall (valid_override small_mem) (entries_of 0xE0050 [8; 12; 10]).
Proof.
  unfold entries_of. cbn [addresses].
  repeat (constructor; [intros E; (discriminate E) || (split; split; vm_compute; congruence)|]). constructor.
Defined.

Lemma small_ready : ioapic_ready io_base small_machine.
Proof. split; [reflexivity|]. apply (readable_in_page _ 0xfec00); [cbn; set_solver|unfold io_base; lia..]. Defined.

Lemma interrupts_are_routed_witness :
  exists s', ioapic_post_initialize small_mem small_machine = Done (tt, s') /\
    entry s' 0 = 0x10000 /\ entry s' 1 = 33 /\ entry s' 2 = 32.
Proof.
  destruct (interrupts_are_routed io_base small_mem small_machine _ _ _ _ _ small_firmware_ok small_ready small_overrides_ok) as (s' & E & He).
  exists s'. split; [exact E|]. rewrite !He by lia. split; [|split]; vm_compute; reflexivity.
Defined.

(** Four processors, but two tables: two are counted. *)
Example processors_missed :
  let mem a := if a mod 8 =? 1 then 8 else 0 in
  let s := Platform {[0]} 0 0 0 0 false tt in
  match count_processors (D := unit) mem 2 0 s with Done (_, s') => system_processors_found s' | _ => 0 end = 2.
Proof. vm_compute. reflexivity. Qed.
