(* ===== verification/Rtl8139.v ===== *)
(** * RTL8139 network card (kernel/src/drv/network/rtl8139.c)

    The card writes packets one behind the other into a ring of 8 KiB, and goes on behind its
    end (the WRAP bit) when a packet does not fit.  The driver follows with a read pointer of
    its own; that the two stay in step is what its reception rests on. *)
From Stdlib Require Import ZArith Lia.
From stdpp Require Import base list numbers.
From S2P Require Import Prelude Bytes Net Ports.

#[local] Open Scope Z_scope.

Definition MAC0_5 : Z := 0x00.
Definition RBSTART : Z := 0x30.
Definition CMD : Z := 0x37.
Definition IMR : Z := 0x3C.
Definition CONFIG_1 : Z := 0x52.
Definition ROK : Z := 1.
Definition TOK : Z := 4.
Definition CAPR : Z := 0x38.
Definition RTL8139_BUFFER_SIZE : Z := 65536.
Definition HARDWARE_TYPE_ETHERNET : Z := 1.

Definition TSAD_array : list Z := [0x20; 0x24; 0x28; 0x2C].
Definition TSD_array : list Z := [0x10; 0x14; 0x18; 0x1C].

Record rtl8139 := Rtl8139 {
  rtl8139_io_base : Z;
  rtl8139_mem_base : Z;
  rtl8139_bar_type : Z;
  rtl8139_phys_buffer : Z;
  rtl8139_virt_buffer : Z;
  rtl8139_transfer_buffer : Z;
  rtl8139_transfer_buffer_phys : Z;
  rtl8139_irq : Z;
  rtl8139_mac : list Z;
  rtl8139_current_tx_index : Z;
  rtl8139_in_irq : bool;
  rtl8139_current_packet_ptr : Z
}.

Definition with_mac (m : list Z) (r : rtl8139) : rtl8139 :=
  Rtl8139 (rtl8139_io_base r) (rtl8139_mem_base r) (rtl8139_bar_type r) (rtl8139_phys_buffer r) (rtl8139_virt_buffer r)
    (rtl8139_transfer_buffer r) (rtl8139_transfer_buffer_phys r) (rtl8139_irq r) m (rtl8139_current_tx_index r)
    (rtl8139_in_irq r) (rtl8139_current_packet_ptr r).
Definition with_tx_index (i : Z) (r : rtl8139) : rtl8139 :=
  Rtl8139 (rtl8139_io_base r) (rtl8139_mem_base r) (rtl8139_bar_type r) (rtl8139_phys_buffer r) (rtl8139_virt_buffer r)
    (rtl8139_transfer_buffer r) (rtl8139_transfer_buffer_phys r) (rtl8139_irq r) (rtl8139_mac r) i
    (rtl8139_in_irq r) (rtl8139_current_packet_ptr r).
Definition with_in_irq (b : bool) (r : rtl8139) : rtl8139 :=
  Rtl8139 (rtl8139_io_base r) (rtl8139_mem_base r) (rtl8139_bar_type r) (rtl8139_phys_buffer r) (rtl8139_virt_buffer r)
    (rtl8139_transfer_buffer r) (rtl8139_transfer_buffer_phys r) (rtl8139_irq r) (rtl8139_mac r) (rtl8139_current_tx_index r)
    b (rtl8139_current_packet_ptr r).
Definition with_irq (n : Z) (r : rtl8139) : rtl8139 :=
  Rtl8139 (rtl8139_io_base r) (rtl8139_mem_base r) (rtl8139_bar_type r) (rtl8139_phys_buffer r) (rtl8139_virt_buffer r)
    (rtl8139_transfer_buffer r) (rtl8139_transfer_buffer_phys r) n (rtl8139_mac r) (rtl8139_current_tx_index r)
    (rtl8139_in_irq r) (rtl8139_current_packet_ptr r).
Definition with_ptr (p : Z) (r : rtl8139) : rtl8139 :=
  Rtl8139 (rtl8139_io_base r) (rtl8139_mem_base r) (rtl8139_bar_type r) (rtl8139_phys_buffer r) (rtl8139_virt_buffer r)
    (rtl8139_transfer_buffer r) (rtl8139_transfer_buffer_phys r) (rtl8139_irq r) (rtl8139_mac r) (rtl8139_current_tx_index r)
    (rtl8139_in_irq r) p.

(** The driver, the network stack it feeds, and the machine. *)
Record nic (D : Type) := Nic { card : rtl8139; stack : net; machine : D }.
Arguments Nic {D} _ _ _.
Arguments card {D} _.
Arguments stack {D} _.
Arguments machine {D} _.

Section Driver.
Context {D : Type} `{Dports : PortIO D} `{Dmem : PhysMem D}.
(** Virtual to physical addresses in the kernel's page directory. *)
Variable v2p : Z -> Z.
(** The number of the card in the list of network cards. *)
Variable card_number : Z.
(** Polls after which the reset counts as endless. *)
Variable polls : nat.

#[local] Abbreviation M := (IO (nic D)).

Definition driver : M rtl8139 := fun s => Done (card s, s).
Definition update (f : rtl8139 -> rtl8139) : M unit := fun s => Done (tt, Nic (f (card s)) (stack s) (machine s)).
Definition on_machine {A} (m : IO D A) : M A := fun s =>
  match m (machine s) with
  | Done (a, d) => Done (a, Nic (card s) (stack s) d)
  | Hang => Hang
  | Fault => Fault
  end.
Definition to_stack (packet : list Z) : M unit := fun s =>
  Done (tt, Nic (card s) (netstack_transfer card_number packet (stack s)) (machine s)).

(** The registers, from the base on. *)
Definition reg_outb (r v : Z) : M unit := c ← driver; on_machine (outb (rtl8139_io_base c + r) v).
Definition reg_outw (r v : Z) : M unit := c ← driver; on_machine (outw (rtl8139_io_base c + r) v).
Definition reg_outl (r v : Z) : M unit := c ← driver; on_machine (outl (rtl8139_io_base c + r) v).
Definition reg_inb (r : Z) : M Z := c ← driver; on_machine (inb (rtl8139_io_base c + r)).
Definition reg_inw (r : Z) : M Z := c ← driver; on_machine (inw (rtl8139_io_base c + r)).
Definition reg_inl (r : Z) : M Z := c ← driver; on_machine (inl (rtl8139_io_base c + r)).

Definition rtl8139_read_mac : M unit :=
  mac_part1 ← reg_inl MAC0_5;
  mac_part2 ← reg_inw (MAC0_5 + 4);
  update (with_mac (map u8 [mac_part1; Z.shiftr mac_part1 8; Z.shiftr mac_part1 16; Z.shiftr mac_part1 24;
                            mac_part2; Z.shiftr mac_part2 8])).

Definition rtl8139_netcard_get_mac : M (list Z) := _ ← rtl8139_read_mac; c ← driver; mret (take 6 (rtl8139_mac c)).

Definition rtl8139_enable_rx_tx : M unit := reg_outb CMD 0x0C.
Definition rtl8139_setup_rcr : M unit := reg_outl 0x44 (Z.lor 0xf 0x80).
Definition rtl8139_wake_up : M unit := reg_outb CONFIG_1 0x0.

Fixpoint wait_reset (n : nat) : M unit :=
  match n with
  | O => hang
  | S n' => c ← reg_inb CMD; if Z.land c 0x10 =? 0 then mret tt else wait_reset n'
  end.
Definition rtl8139_sw_reset : M unit := _ ← reg_outb CMD 0x10; wait_reset polls.

Definition rtl8139_init_buffer : M unit := c ← driver; reg_outl RBSTART (rtl8139_phys_buffer c).

(** [memset], then [memcpy] of the data, of whatever length. *)
Definition rtl8139_send_packet (data : list Z) : M unit :=
  c ← driver;
  _ ← on_machine (write_virtual v2p (rtl8139_transfer_buffer c) (replicate (Z.to_nat 65535) 0));
  _ ← on_machine (write_virtual v2p (rtl8139_transfer_buffer c) data);
  tsad ← lift (array_get TSAD_array (rtl8139_current_tx_index c));
  _ ← reg_outl tsad (rtl8139_transfer_buffer_phys c);
  tsd ← lift (array_get TSD_array (rtl8139_current_tx_index c));
  _ ← reg_outl tsd (Z.of_nat (length data));
  let i := rtl8139_current_tx_index c + 1 in
  update (with_tx_index (if 3 <? i then 0 else i)).

(** [(ptr + length + 7) & ~3], back by the size of the ring if it is behind it. *)
Definition next_packet_ptr (ptr packet_length : Z) : Z :=
  let p := Z.land (u32 (ptr + packet_length + 7)) (u32 (Z.lnot 3)) in
  if 8192 <? p then p - 8192 else p.

Definition rtl8139_receive_packet : M unit :=
  c ← driver;
  let packet := rtl8139_virt_buffer c + rtl8139_current_packet_ptr c in
  header ← on_machine (read_virtual v2p 4 packet);
  packet_header ← lift (load16 header 0);
  packet_length ← lift (load16 header 2);
  _ ← (if packet_header =? HARDWARE_TYPE_ETHERNET then
         packet_data ← on_machine (read_virtual v2p (Z.to_nat packet_length) (packet + 4));
         to_stack packet_data
       else mret tt);
  let p := next_packet_ptr (rtl8139_current_packet_ptr c) packet_length in
  _ ← update (with_ptr p);
  reg_outw CAPR (p - 0x10).

Definition rtl8139_handler : M unit :=
  _ ← update (with_in_irq true);
  status ← reg_inw 0x3e;
  _ ← (if negb (Z.land status ROK =? 0) then rtl8139_receive_packet else mret tt);
  _ ← reg_outw 0x3E 0x05;
  update (with_in_irq false).

(** [word] is the interrupt register in the configuration space. *)
Definition rtl8139_init_interrupts (word : Z) : M unit :=
  _ ← reg_outw IMR 0x0005;
  update (with_irq (Z.land word 0xff)).

(** What the bus says: nothing, or the first base address and the interrupt register; the
    two buffers are those that the heap has given.  Whether the card joins the list. *)
Definition rtl8139_init (found : option (Z * Z)) (virt_buffer transfer_buffer : Z) : M bool :=
  match found with
  | None => mret false
  | Some (ret, word) =>
      _ ← update (fun c => Rtl8139 (Z.ldiff ret 3) (Z.ldiff ret 0xf) (Z.land ret 1) (rtl8139_phys_buffer c) (rtl8139_virt_buffer c)
                    (rtl8139_transfer_buffer c) (rtl8139_transfer_buffer_phys c) (rtl8139_irq c) (rtl8139_mac c)
                    (rtl8139_current_tx_index c) (rtl8139_in_irq c) (rtl8139_current_packet_ptr c));
      _ ← rtl8139_wake_up;
      _ ← rtl8139_sw_reset;
      _ ← update (fun c => Rtl8139 (rtl8139_io_base c) (rtl8139_mem_base c) (rtl8139_bar_type c) (v2p virt_buffer) virt_buffer
                    transfer_buffer (v2p transfer_buffer) (rtl8139_irq c) (rtl8139_mac c)
                    (rtl8139_current_tx_index c) (rtl8139_in_irq c) (rtl8139_current_packet_ptr c));
      _ ← rtl8139_init_buffer;
      _ ← rtl8139_setup_rcr;
      _ ← rtl8139_enable_rx_tx;
      _ ← rtl8139_init_interrupts word;
      _ ← rtl8139_read_mac;
      mret true
  end.

End Driver.

(** ** The ring *)

(** Where the card writes after a packet of [len] bytes at [o]: behind its header of four
    bytes and its data, on a multiple of four, around the ring. *)
Definition card_next (o len : Z) : Z := (4 * ((o + 4 + len + 3) / 4)) mod 8192.

Lemma clear_two_bits x : 0 <= x < 2 ^ 32 -> Z.land x (u32 (Z.lnot 3)) = 4 * (x / 4).
Proof.
  intros Hx. change 3 with (Z.ones 2). rewrite land_lnot_ones by lia. done.
Qed.

(** The driver's pointer follows the card's, except that it stays at the end of the ring
    when a packet ends there. *)
Lemma next_packet_ptr_follows o len : 0 <= o < 8192 -> 0 <= len <= 8184 ->
  next_packet_ptr o len = if 4 * ((o + 4 + len + 3) / 4) =? 8192 then 8192 else card_next o len.
Proof.
  intros Ho Hlen. unfold next_packet_ptr, card_next. rewrite u32_small, clear_two_bits by lia.
  replace (o + len + 7) with (o + 4 + len + 3) by lia. set (p := 4 * ((o + 4 + len + 3) / 4)).
  assert (0 <= p < 16384) by (unfold p; Z.to_euclidean_division_equations; lia). cbv zeta.
  destruct (Z.ltb_spec 8192 p), (Z.eqb_spec p 8192); try lia.
  - apply (Z.mod_unique _ _ 1); lia.
  - symmetry. apply Z.mod_small. lia.
Qed.

Section Reception.
Context {D : Type} `{Dports : PortIO D} `{Dmem : PhysMem D}.
Variable v2p : Z -> Z.
Variable card_number : Z.

(** A packet in the ring, as the card writes it. *)
Definition ring_bytes (p : list Z) : list Z := [1; 0] ++ bytes16 (Z.of_nat (length p)) ++ p.

(** The machine when the card interrupts because of [p], which it has put at [o]. *)
Definition arrived (io phys o : Z) (p : list Z) (d : D) : Prop :=
  let r := port_inw (u16 (io + 0x3e)) d in
  Z.land (fst r) ROK <> 0 /\
  forall i b, ring_bytes p !! i = Some b -> mem_read (phys + o + Z.of_nat i) (snd r) = b.

(** One interrupt after the other; the machine may change in any way between them. *)
Fixpoint receive_all (ds : list D) (s : nic D) : outcome (nic D) :=
  match ds with
  | [] => Done s
  | d :: ds' => '(_, s) ← rtl8139_handler v2p card_number (Nic (card s) (stack s) d); receive_all ds' s
  end.

Fixpoint arrivals (io phys o : Z) (ps : list (list Z)) (ds : list D) : Prop :=
  match ps, ds with
  | [], [] => True
  | p :: ps', d :: ds' => arrived io phys o p d /\ arrivals io phys (card_next o (Z.of_nat (length p))) ps' ds'
  | _, _ => False
  end.

(** No packet ends exactly at the end of the ring. *)
Fixpoint never_full (o : Z) (ps : list (list Z)) : Prop :=
  match ps with
  | [] => True
  | p :: ps' =>
      4 * ((o + 4 + Z.of_nat (length p) + 3) / 4) <> 8192 /\ Z.of_nat (length p) <= 8184 /\ Forall is_byte p /\
      never_full (card_next o (Z.of_nat (length p))) ps'
  end.

(** The receive buffer is contiguous, and the driver's fields other than the pointer are set. *)
Definition buffer_contiguous (c : rtl8139) : Prop :=
  forall i, 0 <= i < RTL8139_BUFFER_SIZE -> v2p (rtl8139_virt_buffer c + i) = rtl8139_phys_buffer c + i.

Lemma read_ring c o p d k n : buffer_contiguous c -> 0 <= o -> o + Z.of_nat (length (ring_bytes p)) <= RTL8139_BUFFER_SIZE ->
  (forall i b, ring_bytes p !! i = Some b -> mem_read (rtl8139_phys_buffer c + o + Z.of_nat i) d = b) ->
  (k + n <= length (ring_bytes p))%nat ->
  read_virtual v2p n (rtl8139_virt_buffer c + o + Z.of_nat k) d = Done (take n (drop k (ring_bytes p)), d).
Proof.
  intros Hc Ho Hlen Hmem Hkn. rewrite read_virtual_bytes. do 2 f_equal. apply list_eq. intros i.
  destruct (decide (i < n)%nat) as [Hi|Hi].
  - rewrite lookup_take_lt, lookup_drop by lia. destruct (lookup_lt_is_Some_2 (ring_bytes p) (k + i)) as [b Hb]; [lia|].
    rewrite Hb, list_lookup_fmap. rewrite lookup_seqZ_lt by lia. cbn [fmap option_fmap option_map].
    f_equal. rewrite <- (Hmem _ _ Hb). replace (rtl8139_virt_buffer c + o + Z.of_nat k + (0 + Z.of_nat i))
      with (rtl8139_virt_buffer c + (o + Z.of_nat (k + i))) by lia.
    rewrite Hc by lia. f_equal. lia.
  - rewrite !lookup_ge_None_2; [done|rewrite length_take; lia|rewrite length_map, length_seqZ; lia].
Qed.

Lemma on_machine_run {A} (m : IO D A) s a d : m (machine s) = Done (a, d) -> on_machine m s = Done (a, Nic (card s) (stack s) d).
Proof. intros E. unfold on_machine. by rewrite E. Qed.

Lemma ring_bytes_length p : length (ring_bytes p) = (4 + length p)%nat.
Proof. done. Qed.

(** One packet that lies at the driver's pointer. *)
Lemma receive_packet_run c p d n :
  let s := Nic c n d in
  let o := rtl8139_current_packet_ptr c in
  buffer_contiguous c -> 0 <= o <= 8192 -> Z.of_nat (length p) <= 8184 ->
  (forall i b, ring_bytes p !! i = Some b -> mem_read (rtl8139_phys_buffer c + o + Z.of_nat i) d = b) ->
  rtl8139_receive_packet v2p card_number s =
    Done (tt, Nic (with_ptr (next_packet_ptr o (Z.of_nat (length p))) c) (netstack_transfer card_number p n)
                (port_outw (u16 (rtl8139_io_base c + CAPR)) (u16 (next_packet_ptr o (Z.of_nat (length p)) - 0x10)) d)).
Proof.
  intros s o Hc Ho Hp Hmem. assert (o + Z.of_nat (length (ring_bytes p)) <= RTL8139_BUFFER_SIZE) as Hfit
    by (rewrite ring_bytes_length; unfold RTL8139_BUFFER_SIZE; lia).
  assert (read_virtual v2p 4 (rtl8139_virt_buffer c + o) d = Done (take 4 (ring_bytes p), d)) as E4.
  { pose proof (read_ring c o p d 0 4 Hc ltac:(lia) Hfit Hmem ltac:(rewrite ring_bytes_length; lia)) as E. by rewrite Z.add_0_r in E. }
  unfold rtl8139_receive_packet, s. erewrite bind_run; [|reflexivity]. cbn [card]. fold o. cbv zeta.
  erewrite bind_run; [|apply on_machine_run; exact E4]. cbn [card stack].
  change (take 4 (ring_bytes p)) with ([1; 0] ++ bytes16 (Z.of_nat (length p))).
  assert (0 <= Z.of_nat (length p) < 2 ^ 16) as Hr by lia.
  unfold bytes16. cbn [app]. erewrite bind_run; [|reflexivity]. erewrite bind_run; [|reflexivity].
  change (1 + 256 * 0 =? HARDWARE_TYPE_ETHERNET) with true. cbv iota.
  assert (Z.of_nat (length p) mod 256 + 256 * ((Z.of_nat (length p) / 256) mod 256) = Z.of_nat (length p)) as ->
    by (rewrite (Z.mod_small (_ / 256)) by (split; [apply Z.div_pos; lia|apply Z.div_lt_upper_bound; lia]); pose proof (Z.div_mod (Z.of_nat (length p)) 256); lia).
  rewrite Nat2Z.id. pose proof (read_ring c o p d 4 (length p) Hc ltac:(lia) Hfit Hmem ltac:(rewrite ring_bytes_length; lia)) as Ep.
  change (drop 4 (ring_bytes p)) with p in Ep. rewrite take_ge in Ep by lia. change (Z.of_nat 4) with 4 in Ep.
  erewrite bind_run; [|erewrite bind_run; [|apply on_machine_run; exact Ep]; reflexivity]. done.
Qed.


End Reception.

(** A packet that ends at the end of the ring leaves the pointer there, where the card never
    writes a packet. *)
Theorem pointer_left_at_end : next_packet_ptr 8128 60 = 8192 /\ card_next 8128 60 = 0.
Proof. done. Qed.

(** ** A card *)

(** A machine that has the memory of the buffer and says that a packet was received. *)
#[export] Instance list_machine_ports : PortIO (list Z) := {
  port_inb _ d := (0, d); port_inw _ d := (1, d); port_inl _ d := (0, d);
  port_outb _ _ d := d; port_outw _ _ d := d; port_outl _ _ d := d; time_passes _ d := d
}.
#[export] Instance list_machine_memory : PhysMem (list Z) := {
  mem_read a d := nth (Z.to_nat a) d 0;
  mem_write a b d := <[Z.to_nat a := b]> d
}.

Definition card_at_zero : rtl8139 := Rtl8139 0xc000 0xc000 1 0 0x1000 0x20000 0x20000 11 [0; 0; 0; 0; 0; 0] 0 false 0.

