(* ===== verification/Descriptors.v ===== *)
(** * Descriptor tables (kernel/src/arch/x86/gdt.c, idt.c, tss.c)

    The kernel writes packed descriptors; the processor reads their bytes back.  The
    specification is the reading half, after the processor's manual: which segment a
    selector names, which code a vector enters, which ports a program may use. *)
From Stdlib Require Import ZArith Lia.
From stdpp Require Import base list numbers.
From S2P Require Import Prelude Bytes.

#[local] Open Scope Z_scope.

(** ** The structures *)

Record gdt_entry_t := GdtEntry {
  limit_low : Z;
  base_low : Z;
  base_middle : Z;
  access : Z;
  granularity : Z;
  base_high : Z
}.

Record idt_entry_t := IdtEntry {
  i_base_low : Z;
  i_selector : Z;
  i_always0 : Z;
  i_flags : Z;
  i_base_high : Z
}.

(** [gdt_ptr_t], [idt_ptr_t]. *)
Record desc_ptr_t := DescPtr { p_limit : Z; p_base : Z }.

Record tss_entry_t := Tss {
  prev_tss : Z; esp0 : Z; ss0 : Z; esp1 : Z; ss1 : Z; esp2 : Z; ss2 : Z;
  cr3 : Z; eip : Z; eflags : Z; eax : Z; ecx : Z; edx : Z; ebx : Z; esp : Z; ebp : Z; esi : Z; edi : Z;
  es : Z; cs : Z; ss : Z; ds : Z; fs : Z; gs : Z; ldtr : Z;
  trap : Z; iomap_base : Z
}.

Definition zero_gdt_entry : gdt_entry_t := GdtEntry 0 0 0 0 0 0.
Definition zero_idt_entry : idt_entry_t := IdtEntry 0 0 0 0 0.
Definition zero_tss : tss_entry_t := Tss 0 0 0 0 0 0 0 0 0 0 0 0 0 0 0 0 0 0 0 0 0 0 0 0 0 0 0.

Definition sizeof_gdt_entry : Z := 8.
Definition sizeof_idt_entry : Z := 8.
Definition sizeof_tss : Z := 104.
Definition GDT_NUMBER_OF_ELTS : Z := 6.

(** The packed structures in memory. *)
Definition gdt_bytes (e : gdt_entry_t) : list Z :=
  bytes16 (limit_low e) ++ bytes16 (base_low e) ++ [base_middle e; access e; granularity e; base_high e].

Definition idt_bytes (e : idt_entry_t) : list Z :=
  bytes16 (i_base_low e) ++ bytes16 (i_selector e) ++ [i_always0 e; i_flags e] ++ bytes16 (i_base_high e).

Definition tss_bytes (t : tss_entry_t) : list Z :=
  concat (map bytes32 [prev_tss t; esp0 t; ss0 t; esp1 t; ss1 t; esp2 t; ss2 t; cr3 t; eip t; eflags t; eax t; ecx t;
    edx t; ebx t; esp t; ebp t; esi t; edi t; es t; cs t; ss t; ds t; fs t; gs t; ldtr t]) ++
  bytes16 (trap t) ++ bytes16 (iomap_base t).

Lemma sizeofs e i t :
  Z.of_nat (length (gdt_bytes e)) = sizeof_gdt_entry /\ Z.of_nat (length (idt_bytes i)) = sizeof_idt_entry /\
  Z.of_nat (length (tss_bytes t)) = sizeof_tss.
Proof. done. Qed.

(** ** The kernel's side *)

(** The variables of the three files, and the registers that point the processor to them. *)
Record tables := Tables {
  gdt_entries : list gdt_entry_t;
  gdt_ptr : desc_ptr_t;
  idt_entries : list idt_entry_t;
  idt_ptr : desc_ptr_t;
  tss : tss_entry_t;
  gdtr : desc_ptr_t;
  idtr : desc_ptr_t;
  task_register : Z
}.

Definition with_gdt (g : list gdt_entry_t) (t : tables) : tables :=
  Tables g (gdt_ptr t) (idt_entries t) (idt_ptr t) (tss t) (gdtr t) (idtr t) (task_register t).
Definition with_idt (g : list idt_entry_t) (t : tables) : tables :=
  Tables (gdt_entries t) (gdt_ptr t) g (idt_ptr t) (tss t) (gdtr t) (idtr t) (task_register t).
Definition with_tss (x : tss_entry_t) (t : tables) : tables :=
  Tables (gdt_entries t) (gdt_ptr t) (idt_entries t) (idt_ptr t) x (gdtr t) (idtr t) (task_register t).

(** [gdt_entries[num]]: the entry that the assignments build from its old value; every
    field is assigned. *)
Definition gdt_entry_of (base limit access flags : Z) : gdt_entry_t :=
  let g := u8 (Z.land (Z.shiftr limit 16) 0xF) in
  GdtEntry (u16 (Z.land limit 0xFFFF)) (u16 (Z.land base 0xFFFF)) (u8 (Z.land (Z.shiftr base 16) 0xFF)) access
    (u8 (Z.lor g (Z.shiftl flags 4))) (u8 (Z.land (Z.shiftr base 24) 0xFF)).

Definition gdt_set_gate (num base limit access flags : Z) (t : tables) : outcome tables :=
  g ← array_set (gdt_entries t) num (gdt_entry_of base limit access flags); Done (with_gdt g t).

Definition idt_entry_of (base selector flags : Z) : idt_entry_t :=
  IdtEntry (u16 (Z.land base 0xFFFF)) selector 0 flags (u16 (Z.land (Z.shiftr base 16) 0xFFFF)).

Definition idt_set_gate (num base selector flags : Z) (t : tables) : outcome tables :=
  g ← array_set (idt_entries t) num (idt_entry_of base selector flags); Done (with_idt g t).

Definition tss_of (ss0 esp0 : Z) : tss_entry_t :=
  Tss 0 esp0 ss0 0 0 0 0 0 0 0 0 0 0 0 0 0 0 0 0x13 0x0b 0x13 0x13 0x13 0x13 0 0 0.

Section Setup.
(** Where the linker puts the tables, the first stack and the entry points. *)
Variables gdt_entries_addr idt_entries_addr tss_addr stack_top : Z.
Variables isr_stub irq_stub : Z -> Z.

Definition tss_descriptor : gdt_entry_t :=
  GdtEntry (u16 (Z.land sizeof_tss 0xFFFF)) (u16 (Z.land tss_addr 0xFFFF)) (u8 (Z.land (Z.shiftr tss_addr 16) 0xFF)) 0x89
    (u8 (Z.lor (Z.land (Z.shiftr sizeof_tss 16) 0xF) (Z.shiftl 0 4))) (u8 (Z.land (Z.shiftr tss_addr 24) 0xFF)).

Definition write_tss (num ss0 esp0 : Z) (t : tables) : outcome tables :=
  let t := with_tss (tss_of ss0 esp0) t in
  g ← array_set (gdt_entries t) num tss_descriptor; Done (with_gdt g t).

Definition gdt_flush (t : tables) : tables :=
  Tables (gdt_entries t) (gdt_ptr t) (idt_entries t) (idt_ptr t) (tss t) (gdt_ptr t) (idtr t) (task_register t).
Definition tss_flush (tr_selector : Z) (t : tables) : tables :=
  Tables (gdt_entries t) (gdt_ptr t) (idt_entries t) (idt_ptr t) (tss t) (gdtr t) (idtr t) (u16 tr_selector).
Definition idt_flush (t : tables) : tables :=
  Tables (gdt_entries t) (gdt_ptr t) (idt_entries t) (idt_ptr t) (tss t) (gdtr t) (idt_ptr t) (task_register t).

Definition init_gdt (t : tables) : outcome tables :=
  let t := Tables (gdt_entries t) (DescPtr (u16 (sizeof_gdt_entry * GDT_NUMBER_OF_ELTS - 1)) (u32 gdt_entries_addr))
             (idt_entries t) (idt_ptr t) (tss t) (gdtr t) (idtr t) (task_register t) in
  t ← gdt_set_gate 0 0 0 0 0 t;
  t ← gdt_set_gate 1 0 0xFFFFFFFF 0x9A 12 t;
  t ← gdt_set_gate 2 0 0xFFFFFFFF 0x92 12 t;
  t ← gdt_set_gate 3 0 0xFFFFFFFF 0xFA 12 t;
  t ← gdt_set_gate 4 0 0xFFFFFFFF 0xF2 12 t;
  let t := gdt_flush t in
  t ← write_tss 5 0x10 (u32 stack_top) t;
  Done (tss_flush 0x28 t).

(** [idt_set_gate(first + i, stub(i), 0x08, flags)] for [n] consecutive [i]. *)
Fixpoint set_gates (n : nat) (first i : Z) (stub : Z -> Z) (flags : Z) (t : tables) : outcome tables :=
  match n with
  | O => Done t
  | S n' => t ← idt_set_gate (u8 (first + i)) (u32 (stub i)) 0x08 flags t; set_gates n' first (i + 1) stub flags t
  end.

Definition init_idt (t : tables) : outcome tables :=
  let t := Tables (gdt_entries t) (gdt_ptr t) (replicate 256 zero_idt_entry)
             (DescPtr (u16 (sizeof_idt_entry * 256 - 1)) (u32 idt_entries_addr)) (tss t) (gdtr t) (idtr t) (task_register t) in
  t ← set_gates 32 0 0 isr_stub 0x8F t;
  t ← set_gates 16 32 0 irq_stub 0x8E t;
  t ← idt_set_gate 0x80 (u32 (isr_stub 0x80)) 0x08 0xEF t;
  Done (idt_flush t).

End Setup.

(** ** The processor's side *)

Record segment := Segment { seg_base : Z; seg_limit : Z; seg_access : Z; seg_flags : Z }.
Record gate := Gate { g_offset : Z; g_selector : Z; g_flags : Z }.

Definition decode_segment (l : list Z) : option segment :=
  match l with
  | [l0; l1; b0; b1; b2; a; g; b3] =>
      Some (Segment (b0 + 256 * b1 + 65536 * b2 + 16777216 * b3) (l0 + 256 * l1 + 65536 * (g mod 16)) a (g / 16))
  | _ => None
  end.

Definition decode_gate (l : list Z) : option gate :=
  match l with
  | [o0; o1; s0; s1; _; f; o2; o3] => Some (Gate (o0 + 256 * o1 + 65536 * o2 + 16777216 * o3) (s0 + 256 * s1) f)
  | _ => None
  end.

(** Access bytes: present in bit 7, privilege in bits 6-5; code segments have bits 4 and 3
    set.  Gates: the same, and the type in bits 3-0, 14 for an interrupt gate (which masks
    interrupts) and 15 for a trap gate. *)
Definition is_present (a : Z) : bool := Z.testbit a 7.
Definition privilege (a : Z) : Z := Z.shiftr a 5 mod 4.
Definition is_code (s : segment) : bool := Z.testbit (seg_access s) 4 && Z.testbit (seg_access s) 3.
Definition gate_type (a : Z) : Z := a mod 16.
(** The last offset: limits count pages when flag 3 (G) is set. *)
Definition last_offset (s : segment) : Z :=
  if Z.testbit (seg_flags s) 3 then 4096 * seg_limit s + 4095 else seg_limit s.

Section Processor.
Variables gdt_entries_addr idt_entries_addr : Z.

(** The bytes at linear addresses, as far as the tables go. *)
Definition byte_at (t : tables) (a : Z) : option Z :=
  if bool_decide (gdt_entries_addr <= a < gdt_entries_addr + sizeof_gdt_entry * Z.of_nat (length (gdt_entries t)))
  then concat (map gdt_bytes (gdt_entries t)) !! Z.to_nat (a - gdt_entries_addr)
  else if bool_decide (idt_entries_addr <= a < idt_entries_addr + sizeof_idt_entry * Z.of_nat (length (idt_entries t)))
  then concat (map idt_bytes (idt_entries t)) !! Z.to_nat (a - idt_entries_addr)
  else None.

(** Eight bytes at an offset in a table, none of them behind its limit. *)
Definition read_descriptor (t : tables) (r : desc_ptr_t) (off : Z) : option (list Z) :=
  if off + 7 <=? p_limit r then mapM (byte_at t) (seqZ (p_base r + off) 8) else None.

Definition load_segment (t : tables) (selector : Z) : option segment :=
  if Z.testbit selector 2 then None
  else l ← read_descriptor t (gdtr t) (8 * (selector / 8)); decode_segment l.

Definition load_gate (t : tables) (vector : Z) : option gate :=
  l ← read_descriptor t (idtr t) (8 * vector); decode_gate l.

(** Where a vector enters the kernel, the privilege with which the code runs, and whether
    interrupts are masked; [None] raises another exception.  An [int] instruction at
    privilege [cpl] needs a gate that allows it. *)
Definition enter (t : tables) (software : bool) (cpl vector : Z) : option (Z * Z * bool) :=
  g ← load_gate t vector;
  if negb (is_present (g_flags g)) || (software && (privilege (g_flags g) <? cpl)) then None
  else
    s ← load_segment t (g_selector g);
    if is_present (seg_access s) && is_code s && (g_offset g <=? last_offset s)
    then Some (u32 (seg_base s + g_offset g), privilege (seg_access s), gate_type (g_flags g) =? 14)
    else None.

(** [in] and [out] in a program of privilege 3: allowed where the bit of the port in the
    bitmap is clear, which must lie in the task state segment. *)
Definition port_allowed (t : tables) (port : Z) : bool :=
  match load_segment t (task_register t) with
  | None => false
  | Some s =>
      let off := iomap_base (tss t) + port / 8 in
      (off + 1 <=? last_offset s) && negb (Z.testbit (nth (Z.to_nat off) (tss_bytes (tss t)) 0xFF) (port mod 8))
  end.

End Processor.

(** ** Reading entries back *)

(** A slice of a concatenation of pieces of one length is a piece. *)
Lemma concat_piece {A} (f : A -> list Z) k l i e j :
  (forall x, length (f x) = k) -> l !! i = Some e -> (j < k)%nat ->
  concat (map f l) !! (k * i + j)%nat = f e !! j.
Proof.
  intros Hf. revert i. induction l as [|x l IH]; intros i Hi Hj; [done|]. cbn [map concat]. destruct i as [|i].
  - injection Hi as ->. rewrite lookup_app_l by (rewrite Hf; lia). f_equal. lia.
  - rewrite lookup_app_r by (rewrite Hf; lia). rewrite Hf, <- (IH i Hi Hj). f_equal. lia.
Qed.

Lemma mapM_seqZ (f : Z -> option Z) a l :
  (forall j : nat, (j < length l)%nat -> f (a + Z.of_nat j) = l !! j) -> mapM f (seqZ a (Z.of_nat (length l))) = Some l.
Proof.
  intros Hf. apply mapM_Some, Forall2_same_length_lookup_2; [by rewrite length_seqZ, Nat2Z.id|].
  intros i x y Hx Hy. apply lookup_seqZ in Hx as [-> Hi]. by rewrite Hf by lia.
Qed.

Lemma decode_gdt_entry base limit a flags :
  0 <= base < 2 ^ 32 -> 0 <= flags < 16 ->
  decode_segment (gdt_bytes (gdt_entry_of base limit a flags)) = Some (Segment base (limit mod 2 ^ 20) a flags).
Proof.
  intros Hb Hf. unfold decode_segment, gdt_bytes, bytes16, gdt_entry_of. cbn [limit_low base_low base_middle access granularity base_high app].
  change 0xFFFF with (Z.ones 16). change 0xFF with (Z.ones 8). change 0xF with (Z.ones 4).
  rewrite !Z.land_ones, !Z.shiftr_div_pow2 by lia. unfold u8, u16.
  assert (Z.lor (limit / 2 ^ 16 mod 2 ^ 4 mod 2 ^ 8) (Z.shiftl flags 4) = flags * 16 + limit / 2 ^ 16 mod 2 ^ 4) as ->.
  { rewrite Z.lor_comm, (lor_disjoint 4) by (lia || (rewrite (Z.mod_small (_ mod _)); Z.to_euclidean_division_equations; lia)).
    rewrite (Z.mod_small (_ mod _)); [done|]. Z.to_euclidean_division_equations; lia. }
  f_equal. f_equal; Z.to_euclidean_division_equations; lia.
Qed.

Lemma decode_idt_entry base selector flags :
  0 <= base < 2 ^ 32 -> 0 <= selector < 2 ^ 16 ->
  decode_gate (idt_bytes (idt_entry_of base selector flags)) = Some (Gate base selector flags).
Proof.
  intros Hb Hs. unfold decode_gate, idt_bytes, bytes16, idt_entry_of. cbn [i_base_low i_selector i_always0 i_flags i_base_high app].
  change 0xFFFF with (Z.ones 16). rewrite !Z.land_ones, !Z.shiftr_div_pow2 by lia. unfold u16.
  f_equal. f_equal; Z.to_euclidean_division_equations; lia.
Qed.

(** What filling a run of gates leaves. *)
Lemma set_gates_run n first i stub flags t :
  length (idt_entries t) = 256%nat -> 0 <= first -> 0 <= i -> first + i + Z.of_nat n <= 256 ->
  exists l, set_gates n first i stub flags t = Done (with_idt l t) /\ length l = 256%nat /\
    forall v : nat, l !! v = if bool_decide (first + i <= Z.of_nat v < first + i + Z.of_nat n)
      then Some (idt_entry_of (u32 (stub (Z.of_nat v - first))) 0x08 flags) else idt_entries t !! v.
Proof.
  revert i t. induction n as [|n IH]; intros i t Hl Hf Hi Hn.
  - exists (idt_entries t). split; [by destruct t|]. split; [done|]. intros v. by rewrite bool_decide_false by lia.
  - cbn [set_gates]. unfold idt_set_gate. rewrite (u8_small (first + i)) by lia. rewrite array_set_in_range by lia.
    set (e := idt_entry_of (u32 (stub i)) 8 flags).
    destruct (IH (i + 1) (with_idt (<[Z.to_nat (first + i) := e]> (idt_entries t)) t)) as (l & E & Hl' & Hv);
      [cbn; by rewrite length_insert|lia..|].
    exists l. split; [exact E|]. split; [done|]. intros v. rewrite Hv. cbn [idt_entries with_idt].
    destruct (decide (v = Z.to_nat (first + i))) as [->|Hne].
    + rewrite bool_decide_false, bool_decide_true by lia. rewrite list_lookup_insert_eq by lia. subst e. do 4 f_equal. lia.
    + rewrite list_lookup_insert_ne by done.
      rewrite (bool_decide_ext (first + i <= Z.of_nat v < _) (first + (i + 1) <= Z.of_nat v < first + (i + 1) + Z.of_nat n)) by lia.
      done.
Qed.

(** The stub of each vector and the flags of its gate. *)
Definition gate_of (isr_stub irq_stub : Z -> Z) (v : Z) : option (Z * Z) :=
  if v <? 32 then Some (isr_stub v, 0x8F)
  else if v <? 48 then Some (irq_stub (v - 32), 0x8E)
  else if v =? 0x80 then Some (isr_stub 0x80, 0xEF)
  else None.

Section Set_up.
Variables gdt_entries_addr idt_entries_addr tss_addr stack_top : Z.
Variables isr_stub irq_stub : Z -> Z.

Hypothesis gdt_in_memory : 0 <= gdt_entries_addr /\ gdt_entries_addr + 48 <= 2 ^ 32.
Hypothesis idt_in_memory : 0 <= idt_entries_addr /\ idt_entries_addr + 2048 <= 2 ^ 32.
Hypothesis tables_apart : gdt_entries_addr + 48 <= idt_entries_addr \/ idt_entries_addr + 2048 <= gdt_entries_addr.
Hypothesis tss_in_memory : 0 <= tss_addr < 2 ^ 32.
Hypothesis stubs_in_memory : forall n, 0 <= isr_stub n < 2 ^ 32 /\ 0 <= irq_stub n < 2 ^ 32.

#[local] Abbreviation load_segment := (load_segment gdt_entries_addr idt_entries_addr).
#[local] Abbreviation enter := (enter gdt_entries_addr idt_entries_addr).

(** The order of [kmain]. *)
Definition set_up (t : tables) : outcome tables :=
  t ← init_gdt gdt_entries_addr tss_addr stack_top t; init_idt idt_entries_addr isr_stub irq_stub t.

(** What [set_up] leaves behind, entry by entry. *)
Record ready (t : tables) : Prop := Ready {
  ready_gdt : gdt_entries t =
    [gdt_entry_of 0 0 0 0; gdt_entry_of 0 0xFFFFFFFF 0x9A 12; gdt_entry_of 0 0xFFFFFFFF 0x92 12;
     gdt_entry_of 0 0xFFFFFFFF 0xFA 12; gdt_entry_of 0 0xFFFFFFFF 0xF2 12; tss_descriptor tss_addr];
  ready_gdtr : gdtr t = DescPtr 47 gdt_entries_addr;
  ready_idt_length : length (idt_entries t) = 256%nat;
  ready_idt : forall v : nat, (v < 256)%nat -> idt_entries t !! v =
    Some (match gate_of isr_stub irq_stub (Z.of_nat v) with
          | Some (a, flags) => idt_entry_of a 0x08 flags | None => zero_idt_entry end);
  ready_idtr : idtr t = DescPtr 2047 idt_entries_addr;
  ready_tss : tss t = tss_of 0x10 (u32 stack_top);
  ready_task : task_register t = 0x28
}.

Lemma init_gdt_entries t :
  length (gdt_entries t) = 6%nat -> exists t', init_gdt gdt_entries_addr tss_addr stack_top t = Done t' /\
    gdt_entries t' = [gdt_entry_of 0 0 0 0; gdt_entry_of 0 0xFFFFFFFF 0x9A 12; gdt_entry_of 0 0xFFFFFFFF 0x92 12;
     gdt_entry_of 0 0xFFFFFFFF 0xFA 12; gdt_entry_of 0 0xFFFFFFFF 0xF2 12; tss_descriptor tss_addr] /\
    gdtr t' = DescPtr 47 gdt_entries_addr /\ tss t' = tss_of 0x10 (u32 stack_top) /\ task_register t' = 0x28.
Proof.
  destruct t as [g gp i ip x gr ir tr]. cbn [gdt_entries]. intros Hl.
  do 7 (destruct g as [|? g]; try done). eexists. split; [reflexivity|]. cbn.
  by rewrite u32_small by lia.
Qed.

Lemma set_up_ready t : length (gdt_entries t) = 6%nat -> exists t', set_up t = Done t' /\ ready t'.
Proof.
  intros Hl. destruct (init_gdt_entries t Hl) as (t1 & E1 & Hg & Hr & Ht & Htr).
  unfold set_up. rewrite E1. cbn [mbind outcome_bind]. unfold init_idt.
  set (t2 := Tables _ _ _ _ _ _ _ _).
  destruct (set_gates_run 32 0 0 isr_stub 0x8F t2) as (l1 & -> & Hl1 & Hv1); [done|lia..|]. cbn [mbind outcome_bind].
  destruct (set_gates_run 16 32 0 irq_stub 0x8E (with_idt l1 t2)) as (l2 & -> & Hl2 & Hv2); [done|lia..|]. cbn [mbind outcome_bind].
  unfold idt_set_gate. rewrite array_set_in_range by (cbn [idt_entries with_idt]; lia). cbn [mbind outcome_bind].
  eexists. split; [reflexivity|]. constructor; try done.
  - cbn. by rewrite length_insert.
  - intros v Hv. cbn [idt_flush with_idt idt_entries].
    rewrite u32_small by apply stubs_in_memory. unfold gate_of.
    destruct (decide (v = Z.to_nat 0x80)) as [->|Hne]; [by rewrite list_lookup_insert_eq by lia|].
    rewrite list_lookup_insert_ne by done. rewrite Hv2. cbn [idt_entries with_idt]. rewrite Hv1. cbn [idt_entries t2].
    destruct (Z.ltb_spec (Z.of_nat v) 32); [|destruct (Z.ltb_spec (Z.of_nat v) 48)].
    + rewrite bool_decide_false, bool_decide_true by lia. by rewrite u32_small, Z.sub_0_r by apply stubs_in_memory.
    + rewrite bool_decide_true by lia. by rewrite u32_small by apply stubs_in_memory.
    + rewrite !bool_decide_false by lia. rewrite lookup_replicate_2 by lia.
      by destruct (Z.eqb_spec (Z.of_nat v) 128); [lia|].
  - cbn. by rewrite u32_small by lia.
Qed.

Lemma read_gdt t i e :
  ready t -> gdt_entries t !! i = Some e ->
  read_descriptor gdt_entries_addr idt_entries_addr t (gdtr t) (8 * Z.of_nat i) = Some (gdt_bytes e).
Proof.
  intros [Hg Hr _ _ _ _ _] Hi. assert (length (gdt_entries t) = 6%nat) as Hl by by rewrite Hg.
  pose proof (lookup_lt_Some _ _ _ Hi) as Hlt. unfold read_descriptor. rewrite Hr. cbn [p_limit p_base].
  rewrite (proj2 (Z.leb_le _ _)) by lia. change 8 with (Z.of_nat (length (gdt_bytes e))) at 2. apply mapM_seqZ.
  intros j Hj. change (length (gdt_bytes e)) with 8%nat in Hj. unfold byte_at. rewrite Hl. rewrite bool_decide_true by (cbv [sizeof_gdt_entry]; lia).
  rewrite <- (concat_piece gdt_bytes 8 _ i e j) by (done || lia). f_equal. lia.
Qed.

Lemma read_idt t v e :
  ready t -> idt_entries t !! v = Some e ->
  read_descriptor gdt_entries_addr idt_entries_addr t (idtr t) (8 * Z.of_nat v) = Some (idt_bytes e).
Proof.
  intros [Hg _ Hl _ Hr _ _] Hi. assert (length (gdt_entries t) = 6%nat) as Hlg by by rewrite Hg.
  pose proof (lookup_lt_Some _ _ _ Hi) as Hlt. unfold read_descriptor. rewrite Hr. cbn [p_limit p_base].
  rewrite (proj2 (Z.leb_le _ _)) by lia. change 8 with (Z.of_nat (length (idt_bytes e))) at 2. apply mapM_seqZ.
  intros j Hj. change (length (idt_bytes e)) with 8%nat in Hj. unfold byte_at. rewrite Hl, Hlg.
  rewrite bool_decide_false, bool_decide_true by (cbv [sizeof_gdt_entry sizeof_idt_entry]; lia).
  rewrite <- (concat_piece idt_bytes 8 _ v e j) by (done || lia). f_equal. lia.
Qed.

(** The selectors the kernel uses: flat 4 GiB segments for code and data of both
    privileges, and the task state segment. *)
Definition selector_segment (selector : Z) : segment :=
  if selector =? 0x08 then Segment 0 0xFFFFF 0x9A 12
  else if selector =? 0x10 then Segment 0 0xFFFFF 0x92 12
  else if selector =? 0x1B then Segment 0 0xFFFFF 0xFA 12
  else if selector =? 0x23 then Segment 0 0xFFFFF 0xF2 12
  else Segment tss_addr sizeof_tss 0x89 0.

Lemma load_segment_entry t i selector e :
  ready t -> gdt_entries t !! i = Some e -> Z.testbit selector 2 = false -> selector / 8 = Z.of_nat i ->
  load_segment t selector = decode_segment (gdt_bytes e).
Proof.
  intros Hr Hi Hb Hs. unfold Descriptors.load_segment. by rewrite Hb, Hs, (read_gdt t i e).
Qed.

Lemma decode_tss_descriptor : decode_segment (gdt_bytes (tss_descriptor tss_addr)) = Some (Segment tss_addr sizeof_tss 0x89 0).
Proof. exact (decode_gdt_entry tss_addr sizeof_tss 0x89 0 tss_in_memory ltac:(lia)). Qed.

Lemma segments_loaded t selector :
  ready t -> In selector [0x08; 0x10; 0x1B; 0x23; 0x28] -> load_segment t selector = Some (selector_segment selector).
Proof.
  intros Hr Hs. pose proof (ready_gdt t Hr) as Hg.
  cbn [In] in Hs. destruct Hs as [<-|[<-|[<-|[<-|[<-|Hs]]]]]; [..|done].
  - by rewrite (load_segment_entry t 1 _ (gdt_entry_of 0 0xFFFFFFFF 0x9A 12)) by (done || by rewrite Hg).
  - by rewrite (load_segment_entry t 2 _ (gdt_entry_of 0 0xFFFFFFFF 0x92 12)) by (done || by rewrite Hg).
  - by rewrite (load_segment_entry t 3 _ (gdt_entry_of 0 0xFFFFFFFF 0xFA 12)) by (done || by rewrite Hg).
  - by rewrite (load_segment_entry t 4 _ (gdt_entry_of 0 0xFFFFFFFF 0xF2 12)) by (done || by rewrite Hg).
  - rewrite (load_segment_entry t 5 _ (tss_descriptor tss_addr)) by (done || by rewrite Hg). by rewrite decode_tss_descriptor.
Qed.

Lemma gate_loaded t v :
  ready t -> 0 <= v < 256 -> load_gate gdt_entries_addr idt_entries_addr t v =
    Some (match gate_of isr_stub irq_stub v with Some (a, flags) => Gate a 0x08 flags | None => Gate 0 0 0 end).
Proof.
  intros Hr Hv. pose proof (ready_idt t Hr (Z.to_nat v) ltac:(lia)) as Hi. rewrite Z2Nat.id in Hi by lia.
  unfold load_gate. rewrite <- (Z2Nat.id v) at 1 by lia. rewrite (read_idt t _ _ Hr Hi). cbn [mbind option_bind].
  destruct (gate_of isr_stub irq_stub v) as [[a flags]|] eqn:E; [|done].
  rewrite decode_idt_entry; [done|..|lia]. unfold gate_of in E. repeat case_match; simplify_eq; apply stubs_in_memory.
Qed.

(** Once the tables are set up, a vector enters the kernel exactly when it has a gate: at
    its stub, with the highest privilege, interrupts masked for those of devices. *)
Lemma enter_ready t software cpl v :
  ready t -> 0 <= v < 256 -> 0 <= cpl < 4 ->
  enter t software cpl v =
    match gate_of isr_stub irq_stub v with
    | Some (a, flags) => if software && (0 <? cpl) && negb (v =? 0x80) then None else Some (a, 0, bool_decide (32 <= v < 48))
    | None => None
    end.
Proof.
  intros Hr Hv Hc. unfold Descriptors.enter. rewrite (gate_loaded t v Hr Hv). cbn [mbind option_bind].
  pose proof (segments_loaded t 0x08 Hr ltac:(by left)) as Hs.
  change (selector_segment 0x08) with (Segment 0 0xFFFFF 0x9A 12) in Hs. unfold gate_of.
  destruct (stubs_in_memory v) as [? _], (stubs_in_memory (v - 32)) as [_ ?], (stubs_in_memory 0x80) as [? _].
  destruct (Z.ltb_spec v 32); [|destruct (Z.ltb_spec v 48); [|destruct (Z.eqb_spec v 0x80); [|done]]];
    cbn [g_flags g_selector g_offset]; rewrite Hs; cbn -[Z.leb Z.ltb Z.eqb u32 Z.sub Z.add];
    rewrite Z.add_0_l, (proj2 (Z.leb_le _ 4294967295)), u32_small by lia; cbn -[Z.ltb Z.eqb].
  - rewrite (proj2 (Z.eqb_neq v 0x80)) by lia. rewrite andb_true_r. rewrite bool_decide_false by lia. by destruct (software && _).
  - rewrite (proj2 (Z.eqb_neq v 0x80)) by lia. rewrite andb_true_r. rewrite bool_decide_true by lia. by destruct (software && _).
  - subst. rewrite andb_false_r. rewrite bool_decide_false by lia. rewrite (proj2 (Z.ltb_ge (privilege 239) cpl)) by (change (privilege 239) with 3; lia). by rewrite andb_false_r.
Qed.

(** C32: after the tables are set up a vector enters the kernel with the highest privilege
    at the stub that bears its number - exceptions and the system call with interrupts as
    they were, devices with interrupts masked - every other vector has no gate, and of the
    gates a program may raise only that of the system call. *)
Theorem vectors_enter_their_stubs t :
  length (gdt_entries t) = 6%nat ->
  exists t', set_up t = Done t' /\ forall software cpl v, 0 <= v < 256 -> 0 <= cpl < 4 ->
    enter t' software cpl v =
      match gate_of isr_stub irq_stub v with
      | Some (a, _) => if software && (0 <? cpl) && negb (v =? 0x80) then None else Some (a, 0, bool_decide (32 <= v < 48))
      | None => None
      end.
Proof.
  intros Hl. destruct (set_up_ready t Hl) as (t' & E & Hr). exists t'. split; [done|].
  intros software cpl v Hv Hc. rewrite (enter_ready t' software cpl v Hr Hv Hc). by destruct (gate_of _ _ v) as [[a f]|].
Qed.

(** The segments are flat: an offset is a linear address; and the kernel's and the
    programs' segments cover the same 4 GiB. *)
Theorem segments_are_flat t :
  length (gdt_entries t) = 6%nat ->
  exists t', set_up t = Done t' /\ forall selector, In selector [0x08; 0x10; 0x1B; 0x23] ->
    exists s, load_segment t' selector = Some s /\ seg_base s = 0 /\ last_offset s = 2 ^ 32 - 1 /\ is_present (seg_access s) = true /\
      privilege (seg_access s) = selector mod 4.
Proof.
  intros Hl. destruct (set_up_ready t Hl) as (t' & E & Hr). exists t'. split; [done|]. intros selector Hs.
  exists (selector_segment selector). split; [apply segments_loaded; [done|]; cbn in *; tauto|].
  cbn [In] in Hs. destruct Hs as [<-|[<-|[<-|[<-|Hs]]]]; done.
Qed.

(** The bitmap of the ports is taken from the start of the task state segment itself
    ([iomap_base] stays 0): where its fields are 0 a program of the lowest privilege may
    read and write the ports - among them the keyboard controller and both IDE channels. *)
Theorem programs_reach_ports t port :
  length (gdt_entries t) = 6%nat -> 96 <= port < 576 ->
  exists t', set_up t = Done t' /\ port_allowed gdt_entries_addr idt_entries_addr t' port = true.
Proof.
  intros Hl Hp. destruct (set_up_ready t Hl) as (t' & E & Hr). exists t'. split; [done|]. unfold port_allowed.
  rewrite (ready_task t' Hr), (segments_loaded t' 0x28 Hr) by (cbn; tauto).
  rewrite (ready_tss t' Hr). change (selector_segment 0x28) with (Segment tss_addr sizeof_tss 0x89 0).
  change (last_offset _) with 104. cbn [iomap_base tss_of]. rewrite Z.add_0_l.
  assert (12 <= port / 8 < 72) as Ho by (Z.to_euclidean_division_equations; lia).
  rewrite (proj2 (Z.leb_le _ _)) by lia. cbn [andb].
  assert (forall k : nat, (12 <= k < 72)%nat -> nth k (tss_bytes (tss_of 0x10 (u32 stack_top))) 0xFF = 0) as ->; [|by rewrite Z.testbit_0_l|lia].
  intros k Hk. unfold tss_bytes. cbn [map concat]. 
  do 72 (destruct k as [|k]; [lia || done|]). lia.
Qed.

End Set_up.

Lemma vectors_enter_their_stubs_witness :
  exists t', set_up 0x1000 0x2000 0x3000 0x8000 (fun n => 0x4000 + 16 * (n mod 256)) (fun n => 0x6000 + 16 * (n mod 256))
    (Tables (replicate 6 zero_gdt_entry) (DescPtr 0 0) [] (DescPtr 0 0) zero_tss (DescPtr 0 0) (DescPtr 0 0) 0) = Done t' /\
    enter 0x1000 0x2000 t' true 3 0x80 = Some (0x4800, 0, false) /\ enter 0x1000 0x2000 t' true 3 14 = None.
Proof.
  destruct (vectors_enter_their_stubs 0x1000 0x2000 0x3000 0x8000 (fun n => 0x4000 + 16 * (n mod 256)) (fun n => 0x6000 + 16 * (n mod 256))
    ltac:(lia) ltac:(lia) ltac:(lia) ltac:(lia) ltac:(intros n; pose proof (Z.mod_pos_bound n 256); lia)
    (Tables (replicate 6 zero_gdt_entry) (DescPtr 0 0) [] (DescPtr 0 0) zero_tss (DescPtr 0 0) (DescPtr 0 0) 0) eq_refl) as (t' & E & H).
  exists t'. split; [exact E|]. split; rewrite H by lia; reflexivity.
Defined.
