(* ===== verification/Interrupts.v ===== *)
(** * Interrupts, exceptions and the timer (arch/x86/asm/interrupt.s, isr.c, cpu_isr.c, pit.c)

    An interrupt passes through three layers: the processor pushes where it was, the entry
    stub saves the registers, and the handler in the table runs on the saved registers.
    Handlers are code elsewhere in the kernel: function pointers, and [call] runs them. *)
From Stdlib Require Import ZArith Lia String.
From stdpp Require Import base list numbers.
From S2P Require Import Prelude Bytes Ports Sched Acpi.

#[local] Open Scope Z_scope.

(** ** Words on the stack *)

Definition memory := Z -> Z.

Fixpoint write_words (a : Z) (ws : list Z) (m : memory) : memory :=
  match ws with
  | [] => m
  | w :: ws' => write_words (a + 4) ws' (fun x => if x =? a then w else m x)
  end.

Definition read_words (a : Z) (n : nat) (m : memory) : list Z := map (fun i => m (a + 4 * i)) (seqZ 0 (Z.of_nat n)).

Lemma write_words_below a ws m x : x < a -> write_words a ws m x = m x.
Proof.
  revert a m. induction ws as [|w ws IH]; intros a m Hx; [done|]. cbn. rewrite IH by lia. by rewrite (proj2 (Z.eqb_neq _ _)) by lia.
Qed.

Lemma write_words_above a ws m x : a + 4 * Z.of_nat (List.length ws) <= x -> write_words a ws m x = m x.
Proof.
  revert a m. induction ws as [|w ws IH]; intros a m Hx; [done|]. cbn in *. rewrite IH by lia. by rewrite (proj2 (Z.eqb_neq _ _)) by lia.
Qed.

Lemma read_words_cons a n m : read_words a (S n) m = m a :: read_words (a + 4) n m.
Proof.
  unfold read_words. rewrite seqZ_cons by lia. cbn [map]. rewrite Z.mul_0_r, Z.add_0_r. f_equal.
  replace (Z.pred (Z.of_nat (S n))) with (Z.of_nat n) by lia. change (Z.succ 0) with (1 + 0).
  rewrite <- (fmap_add_seqZ 1 0), <- list_fmap_compose. apply map_ext. intros i. cbn. f_equal. lia.
Qed.

Lemma read_words_ext a n m m' :
  (forall x, a <= x < a + 4 * Z.of_nat n -> m x = m' x) -> read_words a n m = read_words a n m'.
Proof.
  intros H. unfold read_words. apply map_ext_in. intros i Hi. apply list_elem_of_In, elem_of_seqZ in Hi. apply H. lia.
Qed.

Lemma read_write_words a ws m : read_words a (List.length ws) (write_words a ws m) = ws.
Proof.
  revert a m. induction ws as [|w ws IH]; intros a m; [done|]. cbn [List.length write_words]. rewrite read_words_cons, IH. f_equal.
  rewrite write_words_below by lia. by rewrite Z.eqb_refl.
Qed.

(** A read of words that lie above what was written. *)
Lemma read_words_above a ws m b n :
  a + 4 * Z.of_nat (List.length ws) <= b -> read_words b n (write_words a ws m) = read_words b n m.
Proof. intros H. apply read_words_ext. intros x Hx. apply write_words_above. lia. Qed.

Lemma read_words_app a n k m : read_words a (n + k) m = read_words a n m ++ read_words (a + 4 * Z.of_nat n) k m.
Proof.
  revert a. induction n as [|n IH]; intros a.
  - cbn [Nat.add]. replace (a + 4 * Z.of_nat 0) with a by lia. done.
  - cbn [Nat.add]. rewrite !read_words_cons. cbn [app]. f_equal. rewrite IH. do 2 f_equal. lia.
Qed.

Lemma write_words_at a ws m (i : nat) : (i < List.length ws)%nat -> write_words a ws m (a + 4 * Z.of_nat i) = nth i ws 0.
Proof.
  revert a m i. induction ws as [|w ws IH]; intros a m i Hi; [cbn in Hi; lia|]. destruct i as [|i]; cbn [write_words nth].
  - rewrite write_words_below by lia. by rewrite (proj2 (Z.eqb_eq _ _)) by lia.
  - cbn in Hi. rewrite <- (IH (a + 4) (fun x => if x =? a then w else m x) i) by lia. f_equal. lia.
Qed.

(** Writing what is there already. *)
Lemma write_words_same a ws m x :
  (forall i : nat, (i < List.length ws)%nat -> x = a + 4 * Z.of_nat i -> nth i ws 0 = m x) -> write_words a ws m x = m x.
Proof.
  revert a m. induction ws as [|w ws IH]; intros a m H; [done|]. cbn [write_words].
  assert ((if x =? a then w else m x) = m x) as E.
  { destruct (Z.eqb_spec x a) as [->|]; [|done]. apply (H 0%nat); cbn; lia. }
  rewrite IH; [exact E|]. intros i Hi Hx. rewrite E. apply (H (S i)); cbn; lia.
Qed.

(** ** The processor and the saved registers *)

Record cpu := Cpu {
  c_eax : Z; c_ecx : Z; c_edx : Z; c_ebx : Z; c_esp : Z; c_ebp : Z; c_esi : Z; c_edi : Z;
  c_ds : Z; c_es : Z; c_fs : Z; c_gs : Z;
  c_eip : Z; c_cs : Z; c_eflags : Z; c_ss : Z;
  c_mem : memory
}.

(** [registers_t], in the order of the structure. *)
Record registers_t := Registers {
  r_ds : Z; r_edi : Z; r_esi : Z; r_ebp : Z; r_esp : Z; r_ebx : Z; r_edx : Z; r_ecx : Z; r_eax : Z;
  int_num : Z; err_code : Z;
  r_eip : Z; r_cs : Z; r_eflags : Z; r_useresp : Z; r_ss : Z
}.

Definition words_of (r : registers_t) : list Z :=
  [r_ds r; r_edi r; r_esi r; r_ebp r; r_esp r; r_ebx r; r_edx r; r_ecx r; r_eax r; int_num r; err_code r;
   r_eip r; r_cs r; r_eflags r; r_useresp r; r_ss r].

Definition registers_of (l : list Z) : registers_t :=
  let g i := nth i l 0 in
  Registers (g 0%nat) (g 1%nat) (g 2%nat) (g 3%nat) (g 4%nat) (g 5%nat) (g 6%nat) (g 7%nat) (g 8%nat) (g 9%nat) (g 10%nat)
    (g 11%nat) (g 12%nat) (g 13%nat) (g 14%nat) (g 15%nat).

Lemma registers_of_words r : registers_of (words_of r) = r.
Proof. by destruct r. Qed.

(** [push] of several words; the last of the list is pushed first. *)
Definition push (ws : list Z) (c : cpu) : cpu :=
  let esp := u32 (c_esp c - 4 * Z.of_nat (List.length ws)) in
  Cpu (c_eax c) (c_ecx c) (c_edx c) (c_ebx c) esp (c_ebp c) (c_esi c) (c_edi c) (c_ds c) (c_es c) (c_fs c) (c_gs c)
    (c_eip c) (c_cs c) (c_eflags c) (c_ss c) (write_words esp ws (c_mem c)).

Definition with_esp (x : Z) (c : cpu) : cpu :=
  Cpu (c_eax c) (c_ecx c) (c_edx c) (c_ebx c) x (c_ebp c) (c_esi c) (c_edi c) (c_ds c) (c_es c) (c_fs c) (c_gs c)
    (c_eip c) (c_cs c) (c_eflags c) (c_ss c) (c_mem c).
Definition with_mem (m : memory) (c : cpu) : cpu :=
  Cpu (c_eax c) (c_ecx c) (c_edx c) (c_ebx c) (c_esp c) (c_ebp c) (c_esi c) (c_edi c) (c_ds c) (c_es c) (c_fs c) (c_gs c)
    (c_eip c) (c_cs c) (c_eflags c) (c_ss c) m.
Definition with_segments (x : Z) (c : cpu) : cpu :=
  Cpu (c_eax c) (c_ecx c) (c_edx c) (c_ebx c) (c_esp c) (c_ebp c) (c_esi c) (c_edi c) x x x x
    (c_eip c) (c_cs c) (c_eflags c) (c_ss c) (c_mem c).

(** ** Dispatch (isr.c) *)

Section Dispatch.
Context {D : Type} `{Dports : PortIO D} `{Dmmio : Mmio D}.

(** [interrupt_handlers], 0 for none, and the rest of the machine. *)
Record kernel := Kernel { interrupt_handlers : list Z; plat : platform D }.

#[local] Abbreviation K := (IO kernel).

(** The code at an address, which may change the saved registers. *)
Variable call : Z -> registers_t -> K registers_t.

Definition on_platform {A} (m : IO (platform D) A) : K A := fun k =>
  match m (plat k) with Done (x, p) => Done (x, Kernel (interrupt_handlers k) p) | Hang => Hang | Fault => Fault end.

Definition handler_of (n : Z) : K Z := fun k => lift (array_get (interrupt_handlers k) n) k.

Definition irq_eoi (int_nr : Z) : K unit := on_platform (
  s ← state;
  if using_apic s then apic_write 0xB0 0x00
  else device_do (if 0x28 <=? int_nr then outbs [(0xA0, 0x20); (0x20, 0x20)] else outbs [(0x20, 0x20)])).

Definition isr_handler (regs : registers_t) : K registers_t :=
  h ← handler_of (int_num regs); if h =? 0 then mret regs else call h regs.

Definition irq_handler (regs : registers_t) : K registers_t :=
  h ← handler_of (int_num regs);
  _ ← irq_eoi (int_num regs);
  if h =? 0 then mret regs else call h regs.

Definition register_interrupt_handler (n handler : Z) : K unit := fun k =>
  match array_set (interrupt_handlers k) (u8 n) handler with
  | Done l => Done (tt, Kernel l (plat k)) | Hang => Hang | Fault => Fault end.

(** ** Entry stubs (interrupt.s) *)

(** Of the exceptions these push an error code, by the stubs and by the processor. *)
Definition ISR_ERRCODE : list Z := [8; 10; 11; 12; 13; 14].
Definition pushes_error_code : list Z := [8; 10; 11; 12; 13; 14; 17; 21; 29; 30].

(** From the stub's label to the [call]: the numbers, [pusha], the data segment. *)
Definition stub_entry (n : Z) (c : cpu) : cpu :=
  let c := push (if bool_decide (n ∈ ISR_ERRCODE) then [n] else [n; 0]) c in
  let c := push [c_edi c; c_esi c; c_ebp c; c_esp c; c_ebx c; c_edx c; c_ecx c; c_eax c] c in
  let c := push [c_ds c] c in
  with_segments 0x10 c.

(** From the [call] to [iret]. *)
Definition stub_exit (c : cpu) : cpu :=
  let word i := c_mem c (c_esp c + 4 * i) in
  Cpu (word 8) (word 7) (word 6) (word 5) (u32 (c_esp c + 44)) (word 3) (word 2) (word 1)
    (word 0) (word 0) (word 0) (word 0) (c_eip c) (c_cs c) (c_eflags c) (c_ss c) (c_mem c).

(** [iret]: to a lower privilege it also restores the stack. *)
Definition iret (c : cpu) : cpu :=
  let word i := c_mem c (c_esp c + 4 * i) in
  let outer := negb (word 1 mod 4 =? 0) in
  Cpu (c_eax c) (c_ecx c) (c_edx c) (c_ebx c) (if outer then word 3 else u32 (c_esp c + 12)) (c_ebp c) (c_esi c) (c_edi c)
    (c_ds c) (c_es c) (c_fs c) (c_gs c) (word 0) (word 1) (word 2) (if outer then word 4 else c_ss c) (c_mem c).

(** What the processor pushes: from a program, on the stack of the task state segment. *)
Definition processor_entry (esp0 : Z) (c : cpu) : cpu :=
  let outer := negb (c_cs c mod 4 =? 0) in
  let frame := [c_eip c; c_cs c; c_eflags c] ++ (if outer then [c_esp c; c_ss c] else []) in
  let c := push frame (if outer then with_esp esp0 c else c) in
  Cpu (c_eax c) (c_ecx c) (c_edx c) (c_ebx c) (c_esp c) (c_ebp c) (c_esi c) (c_edi c) (c_ds c) (c_es c) (c_fs c) (c_gs c)
    (c_eip c) 0x08 (c_eflags c) (if outer then 0x10 else c_ss c) (c_mem c).

(** From the vector to the handler.  [software] raises it with an [int] instruction, which
    pushes no error code. *)
Definition at_call (esp0 v err : Z) (software : bool) (c : cpu) : cpu :=
  let c := processor_entry esp0 c in
  stub_entry v (if negb software && bool_decide (v ∈ pushes_error_code) then push [err] c else c).

(** A vector from the processor's push to the end of [iret]. *)
Definition interrupt (esp0 v err : Z) (software : bool) (c : cpu) : K cpu :=
  let c3 := at_call esp0 v err software c in
  let regs := registers_of (read_words (c_esp c3) 16 (c_mem c3)) in
  r ← (if bool_decide (32 <= v < 48) then irq_handler regs else isr_handler regs);
  mret (iret (stub_exit (with_mem (write_words (c_esp c3) (words_of r) (c_mem c3)) c3))).

(** ** What the handler sees, and where the processor goes on *)

Lemma push_esp ws c : 4 * Z.of_nat (List.length ws) <= c_esp c < 2 ^ 32 -> c_esp (push ws c) = c_esp c - 4 * Z.of_nat (List.length ws).
Proof. intros H. cbn. by rewrite u32_small by lia. Qed.

Lemma read_push ws c n e :
  c_esp c = e -> 4 * Z.of_nat (List.length ws) <= e < 2 ^ 32 ->
  read_words (e - 4 * Z.of_nat (List.length ws)) (List.length ws + n) (c_mem (push ws c)) = ws ++ read_words e n (c_mem c).
Proof.
  intros <- H. cbn [push c_mem]. rewrite u32_small by lia. rewrite read_words_app, read_write_words. f_equal.
  rewrite read_words_above by lia. f_equal. lia.
Qed.

Lemma push_mem ws c x :
  4 * Z.of_nat (List.length ws) <= c_esp c < 2 ^ 32 -> x < c_esp c - 4 * Z.of_nat (List.length ws) \/ c_esp c <= x ->
  c_mem (push ws c) x = c_mem c x.
Proof.
  intros H [Hx|Hx]; cbn [push c_mem]; rewrite u32_small by lia; [apply write_words_below|apply write_words_above]; lia.
Qed.

Definition outer (c : cpu) : bool := negb (c_cs c mod 4 =? 0).
(** The top of the stack that the interrupt uses. *)
Definition stack_base (esp0 : Z) (c : cpu) : Z := if outer c then esp0 else c_esp c.

(** Error code, vector and registers of the interrupted code; without a change of
    privilege the last two fields are words of its own stack. *)
Definition seen (esp0 v err : Z) (c : cpu) : registers_t :=
  let b := stack_base esp0 c in
  Registers (c_ds c) (c_edi c) (c_esi c) (c_ebp c) (b - (if outer c then 28 else 20)) (c_ebx c) (c_edx c) (c_ecx c) (c_eax c)
    v (if bool_decide (v ∈ ISR_ERRCODE) then err else 0) (c_eip c) (c_cs c) (c_eflags c)
    (if outer c then c_esp c else c_mem c b) (if outer c then c_ss c else c_mem c (b + 4)).

Definition frame_size (c : cpu) : Z := if outer c then 64 else 56.

(** Words [l] pushed on the stack that began at [b] in the memory [m]. *)
Record pushed (b : Z) (m : memory) (l : list Z) (c : cpu) : Prop := Pushed {
  pushed_esp : c_esp c = b - 4 * Z.of_nat (List.length l);
  pushed_words : forall n, read_words (c_esp c) (List.length l + n) (c_mem c) = l ++ read_words b n m;
  pushed_rest : forall x, x < c_esp c \/ b <= x -> c_mem c x = m x
}.

Lemma push_pushed b m l ws c :
  pushed b m l c -> b < 2 ^ 32 -> 4 * Z.of_nat (List.length (ws ++ l)) <= b -> pushed b m (ws ++ l) (push ws c).
Proof.
  intros [He Hw Hr] Hb Hl. rewrite length_app in Hl.
  assert (c_esp (push ws c) = b - 4 * Z.of_nat (List.length (ws ++ l))) as Hesp.
  { rewrite push_esp by lia. rewrite length_app, He. lia. }
  constructor; [done|..].
  - intros n. rewrite push_esp by lia. rewrite length_app, <- Nat.add_assoc, (read_push ws c _ (c_esp c)) by lia.
    by rewrite Hw, app_assoc.
  - intros x Hx. rewrite push_mem; [apply Hr|..]; rewrite ?push_esp in Hx by lia; lia.
Qed.

Lemma pushed_same b m l c c' : pushed b m l c -> c_esp c' = c_esp c -> c_mem c' = c_mem c -> pushed b m l c'.
Proof. intros [He Hw Hr] E1 E2. constructor; rewrite ?E1, ?E2; done. Qed.

(** The stub saves an error code exactly where the processor pushes one. *)
Definition code_expected (v : Z) (software : bool) : Prop :=
  bool_decide (v ∈ ISR_ERRCODE) = negb software && bool_decide (v ∈ pushes_error_code).

Lemma at_call_pushed esp0 v err software c :
  code_expected v software -> 64 <= stack_base esp0 c < 2 ^ 32 ->
  pushed (stack_base esp0 c) (c_mem c) (take (Z.to_nat (frame_size c / 4)) (words_of (seen esp0 v err c)))
    (at_call esp0 v err software c).
Proof.
  intros Hx Hb. unfold at_call, stub_entry, code_expected in *. rewrite <- Hx.
  set (b := stack_base esp0 c) in *.
  assert (pushed b (c_mem c) ([c_eip c; c_cs c; c_eflags c] ++ (if outer c then [c_esp c; c_ss c] else []) ++ []) (processor_entry esp0 c)) as H0.
  { rewrite app_assoc. unfold processor_entry. eapply pushed_same; [apply push_pushed|reflexivity|reflexivity].
    - unfold b, stack_base. fold (outer c). constructor; destruct (outer c); cbn; done || lia || (intros; f_equal; lia).
    - lia.
    - destruct (outer c); cbn; lia. }
  set (frame := [c_eip c; c_cs c; c_eflags c] ++ (if outer c then [c_esp c; c_ss c] else [])) in *.
  rewrite app_nil_r in H0. fold frame in H0.
  assert (Z.of_nat (List.length frame) = if outer c then 5 else 3) as Hf by (unfold frame; by destruct (outer c)).
  set (e := if bool_decide (v ∈ ISR_ERRCODE) then err else 0).
  set (c2 := if bool_decide (v ∈ ISR_ERRCODE) then push [err] (processor_entry esp0 c) else processor_entry esp0 c).
  set (c3 := push (if bool_decide (v ∈ ISR_ERRCODE) then [v] else [v; 0]) c2).
  assert (pushed b (c_mem c) ([v; e] ++ frame) c3) as H1.
  { unfold c3, c2, e. destruct (bool_decide _).
    - apply (push_pushed _ _ ([err] ++ frame) [v]); [apply push_pushed|..]; try done; rewrite ?length_app; cbn [List.length]; destruct (outer c); lia.
    - apply push_pushed; try done; rewrite ?length_app; cbn [List.length]; destruct (outer c); lia. }
  pose proof (pushed_esp _ _ _ _ H1) as He.
  apply (push_pushed _ _ _ [c_edi c3; c_esi c3; c_ebp c3; c_esp c3; c_ebx c3; c_edx c3; c_ecx c3; c_eax c3]) in H1;
    [|lia|rewrite ?length_app in *; cbn [List.length] in *; destruct (outer c); lia].
  apply (push_pushed _ _ _ [c_ds c3]) in H1; [|lia|rewrite ?length_app in *; cbn [List.length] in *; destruct (outer c); lia].
  match type of H1 with pushed _ _ ?l _ => assert (take (Z.to_nat (frame_size c / 4)) (words_of (seen esp0 v err c)) = l) as -> end;
    [|refine (pushed_same _ _ _ _ _ H1 _ _); reflexivity].
  rewrite He. clear -Hf. unfold frame_size, seen. fold b. rewrite length_app, Nat2Z.inj_add, Hf.
  unfold c3, c2, e, frame, processor_entry. fold (outer c). by destruct (bool_decide (v ∈ ISR_ERRCODE)), (outer c).
Qed.

(** The structure that the handler is given. *)
Lemma at_call_regs esp0 v err software c :
  code_expected v software -> 64 <= stack_base esp0 c < 2 ^ 32 ->
  let c' := at_call esp0 v err software c in
  c_esp c' = stack_base esp0 c - frame_size c /\
  registers_of (read_words (c_esp c') 16 (c_mem c')) = seen esp0 v err c /\
  forall x, x < c_esp c' \/ stack_base esp0 c <= x -> c_mem c' x = c_mem c x.
Proof.
  intros Hx Hb c'. destruct (at_call_pushed esp0 v err software c Hx Hb) as [He Hw Hr]. fold c' in He, Hw, Hr.
  split; [|split; [|done]].
  - rewrite He. unfold frame_size. by destruct (outer c).
  - rewrite <- (registers_of_words (seen esp0 v err c)). f_equal.
    pose proof (Hw (if outer c then 0%nat else 2%nat)) as H. unfold frame_size, seen, stack_base in *.
    destruct (outer c); [exact H|]. rewrite !read_words_cons in H. exact H.
Qed.

(** What a handler returned decides how the processor goes on. *)
Definition goes_on (r : registers_t) (top : Z) (c : cpu) : Prop :=
  c_eax c = r_eax r /\ c_ecx c = r_ecx r /\ c_edx c = r_edx r /\ c_ebx c = r_ebx r /\ c_ebp c = r_ebp r /\
  c_esi c = r_esi r /\ c_edi c = r_edi r /\ c_ds c = r_ds r /\ c_es c = r_ds r /\ c_fs c = r_ds r /\ c_gs c = r_ds r /\
  c_eip c = r_eip r /\ c_cs c = r_cs r /\ c_eflags c = r_eflags r /\
  c_esp c = (if r_cs r mod 4 =? 0 then top else r_useresp r).

(** Reading the registers back: the stub restores the words of the structure. *)
Lemma exit_registers e r c m :
  c_esp c = e -> 0 <= e < 2 ^ 32 - 64 ->
  goes_on r (e + 56) (iret (stub_exit (with_mem (write_words e (words_of r) m) c))).
Proof.
  intros He Hr. pose proof (fun i H => write_words_at e (words_of r) m i H) as H. cbn [words_of List.length] in H.
  unfold goes_on, iret, stub_exit. cbn [c_mem c_esp with_mem with_esp]. rewrite He, (u32_small (e + 44)), (u32_small (e + 44 + 12)) by lia.
  rewrite <- !Z.add_assoc.
  change (44 + 4 * 0) with (4 * Z.of_nat 11). change (44 + 4 * 1) with (4 * Z.of_nat 12). change (44 + 4 * 2) with (4 * Z.of_nat 13).
  change (44 + 4 * 3) with (4 * Z.of_nat 14). change (44 + 4 * 4) with (4 * Z.of_nat 15).
  rewrite !H by lia. cbn [nth].
  cbn. repeat split; try (first [exact (H 0%nat ltac:(lia))|exact (H 1%nat ltac:(lia))|exact (H 2%nat ltac:(lia))|exact (H 3%nat ltac:(lia))
    |exact (H 5%nat ltac:(lia))|exact (H 6%nat ltac:(lia))|exact (H 7%nat ltac:(lia))|exact (H 8%nat ltac:(lia))]).
  by destruct (r_cs r mod 4 =? 0).
Qed.

Definition dispatch (v : Z) (regs : registers_t) : K registers_t :=
  if bool_decide (32 <= v < 48) then irq_handler regs else isr_handler regs.

(** An interrupt hands the handler the registers of the interrupted code, goes on with
    those that it leaves, and writes nothing outside the frame on the stack. *)
Lemma interrupt_runs esp0 v err software c k r k' :
  code_expected v software -> 64 <= stack_base esp0 c < 2 ^ 32 - 8 ->
  dispatch v (seen esp0 v err c) k = Done (r, k') ->
  exists c', interrupt esp0 v err software c k = Done (c', k') /\
    goes_on r (stack_base esp0 c - frame_size c + 56) c' /\
    forall x, x < stack_base esp0 c - frame_size c \/ stack_base esp0 c <= x ->
      (forall i : nat, (i < 16)%nat -> x = stack_base esp0 c - frame_size c + 4 * Z.of_nat i -> nth i (words_of r) 0 = c_mem c x) ->
      c_mem c' x = c_mem c x.
Proof.
  intros Hx Hb Hd. destruct (at_call_regs esp0 v err software c Hx ltac:(lia)) as (He & Hr & Hm).
  unfold interrupt, dispatch in *. rewrite Hr. rewrite (bind_run _ _ _ _ _ Hd). eexists. split; [reflexivity|].
  assert (56 <= frame_size c <= 64) as Hf by (unfold frame_size; destruct (outer c); lia).
  rewrite He in *. split; [apply exit_registers; [done|lia]|]. intros x H Hs. cbn [iret stub_exit with_mem c_mem].
  assert (c_mem (at_call esp0 v err software c) x = c_mem c x) as E by (apply Hm; lia).
  rewrite <- E in Hs |- *. by apply write_words_same.
Qed.

(** The registers that a program can tell apart. *)
Definition same_registers (c c' : cpu) : Prop :=
  c_eax c' = c_eax c /\ c_ecx c' = c_ecx c /\ c_edx c' = c_edx c /\ c_ebx c' = c_ebx c /\ c_esp c' = c_esp c /\
  c_ebp c' = c_ebp c /\ c_esi c' = c_esi c /\ c_edi c' = c_edi c /\ c_ds c' = c_ds c /\ c_es c' = c_es c /\
  c_fs c' = c_fs c /\ c_gs c' = c_gs c /\ c_eip c' = c_eip c /\ c_cs c' = c_cs c /\ c_eflags c' = c_eflags c.

(** The handler of a vector, if there is one, leaves the saved registers as they are. *)
Definition leaves_registers (v : Z) (regs : registers_t) (k k' : kernel) : Prop :=
  exists h k1, interrupt_handlers k !! Z.to_nat v = Some h /\
    (if bool_decide (32 <= v < 48) then irq_eoi v k = Done (tt, k1) else k1 = k) /\
    (if h =? 0 then k' = k1 else call h regs k1 = Done (regs, k')).

Lemma dispatch_leaves v esp0 err c k k' :
  0 <= v -> leaves_registers v (seen esp0 v err c) k k' -> dispatch v (seen esp0 v err c) k = Done (seen esp0 v err c, k').
Proof.
  intros Hv (h & k1 & Hh & He & Hc). set (r := seen esp0 v err c) in *. assert (int_num r = v) as Hn by done.
  assert (handler_of v k = Done (h, k)) as Hk.
  { unfold handler_of, lift. by rewrite (proj2 (array_get_Done _ _ h)). }
  unfold dispatch, irq_handler, isr_handler. rewrite Hn.
  destruct (bool_decide (32 <= v < 48)); rewrite (bind_run _ _ _ _ _ Hk); [rewrite (bind_run _ _ _ _ _ He)|subst k1];
    destruct (h =? 0); (by subst k') || exact Hc.
Qed.


(** ** Exceptions (cpu_isr.c) *)

Inductive exception :=
  | division_by_zero | fault_opcode | double_error | invalid_tss | segment_is_not_available
  | stack_error | general_protection_error | page_fault | fpu_fault.

(** Where the linker puts the handlers. *)
Variable address : exception -> Z.

Definition isr_init : K unit :=
  _ ← register_interrupt_handler 0 (address division_by_zero);
  _ ← register_interrupt_handler 6 (address fault_opcode);
  _ ← register_interrupt_handler 8 (address double_error);
  _ ← register_interrupt_handler 10 (address invalid_tss);
  _ ← register_interrupt_handler 11 (address segment_is_not_available);
  _ ← register_interrupt_handler 12 (address stack_error);
  _ ← register_interrupt_handler 13 (address general_protection_error);
  _ ← register_interrupt_handler 14 (address page_fault);
  register_interrupt_handler 16 (address fpu_fault).

Definition handled (v : Z) : option exception :=
  if v =? 0 then Some division_by_zero else if v =? 6 then Some fault_opcode else if v =? 8 then Some double_error
  else if v =? 10 then Some invalid_tss else if v =? 11 then Some segment_is_not_available
  else if v =? 12 then Some stack_error else if v =? 13 then Some general_protection_error
  else if v =? 14 then Some page_fault else if v =? 16 then Some fpu_fault else None.

Lemma register_lookup n h k :
  0 <= n < 256 -> List.length (interrupt_handlers k) = 256%nat ->
  register_interrupt_handler n h k = Done (tt, Kernel (<[Z.to_nat n := h]> (interrupt_handlers k)) (plat k)).
Proof. intros Hn Hl. unfold register_interrupt_handler. by rewrite u8_small, array_set_in_range by lia. Qed.

(** The table after [isr_init]: nine exceptions, the rest as before. *)
Theorem isr_init_installs k :
  List.length (interrupt_handlers k) = 256%nat ->
  exists k', isr_init k = Done (tt, k') /\ plat k' = plat k /\ forall v, 0 <= v < 256 ->
    interrupt_handlers k' !! Z.to_nat v =
      match handled v with Some e => Some (address e) | None => interrupt_handlers k !! Z.to_nat v end.
Proof.
  intros Hl. unfold isr_init.
  do 8 (erewrite bind_run; [|apply register_lookup; [lia|cbn [interrupt_handlers]; by rewrite ?length_insert]]).
  eexists. split; [apply register_lookup; [lia|cbn [interrupt_handlers]; by rewrite ?length_insert]|]. split; [done|].
  intros v Hv. cbn [interrupt_handlers]. unfold handled.
  repeat match goal with
  | |- context [if v =? ?n then _ else _] =>
      destruct (Z.eqb_spec v n) as [->|];
        [repeat (rewrite list_lookup_insert_ne by done); by rewrite list_lookup_insert_eq by (rewrite ?length_insert; lia)|]
  end.
  by repeat (rewrite list_lookup_insert_ne by lia).
Qed.

End Dispatch.

(** The screen of death: title, message and code. *)
Record report := Report { title : string; msg : string; code : Z }.

(** [if (bit) msg = text;] for one bit after the other. *)
Fixpoint last_message (bits : list (Z * string)) (err : Z) (m : string) : string :=
  match bits with
  | [] => m
  | (b, text) :: bits' => last_message bits' err (if negb (Z.land err b =? 0) then text else m)
  end.

Definition EXT_BIT : Z := 1.
Definition IDT_BIT : Z := 2.
Definition TI_BIT : Z := 4.
Definition ERR_CODE_MASK : Z := 0xFFF8.

Definition selector_message (err : Z) (m : string) : string :=
  last_message [(EXT_BIT, "Аппаратное прерывание"%string); (IDT_BIT, "Шлюз IDT"%string); (TI_BIT, "Шлюз LDT"%string)] err m.

Definition page_fault_message (err : Z) : string :=
  let m := if Z.land err 1 =? 0 then "Память по данному адресу недоступна"%string else "Переполнение памяти буфера"%string in
  last_message [(2, "Память только для чтения"%string); (4, "Память только для пользователя"%string);
    (8, "Попытка записи в зарез. биты"%string); (0x10, "Ошибка EIP"%string)] err m.

Definition report_of (e : exception) (cr2 : Z) (regs : registers_t) : report :=
  match e with
  | division_by_zero => Report "CRITICAL_ERROR_DZ_DIVISION_BY_ZERO" "Деление на ноль" (r_eax regs)
  | fault_opcode => Report "CRITICAL_ERROR_UD_FAULT_OPERATION_CODE" "Невалидный код" (r_eax regs)
  | double_error => Report "CRITICAL_ERROR_DF_DOUBLE_EXCEPTION" "Двойное исключение" (err_code regs)
  | invalid_tss => Report "CRITICAL_ERROR_TS_INVALID_TS" (selector_message (err_code regs) "Недействительный TSS")
      (Z.land (err_code regs) ERR_CODE_MASK)
  | segment_is_not_available => Report "CRITICAL_ERROR_NP_SEGMENT_IST_AVAILABLE"
      (selector_message (err_code regs) "СЕГМЕНТ НЕДОСТУПЕН") (Z.land (err_code regs) ERR_CODE_MASK)
  | stack_error => Report "CRITICAL_ERROR_SS_STACK_ERROR" "Ошибка стека" (err_code regs)
  | general_protection_error => Report "CRITICAL_ERROR_GP_GENERAL_PROTECTION" "Общая ошибка защиты" (err_code regs)
  | page_fault => Report "CRITICAL_ERROR_PF_PAGE_FAULT" (page_fault_message (err_code regs)) cr2
  | fpu_fault => Report "CRITICAL_ERROR_FPU_FAULT" "Ошибка FPU" (err_code regs)
  end.

(** [bsod_screen] after its output: the pid goes into the message; a thread of a program
    exits, everything else stops the machine. *)
Definition bsod_screen (esp : Z) (r : report) (s : sched) : outcome (report * Z * sched) :=
  p ← get_process (current_proc s) s;
  if multi_task s && negb (pid p =? 0) then
    s ← thread_exit (current_thread s) esp s; Done (r, pid p, s)
  else Hang.

Definition exception_handler (e : exception) (cr2 esp : Z) (regs : registers_t) (s : sched) : outcome (report * Z * sched) :=
  bsod_screen esp (report_of e cr2 regs) s.

(** C34: an exception in a program ends its thread and no other: the next thread that may
    run goes on, the invariant of the scheduler holds, and the threads that were not dead
    before are as they were. *)
Theorem exceptions_end_one_thread e cr2 esp regs s xs ps rest pre t post p :
  sched_ok s xs ps -> multi_task s = true -> processes s !! current_proc s = Some p -> pid p <> 0 ->
  rot xs (current_thread s :: rest) -> rest = pre ++ t :: post -> Forall (passed s) pre -> may_run s t ->
  exists s' xs' ps', exception_handler e cr2 esp regs s = Done (report_of e cr2 regs, pid p, s') /\
    sched_ok s' xs' ps' /\ current_thread s' = t /\ current_proc s' = process_of s t /\
    state_of s' (current_thread s) = Some DEAD /\
    (forall x, x <> current_thread s -> state_of s x <> Some DEAD -> threads s' !! x = threads s !! x).
Proof.
  intros Hok Hmt Hp Hpid Hrot Heq Hpre Hrun.
  destruct (thread_exit_switches s xs ps rest pre t post esp Hok Hmt Hrot Heq Hpre Hrun) as (s' & xs' & ps' & E & Hok' & H1 & H2 & H3 & _ & H4).
  exists s', xs', ps'. unfold exception_handler, bsod_screen, get_process. rewrite Hp, Hmt. cbn [of_option mbind outcome_bind].
  rewrite (proj2 (Z.eqb_neq _ _)) by done. cbn [negb andb]. rewrite E. split_and!; try done. intros x Hx Hd. apply H4; [done|by left].
Qed.

(** In the kernel itself, or before there are threads, the machine stops. *)
Theorem kernel_exceptions_stop e cr2 esp regs s p :
  processes s !! current_proc s = Some p -> multi_task s = false \/ pid p = 0 -> exception_handler e cr2 esp regs s = Hang.
Proof.
  intros Hp H. unfold exception_handler, bsod_screen, get_process. rewrite Hp. cbn [of_option mbind outcome_bind].
  destruct H as [-> | ->]; [done|]. by rewrite andb_false_r.
Qed.

(** The message is that of the highest bit set: a write to a page that is not there is
    reported as a write to a read-only page, and a program's as memory of the user. *)
Theorem page_fault_reports err :
  0 <= err < 32 ->
  page_fault_message err =
    (if (16 <=? err)%Z then "Ошибка EIP" else if (8 <=? err)%Z then "Попытка записи в зарез. биты"
     else if (4 <=? err)%Z then "Память только для пользователя" else if (2 <=? err)%Z then "Память только для чтения"
     else if (err =? 0)%Z then "Память по данному адресу недоступна" else "Переполнение памяти буфера")%string.
Proof.
  intros H. assert (In err (seqZ 0 32)) as Hin by (apply list_elem_of_In, elem_of_seqZ; lia).
  clear H. revert err Hin. refine (proj1 (List.Forall_forall _ _) _). vm_compute seqZ. repeat constructor.
Qed.

(** ** The timer (pit.c) *)

Record timer := Timer { timer_tick : Z; timer_frequency : Z }.

Definition BASE_FREQ : Z := 1193180.
Definition CLOCK_FREQ : Z := 1000.
Definition IRQ0 : Z := 32.

Definition getTicks (t : timer) : Z := timer_tick t.
Definition getFrequency (t : timer) : Z := timer_frequency t.
Definition timestamp (t : timer) : outcome Z :=
  if getFrequency t =? 0 then Fault else Done (u32 (getTicks t * 1000) / getFrequency t).

(** [scheduler_working] is set while the scheduler must not run. *)
Definition timer_callback (scheduler_working : bool) (esp : Z) (t : timer) (s : sched) : outcome (timer * sched) :=
  let t := Timer (u32 (timer_tick t + 1)) (timer_frequency t) in
  if multi_task s && scheduler_working then s ← task_switch_v2_wrapper esp s; Done (t, s) else Done (t, s).

Section Timer.
Context {D : Type} `{Dports : PortIO D}.
Variable timer_callback_address : Z.

Definition init_timer (f : Z) (t : timer) : IO (kernel (D := D)) timer :=
  if f =? 0 then fun _ => Fault
  else
    let divisor := BASE_FREQ / f in
    let low := u8 (Z.land divisor 0xFF) in
    let high := u8 (Z.land (Z.shiftr divisor 8) 0xFF) in
    _ ← on_platform (device_do (outbs [(0x43, 0x34); (0x40, low); (0x40, high)]));
    _ ← register_interrupt_handler IRQ0 timer_callback_address;
    mret (Timer (timer_tick t) f).

(** What the two bytes program: the counter, where 0 stands for 65536. *)
Definition reload (low high : Z) : Z := if low + 256 * high =? 0 then 65536 else low + 256 * high.

(** The timer ticks with the wanted frequency, up to the rounding of the divisor, when
    that fits into the counter. *)
Theorem timer_divides f t k :
  19 <= f <= BASE_FREQ -> List.length (interrupt_handlers k) = 256%nat ->
  exists low high d,
    d = port_outb 0x40 high (port_outb 0x40 low (port_outb 0x43 0x34 (device (plat k)))) /\
    init_timer f t k = Done (Timer (timer_tick t) f,
      Kernel (<[32%nat := timer_callback_address]> (interrupt_handlers k)) (with_device d (plat k))) /\
    reload low high = BASE_FREQ / f /\ f * reload low high <= BASE_FREQ < f * (reload low high + 1).
Proof.
  intros Hf Hl. unfold BASE_FREQ in *. set (q := 1193180 / f).
  assert (1 <= q < 65536) as Hq by (subst q; Z.to_euclidean_division_equations; nia).
  exists (q mod 256), (q / 256). eexists. split; [reflexivity|].
  assert (u8 (Z.land q 0xFF) = q mod 256) as El.
  { change 0xFF with (Z.ones 8). rewrite Z.land_ones by lia. apply u8_small. apply Z.mod_pos_bound. lia. }
  assert (u8 (Z.land (Z.shiftr q 8) 0xFF) = q / 256) as Eh.
  { change 0xFF with (Z.ones 8). rewrite Z.land_ones, Z.shiftr_div_pow2 by lia. unfold u8. rewrite Z.mod_mod by lia.
    apply Z.mod_small. Z.to_euclidean_division_equations; lia. }
  split; [|split].
  - unfold init_timer, BASE_FREQ. rewrite (proj2 (Z.eqb_neq f 0)) by lia. cbv zeta. fold q. rewrite El, Eh.
    unfold on_platform, device_do, outbs. cbn [foldr fst snd]. unfold outb.
    unfold mbind, IO_bind, mret, IO_ret. cbn [plat interrupt_handlers device].
    rewrite register_lookup by (unfold IRQ0; cbn; lia). cbn [interrupt_handlers plat].
    change (u16 67) with 0x43. change (u16 64) with 0x40. change (u8 52) with 0x34.
    rewrite (u8_small (q mod 256)) by (apply Z.mod_pos_bound; lia).
    rewrite (u8_small (q / 256)) by (Z.to_euclidean_division_equations; lia). done.
  - unfold reload. rewrite Z.add_comm, <- Z.div_mod by lia. by rewrite (proj2 (Z.eqb_neq q 0)) by lia.
  - unfold reload. rewrite (Z.add_comm (q mod 256)), <- Z.div_mod by lia. rewrite (proj2 (Z.eqb_neq q 0)) by lia.
    subst q. Z.to_euclidean_division_equations; nia.
Qed.

(** Below 19 ticks a second the divisor is cut to 16 bits. *)
Lemma timer_divisor_cut : BASE_FREQ / 18 = 66287 /\ u8 (Z.land (BASE_FREQ / 18) 0xFF) + 256 * u8 (Z.land (Z.shiftr (BASE_FREQ / 18) 8) 0xFF) = 751.
Proof. done. Qed.

End Timer.

(** *** Waiting *)

(** [ticks i] is the counter at its [i]-th reading. *)
Section Waiting.
Variable ticks : nat -> Z.

Fixpoint sleep_loop (fuel : nat) (current_ticks delay : Z) (i : nat) : outcome nat :=
  match fuel with
  | O => Hang
  | S fuel' => if u32 (current_ticks + delay) <? ticks i then Done i else sleep_loop fuel' current_ticks delay (S i)
  end.

Definition sleep_ticks (fuel : nat) (delay : Z) (i : nat) : outcome nat := sleep_loop fuel (ticks i) delay (S i).

Definition needticks (milliseconds frequency : Z) : Z := u32 (milliseconds * frequency) / 1000.
Definition sleep_ms (fuel : nat) (milliseconds : Z) (t : timer) (i : nat) : outcome nat :=
  sleep_ticks fuel (needticks milliseconds (timer_frequency t)) i.

(** Interrupts count up; between two readings there is at most one, since the processor
    halts until the next. *)
Hypothesis ticks_step : forall i, ticks (S i) = ticks i \/ ticks (S i) = ticks i + 1.

Lemma ticks_grow i n : ticks i <= ticks (i + n)%nat.
Proof.
  induction n as [|n IH]; [by rewrite Nat.add_0_r|]. rewrite <- plus_n_Sm. pose proof (ticks_step (i + n)). lia.
Qed.

Lemma sleep_loop_ends n : forall fuel c delay i,
  c + delay < 2 ^ 32 -> 0 <= c + delay -> ticks i <= c + delay + 1 -> c + delay < ticks (i + n)%nat -> (n < fuel)%nat ->
  exists j, sleep_loop fuel c delay i = Done j /\ (i <= j <= i + n)%nat /\ ticks j = c + delay + 1.
Proof.
  induction n as [|n IH]; intros fuel c delay i H1 H0 H2 H3 Hf; (destruct fuel as [|fuel]; [lia|]); cbn [sleep_loop];
    rewrite u32_small by lia.
  - rewrite Nat.add_0_r in H3. rewrite (proj2 (Z.ltb_lt _ _)) by lia. exists i. split; [done|]. lia.
  - destruct (Z.ltb_spec (c + delay) (ticks i)); [exists i; split; [done|]; lia|].
    destruct (IH fuel c delay (S i)) as (j & E & Hj & Ht); try lia.
    + pose proof (ticks_step i). lia.
    + by rewrite <- plus_n_Sm in H3.
    + exists j. split; [done|]. lia.
Qed.

(** Waiting ends, one tick later than asked for - as long as the counter does not
    overflow - if the counter gets there at all. *)
Theorem sleep_ms_waits fuel milliseconds t i n :
  timer_frequency t = CLOCK_FREQ -> 0 <= milliseconds <= 4294967 -> 0 <= ticks i -> ticks i + milliseconds < 2 ^ 32 ->
  ticks i + milliseconds < ticks (S i + n)%nat -> (n < fuel)%nat ->
  exists j, sleep_ms fuel milliseconds t i = Done j /\ (j <= S i + n)%nat /\ ticks j = ticks i + milliseconds + 1.
Proof.
  intros Hf Hms H0 Hb He Hfuel. unfold sleep_ms, sleep_ticks, needticks. rewrite Hf. unfold CLOCK_FREQ.
  rewrite u32_small by lia. rewrite Z.div_mul by lia.
  destruct (sleep_loop_ends n fuel (ticks i) milliseconds (S i)) as (j & E & Hj & Ht); try lia.
  - pose proof (ticks_step i). lia.
  - exists j. split; [done|]. lia.
Qed.

(** Near the end of the counter's range the target wraps around, and no time passes. *)
Theorem sleep_at_overflow fuel delay i :
  0 <= delay -> 2 ^ 32 <= ticks i + delay < ticks i + 2 ^ 32 -> ticks i < 2 ^ 32 ->
  sleep_ticks (S fuel) delay i = Done (S i).
Proof.
  intros Hd Hb Ht. unfold sleep_ticks. cbn [sleep_loop].
  assert (u32 (ticks i + delay) = ticks i + delay - 2 ^ 32) as ->.
  { unfold u32. symmetry. apply Z.mod_unique with 1; lia. }
  pose proof (ticks_step i). by rewrite (proj2 (Z.ltb_lt _ _)) by lia.
Qed.

End Waiting.

(** A wait of more than 4294967 ms is cut to what is left modulo 2^32. *)
Lemma long_sleep_is_short : needticks 4294968 CLOCK_FREQ = 0 /\ needticks 4295000 CLOCK_FREQ = 32.
Proof. done. Qed.

(** The time stamp falls back to 0 after 71 minutes. *)
Lemma timestamp_falls_back : timestamp (Timer 4294967 CLOCK_FREQ) = Done 4294967 /\ timestamp (Timer 4294968 CLOCK_FREQ) = Done 0.
Proof. done. Qed.

(** ** Concrete runs *)

(** A machine that keeps the writes to its ports and registers. *)
Definition written := list (Z * Z).

#[local] Instance PortIO_written : PortIO written := {
  port_inb _ d := (0, d); port_inw _ d := (0, d); port_inl _ d := (0, d);
  port_outb p v d := d ++ [(p, v)]; port_outw p v d := d ++ [(p, v)]; port_outl p v d := d ++ [(p, v)];
  time_passes _ d := d
}.
#[local] Instance Mmio_written : Mmio written := { mmio_read _ d := (0, d); mmio_write a v d := d ++ [(a, v)] }.

(** A program stopped with 3 in EAX; the keyboard's handler lies at 0x9000. *)
Definition a_program : cpu := Cpu 3 0 0 0 0x8000 0 0 0 0x23 0x23 0x23 0x23 0x400000 0x1B 0x202 0x23 (fun _ => 0).
Definition a_kernel : kernel (D := written) := Kernel (<[33%nat := 0x9000]> (replicate 256 0)) (Platform ∅ 0 0 0 0 false []).
Definition after_eoi : kernel (D := written) := Kernel (<[33%nat := 0x9000]> (replicate 256 0)) (Platform ∅ 0 0 0 0 false [(0x20, 0x20)]).


(** The processor pushes an error code for vector 17, which the stub does not expect: the
    code takes the place of the address to go back to. *)
Example alignment_check_loses_address :
  match interrupt (fun _ regs => mret regs) 0x10000 17 0 false a_program a_kernel with
  | Done (c', _) => c_eip c' = 0 /\ c_cs c' = 0x400000
  | _ => False
  end.
Proof. vm_compute. split; reflexivity. Qed.

(** Process 7 has three threads: one runs, one is paused, one may run; it faults. *)
Definition sched1 : sched :=
  Sched (lists sched0) (threads sched0) {[256 := process_with 7 3; 512 := process_with 1 1]} ∅ [] 5 2 16 256 64 true false false [].

Lemma sched1_ok : sched_ok sched1 [16; 32; 48; 64] [256; 512].
Proof.
  destruct sched0_ok as [H1 H2 H3 H4 H5 H6 H7 H8]. constructor; try done.
  intros p Hp. repeat (apply elem_of_cons in Hp as [->|Hp]; [eexists; split; reflexivity|]). by apply not_elem_of_nil in Hp.
Qed.

Lemma exceptions_end_one_thread_witness :
  exists s', exception_handler page_fault 0xCAFE 0x1234 (registers_of [0; 0; 0; 0; 0; 0; 0; 0; 0; 14; 6]) sched1 =
    Done (Report "CRITICAL_ERROR_PF_PAGE_FAULT" "Память только для пользователя" 0xCAFE, 7, s') /\
    current_thread s' = 64 /\ state_of s' 16 = Some DEAD.
Proof.
  destruct (exceptions_end_one_thread page_fault 0xCAFE 0x1234 (registers_of [0; 0; 0; 0; 0; 0; 0; 0; 0; 14; 6]) sched1
    [16; 32; 48; 64] [256; 512] [32; 48; 64] [32; 48] 64 [] (process_with 7 3) sched1_ok) as (s' & xs' & ps' & E & _ & Hc & _ & Hd & _);
    [reflexivity|reflexivity|vm_compute; discriminate|exists [], [16; 32; 48; 64]; done|reflexivity| |left; reflexivity|].
  - apply Forall_cons_2; [left; reflexivity|]. apply Forall_cons_2; [right; reflexivity|]. apply Forall_nil_2.
  - exists s'. split; [exact E|]. split; [exact Hc|exact Hd].
Defined.
