(* ===== verification/Cpu.v ===== *)
(** * Processor identification and memory types (arch/x86/cpuinfo.c, cpuvendor.c, cputemp.c, mtrr.c, lib/bitops.h)

    The answers of [cpuid] and the model specific registers are the processor's: arguments.
    What the kernel keeps of them is a record with a bitmap of capabilities. *)
From Stdlib Require Import ZArith Lia String Ascii.
From stdpp Require Import base list numbers.
From S2P Require Import Prelude Bytes Strings.

#[local] Open Scope Z_scope.

(** ** Bit operations (lib/bitops.h) *)

Definition BITS_PER_LONG : Z := 32.
Definition BIT_MASK (bit : Z) : Z := u32 (Z.shiftl 1 (bit mod BITS_PER_LONG)).
Definition BIT_WORD (bit : Z) : Z := bit / BITS_PER_LONG.

Definition set_bit (addr : list Z) (bit : Z) : outcome (list Z) :=
  w ← array_get addr (BIT_WORD bit); array_set addr (BIT_WORD bit) (Z.lor w (BIT_MASK bit)).
Definition clear_bit (addr : list Z) (bit : Z) : outcome (list Z) :=
  w ← array_get addr (BIT_WORD bit); array_set addr (BIT_WORD bit) (Z.land w (u32 (Z.lnot (BIT_MASK bit)))).
Definition test_bit (addr : list Z) (bit : Z) : outcome bool :=
  w ← array_get addr (BIT_WORD bit); Done (negb (Z.land w (BIT_MASK bit) =? 0)).

(** ** Vendors (cpuvendor.c) *)

Record cpu_vendor := CpuVendor {
  vendor_name : string;
  vendor_sig : list string;
  vendor : Z;
  legacy_models : list (Z * list (Z * string))
}.

Definition X86_VENDOR_AMD : Z := 0.
Definition X86_VENDOR_INTEL : Z := 2.

Definition cpu_intel : cpu_vendor := CpuVendor "Intel" ["GenuineIntel"%string] X86_VENDOR_INTEL [
  (4, [(0, "486 DX-25/33"); (1, "486 DX-50"); (2, "486 SX"); (3, "486 DX/2"); (4, "486 SL"); (5, "486 SX/2");
       (7, "486 DX/2-WB"); (8, "486 DX/4"); (9, "486 DX/4-WB")]%string);
  (5, [(0, "Pentium 60/66 A-step"); (1, "Pentium 60/66"); (2, "Pentium 75 - 200"); (3, "OverDrive PODP5V83");
       (4, "Pentium MMX"); (7, "Mobile Pentium 75 - 200"); (8, "Mobile Pentium MMX"); (9, "Quark SoC X1000")]%string);
  (6, [(0, "Pentium Pro A-step"); (1, "Pentium Pro"); (3, "Pentium II (Klamath)"); (4, "Pentium II (Deschutes)");
       (5, "Pentium II (Deschutes)"); (6, "Mobile Pentium II"); (7, "Pentium III (Katmai)"); (8, "Pentium III (Coppermine)");
       (10, "Pentium III (Cascades)"); (11, "Pentium III (Tualatin)")]%string);
  (15, [(0, "Pentium 4 (Unknown)"); (1, "Pentium 4 (Willamette)"); (2, "Pentium 4 (Northwood)"); (4, "Pentium 4 (Foster)");
        (5, "Pentium 4 (Foster)")]%string)].

Definition cpu_amd : cpu_vendor := CpuVendor "AMD" ["AuthenticAMD"; "AMDisbetter!"]%string X86_VENDOR_AMD [
  (4, [(3, "486 DX/2"); (7, "486 DX/2-WB"); (8, "486 DX/4"); (9, "486 DX/4-WB"); (14, "Am5x86-WT"); (15, "Am5x86-WB")]%string)].

(** The pointers between [cpu_vendor_start] and [cpu_vendor_end], in the order of registration. *)
Definition cpu_vendors : list cpu_vendor := [cpu_intel; cpu_amd].

(** [(int)(cpu_vendor_start - cpu_vendor_end)]. *)
Definition NR_X86_VENDORS : Z := s32 (0 - Z.of_nat (List.length cpu_vendors)).

(** A C string: its bytes and the terminator. *)
Definition c_string (s : string) : list Z := map (fun c => Z.of_nat (nat_of_ascii c)) (list_ascii_of_string s) ++ [0].

Fixpoint any_signature (sigs : list string) (name : list Z) : outcome bool :=
  match sigs with
  | [] => Done false
  | sig :: sigs' => d ← strcmp (c_string sig) name; if d =? 0 then Done true else any_signature sigs' name
  end.

(** [for (int vendor = 0; vendor < NR_X86_VENDORS; vendor++)]. *)
Fixpoint vendor_loop (n : nat) (i : Z) (name : list Z) : outcome (option cpu_vendor) :=
  match n with
  | O => Done None
  | S n' =>
      v ← array_get cpu_vendors i;
      found ← any_signature (vendor_sig v) name;
      if found : bool then Done (Some v) else vendor_loop n' (i + 1) name
  end.

Definition cpu_vendor_by_signature (name : list Z) : outcome (option cpu_vendor) := vendor_loop (Z.to_nat NR_X86_VENDORS) 0 name.

(** The arrays of names have 16 elements; those without an initialiser are null. *)
Fixpoint cpu_vendor_legacy_model (models : list (Z * list (Z * string))) (x86_family x86_model : Z) : outcome (option string) :=
  match models with
  | [] => Done None
  | (f, names) :: models' =>
      if f =? u8 x86_family then
        if u8 x86_model <? 16 then Done (snd <$> List.find (fun nm => fst nm =? u8 x86_model) names) else Fault
      else cpu_vendor_legacy_model models' x86_family x86_model
  end.

(** ** Identification (cpuinfo.c) *)

Record cpu_info := CpuInfo {
  cpu_vendor_of : option cpu_vendor;
  manufacturer_id : Z;
  model_id : Z;
  family_id : Z;
  stepping_id : Z;
  brand_string : list Z;
  model_string : list Z;
  cpuid_max_leaf : Z;
  extended_cpuid_max_leaf : Z;
  cpu_capability : list Z
}.

Definition NR_CAPS : Z := 5.
Definition CPUID_1_ECX : Z := 0.
Definition CPUID_1_EDX : Z := 1.
Definition CPUID_6_EAX : Z := 2.
Definition CPUID_7_EBX : Z := 3.
Definition CPUID_80000007_EDX : Z := 4.

Definition X86_FEATURE_APIC : Z := 1 * 32 + 9.
Definition X86_FEATURE_MTRR : Z := 1 * 32 + 12.
Definition X86_FEATURE_DTHERM : Z := 6 * 32 + 0.
Definition X86_FEATURE_SMEP : Z := 2 * 32 + 7.
Definition X86_FEATURE_INVARIANT_TSC : Z := 3 * 32 + 8.
Definition X86_FEATURE_CONSTANT_TSC : Z := 4 * 32 + 0.
Definition X86_FEATURE_NONSTOP_TSC : Z := 4 * 32 + 1.

(** [memset(c, 0x00, sizeof(struct cpu_info))]; also what the variable holds at the start. *)
Definition zero_info : cpu_info := CpuInfo None 0 0 0 0 [] [] 0 0 (replicate (Z.to_nat NR_CAPS) 0).

Definition cpu_has (c : cpu_info) (bit : Z) : outcome bool := test_bit (cpu_capability c) bit.

Definition with_capability (caps : list Z) (c : cpu_info) : cpu_info :=
  CpuInfo (cpu_vendor_of c) (manufacturer_id c) (model_id c) (family_id c) (stepping_id c) (brand_string c) (model_string c)
    (cpuid_max_leaf c) (extended_cpuid_max_leaf c) caps.
Definition with_model_string (m : list Z) (c : cpu_info) : cpu_info :=
  CpuInfo (cpu_vendor_of c) (manufacturer_id c) (model_id c) (family_id c) (stepping_id c) (brand_string c) m
    (cpuid_max_leaf c) (extended_cpuid_max_leaf c) (cpu_capability c).

Definition cpu_set_cap (c : cpu_info) (bit : Z) : outcome cpu_info :=
  l ← set_bit (cpu_capability c) bit; Done (with_capability l c).

Definition x86_family (vfms : Z) : Z :=
  let res := Z.land (Z.shiftr vfms 8) 0xF in
  if res =? 0xf then u32 (res + Z.land (Z.shiftr vfms 20) 0xFF) else res.
Definition x86_model (vfms : Z) : Z :=
  let family := x86_family vfms in
  let model := Z.land (Z.shiftr vfms 4) 0xF in
  if 0x6 <=? family then u32 (model + Z.shiftl (Z.land (Z.shiftr vfms 16) 0xF) 4) else model.
Definition x86_stepping (vfms : Z) : Z := Z.land vfms 0xF.

Definition CPUID_VENDOR_QEMU : list Z := c_string "TCGTCGTCGTCG".
Definition CPUID_VENDOR_KVM : list Z := c_string "KVMKVMKVM".

Record cpuid_regs := CpuidRegs { o_eax : Z; o_ebx : Z; o_ecx : Z; o_edx : Z }.

Section Identification.
(** The instruction, by leaf and sub-leaf. *)
Variable cpuid : Z -> Z -> cpuid_regs.
(** Whether the ID flag can be changed. *)
Variable cpuid_present : bool.

Definition leaf_bytes (r : cpuid_regs) : list Z := bytes32 (o_eax r) ++ bytes32 (o_ebx r) ++ bytes32 (o_ecx r) ++ bytes32 (o_edx r).

(** [c->cpu_capability[word] = value] when the leaf exists. *)
Definition set_word (there : bool) (word value : Z) (c : cpu_info) : outcome cpu_info :=
  if there then l ← array_set (cpu_capability c) word value; Done (with_capability l c) else Done c.

(** The copy into the 49 bytes of [model_string]. *)
Definition legacy_string (c : cpu_info) : outcome cpu_info :=
  match cpu_vendor_of c with
  | None => Done (with_model_string (replicate 49 0) c)
  | Some v =>
      m ← cpu_vendor_legacy_model (legacy_models v) (family_id c) (model_id c);
      match m with
      | None => Fault
      | Some s => Done (with_model_string (take 49 (c_string s ++ replicate 49 0)) c)
      end
  end.

(** The capabilities of the leaves 1, 6 and 7. *)
Definition read_leaves (c : cpu_info) : outcome cpu_info :=
  let max_leaf := cpuid_max_leaf c in
  c ← set_word (1 <=? max_leaf) CPUID_1_EDX (o_edx (cpuid 1 0)) c;
  c ← set_word (1 <=? max_leaf) CPUID_1_ECX (o_ecx (cpuid 1 0)) c;
  c ← set_word (6 <=? max_leaf) CPUID_6_EAX (o_eax (cpuid 6 0)) c;
  set_word (7 <=? max_leaf) CPUID_7_EBX (o_ebx (cpuid 7 0)) c.

(** The name of the model, and the extended capabilities. *)
Definition read_model (c : cpu_info) : outcome cpu_info :=
  let ext := u32 (o_eax (cpuid 0x80000000 0)) in
  let c := CpuInfo (cpu_vendor_of c) (manufacturer_id c) (model_id c) (family_id c) (stepping_id c) (brand_string c)
             (model_string c) (cpuid_max_leaf c) ext (cpu_capability c) in
  c ← (if 0x80000004 <=? ext then
         Done (with_model_string (leaf_bytes (cpuid 0x80000002 0) ++ leaf_bytes (cpuid 0x80000003 0) ++ leaf_bytes (cpuid 0x80000004 0) ++ [0]) c)
       else legacy_string c);
  set_word (0x80000007 <=? ext) CPUID_80000007_EDX (o_edx (cpuid 0x80000007 0)) c.

(** What is concluded about the time stamp counter. *)
Definition conclude_tsc (c : cpu_info) : outcome cpu_info :=
  q ← strcmp (brand_string c) CPUID_VENDOR_QEMU;
  k ← strcmp (brand_string c) CPUID_VENDOR_KVM;
  c ← (if (q =? 0) || (k =? 0) then cpu_set_cap c X86_FEATURE_INVARIANT_TSC else Done c);
  tsc ← cpu_has c X86_FEATURE_INVARIANT_TSC;
  if tsc : bool then c ← cpu_set_cap c X86_FEATURE_CONSTANT_TSC; cpu_set_cap c X86_FEATURE_NONSTOP_TSC else Done c.

Definition brand_of (r0 : cpuid_regs) : list Z := bytes32 (o_ebx r0) ++ bytes32 (o_edx r0) ++ bytes32 (o_ecx r0) ++ [0].

Definition cpu_get_info : outcome cpu_info :=
  if negb cpuid_present then Done (CpuInfo None 0 0 0 0 [] [] (-1) 0 (replicate (Z.to_nat NR_CAPS) 0))
  else
    let max_leaf := s32 (o_eax (cpuid 0 0)) in
    let brand := brand_of (cpuid 0 0) in
    v ← cpu_vendor_by_signature brand;
    let signature := o_eax (cpuid 1 0) in
    let there := 1 <=? max_leaf in
    let c := CpuInfo v (match v with Some v => vendor v | None => 0 end) (if there then x86_model signature else 0)
               (if there then x86_family signature else 4) (if there then x86_stepping signature else 0)
               brand [] max_leaf 0 (replicate (Z.to_nat NR_CAPS) 0) in
    c ← read_leaves c;
    c ← read_model c;
    conclude_tsc c.

End Identification.

(** ** Laws of the bit operations *)

Lemma BIT_MASK_pow bit : BIT_MASK bit = 2 ^ (bit mod 32).
Proof.
  unfold BIT_MASK, BITS_PER_LONG. pose proof (Z.mod_pos_bound bit 32 ltac:(lia)).
  rewrite Z.shiftl_1_l, u32_small; [done|]. split; [lia|]. apply Z.pow_lt_mono_r; lia.
Qed.

Lemma land_mask_zero w j : 0 <= j -> negb (Z.land w (2 ^ j) =? 0) = Z.testbit w j.
Proof.
  intros Hj. destruct (Z.testbit w j) eqn:E.
  - destruct (Z.eqb_spec (Z.land w (2 ^ j)) 0) as [H|]; [|done].
    assert (Z.testbit (Z.land w (2 ^ j)) j = true) as H1 by (rewrite Z.land_spec, E, Z.pow2_bits_eqb, Z.eqb_refl by lia; done).
    by rewrite H, Z.testbit_0_l in H1.
  - assert (Z.land w (2 ^ j) = 0) as ->; [|done]. apply Z.bits_inj'. intros k Hk.
    rewrite Z.land_spec, Z.pow2_bits_eqb, Z.testbit_0_l by lia. destruct (Z.eqb_spec j k) as [<-|]; [by rewrite E|by rewrite andb_false_r].
Qed.

Lemma test_bit_word l w i b :
  0 <= i -> l !! Z.to_nat i = Some w -> 0 <= b < 32 -> test_bit l (i * 32 + b) = Done (Z.testbit w b).
Proof.
  intros Hi Hl Hb. unfold test_bit, BIT_WORD, BITS_PER_LONG.
  assert ((i * 32 + b) / 32 = i) as -> by (Z.to_euclidean_division_equations; lia).
  rewrite (proj2 (array_get_Done _ _ w)) by done. cbn [mbind outcome_bind].
  rewrite BIT_MASK_pow. assert ((i * 32 + b) mod 32 = b) as -> by (Z.to_euclidean_division_equations; lia).
  by rewrite land_mask_zero by lia.
Qed.

Lemma test_bit_beyond l b : 32 * Z.of_nat (List.length l) <= b -> test_bit l b = Fault.
Proof.
  intros Hb. unfold test_bit, BIT_WORD, BITS_PER_LONG. rewrite array_get_beyond; [done|]. Z.to_euclidean_division_equations; lia.
Qed.

(** A bit that is set reads as set and the others as before. *)
Theorem set_bit_test l b b' :
  0 <= b < 32 * Z.of_nat (List.length l) -> 0 <= b' < 32 * Z.of_nat (List.length l) ->
  exists l', set_bit l b = Done l' /\ List.length l' = List.length l /\
    test_bit l' b' = if b =? b' then Done true else test_bit l b'.
Proof.
  intros Hb Hb'. unfold set_bit, BIT_WORD, BITS_PER_LONG.
  assert (0 <= b / 32 < Z.of_nat (List.length l)) as Hw by (Z.to_euclidean_division_equations; lia).
  assert (0 <= b' / 32 < Z.of_nat (List.length l)) as Hw' by (Z.to_euclidean_division_equations; lia).
  destruct (array_get_in_range l (b / 32) Hw) as [w Ew]. rewrite Ew. cbn [mbind outcome_bind].
  rewrite array_set_in_range by lia. eexists. split; [done|]. split; [by rewrite length_insert|].
  pose proof (Z.mod_pos_bound b 32 ltac:(lia)). pose proof (Z.mod_pos_bound b' 32 ltac:(lia)).
  pose proof (Z.div_mod b 32 ltac:(lia)) as Db. pose proof (Z.div_mod b' 32 ltac:(lia)) as Db'.
  destruct (array_get_in_range l (b' / 32) Hw') as [w' Ew'].
  apply array_get_Done in Ew as [_ Ew]. apply array_get_Done in Ew' as [_ Ew'].
  replace b' with (b' / 32 * 32 + b' mod 32) at 1 3 by lia. rewrite (test_bit_word l w') by (done || lia).
  destruct (decide (b' / 32 = b / 32)) as [E|Hne].
  - rewrite (test_bit_word _ (Z.lor w (BIT_MASK b)) (b' / 32)) by (lia || (rewrite E; by rewrite list_lookup_insert_eq by lia)).
    rewrite BIT_MASK_pow, Z.lor_spec, Z.pow2_bits_eqb by lia. rewrite E in Ew'. rewrite Ew in Ew'. injection Ew' as <-.
    destruct (Z.eqb_spec b b') as [->|]; [by rewrite Z.eqb_refl, orb_true_r|].
    rewrite (proj2 (Z.eqb_neq (b mod 32) _)) by lia. by rewrite orb_false_r.
  - rewrite (test_bit_word _ w' (b' / 32)) by (lia || (rewrite list_lookup_insert_ne by lia; done)).
    by rewrite (proj2 (Z.eqb_neq b b')) by congruence.
Qed.

(** ** What the kernel knows about the processor *)

Lemma first_zero l : Forall is_byte l -> 0 ∈ l -> exists a ra, text a /\ l = cstr a ra.
Proof.
  induction l as [|x l IH]; intros Hb Hz; [by apply not_elem_of_nil in Hz|].
  apply list.Forall_cons in Hb as [Hx Hb]. unfold is_byte in Hx. destruct (decide (x = 0)) as [->|Hne].
  - exists [], l. split; [constructor|done].
  - destruct IH as (a & ra & Ha & ->); [done|by apply elem_of_cons in Hz as [|]|].
    exists (x :: a), ra. split; [|done]. constructor; [lia|done].
Qed.

Lemma brand_bytes r : Forall is_byte (brand_of r).
Proof.
  unfold brand_of, bytes32. cbn [app]. repeat (apply list.Forall_cons; split); try (unfold is_byte; Z.to_euclidean_division_equations; lia).
  constructor.
Qed.

(** No vendor is ever recognised: the count of the vendors is negative. *)
Lemma vendor_never_found name : cpu_vendor_by_signature name = Done None.
Proof. done. Qed.

Lemma strcmp_brand r t : text t -> exists d, strcmp (brand_of r) (cstr t []) = Done d.
Proof.
  intros Ht. destruct (first_zero _ (brand_bytes r)) as (a & ra & Ha & ->).
  { unfold brand_of. rewrite !elem_of_app. do 3 right. by apply elem_of_cons; left. }
  destruct (strcmp_cstr a t ra [] Ha Ht) as (d & -> & _). by exists d.
Qed.

Lemma text_list l : forallb (fun c => (0 <? c) && (c <? 256)) l = true -> text l.
Proof.
  intros H. rewrite forallb_forall in H. apply list.Forall_forall. intros x Hx. apply list_elem_of_In in Hx.
  specialize (H x Hx). apply andb_true_iff in H as [H1 H2]. lia.
Qed.

(** The words of the capabilities are those of the leaves; but for the brand and the
    capabilities of words 3 and 4 nothing more is said. *)
Record identified (cpuid : Z -> Z -> cpuid_regs) (c : cpu_info) : Prop := Identified {
  id_vendor : cpu_vendor_of c = None;
  id_manufacturer : manufacturer_id c = 0;
  id_brand : brand_string c = brand_of (cpuid 0 0);
  id_length : List.length (cpu_capability c) = 5%nat;
  id_ecx : cpu_capability c !! 0%nat = Some (o_ecx (cpuid 1 0));
  id_edx : cpu_capability c !! 1%nat = Some (o_edx (cpuid 1 0));
  id_6 : cpu_capability c !! 2%nat = Some (o_eax (cpuid 6 0))
}.

Section Identified.
Variable cpuid : Z -> Z -> cpuid_regs.

#[local] Abbreviation identified := (identified cpuid).

Lemma caps_keep c l :
  identified c -> List.length l = 5%nat -> (forall i : nat, (i < 3)%nat -> l !! i = cpu_capability c !! i) -> identified (with_capability l c).
Proof. intros [H1 H2 H3 H4 H5 H6 H7] Hl Hi. constructor; cbn; try done; rewrite Hi by lia; done. Qed.

Lemma set_word_keeps b word value c :
  identified c -> 3 <= word < 5 -> exists c', set_word b word value c = Done c' /\ identified c'.
Proof.
  intros Hid Hw. unfold set_word. destruct b; [|by exists c]. pose proof (id_length _ _ Hid).
  rewrite array_set_in_range by lia. eexists. split; [done|]. apply caps_keep; [done|by rewrite length_insert|].
  intros i Hi. by rewrite list_lookup_insert_ne by lia.
Qed.

Lemma set_cap_keeps c b : identified c -> 96 <= b < 160 -> exists c', cpu_set_cap c b = Done c' /\ identified c'.
Proof.
  intros Hid Hb. unfold cpu_set_cap, set_bit, BIT_WORD, BITS_PER_LONG. pose proof (id_length _ _ Hid).
  assert (3 <= b / 32 < 5) as Hw by (Z.to_euclidean_division_equations; lia).
  destruct (array_get_in_range (cpu_capability c) (b / 32) ltac:(lia)) as [w ->]. cbn [mbind outcome_bind].
  rewrite array_set_in_range by lia. eexists. split; [done|]. apply caps_keep; [done|by rewrite length_insert|].
  intros i Hi. by rewrite list_lookup_insert_ne by lia.
Qed.

Lemma read_leaves_identified m f s :
  7 <= s32 (o_eax (cpuid 0 0)) ->
  exists c, read_leaves cpuid (CpuInfo None 0 m f s (brand_of (cpuid 0 0)) [] (s32 (o_eax (cpuid 0 0))) 0 (replicate (Z.to_nat NR_CAPS) 0)) = Done c /\
    identified c.
Proof.
  intros Hl. unfold read_leaves. cbn [cpuid_max_leaf].
  rewrite (proj2 (Z.leb_le 1 _)), (proj2 (Z.leb_le 6 _)), (proj2 (Z.leb_le 7 _)) by lia. eexists. split; [reflexivity|]. done.
Qed.

Lemma read_model_identified c : identified c -> exists c', read_model cpuid c = Done c' /\ identified c'.
Proof.
  intros Hid. unfold read_model. set (c0 := CpuInfo _ _ _ _ _ _ _ _ _ _).
  assert (identified c0) as H0 by (destruct Hid; by constructor).
  assert (forall m, identified (with_model_string m c0)) as Hm by (intros m; destruct H0; by constructor).
  destruct (0x80000004 <=? _).
  - cbn [mbind outcome_bind]. apply set_word_keeps; [apply Hm|]. unfold CPUID_80000007_EDX. lia.
  - unfold legacy_string. rewrite (id_vendor _ _ H0). cbn [mbind outcome_bind]. apply set_word_keeps; [apply Hm|]. unfold CPUID_80000007_EDX. lia.
Qed.

Lemma conclude_tsc_identified c : identified c -> exists c', conclude_tsc c = Done c' /\ identified c'.
Proof.
  intros Hid. unfold conclude_tsc. rewrite (id_brand _ _ Hid).
  destruct (strcmp_brand (cpuid 0 0) (removelast CPUID_VENDOR_QEMU)) as [q Hq]; [by apply text_list|].
  destruct (strcmp_brand (cpuid 0 0) (removelast CPUID_VENDOR_KVM)) as [k Hk]; [by apply text_list|].
  change (cstr (removelast CPUID_VENDOR_QEMU) []) with CPUID_VENDOR_QEMU in Hq. rewrite Hq. cbn [mbind outcome_bind].
  change (cstr (removelast CPUID_VENDOR_KVM) []) with CPUID_VENDOR_KVM in Hk. rewrite Hk. cbn [mbind outcome_bind].
  assert (exists c1, (if (q =? 0) || (k =? 0) then cpu_set_cap c X86_FEATURE_INVARIANT_TSC else Done c) = Done c1 /\ identified c1) as (c1 & -> & H1).
  { destruct (_ || _); [|by exists c]. apply set_cap_keeps; [done|]. unfold X86_FEATURE_INVARIANT_TSC. lia. }
  cbn [mbind outcome_bind]. unfold cpu_has, test_bit. pose proof (id_length _ _ H1).
  destruct (array_get_in_range (cpu_capability c1) (BIT_WORD X86_FEATURE_INVARIANT_TSC)) as [w ->]; [change (BIT_WORD X86_FEATURE_INVARIANT_TSC) with 3; lia|].
  cbn [mbind outcome_bind]. destruct (negb _); [|by exists c1].
  destruct (set_cap_keeps c1 X86_FEATURE_CONSTANT_TSC H1) as (c2 & -> & H2); [unfold X86_FEATURE_CONSTANT_TSC; lia|]. cbn [mbind outcome_bind].
  apply set_cap_keeps; [done|]. unfold X86_FEATURE_NONSTOP_TSC. lia.
Qed.

Lemma cpu_get_info_identifies : 7 <= s32 (o_eax (cpuid 0 0)) -> exists c, cpu_get_info cpuid true = Done c /\ identified c.
Proof.
  intros Hl. unfold cpu_get_info. cbn [negb]. rewrite vendor_never_found. cbn [mbind outcome_bind]. cbv zeta.
  match goal with |- context [read_leaves _ (CpuInfo _ _ ?m ?f ?s _ _ _ _ _)] => destruct (read_leaves_identified m f s Hl) as (c1 & -> & H1) end.
  cbn [mbind outcome_bind]. destruct (read_model_identified c1 H1) as (c2 & -> & H2). cbn [mbind outcome_bind].
  by apply conclude_tsc_identified.
Qed.

End Identified.

(** On a processor with the leaves 6 and 7 the kernel's features of the first leaf are
    exactly the bits the processor reports. *)
Theorem features_of_first_leaf cpuid :
  7 <= s32 (o_eax (cpuid 0 0)) ->
  exists c, cpu_get_info cpuid true = Done c /\
    (forall b, 0 <= b < 32 -> cpu_has c b = Done (Z.testbit (o_ecx (cpuid 1 0)) b)) /\
    (forall b, 0 <= b < 32 -> cpu_has c (1 * 32 + b) = Done (Z.testbit (o_edx (cpuid 1 0)) b)).
Proof.
  intros Hl. destruct (cpu_get_info_identifies cpuid Hl) as (c & E & [H1 H2 H3 H4 H5 H6 H7]). exists c. split; [done|].
  split; intros b Hb; unfold cpu_has; [apply (test_bit_word _ _ 0)|apply (test_bit_word _ _ 1)]; done || lia.
Qed.

(** The features of the leaf 7 are declared one word too low: SMEP is read from the power
    management bits.  And those of the leaf 6 lie beyond the bitmap. *)
Theorem features_of_other_leaves cpuid :
  7 <= s32 (o_eax (cpuid 0 0)) ->
  exists c, cpu_get_info cpuid true = Done c /\
    cpu_has c X86_FEATURE_SMEP = Done (Z.testbit (o_eax (cpuid 6 0)) 7) /\ cpu_has c X86_FEATURE_DTHERM = Fault /\
    cpu_vendor_of c = None.
Proof.
  intros Hl. destruct (cpu_get_info_identifies cpuid Hl) as (c & E & [H1 H2 H3 H4 H5 H6 H7]). exists c. split; [done|].
  unfold cpu_has. split; [|split; [|done]].
  - apply (test_bit_word _ _ 2); done || lia.
  - apply test_bit_beyond. rewrite H4. unfold X86_FEATURE_DTHERM. lia.
Qed.

(** A processor without the leaf of SMEP's neighbours. *)
Definition a_cpuid (leaf _ : Z) : cpuid_regs :=
  if leaf =? 0 then CpuidRegs 7 0x756E6547 0x6C65746E 0x49656E69
  else if leaf =? 1 then CpuidRegs 0x306A9 0 0x7FBAE3FF 0xBFEBFBFF else CpuidRegs 0 0 0 0.

Lemma features_of_first_leaf_witness :
  exists c, cpu_get_info a_cpuid true = Done c /\ cpu_has c X86_FEATURE_MTRR = Done true /\ cpu_has c X86_FEATURE_APIC = Done true.
Proof.
  destruct (features_of_first_leaf a_cpuid) as (c & E & _ & H); [vm_compute; congruence|]. exists c. split; [exact E|].
  split; [exact (H 12 ltac:(lia))|exact (H 9 ltac:(lia))].
Defined.

(** The signature of a processor: family, model and stepping, after the manual. *)
Theorem signature_decodes stepping model family ext_model ext_family typ :
  0 <= stepping < 16 -> 0 <= model < 16 -> 0 <= family < 16 -> 0 <= typ < 4 -> 0 <= ext_model < 16 -> 0 <= ext_family < 256 ->
  let v := stepping + 16 * model + 256 * family + 4096 * typ + 65536 * ext_model + 1048576 * ext_family in
  x86_stepping v = stepping /\ x86_family v = (if family =? 15 then 15 + ext_family else family) /\
  x86_model v = (if 6 <=? family then model + 16 * ext_model else model).
Proof.
  intros Hs Hm Hf Ht Hem Hef v. assert (Hv : v = stepping + 16 * model + 256 * family + 4096 * typ + 65536 * ext_model + 1048576 * ext_family) by done.
  clearbody v.
  assert (Z.land (Z.shiftr v 8) 0xF = family) as Ef.
  { change 0xF with (Z.ones 4). rewrite Z.land_ones, Z.shiftr_div_pow2 by lia. Z.to_euclidean_division_equations; lia. }
  assert (Z.land (Z.shiftr v 4) 0xF = model) as Em.
  { change 0xF with (Z.ones 4). rewrite Z.land_ones, Z.shiftr_div_pow2 by lia. Z.to_euclidean_division_equations; lia. }
  assert (Z.land (Z.shiftr v 16) 0xF = ext_model) as Eem.
  { change 0xF with (Z.ones 4). rewrite Z.land_ones, Z.shiftr_div_pow2 by lia. Z.to_euclidean_division_equations; lia. }
  assert (Z.land (Z.shiftr v 20) 0xFF = ext_family) as Eef.
  { change 0xFF with (Z.ones 8). rewrite Z.land_ones, Z.shiftr_div_pow2 by lia. Z.to_euclidean_division_equations; lia. }
  assert (x86_family v = if family =? 15 then 15 + ext_family else family) as Hfam.
  { unfold x86_family. rewrite Ef, Eef. destruct (Z.eqb_spec family 15) as [->|]; [|done]. apply u32_small. lia. }
  split; [|split; [done|]].
  - unfold x86_stepping. change 0xF with (Z.ones 4). rewrite Z.land_ones by lia. Z.to_euclidean_division_equations; lia.
  - unfold x86_model. rewrite Hfam, Em, Eem. rewrite Z.shiftl_mul_pow2 by lia. change (2 ^ 4) with 16.
    destruct (Z.leb_spec 6 family); destruct (Z.eqb_spec family 15); subst;
      [rewrite (proj2 (Z.leb_le 6 _)) by lia; rewrite u32_small by lia; lia
      |rewrite (proj2 (Z.leb_le 6 _)) by lia; rewrite u32_small by lia; lia|lia|by rewrite (proj2 (Z.leb_gt 6 family)) by lia].
Qed.

(** ** Memory type range registers (mtrr.c) and the temperature (cputemp.c) *)

(** Model specific registers, and what the two files keep. *)
Record mtrrs := Mtrrs {
  msr : Z -> Z;
  mtrr_wc_available : bool;
  mtrr_fixed_size_available : bool;
  variable_size_mtrrs : Z;
  cputemp_calibrate_value : Z
}.

(** [rdmsr], [wrmsr]: the low half of a register; the high half is written as 0. *)
Definition rdmsr (reg : Z) (m : mtrrs) : Z := u32 (msr m reg).
Definition wrmsr (reg v : Z) (m : mtrrs) : mtrrs :=
  Mtrrs (fun r => if r =? reg then u32 v else msr m r) (mtrr_wc_available m) (mtrr_fixed_size_available m) (variable_size_mtrrs m)
    (cputemp_calibrate_value m).

(** [read_mtrr]: the variables keep what they held, which is nothing defined, when there
    is no such register. *)
Definition read_mtrr (index : Z) (m : mtrrs) : outcome (Z * Z) :=
  if variable_size_mtrrs m <=? index then Fault
  else Done (rdmsr (u32 (0x200 + index * 2)) m, rdmsr (u32 (0x201 + index * 2)) m).

Definition write_mtrr (index base mask : Z) (m : mtrrs) : mtrrs :=
  if variable_size_mtrrs m <=? index then m
  else wrmsr (u32 (0x201 + index * 2)) mask (wrmsr (u32 (0x200 + index * 2)) base m).

Definition CALC_MASK (size : Z) : Z := Z.land (u32 (Z.lnot (u32 (size - 1)))) 0xffffffff.

Definition write_mtrr_size (index base size type : Z) (m : mtrrs) : mtrrs :=
  if variable_size_mtrrs m <=? index then m
  else wrmsr (u32 (0x201 + index * 2)) (Z.lor (CALC_MASK (ALIGN size 4096)) (Z.shiftl 1 11))
         (wrmsr (u32 (0x200 + index * 2)) (Z.lor (ALIGN base 4096) type) m).

Fixpoint find_free_loop (n : nat) (i : Z) (m : mtrrs) : outcome Z :=
  match n with
  | O => Done 0xffffffff
  | S n' =>
      '(_, mask) ← read_mtrr i m;
      if Z.land mask (Z.shiftl 1 11) =? 0 then Done i else find_free_loop n' (i + 1) m
  end.
Definition find_free_mtrr (m : mtrrs) : outcome Z := find_free_loop (Z.to_nat (variable_size_mtrrs m)) 0 m.

Fixpoint index_loop (n : nat) (i address : Z) (m : mtrrs) : outcome Z :=
  match n with
  | O => Done 0xffffffff
  | S n' =>
      '(base, mask) ← read_mtrr i m;
      if negb (Z.land mask (Z.shiftl 1 11) =? 0) && (Z.land base (u32 (Z.lnot 0xfff)) =? ALIGN address 4096) then Done i
      else index_loop n' (i + 1) address m
  end.
Definition get_mtrr_index (address : Z) (m : mtrrs) : outcome Z := index_loop (Z.to_nat (variable_size_mtrrs m)) 0 address m.

Definition mtrr_init (boot_cpu_info : cpu_info) (m : mtrrs) : outcome mtrrs :=
  has ← cpu_has boot_cpu_info X86_FEATURE_MTRR;
  if negb has then Done m
  else
    let eax := rdmsr 0xFE m in
    Done (Mtrrs (msr m) (Z.testbit eax 10) (Z.testbit eax 8) (Z.land eax 0xff) (cputemp_calibrate_value m)).

Definition cputemp_calibrate (boot_cpu_info : cpu_info) (m : mtrrs) : outcome mtrrs :=
  has ← cpu_has boot_cpu_info X86_FEATURE_DTHERM;
  if has && (manufacturer_id boot_cpu_info =? X86_VENDOR_INTEL) then
    let v := Z.land (Z.shiftr (rdmsr 0x1a2 m) 16) 0x7F in
    Done (Mtrrs (msr m) (mtrr_wc_available m) (mtrr_fixed_size_available m) (variable_size_mtrrs m)
      (if (v <? 50) || (125 <? v) then 100 else v))
  else Done m.

Definition get_cpu_temperature (boot_cpu_info : cpu_info) (m : mtrrs) : outcome Z :=
  has ← cpu_has boot_cpu_info X86_FEATURE_DTHERM;
  if has && (manufacturer_id boot_cpu_info =? X86_VENDOR_INTEL) then
    Done (u32 (cputemp_calibrate_value m - Z.land (Z.shiftr (rdmsr 0x19c m) 16) 0x7F))
  else Done 0.

Lemma high_mask k : 0 <= k <= 32 -> 2 ^ 32 - 2 ^ k = Z.shiftl (Z.ones (32 - k)) k.
Proof.
  intros Hk. rewrite Z.shiftl_mul_pow2, Z.ones_equiv by lia. rewrite <- Z.sub_1_r, Z.mul_sub_distr_r, <- Z.pow_add_r by lia.
  replace (32 - k + k) with 32 by lia. lia.
Qed.

Lemma land_high_mask x k : 0 <= x < 2 ^ 32 -> 0 <= k <= 32 -> Z.land x (2 ^ 32 - 2 ^ k) = 2 ^ k * (x / 2 ^ k).
Proof.
  intros Hx Hk. rewrite high_mask by done.
  transitivity (Z.shiftl (Z.shiftr x k) k); [|rewrite Z.shiftl_mul_pow2, Z.shiftr_div_pow2 by lia; lia].
  apply Z.bits_inj'. intros j Hj. rewrite Z.land_spec. destruct (Z.lt_ge_cases j k).
  - rewrite !Z.shiftl_spec_low by lia. apply andb_false_r.
  - rewrite !Z.shiftl_spec, Z.shiftr_spec by lia. replace (j - k + k) with j by lia. destruct (Z.lt_ge_cases j 32).
    + rewrite Z.ones_spec_low by lia. apply andb_true_r.
    + by rewrite (testbit_small x 32).
Qed.

(** Which addresses below 4 GiB a register pair covers, after the manual: it is valid, and
    the address agrees with the base in the bits of the mask. *)
Definition covers (m : mtrrs) (index addr : Z) : bool :=
  let base := rdmsr (0x200 + index * 2) m in
  let mask := rdmsr (0x201 + index * 2) m in
  Z.testbit mask 11 && (Z.land addr (page_base mask) =? Z.land base (page_base mask)).
Definition memory_type (m : mtrrs) (index : Z) : Z := rdmsr (0x200 + index * 2) m mod 256.

Lemma wrmsr_read r v m r' : rdmsr r' (wrmsr r v m) = if r' =? r then u32 (u32 v) else rdmsr r' m.
Proof. unfold rdmsr, wrmsr. cbn [msr]. by destruct (r' =? r). Qed.

Lemma mask_of_power k : 12 <= k < 32 -> CALC_MASK (ALIGN (2 ^ k) 4096) = 2 ^ 32 - 2 ^ k.
Proof.
  intros Hk. assert (4096 <= 2 ^ k <= 2 ^ 31) as Hp by (split; [apply (Z.pow_le_mono_r 2 12)|apply Z.pow_le_mono_r]; lia).
  assert (ALIGN (2 ^ k) 4096 = 2 ^ k) as ->.
  { change 4096 with PAGE_SIZE. rewrite ALIGN_page by lia.
    assert (2 ^ k = 4096 * 2 ^ (k - 12)) as E by (change 4096 with (2 ^ 12); rewrite <- Z.pow_add_r by lia; f_equal; lia).
    rewrite E. Z.to_euclidean_division_equations; lia. }
  unfold CALC_MASK. rewrite (u32_small (2 ^ k - 1)) by lia. change 0xffffffff with (Z.ones 32). rewrite Z.land_ones by lia.
  assert (Z.lnot (2 ^ k - 1) = - 2 ^ k) as -> by (unfold Z.lnot; lia). unfold u32. rewrite Z.mod_mod by lia.
  symmetry. apply Z.mod_unique with (-1); lia.
Qed.

(** C35: for a region whose size is a power of two and whose base is aligned to it, the
    register pair that [write_mtrr_size] programs covers the region exactly, with the
    wanted memory type. *)
Theorem mtrr_covers_region m index k q type addr :
  0 <= index < variable_size_mtrrs m -> variable_size_mtrrs m < 256 ->
  12 <= k < 32 -> 0 <= q -> 2 ^ k * q <= 2 ^ 32 - 2 ^ k -> 0 <= type < 256 -> 0 <= addr < 2 ^ 32 ->
  let m' := write_mtrr_size index (2 ^ k * q) (2 ^ k) type m in
  covers m' index addr = bool_decide (2 ^ k * q <= addr < 2 ^ k * q + 2 ^ k) /\ memory_type m' index = type.
Proof.
  intros Hi Hc Hk Hq Hb Ht Ha m'.
  assert (4096 <= 2 ^ k <= 2 ^ 31) as Hp by (split; [apply (Z.pow_le_mono_r 2 12)|apply Z.pow_le_mono_r]; lia).
  assert (2 ^ k = 4096 * 2 ^ (k - 12)) as Ek by (change 4096 with (2 ^ 12); rewrite <- Z.pow_add_r by lia; f_equal; lia).
  set (b := 2 ^ k * q) in *.
  assert (ALIGN b 4096 = b) as Hab.
  { change 4096 with PAGE_SIZE. rewrite ALIGN_page by nia. subst b. rewrite Ek.
    rewrite <- Z.mul_assoc. generalize (2 ^ (k - 12) * q). intros z. Z.to_euclidean_division_equations; lia. }
  assert (Z.lor b type = b + type) as Hlor.
  { replace b with (Z.shiftl (2 ^ (k - 12) * q * 16) 8) at 1.
    - rewrite (lor_disjoint 8) by lia. subst b. rewrite Ek. change (2 ^ 8) with 256. lia.
    - rewrite Z.shiftl_mul_pow2 by lia. subst b. rewrite Ek. change (2 ^ 8) with 256. lia. }
  assert (Z.lor (2 ^ 32 - 2 ^ k) (Z.shiftl 1 11) = 2 ^ 32 - 2 ^ k + 2048) as Hmask.
  { change (Z.shiftl 1 11) with 2048. replace (2 ^ 32 - 2 ^ k) with (Z.shiftl ((2 ^ 20 - 2 ^ (k - 12))) 12).
    - rewrite (lor_disjoint 12) by lia. rewrite Z.shiftl_mul_pow2 by lia. done.
    - rewrite Z.shiftl_mul_pow2, Ek by lia. change (2 ^ 12) with 4096. lia. }
  assert (rdmsr (0x200 + index * 2) m' = b + type /\ rdmsr (0x201 + index * 2) m' = 2 ^ 32 - 2 ^ k + 2048) as [Eb Em].
  { subst m'. unfold write_mtrr_size. rewrite (proj2 (Z.leb_gt _ _)) by lia. rewrite mask_of_power by lia.
    rewrite Hab, Hlor, Hmask. rewrite !(u32_small (_ + index * 2)) by lia. rewrite !wrmsr_read.
    rewrite !Z.eqb_refl, (proj2 (Z.eqb_neq (512 + index * 2) _)) by lia.
    rewrite !u32_small by (rewrite ?u32_small by nia; nia). done. }
  unfold covers, memory_type. rewrite Eb, Em.
  assert (page_base (2 ^ 32 - 2 ^ k + 2048) = 2 ^ 32 - 2 ^ k) as ->.
  { rewrite land_page_mask_div by lia. rewrite Ek. Z.to_euclidean_division_equations; lia. }
  rewrite !land_high_mask by nia.
  assert (Z.testbit (2 ^ 32 - 2 ^ k + 2048) 11 = true) as ->.
  { apply Z.testbit_true; [lia|]. rewrite Ek. change (2 ^ 11) with 2048. Z.to_euclidean_division_equations; lia. }
  assert ((b + type) / 2 ^ k = q) as ->.
  { symmetry. apply Z.div_unique with type; [lia|]. done. }
  split.
  - cbn [andb]. fold b. pose proof (Z.div_mod addr (2 ^ k) ltac:(lia)) as Hd. pose proof (Z.mod_pos_bound addr (2 ^ k) ltac:(lia)) as Hr.
    destruct (Z.eqb_spec (2 ^ k * (addr / 2 ^ k)) b) as [E|Hne].
    + rewrite bool_decide_true; [done|]. lia.
    + rewrite bool_decide_false; [done|]. intros H. apply Hne. f_equal. symmetry. apply Z.div_unique with (addr - b); lia.
  - replace b with (256 * (2 ^ (k - 12) * q * 16)) by (subst b; rewrite Ek; lia). rewrite Z.add_comm, Z.mul_comm, Z_mod_plus_full.
    apply Z.mod_small. lia.
Qed.

(** A frame buffer of 1920 x 1080 pixels: its size is no power of two, and most of it is
    not covered. *)
Lemma frame_buffer_not_covered m :
  variable_size_mtrrs m = 8 ->
  let m' := write_mtrr_size 0 0xFD000000 (1920 * 1080 * 4) 1 m in
  covers m' 0 0xFD000000 = true /\ covers m' 0 0xFD001000 = false /\ covers m' 0 0xFD008000 = true /\ covers m' 0 0xFD7EF000 = false.
Proof.
  intros Hn m'. subst m'. unfold write_mtrr_size. rewrite Hn. cbn [Z.leb Z.compare].
  unfold covers. rewrite !wrmsr_read. repeat split; vm_compute; reflexivity.
Qed.

(** [kmain] asks for the registers before it identifies the processor: the capabilities
    are still 0, none is found, and no region is ever given a memory type. *)
Theorem no_mtrr_is_written m :
  variable_size_mtrrs m = 0 ->
  mtrr_init zero_info m = Done m /\ find_free_mtrr m = Done 0xffffffff /\
  forall base size type, write_mtrr_size 0xffffffff base size type m = m.
Proof.
  intros Hn. split; [done|]. unfold find_free_mtrr, write_mtrr_size. rewrite Hn. done.
Qed.

(** *** Finding registers *)

Definition valid (m : mtrrs) (i : Z) : bool := Z.testbit (rdmsr (0x201 + i * 2) m) 11.
Definition base_of (m : mtrrs) (i : Z) : Z := page_base (rdmsr (0x200 + i * 2) m).

Lemma valid_bit w : (Z.land w (Z.shiftl 1 11) =? 0) = negb (Z.testbit w 11).
Proof. change (Z.shiftl 1 11) with (2 ^ 11). rewrite <- (land_mask_zero w 11) by lia. by rewrite negb_involutive. Qed.

Lemma read_mtrr_in m i :
  0 <= i < variable_size_mtrrs m -> variable_size_mtrrs m < 256 ->
  read_mtrr i m = Done (rdmsr (0x200 + i * 2) m, rdmsr (0x201 + i * 2) m).
Proof. intros Hi Hn. unfold read_mtrr. rewrite (proj2 (Z.leb_gt _ _)) by lia. by rewrite !u32_small by lia. Qed.

Lemma find_free_loop_spec m n : forall i,
  0 <= i -> i + Z.of_nat n = variable_size_mtrrs m -> variable_size_mtrrs m < 256 ->
  (find_free_loop n i m = Done 0xffffffff /\ forall j, i <= j < i + Z.of_nat n -> valid m j = true) \/
  exists j, i <= j < i + Z.of_nat n /\ find_free_loop n i m = Done j /\ valid m j = false /\ forall j', i <= j' < j -> valid m j' = true.
Proof.
  induction n as [|n IH]; intros i Hi Hn Hc; [left; split; [done|lia]|]. cbn [find_free_loop].
  rewrite read_mtrr_in by lia. cbn [mbind outcome_bind]. rewrite valid_bit. fold (valid m i).
  destruct (valid m i) eqn:E; cbn [negb].
  - destruct (IH (i + 1)) as [[H1 H2]|(j & Hj & H1 & H2 & H3)]; try lia.
    + left. split; [done|]. intros j Hj. destruct (decide (j = i)) as [->|]; [done|]. apply H2. lia.
    + right. exists j. split; [lia|]. split; [done|]. split; [done|]. intros j' Hj'. destruct (decide (j' = i)) as [->|]; [done|]. apply H3. lia.
  - right. exists i. split; [lia|]. split; [done|]. split; [done|]. lia.
Qed.

Lemma index_loop_finds m address n : forall i k,
  0 <= i -> i + Z.of_nat n = variable_size_mtrrs m -> variable_size_mtrrs m < 256 -> i <= k < i + Z.of_nat n ->
  valid m k = true -> base_of m k = ALIGN address 4096 ->
  (forall j, i <= j < k -> valid m j = true -> base_of m j <> ALIGN address 4096) ->
  index_loop n i address m = Done k.
Proof.
  induction n as [|n IH]; intros i k Hi Hn Hc Hk Hv Hb Hno; [lia|]. cbn [index_loop].
  rewrite read_mtrr_in by lia. cbn [mbind outcome_bind]. rewrite valid_bit, negb_involutive. fold (valid m i).
  change (u32 (Z.lnot 0xfff)) with 0xfffff000. fold (page_base (rdmsr (0x200 + i * 2) m)). fold (base_of m i).
  destruct (decide (i = k)) as [->|Hne].
  - rewrite Hv, Hb, Z.eqb_refl. done.
  - destruct (valid m i && (base_of m i =? ALIGN address 4096)) eqn:E.
    + apply andb_true_iff in E as [E1 E2]. apply Z.eqb_eq in E2. exfalso. by apply (Hno i ltac:(lia)).
    + apply IH; try done; try lia. intros j Hj. apply Hno. lia.
Qed.

Lemma write_other m index base size type j :
  0 <= index < 256 -> 0 <= j < 256 -> j <> index ->
  valid (write_mtrr_size index base size type m) j = valid m j /\ base_of (write_mtrr_size index base size type m) j = base_of m j.
Proof.
  intros Hi Hj Hne. unfold valid, base_of, write_mtrr_size. case_match; [done|]. rewrite !wrmsr_read.
  rewrite !(u32_small (_ + index * 2)) by lia.
  rewrite (proj2 (Z.eqb_neq (513 + j * 2) (513 + index * 2))), (proj2 (Z.eqb_neq (513 + j * 2) (512 + index * 2))) by lia.
  by rewrite (proj2 (Z.eqb_neq (512 + j * 2) (513 + index * 2))), (proj2 (Z.eqb_neq (512 + j * 2) (512 + index * 2))) by lia.
Qed.

(** The free register that is found and written is the one that its address is found by,
    unless an earlier one has the same address. *)
Theorem free_mtrr_is_found m i base size type :
  variable_size_mtrrs m < 256 -> find_free_mtrr m = Done i -> 0 <= i < variable_size_mtrrs m ->
  0 <= base -> base mod 4096 = 0 -> base < 2 ^ 32 - 4096 -> 0 <= type < 256 ->
  (forall j, 0 <= j < i -> base_of m j <> base) ->
  get_mtrr_index base (write_mtrr_size i base size type m) = Done i.
Proof.
  intros Hc Hf Hi H0 Hal Hb Ht Hno. set (m' := write_mtrr_size i base size type m).
  assert (variable_size_mtrrs m' = variable_size_mtrrs m) as En by (unfold m', write_mtrr_size; by case_match).
  assert (ALIGN base 4096 = base) as Ea.
  { change 4096 with PAGE_SIZE. rewrite ALIGN_page by lia. Z.to_euclidean_division_equations; lia. }
  unfold get_mtrr_index. apply index_loop_finds; rewrite ?En; try lia.
  - unfold valid, m', write_mtrr_size. rewrite (proj2 (Z.leb_gt _ _)) by lia. rewrite !(u32_small (_ + i * 2)) by lia.
    rewrite wrmsr_read, Z.eqb_refl. unfold u32. rewrite !Z.mod_pow2_bits_low by lia. rewrite Z.lor_spec. by rewrite orb_true_r.
  - unfold base_of, m', write_mtrr_size. rewrite (proj2 (Z.leb_gt _ _)) by lia. rewrite !(u32_small (_ + i * 2)) by lia.
    rewrite !wrmsr_read, (proj2 (Z.eqb_neq (512 + i * 2) (513 + i * 2))), Z.eqb_refl by lia. rewrite Ea.
    assert (base = 4096 * (base / 4096)) as Eb by (Z.to_euclidean_division_equations; lia).
    rewrite Eb. rewrite lor_page_flags by (Z.to_euclidean_division_equations; lia).
    rewrite !(u32_small (4096 * _ + type)) by (Z.to_euclidean_division_equations; lia || (rewrite u32_small; Z.to_euclidean_division_equations; lia)).
    rewrite page_base_flags; [done|Z.to_euclidean_division_equations; lia|lia].
  - intros j Hj Hv Hbj. rewrite Ea in Hbj. unfold m' in Hbj.
    rewrite (proj2 (write_other m i base size type j ltac:(lia) ltac:(lia) ltac:(lia))) in Hbj. by apply (Hno j).
Qed.

Lemma mtrr_covers_region_witness :
  let m := Mtrrs (fun _ => 0) true true 8 0 in
  covers (write_mtrr_size 0 (2 ^ 24 * 253) (2 ^ 24) 1 m) 0 0xFD801000 = true /\
  memory_type (write_mtrr_size 0 (2 ^ 24 * 253) (2 ^ 24) 1 m) 0 = 1.
Proof.
  intros m. destruct (mtrr_covers_region m 0 24 253 1 0xFD801000) as [H1 H2]; [cbn; lia..|].
  split; [|exact H2]. rewrite H1. reflexivity.
Defined.
