(* ===== verification/Syscalls.v ===== *)
(** * System calls (kernel/src/sys/syscalls.c, user/env.c)

    A program asks for a service by number, with arguments in registers and pointers into
    its own memory.  The call runs on the state of all the parts it reaches: pages and heap,
    scheduler, descriptors, screen, keyboard, mouse, timer and clock. *)
From Stdlib Require Import ZArith Lia String Ascii.
From stdpp Require Import base list gmap numbers.
From S2P Require Import Prelude Bytes Ports.
From S2P Require Pmm Frames Paging Heap Sched Fs Files Clock Screen Input Cpu Interrupts.

#[local] Open Scope Z_scope.

#[local] Existing Instance Heap.machine_pages.

Definition SYSCALL : Z := 0x80.

Section Syscalls.
Context {F : Type} `{Falloc : Frames.FrameAlloc F}.
(** The disks, and the ports of the clock. *)
Context {W D : Type} `{Dports : PortIO D}.

(** The terminal (rust/noct-tty) takes bytes and has a size; [screen_text] says how much. *)
Record terminal := Terminal { tty_out : list Z; tty_get_width : Z; tty_get_height : Z }.

Record os := Os {
  data : Z -> Z;
  kmem : Heap.kernel_memory (Paging.machine F);
  procs : Sched.sched;
  fds : Files.system W;
  scr : Screen.screen;
  keys : list Z;
  key_states : Z;
  typed : list (list Z);
  mouse : Input.mouse;
  tick_reading : nat;
  ports : D;
  tty : terminal;
  system_environment : list Z;
  boot_cpu : Cpu.cpu_info;
  registers : Cpu.mtrrs
}.

#[local] Abbreviation S := (IO os).

(** Values of the counter of the timer, reading by reading; rounds after which waiting for
    the timer or the clock chip counts as endless. *)
Variable ticks : nat -> Z.
Variable patience : nat.
Variable century_register : Z.
(** The block in which [fopen] puts the new stream. *)
Variable file_block : Heap.kernel_memory (Paging.machine F) -> Z.

(** ** Access to the parts *)

Definition get : S os := fun s => Done (s, s).
Definition put_data (d : Z -> Z) (s : os) : os :=
  Os d (kmem s) (procs s) (fds s) (scr s) (keys s) (key_states s) (typed s) (mouse s) (tick_reading s) (ports s) (tty s)
    (system_environment s) (boot_cpu s) (registers s).
Definition put_kmem (k : Heap.kernel_memory (Paging.machine F)) (s : os) : os :=
  Os (data s) k (procs s) (fds s) (scr s) (keys s) (key_states s) (typed s) (mouse s) (tick_reading s) (ports s) (tty s)
    (system_environment s) (boot_cpu s) (registers s).
Definition put_procs (p : Sched.sched) (s : os) : os :=
  Os (data s) (kmem s) p (fds s) (scr s) (keys s) (key_states s) (typed s) (mouse s) (tick_reading s) (ports s) (tty s)
    (system_environment s) (boot_cpu s) (registers s).
Definition put_fds (f : Files.system W) (s : os) : os :=
  Os (data s) (kmem s) (procs s) f (scr s) (keys s) (key_states s) (typed s) (mouse s) (tick_reading s) (ports s) (tty s)
    (system_environment s) (boot_cpu s) (registers s).
Definition put_scr (x : Screen.screen) (s : os) : os :=
  Os (data s) (kmem s) (procs s) (fds s) x (keys s) (key_states s) (typed s) (mouse s) (tick_reading s) (ports s) (tty s)
    (system_environment s) (boot_cpu s) (registers s).
Definition put_keys (k : list Z) (st : Z) (t : list (list Z)) (s : os) : os :=
  Os (data s) (kmem s) (procs s) (fds s) (scr s) k st t (mouse s) (tick_reading s) (ports s) (tty s)
    (system_environment s) (boot_cpu s) (registers s).
Definition put_reading (i : nat) (s : os) : os :=
  Os (data s) (kmem s) (procs s) (fds s) (scr s) (keys s) (key_states s) (typed s) (mouse s) i (ports s) (tty s)
    (system_environment s) (boot_cpu s) (registers s).
Definition put_ports (d : D) (s : os) : os :=
  Os (data s) (kmem s) (procs s) (fds s) (scr s) (keys s) (key_states s) (typed s) (mouse s) (tick_reading s) d (tty s)
    (system_environment s) (boot_cpu s) (registers s).
Definition put_tty (t : terminal) (s : os) : os :=
  Os (data s) (kmem s) (procs s) (fds s) (scr s) (keys s) (key_states s) (typed s) (mouse s) (tick_reading s) (ports s) t
    (system_environment s) (boot_cpu s) (registers s).
Definition put_env (e : list Z) (s : os) : os :=
  Os (data s) (kmem s) (procs s) (fds s) (scr s) (keys s) (key_states s) (typed s) (mouse s) (tick_reading s) (ports s) (tty s)
    e (boot_cpu s) (registers s).

Definition modify (f : os -> os) : S unit := fun s => Done (tt, f s).

(** ** The memory of the program

    Addresses go through the directory that the processor uses, as the kernel does not
    change it on a call; one that is not mapped faults.  [data] holds the bytes of the
    frames; the words of the page tables themselves are in the machine of Paging.v. *)
Definition where_is (s : os) (va : Z) : option Z := Paging.translate (Heap.space (kmem s)) (u32 va).

Definition load (va : Z) : S Z := fun s => match where_is s va with Some pa => Done (data s pa, s) | None => Fault end.
Definition store (va b : Z) : S unit := fun s =>
  match where_is s va with
  | Some pa => Done (tt, put_data (fun x => if x =? pa then u8 b else data s x) s)
  | None => Fault
  end.

Fixpoint load_bytes (n : nat) (va : Z) : S (list Z) :=
  match n with
  | O => mret []
  | Datatypes.S n' => b ← load va; l ← load_bytes n' (va + 1); mret (b :: l)
  end.
Fixpoint store_bytes (va : Z) (l : list Z) : S unit :=
  match l with
  | [] => mret tt
  | b :: l' => _ ← store va b; store_bytes (va + 1) l'
  end.
Definition store32 (va x : Z) : S unit := store_bytes va (bytes32 (u32 x)).

(** A string up to its terminator; [fuel] bounds its length. *)
Fixpoint load_string (fuel : nat) (va : Z) : S (list Z) :=
  match fuel with
  | O => hang
  | Datatypes.S fuel' => b ← load va; if b =? 0 then mret [] else l ← load_string fuel' (va + 1); mret (b :: l)
  end.

Fixpoint string_of (l : list Z) : string :=
  match l with [] => EmptyString | b :: l' => String (ascii_of_N (Z.to_N b)) (string_of l') end.

(** ** The calls *)

(** What a call leaves in EAX; [None] when the thread ends in it. *)
Definition result := option Z.

Definition sizeof_env : nat := 60.

Definition syscall_env (position : Z) : S result :=
  s ← get; _ ← store_bytes position (take sizeof_env (system_environment s)); mret (Some 0).

Definition lift_heap {A} (f : Heap.kernel_memory (Paging.machine F) -> outcome (A * Heap.kernel_memory (Paging.machine F))) : S A :=
  fun s => match f (kmem s) with Done (x, k) => Done (x, put_kmem k s) | Hang => Hang | Fault => Fault end.

Definition syscall_memory_alloc (size align out : Z) : S result :=
  allocated ← lift_heap (Heap.kcalloc size align);
  _ ← store32 out allocated;
  mret (Some 0).

Definition syscall_memory_realloc (memory size out : Z) : S result :=
  r ← lift_heap (Heap.krealloc memory size);
  _ ← store32 out r;
  mret (Some 0).

Definition syscall_memory_free (memory : Z) : S result :=
  _ ← lift_heap (fun k => k' ← Heap.kfree memory k; Done (tt, k'));
  mret (Some 0).

Definition tty_write (l : list Z) : S unit :=
  modify (fun s => put_tty (Terminal (tty_out (tty s) ++ l) (tty_get_width (tty s)) (tty_get_height (tty s))) s).

Definition syscall_tty_write (text : Z) : S result := l ← load_string patience text; _ ← tty_write l; mret (Some 0).
Definition syscall_tty_write_raw (text length : Z) : S result :=
  l ← load_bytes (Z.to_nat length) text; _ ← tty_write l; mret (Some 0).

(** The terminal draws what it has taken when it is told to; its pixels are Rust's. *)
Definition syscall_tty_flush : S result := mret (Some 0).

Definition syscall_getkey : S result := fun s =>
  match Input.keyboard_buffer_get (typed s) (keys s) with
  | Done (k, keys', typed') => Done (Some k, put_keys keys' (key_states s) typed' s)
  | Hang => Hang
  | Fault => Fault
  end.

Definition syscall_getch (out_char : Z) : S result :=
  ch ← (fun s => match Input.getchar (typed s) (keys s) (key_states s) with
        | Done (ch, keys', typed', st) => Done (ch, put_keys keys' st typed' s)
        | Hang => Hang
        | Fault => Fault
        end);
  _ ← store32 out_char ch;
  mret (Some 0).

Definition syscall_get_timer_ticks : S result := s ← get; mret (Some (u32 (ticks (tick_reading s)))).

Definition syscall_sleep (millis : Z) : S result := fun s =>
  match Interrupts.sleep_ms ticks patience millis (Interrupts.Timer (ticks (tick_reading s)) Interrupts.CLOCK_FREQ) (tick_reading s) with
  | Done j => Done (Some 0, put_reading j s)
  | Hang => Hang
  | Fault => Fault
  end.

(** The structure has a byte of padding behind its fifth field, which keeps what it has. *)
Definition syscall_datetime (out_time : Z) : S result :=
  t ← (fun s => match Clock.get_time patience century_register 0 (ports s) with
       | Done (t, d) => Done (t, put_ports d s)
       | Hang => Hang
       | Fault => Fault
       end);
  _ ← store_bytes out_time [Clock.seconds t; Clock.minutes t; Clock.hours t; Clock.t_day t; Clock.t_month t];
  _ ← store_bytes (out_time + 6) (bytes16 (u16 (Clock.t_year t)) ++ [Clock.century t]);
  mret (Some 0).

Definition current_process : S Sched.process_t := fun s =>
  match Sched.get_process (Sched.current_proc (procs s)) (procs s) with Done p => Done (p, s) | Hang => Hang | Fault => Fault end.

Definition lift_sched (f : Sched.sched -> outcome Sched.sched) : S unit := fun s =>
  match f (procs s) with Done p => Done (tt, put_procs p s) | Hang => Hang | Fault => Fault end.

(** [esp] is the stack pointer with which the thread is left. *)
Definition syscall_exit (esp : Z) : S result :=
  proc ← current_process;
  if Sched.pid proc =? 0 then mret (Some 0)
  else
    s ← get;
    _ ← lift_sched (fun p => if Sched.multi_task p then Sched.thread_exit (Sched.current_thread p) esp p else Hang);
    mret None.

(** The switch; the call returns when the thread is chosen again. *)
Definition syscall_yield (esp : Z) : S result := _ ← lift_sched (Sched.task_switch_v2_wrapper esp); mret (Some 0).

Definition lift_screen (f : Screen.screen -> outcome Screen.screen) : S unit := fun s =>
  match f (scr s) with Done x => Done (tt, put_scr x s) | Hang => Hang | Fault => Fault end.

Definition syscall_screen_update : S result := _ ← lift_screen Screen.screen_update; mret (Some 0).

Definition lift_pages (f : Paging.machine F -> outcome (Paging.machine F)) : S unit :=
  lift_heap (fun k => m ← f (Heap.space k); Done (tt, Heap.KernelMemory (Heap.system_heap k) m)).

Definition syscall_mmap (physical virtual size flags : Z) : S result :=
  proc ← current_process;
  _ ← lift_pages (fun m => Paging.map_pages m (Sched.page_dir_virt proc) physical virtual size flags);
  mret (Some 1).

Definition syscall_munmap (virtual size : Z) : S result :=
  proc ← current_process;
  _ ← lift_pages (fun m => Paging.unmap_pages_overlapping m (Sched.page_dir_virt proc) virtual size);
  mret (Some 1).

Definition syscall_temperature : S result := fun s =>
  match Cpu.get_cpu_temperature (boot_cpu s) (registers s) with Done t => Done (Some t, s) | Hang => Hang | Fault => Fault end.

Definition mouse_flags (m : Input.mouse) : Z :=
  Z.lor (Z.lor (Z.lor (Z.lor (Z.shiftl (Input.mouse_get_b1 m) 0) (Z.shiftl (Input.mouse_get_b2 m) 1))
    (Z.shiftl (Input.mouse_get_b3 m) 2)) (Z.shiftl (Input.mouse_get_b4 m) 3)) (Z.shiftl (Input.mouse_get_b5 m) 4).

Definition syscall_mouse (out_x out_y flags : Z) : S result :=
  s ← get;
  _ ← store32 out_x (Input.mouse_get_x (mouse s));
  _ ← store32 out_y (Input.mouse_get_y (mouse s));
  _ ← store32 flags (mouse_flags (mouse s));
  mret (Some 0).

Definition syscall_get_console_size (out_wh : Z) : S result :=
  s ← get;
  _ ← store32 out_wh (Z.lor (u32 (Z.shiftl (tty_get_height (tty s)) 16)) (tty_get_width (tty s)));
  mret (Some 0).

Definition SCREEN_QUERY_WIDTH : Z := 0.
Definition SCREEN_QUERY_HEIGHT : Z := 1.
Definition SCREEN_QUERY_BITS_PER_PIXEL : Z := 2.

Definition syscall_get_screen_parameters (parameter out_buffer length : Z) : S result :=
  s ← get;
  if out_buffer =? 0 then mret (Some (2 ^ 32 - 1))
  else if (parameter =? SCREEN_QUERY_WIDTH) || (parameter =? SCREEN_QUERY_HEIGHT) || (parameter =? SCREEN_QUERY_BITS_PER_PIXEL) then
    if length <? 4 then mret (Some (2 ^ 32 - 1))
    else
      _ ← store32 out_buffer (if parameter =? SCREEN_QUERY_WIDTH then Screen.getScreenWidth (scr s)
                              else if parameter =? SCREEN_QUERY_HEIGHT then Screen.getScreenHeight (scr s)
                              else Screen.getDisplayBpp (scr s));
      mret (Some (2 ^ 32 - 1))
  else mret (Some (2 ^ 32 - 1)).

Definition syscall_copy_to_screen (buffer : Z) : S result :=
  if buffer =? 0 then mret (Some (2 ^ 32 - 1))
  else
    s ← get;
    l ← load_bytes (Z.to_nat (Screen.getDisplaySize (scr s))) buffer;
    _ ← lift_screen (fun x => b ← put_bytes (Screen.back_framebuffer x) 0 l; Done (Screen.with_back b x));
    _ ← lift_screen Screen.screen_update;
    mret (Some 0).

Definition syscall_copy_from_screen (buffer : Z) : S result :=
  if buffer =? 0 then mret (Some (2 ^ 32 - 1))
  else
    s ← get;
    l ← lift (get_bytes (Screen.back_framebuffer (scr s)) 0 (Screen.getDisplaySize (scr s)));
    _ ← store_bytes buffer l;
    mret (Some 0).

(** The calls on descriptors always answer 0. *)
Definition lift_fds {A} (f : Files.system W -> outcome (A * (@Files.system W))) : S A := fun s =>
  match f (fds s) with Done (x, y) => Done (x, put_fds y s) | Hang => Hang | Fault => Fault end.

Definition syscall_fd_allocate (filename mode out : Z) : S result :=
  l ← load_string patience filename;
  s ← get;
  number ← lift_fds (Files.file_descriptor_allocate (string_of l) mode (file_block (kmem s)));
  _ ← store32 out number;
  mret (Some 0).

Definition syscall_fd_read (descriptor_number count buffer : Z) : S result :=
  l ← lift_fds (Files.file_descriptor_read descriptor_number count);
  _ ← store_bytes buffer l;
  mret (Some 0).

(** Nothing is read from the buffer for a number that is not open. *)
Definition syscall_fd_write (descriptor_number count buffer : Z) : S result :=
  s ← get;
  x ← lift (Files.fd_stream descriptor_number (fds s));
  match x with
  | None => mret (Some 0)
  | Some _ =>
      l ← load_bytes (Z.to_nat count) buffer;
      _ ← lift_fds (fun f => f' ← Files.file_descriptor_write descriptor_number l f; Done (tt, f'));
      mret (Some 0)
  end.

Definition syscall_fd_close (descriptor_number : Z) : S result :=
  _ ← lift_fds (fun f => Done (tt, Files.file_descriptor_close descriptor_number f));
  mret (Some 0).

Definition syscall_fd_seek (descriptor_number value whence : Z) : S result :=
  _ ← lift_fds (fun f => f' ← Files.file_descriptor_seek descriptor_number value whence f; Done (tt, f'));
  mret (Some 0).

(** [*out] is written only for a number that is open. *)
Definition syscall_fd_tell (descriptor_number out : Z) : S result :=
  s ← get;
  x ← lift (Files.fd_stream descriptor_number (fds s));
  match x with
  | None => mret (Some 0)
  | Some _ => r ← lift_fds (Files.file_descriptor_tell descriptor_number 0); _ ← store32 out r; mret (Some 0)
  end.

(** ** The table and the handler *)

Definition SYSCALL_COUNT : Z := 29.

(** [calls_table[n](a, b, c, d, e)]; [esp] only serves the two calls that switch. *)
Definition calls_table (esp n a b c d : Z) : S result :=
  match Z.to_nat n with
  | 0%nat => syscall_env a
  | 1%nat => syscall_mmap a b c d
  | 2%nat => syscall_munmap a b
  | 3%nat => syscall_memory_alloc a b c
  | 4%nat => syscall_memory_realloc a b c
  | 5%nat => syscall_memory_free a
  | 6%nat => syscall_tty_write a
  | 7%nat => syscall_tty_write_raw a b
  | 8%nat => syscall_tty_flush
  | 9%nat => syscall_getkey
  | 10%nat => syscall_getch a
  | 11%nat => syscall_mouse a b c
  | 12%nat => syscall_fd_allocate a b c
  | 13%nat => syscall_fd_read (s32 a) b c
  | 14%nat => syscall_fd_write (s32 a) b c
  | 15%nat => syscall_fd_seek (s32 a) (s32 b) c
  | 16%nat => syscall_fd_tell (s32 a) b
  | 17%nat => syscall_fd_close (s32 a)
  | 18%nat => syscall_datetime a
  | 19%nat => syscall_sleep a
  | 20%nat => syscall_exit esp
  | 21%nat => syscall_yield esp
  | 22%nat => syscall_screen_update
  | 23%nat => syscall_temperature
  | 24%nat => syscall_get_timer_ticks
  | 25%nat => syscall_get_console_size a
  | 26%nat => syscall_get_screen_parameters b c d
  | 27%nat => syscall_copy_to_screen b
  | 28%nat => syscall_copy_from_screen b
  | _ => hang
  end.

Definition with_eax (x : Z) (r : Interrupts.registers_t) : Interrupts.registers_t :=
  Interrupts.Registers (Interrupts.r_ds r) (Interrupts.r_edi r) (Interrupts.r_esi r) (Interrupts.r_ebp r) (Interrupts.r_esp r)
    (Interrupts.r_ebx r) (Interrupts.r_edx r) (Interrupts.r_ecx r) x (Interrupts.int_num r) (Interrupts.err_code r)
    (Interrupts.r_eip r) (Interrupts.r_cs r) (Interrupts.r_eflags r) (Interrupts.r_useresp r) (Interrupts.r_ss r).

(** [None] when the thread does not come back. *)
Definition syscall_handler (regs : Interrupts.registers_t) : S (option Interrupts.registers_t) :=
  if SYSCALL_COUNT <=? Interrupts.r_eax regs then mret (Some regs)
  else
    r ← calls_table (Interrupts.r_esp regs) (Interrupts.r_eax regs) (Interrupts.r_ebx regs) (Interrupts.r_ecx regs)
          (Interrupts.r_edx regs) (Interrupts.r_esi regs);
    mret (match r with Some v => Some (with_eax (u32 v) regs) | None => None end).

(** [configure_env]: the fields in the order of the structure; the first is never set. *)
Definition configure_env (version_major version_minor version_patch phys_memory_size used_phys_memory_size : Z) (s : os) : os :=
  put_env (concat (map bytes32
    [0; version_major; version_minor; version_patch; u32 (Screen.getFrameBufferAddr (scr s)); u32 (Screen.getDisplayAddr (scr s));
     Screen.getScreenWidth (scr s); Screen.getScreenHeight (scr s); Screen.getDisplayBpp (scr s); Screen.getDisplayPitch (scr s);
     Screen.getDisplaySize (scr s); u32 (ticks (tick_reading s)); u32 phys_memory_size; u32 used_phys_memory_size;
     u32 (phys_memory_size - used_phys_memory_size)])) s.

(** ** Reading and writing the memory of the program *)

Fixpoint write_all (pas l : list Z) (d : Z -> Z) : Z -> Z :=
  match pas, l with
  | pa :: pas', b :: l' => write_all pas' l' (fun x => if x =? pa then u8 b else d x)
  | _, _ => d
  end.

Lemma write_all_other pas l d x : x ∉ pas -> write_all pas l d x = d x.
Proof.
  revert l d. induction pas as [|pa pas IH]; intros l d Hx; [done|]. apply not_elem_of_cons in Hx as [Hne Hx].
  destruct l as [|b l]; [done|]. cbn [write_all]. rewrite IH by done. by rewrite (proj2 (Z.eqb_neq _ _)).
Qed.

Lemma write_all_read pas l d :
  NoDup pas -> List.length pas = List.length l -> Forall is_byte l -> map (write_all pas l d) pas = l.
Proof.
  revert l d. induction pas as [|pa pas IH]; intros l d Hnd Hl Hb; [by destruct l|].
  destruct l as [|b l]; [done|]. apply list.NoDup_cons in Hnd as [Hin Hnd]. apply list.Forall_cons in Hb as [Hb Hbs].
  cbn [map write_all]. rewrite write_all_other by done. rewrite Z.eqb_refl, u8_small by done. f_equal. apply IH; [done| |done]. by injection Hl.
Qed.

(** [n] bytes from [va] on are mapped, to the physical addresses [pas]. *)
Definition buffer_at (s : os) (va : Z) (n : nat) (pas : list Z) : Prop :=
  mapM (where_is s) (seqZ va (Z.of_nat n)) = Some pas.

Lemma buffer_at_S s va n pas :
  buffer_at s va (Datatypes.S n) pas -> exists pa pas', pas = pa :: pas' /\ where_is s va = Some pa /\ buffer_at s (va + 1) n pas'.
Proof.
  unfold buffer_at. rewrite seqZ_cons by lia. replace (Z.pred (Z.of_nat (Datatypes.S n))) with (Z.of_nat n) by lia.
  intros H. apply mapM_Some_1 in H. apply Forall2_cons_inv_l in H as (pa & pas' & Hpa & H & ->).
  exists pa, pas'. split; [done|]. split; [done|]. by apply mapM_Some_2.
Qed.

Lemma buffer_at_length s va n pas : buffer_at s va n pas -> List.length pas = n.
Proof. intros H. apply mapM_Some_1, Forall2_length in H. rewrite length_seqZ, Nat2Z.id in H. done. Qed.

Lemma buffer_at_same s s' va n pas : kmem s' = kmem s -> buffer_at s va n pas -> buffer_at s' va n pas.
Proof. intros E. unfold buffer_at. by replace (where_is s') with (where_is s) by (unfold where_is; by rewrite E). Qed.

Lemma load_bytes_run n : forall s va pas, buffer_at s va n pas -> load_bytes n va s = Done (map (data s) pas, s).
Proof.
  induction n as [|n IH]; intros s va pas H.
  - apply buffer_at_length in H. by destruct pas.
  - apply buffer_at_S in H as (pa & pas' & -> & Hpa & H). cbn [load_bytes map].
    assert (load va s = Done (data s pa, s)) as E by (unfold load; by rewrite Hpa).
    rewrite (bind_run _ _ _ _ _ E), (bind_run _ _ _ _ _ (IH _ _ _ H)). done.
Qed.

Lemma store_bytes_run l : forall s va pas,
  buffer_at s va (List.length l) pas -> store_bytes va l s = Done (tt, put_data (write_all pas l (data s)) s).
Proof.
  induction l as [|b l IH]; intros s va pas H.
  - apply buffer_at_length in H. destruct pas; [|done]. by destruct s.
  - apply buffer_at_S in H as (pa & pas' & -> & Hpa & H). cbn [store_bytes write_all].
    set (s1 := put_data (fun x => if x =? pa then u8 b else data s x) s).
    assert (store va b s = Done (tt, s1)) as E by (unfold store; by rewrite Hpa).
    rewrite (bind_run _ _ _ _ _ E), (IH s1 _ pas'); [done|]. by apply (buffer_at_same s).
Qed.

(** A number that there is no call for: the registers, the result among them, stay. *)
Lemma unknown_call_ignored regs s : SYSCALL_COUNT <= Interrupts.r_eax regs -> syscall_handler regs s = Done (Some regs, s).
Proof. intros H. unfold syscall_handler. by rewrite (proj2 (Z.leb_le _ _)). Qed.

(** The registers of a program that asks for call [n]. *)
Definition ask (n a b c : Z) (r : Interrupts.registers_t) : Interrupts.registers_t :=
  Interrupts.Registers (Interrupts.r_ds r) (Interrupts.r_edi r) (Interrupts.r_esi r) (Interrupts.r_ebp r) (Interrupts.r_esp r)
    a c b n (Interrupts.int_num r) (Interrupts.err_code r)
    (Interrupts.r_eip r) (Interrupts.r_cs r) (Interrupts.r_eflags r) (Interrupts.r_useresp r) (Interrupts.r_ss r).

Lemma handler_run n a b c r s v s' :
  0 <= n < SYSCALL_COUNT -> calls_table (Interrupts.r_esp r) n a b c (Interrupts.r_esi r) s = Done (Some v, s') ->
  syscall_handler (ask n a b c r) s = Done (Some (with_eax (u32 v) (ask n a b c r)), s').
Proof.
  intros Hn Hc. unfold syscall_handler. rewrite (proj2 (Z.leb_gt _ _)) by (cbn; lia).
  exact (bind_run _ _ _ _ _ Hc).
Qed.

(** *** Files through calls *)

Lemma fd_stream_set number (fs : Files.system W) a f f' m :
  Files.descriptors_ok fs -> Files.fd_stream number fs = Done (Some (a, f)) ->
  Files.fd_stream number (Files.set_stream a f' m fs) = Done (Some (a, f')).
Proof.
  intros Hok Hs. destruct (Files.set_stream_ok number fs a f f' m Hok Hs) as [Hok' _].
  rewrite Files.fd_stream_of in Hs |- * by done. cbn [Files.descriptors Files.set_stream Files.files].
  destruct (Files.find_fd (Files.descriptors fs) number) as [i|]; [|done].
  destruct (Files.files fs !! Files.file i) as [g|]; [|done]. injection Hs as <- <-. by rewrite lookup_insert_eq.
Qed.

Lemma fd_stream_range number (fs : Files.system W) a f : Files.fd_stream number fs = Done (Some (a, f)) -> 0 <= number < Files.last_descriptor_number fs.
Proof.
  unfold Files.fd_stream, Files.fd_in_range. destruct (Z.leb_spec 0 number); [|done].
  destruct (Z.ltb_spec number (Files.last_descriptor_number fs)); [lia|done].
Qed.

(** The call that writes, on an open descriptor. *)
Lemma fd_write_run number s a f f1 m1 x va pas :
  Files.fd_stream number (fds s) = Done (Some (a, f)) -> buffer_at s va (List.length pas) pas ->
  Files.fwrite f (map (data s) pas) (Files.fs (fds s)) = Done (x, f1, m1) ->
  syscall_fd_write number (Z.of_nat (List.length pas)) va s = Done (Some 0, put_fds (Files.set_stream a f1 m1 (fds s)) s).
Proof.
  intros Hs Hb Hw. unfold syscall_fd_write.
  rewrite (bind_run get _ s s s eq_refl).
  assert (lift (Files.fd_stream number (fds s)) s = Done (Some (a, f), s)) as E1 by (unfold lift; by rewrite Hs).
  rewrite (bind_run _ _ _ _ _ E1), Nat2Z.id, (bind_run _ _ _ _ _ (load_bytes_run _ _ _ _ Hb)).
  erewrite bind_run; [reflexivity|]. unfold lift_fds, Files.file_descriptor_write. rewrite Hs. cbn [mbind outcome_bind]. by rewrite Hw.
Qed.

Lemma fd_seek_run number s a f f1 x value whence :
  Files.fd_stream number (fds s) = Done (Some (a, f)) -> Files.fseek f value (u8 whence) (Files.fs (fds s)) = Done (x, f1) ->
  syscall_fd_seek number value whence s = Done (Some 0, put_fds (Files.set_stream a f1 (Files.fs (fds s)) (fds s)) s).
Proof.
  intros Hs Hk. unfold syscall_fd_seek. erewrite bind_run; [reflexivity|]. unfold lift_fds, Files.file_descriptor_seek.
  rewrite Hs. cbn [mbind outcome_bind]. by rewrite Hk.
Qed.

Lemma fd_read_run number s a f f1 x l count va pas :
  Files.fd_stream number (fds s) = Done (Some (a, f)) -> buffer_at s va (List.length l) pas ->
  Files.fread f count 1 (Files.fs (fds s)) = Done (x, l, f1) ->
  syscall_fd_read number count va s =
    Done (Some 0, put_data (write_all pas l (data s)) (put_fds (Files.set_stream a f1 (Files.fs (fds s)) (fds s)) s)).
Proof.
  intros Hs Hb Hr. unfold syscall_fd_read.
  assert (lift_fds (Files.file_descriptor_read number count) s =
    Done (l, put_fds (Files.set_stream a f1 (Files.fs (fds s)) (fds s)) s)) as E.
  { unfold lift_fds, Files.file_descriptor_read. rewrite Hs. cbn [mbind outcome_bind]. by rewrite Hr. }
  rewrite (bind_run _ _ _ _ _ E). erewrite bind_run; [reflexivity|].
  apply (store_bytes_run l (put_fds _ s)). by apply (buffer_at_same s).
Qed.


(** *** The mouse *)

Lemma store32_run s va x pas :
  buffer_at s va 4 pas -> 0 <= x < 2 ^ 32 -> store32 va x s = Done (tt, put_data (write_all pas (bytes32 x) (data s)) s).
Proof. intros Hb Hx. unfold store32. rewrite u32_small by done. by apply store_bytes_run. Qed.

Lemma bytes32_bytes x : Forall is_byte (bytes32 x).
Proof. unfold bytes32. repeat (apply list.Forall_cons; split); try (unfold is_byte; Z.to_euclidean_division_equations; lia). constructor. Qed.

Lemma read_past pas qas l d : (forall x, x ∈ pas -> x ∉ qas) -> map (write_all qas l d) pas = map d pas.
Proof. intros H. apply map_ext_in. intros x Hx. apply write_all_other, H. by apply list_elem_of_In. Qed.

Lemma disjoint_halves (l r : list Z) : NoDup (l ++ r) -> forall x, x ∈ l -> x ∉ r.
Proof. intros H. apply list.NoDup_app in H as (_ & H & _). exact H. Qed.

(** A program is told where the mouse is and which buttons are down: one bit for each. *)
Theorem mouse_through_calls s r ox oy ofl px py pf :
  buffer_at s ox 4 px -> buffer_at s oy 4 py -> buffer_at s ofl 4 pf -> NoDup (px ++ py ++ pf) ->
  let m := mouse s in
  Forall (fun b => b = 0 \/ b = 1) [Input.mouse_b1 m; Input.mouse_b2 m; Input.mouse_b3 m; Input.mouse_b4 m; Input.mouse_b5 m] ->
  exists s', syscall_handler (ask 11 ox oy ofl r) s = Done (Some (with_eax 0 (ask 11 ox oy ofl r)), s') /\
    map (data s') px = bytes32 (u32 (Input.mouse_x m)) /\ map (data s') py = bytes32 (u32 (Input.mouse_y m)) /\
    map (data s') pf = bytes32 (Input.mouse_b1 m + 2 * Input.mouse_b2 m + 4 * Input.mouse_b3 m + 8 * Input.mouse_b4 m + 16 * Input.mouse_b5 m).
Proof.
  intros Hx Hy Hf Hnd m Hb.
  apply list.Forall_cons in Hb as [B1 Hb]; apply list.Forall_cons in Hb as [B2 Hb]; apply list.Forall_cons in Hb as [B3 Hb].
  apply list.Forall_cons in Hb as [B4 Hb]; apply list.Forall_cons in Hb as [B5 _].
  assert (mouse_flags m = Input.mouse_b1 m + 2 * Input.mouse_b2 m + 4 * Input.mouse_b3 m + 8 * Input.mouse_b4 m + 16 * Input.mouse_b5 m) as Efl.
  { unfold mouse_flags, Input.mouse_get_b1, Input.mouse_get_b2, Input.mouse_get_b3, Input.mouse_get_b4, Input.mouse_get_b5.
    destruct B1 as [-> | ->], B2 as [-> | ->], B3 as [-> | ->], B4 as [-> | ->], B5 as [-> | ->]; reflexivity. }
  assert (0 <= mouse_flags m < 32) as Hfl by lia.
  pose proof (disjoint_halves _ _ Hnd) as D1. apply list.NoDup_app in Hnd as (Nx & _ & Hnd).
  pose proof (disjoint_halves _ _ Hnd) as D2. apply list.NoDup_app in Hnd as (Ny & _ & Nf).
  set (d1 := write_all px (bytes32 (u32 (Input.mouse_x m))) (data s)).
  set (d2 := write_all py (bytes32 (u32 (Input.mouse_y m))) d1).
  set (d3 := write_all pf (bytes32 (mouse_flags m)) d2).
  pose proof (store32_run s ox (Input.mouse_get_x m) px Hx ltac:(apply u32_range)) as E1.
  pose proof (store32_run (put_data d1 s) oy (Input.mouse_get_y m) py (buffer_at_same s _ _ _ _ eq_refl Hy) ltac:(apply u32_range)) as E2.
  pose proof (store32_run (put_data d2 s) ofl (mouse_flags m) pf (buffer_at_same s _ _ _ _ eq_refl Hf) ltac:(lia)) as E3.
  exists (put_data d3 s). split; [|split; [|split]].
  - apply (handler_run 11 _ _ _ _ _ 0); [done|]. change (syscall_mouse ox oy ofl s = Done (Some 0, put_data d3 s)).
    unfold syscall_mouse. rewrite (bind_run get _ s s s eq_refl). fold m.
    rewrite (bind_run _ _ _ _ _ E1). erewrite bind_run; [|exact E2]. erewrite bind_run; [|exact E3]. done.
  - cbn [data put_data]. unfold d3, d2. rewrite !read_past by (intros x Hin; pose proof (D1 x Hin) as H; rewrite elem_of_app in H; tauto).
    apply write_all_read; [done|by rewrite (buffer_at_length _ _ _ _ Hx)|apply bytes32_bytes].
  - cbn [data put_data]. unfold d3. rewrite read_past by exact D2.
    apply write_all_read; [done|by rewrite (buffer_at_length _ _ _ _ Hy)|apply bytes32_bytes].
  - cbn [data put_data]. rewrite <- Efl. apply write_all_read; [done|by rewrite (buffer_at_length _ _ _ _ Hf)|apply bytes32_bytes].
Qed.

(** What a program asks of the screen it gets, but with the answer of an error. *)
Theorem screen_width_with_error s out pas :
  buffer_at s out 4 pas -> out <> 0 -> 0 <= Screen.getScreenWidth (scr s) < 2 ^ 32 ->
  syscall_get_screen_parameters SCREEN_QUERY_WIDTH out 4 s =
    Done (Some (2 ^ 32 - 1), put_data (write_all pas (bytes32 (Screen.getScreenWidth (scr s))) (data s)) s).
Proof.
  intros Hb Hne Hw. unfold syscall_get_screen_parameters. rewrite (bind_run get _ s s s eq_refl). rewrite (proj2 (Z.eqb_neq _ _)) by done.
  cbn [Z.eqb SCREEN_QUERY_WIDTH orb Z.ltb Z.compare Pos.compare Pos.compare_cont].
  erewrite bind_run; [reflexivity|]. by apply store32_run.
Qed.

End Syscalls.
Arguments os F W D : clear implicits.

(** ** An example *)

#[local] Instance PortIO_unit : PortIO unit := {
  port_inb _ d := (0, d); port_inw _ d := (0, d); port_inl _ d := (0, d);
  port_outb _ _ d := d; port_outw _ _ d := d; port_outl _ _ d := d; time_passes _ d := d
}.

(** One file is open; paging is off, so that addresses are those of the frames. *)
#[local] Existing Instance Frames.pmm_frames.

Definition sample_os : os Pmm.pmm (list Z) unit :=
  Os (fun x => if x =? 0x5000 then 7 else if x =? 0x5001 then 8 else 0)
    (Heap.KernelMemory (Heap.Heap 0 0 0 0 [] false 0 0 false) (Paging.Machine ∅ 0 false 0 (Pmm.Pmm [] 0 0)))
    Sched.sched0 Files.sample_system (Screen.Screen 0 0 0 0 0 0 0 [] []) [] 0 []
    (Input.Mouse 1 10 20 0 0 1 0 0 0 0 0 (Input.MousePacket 0 0 0 0 0) 0 [0; 0; 0; 0; 0]) 0 tt (Terminal [] 80 25) []
    Cpu.zero_info (Cpu.Mtrrs (fun _ => 0) false false 0 0).

Definition sample_registers : Interrupts.registers_t := Interrupts.registers_of [].

