(* ===== verification/Text.v ===== *)
(** * Text conversion (kernel/src/lib/utf_conversion.c)

    UTF-16 to UTF-8, checked against the definition of the two encodings.  Units and bytes
    are in buffers of their own. *)
From Stdlib Require Import ZArith Lia.
From stdpp Require Import base list numbers.
From S2P Require Import Prelude Bytes.

#[local] Open Scope Z_scope.

(** ** UTF-16 to UTF-8 *)

(** A unit outside the surrogates is a character; any other is taken with its neighbour,
    whichever that is. *)
Definition codepoint_at (utf16 : list Z) (i : Z) : outcome (Z * Z) :=
  high ← array_get utf16 i;
  if (high <? 0xD800) || (0xDFFF <? high) then Done (high, i + 1)
  else
    low ← array_get utf16 (i + 1);
    Done (u32 (0x10000 + Z.shiftl (high - 0xD800) 10 + (low - 0xDC00)), i + 2).

Definition utf8_bytes (codepoint : Z) : list Z :=
  if codepoint <? 0x80 then [u8 codepoint]
  else if codepoint <? 0x800 then
    [Z.lor 0xC0 (Z.land (Z.shiftr codepoint 6) 0x1F); Z.lor 0x80 (Z.land codepoint 0x3F)]
  else if codepoint <? 0x10000 then
    [Z.lor 0xE0 (Z.land (Z.shiftr codepoint 12) 0x0F); Z.lor 0x80 (Z.land (Z.shiftr codepoint 6) 0x3F);
     Z.lor 0x80 (Z.land codepoint 0x3F)]
  else
    [Z.lor 0xF0 (Z.land (Z.shiftr codepoint 18) 0x07); Z.lor 0x80 (Z.land (Z.shiftr codepoint 12) 0x3F);
     Z.lor 0x80 (Z.land (Z.shiftr codepoint 6) 0x3F); Z.lor 0x80 (Z.land codepoint 0x3F)].

(** Each round takes at least one unit, so their number bounds the rounds. *)
Fixpoint convert (fuel : nat) (utf16 : list Z) (utf16_length i : Z) (utf8 : list Z) (j : Z) : outcome (list Z) :=
  match fuel with
  | O => Hang
  | S fuel' =>
      if i <? utf16_length then
        '(codepoint, i') ← codepoint_at utf16 i;
        utf8' ← put_bytes utf8 j (utf8_bytes codepoint);
        convert fuel' utf16 utf16_length i' utf8' (j + Z.of_nat (length (utf8_bytes codepoint)))
      else Done utf8
  end.

Definition utf16_to_utf8 (utf16 : list Z) (utf16_length : Z) (utf8 : list Z) : outcome (list Z) :=
  convert (S (Z.to_nat utf16_length)) utf16 utf16_length 0 utf8 0.

(** *** The encodings *)

(** A character: a code point that is no surrogate. *)
Definition scalar (cp : Z) : Prop := 0 <= cp < 0xD800 \/ 0xE000 <= cp < 0x110000.

Definition utf16_of (cp : Z) : list Z :=
  if cp <? 0x10000 then [cp] else [0xD800 + (cp - 0x10000) / 1024; 0xDC00 + (cp - 0x10000) mod 1024].

Definition continuation (b : Z) : option Z := if (0x80 <=? b) && (b <? 0xC0) then Some (b - 0x80) else None.

(** One character of well-formed UTF-8: no form that is longer than needed, no surrogate. *)
Definition utf8_decode_one (l : list Z) : option (Z * list Z) :=
  match l with
  | [] => None
  | a :: l1 =>
      if a <? 0x80 then Some (a, l1)
      else
        match l1 with
        | [] => None
        | b :: l2 =>
            y ← continuation b;
            if (0xC2 <=? a) && (a <? 0xE0) then Some ((a - 0xC0) * 64 + y, l2)
            else
              match l2 with
              | [] => None
              | c :: l3 =>
                  z ← continuation c;
                  if (0xE0 <=? a) && (a <? 0xF0) then
                    let cp := ((a - 0xE0) * 64 + y) * 64 + z in
                    if (0x800 <=? cp) && ((cp <? 0xD800) || (0xE000 <=? cp)) then Some (cp, l3) else None
                  else
                    match l3 with
                    | [] => None
                    | d :: l4 =>
                        w ← continuation d;
                        let cp := (((a - 0xF0) * 64 + y) * 64 + z) * 64 + w in
                        if (0xF0 <=? a) && (0x10000 <=? cp) && (cp <? 0x110000) then Some (cp, l4) else None
                    end
              end
        end
  end.

Fixpoint utf8_decode (fuel : nat) (l : list Z) : option (list Z) :=
  match fuel, l with
  | _, [] => Some []
  | O, _ => None
  | S fuel', _ => '(cp, l') ← utf8_decode_one l; cps ← utf8_decode fuel' l'; Some (cp :: cps)
  end.

Lemma tagged t n x : 0 <= n -> Z.lor (Z.shiftl t n) (Z.land x (Z.ones n)) = t * 2 ^ n + x mod 2 ^ n.
Proof. intros Hn. rewrite Z.land_ones by done. apply lor_disjoint; [done|]. apply Z.mod_pos_bound. lia. Qed.

Lemma utf8_bytes_arith cp :
  utf8_bytes cp =
    if cp <? 0x80 then [cp mod 256]
    else if cp <? 0x800 then [0xC0 + (cp / 64) mod 32; 0x80 + cp mod 64]
    else if cp <? 0x10000 then [0xE0 + (cp / 4096) mod 16; 0x80 + (cp / 64) mod 64; 0x80 + cp mod 64]
    else [0xF0 + (cp / 262144) mod 8; 0x80 + (cp / 4096) mod 64; 0x80 + (cp / 64) mod 64; 0x80 + cp mod 64].
Proof.
  unfold utf8_bytes. rewrite !Z.shiftr_div_pow2 by lia.
  pose proof (fun x => tagged 2 6 x ltac:(lia)) as T6. pose proof (fun x => tagged 6 5 x ltac:(lia)) as T5.
  pose proof (fun x => tagged 14 4 x ltac:(lia)) as T4. pose proof (fun x => tagged 30 3 x ltac:(lia)) as T3.
  change (Z.shiftl 2 6) with 0x80 in T6. change (Z.ones 6) with 0x3F in T6. change (Z.shiftl 6 5) with 0xC0 in T5. change (Z.ones 5) with 0x1F in T5.
  change (Z.shiftl 14 4) with 0xE0 in T4. change (Z.ones 4) with 0x0F in T4. change (Z.shiftl 30 3) with 0xF0 in T3. change (Z.ones 3) with 0x07 in T3.
  rewrite !T6, !T5, !T4, !T3. reflexivity.
Qed.

Lemma continuation_of x : continuation (0x80 + x mod 64) = Some (x mod 64).
Proof.
  unfold continuation. pose proof (Z.mod_pos_bound x 64 ltac:(lia)).
  rewrite (proj2 (Z.leb_le _ _)), (proj2 (Z.ltb_lt _ _)) by lia. cbn [andb]. f_equal. lia.
Qed.

(** What is written for a character is its well-formed UTF-8. *)
Lemma utf8_bytes_decode cp rest : scalar cp -> utf8_decode_one (utf8_bytes cp ++ rest) = Some (cp, rest).
Proof.
  intros Hs. rewrite utf8_bytes_arith. unfold scalar in Hs.
  assert (forall a b, (a <=? b) = true <-> a <= b) as Hle by apply Z.leb_le.
  destruct (Z.ltb_spec cp 0x80) as [H1|H1].
  { cbn [app utf8_decode_one]. rewrite Z.mod_small by lia. by rewrite (proj2 (Z.ltb_lt cp 0x80)). }
  destruct (Z.ltb_spec cp 0x800) as [H2|H2].
  { cbn [app utf8_decode_one]. rewrite continuation_of. cbn [mbind option_bind].
    rewrite (Z.mod_small (cp / 64)) by (Z.to_euclidean_division_equations; lia).
    rewrite (proj2 (Z.ltb_ge _ 0x80)), (proj2 (Z.leb_le 0xC2 _)), (proj2 (Z.ltb_lt _ 0xE0)) by (Z.to_euclidean_division_equations; lia).
    cbn [andb]. do 2 f_equal. Z.to_euclidean_division_equations; lia. }
  destruct (Z.ltb_spec cp 0x10000) as [H3|H3].
  { cbn [app utf8_decode_one]. rewrite !continuation_of. cbn [mbind option_bind].
    rewrite (Z.mod_small (cp / 4096)) by (Z.to_euclidean_division_equations; lia).
    rewrite (proj2 (Z.ltb_ge _ 0x80)), (proj2 (Z.ltb_ge _ 0xE0)) by (Z.to_euclidean_division_equations; lia).
    rewrite andb_false_r. rewrite (proj2 (Z.leb_le 0xE0 _)), (proj2 (Z.ltb_lt _ 0xF0)) by (Z.to_euclidean_division_equations; lia).
    cbn [andb]. cbv zeta. replace ((0xE0 + cp / 4096 - 0xE0) * 64 + (cp / 64) mod 64) with (cp / 64) by (Z.to_euclidean_division_equations; lia).
    replace (cp / 64 * 64 + cp mod 64) with cp by (Z.to_euclidean_division_equations; lia).
    rewrite (proj2 (Z.leb_le 0x800 cp)) by done. cbn [andb].
    replace ((cp <? 0xD800) || (0xE000 <=? cp)) with true; [done|]. symmetry. apply orb_true_iff.
    destruct Hs; [left; apply Z.ltb_lt; lia|right; apply Z.leb_le; lia]. }
  cbn [app utf8_decode_one]. rewrite !continuation_of. cbn [mbind option_bind].
  rewrite (Z.mod_small (cp / 262144)) by (Z.to_euclidean_division_equations; lia).
  rewrite (proj2 (Z.ltb_ge _ 0x80)), (proj2 (Z.ltb_ge _ 0xE0)), (proj2 (Z.ltb_ge _ 0xF0)) by (Z.to_euclidean_division_equations; lia).
  rewrite !andb_false_r. cbv zeta.
  replace ((0xF0 + cp / 262144 - 0xF0) * 64 + (cp / 4096) mod 64) with (cp / 4096) by (Z.to_euclidean_division_equations; lia).
  replace (cp / 4096 * 64 + (cp / 64) mod 64) with (cp / 64) by (Z.to_euclidean_division_equations; lia).
  replace (cp / 64 * 64 + cp mod 64) with cp by (Z.to_euclidean_division_equations; lia).
  rewrite (proj2 (Z.leb_le 0xF0 _)), (proj2 (Z.leb_le 0x10000 cp)), (proj2 (Z.ltb_lt cp 0x110000)) by (Z.to_euclidean_division_equations; lia). done.
Qed.

Lemma codepoint_of_units cp units rest i :
  scalar cp -> 0 <= i -> drop (Z.to_nat i) units = utf16_of cp ++ rest ->
  codepoint_at units i = Done (cp, i + Z.of_nat (length (utf16_of cp))).
Proof.
  intros Hs Hi Hd. unfold codepoint_at, utf16_of in *.
  assert (forall k x, drop (Z.to_nat i) units !! k = Some x -> array_get units (i + Z.of_nat k) = Done x) as Hget.
  { intros k x Hk. apply array_get_Done. split; [lia|]. rewrite lookup_drop in Hk. replace (Z.to_nat (i + Z.of_nat k)) with (Z.to_nat i + k)%nat by lia. done. }
  destruct (Z.ltb_spec cp 0x10000) as [H|H]; cbn [app length] in *.
  - pose proof (Hget 0%nat cp ltac:(by rewrite Hd)) as G. rewrite Z.add_0_r in G. rewrite G. cbn [mbind outcome_bind].
    replace ((cp <? 0xD800) || (0xDFFF <? cp)) with true; [done|]. symmetry. apply orb_true_iff.
    destruct Hs; [left|right]; apply Z.ltb_lt; lia.
  - pose proof (Hget 0%nat _ ltac:(by rewrite Hd)) as G0. pose proof (Hget 1%nat _ ltac:(by rewrite Hd)) as G1.
    rewrite Z.add_0_r in G0. rewrite G0. cbn [mbind outcome_bind]. unfold scalar in Hs.
    rewrite (proj2 (Z.ltb_ge _ 0xD800)), (proj2 (Z.ltb_ge 0xDFFF _)) by (Z.to_euclidean_division_equations; lia). cbn [orb].
    change (Z.of_nat 1) with 1 in G1. rewrite G1. cbn [mbind outcome_bind]. rewrite Z.shiftl_mul_pow2 by lia.
    rewrite u32_small by (Z.to_euclidean_division_equations; lia). do 2 f_equal. Z.to_euclidean_division_equations; lia.
Qed.

Lemma utf8_bytes_length cp : (1 <= length (utf8_bytes cp))%nat.
Proof. unfold utf8_bytes. repeat case_match; cbn; lia. Qed.

Lemma utf16_of_length cp : (1 <= length (utf16_of cp))%nat.
Proof. unfold utf16_of. case_match; cbn; lia. Qed.

Lemma utf8_decode_app cps fuel :
  Forall scalar cps -> (length cps <= fuel)%nat -> utf8_decode fuel (concat (map utf8_bytes cps)) = Some cps.
Proof.
  intros Hs. revert fuel. induction Hs as [|cp cps Hc Hs IH]; intros fuel Hf; [by destruct fuel|].
  destruct fuel as [|fuel]; [cbn in Hf; lia|]. cbn [map concat]. pose proof (utf8_bytes_length cp) as Hl. cbn [utf8_decode].
  destruct (utf8_bytes cp ++ concat (map utf8_bytes cps)) as [|b l] eqn:E.
  { apply (f_equal length) in E. rewrite length_app in E. cbn in E. lia. }
  rewrite <- E, utf8_bytes_decode by done. cbn [mbind option_bind]. rewrite IH by (cbn in Hf; lia). done.
Qed.

(** Two writes that follow each other are one. *)
Lemma put_bytes_app buf off a b :
  0 <= off -> off + Z.of_nat (length (a ++ b)) <= Z.of_nat (length buf) ->
  put_bytes buf off (a ++ b) =
    put_bytes (take (Z.to_nat off) buf ++ a ++ drop (Z.to_nat off + length a) buf) (off + Z.of_nat (length a)) b.
Proof.
  intros Ho Hl. rewrite length_app in Hl. set (p := take (Z.to_nat off) buf ++ a).
  assert (length p = Z.to_nat off + length a)%nat as Hp by (unfold p; rewrite length_app, length_take; lia).
  rewrite (app_assoc (take _ _) a). fold p. rewrite !put_bytes_ok by (rewrite ?length_app, ?length_drop, ?Hp; lia).
  replace (Z.to_nat (off + Z.of_nat (length a))) with (length p) by lia. rewrite take_app_length.
  rewrite drop_app, (drop_ge p) by lia. rewrite drop_drop, length_app. unfold p. rewrite <- !app_assoc. do 4 f_equal. cbn [app]. f_equal. rewrite length_app, length_take. lia.
Qed.

Lemma convert_run fuel units cps rest i utf8 j :
  Forall scalar cps -> 0 <= i -> 0 <= j -> drop (Z.to_nat i) units = concat (map utf16_of cps) ++ rest ->
  (length cps < fuel)%nat -> j + Z.of_nat (length (concat (map utf8_bytes cps))) <= Z.of_nat (length utf8) ->
  convert fuel units (i + Z.of_nat (length (concat (map utf16_of cps)))) i utf8 j = put_bytes utf8 j (concat (map utf8_bytes cps)).
Proof.
  intros Hs. revert fuel i utf8 j. induction Hs as [|cp cps Hc Hs IH]; intros fuel i utf8 j Hi Hj Hd Hf Hl; (destruct fuel as [|fuel]; [cbn in Hf; lia|]).
  - cbn [map concat convert length]. rewrite (proj2 (Z.ltb_ge _ _)) by lia.
    rewrite put_bytes_ok by (cbn in *; lia). cbn [length app]. rewrite Nat.add_0_r, take_drop. done.
  - cbn [map concat convert] in *. rewrite length_app in *. pose proof (utf16_of_length cp).
    rewrite (proj2 (Z.ltb_lt _ _)) by lia. rewrite (codepoint_of_units cp units (concat (map utf16_of cps) ++ rest)) by (done || by rewrite app_assoc).
    cbn [mbind outcome_bind]. rewrite put_bytes_ok by lia. cbn [mbind outcome_bind].
    replace (i + Z.of_nat (length (utf16_of cp) + length (concat (map utf16_of cps))))
      with (i + Z.of_nat (length (utf16_of cp)) + Z.of_nat (length (concat (map utf16_of cps)))) by lia.
    assert (length (take (Z.to_nat j) utf8 ++ utf8_bytes cp ++ drop (Z.to_nat j + length (utf8_bytes cp)) utf8) = length utf8) as Hlen.
    { rewrite !length_app, length_take, length_drop. lia. }
    rewrite IH; [|lia|lia| |cbn in Hf; lia|lia].
    + symmetry. apply put_bytes_app; [lia|]. rewrite length_app. lia.
    + replace (Z.to_nat (i + Z.of_nat (length (utf16_of cp)))) with (Z.to_nat i + length (utf16_of cp))%nat by lia.
      rewrite <- drop_drop, Hd, <- app_assoc, drop_app_length. done.
Qed.

(** Converting the UTF-16 of a text gives its UTF-8: a decoder that accepts only well-formed
    sequences gets the same characters back, and nothing behind them is written; the
    conversion ends. *)
Theorem utf16_converts_to_utf8 cps rest utf8 :
  Forall scalar cps ->
  let units := concat (map utf16_of cps) in
  (4 * length cps <= length utf8)%nat ->
  exists text, utf16_to_utf8 (units ++ rest) (Z.of_nat (length units)) utf8 = Done (text ++ drop (length text) utf8) /\
    utf8_decode (length text) text = Some cps.
Proof.
  intros Hs units Hl. exists (concat (map utf8_bytes cps)).
  assert (length cps <= length units /\ length cps <= length (concat (map utf8_bytes cps)) <= 4 * length cps)%nat as (Hu & H8).
  { unfold units. clear. induction cps as [|cp cps IH]; [cbn; lia|]. cbn [map concat length]. rewrite !length_app.
    pose proof (utf16_of_length cp). assert (1 <= length (utf8_bytes cp) <= 4)%nat by (unfold utf8_bytes; repeat case_match; cbn; lia). lia. }
  split.
  - unfold utf16_to_utf8. pose proof (convert_run (S (Z.to_nat (Z.of_nat (length units)))) (units ++ rest) cps rest 0 utf8 0) as E.
    fold units in E. change (0 + Z.of_nat (length units)) with (Z.of_nat (length units)) in E. etransitivity; [apply E; done || lia|]. rewrite put_bytes_ok by lia. done.
  - apply utf8_decode_app; [done|lia].
Qed.

(** A high surrogate at the end takes the unit behind the text with it. *)
Theorem lone_surrogate_reads_on utf8 : utf16_to_utf8 [0xD800] 1 utf8 = Fault.
Proof. reflexivity. Qed.

Lemma utf16_converts_to_utf8_witness :
  exists text, utf16_to_utf8 ([0x48; 0x414; 0x20AC; 0xD83D; 0xDE00] ++ [0]) 5 (repeat 0 20) = Done (text ++ drop (length text) (repeat 0 20)) /\
    utf8_decode (length text) text = Some [0x48; 0x414; 0x20AC; 0x1F600].
Proof. apply (utf16_converts_to_utf8 [0x48; 0x414; 0x20AC; 0x1F600]); [repeat constructor; lia|cbn; lia]. Defined.
