(* ===== verification/Pathinfo.v ===== *)
(** * Parts of paths (kernel/src/lib/php/pathinfo.c)

    The directory, the name, the extension of a path and what is in front of it, after
    PHP's function, over the byte memory of Strings.v. *)
From Stdlib Require Import ZArith Lia.
From stdpp Require Import base list numbers.
From S2P Require Import Prelude Bytes Strings.

#[local] Open Scope Z_scope.

Definition PATHINFO_DIRNAME : Z := 0.
Definition PATHINFO_BASENAME : Z := 1.
Definition PATHINFO_EXTENSION : Z := 2.
Definition PATHINFO_FILENAME : Z := 3.

Definition is_slash (c : Z) : bool := (c =? 47) || (c =? 92).
Definition is_dot (c : Z) : bool := c =? 46.

(** [for (i = length - 1; i >= 0; i--) if (test(Path[i])) break;]: negative without a hit. *)
Fixpoint last_where (test : Z -> bool) (mem : list Z) (Path : Z) (length : nat) : outcome Z :=
  match length with
  | O => Done (-1)
  | S i => c ← array_get mem (Path + Z.of_nat i); if test c then Done (Z.of_nat i) else last_where test mem Path i
  end.

(** A slash at the end does not count.  The byte in front of an empty path is looked at. *)
Definition without_slash (mem : list Z) (Path length : Z) : outcome Z :=
  c ← array_get mem (Path + (length - 1)); Done (if is_slash c then length - 1 else length).

(** [info] is the block that the heap has given. *)
Definition pathinfo (mem : list Z) (Path info Mode : Z) : outcome (list Z) :=
  length ← strlen (drop (Z.to_nat Path) mem);
  mem ← memset mem info 0 (length + 1);
  if Mode =? PATHINFO_DIRNAME then
    length ← without_slash mem Path length;
    i ← last_where is_slash mem Path (Z.to_nat length);
    if 0 <=? i then mem ← strncpy mem info Path (Z.to_nat (i + 1)); array_set mem (info + (i + 1)) 0
    else mem ← array_set mem info 47; array_set mem (info + 1) 0
  else if Mode =? PATHINFO_BASENAME then
    length ← without_slash mem Path length;
    i ← last_where is_slash mem Path (Z.to_nat length);
    if 0 <=? i then
      mem ← strncpy mem info (Path + i + 1) (Z.to_nat (length - i)); array_set mem (info + (length - i - 1)) 0
    else strcpy mem info Path
  else if Mode =? PATHINFO_EXTENSION then
    i ← last_where is_dot mem Path (Z.to_nat length);
    if (0 <=? i) && (i <? length - 1) then
      mem ← strncpy mem info (Path + i + 1) (Z.to_nat (length - i)); array_set mem (info + (length - i)) 0
    else array_set mem info 0
  else
    dot_index ← last_where is_dot mem Path (Z.to_nat length);
    if 0 <=? dot_index then mem ← strncpy mem info Path (Z.to_nat dot_index); array_set mem (info + dot_index) 0
    else strcpy mem info Path.

(** ** The parts of a list *)

(** Where the last hit is. *)
Fixpoint last_index (test : Z -> bool) (a : list Z) : option nat :=
  match a with
  | [] => None
  | c :: a' =>
      match last_index test a' with
      | Some i => Some (S i)
      | None => if test c then Some 0%nat else None
      end
  end.

Definition strip (a : list Z) : list Z :=
  match rev a with
  | c :: r => if is_slash c then rev r else a
  | [] => a
  end.

Definition part (Mode : Z) (a : list Z) : list Z :=
  if Mode =? PATHINFO_DIRNAME then
    match last_index is_slash (strip a) with Some i => take (S i) (strip a) | None => [47] end
  else if Mode =? PATHINFO_BASENAME then
    match last_index is_slash (strip a) with Some i => drop (S i) (strip a) | None => a end
  else if Mode =? PATHINFO_EXTENSION then
    match last_index is_dot a with Some i => drop (S i) a | None => [] end
  else
    match last_index is_dot a with Some i => take i a | None => a end.

(** Directory and name make up the path. *)
Lemma parts_of_path a i :
  last_index is_slash (strip a) = Some i -> part PATHINFO_DIRNAME a ++ part PATHINFO_BASENAME a = strip a.
Proof. intros E. unfold part. cbn. rewrite E. apply take_drop. Qed.

Lemma last_index_lt test a i : last_index test a = Some i -> (i < length a)%nat.
Proof.
  revert i. induction a as [|c a IH]; intros i; cbn [last_index length]; [done|].
  destruct (last_index test a) as [j|]; [intros [= <-]; specialize (IH j eq_refl); lia|].
  destruct (test c); [intros [= <-]; lia|done].
Qed.

Lemma last_index_app test a c :
  last_index test (a ++ [c]) = if test c then Some (length a) else last_index test a.
Proof.
  induction a as [|x a IH]; cbn [app last_index length]; [by destruct (test c)|].
  rewrite IH. by destruct (test c).
Qed.

(** The loop finds what the list has. *)
Lemma last_where_spec test mem Path a :
  (forall i c, a !! i = Some c -> mem !! Z.to_nat (Path + Z.of_nat i) = Some c) -> 0 <= Path ->
  last_where test mem Path (length a) = Done (match last_index test a with Some i => Z.of_nat i | None => -1 end).
Proof.
  intros Hat HP. induction a as [|c a IH] using rev_ind; [done|].
  rewrite length_app, Nat.add_1_r, last_index_app. cbn [last_where].
  rewrite (proj2 (array_get_Done mem (Path + Z.of_nat (length a)) c)).
  2:{ split; [lia|]. apply Hat. by rewrite lookup_app_r, Nat.sub_diag by lia. }
  cbn [mbind outcome_bind]. destruct (test c); [done|]. apply IH. intros i x Hx. apply Hat. by apply lookup_app_l_Some.
Qed.

Lemma string_at_char mem s a i x : string_at mem s a -> a !! i = Some x -> mem !! Z.to_nat (s + Z.of_nat i) = Some x.
Proof. intros H Hx. apply H. by apply lookup_app_l_Some. Qed.

Lemma string_at_tail mem s c a : string_at mem s (c :: a) -> string_at mem (s + 1) a.
Proof.
  intros H i x Hx. replace (s + 1 + Z.of_nat i) with (s + Z.of_nat (S i)) by lia. by apply (H (S i)).
Qed.

(** What is written outside of a string leaves it. *)
Lemma string_at_kept mem mem' s a :
  0 <= s -> string_at mem s a ->
  (forall i, s <= i <= s + Z.of_nat (length a) -> mem' !! Z.to_nat i = mem !! Z.to_nat i) -> string_at mem' s a.
Proof.
  intros Hs H Hk i x Hx. rewrite Hk; [by apply H|].
  pose proof (lookup_lt_Some _ _ _ Hx) as Hi. rewrite length_app in Hi. cbn [length] in Hi. lia.
Qed.

(** Copying stops at the terminator or at the count. *)
Lemma strncpy_spec n mem d s a :
  text a -> string_at mem s a -> 0 <= d -> 0 <= s ->
  d + Z.of_nat (Nat.min n (length a)) <= Z.of_nat (length mem) ->
  d + Z.of_nat (Nat.min n (length a)) <= s \/ s + Z.of_nat (length a) + 1 <= d ->
  exists mem', strncpy mem d s n = Done mem' /\ copied mem mem' d s (Z.of_nat (Nat.min n (length a))).
Proof.
  intros Ha. revert n mem d s. induction Ha as [|c a Hc Ha IH]; intros n mem d s Hat Hd Hs Hl Hov;
    (destruct n as [|n]; [exists mem; split; [done|apply copied_nil]|]); cbn [strncpy length Nat.min] in *.
  - pose proof (Hat 0%nat 0 eq_refl) as H0. rewrite Z.add_0_r in H0.
    rewrite (proj2 (array_get_Done mem s 0)) by done. exists mem. split; [done|apply copied_nil].
  - pose proof (Hat 0%nat c eq_refl) as H0. rewrite Z.add_0_r in H0.
    pose proof (lookup_lt_Some _ _ _ H0).
    destruct (copy_byte mem d s) as (x & mem1 & Hget & Hset & Hcp); [lia..|].
    pose proof (proj2 (array_get_Done mem s c) (conj Hs H0)) as E. rewrite E in Hget. injection Hget as <-.
    rewrite E. cbn [mbind outcome_bind]. destruct (Z.eqb_spec c 0); [lia|]. rewrite Hset. cbn [mbind outcome_bind].
    pose proof Hcp as [L1 H1].
    destruct (IH n mem1 (d + 1) (s + 1)) as (mem2 & -> & Hc2); [|lia|lia|rewrite L1; lia|lia|].
    { apply (string_at_kept mem); [lia|by apply string_at_tail in Hat|]. intros i Hi. rewrite H1 by lia. ranges; lia || done. }
    exists mem2. split; [done|]. replace (Z.of_nat (S (Nat.min n (length a)))) with (1 + Z.of_nat (Nat.min n (length a))) by lia.
    apply (copied_app mem mem1); try done; lia.
Qed.

(** ** The block of the result *)

Section Result.
Variables (mem : list Z) (Path info : Z) (a : list Z).
#[local] Abbreviation len := (Z.of_nat (length a)).
Hypothesis characters : text a.
Hypothesis path_there : string_at mem Path a.
Hypothesis Path_positive : 0 <= Path.
Hypothesis info_positive : 0 <= info.
Hypothesis info_inside : info + len + 1 <= Z.of_nat (length mem).
Hypothesis apart : info + len + 1 <= Path \/ Path + len + 1 <= info.

(** Memory in which only the block is different. *)
Definition only_block (mem' : list Z) : Prop :=
  length mem' = length mem /\ forall i, 0 <= i -> i < info \/ info + len < i -> mem' !! Z.to_nat i = mem !! Z.to_nat i.

(** The block is clear: what is copied into it is a string, also without a terminator of
    its own. *)
Definition cleared (mem' : list Z) : Prop :=
  only_block mem' /\ forall i, info <= i <= info + len -> mem' !! Z.to_nat i = Some 0.

Lemma clear_block : exists mem', memset mem info 0 (len + 1) = Done mem' /\ cleared mem'.
Proof.
  destruct (memset_fills mem info 0 (len + 1)) as (mem' & E & Hl & Hf); [lia..|]. exists mem'. split; [done|].
  change (u8 0) with 0 in Hf. split; [split; [done|]|]; intros i; intros; rewrite Hf by lia; ranges; lia || done.
Qed.

Lemma path_kept mem' : only_block mem' -> string_at mem' Path a.
Proof. intros [_ H]. apply (string_at_kept mem); [done..|]. intros i Hi. apply H; lia. Qed.

(** [n] characters from [j] on, cut at [q]. *)
Lemma copy_part mem' j n q :
  cleared mem' -> (j <= length a)%nat -> (n <= S (length a))%nat -> (q <= length a)%nat ->
  exists mem'', (m ← strncpy mem' info (Path + Z.of_nat j) n; array_set m (info + Z.of_nat q) 0) = Done mem'' /\
    only_block mem'' /\ string_at mem'' info (take (Nat.min n q) (drop j a)).
Proof.
  intros [Hb Hz] Hj Hn Hq. pose proof (path_kept _ Hb) as Hp. pose proof Hb as [L0 H0].
  assert (Hd : string_at mem' (Path + Z.of_nat j) (drop j a)).
  { intros i x Hx. replace (Path + Z.of_nat j + Z.of_nat i) with (Path + Z.of_nat (j + i)) by lia. apply Hp.
    destruct (decide (i < length (drop j a))%nat) as [Hi|Hi].
    - rewrite lookup_app_l, lookup_drop in Hx by done. by apply lookup_app_l_Some.
    - rewrite lookup_app_r in Hx by lia. pose proof (lookup_lt_Some _ _ _ Hx) as Hlt. rewrite length_drop in *. cbn [length] in Hlt.
      rewrite lookup_app_r by lia. rewrite <- Hx. f_equal. lia. }
  destruct (strncpy_spec n mem' info (Path + Z.of_nat j) (drop j a)) as (mem1 & -> & L1 & H1);
    [by apply Forall_drop|done|lia|lia|rewrite length_drop, L0; lia|rewrite length_drop; lia|].
  cbn [mbind outcome_bind]. rewrite length_drop in H1.
  destruct (array_set_lookup mem1 (info + Z.of_nat q) 0) as (mem2 & -> & L2 & H2); [lia|].
  exists mem2. split; [done|]. split.
  { split; [lia|]. intros i Hi Ho. rewrite H2, H1 by lia. destruct (Z.eqb_spec i (info + Z.of_nat q)); [lia|].
    rewrite <- H0 by done. ranges; lia || done. }
  intros i x Hx. rewrite H2, H1 by lia.
  destruct (decide (i < length (take (Nat.min n q) (drop j a)))%nat) as [Hi|Hi].
  - rewrite lookup_app_l in Hx by done. rewrite length_take, length_drop in Hi.
    rewrite lookup_take_lt in Hx by lia. destruct (Z.eqb_spec (info + Z.of_nat i) (info + Z.of_nat q)); [lia|].
    ranges; try lia. replace (Path + Z.of_nat j + (info + Z.of_nat i - info)) with (Path + Z.of_nat j + Z.of_nat i) by lia.
    by apply (string_at_char _ _ _ _ _ Hd).
  - rewrite lookup_app_r in Hx by lia. pose proof (lookup_lt_Some _ _ _ Hx) as Hlt. cbn [length] in Hlt.
    rewrite length_take, length_drop in *. replace (i - _)%nat with 0%nat in Hx by lia. injection Hx as <-.
    destruct (Z.eqb_spec (info + Z.of_nat i) (info + Z.of_nat q)); [done|]. ranges; try lia. apply Hz. lia.
Qed.

Lemma copy_all mem' :
  cleared mem' -> exists mem'', strcpy mem' info Path = Done mem'' /\ only_block mem'' /\ string_at mem'' info a.
Proof.
  intros [Hb _]. pose proof (path_kept _ Hb) as Hp. destruct Hb as [L0 H0].
  destruct (strcpy_loop_spec (S (length mem')) mem' info Path a) as (mem2 & E & L2 & H2); try done; try lia.
  exists mem2. split; [done|]. split.
  - split; [lia|]. intros i Hi Ho. rewrite H2, <- H0 by lia. ranges; lia || done.
  - intros i x Hx. pose proof (lookup_lt_Some _ _ _ Hx) as Hlt. rewrite length_app in Hlt. cbn [length] in Hlt.
    rewrite H2 by lia. ranges; try lia. replace (Path + (info + Z.of_nat i - info)) with (Path + Z.of_nat i) by lia. by apply Hp.
Qed.

Lemma store_one mem' c :
  cleared mem' -> a <> [] ->
  exists mem'', (m ← array_set mem' info c; array_set m (info + 1) 0) = Done mem'' /\ only_block mem'' /\ string_at mem'' info [c].
Proof.
  intros [[L0 H0] Hz] Ha. assert (0 < length a)%nat by (destruct a; [done|cbn; lia]).
  destruct (array_set_lookup mem' info c) as (mem1 & -> & L1 & H1); [lia|]. cbn [mbind outcome_bind].
  destruct (array_set_lookup mem1 (info + 1) 0) as (mem2 & -> & L2 & H2); [lia|]. exists mem2. split; [done|]. split.
  - split; [lia|]. intros i Hi Ho. rewrite H2, H1 by lia. destruct (Z.eqb_spec i (info + 1)), (Z.eqb_spec i info); try lia. by apply H0.
  - intros [|[|i]] x Hx; [..|done]; injection Hx as <-; rewrite H2, H1 by lia.
    + destruct (Z.eqb_spec (info + Z.of_nat 0) (info + 1)), (Z.eqb_spec (info + Z.of_nat 0) info); lia || done.
    + destruct (Z.eqb_spec (info + Z.of_nat 1) (info + 1)); lia || done.
Qed.

Lemma store_none mem' :
  cleared mem' -> exists mem'', array_set mem' info 0 = Done mem'' /\ only_block mem'' /\ string_at mem'' info [].
Proof.
  intros [[L0 H0] Hz]. destruct (array_set_lookup mem' info 0) as (mem1 & -> & L1 & H1); [lia|]. exists mem1. split; [done|]. split.
  - split; [lia|]. intros i Hi Ho. rewrite H1 by lia. destruct (Z.eqb_spec i info); [lia|by apply H0].
  - intros [|i] x Hx; [|done]. injection Hx as <-. rewrite H1, Z.add_0_r, Z.eqb_refl by lia. done.
Qed.

Lemma strip_take : a <> [] -> strip a = take (length (strip a)) a /\ (length (strip a) <= length a)%nat.
Proof.
  intros Ha. unfold strip. destruct (rev a) as [|c r] eqn:E; [by rewrite firstn_all|].
  assert (a = rev r ++ [c]) as -> by by rewrite <- (rev_involutive a), E.
  destruct (is_slash c); [rewrite take_app_length, length_app; split; [done|lia]|by rewrite firstn_all].
Qed.

Lemma without_slash_spec mem' :
  string_at mem' Path a -> a <> [] -> without_slash mem' Path len = Done (Z.of_nat (length (strip a))).
Proof.
  intros Hp Ha. unfold without_slash, strip. destruct (rev a) as [|c r] eqn:E.
  { rewrite <- (rev_involutive a), E in Ha. done. }
  assert (Ea : a = rev r ++ [c]) by by rewrite <- (rev_involutive a), E.
  rewrite (proj2 (array_get_Done mem' (Path + (len - 1)) c)).
  - cbn [mbind outcome_bind]. destruct (is_slash c); [|done]. f_equal. rewrite Ea at 1. rewrite length_app. cbn [length]. lia.
  - assert (length a = S (length (rev r))) by (rewrite Ea at 1; rewrite length_app; cbn; lia). split; [lia|].
    replace (Path + (len - 1)) with (Path + Z.of_nat (length (rev r))) by lia. apply (string_at_char mem' Path a); [done|].
    rewrite Ea at 1. by rewrite lookup_app_r, Nat.sub_diag by lia.
Qed.

Lemma last_where_prefix test mem' l :
  string_at mem' Path a -> l = take (length l) a ->
  last_where test mem' Path (Z.to_nat (Z.of_nat (length l))) = Done (match last_index test l with Some i => Z.of_nat i | None => -1 end).
Proof.
  intros Hp El. rewrite Nat2Z.id. apply last_where_spec; [|done]. intros i c Hi. apply (string_at_char mem' Path a); [done|].
  pose proof (lookup_lt_Some _ _ _ Hi). rewrite El in Hi. by rewrite lookup_take_lt in Hi by done.
Qed.

Lemma strlen_path : strlen (drop (Z.to_nat Path) mem) = Done len.
Proof.
  assert (H : forall i x, (a ++ [0]) !! i = Some x -> drop (Z.to_nat Path) mem !! i = Some x).
  { intros i x Hx. rewrite lookup_drop. rewrite <- (path_there i x Hx). f_equal. lia. }
  clear - characters H. revert H. generalize (drop (Z.to_nat Path) mem) as l.
  induction characters as [|c b Hc Hb IH]; intros l H.
  - destruct l as [|x l]; [by specialize (H 0%nat 0 eq_refl)|]. by injection (H 0%nat 0 eq_refl) as ->.
  - destruct l as [|x l]; [by specialize (H 0%nat c eq_refl)|]. injection (H 0%nat c eq_refl) as ->. cbn [strlen].
    destruct (Z.eqb_spec c 0); [lia|]. rewrite (IH Hb l); [|intros i x Hx; exact (H (S i) x Hx)].
    cbn [mbind outcome_bind length]. f_equal. lia.
Qed.

(** [copy_part] for the numbers as the code has them. *)
Lemma copy_at mem' j q src n dst r :
  cleared mem' -> (j <= length a)%nat -> 0 <= n <= len + 1 -> (q <= length a)%nat ->
  src = Path + Z.of_nat j -> dst = info + Z.of_nat q -> r = take (Nat.min (Z.to_nat n) q) (drop j a) ->
  exists mem'', (m ← strncpy mem' info src (Z.to_nat n); array_set m dst 0) = Done mem'' /\
    only_block mem'' /\ string_at mem'' info r.
Proof. intros Hc Hj Hn Hq -> -> ->. apply copy_part; [done..|lia|done]. Qed.

(** The block holds the part of the path that was asked for, and nothing else changes. *)
Theorem pathinfo_part Mode :
  a <> [] ->
  exists mem', pathinfo mem Path info Mode = Done mem' /\ only_block mem' /\ string_at mem' info (part Mode a).
Proof.
  intros Ha. destruct clear_block as (mem1 & E1 & Hc). pose proof (path_kept _ (proj1 Hc)) as Hp.
  destruct (strip_take Ha) as [Es Hs]. pose proof (firstn_all a) as Ea. symmetry in Ea.
  unfold pathinfo. rewrite strlen_path. cbn [mbind outcome_bind]. rewrite E1. cbn [mbind outcome_bind].
  rewrite (without_slash_spec mem1 Hp Ha). cbn [mbind outcome_bind].
  rewrite (last_where_prefix is_slash mem1 (strip a) Hp Es), (last_where_prefix is_dot mem1 a Hp Ea).
  cbn [mbind outcome_bind]. unfold part.
  destruct (Mode =? PATHINFO_DIRNAME); [|destruct (Mode =? PATHINFO_BASENAME)].
  - destruct (last_index is_slash (strip a)) as [i|] eqn:Ei.
    + apply last_index_lt in Ei. rewrite (proj2 (Z.leb_le 0 _)) by lia.
      apply (copy_at mem1 0 (S i)); [done|lia..|]. cbn [drop]. rewrite Es at 1. rewrite take_take. f_equal. lia.
    + by apply store_one.
  - destruct (last_index is_slash (strip a)) as [i|] eqn:Ei.
    + apply last_index_lt in Ei. rewrite (proj2 (Z.leb_le 0 _)) by lia.
      apply (copy_at mem1 (S i) (length (strip a) - i - 1)); [done|lia..|]. rewrite Es at 1. rewrite skipn_firstn_comm. f_equal. lia.
    + by apply copy_all.
  - destruct (last_index is_dot a) as [i|] eqn:Ei.
    + apply last_index_lt in Ei. rewrite (proj2 (Z.leb_le 0 _)) by lia. destruct (Mode =? PATHINFO_EXTENSION).
      * cbn [andb]. destruct (Z.ltb_spec (Z.of_nat i) (len - 1)).
        -- apply (copy_at mem1 (S i) (length a - i)); [done|lia..|]. rewrite firstn_all2; [done|rewrite length_drop; lia].
        -- rewrite drop_ge by lia. by apply store_none.
      * apply (copy_at mem1 0 i); [done|lia..|]. cbn [drop]. f_equal. lia.
    + destruct (Mode =? PATHINFO_EXTENSION); [by apply store_none|by apply copy_all].
Qed.
End Result.

(** Results that PHP's function does not give: the slash stays on a name without a
    directory, a directory keeps its slash, a dot of a directory counts. *)
Lemma pathinfo_not_php :
  part PATHINFO_BASENAME [97; 47] = [97; 47] /\
  part PATHINFO_DIRNAME [47; 97; 47; 98] = [47; 97; 47] /\
  part PATHINFO_EXTENSION [97; 46; 98; 47; 99] = [98; 47; 99] /\
  part PATHINFO_FILENAME [97; 46; 98; 47; 99] = [97].
Proof. done. Qed.

(** A path and a block where the theorem applies. *)
Lemma pathinfo_part_applies :
  let mem := [47; 97; 47; 98; 46; 99; 0] ++ replicate 7 255 in
  exists mem', pathinfo mem 0 7 PATHINFO_BASENAME = Done mem' /\ only_block mem 7 [47; 97; 47; 98; 46; 99] mem' /\
    string_at mem' 7 [98; 46; 99].
Proof.
  intros mem. apply (pathinfo_part mem 0 7 [47; 97; 47; 98; 46; 99]); try (cbn; lia); [|..|done].
  - repeat constructor; lia.
  - apply (string_at_drop mem 0 _ (replicate 7 255)); [lia|done].
Qed.
