(* ===== verification/Boot.v ===== *)
(** * Modules of the boot loader, symbols and stack traces (kernel/src/sys/grub_modules.c, sys/unwind.c)

    The boot loader leaves modules in memory: the initial disk and the table of the
    functions of the kernel, with which a stack is listed by name.  Memory is the list of
    its bytes, addresses are physical; [size_t] has 32 bits. *)
From Stdlib Require Import ZArith Lia String Ascii Sorting.Sorted.
From stdpp Require Import base list numbers strings.
From S2P Require Import Prelude Bytes.
From S2P Require Strings Media Cpu.

#[local] Open Scope Z_scope.
#[local] Abbreviation length := Datatypes.length.

(** ** Modules (sys/grub_modules.c) *)

(** The fields of the header that are used. *)
Record multiboot_header_t := Header { mods_count : Z; mods_addr : Z }.

Record multiboot_module_t := Module_ { mod_start : Z; mod_end : Z; cmdline : Z }.
Definition sizeof_module : Z := 16.

Definition load_module (mem : list Z) (a : Z) : outcome multiboot_module_t :=
  s ← load32 mem a; e ← load32 mem (a + 4); c ← load32 mem (a + 8); Done (Module_ s e c).

(** The address of module [i]; the index wraps when there are none. *)
Definition module_at (hdr : multiboot_header_t) (i : Z) : Z := u32 (mods_addr hdr + sizeof_module * u32 i).

(** [grub_last_module_end]. *)
Definition grub_modules_prescan (mem : list Z) (hdr : multiboot_header_t) : outcome Z :=
  m ← load_module mem (module_at hdr (mods_count hdr - 1)); Done (mod_end m).

Record boot := Boot {
  NOCTURNE_ksym_data_start : Z;
  NOCTURNE_ksym_data_end : Z;
  memory_disks : list (string * Media.memdisk_t)
}.

(** How the disk manager makes an identifier from a prefix, by the disks there are. *)
Definition id_maker := list (string * Media.memdisk_t) -> string -> string.

Definition init_module (generate : id_maker) (mem : list Z) (m : multiboot_module_t) (b : boot) : outcome boot :=
  let name := drop (Z.to_nat (cmdline m)) mem in
  d ← Strings.strcmp name (Cpu.c_string "initrd_tarfs");
  let b1 :=
    if d =? 0 then
      match Media.initrd_tarfs (generate (memory_disks b)) 0 (mod_start m) (mod_end m) with
      | Some disk => Boot (NOCTURNE_ksym_data_start b) (NOCTURNE_ksym_data_end b) (memory_disks b ++ [disk])
      | None => b
      end
    else b in
  k ← Strings.strcmp name (Cpu.c_string "ksym");
  Done (if k =? 0 then Boot (mod_start m) (mod_end m) (memory_disks b1) else b1).

Fixpoint modules_loop (n : nat) (i : Z) (generate : id_maker) (mem : list Z) (hdr : multiboot_header_t) (b : boot) : outcome boot :=
  match n with
  | O => Done b
  | S n' =>
      m ← load_module mem (module_at hdr i);
      b' ← init_module generate mem m b;
      modules_loop n' (i + 1) generate mem hdr b'
  end.

Definition grub_modules_init (generate : id_maker) (mem : list Z) (hdr : multiboot_header_t) (b : boot) : outcome boot :=
  modules_loop (Z.to_nat (mods_count hdr)) 0 generate mem hdr b.

(** ** Symbols (sys/unwind.c) *)

Definition sizeof_temp_funcname : nat := 512.

(** An entry: the address, the length of the name and the name. *)
Fixpoint symbol_loop (fuel : nat) (mem : list Z) (data_end addr temp : Z) (temp_funcname : list Z) : outcome (bool * list Z) :=
  match fuel with
  | O => Hang
  | S fuel' =>
      current_addr ← load32 mem temp;
      namelen ← array_get mem (temp + 4);
      name ← get_bytes mem (temp + 5) namelen;
      copied ← put_bytes temp_funcname 0 name;
      ended ← array_set copied namelen 0;
      let next := temp + 5 + namelen in
      next_addr ← load32 mem next;
      if (current_addr <=? addr) && (addr <? next_addr) then Done (true, ended)
      else if next <? data_end then symbol_loop fuel' mem data_end addr next ended
      else Done (false, ended)
  end.

(** The answer, and the buffer with the name; an entry has at least five bytes, so the
    size of the table bounds the rounds. *)
Definition get_func_name_by_addr (mem : list Z) (b : boot) (addr : Z) (temp_funcname : list Z) : outcome (bool * list Z) :=
  if NOCTURNE_ksym_data_start b =? 0 then Done (false, temp_funcname)
  else
    symbol_loop (S (Z.to_nat (NOCTURNE_ksym_data_end b - NOCTURNE_ksym_data_start b))) mem (NOCTURNE_ksym_data_end b) addr
      (NOCTURNE_ksym_data_start b) temp_funcname.

(** What is printed of a buffer: the characters up to the terminator. *)
Fixpoint printed (l : list Z) : list Z := match l with [] => [] | c :: l' => if c =? 0 then [] else c :: printed l' end.

(** The lines of the trace: frame, return address and name, [None] for "???". *)
Fixpoint unwind_loop (n : nat) (mem : list Z) (b : boot) (frame stk : Z) (temp_funcname : list Z)
    : outcome (list (Z * Z * option (list Z)) * list Z) :=
  match n with
  | O => Done ([], temp_funcname)
  | S n' =>
      if stk =? 0 then Done ([], temp_funcname)
      else
        eip ← load32 mem (stk + 4);
        '(exists_, temp_funcname) ← get_func_name_by_addr mem b eip temp_funcname;
        ebp ← load32 mem stk;
        '(lines, temp_funcname') ← unwind_loop n' mem b (frame + 1) ebp temp_funcname;
        Done ((frame, eip, if exists_ : bool then Some (printed temp_funcname) else None) :: lines, temp_funcname')
  end.

(** [stk] is the frame pointer of the caller. *)
Definition unwind_stack (mem : list Z) (b : boot) (max_frames stk : Z) (temp_funcname : list Z) :=
  unwind_loop (Z.to_nat max_frames) mem b 0 stk temp_funcname.

(** ** The same table, the other way round (rust/noct-ksymparser/src/lib.rs) *)

(** A slice that reaches behind the table panics: [Fault]. *)
Fixpoint resolve_loop (fuel : nat) (symbols name : list Z) (index : Z) : outcome (option Z) :=
  match fuel with
  | O => Hang
  | S fuel' =>
      if index <? Z.of_nat (length symbols) then
        address ← load32 symbols index;
        namelen ← array_get symbols (index + 4);
        sym_name ← get_bytes symbols (index + 5) namelen;
        if bool_decide (sym_name = name) then Done (Some address)
        else resolve_loop fuel' symbols name (index + (4 + 1 + namelen))
      else Done None
  end.

Definition symbols (mem : list Z) (b : boot) : outcome (option (list Z)) :=
  if (NOCTURNE_ksym_data_start b =? 0) || (NOCTURNE_ksym_data_end b =? 0) then Done None
  else
    l ← get_bytes mem (NOCTURNE_ksym_data_start b) (NOCTURNE_ksym_data_end b - NOCTURNE_ksym_data_start b);
    Done (Some l).

Definition resolve (mem : list Z) (b : boot) (name : list Z) : outcome (option Z) :=
  s ← symbols mem b;
  match s with
  | None => Done None
  | Some l => resolve_loop (S (length l)) l name 0
  end.

(** ** The table *)

(** What a table holds: the functions and their names. *)
Definition encode (e : Z * list Z) : list Z := bytes32 (fst e) ++ [Z.of_nat (length (snd e))] ++ snd e.
Definition table (es : list (Z * list Z)) : list Z := concat (map encode es).

Definition entry_ok (e : Z * list Z) : Prop := 0 <= fst e < 2 ^ 32 /\ Strings.text (snd e) /\ (length (snd e) < 256)%nat.

Definition first (es : list (Z * list Z)) (next : Z) : Z := match es with [] => next | (a, _) :: _ => a end.

(** The name for an address: that of the first entry that starts at or before it and whose
    successor starts behind it; [next] is the word behind the table. *)
Fixpoint owner (es : list (Z * list Z)) (next addr : Z) : option (list Z) :=
  match es with
  | [] => None
  | (a, n) :: es' => if (a <=? addr) && (addr <? first es' next) then Some n else owner es' next addr
  end.

(** The table is at [start], [next] behind it. *)
Record table_at (mem : list Z) (start : Z) (es : list (Z * list Z)) (next : Z) (rest : list Z) : Prop := TableAt {
  ta_start : 0 <= start;
  ta_bytes : drop (Z.to_nat start) mem = table es ++ bytes32 next ++ rest;
  ta_ok : Forall entry_ok es;
  ta_next : 0 <= next < 2 ^ 32
}.

Lemma load32_at mem a x rest : 0 <= a -> 0 <= x < 2 ^ 32 -> drop (Z.to_nat a) mem = bytes32 x ++ rest -> load32 mem a = Done x.
Proof.
  intros Ha Hx Hd. unfold load32.
  assert (forall k y, (bytes32 x ++ rest) !! k = Some y -> array_get mem (a + Z.of_nat k) = Done y) as Hget.
  { intros k y Hk. apply array_get_Done. split; [lia|]. rewrite <- Hd, lookup_drop in Hk. by replace (Z.to_nat (a + Z.of_nat k)) with (Z.to_nat a + k)%nat by lia. }
  pose proof (Hget 0%nat _ eq_refl) as G0. rewrite Z.add_0_r in G0.
  pose proof (Hget 1%nat _ eq_refl) as G1. pose proof (Hget 2%nat _ eq_refl) as G2. pose proof (Hget 3%nat _ eq_refl) as G3.
  change (Z.of_nat 1) with 1 in G1. change (Z.of_nat 2) with 2 in G2. change (Z.of_nat 3) with 3 in G3.
  rewrite G0, G1, G2, G3. cbn [mbind outcome_bind]. f_equal.
  Z.to_euclidean_division_equations; lia.
Qed.

Lemma table_first mem a es next rest :
  0 <= a -> Forall entry_ok es -> 0 <= next < 2 ^ 32 -> drop (Z.to_nat a) mem = table es ++ bytes32 next ++ rest ->
  load32 mem a = Done (first es next).
Proof.
  intros Ha Hes Hn Hd. destruct Hes as [|[x n] es (Hx & _) _]; [by apply (load32_at _ _ _ rest)|].
  cbn [table map concat encode fst snd first] in *. rewrite <- !app_assoc in Hd. exact (load32_at _ _ _ _ Ha Hx Hd).
Qed.

Lemma encode_length e : length (encode e) = (5 + length (snd e))%nat.
Proof. unfold encode. rewrite !length_app. reflexivity. Qed.

(** One entry is read as it was written. *)
Lemma read_entry mem a e rest :
  0 <= a -> entry_ok e -> drop (Z.to_nat a) mem = encode e ++ rest ->
  load32 mem a = Done (fst e) /\ array_get mem (a + 4) = Done (Z.of_nat (length (snd e))) /\
  get_bytes mem (a + 5) (Z.of_nat (length (snd e))) = Done (snd e) /\
  drop (Z.to_nat (a + 5 + Z.of_nat (length (snd e)))) mem = rest.
Proof.
  intros Ha (Hx & _) Hd. unfold encode in Hd. rewrite <- !app_assoc in Hd.
  pose proof (f_equal length Hd) as Hl. rewrite length_drop, !length_app in Hl. change (length (bytes32 (fst e))) with 4%nat in Hl. cbn [length] in Hl.
  split; [exact (load32_at _ _ _ _ Ha Hx Hd)|]. split; [|split].
  - apply array_get_Done. split; [lia|]. replace (Z.to_nat (a + 4)) with (Z.to_nat a + 4)%nat by lia. by rewrite <- lookup_drop, Hd.
  - rewrite get_bytes_ok by lia. replace (Z.to_nat (a + 5)) with (Z.to_nat a + 5)%nat by lia. rewrite <- drop_drop, Hd.
    rewrite Nat2Z.id. cbn [bytes32 app drop]. by rewrite drop_0, take_app_length.
  - replace (Z.to_nat (a + 5 + Z.of_nat (length (snd e)))) with (Z.to_nat a + (5 + length (snd e)))%nat by lia.
    rewrite <- drop_drop, Hd. cbn [bytes32 app drop Nat.add]. by rewrite drop_app_length.
Qed.

Lemma printed_text n rest : Strings.text n -> printed (n ++ 0 :: rest) = n.
Proof.
  induction 1 as [|c n Hc Hn IH]; [done|]. cbn [app printed]. rewrite (proj2 (Z.eqb_neq _ _)) by lia. by rewrite IH.
Qed.

(** The name goes to the buffer with its terminator. *)
Lemma name_copied buf n :
  length buf = sizeof_temp_funcname -> Strings.text n -> (length n < 256)%nat ->
  exists copied ended, put_bytes buf 0 n = Done copied /\ array_set copied (Z.of_nat (length n)) 0 = Done ended /\
    length ended = sizeof_temp_funcname /\ printed ended = n.
Proof.
  intros Hb Ht Hn. unfold sizeof_temp_funcname in Hb. pose proof (put_bytes_ok buf 0 n ltac:(lia) ltac:(lia)) as E. cbn [Z.to_nat take app Nat.add] in E.
  eexists. destruct (drop (length n) buf) as [|y l] eqn:Ed.
  { apply (f_equal length) in Ed. rewrite length_drop in Ed. cbn in Ed. lia. }
  exists (n ++ 0 :: l). split; [exact E|]. assert (length (n ++ y :: l) = length buf) as Hlen.
  { rewrite <- Ed, length_app, length_drop. lia. }
  split; [|split].
  - change (array_set (n ++ drop (length n) buf) (Z.of_nat (length n)) 0 = Done (n ++ 0 :: l)). rewrite Ed, array_set_in_range by lia. f_equal. rewrite Nat2Z.id, insert_app_r_alt by done. by rewrite Nat.sub_diag.
  - rewrite length_app in Hlen |- *. cbn [length] in *. unfold sizeof_temp_funcname. lia.
  - by apply printed_text.
Qed.

Lemma symbol_loop_run es mem fuel temp next rest addr buf :
  es <> [] -> 0 <= temp -> Forall entry_ok es -> 0 <= next < 2 ^ 32 -> drop (Z.to_nat temp) mem = table es ++ bytes32 next ++ rest ->
  length buf = sizeof_temp_funcname -> (length es <= fuel)%nat ->
  exists ended, symbol_loop fuel mem (temp + Z.of_nat (length (table es))) addr temp buf = Done (bool_decide (is_Some (owner es next addr)), ended) /\
    length ended = sizeof_temp_funcname /\ (forall n, owner es next addr = Some n -> printed ended = n).
Proof.
  intros Hne Ht Hes Hn. revert fuel temp buf Hne Ht. induction Hes as [|[a n] es He Hes IH]; intros fuel temp buf Hne Ht Hd Hb Hf; [done|].
  destruct fuel as [|fuel]; [cbn in Hf; lia|]. cbn [table map concat] in *. rewrite <- app_assoc in Hd.
  destruct (read_entry _ _ _ _ Ht He Hd) as (R1 & R2 & R3 & R4). cbn [fst snd] in *.
  destruct He as (Ha & Htx & Hl). cbn [fst snd] in *.
  destruct (name_copied buf n Hb Htx Hl) as (c & d & E1 & E2 & Hld & Hpd).
  set (next_temp := temp + 5 + Z.of_nat (length n)) in *.
  assert (0 <= next_temp) as Hnt by (unfold next_temp; lia).
  cbn [symbol_loop]. rewrite R1, R2. cbn [mbind outcome_bind]. rewrite R3. cbn [mbind outcome_bind].
  rewrite E1. cbn [mbind outcome_bind]. rewrite E2. cbn [mbind outcome_bind]. fold next_temp.
  rewrite (table_first mem next_temp es next rest) by done. cbn [mbind outcome_bind owner].
  destruct ((a <=? addr) && (addr <? first es next)) eqn:Eh.
  { exists d. rewrite bool_decide_true by done. split; [done|]. split; [done|]. intros n' [= <-]. done. }
  fold (table es) in *. rewrite length_app, encode_length. cbn [snd].
  replace (temp + Z.of_nat (5 + length n + length (table es))) with (next_temp + Z.of_nat (length (table es))) by (unfold next_temp; lia).
  destruct es as [|e' es].
  - cbn [table map concat length owner]. rewrite Z.add_0_r, Z.ltb_irrefl. exists d.
    rewrite bool_decide_false by (by intros [? ?]). done.
  - rewrite (proj2 (Z.ltb_lt _ _)).
    + apply IH; [done|done|done|done|cbn in Hf |- *; lia].
    + cbn [table map concat]. rewrite length_app, encode_length. lia.
Qed.

Definition loaded (b : boot) (start : Z) (es : list (Z * list Z)) : Prop :=
  NOCTURNE_ksym_data_start b = start /\ NOCTURNE_ksym_data_end b = start + Z.of_nat (length (table es)).

Lemma table_length es : (length es <= length (table es))%nat.
Proof. induction es as [|e es IH]; [done|]. cbn [table map concat]. rewrite length_app, encode_length. cbn [length]. fold (table es). lia. Qed.

Lemma func_name_run mem b start es next rest addr buf :
  table_at mem start es next rest -> loaded b start es -> start <> 0 -> es <> [] -> length buf = sizeof_temp_funcname ->
  exists ended, get_func_name_by_addr mem b addr buf = Done (bool_decide (is_Some (owner es next addr)), ended) /\
    length ended = sizeof_temp_funcname /\ (forall n, owner es next addr = Some n -> printed ended = n).
Proof.
  intros [H0 Hd Hok Hn] [Es Ee] Hs Hne Hb. unfold get_func_name_by_addr. rewrite Es, Ee, (proj2 (Z.eqb_neq _ _)) by done.
  pose proof (table_length es). apply (symbol_loop_run es mem _ start next rest addr buf); try done. lia.
Qed.

(** Tables are sorted by address. *)
Definition in_order (es : list (Z * list Z)) : Prop := StronglySorted (fun x y => fst x <= fst y) es.

Lemma owner_in_order es next i a n addr :
  in_order es -> es !! i = Some (a, n) -> a <= addr < first (drop (S i) es) next -> owner es next addr = Some n.
Proof.
  intros Hs. revert i. induction Hs as [|[a0 n0] es Hs IH Hall]; intros i Hi Ha; [done|]. destruct i as [|i]; cbn [lookup list_lookup drop owner] in *.
  - injection Hi as -> ->. rewrite (proj2 (Z.leb_le _ _)), (proj2 (Z.ltb_lt _ _)) by (rewrite drop_0 in Ha; lia). done.
  - assert (first es next <= a) as Hle.
    { destruct es as [|[a1 n1] es]; [done|]. destruct i as [|i]; [by injection Hi as -> ->|].
      apply StronglySorted_inv in Hs as [_ Hs]. rewrite list.Forall_forall in Hs. cbn [first].
      apply (Hs (a, n)). by eapply list_elem_of_lookup_2. }
    rewrite (proj2 (Z.ltb_ge addr (first es next))), andb_false_r by lia. by eapply IH.
Qed.

Lemma resolve_loop_run es pre i a n fuel :
  Forall entry_ok es -> es !! i = Some (a, n) -> (forall j e, (j < i)%nat -> es !! j = Some e -> snd e <> n) -> (i < fuel)%nat ->
  resolve_loop fuel (pre ++ table es) n (Z.of_nat (length pre)) = Done (Some a).
Proof.
  intros Hes. revert pre i fuel. induction Hes as [|e es He Hes IH]; intros pre i fuel Hi Hd Hf; [done|].
  destruct fuel as [|fuel]; [lia|]. cbn [table map concat resolve_loop].
  assert (drop (Z.to_nat (Z.of_nat (length pre))) (pre ++ encode e ++ table es) = encode e ++ table es) as Hdr by (by rewrite Nat2Z.id, drop_app_length).
  destruct (read_entry _ _ _ _ (Zle_0_nat (length pre)) He Hdr) as (R1 & R2 & R3 & _).
  rewrite (proj2 (Z.ltb_lt _ _)) by (rewrite !length_app, encode_length; lia).
  fold (table es). rewrite R1. cbn [mbind outcome_bind]. rewrite R2. cbn [mbind outcome_bind]. rewrite R3. cbn [mbind outcome_bind].
  destruct i as [|i].
  - injection Hi as ->. by rewrite bool_decide_true.
  - rewrite bool_decide_false by (apply (Hd 0%nat); [lia|done]).
    specialize (IH (pre ++ encode e) i fuel Hi). rewrite length_app, encode_length, <- app_assoc in IH.
    replace (Z.of_nat (length pre) + (4 + 1 + Z.of_nat (length (snd e)))) with (Z.of_nat (length pre + (5 + length (snd e)))) by lia.
    apply IH; [|lia]. intros j x Hj Hx. apply (Hd (S j)); [lia|done].
Qed.

Lemma resolve_run mem b start es next rest i a n :
  table_at mem start es next rest -> loaded b start es -> start <> 0 -> es !! i = Some (a, n) ->
  (forall j e, (j < i)%nat -> es !! j = Some e -> snd e <> n) -> resolve mem b n = Done (Some a).
Proof.
  intros [H0 Hd Hok Hn] [Es Ee] Hs Hi Hdist. pose proof (table_length es) as Htl. pose proof (lookup_lt_Some _ _ _ Hi) as Hlt.
  pose proof (f_equal length Hd) as Hl. rewrite length_drop, !length_app in Hl. change (length (bytes32 next)) with 4%nat in Hl.
  unfold resolve, symbols. rewrite Es, Ee. rewrite !(proj2 (Z.eqb_neq _ _)) by lia. cbn [orb].
  rewrite get_bytes_ok by lia. cbn [mbind outcome_bind]. rewrite Hd.
  replace (Z.to_nat (start + Z.of_nat (length (table es)) - start)) with (length (table es)) by lia. rewrite take_app_length.
  apply (resolve_loop_run es [] i a n (S (length (table es))) Hok Hi Hdist). lia.
Qed.


(** *** The stack *)

(** The frames from [stk] on return to [eips], up to the frame whose link is 0. *)
Fixpoint frames (mem : list Z) (stk : Z) (eips : list Z) : Prop :=
  match eips with
  | [] => stk = 0
  | eip :: eips' => stk <> 0 /\ load32 mem (stk + 4) = Done eip /\ exists ebp, load32 mem stk = Done ebp /\ frames mem ebp eips'
  end.

Lemma unwind_loop_run n mem b start es next rest frame stk eips buf :
  table_at mem start es next rest -> loaded b start es -> start <> 0 -> es <> [] -> length buf = sizeof_temp_funcname ->
  frames mem stk eips ->
  exists buf', unwind_loop n mem b frame stk buf = Done (imap (fun k eip => (frame + Z.of_nat k, eip, owner es next eip)) (take n eips), buf').
Proof.
  intros Ht Hl Hs Hne. revert frame stk eips buf. induction n as [|n IH]; intros frame stk eips buf Hb Hf; [by exists buf|].
  destruct eips as [|eip eips]; cbn [frames] in Hf; cbn [unwind_loop].
  - subst stk. by exists buf.
  - destruct Hf as (Hne0 & He & ebp & Hebp & Hf). rewrite (proj2 (Z.eqb_neq _ _)), He by done. cbn [mbind outcome_bind].
    destruct (func_name_run mem b start es next rest eip buf) as (d & -> & Hd & Hp); try done. cbn [mbind outcome_bind]. rewrite Hebp. cbn [mbind outcome_bind].
    destruct (IH (frame + 1) ebp eips d Hd Hf) as (buf' & ->). cbn [mbind outcome_bind]. exists buf'. cbn [take imap]. do 2 f_equal. f_equal.
    + rewrite Z.add_0_r. f_equal. destruct (owner es next eip) as [nm|] eqn:E; cbn; [by rewrite (Hp nm)|done].
    + apply imap_ext. intros k x _. cbn. do 2 f_equal. lia.
Qed.

(** A stack trace names the function of each return address, up to the wanted number of
    frames. *)
Theorem unwind_names_frames mem b start es next rest max_frames stk eips buf :
  table_at mem start es next rest -> loaded b start es -> start <> 0 -> es <> [] -> length buf = sizeof_temp_funcname ->
  frames mem stk eips ->
  exists buf', unwind_stack mem b max_frames stk buf =
    Done (imap (fun k eip => (Z.of_nat k, eip, owner es next eip)) (take (Z.to_nat max_frames) eips), buf').
Proof. intros. by eapply unwind_loop_run. Qed.

(** The last function of a table is known only by what follows the module in memory. *)
Theorem last_function_needs_next_word es a n next addr :
  in_order (es ++ [(a, n)]) -> a <= addr -> next <= addr -> owner (es ++ [(a, n)]) next addr = None.
Proof.
  intros Hs Ha Hn. induction es as [|[a0 n0] es IH]; cbn [app owner] in *.
  - cbn [first]. by rewrite (proj2 (Z.ltb_ge _ _)), andb_false_r by lia.
  - apply StronglySorted_inv in Hs as [Hs _]. rewrite IH by done.
    assert (first (es ++ [(a, n)]) next <= addr) as Hle.
    { destruct es as [|[a1 n1] es]; [done|]. apply StronglySorted_inv in Hs as [_ Hs]. rewrite list.Forall_forall in Hs.
      pose proof (Hs (a, n) ltac:(apply elem_of_app; right; apply list_elem_of_singleton; done)). cbn [app first fst] in *. lia. }
    by rewrite (proj2 (Z.ltb_ge _ _)), andb_false_r by lia.
Qed.

(** *** Modules *)

Definition name_of (s : string) : list Z := map (fun c => Z.of_nat (nat_of_ascii c)) (list_ascii_of_string s).

(** Module [m] is called [n]. *)
Definition called (mem : list Z) (m : multiboot_module_t) (n : list Z) : Prop :=
  Strings.text n /\ exists rest, drop (Z.to_nat (cmdline m)) mem = Strings.cstr n rest.

(** What a module adds. *)
Definition added (generate : id_maker) (m : multiboot_module_t) (n : list Z) (b : boot) : boot :=
  if decide (n = name_of "initrd_tarfs") then
    match Media.initrd_tarfs (generate (memory_disks b)) 0 (mod_start m) (mod_end m) with
    | Some disk => Boot (NOCTURNE_ksym_data_start b) (NOCTURNE_ksym_data_end b) (memory_disks b ++ [disk])
    | None => b
    end
  else if decide (n = name_of "ksym") then Boot (mod_start m) (mod_end m) (memory_disks b)
  else b.

Lemma strcmp_is mem m n s :
  called mem m n -> Strings.text (name_of s) ->
  exists d, Strings.strcmp (drop (Z.to_nat (cmdline m)) mem) (Cpu.c_string s) = Done d /\ (d = 0 <-> n = name_of s).
Proof.
  intros (Ht & rest & ->) Hs. exact (Strings.strcmp_cstr n (name_of s) rest [] Ht Hs).
Qed.

Lemma init_module_run generate mem m n b : called mem m n -> init_module generate mem m b = Done (added generate m n b).
Proof.
  intros Hc. unfold init_module, added.
  destruct (strcmp_is mem m n "initrd_tarfs" Hc) as (d & -> & Hd); [by repeat constructor|]. cbn [mbind outcome_bind].
  destruct (strcmp_is mem m n "ksym" Hc) as (k & -> & Hk); [by repeat constructor|]. cbn [mbind outcome_bind].
  destruct (decide (n = name_of "initrd_tarfs")) as [E|E]; destruct (Z.eqb_spec d 0) as [Ed|Ed]; try tauto;
    destruct (decide (n = name_of "ksym")) as [E'|E']; destruct (Z.eqb_spec k 0) as [Ek|Ek]; try tauto.
  rewrite E in E'. discriminate E'.
Qed.

(** The modules of the list, in order, each with what it is called. *)
Definition module_list (mem : list Z) (hdr : multiboot_header_t) (ms : list (multiboot_module_t * list Z)) : Prop :=
  mods_count hdr = Z.of_nat (length ms) /\
  forall i m n, ms !! i = Some (m, n) -> load_module mem (module_at hdr (Z.of_nat i)) = Done m /\ called mem m n.

(** Every module that the boot loader has left is used by its name: initial disks are
    registered in their order, the last table of symbols counts, others are left alone. *)
Theorem modules_are_used generate mem hdr ms b :
  module_list mem hdr ms ->
  grub_modules_init generate mem hdr b = Done (fold_left (fun b mn => added generate (fst mn) (snd mn) b) ms b).
Proof.
  intros [Hn Hms]. unfold grub_modules_init. rewrite Hn, Nat2Z.id.
  assert (forall ms i b, (forall k m n, ms !! k = Some (m, n) -> load_module mem (module_at hdr (i + Z.of_nat k)) = Done m /\ called mem m n) ->
    modules_loop (length ms) i generate mem hdr b = Done (fold_left (fun b mn => added generate (fst mn) (snd mn) b) ms b)) as Hloop.
  { clear. induction ms as [|[m n] ms IH]; intros i b H; [done|]. cbn [length modules_loop fold_left fst snd].
    destruct (H 0%nat m n eq_refl) as [Hl Hc]. rewrite Z.add_0_r in Hl. rewrite Hl. cbn [mbind outcome_bind].
    rewrite (init_module_run _ _ _ _ _ Hc). cbn [mbind outcome_bind]. apply IH. intros k m' n' Hk.
    destruct (H (S k) m' n' Hk) as [Hl' Hc']. split; [|done]. by replace (i + 1 + Z.of_nat k) with (i + Z.of_nat (S k)) by lia. }
  apply Hloop. intros k m n Hk. rewrite Z.add_0_l. by apply Hms.
Qed.

(** Without modules the scan for the end of the last one reads in front of the list. *)
Theorem prescan_without_modules addr : 16 <= addr < 2 ^ 32 -> module_at (Header 0 addr) (0 - 1) = addr - 16.
Proof. intros H. unfold module_at, sizeof_module, u32. cbn [mods_addr]. change (2 ^ 32) with 4294967296 in *. Z.to_euclidean_division_equations. lia. Qed.

(** ** An example *)

Definition sample_table : list (Z * list Z) := [(0x1000, [97; 98]); (0x2000, [99])].
Definition sample_memory : list Z := replicate 8 0 ++ table sample_table ++ bytes32 0x3000.
Definition sample_boot : boot := Boot 8 21 [].

