(* ===== verification/Ac97.v ===== *)
(** * Sound card (kernel/src/drv/audio/ac97.c)

    The card plays one buffer of 128 KiB, described to it by 32 entries, over and over; the
    driver fills it, starts it and waits.  Registers are ports, the buffer is memory that
    the card reads by its physical addresses. *)
From Stdlib Require Import ZArith Lia.
From stdpp Require Import base list numbers.
From S2P Require Import Prelude Bytes Ports.

#[local] Open Scope Z_scope.

Definition AC97_MIN_RATE : Z := 8000.
Definition AC97_MAX_RATE : Z := 48000.
Definition NAM_RESET : Z := 0x00.
Definition NAM_SET_MASTER_VOLUME : Z := 0x02.
Definition NAM_SET_PCM_VOLUME : Z := 0x18.
Definition NAM_EXTENDED_ID : Z := 0x28.
Definition NAM_EXTENDED_AUDIO : Z := 0x2A.
Definition NAM_SAMPLE_RATE : Z := 0x2C.
Definition NABM_PCM_OUT : Z := 0x10.
Definition NABM_GLOBAL_CONTROL : Z := 0x2C.
Definition NABM_GLOBAL_STATUS : Z := 0x30.
Definition AUDIO_BUFFER_SIZE : Z := 128 * 1024.

Record AC97_BDL_t := Bdl { memory_pos : Z; sample_count : Z; flags : Z }.

Record ac97 := Ac97 {
  ac97_initialized : bool;
  ac97_varibale_sample_rate : bool;
  native_audio_mixer : Z;
  native_audio_bus_master : Z;
  ac97_buffer : list AC97_BDL_t;
  ac97_audio_buffer : Z;
  ac97_lvi : Z
}.

(** The driver and the machine. *)
Record sound (D : Type) := Sound { card : ac97; machine : D }.
Arguments Sound {D} _ _.
Arguments card {D} _.
Arguments machine {D} _.

Section Driver.
Context {D : Type} `{Dports : PortIO D} `{Dmem : PhysMem D}.
(** Virtual to physical addresses in the kernel's page directory. *)
Variable v2p : Z -> Z.
(** Where [ac97_buffer], which is mapped one to one, is. *)
Variable bdl_address : Z.
(** Polls after which a wait counts as endless. *)
Variable polls : nat.

#[local] Abbreviation M := (IO (sound D)).

Definition driver : M ac97 := fun s => Done (card s, s).
Definition update (f : ac97 -> ac97) : M unit := fun s => Done (tt, Sound (f (card s)) (machine s)).
Definition on_machine {A} (m : IO D A) : M A := fun s =>
  match m (machine s) with
  | Done (a, d) => Done (a, Sound (card s) d)
  | Hang => Hang
  | Fault => Fault
  end.

Definition mixer_outw (r v : Z) : M unit := c ← driver; on_machine (outw (native_audio_mixer c + r) v).
Definition mixer_inw (r : Z) : M Z := c ← driver; on_machine (inw (native_audio_mixer c + r)).
Definition bus_outb (r v : Z) : M unit := c ← driver; on_machine (outb (native_audio_bus_master c + r) v).
Definition bus_inb (r : Z) : M Z := c ← driver; on_machine (inb (native_audio_bus_master c + r)).
Definition bus_outl (r v : Z) : M unit := c ← driver; on_machine (outl (native_audio_bus_master c + r) v).
Definition bus_inl (r : Z) : M Z := c ← driver; on_machine (inl (native_audio_bus_master c + r)).

(** ** Volume and rate *)

Definition volume (high low mask : Z) (mute : bool) : Z :=
  Z.lor (Z.lor (Z.land low mask) (Z.shiftl (Z.land high mask) 8)) (Z.shiftl (Z.b2z mute) 15).

Definition ac97_set_master_volume (left right : Z) (mute : bool) : M unit :=
  mixer_outw NAM_SET_MASTER_VOLUME (volume left right 63 mute).

(** The right channel is the first parameter here. *)
Definition ac97_set_pcm_volume (right left : Z) (mute : bool) : M unit :=
  mixer_outw NAM_SET_PCM_VOLUME (volume left right 31 mute).

Definition ac97_set_pcm_sample_rate (sample_rate : Z) : M unit :=
  c ← driver;
  if negb (ac97_varibale_sample_rate c) || (AC97_MAX_RATE <? sample_rate) || (sample_rate <? AC97_MIN_RATE) then mret tt
  else mixer_outw NAM_SAMPLE_RATE sample_rate.

(** [((100 - left) * 63) / 100] in [int], then in the [uint8_t] of the callee. *)
Definition attenuation (level full : Z) : Z := u8 (Z.quot ((100 - level) * full) 100).

Definition ac97as_set_volume (left right : Z) : M unit :=
  _ ← ac97_set_master_volume (attenuation left 63) (attenuation right 63) false;
  ac97_set_pcm_volume (attenuation left 31) (attenuation right 31) false.

Definition ac97as_set_rate (rate : Z) : M unit := ac97_set_pcm_sample_rate (u16 rate).

(** ** The bus master *)

Definition yield : M unit := on_machine (sleep_ms 0).

Fixpoint reset_wait (n : nat) : M unit :=
  match n with
  | O => hang
  | S n' => b ← bus_inb 0x1b; if Z.land b 0x02 =? 0 then mret tt else _ ← yield; reset_wait n'
  end.
Definition ac97_reset_channel : M unit :=
  input ← bus_inb 0x1b; _ ← bus_outb 0x1b (Z.lor input 0x02); reset_wait polls.

Definition ac97_clear_status_register : M unit := bus_outb 0x16 0x1C.
Definition ac97_update_bdl : M unit := bus_outl NABM_PCM_OUT bdl_address.
Definition ac97_update_lvi (index : Z) : M unit := bus_outb (NABM_PCM_OUT + 0x05) (Z.land index 31).

Definition ac97_set_play_sound (play : bool) : M unit :=
  input ← bus_inb 0x1B;
  bus_outb 0x1b (if play then Z.lor input 0x1 else Z.ldiff input 0x1).

(** ** The entries *)

Definition bdl_span : Z := AUDIO_BUFFER_SIZE / 32.

Definition with_bdl (l : list AC97_BDL_t) (c : ac97) : ac97 :=
  Ac97 (ac97_initialized c) (ac97_varibale_sample_rate c) (native_audio_mixer c) (native_audio_bus_master c) l
    (ac97_audio_buffer c) (ac97_lvi c).
Definition with_lvi (n : Z) (c : ac97) : ac97 :=
  Ac97 (ac97_initialized c) (ac97_varibale_sample_rate c) (native_audio_mixer c) (native_audio_bus_master c) (ac97_buffer c)
    (ac97_audio_buffer c) n.

(** [for (j = 0; j < AUDIO_BUFFER_SIZE; j += bdl_span)], [filled] entries done. *)
Fixpoint fill_entries (fuel : nat) (j filled : Z) (buffer : Z) (l : list AC97_BDL_t) : outcome (list AC97_BDL_t) :=
  match fuel with
  | O => Hang
  | S fuel' =>
      if j <? AUDIO_BUFFER_SIZE then
        e ← array_get l filled;
        l' ← array_set l filled (Bdl (u32 (v2p (buffer + j))) (u16 (bdl_span / 2)) (flags e));
        fill_entries fuel' (j + bdl_span) (filled + 1) buffer l'
      else Done l
  end.

Definition last_flags : Z := Z.lor (Z.shiftl 1 14) (Z.shiftl 1 15).

Definition ac97_FillBDLs : M unit :=
  c ← driver;
  l ← lift (fill_entries 33 0 0 (ac97_audio_buffer c) (ac97_buffer c));
  _ ← update (fun c => with_lvi 31 (with_bdl l c));
  e ← lift (array_get l 31);
  l' ← lift (array_set l 31 (Bdl (memory_pos e) (sample_count e) last_flags));
  _ ← update (with_bdl l');
  _ ← ac97_update_bdl;
  ac97_update_lvi 31.

(** ** Start *)

(** What the bus says: nothing, or the two base addresses; the buffer is the one that the
    heap has given.  Whether the output joins the audio system. *)
Definition ac97_init (found : option (Z * Z)) (buffer : Z) : M bool :=
  match found with
  | None => mret false
  | Some (bar0, bar1) =>
      _ ← update (fun c => Ac97 (ac97_initialized c) (ac97_varibale_sample_rate c) (Z.ldiff (Z.land bar0 0xffff) 0xf)
                    (Z.ldiff (Z.land bar1 0xffff) 0xf) (ac97_buffer c) (ac97_audio_buffer c) (ac97_lvi c));
      extended_id ← mixer_inw NAM_EXTENDED_ID;
      gc ← bus_inl NABM_GLOBAL_CONTROL;
      _ ← bus_outl NABM_GLOBAL_CONTROL (Z.lor gc 2);
      _ ← mixer_outw NAM_RESET 1;
      raw_status ← bus_inl NABM_GLOBAL_STATUS;
      extended_audio ← mixer_inw NAM_EXTENDED_AUDIO;
      let variable := negb (Z.land extended_id 1 =? 0) in
      _ ← (if variable then
             update (fun c => Ac97 (ac97_initialized c) true (native_audio_mixer c) (native_audio_bus_master c) (ac97_buffer c)
                       (ac97_audio_buffer c) (ac97_lvi c))
           else mret tt);
      _ ← mixer_outw NAM_EXTENDED_AUDIO (if variable then Z.lor extended_audio 1 else extended_audio);
      c ← driver;
      _ ← ac97_set_pcm_sample_rate (if ac97_varibale_sample_rate c then 44100 else 48000);
      _ ← ac97_set_master_volume 0 0 false;
      _ ← ac97_set_pcm_volume 0 0 false;
      _ ← update (fun c => Ac97 (ac97_initialized c) (ac97_varibale_sample_rate c) (native_audio_mixer c) (native_audio_bus_master c)
                    (ac97_buffer c) buffer (ac97_lvi c));
      _ ← on_machine (write_virtual v2p buffer (replicate (Z.to_nat AUDIO_BUFFER_SIZE) 0));
      _ ← ac97_FillBDLs;
      _ ← update (fun c => Ac97 true (ac97_varibale_sample_rate c) (native_audio_mixer c) (native_audio_bus_master c) (ac97_buffer c)
                    (ac97_audio_buffer c) (ac97_lvi c));
      mret true
  end.

(** ** Playing *)

(** Until the current entry is the last one. *)
Fixpoint play_wait (n : nat) : M unit :=
  match n with
  | O => hang
  | S n' => b ← bus_inb 0x16; if Z.land b 2 =? 0 then _ ← yield; play_wait n' else mret tt
  end.

(** [while(loaded < size)]: each round loads at least one byte. *)
Fixpoint write_loop (fuel : nat) (buffer : list Z) (loaded : Z) : M unit :=
  match fuel with
  | O => hang
  | S fuel' =>
      let size := Z.of_nat (length buffer) in
      if loaded <? size then
        let block_size := Z.min (size - loaded) AUDIO_BUFFER_SIZE in
        c ← driver;
        block ← lift (get_bytes buffer loaded block_size);
        _ ← on_machine (write_virtual v2p (ac97_audio_buffer c) block);
        _ ← (if block_size <? AUDIO_BUFFER_SIZE then
               on_machine (write_virtual v2p (ac97_audio_buffer c + block_size)
                             (replicate (Z.to_nat (AUDIO_BUFFER_SIZE - block_size)) 0))
             else mret tt);
        _ ← ac97_update_lvi (ac97_lvi c);
        _ ← ac97_set_play_sound true;
        _ ← play_wait polls;
        write_loop fuel' buffer (loaded + block_size)
      else mret tt
  end.

Definition ac97_WriteAll (buffer : list Z) : M unit := write_loop (S (length buffer)) buffer 0.

Definition ac97as_write (data : list Z) : M unit := ac97_WriteAll data.
Definition ac97as_close : M unit := ac97_clear_status_register.

End Driver.

(** ** What is written to the volume registers *)

Section Properties.
Context {D : Type} `{Dports : PortIO D} `{Dmem : PhysMem D}.
Variable v2p : Z -> Z.
Variable bdl_address : Z.
Variable polls : nat.

#[local] Abbreviation M := (IO (sound D)).

Lemma volume_fields high low n : 0 <= n <= 8 -> volume high low (Z.ones n) false = high mod 2 ^ n * 2 ^ 8 + low mod 2 ^ n.
Proof.
  intros Hn. unfold volume. cbn [Z.b2z]. rewrite Z.shiftl_0_l, Z.lor_0_r, !Z.land_ones, Z.lor_comm by lia. apply lor_disjoint; [lia|].
  pose proof (Z.mod_pos_bound low (2 ^ n)). assert (2 ^ n <= 2 ^ 8) by (apply Z.pow_le_mono_r; lia). lia.
Qed.

Lemma attenuation_range level full : 0 <= level <= 100 -> 0 <= full < 256 ->
  attenuation level full = (100 - level) * full / 100 /\ 0 <= attenuation level full <= full.
Proof.
  intros Hl Hf. unfold attenuation. rewrite Z.quot_div_nonneg by nia.
  assert (0 <= (100 - level) * full / 100 <= full) by (split; [apply Z.div_pos; nia|apply Z.div_le_upper_bound; nia]).
  rewrite u8_small by lia. done.
Qed.

(** A level from 0 to 100 becomes an attenuation from the greatest to none, each channel
    in its own field of the master volume; in that of the samples the channels have changed
    places. *)
Theorem volume_words left right (s : sound D) :
  0 <= left <= 100 -> 0 <= right <= 100 ->
  let port r := u16 (native_audio_mixer (card s) + r) in
  ac97as_set_volume left right s =
    Done (tt, Sound (card s)
      (port_outw (port NAM_SET_PCM_VOLUME) ((100 - right) * 31 / 100 * 256 + (100 - left) * 31 / 100)
        (port_outw (port NAM_SET_MASTER_VOLUME) ((100 - left) * 63 / 100 * 256 + (100 - right) * 63 / 100) (machine s)))).
Proof.
  intros Hl Hr port. unfold ac97as_set_volume, ac97_set_master_volume, ac97_set_pcm_volume.
  destruct (attenuation_range left 63) as [-> Hl1], (attenuation_range right 63) as [-> Hr1],
    (attenuation_range left 31) as [-> Hl2], (attenuation_range right 31) as [-> Hr2]; try lia.
  change 63 with (Z.ones 6) at 3. change 31 with (Z.ones 5) at 3.
  rewrite !volume_fields by lia. rewrite !Z.mod_small by (change (2 ^ 6) with 64; change (2 ^ 5) with 32; lia).
  unfold mixer_outw. unfold mbind, IO_bind, driver, on_machine, outw. cbn [card machine].
  change (2 ^ 8) with 256. rewrite !(u16_small (_ * 256 + _)) by lia. done.
Qed.

(** ** The entries cover the buffer *)

Definition entry_of (buffer : Z) (k : nat) (e : AC97_BDL_t) : AC97_BDL_t :=
  Bdl (u32 (v2p (buffer + 4096 * Z.of_nat k))) 2048 (flags e).

Lemma fill_entries_run n k buffer l :
  (k + n = 32)%nat -> length l = 32%nat ->
  fill_entries v2p (S n) (4096 * Z.of_nat k) (Z.of_nat k) buffer l =
    Done (imap (fun i e => if (i <? k)%nat then e else entry_of buffer i e) l).
Proof.
  revert k l. induction n as [|n IH]; intros k l Hk Hl.
  - cbn [fill_entries]. rewrite (proj2 (Z.ltb_ge _ _)) by (unfold AUDIO_BUFFER_SIZE; lia). f_equal.
    apply list_eq. intros i. rewrite list_lookup_imap. destruct (l !! i) as [e|] eqn:E; [|done]. pose proof (lookup_lt_Some _ _ _ E).
    cbn [fmap option_fmap option_map]. by rewrite (proj2 (Nat.ltb_lt i k)) by lia.
  - remember (S n) as m eqn:Em. cbn [fill_entries]. rewrite (proj2 (Z.ltb_lt _ _)) by (unfold AUDIO_BUFFER_SIZE; lia).
    destruct (lookup_lt_is_Some_2 l k) as [e He]; [lia|].
    rewrite (proj2 (array_get_Done l (Z.of_nat k) e)) by (split; [lia|by rewrite Nat2Z.id]). cbn [mbind outcome_bind].
    rewrite array_set_in_range by lia. cbn [mbind outcome_bind]. rewrite Nat2Z.id.
    change (u16 (bdl_span / 2)) with 2048. subst m.
    replace (4096 * Z.of_nat k + bdl_span) with (4096 * Z.of_nat (S k)) by (change bdl_span with 4096; lia).
    replace (Z.of_nat k + 1) with (Z.of_nat (S k)) by lia.
    rewrite IH by (rewrite ?length_insert; lia). f_equal. apply list_eq. intros i. rewrite !list_lookup_imap.
    destruct (decide (i = k)) as [->|Hne].
    + rewrite list_lookup_insert_eq by lia. rewrite He. cbn [fmap option_fmap option_map]. by rewrite Nat.ltb_irrefl, (proj2 (Nat.ltb_lt k (S k))) by lia.
    + rewrite list_lookup_insert_ne by done. destruct (l !! i) as [x|]; [|done]. cbn [fmap option_fmap option_map]. f_equal.
      destruct (Nat.ltb_spec i k), (Nat.ltb_spec i (S k)); done || lia.
Qed.

(** The 32 entries are the consecutive pages of the buffer, 2048 samples of two bytes in
    each; the last one is marked, and the card is told where the list is and which entry is
    the last. *)
Theorem entries_cover_buffer (s : sound D) :
  length (ac97_buffer (card s)) = 32%nat ->
  exists c, ac97_FillBDLs v2p bdl_address s =
      Done (tt, Sound c (port_outb (u16 (native_audio_bus_master (card s) + 0x15)) 31
        (port_outl (u16 (native_audio_bus_master (card s) + 0x10)) (u32 bdl_address) (machine s)))) /\
    ac97_lvi c = 31 /\ length (ac97_buffer c) = 32%nat /\
    forall k e, ac97_buffer c !! k = Some e ->
      memory_pos e = u32 (v2p (ac97_audio_buffer (card s) + 4096 * Z.of_nat k)) /\ sample_count e * 2 = 4096 /\
      (k = 31%nat -> flags e = 2 ^ 14 + 2 ^ 15).
Proof.
  intros Hl. set (buffer := ac97_audio_buffer (card s)). set (l := imap (fun i e => entry_of buffer i e) (ac97_buffer (card s))).
  assert (length l = 32%nat) as Hll by (unfold l; by rewrite length_imap).
  assert (fill_entries v2p 33 0 0 buffer (ac97_buffer (card s)) = Done l) as E.
  { pose proof (fill_entries_run 32 0 buffer (ac97_buffer (card s)) eq_refl Hl) as E. exact E. }
  destruct (lookup_lt_is_Some_2 l 31) as [e He]; [lia|].
  eexists. split; [|split; [|split]].
  - unfold ac97_FillBDLs. erewrite bind_run; [|reflexivity]. fold buffer. rewrite E.
    erewrite bind_run; [|reflexivity]. erewrite bind_run; [|reflexivity].
    rewrite (proj2 (array_get_Done l 31 e)) by (split; [lia|done]). erewrite bind_run; [|reflexivity].
    rewrite array_set_in_range by lia. erewrite bind_run; [|reflexivity]. erewrite bind_run; [|reflexivity].
    erewrite bind_run; [|reflexivity]. reflexivity.
  - done.
  - cbn. by rewrite length_insert.
  - cbn [ac97_buffer with_bdl with_lvi card]. intros k x Hx. change (Z.to_nat 31) with 31%nat in Hx.
    assert (forall y, l !! k = Some y -> memory_pos y = u32 (v2p (buffer + 4096 * Z.of_nat k)) /\ sample_count y = 2048) as Hy.
    { intros y Hy. unfold l in Hy. rewrite list_lookup_imap in Hy. destruct (ac97_buffer (card s) !! k); [|done]. by injection Hy as <-. }
    destruct (decide (k = 31%nat)) as [->|Hne].
    + rewrite list_lookup_insert_eq in Hx by lia. injection Hx as <-. destruct (Hy e He) as [-> ->]. done.
    + rewrite list_lookup_insert_ne in Hx by done. destruct (Hy x Hx) as [-> ->]. done.
Qed.

(** ** Everything is played *)

Fixpoint chunks (fuel : nat) (n : nat) (l : list Z) : list (list Z) :=
  match fuel, l with
  | _, [] => []
  | O, _ => []
  | S fuel', _ => take n l :: chunks fuel' n (drop n l)
  end.

Definition buffer_size : nat := Z.to_nat AUDIO_BUFFER_SIZE.

(** A buffer full of sound: what there is, then silence. *)
Definition padded (l : list Z) : list Z := l ++ replicate (buffer_size - length l) 0.

Definition play_buffer (full : list Z) : M unit :=
  c ← driver;
  _ ← on_machine (write_virtual v2p (ac97_audio_buffer c) full);
  _ ← ac97_update_lvi (ac97_lvi c);
  _ ← ac97_set_play_sound true;
  play_wait polls.

Fixpoint play_all (ls : list (list Z)) : M unit :=
  match ls with [] => mret tt | l :: ls' => _ ← play_buffer (padded l); play_all ls' end.

Lemma chunks_concat fuel n l : (0 < n)%nat -> (length l <= fuel)%nat -> concat (chunks fuel n l) = l.
Proof.
  intros Hn. revert l. induction fuel as [|fuel IH]; intros [|x l] Hl; try done; [cbn in Hl; lia|].
  cbn [chunks concat]. rewrite IH by (rewrite length_drop; cbn in *; lia). apply take_drop.
Qed.

Lemma chunks_length fuel n l : Forall (fun c => (length c <= n)%nat) (chunks fuel n l).
Proof.
  revert l. induction fuel as [|fuel IH]; intros [|x l]; try constructor; [|apply IH]. rewrite length_take. lia.
Qed.

Lemma write_virtual_app v a b (d : D) :
  write_virtual v2p v (a ++ b) d = (_ ← write_virtual v2p v a; write_virtual v2p (v + Z.of_nat (length a)) b) d.
Proof.
  revert v d. induction a as [|x a IH]; intros v d; cbn [app write_virtual length].
  - by rewrite Z.add_0_r.
  - unfold mbind, IO_bind, store_byte in *. rewrite IH. by replace (v + 1 + Z.of_nat (length a)) with (v + Z.of_nat (S (length a))) by lia.
Qed.

Lemma buffer_size_Z : Z.of_nat buffer_size = AUDIO_BUFFER_SIZE.
Proof. unfold buffer_size. apply Z2Nat.id. done. Qed.

Lemma buffer_size_pos : 0 < AUDIO_BUFFER_SIZE.
Proof. done. Qed.

#[local] Opaque buffer_size AUDIO_BUFFER_SIZE.

(** The two writes of a round fill the buffer. *)
Lemma fill_buffer_run block (s : sound D) :
  (length block <= buffer_size)%nat ->
  exists d', write_virtual v2p (ac97_audio_buffer (card s)) (padded block) (machine s) = Done (tt, d') /\
    (_ ← on_machine (write_virtual v2p (ac97_audio_buffer (card s)) block);
     if Z.of_nat (length block) <? AUDIO_BUFFER_SIZE then
       on_machine (write_virtual v2p (ac97_audio_buffer (card s) + Z.of_nat (length block))
                     (replicate (Z.to_nat (AUDIO_BUFFER_SIZE - Z.of_nat (length block))) 0))
     else mret tt) s = Done (tt, Sound (card s) d').
Proof.
  intros Hb. pose proof buffer_size_Z as HB.
  destruct (write_virtual_done v2p (ac97_audio_buffer (card s)) block (machine s)) as [d1 E1].
  unfold padded. rewrite write_virtual_app. rewrite (bind_run _ _ _ _ _ E1).
  erewrite bind_run; [|unfold on_machine; rewrite E1; reflexivity]. cbn [card machine].
  destruct (Z.ltb_spec (Z.of_nat (length block)) AUDIO_BUFFER_SIZE) as [H|H].
  - replace (Z.to_nat (AUDIO_BUFFER_SIZE - Z.of_nat (length block))) with (buffer_size - length block)%nat by lia.
    destruct (write_virtual_done v2p (ac97_audio_buffer (card s) + Z.of_nat (length block)) (replicate (buffer_size - length block) 0) d1) as [d2 E2].
    exists d2. split; [done|]. unfold on_machine. cbn [machine card]. by rewrite E2.
  - replace (buffer_size - length block)%nat with 0%nat by lia. exists d1. split; reflexivity.
Qed.

Lemma bind_assoc_run {S A B C} (m : IO S A) (f : A -> IO S B) (g : B -> IO S C) s :
  (x ← m; y ← f x; g y) s = (y ← (x ← m; f x); g y) s.
Proof. unfold mbind, IO_bind. by destruct (m s) as [[a s']| |]. Qed.

Lemma bind_cong_run {S A B} (m m' : IO S A) (f : A -> IO S B) s s' : m s = m' s' -> (x ← m; f x) s = (x ← m'; f x) s'.
Proof. intros H. unfold mbind, IO_bind. by rewrite H. Qed.

Lemma bind_ext_run {S A B} (m : IO S A) (f g : A -> IO S B) s : (forall a s', f a s' = g a s') -> (x ← m; f x) s = (x ← m; g x) s.
Proof. intros H. unfold mbind, IO_bind. by destruct (m s) as [[a s']| |]. Qed.

Lemma block_bytes data loaded :
  0 <= loaded < Z.of_nat (length data) ->
  get_bytes data loaded (Z.min (Z.of_nat (length data) - loaded) AUDIO_BUFFER_SIZE) = Done (take buffer_size (drop (Z.to_nat loaded) data)) /\
  Z.of_nat (length (take buffer_size (drop (Z.to_nat loaded) data))) = Z.min (Z.of_nat (length data) - loaded) AUDIO_BUFFER_SIZE.
Proof.
  intros H. pose proof buffer_size_Z as HB. set (l := drop (Z.to_nat loaded) data).
  assert (length l = (length data - Z.to_nat loaded)%nat) as Hl by apply length_drop.
  rewrite get_bytes_ok by lia. fold l. split; [|rewrite length_take; lia]. f_equal.
  destruct (Z.min_spec (Z.of_nat (length data) - loaded) AUDIO_BUFFER_SIZE) as [[? ->]|[? ->]].
  - by rewrite !take_ge by lia.
  - by replace (Z.to_nat AUDIO_BUFFER_SIZE) with buffer_size by lia.
Qed.

Lemma sound_loop_run fuel data loaded (s : sound D) :
  0 <= loaded -> (length (drop (Z.to_nat loaded) data) < fuel)%nat ->
  write_loop v2p polls fuel data loaded s = play_all (chunks fuel buffer_size (drop (Z.to_nat loaded) data)) s.
Proof.
  pose proof buffer_size_Z as HB. pose proof buffer_size_pos as Hpos.
  revert loaded s. induction fuel as [|fuel IH]; intros loaded s H0 Hf; [lia|]. cbn [write_loop chunks].
  assert (length (drop (Z.to_nat loaded) data) = (length data - Z.to_nat loaded)%nat) as Hl by apply length_drop.
  destruct (drop (Z.to_nat loaded) data) as [|x l] eqn:E.
  { cbn in Hl. by rewrite (proj2 (Z.ltb_ge _ _)) by lia. }
  rewrite <- E in *. assert (0 < length (drop (Z.to_nat loaded) data))%nat as Hne by (rewrite E; cbn; lia).
  rewrite (proj2 (Z.ltb_lt _ _)) by lia. destruct (block_bytes data loaded) as [Eb Lb]; [lia|]. rewrite <- Lb in *.
  set (block := take buffer_size (drop (Z.to_nat loaded) data)) in *.
  destruct (fill_buffer_run block s) as (d' & Ed & Es); [lia|].
  erewrite bind_run; [|reflexivity]. rewrite Eb. erewrite bind_run; [|reflexivity].
  rewrite bind_assoc_run. rewrite (bind_run _ _ _ _ _ Es). cbn [play_all].
  assert (play_buffer (padded block) s = (_ ← ac97_update_lvi (ac97_lvi (card s)); _ ← ac97_set_play_sound true; play_wait polls) (Sound (card s) d')) as Ep.
  { unfold play_buffer. erewrite bind_run; [|reflexivity]. erewrite bind_run; [reflexivity|]. unfold on_machine. by rewrite Ed. }
  assert (drop buffer_size (drop (Z.to_nat loaded) data) = drop (Z.to_nat (loaded + Z.of_nat (length block))) data) as Hd'.
  { rewrite drop_drop. destruct (Z.min_spec (Z.of_nat (length data) - loaded) AUDIO_BUFFER_SIZE) as [[? Em]|[? Em]]; [rewrite !drop_ge by lia; reflexivity|].
    replace (Z.to_nat (loaded + Z.of_nat (length block))) with (Z.to_nat loaded + buffer_size)%nat by lia. reflexivity. }
  rewrite Hd'.
  transitivity ((_ ← (_ ← ac97_update_lvi (ac97_lvi (card s)); _ ← ac97_set_play_sound true; play_wait polls);
                 play_all (chunks fuel buffer_size (drop (Z.to_nat (loaded + Z.of_nat (length block))) data))) (Sound (card s) d')).
  - rewrite <- bind_assoc_run. apply bind_ext_run. intros _ s1. rewrite <- bind_assoc_run. apply bind_ext_run. intros _ s2.
    apply bind_ext_run. intros _ s3. apply IH; [lia|]. rewrite <- Hd', length_drop. pose proof buffer_size_Z. lia.
  - symmetry. by apply bind_cong_run.
Qed.


(** *** It ends *)

(** The machine after [k] polls of the status. *)
Fixpoint polled (k : nat) (base : Z) (d : D) : D :=
  match k with O => d | S k' => polled k' base (time_passes 0 (snd (port_inb (u16 (base + 0x16)) d))) end.

(** The card comes to the last entry within the polls. *)
Definition card_answers (base : Z) (d : D) : Prop :=
  exists k, (k < polls)%nat /\ Z.land (fst (port_inb (u16 (base + 0x16)) (polled k base d))) 2 <> 0.

Lemma play_wait_ends n k c d :
  (k < n)%nat -> Z.land (fst (port_inb (u16 (native_audio_bus_master c + 0x16)) (polled k (native_audio_bus_master c) d))) 2 <> 0 ->
  exists d', play_wait n (Sound c d) = Done (tt, Sound c d').
Proof.
  revert k d. induction n as [|n IH]; intros k d Hk Hb; [lia|]. cbn [play_wait].
  unfold bus_inb, mbind, IO_bind, driver, on_machine, inb. cbn [card machine].
  destruct (port_inb (u16 (native_audio_bus_master c + 0x16)) d) as [b d1] eqn:E. destruct (Z.eqb_spec (Z.land b 2) 0) as [H0|H0].
  - destruct k as [|k]; cbn [polled] in Hb; [by rewrite E in Hb|]. rewrite E in Hb. apply (IH k); [lia|done].
  - by exists d1.
Qed.

(** A write ends if the card always comes to its last entry. *)
Theorem write_ends data (s : sound D) :
  (forall d, card_answers (native_audio_bus_master (card s)) d) -> exists s', ac97as_write v2p polls data s = Done (tt, s').
Proof.
  intros H. unfold ac97as_write, ac97_WriteAll. rewrite sound_loop_run by (rewrite ?drop_0; lia).
  generalize (chunks (S (length data)) buffer_size (drop (Z.to_nat 0) data)). intros ls. revert s H.
  induction ls as [|l ls IH]; intros s H; cbn [play_all]; [by exists s|].
  assert (exists d', play_buffer (padded l) s = Done (tt, Sound (card s) d')) as [d' E].
  { unfold play_buffer. erewrite bind_run; [|reflexivity]. destruct (write_virtual_done v2p (ac97_audio_buffer (card s)) (padded l) (machine s)) as [d1 E1].
    erewrite bind_run; [|unfold on_machine; rewrite E1; reflexivity]. erewrite bind_run; [|reflexivity].
    unfold ac97_set_play_sound, bus_inb, bus_outb. unfold mbind at 1, IO_bind at 1. unfold mbind, IO_bind, driver, on_machine, inb, outb. cbn [card machine].
    destruct (port_inb _ _) as [b d2]. match goal with |- exists d', play_wait polls (Sound ?c ?x) = _ => destruct (H x) as (k & Hk & Hb); by apply (play_wait_ends polls k) end. }
  rewrite (bind_run _ _ _ _ _ E). by apply IH.
Qed.

End Properties.
