(* ===== verification/Arith.v ===== *)
(** * Arithmetic (kernel/src/lib/intrin.c, lib/rand.c, lib/math/math.c, arch/x86/bitops.c)

    The division of 64-bit numbers, to which the compiler turns on a 32-bit processor, the
    random numbers behind sequence numbers and transaction identifiers, and the integer
    functions of the mathematical library. *)
From Stdlib Require Import ZArith Lia.
From stdpp Require Import base list numbers.
From S2P Require Import Prelude.

#[local] Open Scope Z_scope.

(** ** 64-bit division *)

(** [while ((int64_t)den >= 0) { den <<= 1; qbit <<= 1; }] *)
Fixpoint justify (fuel : nat) (den qbit : Z) : outcome (Z * Z) :=
  match fuel with
  | O => Hang
  | S fuel' => if den <? 2 ^ 63 then justify fuel' (u64 (Z.shiftl den 1)) (u64 (Z.shiftl qbit 1)) else Done (den, qbit)
  end.

(** [while (qbit)]; quotient and rest. *)
Fixpoint subtract (fuel : nat) (num den qbit quot : Z) : outcome (Z * Z) :=
  match fuel with
  | O => Hang
  | S fuel' =>
      if qbit =? 0 then Done (quot, num)
      else
        let '(num, quot) := if den <=? num then (u64 (num - den), u64 (quot + qbit)) else (num, quot) in
        subtract fuel' num (Z.shiftr den 1) (Z.shiftr qbit 1) quot
  end.

(** 64 shifts justify any denominator but 0, for which the code divides by zero. *)
Definition __udivmoddi4 (num den : Z) : outcome (Z * Z) :=
  if den =? 0 then Fault
  else '(den, qbit) ← justify 64 den 1; subtract 65 num den qbit 0.

Lemma double_shift x k : 0 <= k -> Z.shiftl (x * 2 ^ k) 1 = x * 2 ^ (k + 1).
Proof. intros Hk. rewrite Z.shiftl_mul_pow2, Z.pow_add_r by lia. change (2 ^ 1) with 2. lia. Qed.

Lemma justify_run n den k :
  0 < den -> 0 <= k -> den * 2 ^ k < 2 ^ 64 -> 2 ^ 63 <= den * 2 ^ (k + Z.of_nat n) ->
  exists j, k <= j /\ 2 ^ 63 <= den * 2 ^ j < 2 ^ 64 /\ justify (S n) (den * 2 ^ k) (2 ^ k) = Done (den * 2 ^ j, 2 ^ j).
Proof.
  intros Hd. revert k. induction n as [|n IH]; intros k Hk Hlt Hge.
  - change (Z.of_nat 0) with 0 in Hge. rewrite Z.add_0_r in Hge. exists k. split; [lia|]. split; [lia|]. cbn [justify].
    by rewrite (proj2 (Z.ltb_ge _ _)).
  - remember (S n) as m. cbn [justify]. subst m. destruct (Z.ltb_spec (den * 2 ^ k) (2 ^ 63)) as [H|H]; [|by exists k].
    assert (0 < 2 ^ k) as Hp by (apply Z.pow_pos_nonneg; lia).
    assert (2 ^ (k + 1) = 2 * 2 ^ k) as E1 by (rewrite Z.pow_add_r by lia; change (2 ^ 1) with 2; lia).
    pose proof (double_shift 1 k Hk) as Eq. rewrite !Z.mul_1_l in Eq. rewrite double_shift, Eq by done.
    assert (2 ^ 64 = 2 * 2 ^ 63) as E64 by reflexivity.
    rewrite !u64_small by nia.
    destruct (IH (k + 1)) as (j & Hj & Hr & E); [lia|nia|by replace (k + 1 + Z.of_nat n) with (k + Z.of_nat (S n)) by lia|].
    exists j. split; [lia|]. by split.
Qed.

Lemma subtract_run k r den q :
  0 < den -> 0 <= r < den * 2 ^ (Z.of_nat k + 1) -> 0 <= q -> q + 2 ^ (Z.of_nat k + 1) <= 2 ^ 64 -> r < 2 ^ 64 ->
  subtract (S (S k)) r (den * 2 ^ Z.of_nat k) (2 ^ Z.of_nat k) q = Done (q + r / den, r mod den).
Proof.
  intros Hd. revert r q. induction k as [|k IH]; intros r q Hr Hq Hq2 Hr2.
  - change (2 ^ Z.of_nat 0) with 1. change (2 ^ (Z.of_nat 0 + 1)) with 2 in *. cbn [subtract Z.eqb]. change (Z.shiftr 1 1) with 0.
    rewrite Z.mul_1_r. destruct (Z.leb_spec den r) as [H|H]; cbn [Z.eqb]; f_equal; f_equal.
    + rewrite u64_small by lia. f_equal. apply Z.div_unique with (r := r - den); lia.
    + rewrite u64_small by lia. apply (Z.mod_unique _ _ 1); lia.
    + rewrite Z.div_small by lia. lia.
    + by rewrite Z.mod_small by lia.
  - assert (0 < 2 ^ Z.of_nat k) as Hp by (apply Z.pow_pos_nonneg; lia).
    assert (2 ^ Z.of_nat (S k) = 2 * 2 ^ Z.of_nat k) as E1 by (rewrite Nat2Z.inj_succ, Z.pow_succ_r by lia; lia).
    assert (2 ^ (Z.of_nat (S k) + 1) = 4 * 2 ^ Z.of_nat k) as E2 by (rewrite Z.pow_add_r, E1 by lia; change (2 ^ 1) with 2; lia).
    assert (2 ^ (Z.of_nat k + 1) = 2 * 2 ^ Z.of_nat k) as E3 by (rewrite Z.pow_add_r by lia; change (2 ^ 1) with 2; lia).
    rewrite E2 in Hr, Hq2. remember (S (S k)) as m. cbn [subtract]. subst m.
    rewrite (proj2 (Z.eqb_neq (2 ^ Z.of_nat (S k)) 0)) by lia.
    assert (Z.shiftr (den * 2 ^ Z.of_nat (S k)) 1 = den * 2 ^ Z.of_nat k) as S1.
    { rewrite Z.shiftr_div_pow2, E1 by lia. change (2 ^ 1) with 2. replace (den * (2 * 2 ^ Z.of_nat k)) with (den * 2 ^ Z.of_nat k * 2) by lia. by apply Z.div_mul. }
    assert (Z.shiftr (2 ^ Z.of_nat (S k)) 1 = 2 ^ Z.of_nat k) as S2.
    { rewrite Z.shiftr_div_pow2, E1 by lia. change (2 ^ 1) with 2. rewrite Z.mul_comm. by apply Z.div_mul. }
    rewrite S1, S2. destruct (Z.leb_spec (den * 2 ^ Z.of_nat (S k)) r) as [H|H]; rewrite E1 in H.
    + rewrite E1. rewrite !u64_small by nia. rewrite IH by (rewrite ?E3; nia). rewrite <- E1.
      replace (r - den * 2 ^ Z.of_nat (S k)) with (r + - 2 ^ Z.of_nat (S k) * den) by lia.
      rewrite Z.div_add, Z.mod_add by lia. f_equal. f_equal. lia.
    + apply IH; rewrite ?E3; nia.
Qed.

(** C39: shifting and subtracting divides: for 64-bit numbers and a denominator other than 0 the
    routine ends with the quotient and the rest. *)
Theorem udivmoddi4_divides num den :
  0 <= num < 2 ^ 64 -> 0 < den < 2 ^ 64 -> __udivmoddi4 num den = Done (num / den, num mod den).
Proof.
  intros Hn Hd. unfold __udivmoddi4. rewrite (proj2 (Z.eqb_neq den 0)) by lia.
  destruct (justify_run 63 den 0) as (j & Hj & Hr & E); [lia|lia|lia|change (0 + Z.of_nat 63) with 63; nia|].
  change (2 ^ 0) with 1 in E. rewrite Z.mul_1_r in E. rewrite E. cbn [mbind outcome_bind].
  assert (j < 64) as Hj64.
  { destruct (Z.lt_ge_cases j 64) as [|H]; [done|]. pose proof (Z.pow_le_mono_r 2 64 j ltac:(lia) H). nia. }
  assert (2 ^ (j + 1) <= 2 ^ 64) as Hb by (apply Z.pow_le_mono_r; lia).
  assert (2 ^ (j + 1) = 2 * 2 ^ j) as E1 by (rewrite Z.pow_add_r by lia; change (2 ^ 1) with 2; lia).
  assert (2 ^ 64 = 2 * 2 ^ 63) as E64 by reflexivity.
  assert (exists n, 65%nat = (S (S (Z.to_nat j)) + n)%nat) as [n ->] by (exists (65 - S (S (Z.to_nat j)))%nat; lia).
  assert (forall m n r d b q x, subtract m r d b q = Done x -> subtract (m + n) r d b q = Done x) as Hmore.
  { clear. induction m as [|m IH]; intros n r d b q x Hx; [done|]. cbn [subtract Nat.add] in *. destruct (b =? 0); [done|].
    destruct (if d <=? r then _ else _) as [r' q']. by apply IH. }
  apply Hmore. pose proof (subtract_run (Z.to_nat j) num den 0 ltac:(lia)) as Es. rewrite Z2Nat.id in Es by lia. apply Es; nia || lia.
Qed.

Lemma udivmoddi4_divides_witness : __udivmoddi4 (2 ^ 64 - 1) 1000000007 = Done (18446743944, 582344007).
Proof. apply (udivmoddi4_divides (2 ^ 64 - 1) 1000000007); lia. Defined.

(** ** Random numbers *)

(** [int] arithmetic that wraps; the remainder by [2^32], a wider number, leaves it alone. *)
Definition rand (rand_seed : Z) : Z := s32 (Z.rem (s32 (164525 * rand_seed + 101390423)) 4294967296).

Definition initial_seed : Z := 5829466.

(** *** The period *)

(** [1 + a + ... + a^(n-1)] for the multiplier. *)
Fixpoint geometric (n : nat) : Z := match n with O => 0 | S n' => 164525 * geometric n' + 1 end.

Lemma geometric_pow n : 164525 ^ Z.of_nat n = 164524 * geometric n + 1.
Proof. induction n as [|n IH]; [done|]. rewrite Nat2Z.inj_succ, Z.pow_succ_r, IH by lia. cbn [geometric]. lia. Qed.

Lemma geometric_app m n : geometric (m + n) = geometric m + 164525 ^ Z.of_nat m * geometric n.
Proof.
  induction m as [|m IH]; cbn [geometric Nat.add]; [change (164525 ^ Z.of_nat 0) with 1; lia|].
  rewrite IH, Nat2Z.inj_succ, Z.pow_succ_r by lia. lia.
Qed.

Lemma geometric_parity n : (geometric n) mod 2 = Z.of_nat n mod 2.
Proof.
  induction n as [|n IH]; [done|]. cbn [geometric]. replace (164525 * geometric n + 1) with (geometric n + 1 + (82262 * geometric n) * 2) by lia.
  rewrite Z.mod_add by lia. rewrite <- Z.add_mod_idemp_l, IH, Z.add_mod_idemp_l by lia. f_equal. lia.
Qed.

Lemma odd_divides k t x : 0 <= k -> t mod 2 = 1 -> (2 ^ k | t * x) -> (2 ^ k | x).
Proof.
  intros Hk Ht H. apply (Z.gauss _ t); [done|]. apply Z.coprime_pow_l; [done|].
  unfold Z.coprime. rewrite <- Z.gcd_mod, Ht by lia. done.
Qed.

(** The sum has exactly the factors 2 of its length. *)
Lemma geometric_divides k n : 0 <= k -> (2 ^ k | geometric n) <-> (2 ^ k | Z.of_nat n).
Proof.
  intros Hk. revert n. pattern k. apply natlike_ind; [|clear k Hk; intros k Hk IH|done]; intros n; [split; intros _; apply Z.divide_1_l|].
  rewrite Z.pow_succ_r by done.
  assert (forall x, (2 * 2 ^ k | x) -> x mod 2 = 0) as Heven.
  { intros x [y ->]. replace (y * (2 * 2 ^ k)) with (y * 2 ^ k * 2) by lia. by apply Z.mod_mul. }
  destruct (Nat.Even_or_Odd n) as [[m ->]|[m ->]].
  - assert (exists t, 164525 ^ Z.of_nat m + 1 = 2 * t /\ t mod 2 = 1) as (t & Et & Ht).
    { exists (82262 * geometric m + 1). rewrite geometric_pow. split; [lia|].
      replace (82262 * geometric m + 1) with (1 + 41131 * geometric m * 2) by lia. by rewrite Z.mod_add. }
    assert (geometric (2 * m) = 2 * (t * geometric m)) as Eg.
    { replace (2 * m)%nat with (m + m)%nat by lia. rewrite geometric_app. nia. }
    rewrite Eg. replace (Z.of_nat (2 * m)) with (2 * Z.of_nat m) by lia.
    split; intros H; apply Z.mul_divide_cancel_l in H; try lia; apply Z.mul_divide_mono_l.
    + apply IH. by apply (odd_divides _ t).
    + apply Z.divide_mul_r. by apply IH.
  - pose proof (geometric_parity (2 * m + 1)) as Hp. replace (Z.of_nat (2 * m + 1) mod 2) with 1 in Hp.
    + split; intros H; apply Heven in H; [lia|]. rewrite geometric_parity, H in Hp. lia.
    + replace (Z.of_nat (2 * m + 1)) with (1 + Z.of_nat m * 2) by lia. by rewrite Z.mod_add.
Qed.

Definition is_int (x : Z) : Prop := - 2 ^ 31 <= x < 2 ^ 31.

Lemma s32_range x : is_int (s32 x).
Proof. unfold is_int, s32. pose proof (Z.mod_pos_bound (x + 2 ^ 31) (2 ^ 32)). lia. Qed.

Lemma s32_divides x : (2 ^ 32 | s32 x - x).
Proof.
  unfold s32. exists (- ((x + 2 ^ 31) / 2 ^ 32)). pose proof (Z.div_mod (x + 2 ^ 31) (2 ^ 32) ltac:(lia)). lia.
Qed.

Lemma int_eq x y : is_int x -> is_int y -> (2 ^ 32 | x - y) -> x = y.
Proof. unfold is_int. intros Hx Hy [k Hk]. nia. Qed.

Lemma rand_spec s : is_int (rand s) /\ (2 ^ 32 | rand s - (164525 * s + 101390423)).
Proof.
  assert (rand s = s32 (164525 * s + 101390423)) as ->; [|split; [apply s32_range|apply s32_divides]].
  unfold rand. pose proof (s32_range (164525 * s + 101390423)) as H. unfold is_int in H. set (x := s32 _) in *.
  assert (Z.rem x 4294967296 = x) as ->; [|by apply s32_small].
  destruct (Z.le_gt_cases 0 x); [apply Z.rem_small; lia|]. replace x with (- - x) by lia. rewrite Z.rem_opp_l by lia. rewrite Z.rem_small by lia. done.
Qed.

Lemma rand_injective s t : is_int s -> is_int t -> rand s = rand t -> s = t.
Proof.
  intros Hs Ht E. apply int_eq; [done..|]. apply (odd_divides 32 164525); [lia|done|].
  destruct (rand_spec s) as [_ H1], (rand_spec t) as [_ H2]. rewrite E in H1.
  replace (164525 * (s - t)) with ((rand t - (164525 * t + 101390423)) - (rand t - (164525 * s + 101390423))) by lia.
  by apply Z.divide_sub_r.
Qed.

Lemma rand_iter n s : is_int s ->
  is_int (Nat.iter n rand s) /\ (2 ^ 32 | Nat.iter n rand s - (s + geometric n * (164524 * s + 101390423))).
Proof.
  intros Hs. induction n as [|n [_ IH]]; cbn [geometric].
  - change (Nat.iter 0 rand s) with s. split; [done|]. replace (s - (s + 0 * (164524 * s + 101390423))) with 0 by lia. apply Z.divide_0_r.
  - change (Nat.iter (S n) rand s) with (rand (Nat.iter n rand s)). destruct (rand_spec (Nat.iter n rand s)) as [Hr Hd]. split; [done|].
    replace (rand (Nat.iter n rand s) - (s + (164525 * geometric n + 1) * (164524 * s + 101390423)))
      with ((rand (Nat.iter n rand s) - (164525 * Nat.iter n rand s + 101390423)) +
            164525 * (Nat.iter n rand s - (s + geometric n * (164524 * s + 101390423)))) by lia.
    apply Z.divide_add_r; [done|]. by apply Z.divide_mul_r.
Qed.

Lemma rand_returns n s : is_int s -> Nat.iter n rand s = s <-> (2 ^ 32 | Z.of_nat n).
Proof.
  intros Hs. destruct (rand_iter n s Hs) as [Hi Hd]. rewrite <- geometric_divides by lia.
  set (g := geometric n) in *. set (w := 164524 * s + 101390423) in *.
  assert (w mod 2 = 1) as Hw.
  { unfold w. replace (164524 * s + 101390423) with (1 + (82262 * s + 50695211) * 2) by lia. by rewrite Z.mod_add. }
  split.
  - intros E. rewrite E in Hd. apply (odd_divides 32 w); [lia|done|].
    replace (w * g) with (- (s - (s + g * w))) by lia. by apply Z.divide_opp_r.
  - intros Hg. apply int_eq; [done..|]. replace (Nat.iter n rand s - s) with ((Nat.iter n rand s - (s + g * w)) + g * w) by lia.
    apply Z.divide_add_r; [done|]. by apply Z.divide_mul_l.
Qed.

(** C40: the random numbers, which become the sequence numbers of TCP and the transaction
    identifiers of DHCP, repeat only after all [2^32] values have come: from any seed, two
    of them are equal exactly when a multiple of [2^32] steps lies between them. *)
Theorem rand_has_full_period i j s :
  is_int s -> Nat.iter i rand s = Nat.iter j rand s <-> (2 ^ 32 | Z.of_nat i - Z.of_nat j).
Proof.
  intros Hs.
  assert (forall i j, (i <= j)%nat -> Nat.iter i rand s = Nat.iter j rand s <-> (2 ^ 32 | Z.of_nat (j - i))) as Hle.
  { clear i j. intros i j Hij. rewrite <- rand_returns by done. assert (Nat.iter j rand s = Nat.iter i rand (Nat.iter (j - i) rand s)) as -> by (rewrite <- Nat.iter_add; f_equal; lia).
    pose proof (proj1 (rand_iter (j - i) s Hs)) as Hd. set (t := Nat.iter (j - i) rand s) in *. clearbody t. clear Hij.
    split; [|by intros ->]. induction i as [|i IH]; [done|]. change (rand (Nat.iter i rand s) = rand (Nat.iter i rand t) -> t = s). intros E. apply IH. apply rand_injective; [by apply rand_iter|by apply rand_iter|done]. }
  destruct (Nat.le_ge_cases i j) as [H|H].
  - rewrite Hle by done. replace (Z.of_nat i - Z.of_nat j) with (- Z.of_nat (j - i)) by lia. by rewrite Z.divide_opp_r.
  - transitivity (Nat.iter j rand s = Nat.iter i rand s); [split; by intros ->|]. rewrite Hle by done. by replace (Z.of_nat i - Z.of_nat j) with (Z.of_nat (i - j)) by lia.
Qed.

Lemma rand_has_full_period_witness :
  Nat.iter 1 rand initial_seed = Nat.iter 2 rand initial_seed <-> (2 ^ 32 | 1 - 2).
Proof. apply (rand_has_full_period 1 2 initial_seed). unfold is_int, initial_seed. lia. Defined.

(** ** Integer functions of the mathematical library *)

(** [for (i = 1; i < x + 1; i++) a *= i;], [n] rounds to go. *)
Fixpoint fac_loop (n : nat) (i a : Z) : Z := match n with O => a | S n' => fac_loop n' (i + 1) (u32 (a * i)) end.
Definition fac (x : Z) : Z := fac_loop (Z.to_nat (u32 (x + 1) - 1)) 1 1.

Fixpoint ipow_loop (n : nat) (value val : Z) : Z := match n with O => value | S n' => ipow_loop n' (u32 (value * val)) val end.
Definition ipow (val exp : Z) : Z := ipow_loop (Z.to_nat (exp - 1)) val val.

(** The position of the highest bit, from 1; 0 for 0 ([bsr]). *)
Definition bit_ls (x : Z) : Z := if x =? 0 then 0 else Z.log2 x + 1.

(** Powers are right as long as they fit, except that the power 0 gives the base. *)
Theorem ipow_is_power val exp : 0 <= val -> 1 <= exp -> val ^ exp < 2 ^ 32 -> ipow val exp = val ^ exp.
Proof.
  intros Hv He Hb. unfold ipow. replace exp with (1 + Z.of_nat (Z.to_nat (exp - 1))) in Hb |- * by lia.
  replace (1 + Z.of_nat (Z.to_nat (exp - 1)) - 1) with (exp - 1) by lia. set (n := Z.to_nat (exp - 1)) in *.
  assert (forall n k, 0 <= k -> val ^ (k + Z.of_nat n) < 2 ^ 32 -> ipow_loop n (val ^ k) val = val ^ (k + Z.of_nat n)) as Hloop.
  { clear -Hv. induction n as [|n IH]; intros k Hk Hb; [cbn [ipow_loop]; f_equal; lia|]. cbn [ipow_loop].
    replace (k + Z.of_nat (S n)) with (k + 1 + Z.of_nat n) in * by lia.
    assert (0 <= val ^ (k + 1) < 2 ^ 32) as Hr.
    { split; [apply Z.pow_nonneg; lia|]. destruct (Z.eq_dec val 0) as [->|]; [rewrite Z.pow_0_l by lia; lia|].
      eapply Z.le_lt_trans; [|exact Hb]. apply Z.pow_le_mono_r; lia. }
    rewrite Z.mul_comm, <- Z.pow_succ_r by done. rewrite <- Z.add_1_r, u32_small by done. apply IH; [lia|done]. }
  pose proof (Hloop n 1 ltac:(lia) Hb) as E. by rewrite Z.pow_1_r in E.
Qed.

Theorem ipow_zero val : ipow val 0 = val.
Proof. reflexivity. Qed.

(** The first factorial that does not fit. *)
Theorem fac_overflows : fac 12 = 479001600 /\ fac 13 <> 6227020800.
Proof. split; [reflexivity|discriminate]. Qed.

Theorem bit_ls_bounds x : 0 < x -> 2 ^ (bit_ls x - 1) <= x < 2 ^ bit_ls x.
Proof.
  intros Hx. unfold bit_ls. rewrite (proj2 (Z.eqb_neq x 0)) by lia. replace (Z.log2 x + 1 - 1) with (Z.log2 x) by lia.
  rewrite Z.add_1_r. by apply Z.log2_spec.
Qed.
