(* ===== verification/Serial.v ===== *)
(** * Serial port and speaker (kernel/src/arch/x86/serial_port.c, drv/beeper.c)

    The log of the kernel leaves by the first serial port, character by character; numbers
    are turned into digits here.  Formats with their arguments are not modelled: nothing
    calls them, the log formats with lib/sprintf.c. *)
From Stdlib Require Import ZArith Lia.
From stdpp Require Import base list numbers.
From S2P Require Import Prelude Bytes Ports.
From S2P Require Strings.

#[local] Open Scope Z_scope.

Section Serial.
Context {D : Type} `{Dports : PortIO D}.
(** Polls after which the port counts as never ready. *)
Variable polls : nat.

(** ** Characters *)

Definition __com_is_ready (port : Z) : IO D Z := s ← inb (port + 5); mret (Z.land s 0x20).

Fixpoint ready_wait (n : nat) (port : Z) : IO D unit :=
  match n with
  | O => hang
  | S n' => r ← __com_is_ready port; if r =? 0 then ready_wait n' port else mret tt
  end.

Definition __com_writeChar (port a : Z) : IO D unit := _ ← ready_wait polls port; outb port a.

Fixpoint write_chars (port : Z) (l : list Z) : IO D unit :=
  match l with
  | [] => mret tt
  | c :: l' => _ ← __com_writeChar port c; write_chars port l'
  end.

(** [buf] is the memory that starts at the pointer. *)
Definition __com_writeString (port : Z) (buf : list Z) : IO D unit :=
  len ← lift (Strings.strlen buf);
  chars ← lift (get_bytes buf 0 len);
  write_chars port chars.

(** ** Numbers *)

(** [while(i > 0) { buffer[index++] = '0' + (i % 10); i /= 10; }]: what is put into the
    buffer, from index 0 on; ten digits are enough for 32 bits. *)
Fixpoint digits_of (fuel : nat) (i : Z) : outcome (list Z) :=
  match fuel with
  | O => Hang
  | S fuel' => if 0 <? i then l ← digits_of fuel' (i / 10); Done (48 + i mod 10 :: l) else Done []
  end.

Definition digit_rounds : nat := 11.

(** [while(index--) __com_writeChar(port, buffer[index]);] *)
Definition write_reversed (port : Z) (buffer : list Z) : IO D unit := write_chars port (rev buffer).

Definition __com_writeInt (port i : Z) : IO D unit :=
  if i =? 0 then __com_writeChar port 48
  else
    let minus := i <? 0 in
    let i := if minus then s32 (- i) else i in
    _ ← (if minus then __com_writeChar port 45 else mret tt);
    buffer ← lift (digits_of digit_rounds i);
    write_reversed port buffer.

Definition __com_writeUInt (port i : Z) : IO D unit :=
  buffer ← lift (digits_of digit_rounds i); write_reversed port buffer.

Definition hex : list Z := [48; 49; 50; 51; 52; 53; 54; 55; 56; 57; 65; 66; 67; 68; 69; 70].

(** [while ((i / d == 0) && (d >= 0x10)) d /= 0x10;] *)
Fixpoint hex_start (fuel : nat) (i d : Z) : outcome Z :=
  match fuel with
  | O => Hang
  | S fuel' => if (i / d =? 0) && (0x10 <=? d) then hex_start fuel' i (d / 0x10) else Done d
  end.

(** The characters up to the last; the rest that is left is its index. *)
Fixpoint hex_digits (fuel : nat) (n d : Z) : outcome (list Z * Z) :=
  match fuel with
  | O => Hang
  | S fuel' =>
      if 0xF <=? d then
        c ← array_get hex (n / d);
        '(l, n') ← hex_digits fuel' (n mod d) (d / 0x10);
        Done (c :: l, n')
      else Done ([], n)
  end.

Definition hex_text (i : Z) : outcome (list Z) :=
  d ← hex_start 8 i 0x10000000;
  '(l, n) ← hex_digits 8 i d;
  c ← array_get hex n;
  Done (l ++ [c]).

Definition __com_writeHex (port i : Z) : IO D unit := l ← lift (hex_text i); write_chars port l.

(** ** The port *)

(** 0 if the chip sends back what it is sent in loopback mode. *)
Definition __com_init (port : Z) : IO D Z :=
  _ ← outb (port + 1) 0x00;
  _ ← outb (port + 3) 0x80;
  _ ← outb (port + 0) 0x02;
  _ ← outb (port + 1) 0x00;
  _ ← outb (port + 3) 0x03;
  _ ← outb (port + 2) 0xC7;
  _ ← outb (port + 4) 0x0B;
  _ ← outb (port + 4) 0x1E;
  _ ← outb (port + 0) 0xAE;
  b ← inb (port + 0);
  if negb (b =? 0xAE) then mret 1
  else _ ← outb (port + 4) 0x0F; mret 0.

(** ** The speaker (drv/beeper.c) *)

Definition beeperPlay (getFrequency frequency : Z) : IO D unit :=
  let Div := u32 (getFrequency * 1000) in
  if frequency =? 0 then lift Fault
  else
    let Div := Div / frequency in
    _ ← outb 0x43 0xb6;
    _ ← outb 0x42 (u8 Div);
    _ ← outb 0x42 (u8 (Z.shiftr Div 8));
    tmp ← inb 0x61;
    if negb (tmp =? Z.lor tmp 3) then outb 0x61 (Z.lor tmp 3) else mret tt.

Definition beeperSilent : IO D unit := tmp ← inb 0x61; outb 0x61 (Z.land tmp 0xFC).

(** ** Numbers are written so that they can be read *)

Definition decimal_text (i : Z) : outcome (list Z) := l ← digits_of digit_rounds i; Done (rev l).

(** The characters of a number with its sign. *)
Definition int_text (i : Z) : outcome (list Z) :=
  if i =? 0 then Done [48]
  else
    l ← decimal_text (if i <? 0 then s32 (- i) else i);
    Done ((if i <? 0 then [45] else []) ++ l).

Lemma write_chars_one port c d : write_chars port [c] d = __com_writeChar port c d.
Proof. cbn [write_chars]. unfold mbind, IO_bind. destruct (__com_writeChar port c d) as [[[] d']| |]; done. Qed.

Lemma digits_of_run fuel i :
  0 <= i < 10 ^ Z.of_nat fuel -> exists l, digits_of (S fuel) i = Done l /\ Strings.digits l /\ Strings.decimal (rev l) = i.
Proof.
  revert i. induction fuel as [|fuel IH]; intros i Hi.
  - change (10 ^ Z.of_nat 0) with 1 in Hi. assert (i = 0) as -> by lia. exists []. repeat split; constructor.
  - remember (S fuel) as m. cbn [digits_of]. subst m. destruct (Z.ltb_spec 0 i) as [H|H].
    + destruct (IH (i / 10)) as (l & -> & Hl & Ed).
      { rewrite Nat2Z.inj_succ, Z.pow_succ_r in Hi by lia. split; [apply Z.div_pos; lia|apply Z.div_lt_upper_bound; lia]. }
      cbn [mbind outcome_bind]. exists (48 + i mod 10 :: l). pose proof (Z.mod_pos_bound i 10 ltac:(lia)). split; [done|]. split; [constructor; [lia|done]|].
      cbn [rev]. unfold Strings.decimal in *. rewrite fold_left_app, Ed. cbn [fold_left]. pose proof (Z.div_mod i 10). lia.
    + exists []. repeat split; [constructor|cbn; lia].
Qed.

Lemma decimal_text_run i :
  0 <= i < 2 ^ 32 -> exists l, decimal_text i = Done l /\ Strings.digits l /\ Strings.decimal l = i.
Proof.
  intros Hi. destruct (digits_of_run 10 i ltac:(lia)) as (l & E & Hl & Ed). unfold decimal_text, digit_rounds. rewrite E. cbn [mbind outcome_bind].
  exists (rev l). split; [done|]. split; [|done]. unfold Strings.digits in *. by apply List.Forall_rev.
Qed.

Lemma writeInt_text port i l d : int_text i = Done l -> __com_writeInt port i d = write_chars port l d.
Proof.
  unfold __com_writeInt, int_text, write_reversed, decimal_text. destruct (Z.eqb_spec i 0) as [->|H].
  - intros [= <-]. by rewrite write_chars_one.
  - intros E. destruct (digits_of digit_rounds (if i <? 0 then s32 (- i) else i)) as [b| |]; try done. injection E as <-.
    destruct (i <? 0); cbn [app write_chars]; unfold mbind, IO_bind, lift, mret, IO_ret; [|done].
    destruct (__com_writeChar port 45 d) as [[[] d']| |]; done.
Qed.

Lemma int_text_run i : - 2 ^ 31 < i < 2 ^ 31 -> exists l, int_text i = Done l /\ Strings.atoi (l ++ [0]) = Done i.
Proof.
  intros Hi. unfold int_text. destruct (Z.eqb_spec i 0) as [->|Hne]; [by exists [48]|].
  assert (forall ds, Strings.digits ds -> Strings.decimal ds < 2 ^ 31 -> ds <> [] -> Strings.atoi (ds ++ [0]) = Done (Strings.decimal ds) /\
    Strings.atoi (45 :: ds ++ [0]) = Done (- Strings.decimal ds)) as Hatoi.
  { intros ds Hds Hlt Hn. destruct (Strings.number_parsers ds [] [] 0 0 [] Hds eq_refl Hlt) as (H1 & H2 & _); [constructor|done|constructor|].
    split; [by apply H1; left|done]. }
  destruct (Z.ltb_spec i 0) as [Hn|Hn].
  - rewrite s32_small by lia. destruct (decimal_text_run (- i) ltac:(lia)) as (l & -> & Hl & Ed). cbn [mbind outcome_bind app].
    exists (45 :: l). split; [done|]. destruct (Hatoi l) as [_ H2]; [done|lia|intros ->; cbn in Ed; lia|]. cbn [app]. rewrite H2, Ed. f_equal. lia.
  - destruct (decimal_text_run i ltac:(lia)) as (l & -> & Hl & Ed). cbn [mbind outcome_bind app].
    exists l. split; [done|]. destruct (Hatoi l) as [H1 _]; [done|lia|intros ->; cbn in Ed; lia|]. by rewrite H1, Ed.
Qed.

(** *** Hexadecimal *)

Lemma hex_char n : 0 <= n < 16 -> exists c, array_get hex n = Done c /\ Strings.hex_digit c = Some n.
Proof.
  intros Hn. assert (forallb (fun k => match array_get hex k with Done c => bool_decide (Strings.hex_digit c = Some k) | _ => false end) (seqZ 0 16) = true) as H
    by reflexivity.
  rewrite forallb_forall in H. specialize (H n). rewrite <- list_elem_of_In, elem_of_seqZ in H. specialize (H Hn).
  destruct (array_get hex n) as [c| |]; [|done|done]. exists c. split; [done|]. by apply bool_decide_eq_true in H.
Qed.

Definition hex_value (l : list Z) (acc : Z) : Z := fold_left (fun n c => n * 16 + Strings.hex_value c) l acc.

Lemma hex_digits_run k fuel n :
  (k < fuel)%nat -> 0 <= n < 16 ^ (Z.of_nat k + 1) ->
  exists l n' c, hex_digits fuel n (16 ^ Z.of_nat k) = Done (l, n') /\ array_get hex n' = Done c /\
    Strings.hex_digits (l ++ [c]) /\ forall acc, hex_value (l ++ [c]) acc = acc * 16 ^ (Z.of_nat k + 1) + n.
Proof.
  revert fuel n. induction k as [|k IH]; intros fuel n Hf Hn; (destruct fuel as [|fuel]; [lia|]).
  - change (16 ^ (Z.of_nat 0 + 1)) with 16 in *. destruct (hex_char n Hn) as (c & Hc & Hv). exists [], n, c. split; [done|]. split; [done|].
    split; [constructor; [by rewrite Hv|constructor]|]. intros acc. cbn. unfold Strings.hex_value. by rewrite Hv.
  - assert (0 < 16 ^ Z.of_nat k) as Hp by (apply Z.pow_pos_nonneg; lia).
    assert (16 ^ Z.of_nat (S k) = 16 * 16 ^ Z.of_nat k) as E1 by (rewrite Nat2Z.inj_succ, Z.pow_succ_r by lia; done).
    assert (16 ^ (Z.of_nat (S k) + 1) = 256 * 16 ^ Z.of_nat k) as E2 by (rewrite Z.pow_add_r, E1 by lia; change (16 ^ 1) with 16; lia).
    assert (16 ^ (Z.of_nat k + 1) = 16 * 16 ^ Z.of_nat k) as E3 by (rewrite Z.pow_add_r by lia; change (16 ^ 1) with 16; lia).
    cbn [hex_digits]. rewrite (proj2 (Z.leb_le _ _)) by lia.
    assert (0 <= n / 16 ^ Z.of_nat (S k) < 16) as Hq by (split; [apply Z.div_pos; lia|apply Z.div_lt_upper_bound; lia]).
    destruct (hex_char _ Hq) as (c0 & -> & Hv0). cbn [mbind outcome_bind].
    assert (16 ^ Z.of_nat (S k) / 0x10 = 16 ^ Z.of_nat k) as -> by (rewrite E1, Z.mul_comm; by apply Z.div_mul).
    destruct (IH fuel (n mod 16 ^ Z.of_nat (S k))) as (l & n' & c & E & Hc & Hh & Hval); [lia|rewrite E3, <- E1; apply Z.mod_pos_bound; lia|].
    rewrite E. cbn [mbind outcome_bind]. exists (c0 :: l), n', c. split; [done|]. split; [done|]. split; [constructor; [by rewrite Hv0|done]|].
    intros acc. unfold hex_value in *. cbn [app fold_left]. rewrite Hval, E2, E3. unfold Strings.hex_value. rewrite Hv0.
    pose proof (Z.div_mod n (16 ^ Z.of_nat (S k)) ltac:(lia)). lia.
Qed.

Lemma hex_start_run k i :
  0 <= i < 16 ^ (Z.of_nat k + 1) -> exists j, (j <= k)%nat /\ hex_start (S k) i (16 ^ Z.of_nat k) = Done (16 ^ Z.of_nat j) /\ i < 16 ^ (Z.of_nat j + 1).
Proof.
  induction k as [|k IH]; intros Hi.
  - exists 0%nat. split; [done|]. split; [|lia]. cbn [hex_start]. change (16 ^ Z.of_nat 0) with 1. by rewrite andb_false_r.
  - remember (S k) as m. cbn [hex_start]. subst m. assert (0 < 16 ^ Z.of_nat k) as Hp by (apply Z.pow_pos_nonneg; lia).
    assert (16 ^ Z.of_nat (S k) = 16 * 16 ^ Z.of_nat k) as E1 by (rewrite Nat2Z.inj_succ, Z.pow_succ_r by lia; done).
    rewrite (proj2 (Z.leb_le _ _)), andb_true_r by lia.
    destruct (Z.eqb_spec (i / 16 ^ Z.of_nat (S k)) 0) as [H|H].
    + assert (i < 16 ^ Z.of_nat (S k)) as Hlt by (apply Z.div_small_iff in H; lia).
      assert (16 ^ Z.of_nat (S k) / 0x10 = 16 ^ Z.of_nat k) as -> by (rewrite E1, Z.mul_comm; by apply Z.div_mul).
      destruct IH as (j & Hj & E & Hb). { replace (Z.of_nat k + 1) with (Z.of_nat (S k)) by lia. lia. }
      exists j. split; [lia|]. by split.
    + exists (S k). split; [done|]. split; [done|lia].
Qed.

Lemma hex_text_run i : 0 <= i < 2 ^ 32 -> exists l, hex_text i = Done l /\ Strings.htoi (l ++ [0]) = Done i.
Proof.
  intros Hi. unfold hex_text. destruct (hex_start_run 7 i) as (j & Hj & E & Hb); [change (16 ^ (Z.of_nat 7 + 1)) with (2 ^ 32); done|].
  change (16 ^ Z.of_nat 7) with 0x10000000 in E. rewrite E. cbn [mbind outcome_bind].
  destruct (hex_digits_run j 8 i) as (l & n' & c & -> & Hc & Hh & Hval); [lia|lia|]. cbn [mbind outcome_bind]. rewrite Hc. cbn [mbind outcome_bind].
  exists (l ++ [c]). split; [done|]. unfold Strings.htoi. change 0 with (u32 0) at 2. rewrite Strings.htoi_digits_spec by done.
  specialize (Hval 0). unfold hex_value in Hval. rewrite Hval. f_equal. rewrite u32_small; lia.
Qed.

(** The numbers of the log read back: the characters that the port is given for an [int] are
    those from which [atoi] makes it again, and for hexadecimal numbers [htoi] does. *)
Theorem numbers_read_back i h port :
  - 2 ^ 31 < i < 2 ^ 31 -> 0 <= h < 2 ^ 32 ->
  (exists l, (forall d, __com_writeInt port i d = write_chars port l d) /\ Strings.atoi (l ++ [0]) = Done i) /\
  (exists l, (forall d, __com_writeHex port h d = write_chars port l d) /\ Strings.htoi (l ++ [0]) = Done h).
Proof.
  intros Hi Hh. split.
  - destruct (int_text_run i Hi) as (l & E & Ha). exists l. split; [|done]. intros d. by apply writeInt_text.
  - destruct (hex_text_run h Hh) as (l & E & Ha). exists l. split; [|done]. intros d. unfold __com_writeHex. by rewrite E.
Qed.

(** A number without sign is written in full, except that nothing is written for 0. *)
Theorem zero_without_sign port d : __com_writeUInt port 0 d = Done (tt, d).
Proof. reflexivity. Qed.

(** The least [int] keeps its sign when it is negated: only the minus is written. *)
Theorem least_int_is_a_minus : int_text (- 2 ^ 31) = Done [45].
Proof. reflexivity. Qed.

(** The speaker divides the clock by the frequency, in the 16 bits that the timer has. *)
Theorem beep_frequency getFrequency frequency d :
  0 < frequency -> 0 <= getFrequency * 1000 < 2 ^ 32 -> getFrequency * 1000 / frequency < 2 ^ 16 ->
  let Div := getFrequency * 1000 / frequency in
  let d1 := port_outb 0x42 (Div / 256) (port_outb 0x42 (Div mod 256) (port_outb 0x43 0xb6 d)) in
  beeperPlay getFrequency frequency d =
    Done (tt, let '(tmp, d2) := port_inb 0x61 d1 in if tmp =? Z.lor tmp 3 then d2 else port_outb 0x61 (u8 (Z.lor tmp 3)) d2).
Proof.
  intros Hf Hr Hb Div d1. unfold beeperPlay. rewrite u32_small, (proj2 (Z.eqb_neq frequency 0)) by lia. fold Div.
  assert (0 <= Div) by (apply Z.div_pos; lia).
  unfold outb, inb, mbind, IO_bind. change (u16 0x43) with 0x43. change (u16 0x42) with 0x42. change (u16 0x61) with 0x61. change (u8 0xb6) with 0xb6.
  assert (u8 (u8 Div) = Div mod 256) as -> by (unfold u8; by rewrite Z.mod_mod).
  assert (u8 (u8 (Z.shiftr Div 8)) = Div / 256) as ->.
  { rewrite Z.shiftr_div_pow2 by lia. change (2 ^ 8) with 256. assert (0 <= Div / 256 < 256) by (split; [apply Z.div_pos; lia|apply Z.div_lt_upper_bound; lia]).
    by rewrite !(u8_small (Div / 256)) by lia. }
  fold d1. destruct (port_inb 0x61 d1) as [tmp d2]. by destruct (tmp =? Z.lor tmp 3).
Qed.

End Serial.

#[local] Instance PortIO_unit : PortIO unit := {
  port_inb _ d := (0, d); port_inw _ d := (0, d); port_inl _ d := (0, d);
  port_outb _ _ d := d; port_outw _ _ d := d; port_outl _ _ d := d; time_passes _ d := d
}.

Lemma numbers_read_back_witness :
  (exists l, (forall d : unit, __com_writeInt 1 0x3F8 (-2026) d = write_chars 1 0x3F8 l d) /\ Strings.atoi (l ++ [0]) = Done (-2026)) /\
  (exists l, (forall d : unit, __com_writeHex 1 0x3F8 0xC0FFEE d = write_chars 1 0x3F8 l d) /\ Strings.htoi (l ++ [0]) = Done 0xC0FFEE).
Proof. apply (numbers_read_back 1 (-2026) 0xC0FFEE 0x3F8); lia. Defined.
