(* ===== verification/Bootscreen.v ===== *)
(** * Text on the screen and the boot screen (kernel/src/drv/psf.c, sys/bootscreen.c)

    Strings are drawn glyph by glyph, a pair of bytes that starts with 0xD0 or 0xD1 being one
    Cyrillic letter; the boot screen shows a title and a bar that grows with every stage.
    The glyphs themselves are drawn in Rust, and the terminal is Rust's. *)
From Stdlib Require Import ZArith Lia.
From stdpp Require Import base list numbers.
From S2P Require Import Prelude Screen.
From S2P Require Strings Bytes.

#[local] Open Scope Z_scope.

(** ** Strings of glyphs (drv/psf.c) *)

(** The letters with the column of each, up to the edge of the screen; [text] is the memory
    from the pointer on, so that a lead byte at the end takes what is behind the string. *)
Fixpoint glyphs (fuel : nat) (text : list Z) (len i x scrwidth : Z) : outcome (list (Z * Z)) :=
  match fuel with
  | O => Hang
  | S fuel' =>
      if i <? len then
        if s32 (x + 8) <=? s32 scrwidth then
          ch ← array_get text i;
          if (ch =? 0xd0) || (ch =? 0xd1) then
            ch2 ← array_get text (i + 1);
            l ← glyphs fuel' text len (i + 2) (s32 (x + 8)) scrwidth;
            Done ((Z.lor (u16 (Z.shiftl ch 8)) ch2, x) :: l)
          else
            l ← glyphs fuel' text len (i + 1) (s32 (x + 8)) scrwidth;
            Done ((ch, x) :: l)
        else Done []
      else Done []
  end.

Section Drawing.
(** [rs_draw_character] with the font of the kernel: character, place and color. *)
Variable rs_draw_character : Z -> Z -> Z -> Z -> screen -> outcome screen.

Fixpoint draw_glyphs (l : list (Z * Z)) (y color : Z) (s : screen) : outcome screen :=
  match l with
  | [] => Done s
  | (ch, x) :: l' => s ← rs_draw_character ch x y color s; draw_glyphs l' y color s
  end.

(** No text is the null pointer. *)
Definition draw_vga_str (text : option (list Z)) (len x y color : Z) (s : screen) : outcome screen :=
  match text with
  | None => Done s
  | Some text =>
      l ← glyphs (S (Z.to_nat len)) text len 0 (s32 x) (getScreenWidth s);
      draw_glyphs l y color s
  end.

Definition draw_character (ch pos_x pos_y color : Z) : screen -> outcome screen := rs_draw_character (u16 ch) pos_x pos_y color.

(** ** The boot screen (sys/bootscreen.c) *)

Record bootscreen := Bootscreen {
  bootscreen_initialized : bool;
  theme : Z;
  maxStrLine : Z;
  maxHeightLine : Z;
  lazy : bool;
  curElem : Z;
  maxElem : Z;
  mode : Z
}.

Definition txColorDark : Z := 0x92D7D4.
Definition bgColorDark : Z := 0x000000.
Definition bgColorLight : Z := 0xD6D2D0.
Definition txColorLight : Z := 0x2D3C5D.

Definition initial_bootscreen : bootscreen := Bootscreen false 0 0 0 false 0 10 0.

Definition with_init (b : bool) (s : bootscreen) : bootscreen :=
  Bootscreen b (theme s) (maxStrLine s) (maxHeightLine s) (lazy s) (curElem s) (maxElem s) (mode s).
Definition with_lines (w h : Z) (s : bootscreen) : bootscreen :=
  Bootscreen (bootscreen_initialized s) (theme s) w h (lazy s) (curElem s) (maxElem s) (mode s).
Definition with_elem (c : Z) (s : bootscreen) : bootscreen :=
  Bootscreen (bootscreen_initialized s) (theme s) (maxStrLine s) (maxHeightLine s) (lazy s) c (maxElem s) (mode s).
Definition with_max (m : Z) (s : bootscreen) : bootscreen :=
  Bootscreen (bootscreen_initialized s) (theme s) (maxStrLine s) (maxHeightLine s) (lazy s) (curElem s) m (mode s).

Definition bootScreenLazy (l : bool) (s : bootscreen) : bootscreen :=
  Bootscreen (bootscreen_initialized s) (theme s) (maxStrLine s) (maxHeightLine s) l (curElem s) (maxElem s) (mode s).
Definition bootScreenChangeTheme (th : Z) (s : bootscreen) : bootscreen :=
  Bootscreen (bootscreen_initialized s) th (maxStrLine s) (maxHeightLine s) (lazy s) (curElem s) (maxElem s) (mode s).
Definition bootScreenChangeMode (m : Z) (s : bootscreen) : bootscreen :=
  Bootscreen (bootscreen_initialized s) (theme s) (maxStrLine s) (maxHeightLine s) (lazy s) (curElem s) (maxElem s) m.

Definition bootScreenTheme (s : bootscreen) (type : Z) : Z :=
  if (2 <=? theme s) || (3 <=? type) then txColorDark
  else if theme s =? 0 then if type =? 0 then txColorDark else if type =? 1 then bgColorDark else 0x262626
  else if type =? 0 then txColorLight else if type =? 1 then bgColorLight else 0x262626.

(** What the boot screen tells the terminal. *)
Record tty_t := Tty { tty_text_color : Z; tty_bg_color : Z; tty_pos_x : Z; tty_pos_y : Z; tty_printed : list (list Z) }.

Definition tty_setcolor (c : Z) (t : tty_t) : tty_t := Tty c (tty_bg_color t) (tty_pos_x t) (tty_pos_y t) (tty_printed t).
Definition tty_set_bgcolor (c : Z) (t : tty_t) : tty_t := Tty (tty_text_color t) c (tty_pos_x t) (tty_pos_y t) (tty_printed t).
Definition tty_set_pos (x y : Z) (t : tty_t) : tty_t := Tty (tty_text_color t) (tty_bg_color t) x y (tty_printed t).
Definition tty_print (l : list Z) (t : tty_t) : tty_t :=
  Tty (tty_text_color t) (tty_bg_color t) (tty_pos_x t) (tty_pos_y t) (tty_printed t ++ [l]).

Record display := Display { boot : bootscreen; tty : tty_t; scr : screen }.

Definition bootScreenClose (bg tx : Z) (d : display) : outcome display :=
  if negb (bootscreen_initialized (boot d)) then Done d
  else
    s ← drawRect 0 0 (getScreenWidth (scr d)) (getScreenHeight (scr d)) bg (scr d);
    Done (Display (boot d) (tty_set_pos 0 0 (tty_setcolor tx (tty d))) s).

(** The lines with the version, as they are printed, and "(c) NocturneOS Team". *)
Variable version_text : list Z.
Definition about : list Z := [40; 99; 41; 32; 78; 111; 99; 116; 117; 114; 110; 101; 79; 83; 32; 84; 101; 97; 109; 0].

Definition bootScreenInfo (d : display) : outcome display :=
  let t := tty_set_pos 0 0 (tty d) in
  if lazy (boot d) then Done (Display (boot d) (tty_set_pos 0 5 t) (scr d))
  else
    let centerAbout := u32 (maxStrLine (boot d) / 2 - 19 / 2) in
    let x := u32 ((1 + centerAbout) * 8) in
    let y := u32 (getScreenHeight (scr d) - 32) in
    s ← draw_vga_str (Some about) 19 x y (bootScreenTheme (boot d) 2) (scr d);
    Done (Display (boot d) (tty_set_pos 0 5 (tty_print version_text t)) s).

(** Percent of the stages; dividing by no stages traps. *)
Definition bootScreenProcentPaint (d : display) : outcome display :=
  let b := boot d in
  let c := u32 (curElem b + 1) in
  let c := if maxElem b <=? c then maxElem b else c in
  let b := with_elem c b in
  let padding_h := maxHeightLine b / 4 in
  if maxElem b =? 0 then Fault
  else
    let proc := u32 (c * 100) / maxElem b in
    s ← drawRect (8 * 8) (u32 (16 * u32 (maxHeightLine b - padding_h + 2))) (u32 (proc * 7)) 16 (bootScreenTheme b 0) (scr d);
    Done (Display b (tty d) s).

(** [title] is the memory from the pointer on. *)
Definition bootScreenPaint (title : list Z) (d : display) : outcome display :=
  let b := boot d in
  if negb (bootscreen_initialized b) then Done d
  else
    len ← Strings.strlen title;
    let t := tty_setcolor (bootScreenTheme b 0) (tty_set_bgcolor (bootScreenTheme b 1) (tty d)) in
    if mode b =? 1 then
      s ← screen_update (scr d);
      Done (Display b (tty_print (take (Z.to_nat len) title ++ [10]) t) s)
    else
      let b := with_lines (u32 (getScreenWidth (scr d) / 8 - 2)) (getScreenHeight (scr d) / 16) b in
      mb_len ← Strings.mb_strlen title;
      let centerTitle := u32 (maxStrLine b / 2 - mb_len / 2) in
      let padding_h := maxHeightLine b / 4 in
      let y := u32 (16 * u32 (maxHeightLine b - padding_h)) in
      s ← (if lazy b then drawRect 0 y (getScreenWidth (scr d)) 16 (bootScreenTheme b 1) (scr d)
           else drawRect 0 0 (getScreenWidth (scr d)) (getScreenHeight (scr d)) (bootScreenTheme b 1) (scr d));
      let x := u32 ((1 + centerTitle) * 8) in
      s ← draw_vga_str (Some title) len x y (bootScreenTheme b 0) s;
      d ← bootScreenInfo (Display b t s);
      d ← bootScreenProcentPaint d;
      s ← screen_update (scr d);
      Done (Display (boot d) (tty d) s).

(** "Загрузка..." *)
Definition loading : list Z :=
  [0xD0; 0x97; 0xD0; 0xB0; 0xD0; 0xB3; 0xD1; 0x80; 0xD1; 0x83; 0xD0; 0xB7; 0xD0; 0xBA; 0xD0; 0xB0; 46; 46; 46; 0].

Definition bootScreenInit (count : Z) (d : display) : outcome display :=
  let b := with_init true (with_lines (u32 (getScreenWidth (scr d) / 8 - 2)) (getScreenHeight (scr d) / 16) (with_max count (boot d))) in
  bootScreenPaint loading (Display b (tty d) (scr d)).

End Drawing.

(** ** Titles *)

Inductive letter :=
  | Plain (c : Z)
  | Cyrillic (lead second : Z).

Definition letter_ok (l : letter) : Prop :=
  match l with
  | Plain c => 0 < c < 128
  | Cyrillic a b => (a = 0xd0 \/ a = 0xd1) /\ 0x80 <= b < 0xC0
  end.

Definition letter_bytes (l : letter) : list Z := match l with Plain c => [c] | Cyrillic a b => [a; b] end.
Definition letter_code (l : letter) : Z := match l with Plain c => c | Cyrillic a b => 256 * a + b end.
Definition spelled (ls : list letter) : list Z := concat (map letter_bytes ls).

Lemma letter_text ls : Forall letter_ok ls -> Strings.text (spelled ls).
Proof.
  induction 1 as [|l ls Hl _ IH]; [constructor|]. unfold spelled in *. cbn [map concat]. apply list.Forall_app. split; [|exact IH].
  destruct l as [c|a b]; cbn in *; repeat (apply list.Forall_cons; split); try lia; apply list.Forall_nil_2.
Qed.

(** Letters are counted as they are drawn. *)
Lemma count_letters ls rest n : Forall letter_ok ls ->
  Strings.count_chars (length (spelled ls)) (spelled ls ++ rest) n = Done (n + Z.of_nat (length ls)).
Proof.
  intros Hls. revert n. induction Hls as [|l ls Hl _ IH]; intros n; [cbn; f_equal; lia|].
  unfold spelled in *. cbn [map concat]. rewrite <- app_assoc, length_app.
  assert (forall c, c <> 0xd0 -> c <> 0xd1 -> 0 < c < 256 -> Strings.isUTF c = false) as Hn.
  { intros c H1 H2 H3. unfold Strings.isUTF. apply orb_false_iff. split; apply Z.eqb_neq; unfold s8; Z.to_euclidean_division_equations; lia. }
  destruct l as [c|a b]; cbn [letter_bytes length app Nat.add Strings.count_chars tail letter_ok] in *.
  - change (array_get (c :: ?x) 0) with (Done c). cbn [mbind outcome_bind]. rewrite Hn by lia. rewrite IH. f_equal. lia.
  - change (array_get (a :: b :: concat (map letter_bytes ls) ++ rest) 0) with (Done a).
    change (array_get (b :: concat (map letter_bytes ls) ++ rest) 0) with (Done b). cbn [mbind outcome_bind].
    assert (Strings.isUTF a = true) as -> by (destruct Hl as [[-> | ->] _]; reflexivity). rewrite Hn by lia. rewrite IH. f_equal. lia.
Qed.

Lemma mb_strlen_letters ls rest : Forall letter_ok ls -> Strings.mb_strlen (Strings.cstr (spelled ls) rest) = Done (Z.of_nat (length ls)).
Proof.
  intros Hls. unfold Strings.mb_strlen. rewrite Strings.strlen_cstr by by apply letter_text. cbn [mbind outcome_bind]. rewrite Nat2Z.id.
  unfold Strings.cstr. by rewrite count_letters.
Qed.

Lemma spelled_length ls : (length ls <= length (spelled ls))%nat.
Proof. induction ls as [|l ls IH]; [done|]. unfold spelled in *. cbn [map concat length]. rewrite length_app. destruct l; cbn; lia. Qed.

Lemma glyphs_run ls fuel text rest i x w :
  Forall letter_ok ls -> 0 <= i -> drop (Z.to_nat i) text = spelled ls ++ rest -> (length ls < fuel)%nat ->
  0 <= x -> x + 8 * Z.of_nat (length ls) <= w < 2 ^ 31 ->
  glyphs fuel text (i + Z.of_nat (length (spelled ls))) i x w = Done (imap (fun k l => (letter_code l, x + 8 * Z.of_nat k)) ls).
Proof.
  intros Hls. revert fuel i x. induction Hls as [|l ls Hl _ IH]; intros fuel i x Hi Hd Hf Hx Hw; (destruct fuel as [|fuel]; [cbn in Hf; lia|]); cbn [glyphs].
  - rewrite (proj2 (Z.ltb_ge _ _)) by (cbn; lia). done.
  - unfold spelled in *. cbn [map concat] in *. rewrite <- app_assoc in Hd. rewrite length_app. cbn [length] in Hw, Hf.
    rewrite (proj2 (Z.ltb_lt _ _)) by (destruct l; cbn [letter_bytes length]; lia).
    rewrite !s32_small, (proj2 (Z.leb_le _ _)) by lia.
    assert (forall k y, (letter_bytes l ++ concat (map letter_bytes ls) ++ rest) !! k = Some y -> array_get text (i + Z.of_nat k) = Done y) as Hget.
    { intros k y Hk. apply array_get_Done. split; [lia|]. rewrite <- Hd, lookup_drop in Hk. by replace (Z.to_nat (i + Z.of_nat k)) with (Z.to_nat i + k)%nat by lia. }
    assert (imap (fun k l => (letter_code l, x + 8 * Z.of_nat k)) (l :: ls) =
      (letter_code l, x) :: imap (fun k l => (letter_code l, (x + 8) + 8 * Z.of_nat k)) ls) as ->.
    { cbn [imap]. f_equal; [f_equal; lia|]. apply imap_ext. intros k y _. cbn. f_equal. lia. }
    destruct l as [c|a b]; cbn [letter_bytes length app letter_ok letter_code] in *.
    + pose proof (Hget 0%nat c eq_refl) as G. rewrite Z.add_0_r in G. rewrite G. cbn [mbind outcome_bind].
      rewrite !(proj2 (Z.eqb_neq c _)) by lia. cbn [orb].
      replace (i + Z.of_nat (1 + length (concat (map letter_bytes ls)))) with (i + 1 + Z.of_nat (length (concat (map letter_bytes ls)))) by lia.
      rewrite IH; [done|lia| |lia|lia|lia]. replace (Z.to_nat (i + 1)) with (Z.to_nat i + 1)%nat by lia. by rewrite <- drop_drop, Hd.
    + pose proof (Hget 0%nat a eq_refl) as G0. pose proof (Hget 1%nat b eq_refl) as G1. rewrite Z.add_0_r in G0. change (Z.of_nat 1) with 1 in G1.
      rewrite G0. cbn [mbind outcome_bind]. replace ((a =? 0xd0) || (a =? 0xd1)) with true by (destruct Hl as [[-> | ->] _]; reflexivity).
      rewrite G1. cbn [mbind outcome_bind].
      replace (i + Z.of_nat (2 + length (concat (map letter_bytes ls)))) with (i + 2 + Z.of_nat (length (concat (map letter_bytes ls)))) by lia.
      rewrite IH; [|lia| |lia|lia|lia].
      * cbn [mbind outcome_bind]. do 3 f_equal. rewrite u16_small by (rewrite Z.shiftl_mul_pow2 by lia; destruct Hl as [[-> | ->] _]; lia).
        rewrite (Bytes.lor_disjoint 8) by (change (2 ^ 8) with 256; lia). change (2 ^ 8) with 256. lia.
      * replace (Z.to_nat (i + 2)) with (Z.to_nat i + 2)%nat by lia. by rewrite <- drop_drop, Hd.
Qed.

(** A title that fits between the margins is drawn whole, letter beside letter, and in the
    middle of the screen: from the column that [bootScreenPaint] computes on, with margins
    that differ by less than three letters. *)
Theorem title_is_centred ls rest w :
  Forall letter_ok ls -> 16 <= w < 2 ^ 31 -> Z.of_nat (length ls) <= w / 8 - 2 ->
  let n := Z.of_nat (length ls) in
  let x := u32 ((1 + u32 (u32 (w / 8 - 2) / 2 - n / 2)) * 8) in
  let len := Z.of_nat (length (spelled ls)) in
  Strings.strlen (Strings.cstr (spelled ls) rest) = Done len /\ Strings.mb_strlen (Strings.cstr (spelled ls) rest) = Done n /\
  glyphs (S (Z.to_nat len)) (Strings.cstr (spelled ls) rest) len 0 (s32 x) w = Done (imap (fun k l => (letter_code l, x + 8 * Z.of_nat k)) ls) /\
  8 <= x /\ x + 8 * n <= w /\ Z.abs (x - (w - (x + 8 * n))) < 24.
Proof.
  intros Hls Hw Hn n x len. assert (0 <= w / 8 <= w) as Hq by (Z.to_euclidean_division_equations; lia).
  assert (x = (1 + ((w / 8 - 2) / 2 - n / 2)) * 8) as Ex.
  { unfold x. rewrite (u32_small (w / 8 - 2)) by lia. rewrite (u32_small (_ / 2 - _ / 2)) by (Z.to_euclidean_division_equations; lia).
    apply u32_small. Z.to_euclidean_division_equations; lia. }
  assert (8 <= x /\ x + 8 * n <= w /\ Z.abs (x - (w - (x + 8 * n))) < 24) as (H1 & H2 & H3).
  { rewrite Ex. unfold n. Z.to_euclidean_division_equations; lia. }
  split; [by apply Strings.strlen_cstr, letter_text|]. split; [by apply mb_strlen_letters|]. split; [|done].
  rewrite s32_small by lia. apply (glyphs_run ls _ _ (0 :: rest) 0); [done|lia|done| |lia|lia].
  pose proof (spelled_length ls). lia.
Qed.

(** ** The bar *)

Section Progress.
Variable rs_draw_character : Z -> Z -> Z -> Z -> screen -> outcome screen.
Variable version_text : list Z.

(** The bar after [k] stages of [n]: its width in pixels. *)
Definition bar_width (k n : Z) : Z := 7 * (100 * Z.min k n / n).

(** One stage: the bar gets its width, at most 700 pixels, and the count stays within the
    stages. *)
Theorem stage_grows_bar (d : display) :
  let b := boot d in
  0 < maxElem b < 2 ^ 24 -> 0 <= curElem b <= maxElem b ->
  exists k, k = Z.min (curElem b + 1) (maxElem b) /\ 0 <= bar_width k (maxElem b) <= 700 /\
    bar_width (curElem b) (maxElem b) <= bar_width k (maxElem b) /\
    bootScreenProcentPaint d =
      (s ← drawRect 64 (u32 (16 * u32 (maxHeightLine b - maxHeightLine b / 4 + 2))) (bar_width k (maxElem b)) 16
             (bootScreenTheme (with_elem k b) 0) (scr d);
       Done (Display (with_elem k b) (tty d) s)).
Proof.
  intros b Hm Hc. exists (Z.min (curElem b + 1) (maxElem b)). split; [done|].
  set (n := maxElem b) in *. set (k := Z.min (curElem b + 1) n).
  assert (0 <= k <= n /\ curElem b <= k) as [Hk Hle] by (unfold k; lia).
  assert (0 <= 100 * k / n <= 100) as Hp by (split; [apply Z.div_pos; lia|apply Z.div_le_upper_bound; lia]).
  assert (bar_width k n = 7 * (100 * k / n)) as Ebar by (unfold bar_width; do 3 f_equal; lia).
  split; [lia|]. split.
  { rewrite Ebar. unfold bar_width. apply Z.mul_le_mono_nonneg_l; [lia|]. apply Z.div_le_mono; lia. }
  unfold bootScreenProcentPaint. fold b. fold n. rewrite u32_small by lia.
  replace (if n <=? curElem b + 1 then n else curElem b + 1) with k by (unfold k; destruct (Z.leb_spec n (curElem b + 1)); lia).
  cbn [with_elem maxElem maxHeightLine]. fold n. rewrite (proj2 (Z.eqb_neq n 0)) by lia.
  rewrite (u32_small (k * 100)) by lia. replace (k * 100) with (100 * k) by lia.
  rewrite (u32_small (100 * k / n * 7)) by lia. rewrite Ebar. by replace (100 * k / n * 7) with (7 * (100 * k / n)) by lia.
Qed.

(** [kmain] announces fifteen stages and shows nine: the bar ends at 60 of 100. *)
Theorem bar_ends_early : bar_width 9 15 = 7 * 60.
Proof. reflexivity. Qed.

(** Closing the boot screen leaves every pixel in the background color and the cursor in
    the corner. *)
Theorem close_clears_screen bg tx (d : display) :
  bootscreen_initialized (boot d) = true -> screen_ok (scr d) ->
  framebuffer_width (scr d) < 2 ^ 32 -> framebuffer_height (scr d) < 2 ^ 32 ->
  0 <= framebuffer_width (scr d) -> 0 <= framebuffer_height (scr d) ->
  exists d', bootScreenClose bg tx d = Done d' /\ tty_text_color (tty d') = tx /\ tty_pos_x (tty d') = 0 /\ tty_pos_y (tty d') = 0 /\
    forall px py, on_screen (scr d) px py -> getPixel px py (scr d') = Done (rgb bg).
Proof.
  intros Hi Hok Hw Hh Hw0 Hh0. unfold bootScreenClose. rewrite Hi. cbn [negb].
  destruct (drawRect_paints 0 0 (getScreenWidth (scr d)) (getScreenHeight (scr d)) bg (scr d) Hok) as (s' & -> & _ & Hp);
    [unfold getScreenWidth; lia|unfold getScreenHeight; lia|].
  cbn [mbind outcome_bind]. eexists. split; [done|]. split; [done|]. split; [done|]. split; [done|].
  intros px py Hon. cbn [scr]. rewrite Hp by done. destruct Hon as [Hx Hy]. unfold in_rect, getScreenWidth, getScreenHeight.
  rewrite (proj2 (Z.leb_le 0 px)), (proj2 (Z.leb_le 0 py)), !(proj2 (Z.ltb_lt _ _)) by lia. done.
Qed.

End Progress.
