(* ===== verification/Igfx.v ===== *)
(** * Intel graphics (kernel/src/drv/video/intel.c)

    The driver reads the description of the monitor over the card's serial bus, programs
    the display for its resolution and changes the frame buffers to it.  Registers are
    memory, mapped one to one. *)
From Stdlib Require Import ZArith Lia.
From stdpp Require Import base list numbers.
From S2P Require Import Prelude Bytes Ports.
From S2P Require Pmm Paging Heap Screen.

#[local] Open Scope Z_scope.

Definition IGFX_GMBUS0 : Z := 0x5100.
Definition IGFX_GMBUS1 : Z := 0x5104.
Definition IGFX_GMBUS2 : Z := 0x5108.
Definition IGFX_GMBUS3 : Z := 0x510C.

Record igfx := Igfx { igfx_edid_buffer : list Z; igfx_width : Z; igfx_height : Z }.

Section Driver.
Context {D : Type} `{Mmio D}.
(** Polls after which a wait counts as endless. *)
Variable polls : nat.

Section Registers.
Variable igfx_addr : Z.

Definition IGFX_READ (reg : Z) : IO D Z := fun d => Done (mmio_read (u32 (igfx_addr + reg)) d).
Definition IGFX_WRITE (reg val : Z) : IO D unit := fun d => Done (tt, mmio_write (u32 (igfx_addr + reg)) (u32 val) d).

(** [while (test(IGFX_READ(reg))) ;] *)
Fixpoint read_while (n : nat) (reg : Z) (test : Z -> bool) : IO D unit :=
  match n with
  | O => hang
  | S n' => v ← IGFX_READ reg; if test v then read_while n' reg test else mret tt
  end.

Definition bit_is_set (n v : Z) : bool := negb (Z.land v (Z.shiftl 1 n) =? 0).

Definition igfx_gmbus_reset : IO D unit :=
  _ ← IGFX_WRITE IGFX_GMBUS1 0x80000000;
  _ ← IGFX_WRITE IGFX_GMBUS1 0;
  read_while polls IGFX_GMBUS2 (bit_is_set 9).

Definition igfx_wait : IO D unit := read_while polls IGFX_GMBUS2 (fun v => negb (bit_is_set 11 v)).

Definition gmbus1 : Z :=
  Z.lor (Z.lor (Z.lor (Z.lor (Z.lor (Z.shiftl 1 30) (Z.shiftl 1 26)) (Z.shiftl 1 25)) (Z.shiftl 128 16)) (Z.shiftl 0x50 1)) 1.

(** The description: 32 words. *)
Definition read_edid : IO D (list Z) :=
  _ ← igfx_gmbus_reset;
  _ ← IGFX_WRITE IGFX_GMBUS0 3;
  _ ← IGFX_WRITE IGFX_GMBUS1 gmbus1;
  words ← times 32 (_ ← igfx_wait; IGFX_READ IGFX_GMBUS3);
  _ ← IGFX_WRITE IGFX_GMBUS1 (Z.lor (Z.shiftl 1 30) (Z.shiftl 1 27));
  mret words.

(** [((data[high] >> 4) << 8) | data[low]] *)
Definition timing (data : list Z) (high low : Z) : outcome Z :=
  h ← array_get data high; l ← array_get data low; Done (Z.lor (Z.shiftl (Z.shiftr h 4) 8) l).

Definition resolution (words : list Z) : outcome igfx :=
  let data := concat (map bytes32 words) in
  w ← timing data 0x3a 0x38;
  h ← timing data 0x3d 0x3b;
  Done (Igfx words w h).

Definition clear_bits (reg mask : Z) : IO D unit := v ← IGFX_READ reg; IGFX_WRITE reg (Z.ldiff v mask).
Definition set_bits (reg mask : Z) : IO D unit := v ← IGFX_READ reg; IGFX_WRITE reg (Z.lor v mask).

Definition scanline (w : Z) : Z := u32 (Z.shiftl (Z.land (u32 (w + 15)) (u32 (Z.lnot 15))) 2).

(** Cursors, planes and pipes off, the new size, the frame buffer, and on again. *)
Definition program_display (g : igfx) (framebuffer_addr : Z) : IO D unit :=
  _ ← clear_bits 0x70080 0x27;
  _ ← IGFX_WRITE 0x70084 0;
  _ ← clear_bits 0x700c0 0x27;
  _ ← IGFX_WRITE 0x700c4 0;
  _ ← clear_bits 0x70180 0x80000000;
  _ ← IGFX_WRITE 0x70184 0;
  _ ← clear_bits 0x71180 0x80000000;
  _ ← IGFX_WRITE 0x71184 0;
  _ ← set_bits 0x70024 0x2;
  _ ← set_bits 0x71024 0x2;
  _ ← clear_bits 0x70008 0x80000000;
  _ ← clear_bits 0x71008 0x80000000;
  _ ← read_while polls 0x70008 (bit_is_set 30);
  _ ← read_while polls 0x71008 (bit_is_set 30);
  panel ← IGFX_READ 0x61180;
  let xaddr := if bit_is_set 30 panel then 0x61000 else 0x60000 in
  let command := Z.lor (u32 (Z.shiftl (u32 (igfx_width g - 1)) 16)) (u32 (igfx_height g - 1)) in
  _ ← IGFX_WRITE (xaddr + 0x1C) command;
  _ ← IGFX_WRITE (xaddr + 0x10188) (scanline (igfx_width g));
  _ ← IGFX_WRITE (xaddr + 0x10184) 0;
  _ ← IGFX_WRITE (xaddr + 0x1019c) framebuffer_addr;
  _ ← IGFX_WRITE (xaddr + 0x10184) 0;
  _ ← clear_bits 0x61230 0x80000000;
  _ ← set_bits (xaddr + 0x10008) 0x80000000;
  set_bits (xaddr + 0x10180) 0x80000000.

End Registers.

(** *** The whole *)

Context {M : Type} `{Hpages : Heap.PageOps M}.

(** [bar0] is the first base address in the configuration space, none without the card. *)
Definition igfx_init (bar0 : option Z) (s : Screen.screen) (k : Heap.kernel_memory M)
    : IO D (option igfx * Screen.screen * Heap.kernel_memory M) :=
  match bar0 with
  | None => mret (None, s, k)
  | Some bar =>
      let igfx_addr := Z.ldiff bar 0xF in
      m ← lift (Heap.map_range (Heap.space k) igfx_addr igfx_addr 0x100000 (Z.lor Paging.PAGE_WRITEABLE Paging.PAGE_CACHE_DISABLE));
      words ← read_edid igfx_addr;
      g ← lift (resolution words);
      _ ← program_display igfx_addr g (u32 (Screen.framebuffer_addr s));
      r ← lift (Screen.graphics_update (igfx_width g) (igfx_height g) (scanline (igfx_width g)) s
                  (Heap.KernelMemory (Heap.system_heap k) m));
      mret (Some g, fst r, snd r)
  end.

End Driver.

(** ** The resolution *)

(** Where the description of a monitor puts a size of at most twelve bits. *)
Record describes (data : list Z) (w h : Z) : Prop := Describes {
  d_wl : data !! 0x38%nat = Some (w mod 256);
  d_wh : exists blank, data !! 0x3a%nat = Some (w / 256 * 16 + blank) /\ 0 <= blank < 16;
  d_hl : data !! 0x3b%nat = Some (h mod 256);
  d_hh : exists blank, data !! 0x3d%nat = Some (h / 256 * 16 + blank) /\ 0 <= blank < 16
}.

Lemma timing_run data high low x :
  0 <= x < 4096 -> 0 <= high -> 0 <= low -> data !! Z.to_nat low = Some (x mod 256) ->
  (exists blank, data !! Z.to_nat high = Some (x / 256 * 16 + blank) /\ 0 <= blank < 16) -> timing data high low = Done x.
Proof.
  intros Hx Hh Hl El (b & Eh & Hb). unfold timing.
  rewrite (proj2 (array_get_Done data high _)) by (split; [exact Hh|exact Eh]).
  rewrite (proj2 (array_get_Done data low _)) by (split; [exact Hl|exact El]). cbn [mbind outcome_bind].
  rewrite (lor_disjoint 8) by (change (2 ^ 8) with 256; Z.to_euclidean_division_equations; lia).
  rewrite Z.shiftr_div_pow2 by lia. change (2 ^ 4) with 16. change (2 ^ 8) with 256. f_equal. Z.to_euclidean_division_equations; lia.
Qed.

(** The driver finds the size that the monitor describes. *)
Theorem resolution_of_monitor words w h :
  0 <= w < 4096 -> 0 <= h < 4096 -> describes (concat (map bytes32 words)) w h -> resolution words = Done (Igfx words w h).
Proof.
  intros Hw Hh [W1 W2 H1 H2]. unfold resolution. rewrite (timing_run _ 0x3a 0x38 w), (timing_run _ 0x3d 0x3b h) by (done || lia). done.
Qed.

Lemma scanline_spec w : 0 <= w < 4096 -> scanline w = 64 * ((w + 15) / 16).
Proof.
  intros Hw. unfold scanline. rewrite (u32_small (w + 15)) by lia.
  change 15 with (Z.ones 4) at 2. rewrite land_lnot_ones by lia. change (2 ^ 4) with 16.
  rewrite Z.shiftl_mul_pow2 by lia. change (2 ^ 2) with 4. rewrite u32_small by (Z.to_euclidean_division_equations; lia). lia.
Qed.

(** A line of the new screen holds its pixels at four bytes each, and from 60 columns on the
    screen is taken to have 32 bits a pixel. *)
Theorem line_holds_pixels w : 60 <= w < 4096 -> 4 * w <= scanline w < 4 * w + 64 /\ Z.shiftl (scanline w / w) 3 = 32.
Proof.
  intros Hw. rewrite scanline_spec by lia. assert (64 * ((w + 15) / 16) / w = 4) as ->; [|split; [Z.to_euclidean_division_equations; lia|done]].
  symmetry. apply (Z.div_unique _ _ _ (64 * ((w + 15) / 16) - 4 * w)); [|lia]. left. Z.to_euclidean_division_equations; lia.
Qed.

(** An example: a monitor of 1366 by 768. *)
Definition sample_edid : list Z := replicate 14 0 ++ [0x500056; 0x3000] ++ replicate 16 0.

Lemma resolution_of_monitor_witness : resolution sample_edid = Done (Igfx sample_edid 1366 768).
Proof.
  apply (resolution_of_monitor sample_edid 1366 768); [lia|lia|].
  split; [done|by exists 0; split; [|lia]|done|by exists 0; split; [|lia]].
Defined.
