(* ===== verification/Hda.v ===== *)
(** * High definition audio (kernel/src/drv/audio/hda.c)

    Commands for the codecs go into one ring in memory and their answers come back through
    another, announced by an interrupt; with commands the driver looks for the outputs of
    the audio function group.  [kmain] does not start this driver yet. *)
From Stdlib Require Import ZArith Lia.
From stdpp Require Import base list numbers.
From S2P Require Import Prelude Bytes Ports.
From S2P Require Paging Heap.

#[local] Open Scope Z_scope.

(** The controller as the driver sees it: registers of one, two or four bytes, the rings in
    memory ([PhysMem]), time, and its interrupt line. *)
Class HdaBus (D : Type) := {
  hda_read : Z -> Z -> D -> Z * D;
  hda_write : Z -> Z -> Z -> D -> D;
  hda_spin : D -> D;
  hda_irq_line : D -> bool
}.

Definition VERB (codec node verb command : Z) : Z :=
  Z.lor (Z.lor (Z.lor (u32 (Z.shiftl codec 28)) (u32 (Z.shiftl node 20))) (u32 (Z.shiftl verb 8))) command.

Definition REG_GCAP : Z := 0x00.
Definition REG_SSYNC : Z := 0x34.
Definition REG_DMA_LOW_POSITION_ADDR : Z := 0x70.
Definition REG_DMA_HIGH_POSITION_ADDR : Z := 0x74.

Record hda := Hda {
  hda_vendor : Z;
  hda_addr : Z;
  hda_corb : Z;
  hda_corb_phys : Z;
  hda_rirb : Z;
  hda_rirb_phys : Z;
  hda_corb_entry_count : Z;
  hda_rirb_entry_count : Z;
  hda_corb_current : Z;
  hda_rirb_current : Z;
  hda_irq : Z;
  hda_fired : bool;
  hda_response : Z;
  hda_afg_codec_id : Z;
  hda_afg_node_id : Z;
  hda_output_nodes : list Z
}.

Definition with_bus (vendor addr irq : Z) (c : hda) : hda :=
  Hda vendor addr (hda_corb c) (hda_corb_phys c) (hda_rirb c) (hda_rirb_phys c) (hda_corb_entry_count c) (hda_rirb_entry_count c)
    (hda_corb_current c) (hda_rirb_current c) irq (hda_fired c) (hda_response c) (hda_afg_codec_id c) (hda_afg_node_id c) (hda_output_nodes c).
Definition with_rings (corb corb_phys rirb rirb_phys : Z) (c : hda) : hda :=
  Hda (hda_vendor c) (hda_addr c) corb corb_phys rirb rirb_phys (hda_corb_entry_count c) (hda_rirb_entry_count c)
    (hda_corb_current c) (hda_rirb_current c) (hda_irq c) (hda_fired c) (hda_response c) (hda_afg_codec_id c) (hda_afg_node_id c) (hda_output_nodes c).
Definition with_counts (corb rirb : Z) (c : hda) : hda :=
  Hda (hda_vendor c) (hda_addr c) (hda_corb c) (hda_corb_phys c) (hda_rirb c) (hda_rirb_phys c) corb rirb
    (hda_corb_current c) (hda_rirb_current c) (hda_irq c) (hda_fired c) (hda_response c) (hda_afg_codec_id c) (hda_afg_node_id c) (hda_output_nodes c).
Definition with_corb_current (i : Z) (c : hda) : hda :=
  Hda (hda_vendor c) (hda_addr c) (hda_corb c) (hda_corb_phys c) (hda_rirb c) (hda_rirb_phys c) (hda_corb_entry_count c) (hda_rirb_entry_count c)
    i (hda_rirb_current c) (hda_irq c) (hda_fired c) (hda_response c) (hda_afg_codec_id c) (hda_afg_node_id c) (hda_output_nodes c).
Definition with_answer (rirb_current : Z) (fired : bool) (response : Z) (c : hda) : hda :=
  Hda (hda_vendor c) (hda_addr c) (hda_corb c) (hda_corb_phys c) (hda_rirb c) (hda_rirb_phys c) (hda_corb_entry_count c) (hda_rirb_entry_count c)
    (hda_corb_current c) rirb_current (hda_irq c) fired response (hda_afg_codec_id c) (hda_afg_node_id c) (hda_output_nodes c).
Definition with_afg (codec node : Z) (nodes : list Z) (c : hda) : hda :=
  Hda (hda_vendor c) (hda_addr c) (hda_corb c) (hda_corb_phys c) (hda_rirb c) (hda_rirb_phys c) (hda_corb_entry_count c) (hda_rirb_entry_count c)
    (hda_corb_current c) (hda_rirb_current c) (hda_irq c) (hda_fired c) (hda_response c) codec node nodes.

(** The driver and the machine. *)
Record audio (D : Type) := Audio { card : hda; machine : D }.
Arguments Audio {D} _ _.
Arguments card {D} _.
Arguments machine {D} _.

Section Driver.
Context {D : Type} `{Dbus : HdaBus D} `{Dmem : PhysMem D}.
(** Virtual to physical addresses in the kernel's page directory. *)
Variable v2p : Z -> Z.
(** Polls after which a wait counts as endless. *)
Variable polls : nat.

#[local] Abbreviation M := (IO (audio D)).

Definition driver : M hda := fun s => Done (card s, s).
Definition update (f : hda -> hda) : M unit := fun s => Done (tt, Audio (f (card s)) (machine s)).
Definition on_machine {A} (m : IO D A) : M A := fun s =>
  match m (machine s) with
  | Done (a, d) => Done (a, Audio (card s) d)
  | Hang => Hang
  | Fault => Fault
  end.

Definition READ (width reg : Z) : M Z := c ← driver; on_machine (fun d => Done (hda_read width (u32 (hda_addr c + reg)) d)).
Definition WRITE (width reg value : Z) : M unit :=
  c ← driver; on_machine (fun d => Done (tt, hda_write width (u32 (hda_addr c + reg)) (value mod 2 ^ (8 * width)) d)).
Definition READ8 := READ 1.
Definition READ16 := READ 2.
Definition READ32 := READ 4.
Definition WRITE8 := WRITE 1.
Definition WRITE16 := WRITE 2.
Definition WRITE32 := WRITE 4.

(** A word of a ring. *)
Definition ring_write (a v : Z) : M unit := on_machine (write_virtual v2p a (bytes32 v)).
Definition ring_read (a : Z) : M Z := l ← on_machine (read_virtual v2p 4 a); lift (load32 l 0).

(** ** Answers *)

(** [while(hda_rirb_current != rirb_wp)]; a round for every entry is enough to meet any. *)
Fixpoint answers_loop (fuel : nat) (rirb_wp : Z) : M unit :=
  match fuel with
  | O => hang
  | S fuel' =>
      c ← driver;
      if hda_rirb_current c =? rirb_wp then mret tt
      else if hda_rirb_entry_count c =? 0 then lift Fault
      else
        let current := (hda_rirb_current c + 1) mod hda_rirb_entry_count c in
        response ← ring_read (hda_rirb c + 4 * (current * 2));
        _ ← update (with_answer current true response);
        answers_loop fuel' rirb_wp
  end.

Definition bit (n v : Z) : bool := Z.testbit v n.

Definition hda_interrupt_handler : M unit :=
  interrupt_status ← READ32 0x24;
  if negb (bit 31 interrupt_status) then mret tt
  else if bit 30 interrupt_status then
    rirb_status ← READ8 0x5D;
    _ ← WRITE8 0x5D rirb_status;
    if bit 0 rirb_status then
      rirb_wp ← READ16 0x58;
      c ← driver;
      answers_loop (S (Z.to_nat (hda_rirb_entry_count c))) rirb_wp
    else mret tt
  else mret tt.

(** [while(!hda_fired);]: time goes by, and the handler runs when the line is raised. *)
Fixpoint wait_fired (n : nat) : M unit :=
  match n with
  | O => hang
  | S n' =>
      c ← driver;
      if hda_fired c then mret tt
      else
        _ ← on_machine (fun d => Done (tt, hda_spin d));
        raised ← on_machine (fun d => Done (hda_irq_line d, d));
        _ ← (if raised : bool then hda_interrupt_handler else mret tt);
        wait_fired n'
  end.

Definition hda_send_verb_via_corb_rirb (verb : Z) : M Z :=
  c ← driver;
  if hda_corb_entry_count c =? 0 then lift Fault
  else
    let current := (hda_corb_current c + 1) mod hda_corb_entry_count c in
    _ ← update (with_corb_current current);
    _ ← ring_write (hda_corb c + 4 * current) verb;
    _ ← WRITE16 0x48 (Z.land current 0xff);
    _ ← wait_fired polls;
    _ ← update (fun c => with_answer (hda_rirb_current c) false (hda_response c) c);
    c ← driver;
    mret (hda_response c).

(** ** Discovery *)

(** First node and their number in an answer. *)
Definition first_node (info : Z) : Z := Z.land (Z.shiftr info 16) 0xff.
Definition node_count (info : Z) : nat := Z.to_nat (Z.land info 0xff).

Fixpoint widgets_loop (n : nat) (node : Z) : M unit :=
  match n with
  | O => mret tt
  | S n' =>
      c ← driver;
      caps ← hda_send_verb_via_corb_rirb (VERB (hda_afg_codec_id c) node 0xF00 0x09);
      let type := Z.land (Z.shiftr caps 20) 0xF in
      _ ← (if type =? 0x4 then
             pin ← hda_send_verb_via_corb_rirb (VERB (hda_afg_codec_id c) node 0xF1C 0x00);
             let type_of_node := Z.land (Z.shiftr pin 20) 0xF in
             if (type_of_node =? 0) || (type_of_node =? 1) then
               update (fun c => with_afg (hda_afg_codec_id c) (hda_afg_node_id c) (hda_output_nodes c ++ [node]) c)
             else mret tt
           else mret tt);
      widgets_loop n' (node + 1)
  end.

Definition hda_initialize_afg : M unit :=
  c ← driver;
  let verb v p := VERB (hda_afg_codec_id c) (hda_afg_node_id c) v p in
  _ ← hda_send_verb_via_corb_rirb (verb 0x7ff 0);
  _ ← hda_send_verb_via_corb_rirb (verb 0x705 0);
  _ ← hda_send_verb_via_corb_rirb (verb 0x708 0);
  _ ← hda_send_verb_via_corb_rirb (verb 0xF00 0x0A);
  _ ← hda_send_verb_via_corb_rirb (verb 0xF00 0x0B);
  _ ← hda_send_verb_via_corb_rirb (verb 0xF00 0x0D);
  _ ← hda_send_verb_via_corb_rirb (verb 0xF00 0x12);
  node_data ← hda_send_verb_via_corb_rirb (verb 0xf00 0x04);
  widgets_loop (node_count node_data) (first_node node_data).

Fixpoint groups_loop (n : nat) (codec_id node : Z) : M unit :=
  match n with
  | O => mret tt
  | S n' =>
      function_group_type ← hda_send_verb_via_corb_rirb (VERB codec_id node 0xf00 0x05);
      if Z.land function_group_type 0x7f =? 0x01 then
        _ ← update (fun c => with_afg (hda_afg_codec_id c) node (hda_output_nodes c) c);
        hda_initialize_afg
      else groups_loop n' codec_id (node + 1)
  end.

(** The response only names the codec for the log. *)
Definition hda_find_afg (codec_response codec_id : Z) : M unit :=
  _ ← update (fun c => with_afg codec_id (hda_afg_node_id c) (hda_output_nodes c) c);
  child_nodes_info ← hda_send_verb_via_corb_rirb (VERB codec_id 0 0xf00 0x04);
  groups_loop (node_count child_nodes_info) codec_id (first_node child_nodes_info).

Fixpoint codecs_loop (n : nat) (codec codec_bitmap : Z) : M unit :=
  match n with
  | O => mret tt
  | S n' =>
      _ ← (if negb (bit codec codec_bitmap) then mret tt
           else
             id ← hda_send_verb_via_corb_rirb (VERB codec 0 0xf00 0);
             if negb (id =? 0) then hda_find_afg id codec else mret tt);
      codecs_loop n' (codec + 1) codec_bitmap
  end.

(** ** Start *)

Definition hda_calculate_entries (word : Z) : Z :=
  if Z.land word 0x40 =? 0x40 then 256
  else if Z.land word 0x20 =? 0x20 then 16
  else if Z.land word 0x10 =? 0x10 then 2
  else 0.

Fixpoint read_until (n : nat) (width reg : Z) (test : Z -> bool) : M unit :=
  match n with
  | O => hang
  | S n' => v ← READ width reg; if test v then mret tt else read_until n' width reg test
  end.

Definition hda_reset : M unit :=
  c ← driver;
  if hda_vendor c =? 0 then mret tt
  else
    v ← READ32 0x8;
    _ ← WRITE32 0x8 (Z.ldiff v 1);
    _ ← read_until polls 4 0x08 (fun v => negb (bit 0 v));
    v ← READ32 0x8;
    _ ← WRITE32 0x8 (Z.lor v 1);
    read_until polls 4 0x08 (bit 0).

(** What the bus says: nothing, or vendor, device, the first base address and the interrupt
    register; the rings are the blocks that the heap has given.  The registers are mapped
    by then.  Whether the driver has started. *)
Definition hda_init (found : option (Z * Z * Z * Z)) (corb rirb : Z) : M bool :=
  match found with
  | None => mret false
  | Some (vendor, device, bar0, word) =>
      if (vendor =? 0) || (device =? 0) then mret false
      else
        _ ← update (with_bus vendor (Z.ldiff bar0 15) (Z.land word 0xff));
        _ ← hda_reset;
        _ ← READ16 REG_GCAP;
        _ ← update (fun c => with_afg (hda_afg_codec_id c) (hda_afg_node_id c) [] c);
        _ ← WRITE32 0x20 0;
        _ ← WRITE32 REG_DMA_LOW_POSITION_ADDR 0;
        _ ← WRITE32 REG_DMA_HIGH_POSITION_ADDR 0;
        _ ← WRITE32 REG_SSYNC 0;
        _ ← WRITE8 0x4C 0;
        _ ← WRITE8 0x5C 0;
        _ ← update (with_rings corb (v2p corb) rirb (v2p rirb));
        _ ← on_machine (write_virtual v2p corb (replicate 1024 0));
        _ ← on_machine (write_virtual v2p rirb (replicate 1024 0));
        _ ← WRITE32 0x40 (v2p corb);
        _ ← WRITE32 0x44 0;
        corb_size ← READ8 0x4E;
        _ ← update (fun c => with_counts (hda_calculate_entries corb_size) (hda_rirb_entry_count c) c);
        _ ← WRITE16 0x4A (Z.shiftl 1 15);
        _ ← read_until polls 2 0x4A (bit 15);
        _ ← WRITE16 0x4A 0;
        _ ← read_until polls 2 0x4A (fun v => negb (bit 15 v));
        _ ← WRITE16 0x48 0;
        _ ← WRITE32 0x50 (v2p rirb);
        _ ← WRITE32 0x54 0;
        rirb_size ← READ8 0x5E;
        _ ← update (fun c => with_counts (hda_corb_entry_count c) (hda_calculate_entries rirb_size) c);
        _ ← WRITE16 0x58 (Z.shiftl 1 15);
        _ ← on_machine (fun d => Done (tt, hda_spin d));
        v ← READ16 0x5A;
        _ ← WRITE16 0x5A (Z.lor v 1);
        _ ← WRITE8 0x4C 3;
        _ ← WRITE8 0x5C 3;
        _ ← WRITE32 0x20 (Z.lor (Z.shiftl 1 30) (Z.shiftl 1 31));
        codec_bitmap ← READ16 0x0E;
        _ ← codecs_loop 16 0 codec_bitmap;
        mret true
  end.

End Driver.

(** ** A command is answered *)

(** A machine that is doing nothing lets time go by. *)
Section Answers.
Context {D : Type} `{Dbus : HdaBus D} `{Dmem : PhysMem D}.
Variable v2p : Z -> Z.
Variable polls : nat.
(** What the codecs answer to a verb. *)
Variable answer : Z -> Z.
(** Addresses and sizes that the start of the driver has fixed. *)
Variables (addr corb rirb : Z) (corb_entries rirb_entries : Z).
(** Every command up to this place of the first ring is answered, the last answer at this
    place of the second. *)
Variable idle : Z -> Z -> D -> Prop.

Definition next (i n : Z) : Z := (i + 1) mod n.

(** The line is raised after some time; the status registers then announce an answer, and
    the entry behind the last one holds it. *)
Definition served (cp rp v : Z) (d : D) : Prop :=
  exists k, (S (S k) <= polls)%nat /\
    (forall i, (i < k)%nat -> hda_irq_line (Nat.iter (S i) hda_spin d) = false) /\
    let d0 := Nat.iter (S k) hda_spin d in
    hda_irq_line d0 = true /\
    exists s d1 st d2 d3 l d4,
      hda_read 4 (u32 (addr + 0x24)) d0 = (s, d1) /\ Z.testbit s 31 = true /\ Z.testbit s 30 = true /\
      hda_read 1 (u32 (addr + 0x5D)) d1 = (st, d2) /\ Z.testbit st 0 = true /\
      hda_read 2 (u32 (addr + 0x58)) (hda_write 1 (u32 (addr + 0x5D)) (st mod 2 ^ 8) d2) = (next rp rirb_entries, d3) /\
      read_virtual v2p 4 (rirb + 4 * (next rp rirb_entries * 2)) d3 = Done (l, d4) /\
      load32 l 0 = Done (answer v) /\
      idle cp (next rp rirb_entries) d4.

Hypothesis corb_entries_positive : 0 < corb_entries.
Hypothesis rirb_entries_two : 2 <= rirb_entries.

(** What the controller does with a command that is put into its ring. *)
Hypothesis controller_answers : forall cp rp v d d',
  idle cp rp d ->
  write_virtual v2p (corb + 4 * next cp corb_entries) (bytes32 v) d = Done (tt, d') ->
  served (next cp corb_entries) rp v (hda_write 2 (u32 (addr + 0x48)) (Z.land (next cp corb_entries) 0xff mod 2 ^ 16) d').

(** Between two commands. *)
Record ready (s : audio D) : Prop := {
  ready_addr : hda_addr (card s) = addr;
  ready_corb : hda_corb (card s) = corb;
  ready_rirb : hda_rirb (card s) = rirb;
  ready_corb_entries : hda_corb_entry_count (card s) = corb_entries;
  ready_rirb_entries : hda_rirb_entry_count (card s) = rirb_entries;
  ready_corb_current : 0 <= hda_corb_current (card s) < corb_entries;
  ready_rirb_current : 0 <= hda_rirb_current (card s) < rirb_entries;
  ready_fired : hda_fired (card s) = false;
  ready_idle : idle (hda_corb_current (card s)) (hda_rirb_current (card s)) (machine s)
}.

(** What discovery has found so far. *)
Definition found (s : audio D) : Z * Z * list Z :=
  (hda_afg_codec_id (card s), hda_afg_node_id (card s), hda_output_nodes (card s)).

Lemma next_bound i n : 0 < n -> 0 <= next i n < n.
Proof. intros Hn. apply Z.mod_pos_bound. exact Hn. Qed.

Lemma next_other i n : 2 <= n -> 0 <= i < n -> next i n <> i.
Proof.
  intros Hn Hi. unfold next. destruct (decide (i + 1 = n)) as [E|Hne].
  - rewrite E, Z.mod_same; lia.
  - rewrite Z.mod_small by lia. lia.
Qed.

Lemma READ_run w reg (s : audio D) v d' :
  hda_addr (card s) = addr -> hda_read w (u32 (addr + reg)) (machine s) = (v, d') ->
  READ w reg s = Done (v, Audio (card s) d').
Proof. intros <- E. unfold READ. erewrite bind_run; [|reflexivity]. unfold on_machine. by rewrite E. Qed.

Lemma WRITE_run w reg value (s : audio D) :
  hda_addr (card s) = addr ->
  WRITE w reg value s = Done (tt, Audio (card s) (hda_write w (u32 (addr + reg)) (value mod 2 ^ (8 * w)) (machine s))).
Proof. by intros <-. Qed.

Lemma ring_read_run a (s : audio D) l d' v :
  read_virtual v2p 4 a (machine s) = Done (l, d') -> load32 l 0 = Done v ->
  ring_read v2p a s = Done (v, Audio (card s) d').
Proof.
  intros E El. unfold ring_read. erewrite bind_run; [|unfold on_machine; rewrite E; reflexivity].
  unfold lift. by rewrite El.
Qed.

(** A round of the handler's loop per answer. *)
Lemma answers_loop_stop fuel wp (s : audio D) :
  hda_rirb_current (card s) = wp -> answers_loop v2p (S fuel) wp s = Done (tt, s).
Proof. intros E. cbn [answers_loop]. erewrite bind_run; [|reflexivity]. by rewrite E, Z.eqb_refl. Qed.

Lemma answers_loop_step fuel wp (s : audio D) l d' v :
  hda_rirb_current (card s) <> wp -> hda_rirb_entry_count (card s) = rirb_entries -> hda_rirb (card s) = rirb ->
  read_virtual v2p 4 (rirb + 4 * (next (hda_rirb_current (card s)) rirb_entries * 2)) (machine s) = Done (l, d') ->
  load32 l 0 = Done v ->
  answers_loop v2p (S fuel) wp s =
    answers_loop v2p fuel wp (Audio (with_answer (next (hda_rirb_current (card s)) rirb_entries) true v (card s)) d').
Proof.
  intros Hne En Er E El. cbn [answers_loop]. erewrite bind_run; [|reflexivity].
  rewrite (proj2 (Z.eqb_neq _ _) Hne), En, (proj2 (Z.eqb_neq rirb_entries 0)), Er by lia.
  cbv zeta. rewrite (bind_run _ _ _ _ _ (ring_read_run _ _ _ _ _ E El)). by erewrite bind_run; [|reflexivity].
Qed.

(** One new answer: the handler takes it and stops. *)
Lemma handler_takes_answer c rp v d s d1 st d2 d3 l d4 :
  hda_addr c = addr -> hda_rirb c = rirb -> hda_rirb_entry_count c = rirb_entries ->
  hda_rirb_current c = rp -> 0 <= rp < rirb_entries ->
  hda_read 4 (u32 (addr + 0x24)) d = (s, d1) -> Z.testbit s 31 = true -> Z.testbit s 30 = true ->
  hda_read 1 (u32 (addr + 0x5D)) d1 = (st, d2) -> Z.testbit st 0 = true ->
  hda_read 2 (u32 (addr + 0x58)) (hda_write 1 (u32 (addr + 0x5D)) (st mod 2 ^ 8) d2) = (next rp rirb_entries, d3) ->
  read_virtual v2p 4 (rirb + 4 * (next rp rirb_entries * 2)) d3 = Done (l, d4) ->
  load32 l 0 = Done (answer v) ->
  hda_interrupt_handler v2p (Audio c d) = Done (tt, Audio (with_answer (next rp rirb_entries) true (answer v) c) d4).
Proof.
  intros Ha Hr Hn Hc Hrp E1 B31 B30 E2 B0 E3 E4 E5.
  assert (Hne := next_other rp rirb_entries rirb_entries_two Hrp).
  set (s0 := Audio c d). unfold hda_interrupt_handler, READ32, READ8, READ16, WRITE8, bit.
  rewrite (bind_run _ _ _ _ _ (READ_run 4 0x24 s0 s d1 Ha E1)), B31, B30. cbn [negb].
  rewrite (bind_run _ _ _ _ _ (READ_run 1 0x5D (Audio c d1) st d2 Ha E2)).
  rewrite (bind_run _ _ _ _ _ (WRITE_run 1 0x5D st (Audio c d2) Ha)), B0. cbn [card machine].
  rewrite (bind_run _ _ _ _ _ (READ_run 2 0x58 (Audio c _) _ d3 Ha E3)).
  erewrite bind_run; [|reflexivity]. cbn [card]. rewrite Hn. subst rp.
  destruct (Z.to_nat rirb_entries) as [|fuel] eqn:Ef; [lia|].
  rewrite (answers_loop_step _ _ _ l d4 (answer v)); [|cbn [card machine]; first [done|congruence]..].
  by apply answers_loop_stop.
Qed.

Lemma wait_fired_skip n (s : audio D) :
  hda_fired (card s) = false -> hda_irq_line (hda_spin (machine s)) = false ->
  wait_fired v2p (S n) s = wait_fired v2p n (Audio (card s) (hda_spin (machine s))).
Proof.
  intros Ef El. cbn [wait_fired]. erewrite bind_run; [|reflexivity]. rewrite Ef.
  erewrite bind_run; [|reflexivity]. erewrite bind_run; [|reflexivity]. cbn [card machine]. rewrite El.
  by erewrite bind_run; [|reflexivity].
Qed.

(** Silence costs a poll at a time. *)
Lemma wait_fired_silent k n (s : audio D) :
  hda_fired (card s) = false -> (forall i, (i < k)%nat -> hda_irq_line (Nat.iter (S i) hda_spin (machine s)) = false) ->
  wait_fired v2p (k + n) s = wait_fired v2p n (Audio (card s) (Nat.iter k hda_spin (machine s))).
Proof.
  revert s. induction k as [|k IH]; intros s Ef El; [by destruct s|].
  cbn [Nat.add]. rewrite (wait_fired_skip _ _ Ef (El 0%nat ltac:(lia))).
  rewrite IH; cbn [card machine]; [by rewrite <- Nat.iter_succ_r|done|].
  intros i Hi. rewrite <- Nat.iter_succ_r. apply (El (S i)). lia.
Qed.

(** The wait for a command that is being served ends with its answer. *)
Lemma wait_fired_served (s : audio D) cp rp v :
  hda_addr (card s) = addr -> hda_rirb (card s) = rirb -> hda_rirb_entry_count (card s) = rirb_entries ->
  hda_rirb_current (card s) = rp -> 0 <= rp < rirb_entries -> hda_fired (card s) = false ->
  served cp rp v (machine s) ->
  exists d', wait_fired v2p polls s = Done (tt, Audio (with_answer (next rp rirb_entries) true (answer v) (card s)) d') /\
    idle cp (next rp rirb_entries) d'.
Proof.
  intros Ha Hr Hn Hc Hrp Ef (k & Hk & Hs & Hl & st & d1 & rs & d2 & d3 & l & d4 & E1 & B31 & B30 & E2 & B0 & E3 & E4 & E5 & Hi).
  exists d4. split; [|exact Hi]. replace polls with (k + (2 + (polls - S (S k))))%nat by lia.
  rewrite (wait_fired_silent k _ s Ef Hs). cbn [Nat.add wait_fired]. erewrite bind_run; [|reflexivity].
  cbn [card]. rewrite Ef. erewrite bind_run; [|reflexivity]. erewrite bind_run; [|reflexivity]. cbn [card machine].
  change (hda_spin (Nat.iter k hda_spin (machine s))) with (Nat.iter (S k) hda_spin (machine s)). rewrite Hl.
  rewrite (bind_run _ _ _ _ _ (handler_takes_answer _ rp v _ st d1 rs d2 d3 l d4 Ha Hr Hn Hc Hrp E1 B31 B30 E2 B0 E3 E4 E5)).
  by erewrite bind_run; [|reflexivity].
Qed.
(** A command that is sent when nothing is under way returns the codec's answer to it, and
    the driver is ready for the next one. *)
Theorem send_verb_answered (v : Z) (s : audio D) :
  ready s ->
  exists s', hda_send_verb_via_corb_rirb v2p polls v s = Done (answer v, s') /\ ready s' /\ found s' = found s.
Proof.
  intros [Ha Hc Hr Hcn Hrn Hcc Hrc Hf Hi].
  destruct (write_virtual_done v2p (corb + 4 * next (hda_corb_current (card s)) corb_entries) (bytes32 v) (machine s)) as [d1 E1].
  pose proof (controller_answers _ _ _ _ _ Hi E1) as Hs.
  unfold hda_send_verb_via_corb_rirb. erewrite bind_run; [|reflexivity].
  rewrite Hcn, (proj2 (Z.eqb_neq corb_entries 0)) by lia. cbv zeta. fold (next (hda_corb_current (card s)) corb_entries).
  erewrite bind_run; [|reflexivity]. cbn [card machine]. rewrite Hc.
  erewrite bind_run; [|unfold ring_write, on_machine; cbn [card machine]; rewrite E1; reflexivity].
  unfold WRITE16. rewrite (bind_run _ _ _ _ _ (WRITE_run 2 0x48 _ (Audio (with_corb_current _ (card s)) d1) Ha)). cbn [card machine].
  edestruct (wait_fired_served (Audio (with_corb_current (next (hda_corb_current (card s)) corb_entries) (card s)) _) _ _ v
    Ha Hr Hrn eq_refl Hrc Hf Hs) as (d2 & E2 & Hi2).
  rewrite (bind_run _ _ _ _ _ E2). do 2 (erewrite bind_run; [|reflexivity]). eexists. split; [reflexivity|]. split; [|done].
  constructor; cbn; try done; apply next_bound; lia.
Qed.

(** ** What discovery finds *)

(** A pin whose default device is a line out or a speaker. *)
Definition is_output (codec node : Z) : bool :=
  (Z.land (Z.shiftr (answer (VERB codec node 0xF00 0x09)) 20) 0xF =? 4) &&
  ((Z.land (Z.shiftr (answer (VERB codec node 0xF1C 0x00)) 20) 0xF =? 0) ||
   (Z.land (Z.shiftr (answer (VERB codec node 0xF1C 0x00)) 20) 0xF =? 1)).

(** The children of a node, as it names them. *)
Definition children (codec node : Z) : list Z :=
  let info := answer (VERB codec node 0xf00 0x04) in
  seqZ (first_node info) (Z.of_nat (node_count info)).

Definition is_audio_group (codec node : Z) : bool :=
  Z.land (answer (VERB codec node 0xf00 0x05)) 0x7f =? 1.

(** The first audio group of a codec carries its pins. *)
Definition outputs (codec : Z) : list Z :=
  match List.find (is_audio_group codec) (children codec 0) with
  | Some group => List.filter (is_output codec) (children codec group)
  | None => []
  end.

Definition present (codec_bitmap codec : Z) : bool :=
  Z.testbit codec_bitmap codec && negb (answer (VERB codec 0 0xf00 0) =? 0).

Lemma ready_with_afg (s : audio D) codec node nodes :
  ready s -> ready (Audio (with_afg codec node nodes (card s)) (machine s)).
Proof. intros [? ? ? ? ? ? ? ? ?]. by constructor. Qed.

(** [m] is ready again when it ends, and has found [f] of what was found before. *)
Definition finds (m : IO (audio D) unit) (s : audio D) (f : Z * Z * list Z) : Prop :=
  exists s', m s = Done (tt, s') /\ ready s' /\ found s' = f.

Lemma send_then (v : Z) (k : Z -> IO (audio D) unit) (s : audio D) f :
  ready s -> (forall s', ready s' -> found s' = found s -> finds (k (answer v)) s' f) ->
  finds (x ← hda_send_verb_via_corb_rirb v2p polls v; k x) s f.
Proof.
  intros Hr Hk. destruct (send_verb_answered v s Hr) as (s1 & E1 & Hr1 & Hf1).
  destruct (Hk s1 Hr1 Hf1) as (s2 & E2 & H2). exists s2. split; [|exact H2]. by rewrite (bind_run _ _ _ _ _ E1).
Qed.

Lemma finds_then (m k : IO (audio D) unit) (s : audio D) f g :
  finds m s f -> (forall s', ready s' -> found s' = f -> finds k s' g) -> finds (_ ← m; k) s g.
Proof.
  intros (s1 & E1 & Hr1 & Hf1) Hk. destruct (Hk s1 Hr1 Hf1) as (s2 & E2 & H2).
  exists s2. split; [|exact H2]. by rewrite (bind_run _ _ _ _ _ E1).
Qed.

Lemma finds_nothing (s : audio D) f : ready s -> found s = f -> finds (mret tt) s f.
Proof. intros Hr Hf. by exists s. Qed.

Lemma finds_update (s : audio D) codec node nodes (g : hda -> hda) :
  ready s -> g (card s) = with_afg codec node nodes (card s) -> finds (update g) s (codec, node, nodes).
Proof.
  intros Hr Eg. exists (Audio (g (card s)) (machine s)). split; [done|]. rewrite Eg.
  split; [by apply ready_with_afg|done].
Qed.

Lemma found_inv (s : audio D) codec node nodes :
  found s = (codec, node, nodes) -> hda_afg_codec_id (card s) = codec /\ hda_afg_node_id (card s) = node /\ hda_output_nodes (card s) = nodes.
Proof. intros E. by injection E as -> -> ->. Qed.

Lemma with_driver (k : hda -> IO (audio D) unit) (s : audio D) f :
  finds (k (card s)) s f -> finds (c ← driver; k c) s f.
Proof. intros (s' & E & H). exists s'. split; [|exact H]. by erewrite bind_run; [|reflexivity]. Qed.

Lemma seqZ_S m n : seqZ m (Z.of_nat (S n)) = m :: seqZ (m + 1) (Z.of_nat n).
Proof. rewrite seqZ_cons by lia. unfold Z.succ. do 2 f_equal. lia. Qed.

Lemma widgets_loop_finds n node (s : audio D) codec group nodes :
  ready s -> found s = (codec, group, nodes) ->
  finds (widgets_loop v2p polls n node) s
    (codec, group, nodes ++ List.filter (is_output codec) (seqZ node (Z.of_nat n))).
Proof.
  revert node s nodes. induction n as [|n IH]; intros node s nodes Hr Hf.
  { rewrite app_nil_r. by apply finds_nothing. }
  rewrite seqZ_S. cbn [widgets_loop]. apply with_driver. destruct (found_inv _ _ _ _ Hf) as (Ec & Eg & En). rewrite Ec.
  apply send_then; [done|]. intros s1 Hr1 Hf1. rewrite Hf in Hf1. cbv zeta.
  apply (finds_then _ _ _ (codec, group, nodes ++ List.filter (is_output codec) [node])).
  - cbn [List.filter]. unfold is_output. destruct (Z.land _ 15 =? 4); cbn [andb]; [|rewrite app_nil_r; by apply finds_nothing].
    apply send_then; [done|]. intros s2 Hr2 Hf2. rewrite Hf1 in Hf2. destruct (found_inv _ _ _ _ Hf2) as (Ec2 & Eg2 & En2).
    destruct (_ || _); [apply finds_update; [done|by rewrite Ec2, Eg2, En2]|rewrite app_nil_r; by apply finds_nothing].
  - intros s2 Hr2 Hf2. change (node :: ?l) with ([node] ++ l). rewrite List.filter_app, app_assoc. by apply IH.
Qed.

Ltac send_and := apply send_then; [done|]; let s := fresh "s" in let Hr := fresh "Hr" in let Hf := fresh "Hf" in
  intros s Hr Hf; match goal with H : found ?s0 = _, H' : found s = found ?s0 |- _ => rewrite H in H'; clear H end.

Lemma initialize_afg_finds (s : audio D) codec group nodes :
  ready s -> found s = (codec, group, nodes) ->
  finds (hda_initialize_afg v2p polls) s (codec, group, nodes ++ List.filter (is_output codec) (children codec group)).
Proof.
  intros Hr Hf. unfold hda_initialize_afg. apply with_driver. destruct (found_inv _ _ _ _ Hf) as (-> & -> & En). cbv zeta.
  do 8 send_and. by apply widgets_loop_finds.
Qed.

Lemma groups_loop_finds n codec node (s : audio D) group nodes :
  ready s -> found s = (codec, group, nodes) ->
  exists group', finds (groups_loop v2p polls n codec node) s
    (codec, group', nodes ++
       match List.find (is_audio_group codec) (seqZ node (Z.of_nat n)) with
       | Some g => List.filter (is_output codec) (children codec g)
       | None => []
       end).
Proof.
  revert node s. induction n as [|n IH]; intros node s Hr Hf.
  { exists group. rewrite app_nil_r. by apply finds_nothing. }
  rewrite seqZ_S. cbn [groups_loop List.find]. unfold is_audio_group at 1.
  destruct (Z.land _ 127 =? 1) eqn:Eg.
  - exists node. send_and. rewrite Eg. apply (finds_then _ _ _ (codec, node, nodes)).
    + destruct (found_inv _ _ _ _ Hf0) as (Ec & _ & En). apply finds_update; [done|by rewrite Ec, En].
    + intros s2 Hr2 Hf2. by apply initialize_afg_finds.
  - destruct (send_verb_answered (VERB codec node 0xf00 0x05) s Hr) as (s1 & E1 & Hr1 & Hf1). rewrite Hf in Hf1.
    destruct (IH (node + 1) s1 Hr1 Hf1) as (g & s2 & E2 & H2). exists g, s2. split; [|exact H2].
    by rewrite (bind_run _ _ _ _ _ E1), Eg.
Qed.

Lemma find_afg_finds codec response (s : audio D) c group nodes :
  ready s -> found s = (c, group, nodes) ->
  exists group', finds (hda_find_afg v2p polls response codec) s (codec, group', nodes ++ outputs codec).
Proof.
  intros Hr Hf. destruct (found_inv _ _ _ _ Hf) as (Ec & Eg & En).
  set (s0 := Audio (with_afg codec group nodes (card s)) (machine s)).
  assert (Hr0 : ready s0) by (by apply ready_with_afg).
  destruct (send_verb_answered (VERB codec 0 0xf00 0x04) s0 Hr0) as (s1 & E1 & Hr1 & Hf1).
  edestruct (groups_loop_finds (node_count (answer (VERB codec 0 0xf00 4))) codec (first_node (answer (VERB codec 0 0xf00 4))) s1)
    as (g & s2 & E2 & H2); [done|exact Hf1|].
  exists g, s2. split; [|exact H2]. unfold hda_find_afg.
  erewrite bind_run; [|unfold update; rewrite Eg, En; reflexivity]. by rewrite (bind_run _ _ _ _ _ E1).
Qed.

(** From the start of the driver on, every codec that is present is searched, and the
    outputs of its audio group are what the driver keeps, in order. *)
Theorem discovery_finds_outputs n codec codec_bitmap (s : audio D) :
  ready s ->
  exists s', codecs_loop v2p polls n codec codec_bitmap s = Done (tt, s') /\ ready s' /\
    hda_output_nodes (card s') = hda_output_nodes (card s) ++
      flat_map outputs (List.filter (present codec_bitmap) (seqZ codec (Z.of_nat n))).
Proof.
  revert codec s. induction n as [|n IH]; intros codec s Hr.
  { exists s. by rewrite app_nil_r. }
  rewrite seqZ_S. cbn [codecs_loop List.filter]. unfold present at 1, bit.
  destruct (Z.testbit codec_bitmap codec); cbn [negb andb].
  2:{ destruct (IH (codec + 1) s Hr) as (s1 & E1 & H1). exists s1. split; [|exact H1]. by erewrite bind_run; [|reflexivity]. }
  destruct (send_verb_answered (VERB codec 0 0xf00 0) s Hr) as (s1 & E1 & Hr1 & Hf1).
  assert (En1 : hda_output_nodes (card s1) = hda_output_nodes (card s)) by (by injection Hf1).
  destruct (answer (VERB codec 0 0xf00 0) =? 0) eqn:E0; cbn [negb].
  - destruct (IH (codec + 1) s1 Hr1) as (s2 & E2 & Hr2 & H2). exists s2. rewrite <- En1. split; [|done].
    erewrite bind_run; [exact E2|]. by rewrite (bind_run _ _ _ _ _ E1), E0.
  - edestruct (find_afg_finds codec (answer (VERB codec 0 0xf00 0)) s1) as (g & s2 & E2 & Hr2 & Hf2); [done|reflexivity|].
    destruct (IH (codec + 1) s2 Hr2) as (s3 & E3 & Hr3 & H3). exists s3. split; [|split; [done|]].
    + erewrite bind_run; [exact E3|]. rewrite (bind_run _ _ _ _ _ E1), E0. exact E2.
    + injection Hf2 as _ _ En2. cbn [flat_map]. by rewrite H3, En2, En1, app_assoc.
Qed.
End Answers.

Lemma land_one_bit w j : 0 <= j -> (Z.land w (2 ^ j) =? 2 ^ j) = Z.testbit w j.
Proof.
  intros Hj. assert (Z.land w (2 ^ j) = if Z.testbit w j then 2 ^ j else 0) as ->.
  { apply Z.bits_inj'. intros k Hk. rewrite Z.land_spec, Z.pow2_bits_eqb by lia.
    destruct (Z.eqb_spec j k) as [<-|Hne]; rewrite ?andb_true_r, ?andb_false_r.
    - by destruct (Z.testbit w j); rewrite ?Z.bits_0, ?Z.pow2_bits_true by lia.
    - destruct (Z.testbit w j); by rewrite ?Z.bits_0, ?Z.pow2_bits_false by lia. }
  destruct (Z.testbit w j); [apply Z.eqb_refl|]. apply Z.eqb_neq. lia.
Qed.

(** The rings have the entries that the largest capability names. *)
Lemma hda_calculate_entries_values word :
  hda_calculate_entries word =
    if Z.testbit word 6 then 256 else if Z.testbit word 5 then 16 else if Z.testbit word 4 then 2 else 0.
Proof.
  rewrite <- !land_one_bit by lia. reflexivity.
Qed.

(** ** A controller that meets the laws *)

(** Rings of two entries, a codec with one audio group, and in it a speaker at node 2. *)
Record desk := Desk { desk_mem : Z -> Z; desk_wp : Z }.

Definition desk_reply (verb : Z) : Z :=
  if verb =? 0x000f0000 then 0x80860000
  else if verb =? 0x000f0004 then 0x00010001
  else if verb =? 0x001f0005 then 1
  else if verb =? 0x001f0004 then 0x00020002
  else if verb =? 0x002f0009 then 0x00400000
  else if verb =? 0x002f1c00 then 0x00100000
  else 0.

Definition poke (a b : Z) (m : Z -> Z) : Z -> Z := fun x => if x =? a then b else m x.
Definition word_at (a : Z) (m : Z -> Z) : Z := m a + 256 * m (a + 1) + 65536 * m (a + 2) + 16777216 * m (a + 3).
Definition poke_word (a w : Z) (m : Z -> Z) : Z -> Z :=
  poke (a + 3) ((w / 16777216) mod 256) (poke (a + 2) ((w / 65536) mod 256) (poke (a + 1) ((w / 256) mod 256) (poke a (w mod 256) m))).

#[export] Instance desk_memory : PhysMem desk := {
  mem_read a d := desk_mem d a;
  mem_write a b d := Desk (poke a b (desk_mem d)) (desk_wp d)
}.

#[export] Instance desk_controller : HdaBus desk := {
  hda_read w reg d := (if reg =? 0x24 then 0xc0000000 else if reg =? 0x58 then desk_wp d else 1, d);
  hda_write w reg v d :=
    if reg =? 0x48 then
      let wp := next (desk_wp d) 2 in
      Desk (poke_word (0x2000 + 4 * (wp * 2)) (desk_reply (word_at (0x1000 + 4 * v) (desk_mem d))) (desk_mem d)) wp
    else d;
  hda_spin d := d;
  hda_irq_line d := true
}.

Lemma word_at_poke_word a w m : word_at a (poke_word a w m) = u32 w.
Proof.
  unfold word_at, poke_word, poke. rewrite !Z.eqb_refl.
  repeat match goal with |- context [?x =? ?y] => rewrite (proj2 (Z.eqb_neq x y)) by lia end.
  unfold u32. Z.to_euclidean_division_equations. lia.
Qed.

Lemma write_virtual_poke_word a w d :
  write_virtual (fun v => v) a (bytes32 w) d = Done (tt, Desk (poke_word a w (desk_mem d)) (desk_wp d)).
Proof.
  unfold poke_word. replace (a + 3) with (a + 1 + 1 + 1) by lia. replace (a + 2) with (a + 1 + 1) by lia. reflexivity.
Qed.

Lemma read_virtual_word_at a d :
  exists l, read_virtual (fun v => v) 4 a d = Done (l, d) /\ load32 l 0 = Done (word_at a (desk_mem d)).
Proof.
  exists [desk_mem d a; desk_mem d (a + 1); desk_mem d (a + 2); desk_mem d (a + 3)].
  replace (a + 3) with (a + 1 + 1 + 1) by lia. replace (a + 2) with (a + 1 + 1) by lia. split; [reflexivity|].
  unfold word_at. replace (a + 3) with (a + 1 + 1 + 1) by lia. replace (a + 2) with (a + 1 + 1) by lia. reflexivity.
Qed.

Lemma desk_serves cp rp v d d' :
  desk_wp d = rp ->
  write_virtual (fun v => v) (0x1000 + 4 * next cp 2) (bytes32 v) d = Done (tt, d') ->
  served (fun v => v) 2 (fun v => desk_reply (u32 v)) 0 0x2000 2 (fun _ rp d => desk_wp d = rp) (next cp 2) rp v
    (hda_write 2 (u32 (0 + 0x48)) (Z.land (next cp 2) 0xff mod 2 ^ 16) d').
Proof.
  intros <- E. rewrite write_virtual_poke_word in E. injection E as <-. exists 0%nat. split; [lia|]. split; [lia|].
  split; [done|]. pose proof (next_bound cp 2 ltac:(lia)) as Hb.
  assert (Z.land (next cp 2) 0xff mod 2 ^ 16 = next cp 2) as ->.
  { revert Hb. generalize (next cp 2). intros x Hb. change 0xff with (Z.ones 8). rewrite Z.land_ones by lia.
    rewrite (Z.mod_small x); [apply Z.mod_small|]; lia. }
  cbn [hda_write desk_controller]. change (u32 (0 + 0x48) =? 0x48) with true. cbv iota zeta. cbn [desk_mem desk_wp].
  rewrite word_at_poke_word.
  set (d1 := Desk _ _). cbn [Nat.iter hda_spin desk_controller].
  destruct (read_virtual_word_at (0x2000 + 4 * (next (desk_wp d) 2 * 2)) d1) as (l & El & Ew).
  exists 0xc0000000, d1, 1, d1, d1, l, d1. repeat (split; [reflexivity|]). split; [exact El|]. split; [|reflexivity].
  rewrite Ew. unfold d1. cbn [desk_mem]. rewrite word_at_poke_word. f_equal. unfold desk_reply.
  repeat (destruct (_ =? _); [reflexivity|]). reflexivity.
Qed.

(** With it discovery ends and finds the speaker. *)
Lemma desk_has_speaker :
  let s := Audio (Hda 0x8086 0 0x1000 0x1000 0x2000 0x2000 2 2 0 0 11 false 0 0 0 []) (Desk (fun _ => 0) 0) in
  exists s', codecs_loop (fun v => v) 2 16 0 1 s = Done (tt, s') /\ hda_output_nodes (card s') = [2].
Proof.
  intros s. edestruct (discovery_finds_outputs (fun v => v) 2 (fun v => desk_reply (u32 v)) 0 0x1000 0x2000 2 2
    (fun _ rp d => desk_wp d = rp) ltac:(lia) ltac:(lia) desk_serves 16 0 1 s) as (s' & E & _ & Hn).
  - by constructor.
  - exists s'. split; [exact E|]. rewrite Hn. reflexivity.
Qed.
